(* ===== verification/_CoqProject ===== *)
-Q . S2P
Prelude.v
CString.v
Printf.v
Locks.v
Numeric.v
ProcDefs.v
Sched.v
ProcLife.v
ProcInfo.v
Guarded.v
Pipe.v
Kalloc.v
Bytes.v
Log.v
Bio.v
Ide.v
Expr.v
Console.v
LineEdit.v
Vm.v
VmSpace.v
Shm.v
Fs.v
FsBlocks.v
FsInode.v
FsDir.v
Mkfs.v
MkfsImage.v
MkfsMount.v
File.v
FileRefs.v
FileIO.v
Exec.v
ExecMem.v
ExecLoad.v
Syscall.v
Trap.v
ProcInv.v
Kbd.v
Umalloc.v
Grep.v
Text.v
Sh.v
ShParse.v
Uproc.v
ShRun.v
Progs.v
Descriptors.v
Filters.v
Machine.v
Devices.v
Gates.v
Boot.v
Startup.v
