(* ===== verification/Prelude.v ===== *)
(** * A verification of UT_OS

    UT_OS is a small Unix-like operating system for 32-bit x86 multiprocessors, written in
    C: a kernel derived from xv6, extended with a multi-level feedback scheduler, line
    editing and a calculator in the console, shared memory, re-entrant locks, system-call
    statistics and a call that moves files, and a few user programs.  This library models
    its routines, one definition for one routine or loop, and proves what makes them
    correct.

    ** The system

    User programs ([sh.c], [grep.c], ..., with the library [ulib.c], [printf.c],
    [umalloc.c]) enter the kernel by a trap ([trap.c]), which dispatches system calls
    ([syscall.c]) to their handlers ([sysproc.c], [sysfile.c]).  Processes live in one
    table ([proc.c]), which the scheduler of every CPU searches under one lock.  Open files
    ([file.c]) are pipes ([pipe.c]) or inodes ([fs.c]); the file system changes blocks
    through a write-ahead log ([log.c]) over a buffer cache ([bio.c]) over a disk, an IDE
    drive ([ide.c]) or memory ([memide.c]).  [mkfs.c], on the host, makes the first file
    system; the boot loader ([bootmain.c]) loads the kernel, which finds the CPUs in the
    machine's tables ([mp.c]), sets up the interrupt controllers ([lapic.c], [ioapic.c])
    and starts the other CPUs ([main.c]); the first process runs [init.c], and that the
    shell, by [exec] ([exec.c]).  Address spaces ([vm.c]) are made of pages from one allocator
    ([kalloc.c]); some pages can be shared.  The keyboard ([kbd.c]) feeds the console
    ([console.c]), which is a file to its readers.  Everything is protected by spin locks,
    sleep locks and re-entrant locks ([spinlock.c], [sleeplock.c], [reentrantlock.c]).

    ** How the code is translated

    Routines are functions in the monad [M S A] of this file: run on a state, they return
    a value, panic, go to sleep on a channel, or fault, where C leaves the behaviour
    undefined (an access outside an array, a signed overflow, a lock spun on for ever) or
    where a loop is still running when its fuel is used up.  [int], [uint] and the narrower
    types are [Z] with the wrap-around written out ([i32], [u32], ...).  [wp] and [wlp] are
    the total and partial correctness of a routine; [Guarded] adds the same for a structure
    under a lock ([runs], [tries]).  Where a component calls another, it does so through a
    type class with the operations it uses ([ProcEnv], [BlockIO], [UserMem], [SysEnv],
    [TrapEnv], [PipeEnv]); [Bio] implements [BlockIO] for the log, and [Vm]'s page tables
    implement [UserMem].  Devices are type classes too: the operations are the instructions
    the code uses ([Drive], [Apic], [Ports]), and a second class has what the manuals say
    of a device that works ([DriveOk], [ApicOk], [UartOk]), with an instance each.  User
    programs that only make system calls are trees of calls ([Uproc]), and what they do is
    the trace of the tree over a table of descriptors; [Descriptors] shows that the
    kernel's descriptors behave as that table does.

    ** The files

    - [Prelude]: integers, outcomes, the monad and its rules.  [Guarded]: a structure under
      a spin lock.  [Bytes]: integers in blocks of bytes.
    - [CString] ([string.c], part of [ulib.c]): [memmove], [strncpy] and the rest meet
      their specifications.  [Printf] ([cprintf] of [console.c], [printf.c]): the two
      agree, and what [printint] prints reads back.
    - [Locks] ([spinlock.c], [sleeplock.c], [reentrantlock.c]): mutual exclusion in every
      interleaving, nesting of interrupt disabling, the abstract owner of a sleep lock.
    - [Numeric] (the Fibonacci, factorial and palindrome calls of [proc.c]).
    - [ProcDefs], [Sched], [ProcLife], [ProcInfo] ([proc.c], [proc.h]): the scheduler picks
      what its policies say, starves nobody and leaves no CPU idle while there is work;
      [ProcInv] has the steps of the kernel on the process table, those of [exec], traps
      and system calls included, and the invariant that every reachable state satisfies.
    - [Pipe] ([pipe.c]): a bounded first-in first-out queue; with the processes that sleep
      on it, no wake-up is lost, unless a killed writer fills the pipe.
    - [Kalloc] ([kalloc.c]): no page is handed out twice or lost.
    - [Log] ([log.c]): after a crash at any moment, and any number of crashes in recovery,
      a transaction has happened entirely or not at all; reservations keep the log from
      overflowing.  [Bio] ([bio.c], [memide.c]): the cache is an array of blocks, and
      recycles the least recently used buffer.  [Ide] ([ide.c]): the driver and a drive
      that works are an array of blocks with a queue of requests, and a process that waits
      for its buffer sleeps until its request is done.
    - [Expr], [Console], [LineEdit] ([console.c]): the calculator finds and solves sums; an
      editing session leaves in the buffer and on the screen what an abstract line editor
      has, with nothing left behind it, and the reader gets that line.  [Kbd] ([kbd.c]): the
      driver returns what is typed on a US keyboard.
    - [Vm], [VmSpace] ([vm.c]): growing, shrinking, copying and freeing address spaces, for
      every size and with memory running out at any point.  [Shm] (the shared pages of
      [vm.c]).
    - [Fs], [FsBlocks], [FsInode], [FsDir] ([fs.c]): allocation of blocks, reading and
      writing of contents, isolation of files, directories, paths.  [File], [FileRefs]
      ([file.c], [sysfile.c]): the calls on files, and the exactness of reference counts
      as long as no [move_file] fails.
      [FileIO]: [read] and [write] of files, in transactions that fit the log.  [Mkfs],
      [MkfsImage], [MkfsMount] ([mkfs.c]): the image is a file system the kernel can use,
      with the files it was given.
    - [Exec], [ExecMem], [ExecLoad] ([exec.c], the rest of [vm.c]): [exec] of a program
      makes the process run it, and a failing [exec] leaves the process as it was.
    - [Syscall], [Trap] ([syscall.c], [sysproc.c], [trap.c]): arguments are only taken from
      the caller's own memory; a trap does not return to a killed process.  [Gates]
      ([mmu.h], [tvinit], [seginit]): user code enters the kernel by the system call gate
      only, and cannot use ports.
    - [Boot] ([bootmain.c]): the boot loader loads the kernel.  [Machine] ([mp.c],
      [ioapic.c]): the CPUs of the tables are found, interrupts go where they are sent.
      [Devices] ([lapic.c], [uart.c]): the clock is read consistently, the local APIC is
      set up, bytes are sent and received in order.  [Startup] ([main.c]): every other CPU
      is started, with a stack of its own.
    - [Umalloc] ([umalloc.c]), [Grep] ([grep.c]), [Text] ([encode.c], [decode.c], [wc.c],
      [cat.c]), [Sh], [ShParse] (the parser of [sh.c]): the allocator keeps blocks apart and
      loses no memory; [grep] prints the lines in the language of its pattern; [decode]
      inverts [encode]; the shell's parser decides its grammar.  [Filters] has the main
      programs of [grep], [wc] and [cat].
    - [Uproc], [ShRun] (the rest of [sh.c], [gets] of [ulib.c]), [Progs] ([echo.c],
      [init.c], [ls.c] and other small programs): the shell carries out [cd] and runs each
      other line of its input in a child, with the plumbing that the command on it means.  [Descriptors]: see above.

    Theorems that show a defect of the code, by running it on a concrete state, are in the
    file of the component they concern.

    ** Bounds and fuel

    Loops that C bounds by a counter recurse on the counter.  Other loops have fuel, and
    running out of it is the fault [OutOfFuel], so a theorem that says a routine returns
    says that the fuel is enough: a [readi] or [writei] of [n] bytes makes at most [n / 512
    + 2] turns; [dirlookup] one for each entry; [namex] at most one for each byte of the
    path; [balloc] one for each block of bitmap; [grep], [wc] and [cat] read at least a byte
    in each turn; the parser's fuel is the length of the line; [malloc] walks the ring of
    free blocks twice at most, so twice its length is enough, and the ring grows by one
    block for each call.  The scheduler theorems bound the number of rounds themselves.
    [iappend] of [mkfs] makes at most a turn for each byte; the loop of the shell one for
    each line, and each line has a byte.  [init] runs for ever, so its theorem is about any
    number of turns.  Loops that wait for a device poll it at most as often as its class
    says ([dv_patience], [ap_patience]); [cmostime] is done when the clock is left alone
    for 26 reads, and [mpinit] has [TABLE_FUEL] turns, more than the entries of 8 bytes
    that fit in the 65535 of the longest table.

    ** Not modelled

    [main] of [main.c] only calls the initialisers of the components in turn.  The assembly
    files ([bootasm.S], [entry.S], [entryother.S], [swtch.S], [trapasm.S], [initcode.S],
    [usys.S]) are not translated, for want of a model of the processor; where C relies on
    one, the model has what it does: the words [entryother.S] reads, the point of a context
    switch.  [getcallerpcs] records a back trace for messages.  [stat] of [ulib.c] is [open],
    [fstat] and [close].  [usertests.c], [forktest.c], [stressfs.c] and [test.c] are tests
    of the running system, with no function of their own.  Messages printed along the way,
    other than by the printing routines, the console and the user programs, are left out,
    and so is the passing of time: that a device is polled long enough is a bound on the
    number of polls. *)

From stdpp Require Export base list strings numbers gmap sets.
From Stdlib Require Export ZArith Lia ZifyBool.

#[global] Open Scope Z_scope.

(** ** Machine integers

    C's [uint], [int], [uchar], [char], [ushort] and [short] on the 32-bit x86
    target, as [Z] with the wrap-around written out. *)

Definition u32 (x : Z) : Z := x mod 2 ^ 32.
Definition i32 (x : Z) : Z := (x + 2 ^ 31) mod 2 ^ 32 - 2 ^ 31.
Definition u16 (x : Z) : Z := x mod 2 ^ 16.
Definition i16 (x : Z) : Z := (x + 2 ^ 15) mod 2 ^ 16 - 2 ^ 15.
Definition u8 (x : Z) : Z := x mod 2 ^ 8.
Definition i8 (x : Z) : Z := (x + 2 ^ 7) mod 2 ^ 8 - 2 ^ 7.

Definition INT_MIN : Z := - 2 ^ 31.
Definition INT_MAX : Z := 2 ^ 31 - 1.
Definition in_i32 (x : Z) : Prop := INT_MIN <= x <= INT_MAX.
Definition in_u32 (x : Z) : Prop := 0 <= x < 2 ^ 32.

(** C's truth value of an integer, and the [int] of a comparison. *)
Definition ctrue (x : Z) : bool := negb (x =? 0).
Definition b2z (b : bool) : Z := if b then 1 else 0.

Ltac unfold_int := unfold in_i32, in_u32, u32, i32, u16, i16, u8, i8, INT_MIN, INT_MAX in *.

Lemma u32_small x : 0 <= x < 2 ^ 32 -> u32 x = x.
Proof. apply Z.mod_small. Qed.

Lemma u32_range x : 0 <= u32 x < 2 ^ 32.
Proof. unfold_int; apply Z.mod_pos_bound; lia. Qed.

Lemma i32_small x : in_i32 x -> i32 x = x.
Proof. unfold_int; intros; rewrite Z.mod_small by lia; lia. Qed.

Lemma i32_range x : in_i32 (i32 x).
Proof. unfold_int; pose proof (Z.mod_pos_bound (x + 2 ^ 31) (2 ^ 32)); lia. Qed.

Lemma u8_small x : 0 <= x < 256 -> u8 x = x.
Proof. apply Z.mod_small. Qed.

Lemma u8_range x : 0 <= u8 x < 256.
Proof. unfold_int; apply Z.mod_pos_bound; lia. Qed.

Lemma i32_u32 x : i32 (u32 x) = i32 x.
Proof.
  unfold_int. f_equal.
  rewrite <- (Zplus_mod_idemp_l x). reflexivity.
Qed.

Create HintDb cint.
Create Rewrite HintDb cint.
#[export] Hint Resolve u32_range i32_range u8_range : cint.
#[export] Hint Rewrite u32_small i32_small u8_small using lia : cint.

Definition PGSIZE : Z := 4096.

(** ** Outcomes of kernel code

    A kernel routine runs on a state and returns, calls [panic], gives up the
    CPU in [sleep], or goes wrong.  [Sleep ch k s] is a call of [sleep] on the
    channel [ch] inside a loop whose counter is [k]: the process resumes at the
    head of that loop once it is woken.  [Fault] is behaviour C leaves undefined
    or that never comes back: an access outside an array, a null dereference,
    a signed overflow, a lock spun on for ever, and a loop still running when its fuel is used up. *)

Inductive chan :=
  | CNull
  | CProc (i : nat)
  | CTicks
  | CInput
  | CLog
  | CBuf (i : nat)
  | CSleeplock (i : nat)
  | CPipeRead (i : nat)
  | CPipeWrite (i : nat).

#[global] Instance chan_eq_dec : EqDecision chan.
Proof. solve_decision. Defined.

Inductive fault :=
  | OutOfBounds
  | NullDeref
  | DivideByZero
  | Spinning
  | Overflow
  | OutOfFuel.

Inductive res (S A : Type) : Type :=
  | Ret (a : A) (s : S)
  | Panic (msg : string) (s : S)
  | Sleep (ch : chan) (k : Z) (s : S)
  | Fault (f : fault) (s : S).
Arguments Ret {S A} a s.
Arguments Panic {S A} msg s.
Arguments Sleep {S A} ch k s.
Arguments Fault {S A} f s.

Definition result_state {S A} (r : res S A) : S :=
  match r with Ret _ s | Panic _ s | Sleep _ _ s | Fault _ s => s end.

Definition fault_of {S A} (r : res S A) : option fault :=
  match r with Fault f _ => Some f | _ => None end.
Definition panic_of {S A} (r : res S A) : option string :=
  match r with Panic msg _ => Some msg | _ => None end.
Definition sleeps_on {S A} (r : res S A) : option chan :=
  match r with Sleep ch _ _ => Some ch | _ => None end.
Definition value_of {S A} (r : res S A) : option A :=
  match r with Ret a _ => Some a | _ => None end.

Definition M (S A : Type) : Type := S -> res S A.

Definition M_ret {S A} (a : A) : M S A := fun s => Ret a s.

Definition M_bind {S A B} (f : A -> M S B) (m : M S A) : M S B := fun s =>
  match m s with
  | Ret a s' => f a s'
  | Panic msg s' => Panic msg s'
  | Sleep ch k s' => Sleep ch k s'
  | Fault e s' => Fault e s'
  end.

#[global] Instance M_MRet S : MRet (M S) := @M_ret S.
#[global] Instance M_MBind S : MBind (M S) := fun A B => @M_bind S A B.

Definition get {S} : M S S := fun s => Ret s s.
Definition put {S} (s' : S) : M S unit := fun _ => Ret tt s'.
Definition gets {S A} (f : S -> A) : M S A := fun s => Ret (f s) s.
Definition modify {S} (f : S -> S) : M S unit := fun s => Ret tt (f s).
Definition panic {S A} (msg : string) : M S A := fun s => Panic msg s.
Definition sleep_on {S A} (ch : chan) (k : Z) : M S A := fun s => Sleep ch k s.
Definition faults {S A} (e : fault) : M S A := fun s => Fault e s.
Definition when {S} (b : bool) (m : M S unit) : M S unit :=
  if b then m else M_ret tt.
Definition of_option {S A} (e : fault) (o : option A) : M S A :=
  match o with Some a => M_ret a | None => faults e end.

(** A [for] loop of [n] iterations from [i]; the body's [Some r] is a [return r]
    (or a [break] carrying [r]) out of the loop. *)
Fixpoint for_until {S R} (n : nat) (i : Z) (body : Z -> M S (option R)) : M S (option R) :=
  match n with
  | O => M_ret None
  | Datatypes.S n' =>
      r ← body i;
      match r with
      | Some v => M_ret (Some v)
      | None => for_until n' (i + 1) body
      end
  end.

(** A [while] loop, with fuel. *)
Fixpoint while_fuel {S} (fuel : nat) (cond : M S bool) (body : M S unit) : M S unit :=
  match fuel with
  | O => faults OutOfFuel
  | Datatypes.S fuel' =>
      c ← cond;
      if (c : bool) then (body ;; while_fuel fuel' cond body) else M_ret tt
  end.

(** Runs a routine of one component on the part of a larger state that holds
    the component's own state. *)
Definition zoom {S T A} (getp : S -> T) (setp : T -> S -> S) (m : M T A) : M S A := fun s =>
  match m (getp s) with
  | Ret a t => Ret a (setp t s)
  | Panic msg t => Panic msg (setp t s)
  | Sleep ch k t => Sleep ch k (setp t s)
  | Fault e t => Fault e (setp t s)
  end.

(** *** Reasoning about outcomes *)

(** [wp m Q s]: run from [s], [m] returns, and [Q] holds of the result. *)
Definition wp {S A} (m : M S A) (Q : A -> S -> Prop) (s : S) : Prop :=
  match m s with Ret a s' => Q a s' | _ => False end.

(** [wlp m Q s]: if [m] run from [s] returns, [Q] holds of the result. *)
Definition wlp {S A} (m : M S A) (Q : A -> S -> Prop) (s : S) : Prop :=
  match m s with Ret a s' => Q a s' | _ => True end.

Lemma wp_bind {S A B} (m : M S A) (f : A -> M S B) Q s :
  wp (m ≫= f) Q s <-> wp m (fun a => wp (f a) Q) s.
Proof. unfold wp, mbind, M_MBind, M_bind. by destruct (m s). Qed.

Lemma wlp_bind {S A B} (m : M S A) (f : A -> M S B) Q s :
  wlp (m ≫= f) Q s <-> wlp m (fun a => wlp (f a) Q) s.
Proof. unfold wlp, mbind, M_MBind, M_bind. by destruct (m s). Qed.

Lemma wlp_true {S A} (m : M S A) (Q : A -> S -> Prop) s : (forall a s', Q a s') -> wlp m Q s.
Proof. intros HQ. unfold wlp. destruct (m s); auto. Qed.

Lemma wp_mono {S A} (m : M S A) (Q Q' : A -> S -> Prop) s :
  wp m Q s -> (forall a s', Q a s' -> Q' a s') -> wp m Q' s.
Proof. unfold wp. destruct (m s); naive_solver. Qed.

Lemma wlp_mono {S A} (m : M S A) (Q Q' : A -> S -> Prop) s :
  wlp m Q s -> (forall a s', Q a s' -> Q' a s') -> wlp m Q' s.
Proof. unfold wlp. destruct (m s); naive_solver. Qed.

Lemma wp_wlp {S A} (m : M S A) Q s : wp m Q s -> wlp m Q s.
Proof. unfold wp, wlp. by destruct (m s). Qed.

Lemma wlp_elim {S A} (m : M S A) (Q : A -> S -> Prop) s a s' :
  wlp m Q s -> m s = Ret a s' -> Q a s'.
Proof. unfold wlp. intros Hm E. by rewrite E in Hm. Qed.

Lemma wp_Ret {S A} (m : M S A) Q s : wp m Q s <-> exists a s', m s = Ret a s' /\ Q a s'.
Proof. unfold wp. destruct (m s); naive_solver. Qed.

Lemma bind_Ret {S A B} (m : M S A) (f : A -> M S B) s b s'' :
  (m ≫= f) s = Ret b s'' <-> exists a s', m s = Ret a s' /\ f a s' = Ret b s''.
Proof. unfold mbind, M_MBind, M_bind. destruct (m s); naive_solver. Qed.

Lemma bind_eq {S A B} (m : M S A) (f : A -> M S B) s a s' :
  m s = Ret a s' -> (m ≫= f) s = f a s'.
Proof. intros H. unfold mbind, M_MBind, M_bind. by rewrite H. Qed.

Lemma wlp_get {S} (Q : S -> S -> Prop) s : wlp get Q s <-> Q s s.
Proof. done. Qed.
Lemma wlp_gets {S A} (f : S -> A) (Q : A -> S -> Prop) s : wlp (gets f) Q s <-> Q (f s) s.
Proof. done. Qed.
Lemma wlp_modify {S} (f : S -> S) (Q : unit -> S -> Prop) s : wlp (modify f) Q s <-> Q tt (f s).
Proof. done. Qed.
Lemma wlp_ret {S A} (a : A) (Q : A -> S -> Prop) s : wlp (mret a) Q s <-> Q a s.
Proof. done. Qed.
Lemma wlp_of_option {S A} e (o : option A) (Q : A -> S -> Prop) s :
  wlp (of_option e o) Q s <-> forall a, o = Some a -> Q a s.
Proof. destruct o; unfold wlp; cbn; naive_solver. Qed.
Lemma wlp_zoom {S T A} (g : S -> T) (p : T -> S -> S) (m : M T A) (Q : A -> S -> Prop) s :
  wlp (zoom g p m) Q s <-> wlp m (fun a t => Q a (p t s)) (g s).
Proof. unfold wlp, zoom. by destruct (m (g s)). Qed.
Lemma wlp_when {S} (b : bool) (m : M S unit) (Q : unit -> S -> Prop) s :
  wlp (when b m) Q s <-> if b then wlp m Q s else Q tt s.
Proof. by destruct b. Qed.

(** Steps through a routine whose outcomes are assumed to be returns. *)
Ltac wlp_step :=
  lazymatch goal with
  | |- wlp (_ ≫= _) _ _ => apply (proj2 (wlp_bind _ _ _ _))
  | |- wlp get _ _ => apply (proj2 (wlp_get _ _))
  | |- wlp (gets _) _ _ => apply (proj2 (wlp_gets _ _ _))
  | |- wlp (modify _) _ _ => apply (proj2 (wlp_modify _ _ _))
  | |- wlp (mret _) _ _ => apply (proj2 (wlp_ret _ _ _))
  | |- wlp (of_option _ _) _ _ => apply (proj2 (wlp_of_option _ _ _ _)); intros ? ?
  | |- wlp (panic _) _ _ => exact I
  | |- wlp (faults _) _ _ => exact I
  | |- wlp (when _ _) _ _ => apply (proj2 (wlp_when _ _ _ _))
  end.
Ltac wl := repeat (wlp_step; cbv beta).

(** Unfolds the monad's operations in the goal. *)
Ltac munfold :=
  unfold when, of_option, mbind, M_MBind, M_bind, mret, M_MRet, M_ret, get, put, gets, modify,
    panic, sleep_on, faults in *.

Lemma bind_panic {S A B} (m : M S A) (f : A -> M S B) s msg s' : m s = Panic msg s' -> (m ≫= f) s = Panic msg s'.
Proof. intros E. unfold mbind, M_MBind, M_bind. by rewrite E. Qed.

(** The loop invariant rule: [I i] holds on entry and is kept by every
    iteration that goes on; [Q] holds of what a returning iteration gives. *)
Lemma wp_for_until {S R} (n : nat) (i : Z) (body : Z -> M S (option R))
    (I : Z -> S -> Prop) (Q : option R -> S -> Prop) s :
  I i s ->
  (forall j s, i <= j < i + Z.of_nat n -> I j s ->
     wp (body j) (fun r s' => match r with Some v => Q (Some v) s' | None => I (j + 1) s' end) s) ->
  (forall s, I (i + Z.of_nat n) s -> Q None s) ->
  wp (for_until n i body) Q s.
Proof.
  revert i s; induction n as [|n IH]; intros i s HI Hstep Hend; cbn [for_until].
  - unfold wp; cbn. apply Hend. by rewrite Z.add_0_r.
  - rewrite wp_bind. eapply wp_mono; [apply Hstep; [lia|done]|].
    intros [v|] s' H; cbn in *; [done|].
    apply IH; [done| |].
    + intros j s1 Hj; apply Hstep; lia.
    + intros s1 H1. apply Hend. by replace (i + Z.of_nat (Datatypes.S n)) with (i + 1 + Z.of_nat n) by lia.
Qed.

Lemma list_alter_insert {A} (h : A -> A) i (l : list A) a : l !! i = Some a -> alter h i l = <[i := h a]> l.
Proof. revert i. induction l as [|b l IH]; intros [|i]; cbn; [done..| |]; [by intros [= ->]|]. intros H. unfold alter in *. cbn. by rewrite IH. Qed.
