(* ===== verification/CString.v ===== *)
(** Memory and string routines: [string.c] of the kernel ([Module Kstring]) and
    the string part of [ulib.c] of the user library ([Module Ulib]).

    Memory is a total function from addresses to bytes (0..255), pointers are
    addresses.  The loops are the C loops, with the count as the recursion's
    fuel where the code counts, and explicit fuel for [strlen], which runs until
    it meets a NUL. *)

From S2P Require Import Prelude.

Definition memory : Type := Z -> Z.

Definition store (m : memory) (a v : Z) : memory := fun x => if x =? a then v else m x.

Definition bytes_ok (m : memory) : Prop := forall a, 0 <= m a < 256.

(** The C string [l] (without its NUL) is stored at [p]. *)
Definition cstr_at (m : memory) (p : Z) (l : list Z) : Prop :=
  (forall i c, l !! i = Some c -> m (p + Z.of_nat i) = c /\ c <> 0) /\
  m (p + Z.of_nat (length l)) = 0.

(** [n] bytes of [c] from [addr] on: the [rep stosb] instruction of x86.h. *)
Fixpoint stosb (m : memory) (addr data : Z) (cnt : nat) : memory :=
  match cnt with
  | O => m
  | S k => stosb (store m addr (u8 data)) (addr + 1) data k
  end.

Definition store32 (m : memory) (a v : Z) : memory :=
  store (store (store (store m a (u8 v)) (a + 1) (u8 (Z.shiftr v 8)))
           (a + 2) (u8 (Z.shiftr v 16))) (a + 3) (u8 (Z.shiftr v 24)).

(** [cnt] little-endian words of [data] from [addr] on: [rep stosl]. *)
Fixpoint stosl (m : memory) (addr data : Z) (cnt : nat) : memory :=
  match cnt with
  | O => m
  | S k => stosl (store32 m addr data) (addr + 4) data k
  end.

(** [while(n-- > 0) *d++ = *s++]. *)
Fixpoint copy_up (m : memory) (d s : Z) (n : nat) : memory :=
  match n with
  | O => m
  | S k => copy_up (store m d (m s)) (d + 1) (s + 1) k
  end.

(** [while(n-- > 0) *--d = *--s]. *)
Fixpoint copy_down (m : memory) (d s : Z) (n : nat) : memory :=
  match n with
  | O => m
  | S k => copy_down (store m (d - 1) (m (s - 1))) (d - 1) (s - 1) k
  end.

Module Kstring.

Definition memset (m : memory) (dst c n : Z) : memory :=
  if (Z.rem (i32 dst) 4 =? 0) && (n mod 4 =? 0)
  then
    let c := Z.land c 255 in
    stosl m dst (i32 (Z.lor (Z.lor (Z.lor (Z.shiftl c 24) (Z.shiftl c 16)) (Z.shiftl c 8)) c))
      (Z.to_nat (n / 4))
  else stosb m dst c (Z.to_nat n).

Fixpoint memcmp_loop (m : memory) (s1 s2 : Z) (n : nat) : Z :=
  match n with
  | O => 0
  | S k =>
      if negb (m s1 =? m s2) then m s1 - m s2
      else memcmp_loop m (s1 + 1) (s2 + 1) k
  end.
Definition memcmp (m : memory) (v1 v2 n : Z) : Z := memcmp_loop m v1 v2 (Z.to_nat n).

Definition memmove (m : memory) (dst src n : Z) : memory :=
  if (src <? dst) && (src + n >? dst)
  then copy_down m (dst + n) (src + n) (Z.to_nat n)
  else copy_up m dst src (Z.to_nat n).

Definition memcpy (m : memory) (dst src n : Z) : memory := memmove m dst src n.

Fixpoint strncmp_loop (m : memory) (p q : Z) (n : nat) : Z :=
  match n with
  | O => 0
  | S k =>
      if negb (m p =? 0) && (m p =? m q) then strncmp_loop m (p + 1) (q + 1) k
      else m p - m q
  end.
Definition strncmp (m : memory) (p q n : Z) : Z := strncmp_loop m p q (Z.to_nat n).

(** [while(n-- > 0) *s++ = 0]. *)
Fixpoint zero_fill (m : memory) (s : Z) (n : nat) : memory :=
  match n with
  | O => m
  | S k => zero_fill (store m s 0) (s + 1) k
  end.

Fixpoint strncpy_loop (m : memory) (s t : Z) (n : nat) : memory :=
  match n with
  | O => m
  | S k =>
      let c := m t in
      let m := store m s c in
      if c =? 0 then zero_fill m (s + 1) k else strncpy_loop m (s + 1) (t + 1) k
  end.
Definition strncpy (m : memory) (s t n : Z) : memory := strncpy_loop m s t (Z.to_nat n).

(** [while(--n > 0 && ( *s++ = *t++) != 0);  *s = 0], from [n] on. *)
Fixpoint safestrcpy_loop (m : memory) (s t : Z) (n : nat) : memory :=
  match n with
  | O => store m s 0
  | S k =>
      let c := m t in
      let m := store m s c in
      if c =? 0 then store m (s + 1) 0 else safestrcpy_loop m (s + 1) (t + 1) k
  end.
Definition safestrcpy (m : memory) (s t n : Z) : memory :=
  if n <=? 0 then m else safestrcpy_loop m s t (Z.to_nat (n - 1)).

Fixpoint strlen_loop (fuel : nat) (m : memory) (s n : Z) : option Z :=
  match fuel with
  | O => None
  | S f => if m (s + n) =? 0 then Some n else strlen_loop f m s (n + 1)
  end.
Definition strlen (fuel : nat) (m : memory) (s : Z) : option Z := strlen_loop fuel m s 0.

End Kstring.

(** ** What the copying loops do *)

Lemma store_eq m a v : store m a v a = v.
Proof. unfold store. by rewrite Z.eqb_refl. Qed.

Lemma store_ne m a v x : x <> a -> store m a v x = m x.
Proof. intros. unfold store. by rewrite (proj2 (Z.eqb_neq x a)). Qed.

Lemma stosb_spec m addr data n x :
  stosb m addr data n x = if (addr <=? x) && (x <? addr + Z.of_nat n) then u8 data else m x.
Proof.
  revert m addr; induction n as [|n IH]; intros m addr; cbn [stosb].
  - by replace ((addr <=? x) && (x <? addr + Z.of_nat 0)) with false by lia.
  - rewrite IH. unfold store. destruct (Z.eqb_spec x addr) as [->|];
      repeat case_match; try lia; done.
Qed.

Lemma copy_up_spec m d s n x :
  d <= s \/ s + Z.of_nat n <= d ->
  copy_up m d s n x = if (d <=? x) && (x <? d + Z.of_nat n) then m (s + (x - d)) else m x.
Proof.
  revert m d s; induction n as [|n IH]; intros m d s Hov; cbn [copy_up].
  - by replace ((d <=? x) && (x <? d + Z.of_nat 0)) with false by lia.
  - rewrite IH by lia. unfold store.
    repeat case_match; try lia; try done; f_equal; lia.
Qed.

Lemma copy_down_spec m d s n x :
  s <= d ->
  copy_down m d s n x =
    if (d - Z.of_nat n <=? x) && (x <? d) then m (s + (x - d)) else m x.
Proof.
  revert m d s; induction n as [|n IH]; intros m d s Hov; cbn [copy_down].
  - by replace ((d - Z.of_nat 0 <=? x) && (x <? d)) with false by lia.
  - rewrite IH by lia. unfold store.
    repeat case_match; try lia; try done; f_equal; lia.
Qed.

Lemma store32_spec m a v x :
  store32 m a v x =
    if (a <=? x) && (x <? a + 4) then u8 (Z.shiftr v (8 * (x - a))) else m x.
Proof.
  unfold store32, store.
  destruct ((a <=? x) && (x <? a + 4)) eqn:E; [|repeat case_match; try lia; done].
  assert (x = a \/ x = a + 1 \/ x = a + 2 \/ x = a + 3) as [-> | [-> | [-> | ->]]] by lia;
    repeat case_match; try lia; try (do 2 f_equal; lia).
  replace (8 * (a - a)) with 0 by lia. by rewrite Z.shiftr_0_r.
Qed.

Lemma stosl_spec m addr data n x :
  stosl m addr data n x =
    if (addr <=? x) && (x <? addr + 4 * Z.of_nat n)
    then u8 (Z.shiftr data (8 * ((x - addr) mod 4))) else m x.
Proof.
  revert m addr; induction n as [|n IH]; intros m addr; cbn [stosl].
  - by replace ((addr <=? x) && (x <? addr + 4 * Z.of_nat 0)) with false by lia.
  - rewrite IH, store32_spec.
    replace ((x - (addr + 4)) mod 4) with ((x - addr) mod 4)
      by (rewrite <- (Z_mod_plus_full (x - (addr + 4)) 1 4); f_equal; lia).
    repeat case_match; try lia; try done.
    do 3 f_equal. symmetry; apply Z.mod_small; lia.
Qed.

(** The word [memset] stores holds the byte four times over. *)
Lemma fill_word_byte c k :
  0 <= c < 256 -> 0 <= k < 4 ->
  u8 (Z.shiftr (i32 (Z.lor (Z.lor (Z.lor (Z.shiftl c 24) (Z.shiftl c 16)) (Z.shiftl c 8)) c))
        (8 * k)) = c.
Proof.
  intros Hc Hk. unfold u8.
  apply Z.bits_inj'; intros i Hi. change (2 ^ 8) with (2 ^ 8).
  destruct (Z.ltb_spec i 8) as [Hi8|Hi8].
  - rewrite Z.mod_pow2_bits_low, Z.shiftr_spec by lia.
    unfold i32.
    set (w := Z.lor _ c).
    assert (Hw : Z.testbit ((w + 2 ^ 31) mod 2 ^ 32 - 2 ^ 31) (i + 8 * k) = Z.testbit w (i + 8 * k)).
    { rewrite <- (Z.mod_pow2_bits_low _ 32) by lia.
      rewrite Zminus_mod_idemp_l. rewrite Z.add_simpl_r.
      by rewrite Z.mod_pow2_bits_low by lia. }
    rewrite Hw. unfold w. rewrite !Z.lor_spec, !Z.shiftl_spec by lia.
    assert (Hz : forall j, 8 <= j \/ j < 0 -> Z.testbit c j = false).
    { intros j [Hj|Hj]; [|by apply Z.testbit_neg_r].
      rewrite <- (Z.mod_small c (2 ^ 8)) by lia. by apply Z.mod_pow2_bits_high. }
    assert (k = 0 \/ k = 1 \/ k = 2 \/ k = 3) as [-> | [-> | [-> | ->]]] by lia.
    + rewrite !(Hz (_ - _)) by lia. cbn. f_equal; lia.
    + rewrite (Hz (_ - 24)), (Hz (_ - 16)), (Hz (i + 8 * 1)) by lia.
      rewrite orb_false_r. cbn -[Z.testbit Z.sub Z.add Z.mul]. f_equal; lia.
    + rewrite (Hz (_ - 24)), (Hz (_ - 8)), (Hz (i + 8 * 2)) by lia.
      rewrite !orb_false_r. cbn -[Z.testbit Z.sub Z.add Z.mul]. f_equal; lia.
    + rewrite (Hz (_ - 16)), (Hz (_ - 8)), (Hz (i + 8 * 3)) by lia.
      rewrite !orb_false_r. f_equal; lia.
  - rewrite Z.mod_pow2_bits_high by lia.
    rewrite <- (Z.mod_small c (2 ^ 8)) by lia. by rewrite Z.mod_pow2_bits_high by lia.
Qed.

(** [memset] fills exactly [n] bytes from [dst] with the low byte of [c],
    whether it stores them a word or a byte at a time. *)
Theorem memset_fills m dst c n x :
  0 <= n ->
  Kstring.memset m dst c n x =
    if (dst <=? x) && (x <? dst + n) then u8 c else m x.
Proof.
  intros Hn. unfold Kstring.memset.
  destruct ((Z.rem (i32 dst) 4 =? 0) && (n mod 4 =? 0)) eqn:E.
  - rewrite stosl_spec.
    replace (4 * Z.of_nat (Z.to_nat (n / 4))) with n
      by (pose proof (Z.div_mod n 4); pose proof (Z.div_pos n 4); lia).
    case_match; [|done].
    rewrite fill_word_byte.
    + change 255 with (Z.ones 8). by rewrite Z.land_ones by lia.
    + change 255 with (Z.ones 8). rewrite Z.land_ones by lia. apply Z.mod_pos_bound; lia.
    + apply Z.mod_pos_bound; lia.
  - rewrite stosb_spec. by rewrite Z2Nat.id by lia.
Qed.

Lemma memset_fills_witness :
  0 <= 8 /\ Kstring.memset (fun _ => 7) 4096 257 8 4103 = 1.
Proof.
  split; [lia|]. rewrite (memset_fills (fun _ => 7) 4096 257 8 4103) by lia. reflexivity.
Defined.

Lemma memmove_copies' m dst src n x :
  0 <= n ->
  Kstring.memmove m dst src n x =
    if (dst <=? x) && (x <? dst + n) then m (src + (x - dst)) else m x.
Proof.
  intros Hn. unfold Kstring.memmove.
  destruct ((src <? dst) && (src + n >? dst)) eqn:E.
  - rewrite copy_down_spec by lia. rewrite Z2Nat.id by lia.
    replace (dst + n - n) with dst by lia. case_match; [|done]. f_equal; lia.
  - rewrite copy_up_spec by lia. by rewrite Z2Nat.id by lia.
Qed.

(** [memmove] copies [n] bytes from [src] to [dst] whatever the overlap of
    the two regions, and changes nothing else. *)
Theorem memmove_copies m dst src n x :
  0 <= n ->
  Kstring.memmove m dst src n x =
    if (dst <=? x) && (x <? dst + n) then m (src + (x - dst)) else m x.
Proof. apply memmove_copies'. Qed.

Lemma memmove_copies_witness :
  0 <= 3 /\ Kstring.memmove (fun a => a) 11 10 3 13 = 12.
Proof. split; [lia|]. rewrite (memmove_copies (fun a => a) 11 10 3 13) by lia. reflexivity. Defined.

(** ** C strings in memory *)

Lemma cstr_at_nil m p : cstr_at m p [] <-> m p = 0.
Proof.
  unfold cstr_at; cbn. rewrite Z.add_0_r. split; [tauto|].
  intros H; split; [|done]. intros i c Hi. by rewrite lookup_nil in Hi.
Qed.

Lemma cstr_at_cons m p c l :
  cstr_at m p (c :: l) <-> m p = c /\ c <> 0 /\ cstr_at m (p + 1) l.
Proof.
  unfold cstr_at. split.
  - intros [H1 H2]. destruct (H1 0%nat c eq_refl) as [H3 H4].
    rewrite Z.add_0_r in H3. split_and!; try done.
    + intros i d Hi. specialize (H1 (S i) d Hi).
      by replace (p + 1 + Z.of_nat i) with (p + Z.of_nat (S i)) by lia.
    + rewrite <- H2. cbn [length]. f_equal; lia.
  - intros (H1 & H2 & H3 & H4). split.
    + intros [|i] d Hi; cbn in Hi.
      * injection Hi as <-. by rewrite Z.add_0_r.
      * specialize (H3 i d Hi).
        by replace (p + Z.of_nat (S i)) with (p + 1 + Z.of_nat i) by lia.
    + cbn [length]. rewrite <- H4. f_equal; lia.
Qed.

Lemma cstr_at_ext m m' p l :
  (forall x, p <= x <= p + Z.of_nat (length l) -> m' x = m x) ->
  cstr_at m p l -> cstr_at m' p l.
Proof.
  intros Hm [H1 H2]. split.
  - intros i c Hi. rewrite Hm; [by apply H1|]. apply lookup_lt_Some in Hi. lia.
  - rewrite Hm by lia. done.
Qed.

Lemma strncmp_loop_spec m p q a b n :
  cstr_at m p a -> cstr_at m q b ->
  Kstring.strncmp_loop m p q n = 0 <-> take n a = take n b.
Proof.
  revert p q a b; induction n as [|n IH]; intros p q a b Ha Hb; cbn [Kstring.strncmp_loop].
  { by rewrite !take_0. }
  destruct a as [|x a]; [apply cstr_at_nil in Ha | apply cstr_at_cons in Ha as (Hx & Hx0 & Ha)];
    (destruct b as [|y b]; [apply cstr_at_nil in Hb | apply cstr_at_cons in Hb as (Hy & Hy0 & Hb)]).
  - rewrite Ha, Hb. cbn. split; done.
  - rewrite Ha, Hy. cbn. split; [lia|done].
  - rewrite Hx, Hb. replace (negb (x =? 0) && (x =? 0)) with false by lia. cbn.
    split; [lia|done].
  - rewrite Hx, Hy. destruct (Z.eqb_spec x y) as [<-|Hne].
    + replace (negb (x =? 0) && true) with true by lia. rewrite (IH _ _ a b) by done.
      cbn [take]. split; [by intros ->|by intros [= ->]].
    + rewrite andb_false_r. cbn [take]. split; [lia|by intros [= -> _]].
Qed.

(** [strncmp] returns 0 on two C strings exactly when they agree on their
    first [n] characters (the test behind [namecmp], with [n] = DIRSIZ). *)
Theorem strncmp_eq_iff m p q a b n :
  cstr_at m p a -> cstr_at m q b ->
  Kstring.strncmp m p q n = 0 <-> take (Z.to_nat n) a = take (Z.to_nat n) b.
Proof. apply strncmp_loop_spec. Qed.

Definition demo_mem : memory := fun a =>
  nth (Z.to_nat a) [97; 98; 99; 0; 97; 98; 100; 0] 0.

Lemma demo_mem_abc : cstr_at demo_mem 0 [97; 98; 99].
Proof. rewrite !cstr_at_cons, cstr_at_nil. split_and!; (reflexivity || discriminate). Defined.

Lemma demo_mem_abd : cstr_at demo_mem 4 [97; 98; 100].
Proof. rewrite !cstr_at_cons, cstr_at_nil. split_and!; (reflexivity || discriminate). Defined.

Lemma strncmp_eq_iff_witness :
  Kstring.strncmp demo_mem 0 4 2 = 0 /\ Kstring.strncmp demo_mem 0 4 3 <> 0.
Proof.
  split.
  - apply (strncmp_eq_iff demo_mem 0 4 [97; 98; 99] [97; 98; 100] 2 demo_mem_abc demo_mem_abd).
    reflexivity.
  - intros H.
    apply (strncmp_eq_iff demo_mem 0 4 [97; 98; 99] [97; 98; 100] 3 demo_mem_abc demo_mem_abd) in H.
    discriminate H.
Defined.

Lemma zero_fill_spec m s n x :
  Kstring.zero_fill m s n x = if (s <=? x) && (x <? s + Z.of_nat n) then 0 else m x.
Proof.
  revert m s; induction n as [|n IH]; intros m s; cbn [Kstring.zero_fill].
  - by replace ((s <=? x) && (x <? s + Z.of_nat 0)) with false by lia.
  - rewrite IH. unfold store. repeat case_match; try lia; done.
Qed.

Lemma strncpy_loop_spec m s t n l x :
  cstr_at m t l ->
  s + Z.of_nat n <= t \/ t + Z.of_nat (length l) + 1 <= s ->
  Kstring.strncpy_loop m s t n x =
    if (s <=? x) && (x <? s + Z.of_nat n) then nth (Z.to_nat (x - s)) l 0 else m x.
Proof.
  revert m s t l; induction n as [|n IH]; intros m s t l Hl Hsep; cbn [Kstring.strncpy_loop].
  { by replace ((s <=? x) && (x <? s + Z.of_nat 0)) with false by lia. }
  destruct l as [|c l].
  - apply cstr_at_nil in Hl. rewrite Hl. cbn [Z.eqb]. rewrite zero_fill_spec. unfold store.
    repeat case_match; try lia; try done; by destruct (Z.to_nat (x - s)).
  - pose proof Hl as Hl0. apply cstr_at_cons in Hl as (Hc & Hc0 & Hl). rewrite Hc.
    rewrite (proj2 (Z.eqb_neq c 0)) by done.
    cbn [length] in Hsep.
    rewrite (IH _ _ _ l); [|eapply cstr_at_ext; [|exact Hl]; intros; apply store_ne; lia|lia].
    unfold store. repeat case_match; try lia; try done.
    + replace (Z.to_nat (x - s)) with (S (Z.to_nat (x - (s + 1)))) by lia. done.
    + assert (x = s) as -> by lia. by rewrite Z.sub_diag.
Qed.

(** [strncpy] writes exactly [n] bytes: the string, cut at [n] and padded
    with NULs (how [dirlink] fills a directory entry's name). *)
Theorem strncpy_pads m s t n l x :
  cstr_at m t l ->
  s + n <= t \/ t + Z.of_nat (length l) + 1 <= s ->
  0 <= n ->
  Kstring.strncpy m s t n x =
    if (s <=? x) && (x <? s + n) then nth (Z.to_nat (x - s)) l 0 else m x.
Proof.
  intros Hl Hsep Hn. unfold Kstring.strncpy.
  rewrite (strncpy_loop_spec _ _ _ _ l) by (done || lia). by rewrite Z2Nat.id by lia.
Qed.

Lemma strncpy_pads_witness :
  Kstring.strncpy demo_mem 100 0 14 102 = 99 /\ Kstring.strncpy demo_mem 100 0 14 113 = 0.
Proof.
  split.
  - rewrite (strncpy_pads demo_mem 100 0 14 [97; 98; 99] 102 demo_mem_abc) by (cbn; lia).
    reflexivity.
  - rewrite (strncpy_pads demo_mem 100 0 14 [97; 98; 99] 113 demo_mem_abc) by (cbn; lia).
    reflexivity.
Defined.

Lemma safestrcpy_loop_spec m s t n l :
  cstr_at m t l ->
  s + Z.of_nat n < t \/ t + Z.of_nat (length l) + 1 <= s ->
  cstr_at (Kstring.safestrcpy_loop m s t n) s (take n l) /\
  (forall x, x < s \/ s + Z.of_nat n < x -> Kstring.safestrcpy_loop m s t n x = m x).
Proof.
  revert m s t l; induction n as [|n IH]; intros m s t l Hl Hsep; cbn [Kstring.safestrcpy_loop].
  { rewrite take_0, cstr_at_nil, store_eq. split; [done|]. intros; apply store_ne; lia. }
  destruct l as [|c l].
  - apply cstr_at_nil in Hl. rewrite Hl. cbn [Z.eqb take].
    rewrite cstr_at_nil, (store_ne _ _ _ s), store_eq by lia. split; [done|].
    intros x Hx. rewrite !store_ne by lia. done.
  - apply cstr_at_cons in Hl as (Hc & Hc0 & Hl). rewrite Hc.
    rewrite (proj2 (Z.eqb_neq c 0)) by done. cbn [length] in Hsep.
    destruct (IH (store m s c) (s + 1) (t + 1) l) as [H1 H2].
    { eapply cstr_at_ext; [|exact Hl]. intros; apply store_ne; lia. }
    { lia. }
    split.
    + cbn [take]. rewrite cstr_at_cons. split_and!; [|done|done].
      rewrite H2 by lia. apply store_eq.
    + intros x Hx. rewrite H2 by lia. apply store_ne; lia.
Qed.

(** [safestrcpy] always leaves a NUL-terminated string, the source cut to
    [n-1] characters, and stays inside its [n] bytes (process names). *)
Theorem safestrcpy_terminated m s t n l :
  cstr_at m t l ->
  s + n <= t \/ t + Z.of_nat (length l) + 1 <= s ->
  0 < n ->
  cstr_at (Kstring.safestrcpy m s t n) s (take (Z.to_nat (n - 1)) l) /\
  (forall x, x < s \/ s + n <= x -> Kstring.safestrcpy m s t n x = m x).
Proof.
  intros Hl Hsep Hn. unfold Kstring.safestrcpy.
  rewrite (proj2 (Z.leb_gt n 0)) by lia.
  destruct (safestrcpy_loop_spec m s t (Z.to_nat (n - 1)) l Hl) as [H1 H2]; [lia|].
  split; [done|]. intros x Hx. apply H2; lia.
Qed.

Lemma safestrcpy_terminated_witness :
  cstr_at (Kstring.safestrcpy demo_mem 100 0 3) 100 [97; 98].
Proof.
  apply (safestrcpy_terminated demo_mem 100 0 3 [97; 98; 99] demo_mem_abc); cbn; lia.
Defined.

Lemma strlen_loop_spec m s n l fuel :
  cstr_at m (s + n) l -> (length l < fuel)%nat ->
  Kstring.strlen_loop fuel m s n = Some (n + Z.of_nat (length l)).
Proof.
  revert n l; induction fuel as [|f IH]; intros n l Hl Hf; [lia|]; cbn [Kstring.strlen_loop].
  destruct l as [|c l].
  - apply cstr_at_nil in Hl. rewrite Hl. cbn. f_equal; lia.
  - apply cstr_at_cons in Hl as (Hc & Hc0 & Hl). rewrite Hc.
    rewrite (proj2 (Z.eqb_neq c 0)) by done.
    rewrite (IH (n + 1) l); [f_equal; cbn [length]; lia| |cbn in Hf; lia].
    by rewrite Z.add_assoc.
Qed.

Lemma strlen_spec m s l fuel :
  cstr_at m s l -> (length l < fuel)%nat ->
  Kstring.strlen fuel m s = Some (Z.of_nat (length l)).
Proof.
  intros Hl Hf. unfold Kstring.strlen. rewrite (strlen_loop_spec _ _ _ l) by (by rewrite ?Z.add_0_r).
  f_equal; lia.
Qed.

(** ** The user library's string routines, on C strings as lists

    A C string is the list of its characters without the terminating NUL; a
    pointer into it is the suffix it points at, and [peek] is what it points at. *)

Definition peek (l : list Z) : Z := match l with [] => 0 | c :: _ => c end.

(** A list that stands for a C string: bytes, none of them NUL. *)
Definition cstring (l : list Z) : Prop := Forall (fun c => 0 < c < 256) l.

Definition bytes_of_string (s : string) : list Z :=
  (fun a => Z.of_N (Ascii.N_of_ascii a)) <$> String.list_ascii_of_string s.

Module Ulib.

(** [while(( *s++ = *t++) != 0)], with fuel: the length of [t] plus its NUL. *)
Fixpoint strcpy (fuel : nat) (m : memory) (s t : Z) : option memory :=
  match fuel with
  | O => None
  | S f => let c := m t in
           let m := store m s c in
           if c =? 0 then Some m else strcpy f m (s + 1) (t + 1)
  end.

Fixpoint strcmp (p q : list Z) : Z :=
  match p, q with
  | a :: p', b :: q' => if a =? b then strcmp p' q' else u8 a - u8 b
  | _, _ => u8 (peek p) - u8 (peek q)
  end.

Definition strlen (s : list Z) : Z := Z.of_nat (length s).

Definition memset (m : memory) (dst c n : Z) : memory := stosb m dst c (Z.to_nat n).

(** The suffix at the first [c]; [None] is the null pointer. *)
Fixpoint strchr (s : list Z) (c : Z) : option (list Z) :=
  match s with
  | [] => None
  | a :: s' => if a =? c then Some s else strchr s' c
  end.

Fixpoint atoi_loop (s : list Z) (n : Z) : Z :=
  match s with
  | [] => n
  | c :: s' => if (48 <=? c) && (c <=? 57) then atoi_loop s' (i32 (n * 10 + c - 48)) else n
  end.
Definition atoi (s : list Z) : Z := atoi_loop s 0.

(** Copies upwards only, unlike the kernel's [memmove]. *)
Definition memmove (m : memory) (dst src n : Z) : memory := copy_up m dst src (Z.to_nat n).

End Ulib.

Lemma strcmp_eq p q : cstring p -> cstring q -> Ulib.strcmp p q = 0 <-> p = q.
Proof.
  intros Hp; revert q; induction Hp as [|a p Ha Hp IH]; intros [|b q] Hq; cbn [Ulib.strcmp peek].
  - done.
  - inversion Hq; subst. change (u8 0) with 0. rewrite u8_small by lia. split; [lia|done].
  - change (u8 0) with 0. rewrite u8_small by lia. split; [lia|done].
  - inversion Hq; subst. destruct (Z.eqb_spec a b) as [->|Hne].
    + rewrite IH by done. split; [by intros ->|by intros [= ->]].
    + rewrite !u8_small by lia. split; [lia|by intros [= -> _]].
Qed.

Lemma strchr_spec s c :
  match Ulib.strchr s c with
  | Some t => exists pre, s = pre ++ t /\ peek t = c /\ t <> [] /\ c ∉ pre
  | None => c ∉ s
  end.
Proof.
  induction s as [|a s IH]; cbn [Ulib.strchr]; [apply not_elem_of_nil|].
  destruct (Z.eqb_spec a c) as [->|Hne].
  - exists []. split_and!; try done. apply not_elem_of_nil.
  - destruct (Ulib.strchr s c) as [t|].
    + destruct IH as (pre & -> & Hp & Ht & Hn). exists (a :: pre).
      split_and!; try done. rewrite elem_of_cons. naive_solver.
    + rewrite elem_of_cons. naive_solver.
Qed.

(** The user library's [memmove] agrees with the kernel's when the destination
    does not start inside the source. *)
Lemma ulib_memmove_agrees m dst src n x :
  0 <= n -> dst <= src \/ src + n <= dst ->
  Ulib.memmove m dst src n x = Kstring.memmove m dst src n x.
Proof.
  intros Hn Hsep. rewrite memmove_copies' by done.
  unfold Ulib.memmove. rewrite copy_up_spec by lia. by rewrite Z2Nat.id by lia.
Qed.

(** The C string in an array of bytes. *)
Fixpoint upto_nul (l : list Z) : list Z :=
  match l with
  | [] => []
  | c :: l' => if c =? 0 then [] else c :: upto_nul l'
  end.

Lemma upto_nul_app a r : 0 ∉ a -> upto_nul (a ++ 0 :: r) = a.
Proof.
  induction a as [|c a IH]; cbn; [done|]. rewrite not_elem_of_cons. intros [Hc Ha]. destruct (Z.eqb_spec c 0); [congruence|]. by rewrite IH.
Qed.
Lemma upto_nul_id l : 0 ∉ l -> upto_nul l = l.
Proof. induction l as [|c l IH]; [done|]. intros [Hc Hl]%not_elem_of_cons. cbn. rewrite (proj2 (Z.eqb_neq c 0)) by done. by rewrite IH. Qed.
