(* ===== verification/Printf.v ===== *)
(** Formatted output: [printint] and [cprintf] of the kernel's [console.c]
    ([Module Cprintf]) and [printint] and [printf] of the user library's
    [printf.c] ([Module Uprintf]).

    Both are modelled by the bytes they put out, in order; the console's [consputc]
    and the user's [putc] are what receives them.  A variadic argument is an
    [int], or a pointer to a C string, or the null pointer; a conversion that
    reads an argument that is not there, or one of the wrong kind, is undefined
    ([None]). *)

From S2P Require Import Prelude CString.

Inductive varg :=
  | AInt (z : Z)
  | AStr (s : list Z)
  | ANull.

(** The loop of both [printint]s that fills [buf] with digits, least significant
    first: [do buf[i++] = digits[x % base]; while((x /= base) != 0)].  A 32-bit
    [x] needs at most 32 iterations in any base from 2 on. *)
Fixpoint printint_digits (fuel : nat) (digits : list Z) (x base : Z) : list Z :=
  match fuel with
  | O => []
  | S f => nth (Z.to_nat (x mod base)) digits 0 ::
           let x := x / base in
           if x =? 0 then [] else printint_digits f digits x base
  end.

Definition PERCENT : Z := 37.
Definition MINUS : Z := 45.

Module Cprintf.

Definition digits : list Z := bytes_of_string "0123456789abcdef".

Definition printint (xx base sign : Z) : list Z :=
  let sign := if ctrue sign then xx <? 0 else false in
  let x := if (sign : bool) then u32 (- xx) else u32 xx in
  let buf := printint_digits 32 digits x base in
  let buf := if (sign : bool) then buf ++ [MINUS] else buf in
  rev buf.

Fixpoint cprintf (fmt : list Z) (args : list varg) : option (list Z) :=
  match fmt with
  | [] => Some []
  | c :: fmt' =>
      if negb (c =? PERCENT) then (fun out => c :: out) <$> cprintf fmt' args
      else
        match fmt' with
        | [] => Some []
        | d :: fmt'' =>
            if d =? 100 (* 'd' *) then
              match args with
              | AInt n :: args' => (fun out => printint n 10 1 ++ out) <$> cprintf fmt'' args'
              | _ => None
              end
            else if (d =? 120) || (d =? 112) (* 'x', 'p' *) then
              match args with
              | AInt n :: args' => (fun out => printint n 16 0 ++ out) <$> cprintf fmt'' args'
              | _ => None
              end
            else if d =? 115 (* 's' *) then
              match args with
              | AStr s :: args' => (fun out => s ++ out) <$> cprintf fmt'' args'
              | ANull :: args' =>
                  (fun out => bytes_of_string "(null)" ++ out) <$> cprintf fmt'' args'
              | _ => None
              end
            else if d =? PERCENT then (fun out => PERCENT :: out) <$> cprintf fmt'' args
            else (fun out => PERCENT :: d :: out) <$> cprintf fmt'' args
        end
  end.

End Cprintf.

(** The arguments are there and of the kind the format asks for. *)
Fixpoint fmt_ok (fmt : list Z) (args : list varg) : bool :=
  match fmt with
  | [] => true
  | c :: fmt' =>
      if negb (c =? PERCENT) then fmt_ok fmt' args
      else
        match fmt' with
        | [] => true
        | d :: fmt'' =>
            if (d =? 100) || ((d =? 120) || (d =? 112)) then
              match args with AInt _ :: args' => fmt_ok fmt'' args' | _ => false end
            else if d =? 115 then
              match args with
              | AStr _ :: args' | ANull :: args' => fmt_ok fmt'' args'
              | _ => false
              end
            else fmt_ok fmt'' args
        end
  end.

Lemma fmt_ok_cprintf fmt args : fmt_ok fmt args = true -> is_Some (Cprintf.cprintf fmt args).
Proof.
  remember (length fmt) as n eqn:E. assert (Hn : (length fmt <= n)%nat) by lia. clear E.
  revert fmt args Hn; induction n as [|n IH]; intros [|c fmt] args Hn; cbn in Hn; try lia; try (by eexists).
  cbn [fmt_ok Cprintf.cprintf]. destruct (c =? PERCENT); cbn [negb]; intros H.
  - destruct fmt as [|d fmt]; [by eexists|]. cbn in Hn.
    assert (IH' : forall args, fmt_ok fmt args = true -> is_Some (Cprintf.cprintf fmt args)).
    { intros; apply IH; [lia|done]. }
    destruct (d =? 100), ((d =? 120) || (d =? 112)), (d =? 115); cbn [orb] in H;
      try (destruct args as [|[] args]; try discriminate H; by apply fmap_is_Some, IH').
    all: case_match; by apply fmap_is_Some, IH'.
  - apply fmap_is_Some, IH; [lia|done].
Qed.

Module Uprintf.

Definition digits : list Z := bytes_of_string "0123456789ABCDEF".

Definition printint (xx base sgn : Z) : list Z :=
  let neg := ctrue sgn && (xx <? 0) in
  let x := if neg then u32 (- xx) else u32 xx in
  let buf := printint_digits 32 digits x base in
  let buf := if neg then buf ++ [MINUS] else buf in
  rev buf.

(** One character at a time; [state] is 0, or '%' after a percent sign. *)
Fixpoint printf_loop (fmt : list Z) (args : list varg) (state : Z) : option (list Z) :=
  match fmt with
  | [] => Some []
  | c :: fmt' =>
      if state =? 0 then
        if c =? PERCENT then printf_loop fmt' args PERCENT
        else (fun out => c :: out) <$> printf_loop fmt' args state
      else if state =? PERCENT then
        if c =? 100 (* 'd' *) then
          match args with
          | AInt n :: args' => (fun out => printint n 10 1 ++ out) <$> printf_loop fmt' args' 0
          | _ => None
          end
        else if (c =? 120) || (c =? 112) (* 'x', 'p' *) then
          match args with
          | AInt n :: args' => (fun out => printint n 16 0 ++ out) <$> printf_loop fmt' args' 0
          | _ => None
          end
        else if c =? 115 (* 's' *) then
          match args with
          | AStr s :: args' => (fun out => s ++ out) <$> printf_loop fmt' args' 0
          | ANull :: args' =>
              (fun out => bytes_of_string "(null)" ++ out) <$> printf_loop fmt' args' 0
          | _ => None
          end
        else if c =? 99 (* 'c' *) then
          match args with
          | AInt n :: args' => (fun out => u8 n :: out) <$> printf_loop fmt' args' 0
          | _ => None
          end
        else if c =? PERCENT then (fun out => c :: out) <$> printf_loop fmt' args 0
        else (fun out => PERCENT :: c :: out) <$> printf_loop fmt' args 0
      else printf_loop fmt' args state
  end.

Definition printf (fmt : list Z) (args : list varg) : option (list Z) := printf_loop fmt args 0.

End Uprintf.

(** ** Numbers are printed so that they can be read back *)

Definition hexval (c : Z) : Z :=
  if (48 <=? c) && (c <=? 57) then c - 48
  else if (97 <=? c) && (c <=? 102) then c - 87
  else c - 55.

(** The number a digit string denotes, most significant digit first. *)
Definition denote (base : Z) (l : list Z) : Z := fold_left (fun n c => n * base + hexval c) l 0.

Lemma denote_app base l c : denote base (l ++ [c]) = denote base l * base + hexval c.
Proof. unfold denote. by rewrite fold_left_app. Qed.

Lemma hexval_digit k : 0 <= k < 16 -> hexval (nth (Z.to_nat k) Cprintf.digits 0) = k.
Proof.
  intros Hk. assert (exists i, (i < 16)%nat /\ k = Z.of_nat i) as (i & Hi & ->).
  { exists (Z.to_nat k). lia. }
  rewrite Nat2Z.id. do 16 (destruct i as [|i]; [reflexivity|]). lia.
Qed.

Lemma printint_digits_denote fuel x base :
  2 <= base <= 16 -> 0 <= x < base ^ Z.of_nat fuel -> (0 < fuel)%nat ->
  denote base (rev (printint_digits fuel Cprintf.digits x base)) = x.
Proof.
  intros Hb. revert x; induction fuel as [|f IH]; intros x Hx Hf; [lia|].
  cbn [printint_digits rev].
  pose proof (Z.mod_pos_bound x base). pose proof (Z.div_mod x base).
  rewrite denote_app, hexval_digit by lia.
  destruct (Z.eqb_spec (x / base) 0) as [E|E]; [cbn; lia|].
  assert (x < base * base ^ Z.of_nat f).
  { rewrite <- Z.pow_succ_r, <- Nat2Z.inj_succ by lia. lia. }
  assert (0 <= x / base < base ^ Z.of_nat f).
  { split; [apply Z.div_pos; lia|]. apply Z.div_lt_upper_bound; lia. }
  assert (f <> 0)%nat by (intros ->; cbn in *; lia).
  rewrite IH by lia. lia.
Qed.

Lemma printint_digits_range fuel x base :
  2 <= base <= 10 -> Forall (fun c => 48 <= c <= 57) (printint_digits fuel Cprintf.digits x base).
Proof.
  intros Hb. revert x; induction fuel as [|f IH]; intros x; cbn [printint_digits]; [constructor|].
  constructor.
  - pose proof (Z.mod_pos_bound x base). set (k := x mod base) in *.
    assert (exists i, (i < 10)%nat /\ k = Z.of_nat i) as (i & Hi & ->).
    { exists (Z.to_nat k). lia. }
    rewrite Nat2Z.id. do 10 (destruct i as [|i]; [vm_compute; split; discriminate|]). lia.
  - by case_match; [constructor|apply IH].
Qed.

Lemma printint_digits_length fuel x base k :
  2 <= base -> 0 <= x < base ^ Z.of_nat k -> (0 < k)%nat ->
  (length (printint_digits fuel Cprintf.digits x base) <= k)%nat.
Proof.
  intros Hb. revert x k; induction fuel as [|f IH]; intros x k Hx Hk; cbn [printint_digits length]; [lia|].
  destruct (Z.eqb_spec (x / base) 0) as [E|E]; [cbn; lia|].
  destruct k as [|k]; [lia|].
  assert (x < base * base ^ Z.of_nat k).
  { rewrite <- Z.pow_succ_r, <- Nat2Z.inj_succ by lia. lia. }
  assert (0 <= x / base < base ^ Z.of_nat k).
  { split; [apply Z.div_pos; lia|]. apply Z.div_lt_upper_bound; lia. }
  assert (k <> 0)%nat by (intros ->; cbn in *; lia).
  apply le_n_S, IH; lia.
Qed.

Lemma atoi_loop_digits l n :
  Forall (fun c => 48 <= c <= 57) l ->
  Ulib.atoi_loop l (i32 n) = i32 (fold_left (fun n c => n * 10 + hexval c) l n).
Proof.
  intros Hl; revert n; induction Hl as [|c l Hc Hl IH]; intros n; cbn [Ulib.atoi_loop fold_left]; [done|].
  replace ((48 <=? c) && (c <=? 57)) with true by lia.
  unfold hexval at 2. replace ((48 <=? c) && (c <=? 57)) with true by lia.
  rewrite <- IH. f_equal. unfold i32.
  f_equal.
  replace (((n + 2 ^ 31) mod 2 ^ 32 - 2 ^ 31) * 10 + c - 48 + 2 ^ 31)
    with (((n + 2 ^ 31) mod 2 ^ 32) * 10 + (c - 48 + 2 ^ 31 - 2 ^ 31 * 10)) by lia.
  rewrite <- Zplus_mod_idemp_l, Zmult_mod_idemp_l, Zplus_mod_idemp_l. f_equal; lia.
Qed.

Lemma atoi_denote l :
  Forall (fun c => 48 <= c <= 57) l -> Ulib.atoi l = i32 (denote 10 l).
Proof. intros Hl. unfold Ulib.atoi. change 0 with (i32 0) at 1. by apply atoi_loop_digits. Qed.

(** Reading a decimal number with the user library's [atoi], after its sign. *)
Definition read_int (l : list Z) : Z :=
  match l with
  | c :: l' => if c =? MINUS then i32 (- Ulib.atoi l') else Ulib.atoi l
  | [] => 0
  end.

Lemma printint_nonneg_head fuel x l :
  printint_digits fuel Cprintf.digits x 10 = l -> (0 < fuel)%nat ->
  exists c l', rev l = c :: l' /\ 48 <= c <= 57.
Proof.
  intros <- Hf. pose proof (printint_digits_range fuel x 10 ltac:(lia)) as Hr.
  assert (Hr' : Forall (fun c => 48 <= c <= 57) (rev (printint_digits fuel Cprintf.digits x 10))).
  { rewrite Forall_forall in Hr |- *. intros c Hc. apply Hr.
    rewrite list_elem_of_In in Hc |- *. by apply in_rev. }
  destruct (rev _) as [|c l'] eqn:E.
  - apply (f_equal length) in E. rewrite length_rev in E.
    destruct fuel; [lia|]. discriminate E.
  - inversion Hr'; eauto.
Qed.

(** every 32-bit integer [cprintf]'s [%d] prints, INT_MIN included, is read
    back by [atoi] as the same integer. *)
Theorem printint_atoi_roundtrip n :
  in_i32 n -> read_int (Cprintf.printint n 10 1) = n.
Proof.
  intros Hn. unfold Cprintf.printint. change (ctrue 1) with true. cbn iota beta.
  assert (Hpow : 10 ^ Z.of_nat 32 > 2 ^ 32) by (vm_compute; reflexivity).
  pose proof (printint_digits_range 32) as Hr.
  destruct (Z.ltb_spec n 0) as [Hneg|Hpos].
  - rewrite rev_app_distr. cbn [rev app read_int]. rewrite Z.eqb_refl.
    rewrite atoi_denote by (apply Forall_rev, Hr; lia).
    unfold_int. rewrite (Z.mod_small (- n)) by lia.
    rewrite printint_digits_denote by lia. fold (i32 (- n)). unfold i32.
    destruct (decide (n = - 2 ^ 31)) as [->|]; [reflexivity|].
    rewrite !Z.mod_small by (rewrite ?Z.mod_small by lia; lia). lia.
  - rewrite u32_small by (unfold_int; lia).
    destruct (printint_nonneg_head 32 n _ eq_refl) as (c & l & E & Hc); [lia|].
    unfold read_int. rewrite E. rewrite (proj2 (Z.eqb_neq c MINUS)) by (unfold MINUS; lia).
    rewrite <- E. rewrite atoi_denote by (apply Forall_rev, Hr; lia).
    rewrite printint_digits_denote by (unfold_int; lia). by apply i32_small.
Qed.

Lemma printint_atoi_roundtrip_witness :
  in_i32 (-2147483648) /\ read_int (Cprintf.printint (-2147483648) 10 1) = -2147483648.
Proof.
  assert (H : in_i32 (-2147483648)) by (unfold_int; lia).
  split; [exact H|]. exact (printint_atoi_roundtrip (-2147483648) H).
Defined.

(** the 16-byte buffer of [printint] is never overrun: a decimal number needs
    at most 11 bytes (10 digits and a sign), a hexadecimal one at most 8. *)
Theorem printint_fits_buf n sign :
  in_i32 n ->
  (length (Cprintf.printint n 10 sign) <= 11)%nat /\
  (length (Cprintf.printint n 16 0) <= 8)%nat.
Proof.
  intros Hn. unfold Cprintf.printint. change (ctrue 0) with false. cbn iota beta.
  pose proof (u32_range (- n)). pose proof (u32_range n).
  assert (Hd : forall x, 0 <= x < 2 ^ 32 ->
    (length (printint_digits 32 Cprintf.digits x 10) <= 10)%nat).
  { intros x Hx. apply printint_digits_length; [lia| |lia].
    change (10 ^ Z.of_nat 10) with 10000000000. lia. }
  split.
  - rewrite length_rev. case_match; rewrite ?length_app; cbn [length].
    + specialize (Hd _ H). lia.
    + specialize (Hd _ H0). lia.
  - rewrite length_rev. apply printint_digits_length; [lia| |lia].
    change (16 ^ Z.of_nat 8) with (2 ^ 32). lia.
Qed.

Lemma printint_fits_buf_witness :
  in_i32 (-2147483648) /\ (length (Cprintf.printint (-2147483648) 10 1) <= 11)%nat.
Proof.
  assert (H : in_i32 (-2147483648)) by (unfold_int; lia).
  split; [exact H|]. exact (proj1 (printint_fits_buf (-2147483648) 1 H)).
Defined.

(** Formats without [%x], [%p] (the two libraries print hexadecimal in different
    case) and without [%c] (which only the user library knows). *)
Fixpoint common_format (fmt : list Z) : bool :=
  match fmt with
  | [] => true
  | c :: fmt' =>
      if c =? PERCENT then
        match fmt' with
        | [] => true
        | d :: fmt'' => negb ((d =? 120) || (d =? 112) || (d =? 99)) && common_format fmt''
        end
      else common_format fmt'
  end.

Lemma printint_digits_decimal fuel x :
  printint_digits fuel Uprintf.digits x 10 = printint_digits fuel Cprintf.digits x 10.
Proof.
  revert x; induction fuel as [|f IH]; intros x; cbn [printint_digits]; [done|].
  f_equal; [|by rewrite IH].
  pose proof (Z.mod_pos_bound x 10). set (k := x mod 10) in *.
  assert (exists i, (i < 10)%nat /\ k = Z.of_nat i) as (i & Hi & ->).
  { exists (Z.to_nat k). lia. }
  rewrite Nat2Z.id. do 10 (destruct i as [|i]; [reflexivity|]). lia.
Qed.

Lemma printint_decimal_agrees n : Uprintf.printint n 10 1 = Cprintf.printint n 10 1.
Proof.
  unfold Uprintf.printint, Cprintf.printint. change (ctrue 1) with true. cbn iota beta.
  cbn [andb]. by rewrite printint_digits_decimal.
Qed.

(** the user library's [printf], a state machine over single characters, and
    the kernel's [cprintf], which looks ahead, put out the same bytes (or are
    both undefined) for every format of their common language. *)
Theorem printf_agrees_with_cprintf fmt args :
  common_format fmt = true -> Uprintf.printf fmt args = Cprintf.cprintf fmt args.
Proof.
  unfold Uprintf.printf. remember (length fmt) as n eqn:Hn.
  assert (Hlen : (length fmt <= n)%nat) by lia. clear Hn.
  revert fmt args Hlen; induction n as [|n IH]; intros [|c fmt] args Hlen Hc; try done.
  { cbn in Hlen; lia. }
  cbn [common_format Uprintf.printf_loop Cprintf.cprintf] in *. cbn [Z.eqb].
  destruct (Z.eqb_spec c PERCENT) as [->|Hne]; cbn [negb].
  - destruct fmt as [|d fmt]; [done|]. cbn [Uprintf.printf_loop].
    change (PERCENT =? 0) with false. cbn [Z.eqb]. rewrite Z.eqb_refl. cbn iota.
    apply andb_true_iff in Hc as [Hd Hc].
    assert (IH' : forall args, Uprintf.printf_loop fmt args 0 = Cprintf.cprintf fmt args).
    { intros a. apply IH; [cbn in Hlen; lia|done]. }
    replace ((d =? 120) || (d =? 112)) with false by lia.
    replace (d =? 99) with false by lia.
    destruct (d =? 100).
    { destruct args as [|[] args]; [reflexivity| |reflexivity..].
      rewrite IH', printint_decimal_agrees. reflexivity. }
    destruct (d =? 115); [destruct args as [|[] args]; rewrite ?IH'; reflexivity|].
    rewrite IH'. destruct (Z.eqb_spec d PERCENT) as [->|]; reflexivity.
  - rewrite IH; [reflexivity| |done]. cbn in Hlen; lia.
Qed.

Lemma printf_agrees_with_cprintf_witness :
  Uprintf.printf (bytes_of_string "%d %s%%") [AInt (-5); AStr [97]] =
  Some (bytes_of_string "-5 a%").
Proof.
  rewrite (printf_agrees_with_cprintf (bytes_of_string "%d %s%%") [AInt (-5); AStr [97]] eq_refl).
  reflexivity.
Defined.
