(* ===== verification/Locks.v ===== *)
(** The three kinds of kernel locks: spin locks and interrupt nesting
    ([spinlock.c], [Module Spinlock]), sleep locks ([sleeplock.c], [Module
    Sleeplock]) and re-entrant locks ([reentrantlock.c], [Module Reentrant]).

    [Spinlock] has the routines as functions on one CPU's interrupt state and the
    lock, and, for what several CPUs do to a lock at once, the same routines cut
    into their atomic steps ([Module SpinSteps]). *)

From S2P Require Import Prelude.

(** The part of [struct cpu] that the lock code uses, with the CPU's interrupt
    flag (FL_IF of the eflags register). *)
Record cpu := mk_cpu { ncli : Z; intena : bool; intr : bool }.

#[global] Instance cpu_eq_dec : EqDecision cpu.
Proof. solve_decision. Defined.

(** [struct spinlock]: [locked], and the CPU holding the lock ([None] is the null
    pointer).  The debugging fields [name] and [pcs] are left out. *)
Record spinlock := mk_spinlock { locked : Z; lcpu : option nat }.

Module Spinlock.

Definition initlock : spinlock := mk_spinlock 0 None.

Definition cli (c : cpu) : cpu := mk_cpu (ncli c) (intena c) false.
Definition sti (c : cpu) : cpu := mk_cpu (ncli c) (intena c) true.

Definition pushcli : M cpu unit :=
  eflags ← gets intr;
  modify cli ;;
  c ← get;
  when (ncli c =? 0) (modify (fun c => mk_cpu (ncli c) eflags (intr c))) ;;
  modify (fun c => mk_cpu (ncli c + 1) (intena c) (intr c)).

Definition popcli : M cpu unit :=
  i ← gets intr;
  if (i : bool) then panic "popcli - interruptible"
  else
    modify (fun c => mk_cpu (ncli c - 1) (intena c) (intr c)) ;;
    n ← gets ncli;
    if n <? 0 then panic "popcli"
    else
      c ← get;
      when ((ncli c =? 0) && intena c) (modify sti).

Definition holding (me : nat) (lk : spinlock) : M cpu bool :=
  pushcli ;;
  let r := ctrue (locked lk) && bool_decide (lcpu lk = Some me) in
  popcli ;;
  mret r.

(** Returns the lock as it is afterwards.  A lock that another CPU holds is spun
    on; no other CPU runs here, so that is a [Spinning] fault. *)
Definition acquire (me : nat) (lk : spinlock) : M cpu spinlock :=
  pushcli ;;
  h ← holding me lk;
  if (h : bool) then panic "acquire"
  else if ctrue (locked lk) then faults Spinning
  else mret (mk_spinlock 1 (Some me)).

Definition release (me : nat) (lk : spinlock) : M cpu spinlock :=
  h ← holding me lk;
  if negb h then panic "release"
  else
    let lk := mk_spinlock (locked lk) None in
    let lk := mk_spinlock 0 (lcpu lk) in
    popcli ;;
    mret lk.

(** *** Interrupt nesting *)

(** While code runs inside [pushcli]s, interrupts are off. *)
Definition cpu_ok (c : cpu) : Prop := 0 <= ncli c /\ (0 < ncli c -> intr c = false).

Lemma pushcli_run c :
  pushcli c = Ret tt (mk_cpu (ncli c + 1) (if ncli c =? 0 then intr c else intena c) false).
Proof. destruct c as [n e i]. unfold pushcli. munfold. cbn. by destruct (n =? 0). Qed.

Lemma popcli_run n e :
  0 <= n -> popcli (mk_cpu (n + 1) e false) = Ret tt (mk_cpu n e ((n =? 0) && e)).
Proof.
  intros Hn. unfold popcli. munfold. cbn.
  replace (n + 1 - 1) with n by lia. replace (n <? 0) with false by lia.
  cbn. by destruct (n =? 0), e.
Qed.

Lemma pushcli_popcli_nested c :
  0 < ncli c -> intr c = false -> (pushcli ;; popcli) c = Ret tt c.
Proof.
  intros Hn Hi. unfold mbind, M_MBind, M_bind. rewrite pushcli_run.
  rewrite popcli_run by lia. destruct c as [n e i]; cbn in *. subst.
  replace (n =? 0) with false by lia. done.
Qed.

Lemma holding_run me lk c :
  cpu_ok c ->
  holding me lk c = Ret (ctrue (locked lk) && bool_decide (lcpu lk = Some me))
    (mk_cpu (ncli c) (if ncli c =? 0 then intr c else intena c) (intr c)).
Proof.
  intros [Hn Hi]. unfold holding, mbind, M_MBind, M_bind. rewrite pushcli_run.
  rewrite popcli_run by done. munfold. destruct c as [n e i]; cbn in *.
  destruct (Z.eqb_spec n 0) as [->|]; [done|]. rewrite Hi by lia. done.
Qed.

(** [n] calls of [f] in a row. *)
Fixpoint times (n : nat) (f : M cpu unit) : M cpu unit :=
  match n with O => mret tt | S n' => f ;; times n' f end.

Lemma times_pushcli n c :
  times (S n) pushcli c =
    Ret tt (mk_cpu (ncli c + Z.of_nat (S n)) (if ncli c =? 0 then intr c else intena c) false)
  \/ ncli c < 0.
Proof.
  revert c; induction n as [|n IH]; intros c.
  - left. cbn [times]. rewrite (bind_eq _ _ _ _ _ (pushcli_run c)). done.
  - destruct (Z.ltb_spec (ncli c) 0) as [|Hc]; [by right|left].
    change (times (S (S n)) pushcli) with (pushcli ;; times (S n) pushcli).
    rewrite (bind_eq _ _ _ _ _ (pushcli_run c)).
    destruct (IH (mk_cpu (ncli c + 1) (if ncli c =? 0 then intr c else intena c) false))
      as [->|H]; cbn in *; [|lia].
    replace (ncli c + 1 =? 0) with false by lia. do 2 f_equal. lia.
Qed.

Lemma times_popcli n m e :
  0 <= m ->
  times (S n) popcli (mk_cpu (m + Z.of_nat (S n)) e false) =
    Ret tt (mk_cpu m e ((m =? 0) && e)).
Proof.
  revert m; induction n as [|n IH]; intros m Hm.
  - cbn [times]. by rewrite (bind_eq _ _ _ _ _ (popcli_run m e Hm)).
  - change (times (S (S n)) popcli) with (popcli ;; times (S n) popcli).
    replace (m + Z.of_nat (S (S n))) with (m + Z.of_nat (S n) + 1) by lia.
    rewrite (bind_eq _ _ _ _ _ (popcli_run (m + Z.of_nat (S n)) e ltac:(lia))).
    replace (m + Z.of_nat (S n) =? 0) with false by lia. cbn [andb]. by rewrite IH.
Qed.

(** [pushcli] and [popcli] are matched: after any number of [pushcli]s and as
    many [popcli]s the interrupt flag and the depth are what they were, and in
    between interrupts are off. *)
Theorem pushcli_popcli_matched n c :
  cpu_ok c ->
  exists c1, times (S n) pushcli c = Ret tt c1 /\ intr c1 = false /\
  exists c2, times (S n) popcli c1 = Ret tt c2 /\ intr c2 = intr c /\ ncli c2 = ncli c.
Proof.
  intros [Hn Hi]. destruct (times_pushcli n c) as [->|]; [|lia].
  eexists; split; [done|]; split; [done|].
  rewrite times_popcli by done. eexists; split; [done|]. cbn. split; [|done].
  destruct (Z.eqb_spec (ncli c) 0) as [E|Hne]; [done|]. cbn. by rewrite Hi by lia.
Qed.

Lemma pushcli_popcli_matched_witness :
  cpu_ok (mk_cpu 0 false true) /\
  exists c1, times 2 pushcli (mk_cpu 0 false true) = Ret tt c1 /\ intr c1 = false /\
  exists c2, times 2 popcli c1 = Ret tt c2 /\ intr c2 = true /\ ncli c2 = 0.
Proof.
  assert (H : cpu_ok (mk_cpu 0 false true)) by (split; cbn; lia).
  split; [exact H|]. exact (pushcli_popcli_matched 1 (mk_cpu 0 false true) H).
Defined.

(** [acquire] of a free lock takes it with interrupts off; the matching [release]
    gives it back and restores the interrupt flag. *)
Lemma acquire_run me c :
  cpu_ok c ->
  acquire me initlock c =
    Ret (mk_spinlock 1 (Some me))
        (mk_cpu (ncli c + 1) (if ncli c =? 0 then intr c else intena c) false).
Proof.
  intros [Hn Hi]. unfold acquire, mbind, M_MBind, M_bind. rewrite pushcli_run.
  rewrite holding_run by (split; cbn; lia). cbn. munfold.
  replace (ncli c + 1 =? 0) with false by lia. done.
Qed.

Lemma release_run me c :
  0 <= ncli c ->
  release me (mk_spinlock 1 (Some me)) (mk_cpu (ncli c + 1) (intena c) false) =
    Ret initlock (mk_cpu (ncli c) (intena c) ((ncli c =? 0) && intena c)).
Proof.
  intros Hn. unfold release, mbind, M_MBind, M_bind.
  rewrite holding_run by (split; cbn; lia). cbn.
  rewrite bool_decide_eq_true_2 by done. cbn.
  replace (ncli c + 1 =? 0) with false by lia. rewrite popcli_run by done. done.
Qed.

(** Acquiring a lock this CPU already holds panics, as does releasing one it
    does not hold. *)
Lemma acquire_twice_panics me c :
  cpu_ok c -> exists c', acquire me (mk_spinlock 1 (Some me)) c = Panic "acquire" c'.
Proof.
  intros [Hn Hi]. unfold acquire, mbind, M_MBind, M_bind. rewrite pushcli_run.
  rewrite holding_run by (split; cbn; lia). cbn.
  rewrite bool_decide_eq_true_2 by done. eexists; reflexivity.
Qed.

Lemma release_free_panics me c :
  cpu_ok c -> exists c', release me initlock c = Panic "release" c'.
Proof.
  intros Hc. unfold release, mbind, M_MBind, M_bind. rewrite holding_run by done.
  eexists; reflexivity.
Qed.

End Spinlock.

(** ** Several CPUs and one lock

    [acquire] and [release] cut into the steps other CPUs can see: the holding
    check, each [xchg] of the spin loop, the assignment of [lk->cpu], and, in
    [release], the clearing of [lk->cpu] and then of [lk->locked].  A schedule is
    the list of CPUs that take the next step. *)
Module SpinSteps.

Inductive pc := Outside | Spin | Got | Holds | Dropped.

#[global] Instance pc_eq_dec : EqDecision pc.
Proof. solve_decision. Defined.

Record sstate := mk_sstate { pcs : list pc; lk : spinlock }.

(** The next step of CPU [c]; [None] if it calls [panic]. *)
Definition advance (c : nat) (s : sstate) : option sstate :=
  let holds := ctrue (locked (lk s)) && bool_decide (lcpu (lk s) = Some c) in
  match pcs s !! c with
  | None => Some s
  | Some Outside =>
      if holds then None else Some (mk_sstate (<[c := Spin]> (pcs s)) (lk s))
  | Some Spin =>
      if ctrue (locked (lk s)) then Some (mk_sstate (pcs s) (mk_spinlock 1 (lcpu (lk s))))
      else Some (mk_sstate (<[c := Got]> (pcs s)) (mk_spinlock 1 (lcpu (lk s))))
  | Some Got => Some (mk_sstate (<[c := Holds]> (pcs s)) (mk_spinlock (locked (lk s)) (Some c)))
  | Some Holds =>
      if holds then Some (mk_sstate (<[c := Dropped]> (pcs s)) (mk_spinlock (locked (lk s)) None))
      else None
  | Some Dropped => Some (mk_sstate (<[c := Outside]> (pcs s)) (mk_spinlock 0 (lcpu (lk s))))
  end.

Fixpoint run (sched : list nat) (s : sstate) : option sstate :=
  match sched with
  | [] => Some s
  | c :: sched' => match advance c s with Some s' => run sched' s' | None => None end
  end.

Definition init (ncpu : nat) : sstate := mk_sstate (replicate ncpu Outside) Spinlock.initlock.

(** Between a successful [xchg] and the final store. *)
Definition critical (p : pc) : bool :=
  match p with Got | Holds | Dropped => true | _ => false end.

Definition inv (s : sstate) : Prop :=
  exists owner : option nat,
    locked (lk s) = (if owner then 1 else 0) /\
    (forall c p, pcs s !! c = Some p -> critical p = true <-> owner = Some c) /\
    (forall c, owner = Some c -> is_Some (pcs s !! c)) /\
    (forall c, lcpu (lk s) = Some c <-> pcs s !! c = Some Holds).

Lemma spin_init_inv n : inv (init n).
Proof.
  exists None. cbn. split_and!; try done.
  - intros c p H. apply lookup_replicate in H as [-> _]. done.
  - intros c. split; [done|]. intros H. apply lookup_replicate in H as [H _]. done.
Qed.

Lemma insert_pc_lookup (l : list pc) c p d q :
  l !! c = Some p -> <[c := q]> l !! d = if decide (c = d) then Some q else l !! d.
Proof.
  intros H. case_decide as E; [subst; apply list_lookup_insert_eq; by eapply lookup_lt_Some|].
  by apply list_lookup_insert_ne.
Qed.

Lemma advance_inv c s : inv s -> exists s', advance c s = Some s' /\ inv s'.
Proof.
  intros (o & Hl & Hc & Ho & Hp). unfold advance.
  destruct (pcs s !! c) as [p|] eqn:E; [|eexists; split; [done|]; by exists o].
  pose proof (Hc c p E) as Hcp. pose proof (Hp c) as Hpc. rewrite E in Hpc.
  assert (Hh : bool_decide (lcpu (lk s) = Some c) = bool_decide (p = Holds)).
  { apply bool_decide_ext. rewrite Hpc. naive_solver. }
  destruct p; cbn in Hcp.
  - rewrite Hh. rewrite andb_comm. cbn. clear Hh. eexists; split; [done|].
    exists o; cbn; split_and!; try done.
    + intros d p. rewrite (insert_pc_lookup _ _ _ _ _ E). case_decide; [naive_solver|apply Hc].
    + intros d Hd. rewrite (insert_pc_lookup _ _ _ _ _ E). case_decide; eauto.
    + intros d. rewrite (insert_pc_lookup _ _ _ _ _ E). case_decide; [subst|]; rewrite Hp, ?E; naive_solver.
  - clear Hh. rewrite Hl. destruct o as [d|]; cbn.
    + eexists; split; [done|]. by exists (Some d).
    + eexists; split; [done|]. exists (Some c); cbn; split_and!; try done.
      * intros d p. rewrite (insert_pc_lookup _ _ _ _ _ E). case_decide.
        -- intros [= <-]. subst. done.
        -- intros Hd. rewrite (Hc d p Hd). naive_solver.
      * intros d [= <-]. rewrite (insert_pc_lookup _ _ _ _ _ E). case_decide; naive_solver.
      * intros d. rewrite (insert_pc_lookup _ _ _ _ _ E). case_decide; [subst|]; rewrite Hp, ?E; naive_solver.
  - clear Hh. destruct Hcp as [Hcp _]. specialize (Hcp eq_refl) as ->.
    eexists; split; [done|]. exists (Some c); cbn; split_and!; try done.
    + intros d p. rewrite (insert_pc_lookup _ _ _ _ _ E). case_decide; [naive_solver|apply Hc].
    + intros d [= <-]. rewrite (insert_pc_lookup _ _ _ _ _ E). case_decide; naive_solver.
    + intros d. rewrite (insert_pc_lookup _ _ _ _ _ E). case_decide; [naive_solver|].
      split; [naive_solver|]. intros Hd. specialize (Hc d Holds Hd). naive_solver.
  - destruct Hcp as [Hcp _]. specialize (Hcp eq_refl) as ->.
    rewrite Hh, Hl. cbn. clear Hh. eexists; split; [done|].
    exists (Some c); cbn; split_and!; try done.
    + intros d p. rewrite (insert_pc_lookup _ _ _ _ _ E). case_decide; [naive_solver|apply Hc].
    + intros d [= <-]. rewrite (insert_pc_lookup _ _ _ _ _ E). case_decide; naive_solver.
    + intros d. rewrite (insert_pc_lookup _ _ _ _ _ E). case_decide; [naive_solver|].
      split; [naive_solver|]. intros Hd. specialize (Hc d Holds Hd). naive_solver.
  - clear Hh. destruct Hcp as [Hcp _]. specialize (Hcp eq_refl) as ->.
    eexists; split; [done|]. exists None; cbn; split_and!; try done.
    + intros d p. rewrite (insert_pc_lookup _ _ _ _ _ E). case_decide; [naive_solver|].
      intros Hd. specialize (Hc d p Hd). naive_solver.
    + intros d. rewrite (insert_pc_lookup _ _ _ _ _ E). case_decide; [subst|]; rewrite Hp, ?E; naive_solver.
Qed.

Lemma spin_run_inv sched s : inv s -> exists s', run sched s = Some s' /\ inv s'.
Proof.
  revert s; induction sched as [|c sched IH]; intros s Hs; cbn [run]; [eauto|].
  destruct (advance_inv c s Hs) as (s' & -> & Hs'). by apply IH.
Qed.

(** C34: whatever the order in which any number of CPUs take their steps, no CPU
    panics, two CPUs are never between their [xchg] and their releasing store at
    once, and a CPU that is inside is the one recorded in [lk->cpu]. *)
Theorem spinlock_mutual_exclusion ncpu sched :
  exists s, run sched (init ncpu) = Some s /\
    (forall c d p q, pcs s !! c = Some p -> pcs s !! d = Some q ->
       critical p = true -> critical q = true -> c = d) /\
    (forall c, pcs s !! c = Some Holds <-> lcpu (lk s) = Some c).
Proof.
  destruct (spin_run_inv sched _ (spin_init_inv ncpu)) as (s & Hr & o & Hl & Hc & Ho & Hp).
  exists s. split_and!; [done| |].
  - intros c d p q H1 H2 H3 H4.
    apply (Hc _ _ H1) in H3. apply (Hc _ _ H2) in H4. congruence.
  - intros c. by rewrite Hp.
Qed.

End SpinSteps.

(** ** Sleep locks *)

(** [struct sleeplock], its debugging name left out. *)
Record sleeplock := mk_sleeplock { sl_locked : Z; sl_lk : spinlock; sl_pid : Z }.

(** What a sleep-lock routine runs on: this CPU's interrupt state, the lock, and
    the channels [wakeup] has been called on. *)
Record slctx := mk_slctx { sl_cpu : cpu; sl : sleeplock; sl_wakeups : list chan }.

Module Sleeplock.

Definition initsleeplock : sleeplock := mk_sleeplock 0 Spinlock.initlock 0.

(** [acquire] or [release] of the spin lock inside. *)
Definition on_lk (f : spinlock -> M cpu spinlock) : M slctx unit :=
  x ← get;
  lk' ← zoom sl_cpu (fun c x => mk_slctx c (sl x) (sl_wakeups x)) (f (sl_lk (sl x)));
  modify (fun x => mk_slctx (sl_cpu x) (mk_sleeplock (sl_locked (sl x)) lk' (sl_pid (sl x)))
                     (sl_wakeups x)).

Definition set_holder (l pid : Z) : M slctx unit :=
  modify (fun x => mk_slctx (sl_cpu x) (mk_sleeplock l (sl_lk (sl x)) pid) (sl_wakeups x)).

Definition wakeup (ch : chan) : M slctx unit :=
  modify (fun x => mk_slctx (sl_cpu x) (sl x) (sl_wakeups x ++ [ch])).

(** [me] is the CPU, [mypid] is [myproc()->pid] and [i] names the lock's own
    channel.  [sleep] releases the inner spin lock and takes it again on waking,
    where the loop tests [lk->locked] again. *)
Definition acquiresleep (me i : nat) (mypid : Z) : M slctx unit :=
  on_lk (Spinlock.acquire me) ;;
  x ← get;
  if ctrue (sl_locked (sl x))
  then on_lk (Spinlock.release me) ;; sleep_on (CSleeplock i) 0
  else
    set_holder 1 mypid ;;
    on_lk (Spinlock.release me).

Definition releasesleep (me i : nat) : M slctx unit :=
  on_lk (Spinlock.acquire me) ;;
  set_holder 0 0 ;;
  wakeup (CSleeplock i) ;;
  on_lk (Spinlock.release me).

Definition holdingsleep (me : nat) (mypid : Z) : M slctx bool :=
  on_lk (Spinlock.acquire me) ;;
  x ← get;
  let r := ctrue (sl_locked (sl x)) && (sl_pid (sl x) =? mypid) in
  on_lk (Spinlock.release me) ;;
  mret r.

(** *** The abstract lock: its owner, if any. *)

Definition owner (x : sleeplock) : option Z :=
  if ctrue (sl_locked x) then Some (sl_pid x) else None.

(** Between two routines the inner spin lock is free and interrupts are nested
    properly. *)
Definition quiet (x : slctx) : Prop :=
  sl_lk (sl x) = Spinlock.initlock /\ Spinlock.cpu_ok (sl_cpu x).

(** The CPU after a balanced pair of [pushcli] and [popcli]. *)
Definition settle (c : cpu) : cpu :=
  mk_cpu (ncli c) (if ncli c =? 0 then intr c else intena c) (intr c).

Definition in_section (me : nat) (x : slctx) : slctx :=
  mk_slctx (mk_cpu (ncli (sl_cpu x) + 1)
              (if ncli (sl_cpu x) =? 0 then intr (sl_cpu x) else intena (sl_cpu x)) false)
    (mk_sleeplock (sl_locked (sl x)) (mk_spinlock 1 (Some me)) (sl_pid (sl x))) (sl_wakeups x).

Lemma enter me x : quiet x -> on_lk (Spinlock.acquire me) x = Ret tt (in_section me x).
Proof.
  intros [Hl Hc]. unfold on_lk, zoom. munfold. rewrite Hl.
  by rewrite Spinlock.acquire_run by done.
Qed.

Lemma leave me x l p w :
  quiet x ->
  on_lk (Spinlock.release me)
    (mk_slctx (sl_cpu (in_section me x)) (mk_sleeplock l (mk_spinlock 1 (Some me)) p) w) =
  Ret tt (mk_slctx (settle (sl_cpu x)) (mk_sleeplock l Spinlock.initlock p) w).
Proof.
  intros [Hl [Hn Hi]]. unfold on_lk, zoom. munfold. cbn [sl_cpu sl sl_lk in_section].
  pose proof (Spinlock.release_run me (settle (sl_cpu x)) Hn) as Hr. cbn in Hr. rewrite Hr.
  cbn. unfold settle. do 2 f_equal.
  destruct (Z.eqb_spec (ncli (sl_cpu x)) 0) as [E|E]; cbn; [done|].
  by rewrite Hi by lia.
Qed.

Lemma acquiresleep_run me i mypid x :
  quiet x ->
  acquiresleep me i mypid x =
    match owner (sl x) with
    | None => Ret tt (mk_slctx (settle (sl_cpu x)) (mk_sleeplock 1 Spinlock.initlock mypid)
                        (sl_wakeups x))
    | Some _ => Sleep (CSleeplock i) 0 (mk_slctx (settle (sl_cpu x)) (sl x) (sl_wakeups x))
    end.
Proof.
  intros Hq. unfold acquiresleep. rewrite (bind_eq _ _ _ _ _ (enter me x Hq)).
  unfold owner. rewrite (bind_eq _ _ _ _ _ (eq_refl : get _ = Ret _ _)).
  cbn [sl sl_locked in_section].
  destruct (ctrue (sl_locked (sl x))).
  - unfold in_section. cbn [sl_wakeups sl_cpu sl sl_locked sl_pid].
    pose proof (leave me x (sl_locked (sl x)) (sl_pid (sl x)) (sl_wakeups x) Hq) as HL.
    rewrite (bind_eq _ _ _ _ _ HL). munfold. do 2 f_equal.
    destruct Hq as [Hlk _]. destruct x as [c [a b d] w]; cbn in *. by rewrite Hlk.
  - exact (leave me x 1 mypid (sl_wakeups x) Hq).
Qed.

Lemma releasesleep_run me i x :
  quiet x ->
  releasesleep me i x =
    Ret tt (mk_slctx (settle (sl_cpu x)) (mk_sleeplock 0 Spinlock.initlock 0)
              (sl_wakeups x ++ [CSleeplock i])).
Proof.
  intros Hq. unfold releasesleep. rewrite (bind_eq _ _ _ _ _ (enter me x Hq)).
  exact (leave me x 0 0 (sl_wakeups x ++ [CSleeplock i]) Hq).
Qed.

Lemma holdingsleep_run me mypid x :
  quiet x ->
  holdingsleep me mypid x =
    Ret (bool_decide (owner (sl x) = Some mypid)) (mk_slctx (settle (sl_cpu x)) (sl x) (sl_wakeups x)).
Proof.
  intros Hq. unfold holdingsleep. rewrite (bind_eq _ _ _ _ _ (enter me x Hq)).
  rewrite (bind_eq _ _ _ _ _ (eq_refl : get _ = Ret _ _)).
  cbn [sl sl_locked sl_pid in_section].
  pose proof (leave me x (sl_locked (sl x)) (sl_pid (sl x)) (sl_wakeups x) Hq) as HL.
  rewrite (bind_eq _ _ _ _ _ HL). munfold. unfold owner. f_equal.
  - destruct (ctrue (sl_locked (sl x))); cbn.
    + destruct (Z.eqb_spec (sl_pid (sl x)) mypid) as [->|Hne].
      * by rewrite bool_decide_eq_true_2.
      * rewrite bool_decide_eq_false_2 by congruence. done.
    + done.
  - destruct Hq as [Hlk _]. destruct x as [c [a b d] w]; cbn in *. by rewrite Hlk.
Qed.

(** a sleep lock is the lock of its abstract owner: [acquiresleep] takes a
    free lock for the caller and sleeps on a taken one without touching it,
    [releasesleep] frees it and wakes the sleepers, [holdingsleep] tells whether
    the caller owns it; all three leave the inner spin lock free and the
    interrupt state as they found it. *)
Theorem sleeplock_refines_owner me i mypid x :
  quiet x ->
  (exists x', acquiresleep me i mypid x =
     (if owner (sl x) then Sleep (CSleeplock i) 0 x' else Ret tt x') /\
     quiet x' /\ intr (sl_cpu x') = intr (sl_cpu x) /\
     owner (sl x') = (if owner (sl x) then owner (sl x) else Some mypid)) /\
  (exists x', releasesleep me i x = Ret tt x' /\ quiet x' /\
     intr (sl_cpu x') = intr (sl_cpu x) /\ owner (sl x') = None /\
     sl_wakeups x' = sl_wakeups x ++ [CSleeplock i]) /\
  (exists x', holdingsleep me mypid x = Ret (bool_decide (owner (sl x) = Some mypid)) x' /\
     quiet x' /\ sl x' = sl x).
Proof.
  intros Hq. pose proof Hq as [Hlk [Hn Hi]].
  assert (Hs : Spinlock.cpu_ok (settle (sl_cpu x))) by (split; [done|exact Hi]).
  split_and!.
  - rewrite acquiresleep_run by done.
    destruct (owner (sl x)) as [o|] eqn:E; eexists; (split; [done|]); by split_and!.
  - rewrite releasesleep_run by done. eexists; split; [done|]. by split_and!.
  - rewrite holdingsleep_run by done. eexists; split; [done|]. by split_and!.
Qed.

Lemma sleeplock_refines_owner_witness :
  exists x', acquiresleep 0 3 7 (mk_slctx (mk_cpu 0 false true) initsleeplock []) = Ret tt x' /\
    owner (sl x') = Some 7.
Proof.
  assert (Hq : quiet (mk_slctx (mk_cpu 0 false true) initsleeplock [])).
  { split; [reflexivity|]. split; cbn; lia. }
  destruct (sleeplock_refines_owner 0 3 7 (mk_slctx (mk_cpu 0 false true) initsleeplock []) Hq)
    as [(x' & H & _ & _ & Ho) _].
  exists x'. split; [exact H|exact Ho].
Defined.

End Sleeplock.

(** ** Re-entrant locks *)

(** [struct reentrantlock], its debugging name left out. *)
Record reentrantlock := mk_reentrantlock {
  r_locked : Z; r_lk : sleeplock; r_pid : Z; r_recursion : Z }.

Record rctx := mk_rctx { r_cpu : cpu; r : reentrantlock; r_wakeups : list chan }.

Module Reentrant.

Definition initreentrantlock : reentrantlock :=
  mk_reentrantlock 0 Sleeplock.initsleeplock 0 0.

Definition on_sl {A} (f : M slctx A) : M rctx A :=
  zoom (fun x => mk_slctx (r_cpu x) (r_lk (r x)) (r_wakeups x))
    (fun y x => mk_rctx (sl_cpu y)
       (mk_reentrantlock (r_locked (r x)) (sl y) (r_pid (r x)) (r_recursion (r x))) (sl_wakeups y)) f.

Definition set_r (f : reentrantlock -> reentrantlock) : M rctx unit :=
  modify (fun x => mk_rctx (r_cpu x) (f (r x)) (r_wakeups x)).

Definition holdingreentrant (mypid : Z) : M rctx bool :=
  gets (fun x => ctrue (r_locked (r x)) && (r_pid (r x) =? mypid)).

Definition acquirereentrant (me i : nat) (mypid : Z) : M rctx unit :=
  h ← holdingreentrant mypid;
  when (negb h)
    (on_sl (Sleeplock.acquiresleep me i mypid) ;;
     set_r (fun l => mk_reentrantlock 1 (r_lk l) (r_pid l) (r_recursion l)) ;;
     set_r (fun l => mk_reentrantlock (r_locked l) (r_lk l) mypid (r_recursion l))) ;;
  set_r (fun l => mk_reentrantlock (r_locked l) (r_lk l) (r_pid l) (r_recursion l + 1)).

Definition releasereentrant (me i : nat) (mypid : Z) : M rctx unit :=
  h ← holdingreentrant mypid;
  if negb h then mret tt
  else
    set_r (fun l => mk_reentrantlock (r_locked l) (r_lk l) (r_pid l) (r_recursion l - 1)) ;;
    x ← get;
    when (r_recursion (r x) =? 0)
      (set_r (fun l => mk_reentrantlock 0 (r_lk l) (r_pid l) (r_recursion l)) ;;
       set_r (fun l => mk_reentrantlock (r_locked l) (r_lk l) 0 (r_recursion l)) ;;
       on_sl (Sleeplock.releasesleep me i)).

(** *** The abstract lock: free, or held by a process to some depth *)

Definition rep (o : option (Z * nat)) (x : rctx) : Prop :=
  Sleeplock.quiet (mk_slctx (r_cpu x) (r_lk (r x)) (r_wakeups x)) /\
  match o with
  | None => Sleeplock.owner (r_lk (r x)) = None /\ r_locked (r x) = 0 /\ r_recursion (r x) = 0
  | Some (p, d) =>
      Sleeplock.owner (r_lk (r x)) = Some p /\ r_locked (r x) = 1 /\ r_pid (r x) = p /\
      (0 < d)%nat /\ r_recursion (r x) = Z.of_nat d
  end.

Lemma quiet_settle c l w w' :
  Sleeplock.quiet (mk_slctx c l w) -> Sleeplock.quiet (mk_slctx (Sleeplock.settle c) l w').
Proof. intros [H1 [H2 H3]]. split; [done|]. split; [done|exact H3]. Qed.

Lemma acquire_rep me i p x o :
  rep o x ->
  match o with
  | None => exists x', acquirereentrant me i p x = Ret tt x' /\ rep (Some (p, 1%nat)) x' /\
              r_wakeups x' = r_wakeups x
  | Some (q, d) =>
      if decide (q = p)
      then exists x', acquirereentrant me i p x = Ret tt x' /\ rep (Some (p, S d)) x' /\
             r_wakeups x' = r_wakeups x
      else exists x', acquirereentrant me i p x = Sleep (CSleeplock i) 0 x' /\ rep (Some (q, d)) x'
  end.
Proof.
  intros [Hq Ho]. pose proof (Sleeplock.acquiresleep_run me i p _ Hq) as Ha.
  unfold acquirereentrant, holdingreentrant, on_sl, set_r, zoom. munfold.
  destruct x as [c [rl [sk sp sd] rp rr] w]; cbn in *.
  destruct o as [[q d]|].
  - destruct Ho as (Ho1 & -> & -> & Hd & ->). cbn.
    case_decide as E; [subst|].
    + rewrite Z.eqb_refl. cbn. eexists; split; [done|]. split; [|done]. split; [exact Hq|].
      cbn. split_and!; (done || lia).
    + rewrite (proj2 (Z.eqb_neq q p)) by done. cbn. rewrite Ha, Ho1.
      eexists; split; [done|]. split; cbn; [by eapply quiet_settle|]. by split_and!.
  - destruct Ho as (Ho1 & -> & ->). cbn. rewrite Ha, Ho1. cbn.
    eexists; split; [done|]. split; [|done]. split; cbn; [|split_and!; (done || lia)].
    destruct Hq as [Hq1 Hq2]. cbn in *. split; [done|exact Hq2].
Qed.

Lemma release_rep me i p x q d :
  rep (Some (q, d)) x ->
  if decide (q = p)
  then exists x', releasereentrant me i p x = Ret tt x' /\
         rep (match d with 1%nat => None | _ => Some (p, pred d) end) x'
  else releasereentrant me i p x = Ret tt x.
Proof.
  intros [Hq (Ho & Hl & Hp & Hd & Hr)].
  unfold releasereentrant, holdingreentrant, on_sl, set_r, zoom. munfold.
  destruct x as [c [rl [sk sp sd] rp rr] w]; cbn in *. subst. cbn.
  case_decide as E; [subst|by rewrite (proj2 (Z.eqb_neq q p)) by done].
  rewrite Z.eqb_refl. cbn.
  destruct (Z.eqb_spec (Z.of_nat d - 1) 0) as [E|E].
  - assert (d = 1%nat) as -> by lia. cbn.
    pose proof (Sleeplock.releasesleep_run me i (mk_slctx c (mk_sleeplock sk sp sd) w) Hq) as Hrel.
    rewrite Hrel. cbn. eexists; split; [done|]. split; cbn; [|done].
    destruct Hq as [Hq1 Hq2]. cbn in *. split; [done|exact Hq2].
  - eexists; split; [done|]. destruct d as [|[|d]]; [lia|lia|]. split; [exact Hq|]. cbn.
    split_and!; (done || lia).
Qed.

Fixpoint nest (n : nat) (f : M rctx unit) : M rctx unit :=
  match n with O => mret tt | S n' => f ;; nest n' f end.

Lemma nest_acquire me i p n x d :
  rep (Some (p, d)) x -> exists x', nest n (acquirereentrant me i p) x = Ret tt x' /\
    rep (Some (p, (n + d)%nat)) x'.
Proof.
  revert x d; induction n as [|n IH]; intros x d H; cbn [nest]; [by eexists|].
  pose proof (acquire_rep me i p x _ H) as Ha. cbn in Ha. rewrite decide_True in Ha by done.
  destruct Ha as (x1 & E & H1 & _). rewrite (bind_eq _ _ _ _ _ E).
  destruct (IH x1 (S d) H1) as (x2 & -> & H2). eexists; split; [done|].
  by replace (S n + d)%nat with (n + S d)%nat by lia.
Qed.

Lemma nest_release me i p n x d :
  rep (Some (p, d)) x -> (n <= d)%nat ->
  exists x', nest n (releasereentrant me i p) x = Ret tt x' /\
    rep (if decide (n = d) then None else Some (p, (d - n)%nat)) x'.
Proof.
  revert x d; induction n as [|n IH]; intros x d H Hn; cbn [nest].
  - eexists; split; [done|]. rewrite decide_False, Nat.sub_0_r; [done|].
    destruct H as [_ (_ & _ & _ & ? & _)]. lia.
  - pose proof (release_rep me i p x p d H) as Ha. rewrite decide_True in Ha by done.
    destruct Ha as (x1 & E & H1). rewrite (bind_eq _ _ _ _ _ E).
    destruct d as [|[|d]]; [lia| |].
    + assert (n = 0)%nat as -> by lia. cbn [nest]. by eexists.
    + cbn [pred] in H1. destruct (IH x1 (S d) H1) as (x2 & -> & H2); [lia|].
      eexists; split; [done|]. replace (S (S d) - S n)%nat with (S d - n)%nat by lia.
      destruct (decide (n = S d)) as [->|]; [by rewrite decide_True in * by lia|].
      rewrite decide_False by lia. done.
Qed.

(** a process can take a free re-entrant lock any number of times without
    blocking itself; while it does, any other process sleeps on the lock and its
    releases do nothing; and the lock is free again exactly after as many
    releases as there were acquisitions. *)
Theorem reentrant_nesting me i p n x :
  rep None x ->
  exists x1, nest (S n) (acquirereentrant me i p) x = Ret tt x1 /\
    (forall q, q <> p ->
       (exists y, acquirereentrant me i q x1 = Sleep (CSleeplock i) 0 y) /\
       releasereentrant me i q x1 = Ret tt x1) /\
    (forall k, (k <= S n)%nat -> exists x2, nest k (releasereentrant me i p) x1 = Ret tt x2 /\
       (Sleeplock.owner (r_lk (r x2)) = None <-> k = S n)).
Proof.
  intros H. cbn [nest]. pose proof (acquire_rep me i p x None H) as (x0 & E & H0 & _).
  rewrite (bind_eq _ _ _ _ _ E).
  destruct (nest_acquire me i p n x0 1 H0) as (x1 & -> & H1).
  rewrite Nat.add_1_r in H1. exists x1. split; [done|]. split.
  - intros q Hq. split.
    + pose proof (acquire_rep me i q x1 _ H1) as Ha. cbn in Ha.
      rewrite decide_False in Ha by done. destruct Ha as (y & Ha & _). by eexists.
    + pose proof (release_rep me i q x1 _ _ H1) as Ha.
      by rewrite decide_False in Ha by done.
  - intros k Hk. destruct (nest_release me i p k x1 (S n) H1 Hk) as (x2 & -> & H2).
    eexists; split; [done|]. case_decide as E2.
    + destruct H2 as [_ [H2 _]]. naive_solver.
    + destruct H2 as [_ [H2 _]]. split; [congruence|done].
Qed.

Definition free_rctx : rctx := mk_rctx (mk_cpu 0 false true) initreentrantlock [].

Lemma free_rctx_rep : rep None free_rctx.
Proof. split; [split; [reflexivity|split; cbn; lia]|]. by split_and!. Defined.

Lemma reentrant_nesting_witness :
  exists x1, nest 3 (acquirereentrant 0 9 4) free_rctx = Ret tt x1 /\
    (exists y, acquirereentrant 0 9 5 x1 = Sleep (CSleeplock 9) 0 y).
Proof.
  destruct (reentrant_nesting 0 9 4 2 free_rctx free_rctx_rep) as (x1 & H1 & H2 & _).
  exists x1. split; [exact H1|]. apply (H2 5). lia.
Defined.

End Reentrant.
