(* ===== verification/Numeric.v ===== *)
(** The numeric system calls of [proc.c]: [create_palindrome], the memoised
    [fibonacci_number] under its re-entrant lock, and the loop of
    [calculate_factorial], which several processes run on one shared page. *)

From S2P Require Import Prelude CString Printf Locks.

(** ** create_palindrome *)
Module Palindrome.

(** [while (new_num) { palnum = palnum * 10 + new_num % 10; new_num /= 10; }].  A
    32-bit number has at most ten decimal digits. *)
Fixpoint create_palindrome_loop (fuel : nat) (new_num palnum : Z) : option Z :=
  if new_num =? 0 then Some palnum
  else
    match fuel with
    | O => None
    | S f => create_palindrome_loop f (Z.quot new_num 10)
               (i32 (palnum * 10 + Z.rem new_num 10))
    end.

(** The number computed, and what is printed. *)
Definition create_palindrome (num : Z) : option (Z * list Z) :=
  match create_palindrome_loop 10 num num with
  | Some palnum =>
      match Cprintf.cprintf (bytes_of_string "Palindrome of %d is: %d" ++ [10])
              [AInt num; AInt palnum] with
      | Some out => Some (palnum, out)
      | None => None
      end
  | None => None
  end.

(** The decimal digits, least significant first. *)
Fixpoint digits (fuel : nat) (n : Z) : list Z :=
  match fuel with
  | O => []
  | S f => if n =? 0 then [] else (n mod 10) :: digits f (n / 10)
  end.

Fixpoint value (l : list Z) : Z := match l with [] => 0 | d :: l' => d + 10 * value l' end.

Lemma value_app l1 l2 : value (l1 ++ l2) = value l1 + 10 ^ Z.of_nat (length l1) * value l2.
Proof.
  induction l1 as [|d l1 IH]; cbn [app value length]; [cbn [Z.of_nat]; lia|].
  rewrite IH, Nat2Z.inj_succ, Z.pow_succ_r by lia. lia.
Qed.

Lemma value_digits fuel n : 0 <= n < 10 ^ Z.of_nat fuel -> value (digits fuel n) = n.
Proof.
  revert n; induction fuel as [|f IH]; intros n Hn; cbn [digits]; [cbn in *; lia|].
  destruct (Z.eqb_spec n 0) as [->|Hn0]; [done|].
  cbn [value].
  pose proof (Z.div_mod n 10).
  assert (n < 10 * 10 ^ Z.of_nat f) by (rewrite <- Z.pow_succ_r, <- Nat2Z.inj_succ by lia; lia).
  rewrite IH; [lia|]. split; [apply Z.div_pos; lia|apply Z.div_lt_upper_bound; lia].
Qed.

Lemma digits_range fuel n : Forall (fun d => 0 <= d < 10) (digits fuel n).
Proof.
  revert n; induction fuel as [|f IH]; intros n; cbn [digits]; [constructor|].
  case_match; constructor; [apply Z.mod_pos_bound; lia|apply IH].
Qed.

Lemma value_nonneg l : Forall (fun d => 0 <= d < 10) l -> 0 <= value l < 10 ^ Z.of_nat (length l).
Proof.
  induction 1 as [|d l Hd Hl IH]; [cbn; lia|].
  cbn [value length]. rewrite Nat2Z.inj_succ, Z.pow_succ_r by lia. lia.
Qed.

(** The loop appends the digits of [new_num], lowest first, to [palnum]. *)
Lemma loop_spec fuel n p :
  0 <= n < 10 ^ Z.of_nat fuel -> 0 <= p ->
  value (rev (digits fuel n)) + 10 ^ Z.of_nat (length (digits fuel n)) * p <= INT_MAX ->
  create_palindrome_loop fuel n p =
    Some (value (rev (digits fuel n)) + 10 ^ Z.of_nat (length (digits fuel n)) * p).
Proof.
  revert n p; induction fuel as [|f IH]; intros n p Hn Hp Hfit.
  { assert (n = 0) as -> by (cbn in Hn; lia). cbn [create_palindrome_loop digits Z.eqb rev value length].
    f_equal. cbn. lia. }
  cbn [create_palindrome_loop digits] in *. destruct (Z.eqb_spec n 0) as [->|Hn0].
  { f_equal. cbn. lia. }
  assert (n < 10 * 10 ^ Z.of_nat f) by (rewrite <- Z.pow_succ_r, <- Nat2Z.inj_succ by lia; lia).
  rewrite Z.quot_div_nonneg, Z.rem_mod_nonneg by lia.
  cbn [rev length] in *. rewrite value_app in *. rewrite length_rev in *.
  rewrite Nat2Z.inj_succ, Z.pow_succ_r in * by lia.
  set (D := digits f (n / 10)) in *. set (W := 10 ^ Z.of_nat (length D)) in *.
  pose proof (Z.mod_pos_bound n 10).
  assert (Hv : 0 <= value (rev D)).
  { apply value_nonneg. apply Forall_rev, digits_range. }
  assert (HW : 0 < W) by (apply Z.pow_pos_nonneg; lia).
  assert (value [n mod 10] = n mod 10) as HV by (cbn; lia). rewrite HV in *.
  assert (Hs : i32 (p * 10 + n mod 10) = p * 10 + n mod 10).
  { apply i32_small. unfold_int. nia. }
  rewrite Hs. rewrite IH; fold D; fold W; [f_equal; lia| |lia|lia].
  split; [apply Z.div_pos; lia|apply Z.div_lt_upper_bound; lia].
Qed.

(** for a number whose palindrome fits an [int], [create_palindrome]
    computes and prints the number whose decimal digits are those of [num] and
    then the same digits in reverse, which reads the same both ways. *)
Theorem create_palindrome_is_palindrome num :
  0 <= num <= INT_MAX ->
  let D := rev (digits 10 num) ++ digits 10 num in
  value D <= INT_MAX ->
  rev D = D /\ exists out, create_palindrome num = Some (value D, out).
Proof.
  intros Hn D Hfit. split; [unfold D; by rewrite rev_app_distr, rev_involutive|].
  assert (Hb : 0 <= num < 10 ^ Z.of_nat 10) by (unfold_int; cbn; lia).
  unfold D in *. rewrite value_app, length_rev, value_digits in * by done.
  unfold create_palindrome. rewrite loop_spec by (done || lia).
  by eexists.
Qed.

Lemma create_palindrome_is_palindrome_witness :
  exists out, create_palindrome 120 = Some (120021, out).
Proof.
  apply (create_palindrome_is_palindrome 120); vm_compute; [split|]; discriminate.
Defined.

End Palindrome.

(** ** fibonacci_number *)

(** [fib_nums]: the lock with this CPU's interrupt state, the table, and what has
    been printed. *)
Record fctx := mk_fctx { f_lock : rctx; fibs : list Z; valid : list Z; f_out : list Z }.

Module Fib.

Definition NFIBS : Z := 41.

Definition _fib_init (x : rctx) (out : list Z) : fctx :=
  let fibs := replicate 41 0 in
  let valid := replicate 41 0 in
  mk_fctx (mk_rctx (r_cpu x) Reentrant.initreentrantlock (r_wakeups x))
    (<[1%nat := 1]> (<[0%nat := 1]> fibs)) (<[1%nat := 1]> (<[0%nat := 1]> valid)) out.

Definition on_lock (f : M rctx unit) : M fctx unit :=
  zoom f_lock (fun y x => mk_fctx y (fibs x) (valid x) (f_out x)) f.

Definition idx (n : Z) : nat := Z.to_nat n.

Definition print (fmt : string) (args : list varg) : M fctx unit :=
  out ← of_option OutOfBounds (Cprintf.cprintf (bytes_of_string fmt ++ [10]) args);
  modify (fun x => mk_fctx (f_lock x) (fibs x) (valid x) (f_out x ++ out)).

Definition rd_fib (n : Z) : M fctx Z := x ← get; of_option OutOfBounds (fibs x !! idx n).
Definition wr_fib (n v : Z) : M fctx unit :=
  modify (fun x => mk_fctx (f_lock x) (<[idx n := v]> (fibs x)) (valid x) (f_out x)).
Definition rd_valid (n : Z) : M fctx Z := x ← get; of_option OutOfBounds (valid x !! idx n).
Definition wr_valid (n v : Z) : M fctx unit :=
  modify (fun x => mk_fctx (f_lock x) (fibs x) (<[idx n := v]> (valid x)) (f_out x)).

(** The recursion's depth is the index. *)
Fixpoint fibonacci_number (fuel : nat) (me i : nat) (mypid n : Z) : M fctx Z :=
  match fuel with
  | O => faults OutOfFuel
  | S f =>
      if (n <? 0) || (n >=? NFIBS)
      then print "Invalid Fibonacci index: %d" [AInt n] ;; mret (-1)
      else
        on_lock (Reentrant.acquirereentrant me i mypid) ;;
        v ← rd_valid n;
        if ctrue v then
          on_lock (Reentrant.releasereentrant me i mypid) ;;
          rd_fib n
        else
          r1 ← fibonacci_number f me i mypid (n - 1);
          f1 ← rd_fib n;
          wr_fib n (i32 (f1 + r1)) ;;
          r2 ← fibonacci_number f me i mypid (n - 2);
          f2 ← rd_fib n;
          wr_fib n (i32 (f2 + r2)) ;;
          wr_valid n 1 ;;
          on_lock (Reentrant.releasereentrant me i mypid) ;;
          rd_fib n
  end.

(** The sequence the table holds: 1, 1, 2, 3, 5, ... *)
Fixpoint fib (n : nat) : Z :=
  match n with
  | O => 1
  | S k => match k with O => 1 | S j => fib k + fib j end
  end.

Arguments fib : simpl never.

(** The entries up to [n] are computed and right, or not yet computed. *)
Definition table_upto (n : nat) (x : fctx) : Prop :=
  length (fibs x) = 41%nat /\ length (valid x) = 41%nat /\
  forall k, (k <= n)%nat -> (k < 41)%nat ->
    (valid x !! k = Some 1 /\ fibs x !! k = Some (fib k)) \/
    ((2 <= k)%nat /\ valid x !! k = Some 0 /\ fibs x !! k = Some 0).

Definition table_ok (x : fctx) : Prop := table_upto 40 x.

(** *** Bounds on the sequence *)

Fixpoint fib_pair (n : nat) : Z * Z :=
  match n with O => (1, 1) | S k => let '(a, b) := fib_pair k in (b, a + b) end.

Lemma fib_pair_spec n : fib_pair n = (fib n, fib (S n)).
Proof.
  induction n as [|n IH]; [done|]. cbn [fib_pair]. rewrite IH.
  change (fib (S (S n))) with (fib (S n) + fib n). f_equal; lia.
Qed.

Lemma fib_pair_fst n : fst (fib_pair n) = fib n.
Proof. by rewrite fib_pair_spec. Qed.

Lemma fib_pos n : 1 <= fib n /\ 1 <= fib (S n).
Proof.
  induction n as [|n [H1 H2]]; [done|]. split; [done|].
  change (fib (S (S n))) with (fib (S n) + fib n). lia.
Qed.

Lemma fib_mono n m : (n <= m)%nat -> fib n <= fib m.
Proof.
  induction 1 as [|m Hm IH]; [lia|]. destruct m as [|m].
  - assert (n = 0)%nat as -> by lia. done.
  - change (fib (S (S m))) with (fib (S m) + fib m). pose proof (fib_pos m). lia.
Qed.

Lemma fib_int n : (n <= 40)%nat -> in_i32 (fib n).
Proof.
  intros Hn. apply fib_mono in Hn. pose proof (fib_pos n).
  assert (H40 : fst (fib_pair 40) = 165580141) by reflexivity.
  rewrite fib_pair_fst in H40. unfold_int. lia.
Qed.

Lemma fib_step n : (2 <= n)%nat -> fib n = fib (n - 1) + fib (n - 2).
Proof.
  intros Hn. destruct n as [|[|n]]; [lia|lia|].
  replace (S (S n) - 1)%nat with (S n) by lia. by replace (S (S n) - 2)%nat with n by lia.
Qed.

(** *** The recursion *)

Definition frame (n : nat) (x x' : fctx) : Prop :=
  f_out x' = f_out x /\
  forall k, (n < k)%nat -> fibs x' !! k = fibs x !! k /\ valid x' !! k = valid x !! k.

(** The lock is free, or this process holds it to depth [d]. *)
Definition mine (p : Z) (d : nat) : option (Z * nat) :=
  match d with O => None | _ => Some (p, d) end.

Lemma lock_step me i p d x :
  Reentrant.rep (mine p d) (f_lock x) ->
  exists y, on_lock (Reentrant.acquirereentrant me i p) x =
      Ret tt (mk_fctx y (fibs x) (valid x) (f_out x)) /\
    Reentrant.rep (mine p (S d)) y.
Proof.
  intros H. unfold on_lock, zoom.
  pose proof (Reentrant.acquire_rep me i p _ _ H) as Ha. destruct d as [|d]; cbn in Ha.
  - destruct Ha as (y & -> & Hy & _). by exists y.
  - rewrite decide_True in Ha by done. destruct Ha as (y & -> & Hy & _). by exists y.
Qed.

Lemma unlock_step me i p d x :
  Reentrant.rep (mine p (S d)) (f_lock x) ->
  exists y, on_lock (Reentrant.releasereentrant me i p) x =
      Ret tt (mk_fctx y (fibs x) (valid x) (f_out x)) /\
    Reentrant.rep (mine p d) y.
Proof.
  intros H. unfold on_lock, zoom.
  pose proof (Reentrant.release_rep me i p _ p (S d) H) as Ha.
  rewrite decide_True in Ha by done. destruct Ha as (y & -> & Hy). exists y. split; [done|].
  by destruct d.
Qed.

Lemma fibonacci_number_run fuel me i p n d x :
  (n < fuel)%nat -> (n <= 40)%nat ->
  Reentrant.rep (mine p d) (f_lock x) -> table_upto n x ->
  exists x', fibonacci_number fuel me i p (Z.of_nat n) x = Ret (fib n) x' /\
    Reentrant.rep (mine p d) (f_lock x') /\ table_upto n x' /\ frame n x x' /\
    valid x' !! n = Some 1.
Proof.
  revert n d x; induction fuel as [|f IH]; intros n d x Hf Hn Hl Ht; [lia|].
  cbn [fibonacci_number]. unfold NFIBS.
  replace ((Z.of_nat n <? 0) || (Z.of_nat n >=? 41)) with false by lia.
  destruct (lock_step me i p d x Hl) as (y & E & Hy). rewrite (bind_eq _ _ _ _ _ E). clear E.
  destruct Ht as (Hlf & Hlv & Ht).
  assert (Hrv : forall z, rd_valid (Z.of_nat n) z = of_option OutOfBounds (valid z !! n) z).
  { intros z. unfold rd_valid, idx. munfold. by rewrite Nat2Z.id. }
  assert (Hrf : forall z, rd_fib (Z.of_nat n) z = of_option OutOfBounds (fibs z !! n) z).
  { intros z. unfold rd_fib, idx. munfold. by rewrite Nat2Z.id. }
  destruct (Ht n ltac:(lia) ltac:(lia)) as [[Hv Hfn]|(Hn2 & Hv & Hfn)].
  - assert (E : rd_valid (Z.of_nat n) (mk_fctx y (fibs x) (valid x) (f_out x)) =
                Ret 1 (mk_fctx y (fibs x) (valid x) (f_out x))) by (rewrite Hrv; cbn; by rewrite Hv).
    rewrite (bind_eq _ _ _ _ _ E). cbn [ctrue Z.eqb negb]. clear E.
    destruct (unlock_step me i p d (mk_fctx y (fibs x) (valid x) (f_out x)) Hy) as (y2 & E & Hy2).
    rewrite (bind_eq _ _ _ _ _ E). rewrite Hrf. cbn. rewrite Hfn. cbn.
    eexists; split; [done|]. split_and!; cbn; try done.
  - assert (E : rd_valid (Z.of_nat n) (mk_fctx y (fibs x) (valid x) (f_out x)) =
                Ret 0 (mk_fctx y (fibs x) (valid x) (f_out x))) by (rewrite Hrv; cbn; by rewrite Hv).
    rewrite (bind_eq _ _ _ _ _ E). cbn [ctrue Z.eqb negb]. clear E.
    (* the two recursive calls *)
    replace (Z.of_nat n - 1) with (Z.of_nat (n - 1)) by lia.
    destruct (IH (n - 1)%nat (S d) (mk_fctx y (fibs x) (valid x) (f_out x)))
      as (x1 & E1 & Hl1 & (Hlf1 & Hlv1 & Ht1) & (Ho1 & Hk1) & Hv1); [lia|lia|done| |].
    { split_and!; cbn; try done. intros k Hk Hk'. apply Ht; lia. }
    rewrite (bind_eq _ _ _ _ _ E1). cbn in Hk1.
    assert (E2 : rd_fib (Z.of_nat n) x1 = Ret 0 x1).
    { rewrite Hrf. rewrite (proj1 (Hk1 n ltac:(lia))). by rewrite Hfn. }
    rewrite (bind_eq _ _ _ _ _ E2). clear E1 E2.
    rewrite (bind_eq _ _ _ _ _ (eq_refl : wr_fib _ _ _ = Ret _ _)).
    replace (Z.of_nat n - 2) with (Z.of_nat (n - 2)) by lia. unfold idx. rewrite Nat2Z.id.
    set (x2 := mk_fctx (f_lock x1) (<[n := i32 (0 + fib (n - 1))]> (fibs x1)) (valid x1) (f_out x1)).
    destruct (IH (n - 2)%nat (S d) x2)
      as (x3 & E3 & Hl3 & (Hlf3 & Hlv3 & Ht3) & (Ho3 & Hk3) & Hv3); [lia|lia|done| |].
    { unfold x2. split_and!; cbn; [by rewrite length_insert|done|].
      intros k Hk Hk'. rewrite list_lookup_insert_ne by lia. apply Ht1; lia. }
    rewrite (bind_eq _ _ _ _ _ E3).
    assert (E4 : rd_fib (Z.of_nat n) x3 = Ret (fib (n - 1)) x3).
    { rewrite Hrf. rewrite (proj1 (Hk3 n ltac:(lia))). cbn.
      rewrite list_lookup_insert_eq by lia. munfold.
      by rewrite i32_small by (apply fib_int; lia). }
    rewrite (bind_eq _ _ _ _ _ E4).
    rewrite (bind_eq _ _ _ _ _ (eq_refl : wr_fib _ _ _ = Ret _ _)).
    rewrite (bind_eq _ _ _ _ _ (eq_refl : wr_valid _ _ _ = Ret _ _)). cbn.
    unfold idx. rewrite Nat2Z.id. rewrite <- fib_step, i32_small by (done || by apply fib_int).
    set (x4 := mk_fctx (f_lock x3) (<[n := fib n]> (fibs x3)) (<[n := 1]> (valid x3)) (f_out x3)).
    destruct (unlock_step me i p d x4 Hl3) as (y5 & E5 & Hy5).
    rewrite (bind_eq _ _ _ _ _ E5). rewrite Hrf. cbn.
    rewrite list_lookup_insert_eq by lia. munfold.
    eexists; split; [done|]. split_and!; cbn; try done.
    + split_and!; cbn; [by rewrite length_insert|by rewrite length_insert|].
      intros k Hk Hk'. destruct (decide (n = k)) as [<-|Hne].
      { left. rewrite !list_lookup_insert_eq by lia. done. }
      rewrite !list_lookup_insert_ne by lia.
      destruct (decide (k = n - 1)%nat) as [->|].
      { left. destruct (Hk3 (n - 1)%nat ltac:(lia)) as [-> ->]. cbn.
        rewrite list_lookup_insert_ne by lia.
        destruct (Ht1 (n - 1)%nat ltac:(lia) ltac:(lia)) as [?|(_ & Hbad & _)]; [done|congruence]. }
      apply Ht3; lia.
    + unfold frame; cbn. split; [etransitivity; [exact Ho3|exact Ho1]|]. intros k Hk.
      rewrite !list_lookup_insert_ne by lia.
      destruct (Hk3 k ltac:(lia)) as [-> ->]. cbn. rewrite list_lookup_insert_ne by lia.
      apply Hk1; lia.
    + rewrite list_lookup_insert_eq by lia. done.
Qed.

(** called by a process on a consistent table while no other process holds
    the lock, [fibonacci_number] returns the [n]-th Fibonacci number for every
    index up to 40, prints nothing, and leaves the table consistent and the lock
    as it found it: the memo table and the re-entrant locking of the recursion
    do not change the answer. *)
Theorem fibonacci_number_correct fuel me i p n d x :
  0 <= n <= 40 -> (41 <= fuel)%nat ->
  Reentrant.rep (mine p d) (f_lock x) -> table_ok x ->
  exists x', fibonacci_number fuel me i p n x = Ret (fib (Z.to_nat n)) x' /\
    Reentrant.rep (mine p d) (f_lock x') /\ table_ok x' /\ f_out x' = f_out x.
Proof.
  intros Hn Hf Hl (Hlf & Hlv & Ht).
  destruct (fibonacci_number_run fuel me i p (Z.to_nat n) d x)
    as (x' & E & Hl' & (Hlf' & Hlv' & Ht') & (Ho & Hk) & Hv); [lia|lia|done| |].
  { split_and!; try done. intros k Hk Hk'. apply Ht; lia. }
  rewrite Z2Nat.id in E by lia. exists x'.
  split; [done|]. split; [done|]. split; [|done]. split; [done|]. split; [done|].
  intros k Hk1 Hk2. destruct (decide (k <= Z.to_nat n)%nat) as [|Hgt]; [by apply Ht'|].
  destruct (Hk k ltac:(lia)) as [-> ->]. by apply Ht.
Qed.

Lemma fib_init_ok x out :
  Reentrant.rep None (f_lock (_fib_init x out)) ->
  table_ok (_fib_init x out).
Proof.
  intros _. split_and!; [done|done|].
  intros k _ Hk.
  do 41 (destruct k as [|k]; [first [right; split; [lia|split; reflexivity] | left; split; reflexivity]|]). lia.
Qed.

Definition boot_fib : fctx := _fib_init Reentrant.free_rctx [].

Lemma fibonacci_number_correct_witness :
  exists x', fibonacci_number 41 0 0 3 10 boot_fib = Ret 89 x'.
Proof.
  destruct (fibonacci_number_correct 41 0 0 3 10 0 boot_fib) as (x' & H & _).
  - lia.
  - lia.
  - exact Reentrant.free_rctx_rep.
  - apply fib_init_ok. exact Reentrant.free_rctx_rep.
  - exists x'. exact H.
Defined.

(** An index outside the table is reported and answered with -1; the lock is not
    touched. *)
Lemma fibonacci_number_invalid fuel me i p n x :
  n < 0 \/ 40 < n ->
  exists out, fibonacci_number (S fuel) me i p n x =
    Ret (-1) (mk_fctx (f_lock x) (fibs x) (valid x) (f_out x ++ out)).
Proof.
  intros Hn. cbn [fibonacci_number]. unfold NFIBS.
  replace ((n <? 0) || (n >=? 41)) with true by lia.
  eexists. reflexivity.
Qed.

End Fib.

(** ** calculate_factorial

    The loop between [open_sharedmem] and [close_sharedmem].  The two [int]s at
    the start of the shared page are a counter and the product so far; every
    process that runs the loop keeps its own [last].  One pass of the loop body
    runs under [factorial_lock], so it is one step; a schedule is the list of the
    processes that take the next step. *)
Module Factorial.

Record shm := mk_shm { mem0 : Z; mem1 : Z }.

(** The body of [while (last < n)]: the page and [last] afterwards. *)
Definition body (n : Z) (s : shm) : shm * Z :=
  let last := mem0 s in
  if last <? n
  then
    let last := i32 (last + 1) in
    (mk_shm last (i32 (mem1 s * last)), last)
  else (s, last).

Record world := mk_world { page : shm; lasts : list Z }.

(** Process [j] runs one pass of its loop, if it is still in it. *)
Definition pass (n : Z) (w : world) (j : nat) : world :=
  match lasts w !! j with
  | Some last =>
      if last <? n
      then let '(s, last') := body n (page w) in mk_world s (<[j := last']> (lasts w))
      else w
  | None => w
  end.

Definition run (n : Z) (sched : list nat) (w : world) : world := fold_left (pass n) sched w.

(** Page initialised to 0 and 1, [nproc] processes at the start of the loop. *)
Definition start (nproc : nat) : world := mk_world (mk_shm 0 1) (replicate nproc 0).

Fixpoint fact (n : nat) : Z := match n with O => 1 | S k => Z.of_nat (S k) * fact k end.

Definition inv (n : Z) (w : world) : Prop :=
  0 <= mem0 (page w) <= n /\ mem1 (page w) = i32 (fact (Z.to_nat (mem0 (page w)))) /\
  forall j l, lasts w !! j = Some l -> 0 <= l <= mem0 (page w).

Lemma i32_mul_l a b : i32 (i32 a * b) = i32 (a * b).
Proof.
  unfold i32. f_equal.
  replace (((a + 2 ^ 31) mod 2 ^ 32 - 2 ^ 31) * b + 2 ^ 31)
    with ((a + 2 ^ 31) mod 2 ^ 32 * b + (2 ^ 31 - 2 ^ 31 * b)) by lia.
  rewrite <- Zplus_mod_idemp_l, Zmult_mod_idemp_l, Zplus_mod_idemp_l. f_equal; lia.
Qed.

Lemma fact_body_inv n s :
  0 <= mem0 s <= n -> n <= INT_MAX -> mem1 s = i32 (fact (Z.to_nat (mem0 s))) ->
  let '(s', last) := body n s in
  0 <= mem0 s' <= n /\ mem1 s' = i32 (fact (Z.to_nat (mem0 s'))) /\
  last = mem0 s' /\ mem0 s' = Z.min n (mem0 s + 1).
Proof.
  intros Hc Hn Hp. unfold body. destruct (Z.ltb_spec (mem0 s) n); [|split_and!; try done; lia].
  rewrite (i32_small (mem0 s + 1)) by (unfold_int; lia). cbn. split_and!; try lia.
  rewrite Hp, i32_mul_l. f_equal.
  replace (Z.to_nat (mem0 s + 1)) with (S (Z.to_nat (mem0 s))) by lia. cbn [fact].
  replace (Z.of_nat (S (Z.to_nat (mem0 s)))) with (mem0 s + 1) by lia. apply Z.mul_comm.
Qed.

Lemma fact_pass_inv n w j : n <= INT_MAX -> inv n w -> inv n (pass n w j).
Proof.
  intros Hn (Hc & Hp & Hl). unfold pass. destruct (lasts w !! j) as [l|] eqn:E; [|done].
  destruct (l <? n); [|done].
  pose proof (fact_body_inv n (page w) Hc Hn Hp) as Hb. destruct (body n (page w)) as [s last].
  destruct Hb as (H1 & H2 & -> & H3). split_and!; cbn; [lia|lia|done|].
  intros k l' Hk. destruct (decide (j = k)) as [->|Hne].
  - rewrite list_lookup_insert_eq in Hk by (by eapply lookup_lt_Some). injection Hk as <-. lia.
  - rewrite list_lookup_insert_ne in Hk by done. specialize (Hl _ _ Hk). lia.
Qed.

Lemma fact_run_inv n sched w : n <= INT_MAX -> inv n w -> inv n (run n sched w).
Proof.
  intros Hn. revert w; induction sched as [|j sched IH]; intros w Hw; cbn; [done|].
  apply IH. by apply fact_pass_inv.
Qed.

Lemma fact_start_inv n nproc : 0 <= n -> inv n (start nproc).
Proof.
  intros Hn. split_and!; cbn; [lia|lia|done|].
  intros j l H. apply lookup_replicate in H as [-> _]. lia.
Qed.

(** How far process [j] is from leaving its loop: each of its own passes brings
    it nearer, nobody else's passes take it back. *)
Definition left_to_do (n : Z) (j : nat) (w : world) : Z :=
  match lasts w !! j with
  | Some l => if l <? n then 1 + (n - mem0 (page w)) else 0
  | None => 0
  end.

Lemma pass_progress n w j k :
  n <= INT_MAX -> inv n w ->
  left_to_do n j (pass n w k) <= Z.max 0 (left_to_do n j w - (if decide (j = k) then 1 else 0)).
Proof.
  intros Hn (Hc & Hp & Hl). unfold pass.
  destruct (lasts w !! k) as [l|] eqn:E; [destruct (Z.ltb_spec l n) as [Hlt|Hge]|].
  - pose proof (fact_body_inv n (page w) Hc Hn Hp) as Hb. destruct (body n (page w)) as [s last].
    destruct Hb as (H1 & H2 & -> & H3). unfold left_to_do; cbn.
    destruct (decide (j = k)) as [->|Hne].
    + rewrite list_lookup_insert_eq by (by eapply lookup_lt_Some). rewrite E.
      repeat case_match; lia.
    + rewrite list_lookup_insert_ne by done. repeat case_match; lia.
  - case_decide as Ej; [subst|lia]. unfold left_to_do. rewrite E. case_match; lia.
  - case_decide as Ej; [subst|lia]. unfold left_to_do. rewrite E. lia.
Qed.

Lemma run_progress n sched w j :
  n <= INT_MAX -> inv n w ->
  left_to_do n j (run n sched w) <=
    Z.max 0 (left_to_do n j w - Z.of_nat (length (filter (eq j) sched))).
Proof.
  intros Hn. revert w; induction sched as [|k sched IH]; intros w Hw; [cbn; lia|].
  cbn [run fold_left]. rewrite filter_cons.
  etransitivity; [apply IH; by apply fact_pass_inv|].
  pose proof (pass_progress n w j k Hn Hw). case_decide; cbn [length]; lia.
Qed.

(** however the processes that share the page interleave, the product is
    always the factorial of the counter (as an [int]); a process that has left
    its loop has seen the counter reach [n], so the page then holds n and n!; and
    every process leaves its loop after at most n+1 passes of its own. *)
Theorem calculate_factorial_shared n nproc sched :
  0 <= n <= INT_MAX ->
  let w := run n sched (start nproc) in
  mem1 (page w) = i32 (fact (Z.to_nat (mem0 (page w)))) /\
  (forall j l, lasts w !! j = Some l -> n <= l -> page w = mk_shm n (i32 (fact (Z.to_nat n)))) /\
  (forall j, (j < nproc)%nat -> n + 1 <= Z.of_nat (length (filter (eq j) sched)) ->
     exists l, lasts w !! j = Some l /\ n <= l).
Proof.
  intros Hn w.
  assert (Hw : inv n w) by (apply fact_run_inv; [lia|]; apply fact_start_inv; lia).
  destruct Hw as (Hc & Hp & Hl). split_and!; [done| |].
  - intros j l Hj Hnl. specialize (Hl _ _ Hj). destruct (page w) as [c p] eqn:E; cbn in *.
    assert (c = n) as -> by lia. by rewrite Hp.
  - intros j Hj Hlen.
    assert (Hpr := run_progress n sched (start nproc) j ltac:(lia) ltac:(apply fact_start_inv; lia)).
    fold w in Hpr. unfold left_to_do in Hpr. unfold start in Hpr at 1. cbn [lasts] in Hpr.
    rewrite lookup_replicate_2 in Hpr by done. cbn [page mem0] in Hpr.
    assert (is_Some (lasts w !! j)) as [l E].
    { apply lookup_lt_is_Some. unfold w, run.
      assert (Hlen' : forall sched w, length (lasts (fold_left (pass n) sched w)) = length (lasts w)).
      { clear. induction sched as [|k sched IH]; intros w; cbn; [done|]. rewrite IH.
        unfold pass. case_match; [|done]. case_match; [|done].
        destruct (body n (page w)). cbn. by rewrite length_insert. }
      rewrite Hlen'. cbn. by rewrite length_replicate. }
    exists l. split; [done|]. rewrite E in Hpr.
    destruct (Z.ltb_spec l n) as [Hlt|]; [|done].
    specialize (Hl _ _ E). cbn [start page mem0] in Hpr. repeat case_match; lia.
Qed.

Lemma calculate_factorial_shared_witness :
  page (run 3 [0; 1; 0; 1; 0; 1; 0; 1]%nat (start 2)) = mk_shm 3 6.
Proof.
  destruct (calculate_factorial_shared 3 2 [0; 1; 0; 1; 0; 1; 0; 1]%nat) as (_ & H & H2).
  - vm_compute. split; discriminate.
  - destruct (H2 0%nat) as (l & Hl & Hn); [lia|vm_compute; discriminate|].
    exact (H 0%nat l Hl Hn).
Defined.

End Factorial.
