(* ===== verification/ProcDefs.v ===== *)
(** The process table ([struct proc] of [proc.h], [ptable] of [proc.c]), the CPU
    records, and the locking and printing the routines of [proc.c] share. *)

From S2P Require Import Prelude CString Printf Locks.

Definition NPROC : nat := 64.
Definition NOFILE : nat := 16.
Definition _NQUEUE : Z := 3.
Definition MAX_WAIT_TIME : Z := 800.
Definition time_slice : Z := 10.
Definition rr_timeq : Z := 5.
Definition queue_weights : list Z := [3; 2; 1].
Definition NSYSCALLS : nat := 34.

Inductive procstate := UNUSED | EMBRYO | SLEEPING | RUNNABLE | RUNNING | ZOMBIE.

#[global] Instance procstate_eq_dec : EqDecision procstate.
Proof. solve_decision. Defined.

(** Where a kernel thread resumes when it is switched to: a new process starts in
    [forkret], any other inside its own call of [sched]. *)
Inductive code := InForkret | InSched.

(** [struct trapframe] of x86.h, without the padding. *)
Record trapframe := mk_trapframe {
  tf_edi : Z; tf_esi : Z; tf_ebp : Z; tf_oesp : Z; tf_ebx : Z; tf_edx : Z; tf_ecx : Z; tf_eax : Z;
  tf_gs : Z; tf_fs : Z; tf_es : Z; tf_ds : Z; tf_trapno : Z; tf_err : Z; tf_eip : Z; tf_cs : Z;
  tf_eflags : Z; tf_esp : Z; tf_ss : Z }.

Definition tf_zero : trapframe := mk_trapframe 0 0 0 0 0 0 0 0 0 0 0 0 0 0 0 0 0 0 0.

Definition set_eax (v : Z) (t : trapframe) : trapframe :=
  mk_trapframe (tf_edi t) (tf_esi t) (tf_ebp t) (tf_oesp t) (tf_ebx t) (tf_edx t) (tf_ecx t) v
    (tf_gs t) (tf_fs t) (tf_es t) (tf_ds t) (tf_trapno t) (tf_err t) (tf_eip t) (tf_cs t)
    (tf_eflags t) (tf_esp t) (tf_ss t).

(** [struct proc].  A [struct proc *] is an index into the table and [None] is the
    null pointer; [p_ofile] and [p_cwd] are indices into the file table and the
    inode cache.  The trap frame is held by value, and of the saved context only
    the address it resumes at. *)
Record proc := mk_proc {
  p_sz : Z;
  p_pgdir : Z;
  p_kstack : Z;
  p_state : procstate;
  p_pid : Z;
  p_parent : option nat;
  p_tf : trapframe;
  p_context_eip : code;
  p_chan : chan;
  p_killed : Z;
  p_ofile : list (option nat);
  p_cwd : option nat;
  p_name : list Z;
  p_sc : list Z;
  p_queue : Z;
  p_wait_time : Z;
  p_confidence : Z;
  p_burst_time : Z;
  p_consecutive_runs : Z;
  p_arrival : Z }.

Definition set_sz (v : Z) (p : proc) : proc :=
  mk_proc v (p_pgdir p) (p_kstack p) (p_state p) (p_pid p) (p_parent p) (p_tf p)
    (p_context_eip p) (p_chan p) (p_killed p) (p_ofile p) (p_cwd p) (p_name p) (p_sc p)
    (p_queue p) (p_wait_time p) (p_confidence p) (p_burst_time p) (p_consecutive_runs p)
    (p_arrival p).
Definition set_pgdir (v : Z) (p : proc) : proc :=
  mk_proc (p_sz p) v (p_kstack p) (p_state p) (p_pid p) (p_parent p) (p_tf p) (p_context_eip
    p) (p_chan p) (p_killed p) (p_ofile p) (p_cwd p) (p_name p) (p_sc p) (p_queue p)
    (p_wait_time p) (p_confidence p) (p_burst_time p) (p_consecutive_runs p) (p_arrival p).
Definition set_kstack (v : Z) (p : proc) : proc :=
  mk_proc (p_sz p) (p_pgdir p) v (p_state p) (p_pid p) (p_parent p) (p_tf p) (p_context_eip
    p) (p_chan p) (p_killed p) (p_ofile p) (p_cwd p) (p_name p) (p_sc p) (p_queue p)
    (p_wait_time p) (p_confidence p) (p_burst_time p) (p_consecutive_runs p) (p_arrival p).
Definition set_state (v : procstate) (p : proc) : proc :=
  mk_proc (p_sz p) (p_pgdir p) (p_kstack p) v (p_pid p) (p_parent p) (p_tf p) (p_context_eip
    p) (p_chan p) (p_killed p) (p_ofile p) (p_cwd p) (p_name p) (p_sc p) (p_queue p)
    (p_wait_time p) (p_confidence p) (p_burst_time p) (p_consecutive_runs p) (p_arrival p).
Definition set_pid (v : Z) (p : proc) : proc :=
  mk_proc (p_sz p) (p_pgdir p) (p_kstack p) (p_state p) v (p_parent p) (p_tf p)
    (p_context_eip p) (p_chan p) (p_killed p) (p_ofile p) (p_cwd p) (p_name p) (p_sc p)
    (p_queue p) (p_wait_time p) (p_confidence p) (p_burst_time p) (p_consecutive_runs p)
    (p_arrival p).
Definition set_parent (v : option nat) (p : proc) : proc :=
  mk_proc (p_sz p) (p_pgdir p) (p_kstack p) (p_state p) (p_pid p) v (p_tf p) (p_context_eip
    p) (p_chan p) (p_killed p) (p_ofile p) (p_cwd p) (p_name p) (p_sc p) (p_queue p)
    (p_wait_time p) (p_confidence p) (p_burst_time p) (p_consecutive_runs p) (p_arrival p).
Definition set_tf (v : trapframe) (p : proc) : proc :=
  mk_proc (p_sz p) (p_pgdir p) (p_kstack p) (p_state p) (p_pid p) (p_parent p) v
    (p_context_eip p) (p_chan p) (p_killed p) (p_ofile p) (p_cwd p) (p_name p) (p_sc p)
    (p_queue p) (p_wait_time p) (p_confidence p) (p_burst_time p) (p_consecutive_runs p)
    (p_arrival p).
Definition set_context_eip (v : code) (p : proc) : proc :=
  mk_proc (p_sz p) (p_pgdir p) (p_kstack p) (p_state p) (p_pid p) (p_parent p) (p_tf p) v
    (p_chan p) (p_killed p) (p_ofile p) (p_cwd p) (p_name p) (p_sc p) (p_queue p)
    (p_wait_time p) (p_confidence p) (p_burst_time p) (p_consecutive_runs p) (p_arrival p).
Definition set_chan (v : chan) (p : proc) : proc :=
  mk_proc (p_sz p) (p_pgdir p) (p_kstack p) (p_state p) (p_pid p) (p_parent p) (p_tf p)
    (p_context_eip p) v (p_killed p) (p_ofile p) (p_cwd p) (p_name p) (p_sc p) (p_queue p)
    (p_wait_time p) (p_confidence p) (p_burst_time p) (p_consecutive_runs p) (p_arrival p).
Definition set_killed (v : Z) (p : proc) : proc :=
  mk_proc (p_sz p) (p_pgdir p) (p_kstack p) (p_state p) (p_pid p) (p_parent p) (p_tf p)
    (p_context_eip p) (p_chan p) v (p_ofile p) (p_cwd p) (p_name p) (p_sc p) (p_queue p)
    (p_wait_time p) (p_confidence p) (p_burst_time p) (p_consecutive_runs p) (p_arrival p).
Definition set_ofile (v : list (option nat)) (p : proc) : proc :=
  mk_proc (p_sz p) (p_pgdir p) (p_kstack p) (p_state p) (p_pid p) (p_parent p) (p_tf p)
    (p_context_eip p) (p_chan p) (p_killed p) v (p_cwd p) (p_name p) (p_sc p) (p_queue p)
    (p_wait_time p) (p_confidence p) (p_burst_time p) (p_consecutive_runs p) (p_arrival p).
Definition set_cwd (v : option nat) (p : proc) : proc :=
  mk_proc (p_sz p) (p_pgdir p) (p_kstack p) (p_state p) (p_pid p) (p_parent p) (p_tf p)
    (p_context_eip p) (p_chan p) (p_killed p) (p_ofile p) v (p_name p) (p_sc p) (p_queue p)
    (p_wait_time p) (p_confidence p) (p_burst_time p) (p_consecutive_runs p) (p_arrival p).
Definition set_name (v : list Z) (p : proc) : proc :=
  mk_proc (p_sz p) (p_pgdir p) (p_kstack p) (p_state p) (p_pid p) (p_parent p) (p_tf p)
    (p_context_eip p) (p_chan p) (p_killed p) (p_ofile p) (p_cwd p) v (p_sc p) (p_queue p)
    (p_wait_time p) (p_confidence p) (p_burst_time p) (p_consecutive_runs p) (p_arrival p).
Definition set_sc (v : list Z) (p : proc) : proc :=
  mk_proc (p_sz p) (p_pgdir p) (p_kstack p) (p_state p) (p_pid p) (p_parent p) (p_tf p)
    (p_context_eip p) (p_chan p) (p_killed p) (p_ofile p) (p_cwd p) (p_name p) v (p_queue p)
    (p_wait_time p) (p_confidence p) (p_burst_time p) (p_consecutive_runs p) (p_arrival p).
Definition set_queue (v : Z) (p : proc) : proc :=
  mk_proc (p_sz p) (p_pgdir p) (p_kstack p) (p_state p) (p_pid p) (p_parent p) (p_tf p)
    (p_context_eip p) (p_chan p) (p_killed p) (p_ofile p) (p_cwd p) (p_name p) (p_sc p) v
    (p_wait_time p) (p_confidence p) (p_burst_time p) (p_consecutive_runs p) (p_arrival p).
Definition set_wait_time (v : Z) (p : proc) : proc :=
  mk_proc (p_sz p) (p_pgdir p) (p_kstack p) (p_state p) (p_pid p) (p_parent p) (p_tf p)
    (p_context_eip p) (p_chan p) (p_killed p) (p_ofile p) (p_cwd p) (p_name p) (p_sc p)
    (p_queue p) v (p_confidence p) (p_burst_time p) (p_consecutive_runs p) (p_arrival p).
Definition set_confidence (v : Z) (p : proc) : proc :=
  mk_proc (p_sz p) (p_pgdir p) (p_kstack p) (p_state p) (p_pid p) (p_parent p) (p_tf p)
    (p_context_eip p) (p_chan p) (p_killed p) (p_ofile p) (p_cwd p) (p_name p) (p_sc p)
    (p_queue p) (p_wait_time p) v (p_burst_time p) (p_consecutive_runs p) (p_arrival p).
Definition set_burst_time (v : Z) (p : proc) : proc :=
  mk_proc (p_sz p) (p_pgdir p) (p_kstack p) (p_state p) (p_pid p) (p_parent p) (p_tf p)
    (p_context_eip p) (p_chan p) (p_killed p) (p_ofile p) (p_cwd p) (p_name p) (p_sc p)
    (p_queue p) (p_wait_time p) (p_confidence p) v (p_consecutive_runs p) (p_arrival p).
Definition set_consecutive_runs (v : Z) (p : proc) : proc :=
  mk_proc (p_sz p) (p_pgdir p) (p_kstack p) (p_state p) (p_pid p) (p_parent p) (p_tf p)
    (p_context_eip p) (p_chan p) (p_killed p) (p_ofile p) (p_cwd p) (p_name p) (p_sc p)
    (p_queue p) (p_wait_time p) (p_confidence p) (p_burst_time p) v (p_arrival p).
Definition set_arrival (v : Z) (p : proc) : proc :=
  mk_proc (p_sz p) (p_pgdir p) (p_kstack p) (p_state p) (p_pid p) (p_parent p) (p_tf p)
    (p_context_eip p) (p_chan p) (p_killed p) (p_ofile p) (p_cwd p) (p_name p) (p_sc p)
    (p_queue p) (p_wait_time p) (p_confidence p) (p_burst_time p) (p_consecutive_runs p) v.

(** A slot of the zero-initialised table. *)
Definition proc_zero : proc :=
  mk_proc 0 0 0 UNUSED 0 None tf_zero InSched CNull 0 (replicate NOFILE None) None [] 
    (replicate NSYSCALLS 0) 0 0 0 0 0 0.

(** [struct cpu] of proc.h, with the interrupt state of the locking code. *)
Record kcpu := mk_kcpu {
  c_apicid : Z;
  c_intr : cpu;
  c_proc : option nat;
  c_runs : Z;        (* _consecutive_runs_queue *)
  c_queue : Z;       (* _current_queue *)
  c_syscalls : Z }.  (* _syscall_counter *)

(** The globals of proc.c: the CPUs, the process table and its lock, [nextpid],
    [initproc], [ticks], the two static variables of the schedulers, the
    system-call counter with its lock, and everything printed so far. *)
Record pstate := mk_pstate {
  cpus : list kcpu;
  pt_lock : spinlock;
  ptable : list proc;
  nextpid : Z;
  initproc : option nat;
  ticks : Z;
  rr_index : Z;
  sjf_seed : Z;
  total_lock : spinlock;
  total_count : Z;
  out : list Z }.

Definition set_cpus (v : list kcpu) (s : pstate) : pstate :=
  mk_pstate v (pt_lock s) (ptable s) (nextpid s) (initproc s) (ticks s) (rr_index s) (sjf_seed s)
    (total_lock s) (total_count s) (out s).
Definition set_pt_lock (v : spinlock) (s : pstate) : pstate :=
  mk_pstate (cpus s) v (ptable s) (nextpid s) (initproc s) (ticks s) (rr_index s) (sjf_seed s)
    (total_lock s) (total_count s) (out s).
Definition set_ptable (v : list proc) (s : pstate) : pstate :=
  mk_pstate (cpus s) (pt_lock s) v (nextpid s) (initproc s) (ticks s) (rr_index s) (sjf_seed s)
    (total_lock s) (total_count s) (out s).
Definition set_nextpid (v : Z) (s : pstate) : pstate :=
  mk_pstate (cpus s) (pt_lock s) (ptable s) v (initproc s) (ticks s) (rr_index s) (sjf_seed s)
    (total_lock s) (total_count s) (out s).
Definition set_initproc (v : option nat) (s : pstate) : pstate :=
  mk_pstate (cpus s) (pt_lock s) (ptable s) (nextpid s) v (ticks s) (rr_index s) (sjf_seed s)
    (total_lock s) (total_count s) (out s).
Definition set_ticks (v : Z) (s : pstate) : pstate :=
  mk_pstate (cpus s) (pt_lock s) (ptable s) (nextpid s) (initproc s) v (rr_index s) (sjf_seed s)
    (total_lock s) (total_count s) (out s).
Definition set_rr_index (v : Z) (s : pstate) : pstate :=
  mk_pstate (cpus s) (pt_lock s) (ptable s) (nextpid s) (initproc s) (ticks s) v (sjf_seed s)
    (total_lock s) (total_count s) (out s).
Definition set_sjf_seed (v : Z) (s : pstate) : pstate :=
  mk_pstate (cpus s) (pt_lock s) (ptable s) (nextpid s) (initproc s) (ticks s) (rr_index s) v
    (total_lock s) (total_count s) (out s).
Definition set_total_lock (v : spinlock) (s : pstate) : pstate :=
  mk_pstate (cpus s) (pt_lock s) (ptable s) (nextpid s) (initproc s) (ticks s) (rr_index s)
    (sjf_seed s) v (total_count s) (out s).
Definition set_total_count (v : Z) (s : pstate) : pstate :=
  mk_pstate (cpus s) (pt_lock s) (ptable s) (nextpid s) (initproc s) (ticks s) (rr_index s)
    (sjf_seed s) (total_lock s) v (out s).
Definition set_out (v : list Z) (s : pstate) : pstate :=
  mk_pstate (cpus s) (pt_lock s) (ptable s) (nextpid s) (initproc s) (ticks s) (rr_index s)
    (sjf_seed s) (total_lock s) (total_count s) v.

(** ** Shared steps.  [me] is the CPU the code runs on, the result of [mycpu()]. *)

Definition cpu_zero : kcpu := mk_kcpu 0 (mk_cpu 0 false false) None 0 0 0.

Definition this (me : nat) (s : pstate) : kcpu := nth me (cpus s) cpu_zero.

Definition upd_cpu (me : nat) (f : kcpu -> kcpu) : M pstate unit :=
  modify (fun s => set_cpus (<[me := f (this me s)]> (cpus s)) s).

(** Runs a locking routine on this CPU's interrupt state. *)
Definition on_cpu {A} (me : nat) (f : M cpu A) : M pstate A :=
  zoom (fun s => c_intr (this me s))
    (fun c s => set_cpus (<[me := mk_kcpu (c_apicid (this me s)) c (c_proc (this me s))
        (c_runs (this me s)) (c_queue (this me s)) (c_syscalls (this me s))]> (cpus s)) s) f.

(** [acquire(&ptable.lock)] and [release(&ptable.lock)]. *)
Definition pt_acquire (me : nat) : M pstate unit :=
  l ← gets pt_lock;
  l' ← on_cpu me (Spinlock.acquire me l);
  modify (set_pt_lock l').
Definition pt_release (me : nat) : M pstate unit :=
  l ← gets pt_lock;
  l' ← on_cpu me (Spinlock.release me l);
  modify (set_pt_lock l').

(** *** Inside and outside the section ptable.lock protects *)

Definition set_c_intr (v : cpu) (c : kcpu) : kcpu :=
  mk_kcpu (c_apicid c) v (c_proc c) (c_runs c) (c_queue c) (c_syscalls c).
Definition set_intr (me : nat) (v : cpu) (s : pstate) : pstate :=
  set_cpus (<[me := set_c_intr v (this me s)]> (cpus s)) s.

(** CPU [me] can take ptable.lock, and holds it. *)
Definition outside (me : nat) (s : pstate) : Prop :=
  (me < length (cpus s))%nat /\ Spinlock.cpu_ok (c_intr (this me s)) /\ pt_lock s = Spinlock.initlock.
Definition inside (me : nat) (s : pstate) : Prop :=
  (me < length (cpus s))%nat /\ 1 <= ncli (c_intr (this me s)) /\
  intr (c_intr (this me s)) = false /\ pt_lock s = mk_spinlock 1 (Some me).

Definition enter (me : nat) (s : pstate) : pstate :=
  let c := c_intr (this me s) in
  set_pt_lock (mk_spinlock 1 (Some me))
    (set_intr me (mk_cpu (ncli c + 1) (if ncli c =? 0 then intr c else intena c) false) s).
Definition leave (me : nat) (s : pstate) : pstate :=
  let c := c_intr (this me s) in
  set_pt_lock Spinlock.initlock
    (set_intr me (mk_cpu (ncli c - 1) (intena c) ((ncli c - 1 =? 0) && intena c)) s).

Lemma this_set me c s :
  (me < length (cpus s))%nat -> this me (set_cpus (<[me := c]> (cpus s)) s) = c.
Proof.
  intros H. unfold this. cbn. rewrite nth_lookup, list_lookup_insert_eq by done. done.
Qed.

Lemma pt_acquire_run me s : outside me s -> pt_acquire me s = Ret tt (enter me s).
Proof.
  intros (_ & Hc & Hl). unfold pt_acquire, on_cpu, zoom. munfold. rewrite Hl.
  by rewrite Spinlock.acquire_run.
Qed.

Lemma enter_inside me s : outside me s -> inside me (enter me s).
Proof.
  intros (Hm & [Hn _] & _). unfold inside, enter, set_intr.
  assert (E : this me (set_pt_lock (mk_spinlock 1 (Some me)) (set_cpus (<[me := set_c_intr (mk_cpu
    (ncli (c_intr (this me s)) + 1) (if ncli (c_intr (this me s)) =? 0 then intr (c_intr (this me s))
     else intena (c_intr (this me s))) false) (this me s)]> (cpus s)) s)) = set_c_intr (mk_cpu
    (ncli (c_intr (this me s)) + 1) (if ncli (c_intr (this me s)) =? 0 then intr (c_intr (this me s))
     else intena (c_intr (this me s))) false) (this me s)) by (apply this_set; done).
  rewrite E. cbn. rewrite length_insert. split_and!; done || lia.
Qed.

Lemma pt_release_run me s : inside me s -> pt_release me s = Ret tt (leave me s).
Proof.
  intros (_ & Hn & Hi & Hl). unfold pt_release, on_cpu, zoom, leave, set_intr. munfold. rewrite Hl.
  destruct (c_intr (this me s)) as [n e i] eqn:E. cbn in *. subst i.
  pose proof (Spinlock.release_run me (mk_cpu (n - 1) e false)) as Hr. cbn in Hr.
  replace (n - 1 + 1) with n in Hr by lia. rewrite Hr by lia. done.
Qed.

Lemma leave_outside me s : inside me s -> outside me (leave me s).
Proof.
  intros (Hm & Hn & _ & _). unfold outside, leave, set_intr.
  set (c := c_intr (this me s)) in *.
  assert (E : this me (set_pt_lock Spinlock.initlock (set_cpus (<[me := set_c_intr (mk_cpu
    (ncli c - 1) (intena c) ((ncli c - 1 =? 0) && intena c)) (this me s)]> (cpus s)) s)) =
    set_c_intr (mk_cpu (ncli c - 1) (intena c) ((ncli c - 1 =? 0) && intena c)) (this me s))
    by (apply this_set; done).
  rewrite E. cbn. rewrite length_insert. split_and!; try done.
  split; cbn; [lia|]. intros H. by rewrite (proj2 (Z.eqb_neq _ _)) by lia.
Qed.

(** [cprintf]. *)
Definition print (fmt : list Z) (args : list varg) : M pstate unit :=
  o ← of_option OutOfBounds (Cprintf.cprintf fmt args);
  modify (fun s => set_out (out s ++ o) s).

Definition str (s : string) : list Z := bytes_of_string s.
Definition NL : list Z := [10].
Definition TAB : list Z := [9].

Definition getp (i : nat) : M pstate proc := s ← get; of_option OutOfBounds (ptable s !! i).
Definition updp (i : nat) (f : proc -> proc) : M pstate unit :=
  modify (fun s => set_ptable (alter f i (ptable s)) s).

(** [myproc()]; the code that calls it dereferences the result. *)
Definition myproc (me : nat) : M pstate nat :=
  s ← get; of_option NullDeref (c_proc (this me s)).

(** The first slot that satisfies [f], in table order. *)
Fixpoint find_slot (f : proc -> bool) (l : list proc) : option nat :=
  match l with
  | [] => None
  | p :: l' => if f p then Some O else S <$> find_slot f l'
  end.

Lemma find_slot_Some f l i :
  find_slot f l = Some i <->
  (exists p, l !! i = Some p /\ f p = true) /\
  (forall j q, (j < i)%nat -> l !! j = Some q -> f q = false).
Proof.
  revert i; induction l as [|p l IH]; intros i; cbn [find_slot].
  { split; [done|]. intros [(p & H & _) _]. by rewrite lookup_nil in H. }
  destruct (f p) eqn:E.
  - split.
    + intros [= <-]. split; [by exists p|]. intros; lia.
    + intros [(q & H1 & H2) H3]. destruct i as [|i]; [done|].
      specialize (H3 0%nat p ltac:(lia) eq_refl). congruence.
  - rewrite fmap_Some. split.
    + intros (k & Hk & ->). apply IH in Hk as [(q & H1 & H2) H3]. split; [by exists q|].
      intros [|j] q' Hj Hq; cbn in Hq; [congruence|]. apply (H3 j); [lia|done].
    + intros [(q & H1 & H2) H3]. destruct i as [|i]; cbn in H1; [congruence|].
      exists i. split; [|done]. apply IH. split; [by exists q|].
      intros j q' Hj Hq. apply (H3 (S j) q'); [lia|done].
Qed.

Lemma find_slot_None f l : find_slot f l = None <-> forall i p, l !! i = Some p -> f p = false.
Proof.
  induction l as [|p l IH]; cbn [find_slot].
  { split; [|done]. intros _ i p H. by rewrite lookup_nil in H. }
  destruct (f p) eqn:E.
  - split; [done|]. intros H. specialize (H 0%nat p eq_refl). congruence.
  - rewrite fmap_None, IH. split.
    + intros H [|i] q Hq; cbn in Hq; [congruence|eauto].
    + intros H i q Hq. by apply (H (S i) q).
Qed.
