(* ===== verification/Sched.v ===== *)
(** The multi-level feedback scheduler of [proc.c]: aging, the three queue
    disciplines (round robin, shortest job first, first come first served), the
    scheduler loop, and the calls by which a process gives up the CPU
    ([yield], [sched], [sleep]) or is made runnable again ([wakeup], [kill]). *)

From Stdlib Require Import Sorting.Sorted.
From S2P Require Import Prelude CString Printf Locks ProcDefs.

Definition set_c_proc (v : option nat) (c : kcpu) : kcpu :=
  mk_kcpu (c_apicid c) (c_intr c) v (c_runs c) (c_queue c) (c_syscalls c).
Definition set_c_runs (v : Z) (c : kcpu) : kcpu :=
  mk_kcpu (c_apicid c) (c_intr c) (c_proc c) v (c_queue c) (c_syscalls c).
Definition set_c_queue (v : Z) (c : kcpu) : kcpu :=
  mk_kcpu (c_apicid c) (c_intr c) (c_proc c) (c_runs c) v (c_syscalls c).
Definition set_c_syscalls (v : Z) (c : kcpu) : kcpu :=
  mk_kcpu (c_apicid c) (c_intr c) (c_proc c) (c_runs c) (c_queue c) v.

(** Ready to run in queue [q]. *)
Definition ready (q : Z) (p : proc) : bool :=
  bool_decide (p_state p = RUNNABLE) && (p_queue p =? q).

(** ** Aging *)

(** One pass of the loop of [_aging]: the slot afterwards and what is printed. *)
Definition aging_one (now : Z) (p : proc) : option (proc * list Z) :=
  if bool_decide (p_state p = RUNNABLE) then
    let p := set_wait_time (i32 (p_wait_time p + 1)) p in
    if (p_wait_time p >=? MAX_WAIT_TIME) && ctrue (p_queue p) then
      match Cprintf.cprintf
              (str "Process: %d has been moved from queue %d to queue %d due to aging." ++ NL)
              [AInt (p_pid p); AInt (p_queue p); AInt (p_queue p - 1)] with
      | Some o => Some (set_wait_time 0 (set_arrival (i32 now) (set_queue (p_queue p - 1) p)), o)
      | None => None
      end
    else Some (p, [])
  else Some (p, []).

Definition _aging (me : nat) : M pstate unit :=
  pt_acquire me ;;
  s ← get;
  r ← of_option OutOfBounds (mapM (aging_one (ticks s)) (ptable s));
  modify (fun s => set_ptable (fst <$> r) (set_out (out s ++ concat (snd <$> r)) s)) ;;
  pt_release me.

(** ** Round robin *)

(** [index] after the loop, and the result. *)
Fixpoint rr_loop (n : nat) (tbl : list proc) (index : Z) : Z * Z :=
  match n with
  | O => (index, -1)
  | S n' =>
      let index := Z.rem (index + 1) (Z.of_nat NPROC) in
      match tbl !! Z.to_nat index with
      | Some p => if negb (ready 0 p) then rr_loop n' tbl index else (index, index)
      | None => rr_loop n' tbl index
      end
  end.

Definition _RR_scheduler : M pstate Z :=
  s ← get;
  let '(index, r) := rr_loop NPROC (ptable s) (rr_index s) in
  modify (set_rr_index index) ;;
  mret r.

(** ** Shortest job first *)

Definition BIG : Z := 1000000000. (* 1e9 *)

(** The [for] loop over the table: [new_min], [flag] and [p_idx] afterwards. *)
Fixpoint sjf_scan (i : nat) (tbl : list proc) (min_val new_min : Z) (flag : bool)
    (p_idx : list nat) : Z * bool * list nat :=
  match tbl with
  | [] => (new_min, flag, p_idx)
  | p :: tbl' =>
      if negb (ready 1 p) then sjf_scan (S i) tbl' min_val new_min flag p_idx
      else if min_val <? p_burst_time p then
        sjf_scan (S i) tbl' min_val
          (if new_min <? p_burst_time p then new_min else p_burst_time p) false p_idx
      else if min_val =? p_burst_time p then
        sjf_scan (S i) tbl' min_val new_min false (p_idx ++ [i])
      else sjf_scan (S i) tbl' min_val new_min flag p_idx
  end.

Inductive sjf_result := SjfList (p_idx : list nat) | SjfOverflow | SjfNoFuel.

(** The [while(idx < NPROC)] loop.  [p_idx] has room for NPROC entries. *)
Fixpoint sjf_collect (fuel : nat) (tbl : list proc) (min_val : Z) (p_idx : list nat) : sjf_result :=
  if (length p_idx <? NPROC)%nat then
    match fuel with
    | O => SjfNoFuel
    | S f =>
        let '(new_min, flag, p_idx) := sjf_scan 0 tbl min_val BIG true p_idx in
        if (NPROC <? length p_idx)%nat then SjfOverflow
        else if (flag : bool) then SjfList p_idx
        else sjf_collect f tbl new_min p_idx
    end
  else SjfList p_idx.

(** The loop that draws a random number for each candidate in turn: the chosen
    index, if any, and the seed. *)
Fixpoint sjf_draw (now : Z) (tbl : list proc) (p_idx : list nat) (seed : Z) : option nat * Z :=
  match p_idx with
  | [] => (None, seed)
  | i :: rest =>
      let rand := ((seed / 65536) mod 32768) mod 100 in
      let seed := u32 ((seed + now) * 1103515243 + 12345) in
      match tbl !! i with
      | Some p => if rand <? p_confidence p then (Some i, seed) else sjf_draw now tbl rest seed
      | None => sjf_draw now tbl rest seed
      end
  end.

(** NPROC + 3 rounds: one for the initial [min_val], at most one per distinct
    burst time, and the round that finds nothing. *)
Definition SJF_FUEL : nat := 67.

Definition _SJF_scheduler : M pstate Z :=
  s ← get;
  match sjf_collect SJF_FUEL (ptable s) 0 [] with
  | SjfNoFuel => faults OutOfFuel
  | SjfOverflow => faults OutOfBounds
  | SjfList p_idx =>
      let '(choice, seed) := sjf_draw (ticks s) (ptable s) p_idx (sjf_seed s) in
      modify (set_sjf_seed seed) ;;
      match choice with
      | Some i => mret (Z.of_nat i)
      | None => mret (match last p_idx with Some i => Z.of_nat i | None => -1 end)
      end
  end.

(** ** First come, first served *)

Fixpoint fcfs_loop (i : nat) (tbl : list proc) (min_val min_idx : Z) : Z :=
  match tbl with
  | [] => min_idx
  | p :: tbl' =>
      if negb (ready 2 p) then fcfs_loop (S i) tbl' min_val min_idx
      else if min_val >? p_arrival p then fcfs_loop (S i) tbl' (p_arrival p) (Z.of_nat i)
      else fcfs_loop (S i) tbl' min_val min_idx
  end.

Definition _FCFS_scheduler : M pstate Z :=
  s ← get; mret (fcfs_loop 0 (ptable s) BIG (-1)).

(** ** The scheduler loop *)

(** The checks of vm.c's [switchuvm]; what follows them loads the task state
    segment and the page-table register. *)
Definition switchuvm (i : nat) : M pstate unit :=
  p ← getp i;
  if p_kstack p =? 0 then panic "switchuvm: no kstack"
  else if p_pgdir p =? 0 then panic "switchuvm: no pgdir"
  else mret tt.

(** One pass of the [do ... while] body up to [swtch]: [Some i] when process [i]
    has been chosen and is about to be switched to, [None] when the pass ends in
    [break]; with [continue] the next pass follows.  An empty queue sends the
    loop to the next one, so three passes reach the last queue. *)
Fixpoint scheduler_loop (fuel : nat) (me : nat) : M pstate (option nat) :=
  match fuel with
  | O => faults OutOfFuel
  | S f =>
      s ← get;
      when (c_runs (this me s) =? 0)
        (upd_cpu me (fun c => set_c_queue (Z.rem (c_queue c + 1) 3) c)) ;;
      s ← get;
      p_index ← (let q := c_queue (this me s) in
                 if q =? 0 then _RR_scheduler
                 else if q =? 1 then _SJF_scheduler
                 else if q =? 2 then _FCFS_scheduler
                 else _RR_scheduler);
      if p_index =? -1 then
        upd_cpu me (set_c_runs 0) ;;
        s ← get;
        if c_queue (this me s) =? _NQUEUE - 1 then mret None
        else scheduler_loop f me
      else
        let i := Z.to_nat p_index in
        updp i (set_wait_time 0) ;;
        upd_cpu me (set_c_proc (Some i)) ;;
        switchuvm i ;;
        updp i (set_state RUNNING) ;;
        mret (Some i)
  end.

(** From the top of [for(;;)]: interrupts on, the lock taken, the loop entered. *)
Definition scheduler_enter (me : nat) : M pstate (option nat) :=
  on_cpu me (modify Spinlock.sti) ;;
  pt_acquire me ;;
  r ← scheduler_loop 4 me;
  match r with
  | Some i => mret (Some i)
  | None => pt_release me ;; mret None
  end.

(** What follows [swtch] when the process has switched back: [c->proc = 0] and the
    loop condition; [true] if the loop goes round again with the lock held. *)
Definition scheduler_back (me : nat) : M pstate bool :=
  upd_cpu me (set_c_proc None) ;;
  s ← get;
  if ctrue (c_runs (this me s)) || negb (c_queue (this me s) =? _NQUEUE - 1)
  then mret true
  else pt_release me ;; mret false.

(** ** Giving up the CPU *)

(** [sched] up to its [swtch]; the result is the saved [intena], which [sched]
    stores back when the process runs again ([sched_resume]). *)
Definition sched (me : nat) : M pstate bool :=
  i ← myproc me;
  l ← gets pt_lock;
  h ← on_cpu me (Spinlock.holding me l);
  if negb h then panic "sched ptable.lock"
  else
    s ← get;
    if negb (ncli (c_intr (this me s)) =? 1) then panic "sched locks"
    else
      p ← getp i;
      if bool_decide (p_state p = RUNNING) then panic "sched running"
      else if intr (c_intr (this me s)) then panic "sched interruptible"
      else
        updp i (set_context_eip InSched) ;;
        mret (intena (c_intr (this me s))).

Definition sched_resume (me : nat) (intena0 : bool) : M pstate unit :=
  upd_cpu me (fun c => mk_kcpu (c_apicid c)
    (mk_cpu (ncli (c_intr c)) intena0 (intr (c_intr c))) (c_proc c) (c_runs c) (c_queue c)
    (c_syscalls c)).

Definition _should_yield (me : nat) : M pstate bool :=
  i ← myproc me;
  p ← getp i;
  w ← (if p_queue p <? 0 then faults OutOfBounds
       else of_option OutOfBounds (queue_weights !! Z.to_nat (p_queue p)));
  let queue_time_slice := time_slice * w in
  upd_cpu me (fun c => set_c_runs (c_runs c + 1) c) ;;
  s ← get;
  if c_runs (this me s) >=? queue_time_slice then
    upd_cpu me (set_c_runs 0) ;; mret true
  else
    mret (if p_queue p =? 0 then p_consecutive_runs p >=? rr_timeq
          else if (p_queue p =? 1) || (p_queue p =? 2) then false
          else true).

(** [yield] up to the point where the process either switches away ([true], the
    lock still held) or goes on running ([false], the lock released). *)
Definition yield (me : nat) : M pstate bool :=
  pt_acquire me ;;
  i ← myproc me;
  updp i (fun p => set_consecutive_runs (p_consecutive_runs p + 1) p) ;;
  y ← _should_yield me;
  if (y : bool) then
    updp i (set_consecutive_runs 0) ;;
    updp i (set_state RUNNABLE) ;;
    sched me ;;
    mret true
  else
    pt_release me ;;
    mret false.

(** [sleep] up to its [sched].  [other] tells whether [lk] is a lock other than
    ptable.lock; that lock, which its owner's component keeps, is released once
    ptable.lock is held. *)
Definition sleep (me : nat) (ch : chan) (other : bool) : M pstate bool :=
  s ← get;
  match c_proc (this me s) with
  | None => panic "sleep"
  | Some i =>
      when other (pt_acquire me) ;;
      updp i (set_chan ch) ;;
      updp i (set_state SLEEPING) ;;
      sched me
  end.

(** The rest of [sleep], when the process runs again. *)
Definition sleep_resume (me : nat) (i : nat) (other : bool) : M pstate unit :=
  updp i (set_chan CNull) ;;
  when other (pt_release me).

Definition wakeup1_one (ch : chan) (p : proc) : proc :=
  if bool_decide (p_state p = SLEEPING) && bool_decide (p_chan p = ch)
  then set_state RUNNABLE p else p.

Definition wakeup1 (ch : chan) : M pstate unit :=
  modify (fun s => set_ptable (wakeup1_one ch <$> ptable s) s).

Definition wakeup (me : nat) (ch : chan) : M pstate unit :=
  pt_acquire me ;; wakeup1 ch ;; pt_release me.

Definition kill (me : nat) (pid : Z) : M pstate Z :=
  pt_acquire me ;;
  s ← get;
  match find_slot (fun p => p_pid p =? pid) (ptable s) with
  | Some i =>
      updp i (set_killed 1) ;;
      p ← getp i;
      when (bool_decide (p_state p = SLEEPING)) (updp i (set_state RUNNABLE)) ;;
      pt_release me ;;
      mret 0
  | None => pt_release me ;; mret (-1)
  end.

(** [forkret]: where a new process starts, still holding ptable.lock from the
    scheduler.  [first] is its static variable; the result tells whether it went
    on to [iinit] and [initlog]. *)
Definition forkret (me : nat) (first : bool) : M pstate bool :=
  pt_release me ;; mret first.

(** ** Round robin is fair *)

(** The slot [k] places after [index] in circular order. *)
Definition after (index : Z) (k : nat) : Z := (index + Z.of_nat k) mod 64.

Lemma after_range index k : 0 <= after index k < 64.
Proof. apply Z.mod_pos_bound; lia. Qed.

Lemma after_succ index k : after ((index + 1) mod 64) k = after index (S k).
Proof. unfold after. rewrite Zplus_mod_idemp_l. f_equal. lia. Qed.

Definition ready_at (q : Z) (tbl : list proc) (i : Z) : bool :=
  match tbl !! Z.to_nat i with Some p => ready q p | None => false end.

Lemma rr_loop_spec n tbl index :
  0 <= index < 64 ->
  let '(index', r) := rr_loop n tbl index in
  (r = -1 /\ (forall k, (1 <= k <= n)%nat -> ready_at 0 tbl (after index k) = false)) \/
  (exists k, (1 <= k <= n)%nat /\ r = after index k /\ index' = r /\
     ready_at 0 tbl r = true /\
     forall j, (1 <= j < k)%nat -> ready_at 0 tbl (after index j) = false).
Proof.
  revert index; induction n as [|n IH]; intros index Hi; cbn [rr_loop].
  { left. split; [done|]. intros; lia. }
  rewrite Z.rem_mod_nonneg by (unfold NPROC; lia). change (Z.of_nat NPROC) with 64.
  assert (E : (index + 1) mod 64 = after index 1) by done.
  pose proof (after_range index 1) as Hr.
  assert (Hrec : ready_at 0 tbl (after index 1) = false ->
    let '(index', r) := rr_loop n tbl (after index 1) in
    (r = -1 /\ (forall k, (1 <= k <= S n)%nat -> ready_at 0 tbl (after index k) = false)) \/
    (exists k, (1 <= k <= S n)%nat /\ r = after index k /\ index' = r /\
       ready_at 0 tbl r = true /\
       forall j, (1 <= j < k)%nat -> ready_at 0 tbl (after index j) = false)).
  { intros Hno. specialize (IH (after index 1) Hr). destruct (rr_loop n tbl (after index 1)) as [i' r'].
    destruct IH as [(-> & Hk)|(k & Hk1 & Hk2 & Hk3 & Hk4 & Hk5)].
    - left. split; [done|]. intros [|[|k]] Hk'; [lia|done|].
      rewrite <- (after_succ index (S k)), E. apply Hk; lia.
    - right. exists (S k). split; [lia|]. rewrite <- after_succ, E. split_and!; try done.
      intros [|[|j]] Hj; [lia|done|]. rewrite <- (after_succ index (S j)), E. apply Hk5; lia. }
  rewrite E.
  destruct (tbl !! Z.to_nat (after index 1)) as [p|] eqn:Ep;
    [|apply Hrec; unfold ready_at; by rewrite Ep].
  destruct (ready 0 p) eqn:Er; cbn [negb]; [|apply Hrec; unfold ready_at; rewrite Ep; exact Er].
  right. exists 1%nat. split; [lia|]. split_and!; try done.
  - unfold ready_at. by rewrite Ep.
  - intros; lia.
Qed.

Lemma after_surj index i : 0 <= index < 64 -> 0 <= i < 64 ->
  exists k, (1 <= k <= 64)%nat /\ after index k = i.
Proof.
  intros Hx Hi. destruct (Z.ltb_spec index i) as [Hlt|Hge].
  - exists (Z.to_nat (i - index)). split; [lia|]. unfold after. rewrite Z2Nat.id by lia.
    rewrite Z.mod_small by lia. lia.
  - exists (Z.to_nat (i - index + 64)). split; [lia|]. unfold after. rewrite Z2Nat.id by lia.
    replace (index + (i - index + 64)) with (i + 1 * 64) by lia.
    rewrite Z.mod_add by lia. by apply Z.mod_small.
Qed.

(** What [_RR_scheduler] picks: -1 only if no process is ready in queue 0. *)
Lemma rr_pick tbl index :
  0 <= index < 64 -> length tbl = 64%nat ->
  let '(index', r) := rr_loop NPROC tbl index in
  if decide (r = -1) then forall i p, tbl !! i = Some p -> ready 0 p = false
  else 0 <= r < 64 /\ index' = r /\ ready_at 0 tbl r = true.
Proof.
  intros Hx Hlen. pose proof (rr_loop_spec NPROC tbl index Hx) as H.
  destruct (rr_loop NPROC tbl index) as [i' r].
  destruct H as [(-> & Hk)|(k & Hk & -> & -> & Hr & _)].
  - rewrite decide_True by done. intros i p Hp.
    assert (Hi : (i < 64)%nat) by (rewrite <- Hlen; by eapply lookup_lt_Some).
    destruct (after_surj index (Z.of_nat i) Hx ltac:(lia)) as (k & Hk1 & Hk2).
    specialize (Hk k Hk1). unfold ready_at in Hk. rewrite Hk2, Nat2Z.id, Hp in Hk. done.
  - pose proof (after_range index k). rewrite decide_False by lia. split_and!; (done || lia).
Qed.

(** How many places [i] is ahead of the last pick, counted from 0. *)
Definition ahead (index i : Z) : Z := (i - index - 1) mod 64.

Lemma ahead_after index k : (1 <= k <= 64)%nat -> ahead index (after index k) = Z.of_nat k - 1.
Proof.
  intros Hk. unfold ahead, after. rewrite <- Z.sub_add_distr, Zminus_mod_idemp_l.
  replace (index + Z.of_nat k - (index + 1)) with (Z.of_nat k - 1) by lia.
  apply Z.mod_small; lia.
Qed.

(** A sequence of picks, each on the table as it is at that moment. *)
Fixpoint rr_picks (tbls : list (list proc)) (index : Z) : list Z :=
  match tbls with
  | [] => []
  | tbl :: tbls' => let '(index', r) := rr_loop NPROC tbl index in r :: rr_picks tbls' index'
  end.

Lemma rr_pick_nearer tbl index i :
  0 <= index < 64 -> 0 <= i < 64 -> ready_at 0 tbl i = true ->
  let '(index', r) := rr_loop NPROC tbl index in
  0 <= index' < 64 /\ (r = i \/ ahead index' i < ahead index i).
Proof.
  intros Hx Hi Hr. pose proof (rr_loop_spec NPROC tbl index Hx) as H.
  destruct (after_surj index i Hx Hi) as (m & Hm & Em). subst i.
  destruct (rr_loop NPROC tbl index) as [i' r].
  destruct H as [(-> & Hk)|(k & Hk & -> & -> & Hrk & Hj)].
  - rewrite Hk in Hr by (unfold NPROC in *; lia). done.
  - split; [apply after_range|]. destruct (decide (k = m)) as [->|Hne]; [by left|right].
    assert (k < m)%nat.
    { destruct (decide (m < k)%nat); [|lia]. rewrite Hj in Hr by lia. done. }
    rewrite ahead_after by lia.
    assert (after (after index k) (m - k) = after index m) as <-.
    { unfold after. rewrite Zplus_mod_idemp_l. f_equal. lia. }
    rewrite ahead_after by lia. lia.
Qed.

Lemma rr_picks_hit tbls index i :
  0 <= index < 64 -> 0 <= i < 64 ->
  Forall (fun tbl => ready_at 0 tbl i = true) tbls ->
  (Z.to_nat (ahead index i) < length tbls)%nat ->
  i ∈ rr_picks tbls index.
Proof.
  revert index; induction tbls as [|tbl tbls IH]; intros index Hx Hi Ht Hlen; [cbn in Hlen; lia|].
  inversion Ht as [|? ? Hr Ht']; subst. cbn [rr_picks].
  pose proof (rr_pick_nearer tbl index i Hx Hi Hr) as H.
  destruct (rr_loop NPROC tbl index) as [index' r]. destruct H as [Hx' [->|Hlt]].
  - apply elem_of_cons. by left.
  - apply elem_of_cons. right. apply IH; try done. cbn in Hlen.
    pose proof (Z.mod_pos_bound (i - index' - 1) 64). unfold ahead in *. lia.
Qed.

(** C27: round robin does not starve anybody: a process that stays ready in queue
    0 is picked at the latest by the 64th pick, whatever the rest of the table
    does between picks. *)
Theorem rr_fair tbls index i :
  0 <= index < 64 -> 0 <= i < 64 ->
  Forall (fun tbl => ready_at 0 tbl i = true) tbls ->
  (64 <= length tbls)%nat ->
  i ∈ rr_picks tbls index.
Proof.
  intros Hx Hi Ht Hlen. apply rr_picks_hit; try done.
  pose proof (Z.mod_pos_bound (i - index - 1) 64). unfold ahead. lia.
Qed.

Definition demo_ready (q : Z) : proc := set_queue q (set_state RUNNABLE proc_zero).
Definition demo_tbl : list proc := <[5%nat := demo_ready 0]> (replicate 64 proc_zero).

Lemma rr_fair_witness : 5 ∈ rr_picks (replicate 64 demo_tbl) 9.
Proof.
  apply (rr_fair (replicate 64 demo_tbl) 9 5); [lia|lia| |rewrite length_replicate; lia].
  apply Forall_replicate. reflexivity.
Defined.

(** ** First come, first served takes the oldest *)

Lemma fcfs_loop_spec i tbl mv mi :
  (fcfs_loop i tbl mv mi = mi /\
     forall j p, tbl !! j = Some p -> ready 2 p = true -> mv <= p_arrival p) \/
  (exists j p, fcfs_loop i tbl mv mi = Z.of_nat (i + j) /\ tbl !! j = Some p /\
     ready 2 p = true /\ p_arrival p < mv /\
     (forall k q, tbl !! k = Some q -> ready 2 q = true ->
        p_arrival p <= p_arrival q /\ ((k < j)%nat -> p_arrival p < p_arrival q))).
Proof.
  revert i mv mi; induction tbl as [|p tbl IH]; intros i mv mi; cbn [fcfs_loop].
  { left. split; [done|]. intros j p H. by rewrite lookup_nil in H. }
  assert (Hskip : (ready 2 p = true -> mv <= p_arrival p) ->
    let r := fcfs_loop (S i) tbl mv mi in
    (r = mi /\ forall j q, (p :: tbl) !! j = Some q -> ready 2 q = true -> mv <= p_arrival q) \/
    (exists j q, r = Z.of_nat (i + j) /\ (p :: tbl) !! j = Some q /\
       ready 2 q = true /\ p_arrival q < mv /\
       (forall k q', (p :: tbl) !! k = Some q' -> ready 2 q' = true ->
          p_arrival q <= p_arrival q' /\ ((k < j)%nat -> p_arrival q < p_arrival q')))).
  { intros Hp. destruct (IH (S i) mv mi) as [[-> H]|(j & q & -> & H1 & H2 & H3 & H4)].
    - left. split; [done|]. intros [|k] q Hk Hq; cbn in Hk; [simplify_eq; auto|eauto].
    - right. exists (S j), q. split; [f_equal; lia|]. repeat (split; [done|]).
      intros [|k] q' Hk Hq; cbn in Hk; [simplify_eq; specialize (Hp Hq); lia|].
      destruct (H4 k q' Hk Hq) as [H5 H6]. split; [done|]. intros. apply H6. lia. }
  destruct (ready 2 p) eqn:Er; cbn [negb]; [|by apply Hskip].
  destruct (Z.gtb_spec mv (p_arrival p)) as [Hgt|Hle]; [|by apply Hskip].
  right. destruct (IH (S i) (p_arrival p) (Z.of_nat i)) as [[-> H]|(j & q & -> & H1 & H2 & H3 & H4)].
  - exists 0%nat, p. rewrite Nat.add_0_r. repeat (split; [done|]).
    intros [|k] q Hk Hq; cbn in Hk; [simplify_eq; lia|]. specialize (H k q Hk Hq). lia.
  - exists (S j), q. split; [f_equal; lia|]. split; [done|]. split; [done|]. split; [lia|].
    intros [|k] q' Hk Hq; cbn in Hk; [simplify_eq; lia|].
    destruct (H4 k q' Hk Hq) as [H5 H6]. split; [done|]. intros. apply H6. lia.
Qed.

(** as long as arrival times are below 1e9, the first-come-first-served
    scheduler returns a ready process of queue 2 that arrived no later than any
    other, the one in the lowest slot among equals, and -1 only if there is none. *)
Theorem fcfs_picks_oldest s :
  (forall j p, ptable s !! j = Some p -> ready 2 p = true -> p_arrival p < BIG) ->
  exists r, _FCFS_scheduler s = Ret r s /\
    ((r = -1 /\ forall j p, ptable s !! j = Some p -> ready 2 p = false) \/
     (exists j p, r = Z.of_nat j /\ ptable s !! j = Some p /\ ready 2 p = true /\
        forall k q, ptable s !! k = Some q -> ready 2 q = true ->
          p_arrival p <= p_arrival q /\ ((k < j)%nat -> p_arrival p < p_arrival q))).
Proof.
  intros Hb. eexists; split; [reflexivity|].
  destruct (fcfs_loop_spec 0 (ptable s) BIG (-1)) as [[-> H]|(j & p & -> & H1 & H2 & _ & H4)].
  - left. split; [done|]. intros j p Hp. destruct (ready 2 p) eqn:E; [|done].
    specialize (H j p Hp E). specialize (Hb j p Hp E). lia.
  - right. exists j, p. split_and!; try done.
Qed.

Definition demo_fcfs (a : Z) : proc := set_arrival a (demo_ready 2).
Definition demo_state (tbl : list proc) : pstate :=
  mk_pstate [cpu_zero] Spinlock.initlock tbl 10 (Some 0%nat) 100 0 1 Spinlock.initlock 0 [].

Lemma fcfs_picks_oldest_witness :
  exists r, _FCFS_scheduler (demo_state [demo_fcfs 30; demo_fcfs 20; demo_fcfs 20]) =
    Ret r (demo_state [demo_fcfs 30; demo_fcfs 20; demo_fcfs 20]) /\ r = 1.
Proof.
  destruct (fcfs_picks_oldest (demo_state [demo_fcfs 30; demo_fcfs 20; demo_fcfs 20]))
    as (r & E & H).
  - intros [|[|[|j]]] p Hp _; cbn in Hp; [injection Hp as <-; reflexivity..|discriminate].
  - exists r. split; [exact E|]. vm_compute in E. injection E as <-. reflexivity.
Defined.

(** ** Shortest job first visits the jobs in order *)

(** What one scan computes: the jobs of burst time [v] in slot order, the least
    burst time above [v], and whether no job of burst time [v] or more is left. *)
Fixpoint jobs (v : Z) (i : nat) (tbl : list proc) : list nat :=
  match tbl with
  | [] => []
  | p :: tbl => (if ready 1 p && (p_burst_time p =? v) then [i] else []) ++ jobs v (S i) tbl
  end.
Definition next_burst (v m : Z) (tbl : list proc) : Z :=
  fold_left (fun m p => if ready 1 p && (v <? p_burst_time p) then Z.min m (p_burst_time p) else m)
    tbl m.
Definition all_below (v : Z) (tbl : list proc) : bool :=
  forallb (fun p => negb (ready 1 p) || (p_burst_time p <? v)) tbl.

Lemma sjf_scan_eq i tbl v m fl px :
  sjf_scan i tbl v m fl px = (next_burst v m tbl, fl && all_below v tbl, px ++ jobs v i tbl).
Proof.
  revert i m fl px; induction tbl as [|p tbl IH]; intros i m fl px;
    cbn [sjf_scan jobs all_below forallb].
  { by rewrite app_nil_r, andb_true_r. }
  unfold next_burst; cbn [fold_left]; fold (next_burst v).
  destruct (ready 1 p); cbn [negb andb orb app]; [|apply IH].
  destruct (Z.ltb_spec v (p_burst_time p)); [|destruct (Z.eqb_spec v (p_burst_time p))]; rewrite IH.
  - rewrite (proj2 (Z.eqb_neq (p_burst_time p) v)), (proj2 (Z.ltb_ge (p_burst_time p) v)) by lia. cbn [app andb].
    rewrite andb_false_r.
    replace (if m <? p_burst_time p then m else p_burst_time p) with (Z.min m (p_burst_time p))
      by (destruct (Z.ltb_spec m (p_burst_time p)); lia). done.
  - rewrite (proj2 (Z.eqb_eq (p_burst_time p) v)), (proj2 (Z.ltb_ge (p_burst_time p) v)) by lia. cbn [app andb].
    rewrite andb_false_r, <- app_assoc. done.
  - rewrite (proj2 (Z.eqb_neq (p_burst_time p) v)), (proj2 (Z.ltb_lt (p_burst_time p) v)) by lia. done.
Qed.

(** Slot [j] of the table holds a job of burst time [b]. *)
Definition job (tbl : list proc) (b : Z) (j : nat) : Prop :=
  exists p, tbl !! j = Some p /\ ready 1 p = true /\ p_burst_time p = b.

Lemma jobs_elem v i tbl j :
  j ∈ jobs v i tbl <-> (i <= j)%nat /\ job tbl v (j - i).
Proof.
  revert i; induction tbl as [|p tbl IH]; intros i; cbn [jobs].
  { split; [by intros ?%elem_of_nil|]. intros (_ & p & H & _). by rewrite lookup_nil in H. }
  rewrite elem_of_app, IH. split.
  - intros [H|(H1 & q & H2 & H3)].
    + destruct (ready 1 p) eqn:E1, (Z.eqb_spec (p_burst_time p) v); cbn in H; try by apply elem_of_nil in H.
      apply list_elem_of_singleton in H as ->. split; [lia|]. exists p. by rewrite Nat.sub_diag.
    + split; [lia|]. exists q. replace (j - i)%nat with (S (j - S i)) by lia. done.
  - intros (H1 & q & H2 & H3 & H4). destruct (decide (j = i)) as [->|].
    + left. rewrite Nat.sub_diag in H2. cbn in H2. injection H2 as ->.
      rewrite H3, (proj2 (Z.eqb_eq _ _) H4). cbn. by apply list_elem_of_singleton.
    + right. split; [lia|]. exists q. replace (j - i)%nat with (S (j - S i)) in H2 by lia. done.
Qed.

Lemma jobs_sorted v i tbl : StronglySorted lt (jobs v i tbl).
Proof.
  revert i; induction tbl as [|p tbl IH]; intros i; cbn [jobs]; [constructor|].
  destruct (ready 1 p && _); cbn [app]; [|apply IH]. constructor; [apply IH|].
  apply Forall_forall. intros j [Hj _]%jobs_elem. lia.
Qed.

Lemma next_burst_spec v m tbl :
  next_burst v m tbl <= m /\
  (forall b j, job tbl b j -> v < b -> next_burst v m tbl <= b) /\
  (next_burst v m tbl = m \/ v < next_burst v m tbl /\ exists j, job tbl (next_burst v m tbl) j).
Proof.
  revert m; induction tbl as [|p tbl IH]; intros m.
  { split; [done|]. split; [|by left]. intros b j (p & H & _). by rewrite lookup_nil in H. }
  unfold next_burst; cbn [fold_left]; fold (next_burst v).
  set (m' := if _ : bool then _ else _). destruct (IH m') as (H1 & H2 & H3).
  change (fold_left _ tbl m') with (next_burst v m' tbl).
  assert (Hm : m' <= m) by (subst m'; case_match; lia).
  split; [lia|]. split.
  - intros b [|j] (q & Hq & Hr & Hb) Hlt; cbn in Hq.
    + injection Hq as ->. subst b. enough (m' <= p_burst_time q) by lia.
      subst m'. rewrite Hr, (proj2 (Z.ltb_lt _ _) Hlt). cbn [andb]. lia.
    + apply (H2 b j); [by exists q|done].
  - destruct H3 as [->|(H3 & j & q & Hq)]; [|right; split; [done|]; by exists (S j), q].
    subst m'. destruct (ready 1 p) eqn:Er, (Z.ltb_spec v (p_burst_time p)); cbn; try by left.
    destruct (Z.min_spec m (p_burst_time p)) as [[_ ->]|[_ ->]]; [by left|right].
    split; [done|]. by exists 0%nat, p.
Qed.

Lemma all_below_spec v tbl : all_below v tbl = true <-> forall b j, job tbl b j -> b < v.
Proof.
  unfold all_below. rewrite forallb_forall. split.
  - intros H b j (p & Hp & Hr & <-).
    specialize (H p (proj1 (list_elem_of_In _ _) (list_elem_of_lookup_2 _ _ _ Hp))).
    rewrite Hr in H. cbn in H. lia.
  - intros H p Hp%list_elem_of_In. apply list_elem_of_lookup in Hp as [j Hj].
    destruct (ready 1 p) eqn:Er; [|done]. cbn. apply Z.ltb_lt, (H _ j). by exists p.
Qed.

(** The order in which jobs are to run: shorter first, lower slot among equals. *)
Definition runs_before (tbl : list proc) (i j : nat) : Prop :=
  exists b b', job tbl b i /\ job tbl b' j /\ (b < b' \/ b = b' /\ (i < j)%nat).

Lemma job_inj tbl b b' j : job tbl b j -> job tbl b' j -> b = b'.
Proof. intros (p & Hp & _ & <-) (q & Hq & _ & <-). congruence. Qed.

Lemma runs_before_irrefl tbl j : ~ runs_before tbl j j.
Proof. intros (b & b' & H1 & H2 & H). pose proof (job_inj _ _ _ _ H1 H2). lia. Qed.

Lemma sorted_NoDup tbl l : StronglySorted (runs_before tbl) l -> NoDup l.
Proof.
  induction 1 as [|j l _ IH H]; constructor; [|done]. intros Hj.
  rewrite Forall_forall in H. by apply (runs_before_irrefl tbl j), H.
Qed.

(** [px] holds, in running order, the jobs with burst time below [v]. *)
Definition collected (tbl : list proc) (v : Z) (px : list nat) : Prop :=
  StronglySorted (runs_before tbl) px /\ forall j, j ∈ px <-> exists b, job tbl b j /\ b < v.

Lemma collected_length tbl v px :
  (length tbl <= NPROC)%nat -> collected tbl v px ->
  (length px <= NPROC)%nat /\
  (length px = NPROC -> forall b j, job tbl b j -> j ∈ px).
Proof.
  intros Hn [Hs Hp]. pose proof (sorted_NoDup _ _ Hs) as Hnd.
  assert (Hincl : incl px (seq 0 NPROC)).
  { intros j Hj%list_elem_of_In. apply Hp in Hj as (b & (p & Hj & _) & _).
    apply in_seq. pose proof (lookup_lt_Some _ _ _ Hj). lia. }
  apply NoDup_ListNoDup in Hnd. split.
  - pose proof (NoDup_incl_length Hnd Hincl) as H. by rewrite length_seq in H.
  - intros Hl b j (p & Hj & _). apply list_elem_of_In.
    apply (NoDup_length_incl (l' := seq 0 NPROC) Hnd); [rewrite length_seq; lia|done|].
    apply in_seq. pose proof (lookup_lt_Some _ _ _ Hj). lia.
Qed.

Lemma collected_step tbl v w px :
  collected tbl v px -> (forall b j, job tbl b j -> v < b -> w <= b) -> v < w ->
  collected tbl w (px ++ jobs v 0 tbl).
Proof.
  intros [Hs Hp] Hw Hvw. split.
  - assert (Hj : StronglySorted (runs_before tbl) (jobs v 0 tbl)).
    { assert (Hall : Forall (job tbl v) (jobs v 0 tbl)).
      { apply Forall_forall. intros j [_ H]%jobs_elem. by rewrite Nat.sub_0_r in H. }
      induction (jobs_sorted v 0 tbl) as [|j l _ IH H]; constructor; [apply IH; by inversion Hall|].
      inversion Hall as [|? ? Hj Hl]; subst. rewrite Forall_forall in H, Hl |- *.
      intros k Hk. exists v, v. split_and!; auto. }
    clear Hw. assert (Hpx : forall j, j ∈ px -> exists b, job tbl b j /\ b < v) by (intros; by apply Hp).
    clear Hp. induction Hs as [|j l Hl IH H]; [done|]. cbn [app].
    constructor; [apply IH; intros; apply Hpx; by right|].
    apply Forall_app. split; [done|]. apply Forall_forall. intros k [_ Hk]%jobs_elem.
    rewrite Nat.sub_0_r in Hk. destruct (Hpx j (list_elem_of_here _ _)) as (b & ? & ?).
    exists b, v. split_and!; auto.
  - intros j. rewrite elem_of_app, Hp, jobs_elem, Nat.sub_0_r. split.
    + intros [(b & ? & ?)|[_ H]]; [exists b; split; [done|lia]|by exists v].
    + intros (b & Hb & Hlt). destruct (Z.lt_trichotomy b v) as [|[->|Hgt]].
      * left. by exists b.
      * right. split; [lia|done].
      * specialize (Hw b j Hb Hgt). lia.
Qed.

(** Rounds still needed: one per job of burst time [v] or more, one if no job has
    burst time [v], and the last. *)
Definition at_least (v : Z) (tbl : list proc) : nat :=
  length (List.filter (fun p => ready 1 p && (v <=? p_burst_time p)) tbl).
Definition rounds (v : Z) (tbl : list proc) : nat :=
  if (at_least v tbl =? 0)%nat then 1%nat
  else (at_least v tbl + (if (length (jobs v 0 tbl) =? 0)%nat then 1 else 0) + 1)%nat.

Lemma at_least_step v w tbl :
  v < w -> (at_least w tbl + length (jobs v 0 tbl) <= at_least v tbl)%nat.
Proof.
  intros Hvw. generalize 0%nat; induction tbl as [|p tbl IH]; intros i; [done|].
  specialize (IH (S i)). unfold at_least in *. cbn [List.filter jobs]. rewrite length_app.
  destruct (ready 1 p); cbn [andb length]; [|lia].
  destruct (Z.leb_spec w (p_burst_time p)), (Z.leb_spec v (p_burst_time p)),
    (Z.eqb_spec (p_burst_time p) v); cbn [length]; lia.
Qed.

Lemma at_least_0 v tbl : at_least v tbl = 0%nat <-> all_below v tbl = true.
Proof.
  unfold at_least, all_below. induction tbl as [|p tbl IH]; [done|]. cbn [List.filter forallb].
  destruct (ready 1 p); cbn [andb orb negb]; [|done].
  destruct (Z.leb_spec v (p_burst_time p)), (Z.ltb_spec (p_burst_time p) v); cbn [length]; try lia; done.
Qed.

Lemma sjf_collect_ok tbl :
  (length tbl <= NPROC)%nat -> (forall b j, job tbl b j -> b < BIG) ->
  forall fuel v px, collected tbl v px -> v <= BIG -> (rounds v tbl <= fuel)%nat ->
  exists l, sjf_collect fuel tbl v px = SjfList l /\
    StronglySorted (runs_before tbl) l /\ (forall j, j ∈ l <-> exists b, job tbl b j).
Proof.
  intros Hn Hbig. induction fuel as [|f IH]; intros v px Hc Hv Hr.
  { unfold rounds in Hr. case_match; lia. }
  destruct (collected_length _ _ _ Hn Hc) as [Hlen Hfull]. cbn [sjf_collect].
  assert (Hdone : (forall b j, job tbl b j -> j ∈ px) -> exists l, SjfList px = SjfList l /\
    StronglySorted (runs_before tbl) l /\ (forall j, j ∈ l <-> exists b, job tbl b j)).
  { intros H. exists px. destruct Hc as [Hs Hp]. split_and!; try done. intros j. split.
    - intros (b & ? & _)%Hp. by exists b.
    - intros [b ?]. eauto. }
  destruct (Nat.ltb_spec (length px) NPROC); [|apply Hdone, Hfull; lia].
  rewrite sjf_scan_eq. cbn [andb].
  destruct (all_below v tbl) eqn:Eb.
  { assert (jobs v 0 tbl = []) as ->.
    { destruct (jobs v 0 tbl) as [|j l] eqn:E; [done|].
      assert (Hj : j ∈ jobs v 0 tbl) by (rewrite E; by left).
      apply jobs_elem in Hj as [_ Hj]. pose proof (proj1 (all_below_spec _ _) Eb _ _ Hj). lia. }
    rewrite app_nil_r, (proj2 (Nat.ltb_ge _ _) Hlen). apply Hdone. intros b j Hj.
    apply (proj2 Hc). exists b. split; [done|]. by eapply all_below_spec. }
  destruct (next_burst_spec v BIG tbl) as (H1 & H2 & H3). set (w := next_burst v BIG tbl) in *.
  assert (Hne : at_least v tbl <> 0%nat) by (rewrite at_least_0; congruence).
  assert (Hvw : v < w).
  { destruct H3 as [->|[? _]]; [|done]. destruct (Z.lt_ge_cases v BIG); [done|].
    rewrite (proj2 (all_below_spec v tbl)) in Eb; [done|]. intros b j Hj. specialize (Hbig b j Hj). lia. }
  assert (Hc' := collected_step _ _ _ _ Hc H2 Hvw).
  rewrite (proj2 (Nat.ltb_ge _ _) (proj1 (collected_length _ _ _ Hn Hc'))).
  apply IH; [done|done|].
  pose proof (at_least_step v w tbl Hvw) as Hstep. revert Hr. unfold rounds.
  rewrite (proj2 (Nat.eqb_neq _ _) Hne).
  destruct (Nat.eqb_spec (at_least w tbl) 0); [lia|].
  destruct H3 as [E|(_ & j & Hj)].
  { exfalso. apply n, at_least_0, all_below_spec. rewrite E. exact Hbig. }
  assert (Hlj : length (jobs w 0 tbl) <> 0%nat).
  { intros E. apply length_zero_iff_nil in E. assert (Hin : j ∈ jobs w 0 tbl).
    { apply jobs_elem. rewrite Nat.sub_0_r. split; [lia|done]. } rewrite E in Hin. by apply elem_of_nil in Hin. }
  rewrite (proj2 (Nat.eqb_neq _ _) Hlj).
  destruct (Nat.eqb_spec (length (jobs v 0 tbl)) 0); lia.
Qed.

Lemma sjf_collect_sorted tbl :
  (length tbl <= NPROC)%nat -> (forall b j, job tbl b j -> 0 <= b < BIG) ->
  exists l, sjf_collect SJF_FUEL tbl 0 [] = SjfList l /\
    StronglySorted (runs_before tbl) l /\ (forall j, j ∈ l <-> exists b, job tbl b j).
Proof.
  intros Hn Hb. apply sjf_collect_ok; [done|intros b j Hj; by apply (Hb b j)|..].
  - split; [constructor|]. intros j. split; [by intros ?%elem_of_nil|].
    intros (b & Hj & Hlt). specialize (Hb b j Hj). lia.
  - unfold BIG. lia.
  - assert (at_least 0 tbl <= length tbl)%nat by apply List.filter_length_le.
    unfold rounds, SJF_FUEL. unfold NPROC in Hn. repeat case_match; lia.
Qed.

(** The jobs drawn past had less than full confidence. *)
Definition unsure (tbl : list proc) (k : nat) : Prop :=
  forall p, tbl !! k = Some p -> p_confidence p < 100.

Lemma sjf_draw_spec now tbl l seed :
  match sjf_draw now tbl l seed with
  | (Some i, _) => exists pre post, l = pre ++ i :: post /\ Forall (unsure tbl) pre
  | (None, _) => Forall (unsure tbl) l
  end.
Proof.
  revert seed; induction l as [|j l IH]; intros seed; cbn [sjf_draw]; [constructor|].
  set (seed' := u32 _). specialize (IH seed').
  assert (Hskip : unsure tbl j ->
    match sjf_draw now tbl l seed' with
    | (Some i, _) => exists pre post, j :: l = pre ++ i :: post /\ Forall (unsure tbl) pre
    | (None, _) => Forall (unsure tbl) (j :: l)
    end).
  { intros Hu. destruct (sjf_draw now tbl l seed') as [[i|] ?]; [|by constructor].
    destruct IH as (pre & post & -> & H). exists (j :: pre), post. split; [done|by constructor]. }
  destruct (tbl !! j) as [p|] eqn:Ep; [|apply Hskip; intros p Hp; congruence].
  destruct (Z.ltb_spec (((seed / 65536) mod 32768) mod 100) (p_confidence p)) as [Hlt|Hge].
  - exists [], l. split; [done|constructor].
  - apply Hskip. intros q Hq. simplify_eq.
    pose proof (Z.mod_pos_bound ((seed / 65536) mod 32768) 100). lia.
Qed.

Lemma runs_before_asym tbl i j : runs_before tbl i j -> ~ runs_before tbl j i.
Proof.
  intros (b & b' & H1 & H2 & H3) (c & c' & H4 & H5 & H6).
  pose proof (job_inj _ _ _ _ H1 H5). pose proof (job_inj _ _ _ _ H2 H4). lia.
Qed.

Lemma sorted_before tbl pre i post k :
  StronglySorted (runs_before tbl) (pre ++ i :: post) -> k ∈ pre ++ i :: post ->
  runs_before tbl k i -> k ∈ pre.
Proof.
  intros Hs Hk Hb. apply elem_of_app in Hk as [|Hk]; [done|].
  assert (Hs' : StronglySorted (runs_before tbl) (i :: post)).
  { clear Hk. induction pre as [|x pre IH]; [done|]. inversion Hs; subst. auto. }
  inversion Hs' as [|? ? _ Hf]; subst. apply elem_of_cons in Hk as [->|Hk].
  - by apply runs_before_irrefl in Hb.
  - rewrite Forall_forall in Hf. by destruct (runs_before_asym _ _ _ Hb (Hf k Hk)).
Qed.

Lemma sjf_scheduler_spec s :
  (length (ptable s) <= NPROC)%nat ->
  (forall b j, job (ptable s) b j -> 0 <= b < BIG) ->
  exists r seed, _SJF_scheduler s = Ret r (set_sjf_seed seed s) /\
    ((r = -1 /\ forall b j, ~ job (ptable s) b j) \/
     (exists i b, r = Z.of_nat i /\ job (ptable s) b i /\
        forall k, runs_before (ptable s) k i -> unsure (ptable s) k)).
Proof.
  intros Hn Hb. destruct (sjf_collect_sorted _ Hn Hb) as (l & El & Hs & Hl).
  unfold _SJF_scheduler. munfold. rewrite El.
  pose proof (sjf_draw_spec (ticks s) (ptable s) l (sjf_seed s)) as Hd.
  destruct (sjf_draw _ _ _ _) as [[i|] seed].
  - exists (Z.of_nat i), seed. split; [done|]. right. destruct Hd as (pre & post & -> & Hf).
    assert (exists b, job (ptable s) b i) as [b Hi] by (apply Hl, elem_of_app; right; by left).
    exists i, b. split_and!; try done. intros k Hk.
    rewrite Forall_forall in Hf. apply Hf. eapply sorted_before; eauto.
    destruct Hk as (c & ? & Hc & _). apply Hl. by exists c.
  - destruct (last l) as [i|] eqn:Ei.
    + exists (Z.of_nat i), seed. split; [done|]. right. apply last_Some in Ei as [l' ->].
      assert (exists b, job (ptable s) b i) as [b Hi] by (apply Hl, elem_of_app; right; by left).
      exists i, b. split_and!; try done. intros k Hk. rewrite Forall_forall in Hd. apply Hd.
      destruct Hk as (c & ? & Hc & _). apply Hl. by exists c.
    + exists (-1), seed. split; [done|]. left. split; [done|]. apply last_None in Ei as ->.
      intros b j Hj. by apply (elem_of_nil j), Hl; exists b.
Qed.

(** C25: for burst times in [0, 1e9) the shortest-job-first scheduler terminates
    and returns a ready job of queue 1 such that every job ahead of it - shorter,
    or as short and in a lower slot - has confidence below 100; it returns -1 only
    if no job is ready. *)
Theorem sjf_picks_shortest s :
  (length (ptable s) <= NPROC)%nat ->
  (forall b j, job (ptable s) b j -> 0 <= b < BIG) ->
  exists r seed, _SJF_scheduler s = Ret r (set_sjf_seed seed s) /\
    ((r = -1 /\ forall b j, ~ job (ptable s) b j) \/
     (exists i b, r = Z.of_nat i /\ job (ptable s) b i /\
        forall k, runs_before (ptable s) k i -> unsure (ptable s) k)).
Proof. apply sjf_scheduler_spec. Qed.

Definition demo_sjf (b c : Z) : proc := set_confidence c (set_burst_time b (demo_ready 1)).
Definition demo_sjf_tbl : list proc := [demo_sjf 7 100; demo_sjf 2 100; demo_sjf 2 100].

Lemma sjf_picks_shortest_witness :
  exists r seed, _SJF_scheduler (demo_state demo_sjf_tbl) =
    Ret r (set_sjf_seed seed (demo_state demo_sjf_tbl)) /\ r = 1.
Proof.
  destruct (sjf_picks_shortest (demo_state demo_sjf_tbl)) as (r & seed & E & _).
  - cbn. unfold NPROC. lia.
  - intros b [|[|[|j]]] (p & Hp & _ & <-); cbn in Hp;
      [injection Hp as <-; cbn; unfold BIG; lia..|discriminate].
  - exists r, seed. split; [exact E|]. vm_compute in E. injection E as <-. reflexivity.
Defined.

(** A job of burst time above 1e9 keeps the collecting loop busy for ever: no
    amount of rounds is enough. *)
Definition demo_long : list proc := [demo_sjf (BIG + 1) 50].

Lemma sjf_collect_stuck fuel v :
  0 <= v <= BIG -> sjf_collect fuel demo_long v [] = SjfNoFuel.
Proof.
  revert v; induction fuel as [|f IH]; intros v Hv; [done|]. cbn [sjf_collect].
  rewrite sjf_scan_eq. unfold demo_long, next_burst, all_below, jobs, demo_sjf, BIG.
  cbn -[Z.ltb Z.eqb Z.min ready]. change (ready 1 _) with true. cbn [negb andb orb].
  unfold BIG in Hv.
  rewrite (proj2 (Z.ltb_lt v _)), (proj2 (Z.ltb_ge _ v)), (proj2 (Z.eqb_neq _ v)) by lia.
  apply IH. unfold BIG. lia.
Qed.

(** a job whose burst time is above 1e9 hangs the shortest-job-first
    scheduler: its collecting loop never ends, whatever the number of rounds. *)
Theorem sjf_long_burst_hangs fuel : sjf_collect fuel demo_long 0 [] = SjfNoFuel.
Proof. apply sjf_collect_stuck. unfold BIG. lia. Qed.

(** ** The scheduler loop *)

(** What the loop relies on: the sizes and ranges of its tables and counters, and
    that a process that can run has a kernel stack and a page table. *)
Record sched_ok (me : nat) (s : pstate) : Prop := mk_sched_ok {
  so_cpu : (me < length (cpus s))%nat;
  so_len : (length (ptable s) <= NPROC)%nat;
  so_index : 0 <= rr_index s < 64;
  so_queue : 0 <= c_queue (this me s) <= 2;
  so_burst : forall b j, job (ptable s) b j -> 0 <= b < BIG;
  so_arrival : forall j p, ptable s !! j = Some p -> ready 2 p = true -> p_arrival p < BIG;
  so_mem : forall j p, ptable s !! j = Some p -> p_state p = RUNNABLE ->
    p_kstack p <> 0 /\ p_pgdir p <> 0 }.

(** Nobody is ready in queue [q]. *)
Definition idle (q : Z) (tbl : list proc) : Prop :=
  forall j p, tbl !! j = Some p -> ready q p = false.

Definition picked (q : Z) (tbl : list proc) (r : Z) : Prop :=
  (r = -1 /\ idle q tbl) \/
  (exists i p, r = Z.of_nat i /\ tbl !! i = Some p /\ ready q p = true).

Lemma rr_scheduler_picks s :
  (length (ptable s) <= NPROC)%nat -> 0 <= rr_index s < 64 ->
  exists r x, _RR_scheduler s = Ret r (set_rr_index x s) /\ 0 <= x < 64 /\ picked 0 (ptable s) r.
Proof.
  intros Hn Hx. pose proof (rr_loop_spec NPROC (ptable s) (rr_index s) Hx) as H.
  assert (Hrange : forall n x, 0 <= x < 64 -> 0 <= fst (rr_loop n (ptable s) x) < 64).
  { induction n as [|n IH]; intros x Hx'; cbn [rr_loop]; [done|].
    assert (0 <= Z.rem (x + 1) (Z.of_nat NPROC) < 64) as Hr.
    { change (Z.of_nat NPROC) with 64. rewrite Z.rem_mod_nonneg by lia. apply Z.mod_pos_bound. lia. }
    repeat case_match; auto. }
  specialize (Hrange NPROC _ Hx). unfold _RR_scheduler. munfold.
  destruct (rr_loop NPROC (ptable s) (rr_index s)) as [x r]. exists r, x. split_and!; try done; try apply Hrange.
  destruct H as [(-> & Hk)|(k & Hk & -> & _ & Hr & _)].
  - left. split; [done|]. intros j p Hp. pose proof (lookup_lt_Some _ _ _ Hp) as Hj.
    destruct (after_surj (rr_index s) (Z.of_nat j) Hx) as (m & Hm & Em); [unfold NPROC in Hn; lia|].
    specialize (Hk m). rewrite Em in Hk. unfold ready_at in Hk. rewrite Nat2Z.id, Hp in Hk.
    apply Hk. unfold NPROC. lia.
  - right. unfold ready_at in Hr. pose proof (after_range (rr_index s) k).
    destruct (ptable s !! Z.to_nat _) as [p|] eqn:Ep; [|done].
    exists (Z.to_nat (after (rr_index s) k)), p. split_and!; try done. lia.
Qed.

(** The [switch] on the current queue. *)
Lemma pick_spec me s q :
  sched_ok me s -> 0 <= q <= 2 ->
  exists r x y,
    (if q =? 0 then _RR_scheduler else if q =? 1 then _SJF_scheduler
     else if q =? 2 then _FCFS_scheduler else _RR_scheduler) s =
    Ret r (set_rr_index x (set_sjf_seed y s)) /\ 0 <= x < 64 /\ picked q (ptable s) r.
Proof.
  intros Hok Hq. pose proof (so_index _ _ Hok).
  destruct (Z.eqb_spec q 0) as [->|]; [|destruct (Z.eqb_spec q 1) as [->|]].
  - destruct (rr_scheduler_picks s) as (r & x & E & Hx & Hp); [apply Hok|apply Hok|].
    exists r, x, (sjf_seed s). rewrite E. split_and!; try done; try apply Hx; by destruct s.
  - destruct (sjf_scheduler_spec s) as (r & y & E & Hp); [apply Hok|apply Hok|].
    exists r, (rr_index s), y. rewrite E. split; [by destruct s|]. split; [done|].
    destruct Hp as [[-> Hp]|(i & b & -> & (p & H1 & H2 & _) & _)].
    + left. split; [done|]. intros j p Hj. destruct (ready 1 p) eqn:Er; [|done].
      exfalso. by apply (Hp (p_burst_time p) j); exists p.
    + right. by exists i, p.
  - assert (q = 2) as -> by lia. cbn [Z.eqb Pos.eqb].
    exists (fcfs_loop 0 (ptable s) BIG (-1)), (rr_index s), (sjf_seed s).
    split; [by destruct s|]. split; [done|].
    destruct (fcfs_loop_spec 0 (ptable s) BIG (-1)) as [[-> Hp]|(j & p & -> & H1 & H2 & _)].
    + left. split; [done|]. intros j p Hj. destruct (ready 2 p) eqn:Er; [|done].
      specialize (Hp j p Hj Er). pose proof (so_arrival _ _ Hok j p Hj Er). lia.
    + right. by exists j, p.
Qed.

(** The queue the next pass looks at. *)
Definition next_queue (c : kcpu) : Z :=
  if c_runs c =? 0 then Z.rem (c_queue c + 1) 3 else c_queue c.

(** What the loop does to the state: [None] is [break], [Some i] a switch to [i]. *)
Definition loop_post (me : nat) (s : pstate) (r : option nat) (s' : pstate) : Prop :=
  match r with
  | Some i => exists p, ptable s !! i = Some p /\ p_state p = RUNNABLE /\
      next_queue (this me s) <= p_queue p <= 2 /\
      (forall q, next_queue (this me s) <= q < p_queue p -> idle q (ptable s)) /\
      ptable s' = <[i := set_state RUNNING (set_wait_time 0 p)]> (ptable s) /\
      c_proc (this me s') = Some i /\ c_queue (this me s') = p_queue p
  | None => ptable s' = ptable s /\ c_queue (this me s') = 2 /\ c_runs (this me s') = 0 /\
      forall q, next_queue (this me s) <= q <= 2 -> idle q (ptable s)
  end.

Lemma next_queue_range c : 0 <= c_queue c <= 2 -> 0 <= next_queue c <= 2.
Proof.
  intros H. unfold next_queue. case_match; [|done].
  rewrite Z.rem_mod_nonneg by lia. pose proof (Z.mod_pos_bound (c_queue c + 1) 3). lia.
Qed.

(** The state in which the switch finds the CPU. *)
Definition turn (me : nat) (s : pstate) : pstate :=
  set_cpus (<[me := set_c_queue (next_queue (this me s)) (this me s)]> (cpus s)) s.

Lemma turn_run me s {A} (f : unit -> M pstate A) :
  (me < length (cpus s))%nat ->
  (when (c_runs (this me s) =? 0)
    (upd_cpu me (fun c => set_c_queue (Z.rem (c_queue c + 1) 3) c)) ≫= f) s = f tt (turn me s).
Proof.
  intros H. unfold turn, next_queue, when. destruct (c_runs (this me s) =? 0); [done|].
  unfold mbind, M_MBind, M_bind, M_ret. f_equal. destruct s; unfold set_cpus, this in *; cbn in *.
  f_equal. symmetry. apply list_insert_id. rewrite nth_lookup. 
  destruct (lookup_lt_is_Some_2 _ _ H) as [c Hc]. rewrite Hc. by destruct c.
Qed.

Lemma turn_ok me s : sched_ok me s -> sched_ok me (turn me s).
Proof.
  intros [H1 H2 H3 H4 H5 H6 H7]. constructor; try done.
  - unfold turn. cbn. by rewrite length_insert.
  - unfold turn. rewrite this_set by done. cbn. by apply next_queue_range.
Qed.

(** The end of a pass that found process [i]. *)
Lemma dispatch_run me i p s :
  ptable s !! i = Some p -> p_kstack p <> 0 -> p_pgdir p <> 0 ->
  (updp i (set_wait_time 0) ;; upd_cpu me (set_c_proc (Some i)) ;; switchuvm i ;;
   updp i (set_state RUNNING) ;; mret (Some i)) s =
  Ret (Some i) (set_ptable (<[i := set_state RUNNING (set_wait_time 0 p)]> (ptable s))
    (set_cpus (<[me := set_c_proc (Some i) (this me s)]> (cpus s)) s)).
Proof.
  intros Hi Hk Hd. unfold switchuvm, getp, updp, upd_cpu. munfold. cbn -[Z.eqb].
  rewrite list_lookup_alter_eq, Hi. cbn -[Z.eqb].
  rewrite (proj2 (Z.eqb_neq _ _) Hk), (proj2 (Z.eqb_neq _ _) Hd).
  cbn. unfold set_ptable, set_cpus. cbn. f_equal. f_equal.
  apply list_eq. intros j. destruct (decide (i = j)) as [<-|Hne].
  - rewrite !list_lookup_alter_eq, Hi, list_lookup_insert_eq by (by eapply lookup_lt_Some). done.
  - by rewrite !list_lookup_alter_ne, list_lookup_insert_ne by done.
Qed.

(** The CPU's interrupt state and ptable.lock are left alone. *)
Definition same_lock (me : nat) (s s' : pstate) : Prop :=
  length (cpus s') = length (cpus s) /\ c_intr (this me s') = c_intr (this me s) /\
  pt_lock s' = pt_lock s.

Lemma same_lock_inside me s s' : same_lock me s s' -> inside me s -> inside me s'.
Proof. unfold inside. intros (-> & -> & ->). done. Qed.

Lemma scheduler_loop_spec fuel me s :
  sched_ok me s -> 3 - next_queue (this me s) <= Z.of_nat fuel ->
  exists r s', scheduler_loop fuel me s = Ret r s' /\ loop_post me s r s' /\
    same_lock me s s' /\ (r = None -> sched_ok me s').
Proof.
  revert s; induction fuel as [|fuel IH]; intros s Hok Hf;
    pose proof (next_queue_range _ (so_queue _ _ Hok)) as Hq; [lia|].
  pose proof (so_cpu _ _ Hok) as Hme. cbn [scheduler_loop].
  rewrite (bind_eq get _ _ _ _ eq_refl), turn_run by done.
  rewrite (bind_eq get _ _ _ _ eq_refl).
  assert (Et : this me (turn me s) = set_c_queue (next_queue (this me s)) (this me s)) by (by apply this_set).
  assert (Hme' : (me < length (cpus (turn me s)))%nat) by (unfold turn; cbn; by rewrite length_insert).
  destruct (pick_spec me (turn me s) (next_queue (this me s)) (turn_ok _ _ Hok) Hq)
    as (r & x & y & E & Hx & Hp).
  cbv zeta. rewrite Et, (bind_eq _ _ _ _ _ E). set (s1 := set_rr_index x _).
  change (ptable (turn me s)) with (ptable s) in Hp.
  destruct Hp as [[-> Hidle]|(i & p & -> & Hi & Hr)].
  - cbn [Z.eqb Pos.eqb]. rewrite (bind_eq (upd_cpu me (set_c_runs 0)) _ _ _ _ eq_refl),
      (bind_eq get _ _ _ _ eq_refl).
    set (s2 := set_cpus _ s1).
    assert (E2 : this me s2 = set_c_runs 0 (set_c_queue (next_queue (this me s)) (this me s))).
    { rewrite <- Et. apply this_set. exact Hme'. }
    assert (Hok2 : sched_ok me s2).
    { destruct Hok. constructor; try done; [|by rewrite E2]. cbn. by rewrite !length_insert. }
    assert (Hin2 : same_lock me s s2).
    { split_and!; [cbn; by rewrite !length_insert|by rewrite E2|done]. }
    rewrite E2. change (_NQUEUE - 1) with 2. cbn [c_queue set_c_runs set_c_queue].
    destruct (Z.eqb_spec (next_queue (this me s)) 2) as [E3|E3].
    + exists None, s2. split_and!; try done. split_and!; try done; [by rewrite E2|by rewrite E2|].
      intros q Hq'. assert (q = next_queue (this me s)) as -> by lia. done.
    + assert (Hn2 : next_queue (this me s2) = next_queue (this me s) + 1).
      { unfold next_queue at 1. rewrite E2. cbn. rewrite Z.rem_small; lia. }
      destruct (IH s2 Hok2) as (r & s' & H1 & H2 & H3 & H4); [lia|].
      exists r, s'. split_and!; [done| | |done];
        [|destruct Hin2 as (?&?&?), H3 as (?&?&?); split_and!; congruence].
      destruct r as [j|]; unfold loop_post in *; rewrite Hn2 in H2.
      * destruct H2 as (p & ? & ? & ? & Hi' & ?). exists p. do 2 (split; [done|]). split; [lia|].
        split; [|done].
        intros q Hq'. destruct (decide (q = next_queue (this me s))) as [->|]; [done|apply Hi'; lia].
      * destruct H2 as (? & ? & ? & Hi'). split_and!; try done.
        intros q Hq'. destruct (decide (q = next_queue (this me s))) as [->|]; [done|apply Hi'; lia].
  - unfold ready in Hr. apply andb_true_iff in Hr as [Hst%bool_decide_eq_true Hpq%Z.eqb_eq].
    destruct (so_mem _ _ Hok i p Hi Hst) as [Hk Hd].
    rewrite (proj2 (Z.eqb_neq _ _)) by lia. rewrite Nat2Z.id, (dispatch_run me i p s1 Hi Hk Hd).
    set (s3 := set_ptable _ _).
    assert (E3 : this me s3 = set_c_proc (Some i) (this me s1)) by (apply (this_set me _ s1); exact Hme').
    exists (Some i), s3. change (this me s1) with (this me (turn me s)) in E3. rewrite Et in E3.
    split_and!; [done| | |done].
    + exists p. rewrite E3, Hpq. split_and!; try done; lia.
    + split_and!; [cbn; by rewrite !length_insert|by rewrite E3|done].
Qed.

(** One entry into the scheduler's [for(;;)]. *)
Lemma scheduler_enter_spec me s :
  sched_ok me s -> outside me s -> ncli (c_intr (this me s)) = 0 ->
  exists r s', scheduler_enter me s = Ret r s' /\ loop_post me s r s' /\
    match r with
    | Some _ => inside me s'
    | None => sched_ok me s' /\ outside me s' /\ ncli (c_intr (this me s')) = 0
    end.
Proof.
  intros Hok (Hm & _ & Hl) Hn. set (c := c_intr (this me s)) in *.
  set (s0 := set_intr me (Spinlock.sti c) s).
  assert (Et0 : this me s0 = set_c_intr (Spinlock.sti c) (this me s)) by (by apply this_set).
  assert (Hout0 : outside me s0).
  { split_and!; [cbn; by rewrite length_insert| |done]. rewrite Et0. split; cbn; [|intros]; lia. }
  unfold scheduler_enter.
  rewrite (bind_eq (on_cpu me (modify Spinlock.sti)) _ s tt s0 eq_refl).
  rewrite (bind_eq _ _ _ _ _ (pt_acquire_run me s0 Hout0)).
  set (s1 := enter me s0). pose proof (enter_inside me s0 Hout0) as Hin1. fold s1 in Hin1.
  assert (Et1 : this me s1 = set_c_intr (mk_cpu 1 true false) (this me s)).
  { unfold s1, enter. change (this me (set_pt_lock ?l ?s)) with (this me s).
    unfold set_intr at 1. rewrite this_set by apply Hout0. rewrite Et0. cbn. by rewrite Hn. }
  assert (Hok1 : sched_ok me s1).
  { destruct Hok. constructor; try done; [apply Hin1|by rewrite Et1]. }
  pose proof (next_queue_range _ (so_queue _ _ Hok1)).
  destruct (scheduler_loop_spec 4 me s1 Hok1) as (r & s' & E & Hp & Hsl & Hok'); [lia|].
  rewrite (bind_eq _ _ _ _ _ E).
  assert (Hpost : loop_post me s r s').
  { revert Hp. unfold loop_post, next_queue. by rewrite Et1. }
  pose proof (same_lock_inside _ _ _ Hsl Hin1) as Hin'.
  destruct r as [i|]; [by exists (Some i), s'|].
  rewrite (bind_eq _ _ _ _ _ (pt_release_run me s' Hin')).
  exists None, (leave me s'). pose proof (leave_outside me s' Hin') as Hout'.
  assert (El : this me (leave me s') = set_c_intr (mk_cpu 0 true true) (this me s')).
  { unfold leave. change (this me (set_pt_lock ?l ?s)) with (this me s).
    unfold set_intr at 1. rewrite this_set by apply Hin'.
    destruct Hsl as (_ & -> & _). rewrite Et1. done. }
  split; [done|]. split_and!.
  - unfold loop_post in *. by rewrite El.
  - destruct (Hok' eq_refl). constructor; try done; [apply Hout'|by rewrite El].
  - done.
  - by rewrite El.
Qed.

(** C3: with the queue counters anywhere, burst times in queue 1 from 0 to 1e9
    (exclusive), arrival times in queue 2 below 1e9, and a stack and page table for
    every runnable process, the scheduler is work conserving: its entry into the
    loop ends within three passes, either switching to a runnable
    process - now RUNNING, its waiting time reset, ptable.lock held for it - that
    is in the first queue of this turn with anybody ready, or leaving the table as
    it was; and in that case the next entry looks at all three queues from 0, so a
    process ready in any of them is then run. *)
Theorem scheduler_work_conserving me s :
  sched_ok me s -> outside me s -> ncli (c_intr (this me s)) = 0 ->
  exists r s', scheduler_enter me s = Ret r s' /\ loop_post me s r s' /\
    match r with
    | Some _ => inside me s'
    | None => exists r' s'', scheduler_enter me s' = Ret r' s'' /\
        match r' with
        | Some i => inside me s'' /\ exists p, ptable s !! i = Some p /\ p_state p = RUNNABLE /\
            0 <= p_queue p <= 2 /\ (forall q, 0 <= q < p_queue p -> idle q (ptable s)) /\
            ptable s'' = <[i := set_state RUNNING (set_wait_time 0 p)]> (ptable s)
        | None => forall q, 0 <= q <= 2 -> idle q (ptable s)
        end
    end.
Proof.
  intros Hok Hout Hn. destruct (scheduler_enter_spec me s Hok Hout Hn) as (r & s' & E & Hp & Hr).
  exists r, s'. do 2 (split; [done|]). destruct r as [i|]; [done|].
  destruct Hr as (Hok' & Hout' & Hn'), Hp as (Ht & Hq & Hruns & _).
  destruct (scheduler_enter_spec me s' Hok' Hout' Hn') as (r' & s'' & E' & Hp' & Hr').
  assert (Hq0 : next_queue (this me s') = 0) by (unfold next_queue; rewrite Hq, Hruns; done).
  exists r', s''. split; [done|]. destruct r' as [i|]; unfold loop_post in Hp'; rewrite Hq0, Ht in Hp'.
  - split; [done|]. destruct Hp' as (p & H1 & H2 & H3 & H4 & H5 & _). by exists p.
  - apply Hp'.
Qed.

Definition demo_run : proc := set_pgdir 4096 (set_kstack 8192 (demo_fcfs 5)).

Lemma demo_run_ready i p :
  ([demo_run] : list proc) !! i = Some p -> p = demo_run.
Proof. destruct i as [|i]; cbn; [congruence|done]. Qed.

Lemma demo_sched_ok : sched_ok 0 (demo_state [demo_run]).
Proof.
  constructor; cbn -[Z.le Z.lt]; try (unfold NPROC; lia); try (unfold BIG; lia).
  - intros b j (p & Hp%demo_run_ready & Hr & _). subst p. discriminate Hr.
  - intros j p Hp%demo_run_ready _. subst p. reflexivity.
  - intros j p Hp%demo_run_ready _. subst p. done.
Qed.

(** On a machine whose only runnable process waits in queue 2, with the CPU about
    to look at queue 1, it is run at once. *)
Lemma scheduler_work_conserving_witness :
  exists s', scheduler_enter 0 (demo_state [demo_run]) = Ret (Some 0%nat) s' /\
    ptable s' = [set_state RUNNING (set_wait_time 0 demo_run)].
Proof.
  destruct (scheduler_work_conserving 0 (demo_state [demo_run]) demo_sched_ok) as (r & s' & E & H & _).
  - split_and!; [cbn; lia| |reflexivity]. split; cbn; lia.
  - reflexivity.
  - exists s'. destruct r as [i|]; [|vm_compute in E; discriminate E].
    assert (i = 0%nat) as -> by (vm_compute in E; congruence).
    split; [exact E|]. destruct H as (p & Hp%demo_run_ready & _ & _ & _ & Ht & _).
    subst p. exact Ht.
Defined.

(** ** Aging *)

Lemma aging_one_total now p : is_Some (aging_one now p).
Proof.
  unfold aging_one. case_bool_decide; [|by eexists]. case_match; [|by eexists].
  destruct (fmt_ok_cprintf (str "Process: %d has been moved from queue %d to queue %d due to aging." ++ NL)
    [AInt (p_pid p); AInt (p_queue p); AInt (p_queue p - 1)] eq_refl) as [o E].
  cbn [p_pid p_queue set_wait_time]. rewrite E. by eexists.
Qed.

(** What a tick does to a process, leaving out what is printed. *)
Definition aged (now : Z) (p : proc) : proc :=
  match aging_one now p with Some (p', _) => p' | None => p end.

Lemma mapM_aging now tbl :
  exists r, mapM (aging_one now) tbl = Some r /\ fst <$> r = aged now <$> tbl.
Proof.
  induction tbl as [|p tbl IH]; [by exists []|]. destruct IH as (r & E & Er).
  destruct (aging_one_total now p) as [[p' o] Ep]. exists ((p', o) :: r). cbn.
  rewrite Ep. cbn. rewrite E. cbn. split; [done|]. unfold aged at 1. rewrite Ep. by rewrite Er.
Qed.

Lemma _aging_run me s :
  outside me s ->
  exists s', _aging me s = Ret tt s' /\ ptable s' = aged (ticks s) <$> ptable s /\
    outside me s' /\ ticks s' = ticks s.
Proof.
  intros Hout. unfold _aging. rewrite (bind_eq _ _ _ _ _ (pt_acquire_run me s Hout)).
  rewrite (bind_eq get _ _ _ _ eq_refl).
  change (ticks (enter me s)) with (ticks s). change (ptable (enter me s)) with (ptable s).
  destruct (mapM_aging (ticks s) (ptable s)) as (r & -> & Er). cbn [of_option].
  rewrite (bind_eq (M_ret r) _ _ _ _ eq_refl), (bind_eq (modify _) _ _ _ _ eq_refl). set (s1 := set_ptable _ _).
  pose proof (enter_inside me s Hout) as Hin. change (inside me s1) in Hin.
  exists (leave me s1). rewrite (pt_release_run me s1 Hin). split_and!; try done.
  by apply leave_outside.
Qed.

Fixpoint aging_runs (n : nat) (me : nat) : M pstate unit :=
  match n with O => mret tt | S n' => _aging me ;; aging_runs n' me end.

Lemma aging_runs_spec n me s :
  outside me s ->
  exists s', aging_runs n me s = Ret tt s' /\
    forall j p, ptable s !! j = Some p -> ptable s' !! j = Some (Nat.iter n (aged (ticks s)) p).
Proof.
  revert s; induction n as [|n IH]; intros s Hout; [by exists s|].
  destruct (_aging_run me s Hout) as (s1 & E & Ht & Hout1 & Htk).
  destruct (IH s1 Hout1) as (s' & E' & H). exists s'. cbn [aging_runs].
  rewrite (bind_eq _ _ _ _ _ E). split; [done|]. intros j p Hp.
  rewrite (H j (aged (ticks s) p)), Htk by (rewrite Ht, list_lookup_fmap, Hp; done).
  by rewrite Nat.iter_succ_r.
Qed.

(** The three things a tick does to a runnable process. *)
Lemma aged_wait now p :
  p_state p = RUNNABLE -> 0 <= p_wait_time p < MAX_WAIT_TIME - 1 ->
  aged now p = set_wait_time (p_wait_time p + 1) p.
Proof.
  intros Hs Hw. unfold aged, aging_one, MAX_WAIT_TIME in *. rewrite bool_decide_true by done.
  cbn [p_wait_time set_wait_time]. rewrite i32_small by (unfold_int; lia).
  by replace (p_wait_time p + 1 >=? 800) with false by lia.
Qed.

Lemma aged_move now p :
  p_state p = RUNNABLE -> p_wait_time p = MAX_WAIT_TIME - 1 -> p_queue p <> 0 ->
  p_state (aged now p) = RUNNABLE /\ p_queue (aged now p) = p_queue p - 1 /\
  p_wait_time (aged now p) = 0.
Proof.
  intros Hs Hw Hq. unfold aged. destruct (aging_one_total now p) as [[p' o] E]. rewrite E.
  unfold aging_one in E. rewrite bool_decide_true in E by done.
  cbn [p_wait_time set_wait_time p_queue] in E. rewrite Hw in E.
  change (i32 (MAX_WAIT_TIME - 1 + 1) >=? MAX_WAIT_TIME) with true in E.
  unfold ctrue in E. rewrite (proj2 (Z.eqb_neq _ _) Hq) in E. cbn [negb andb] in E.
  destruct (Cprintf.cprintf _ _); [|done]. injection E as <- _. cbn. done.
Qed.

Lemma aged_top now p : p_state p = RUNNABLE -> p_queue p = 0 ->
  p_state (aged now p) = RUNNABLE /\ p_queue (aged now p) = 0.
Proof.
  intros Hs Hq. unfold aged, aging_one. rewrite bool_decide_true by done.
  cbn [p_wait_time set_wait_time p_queue]. rewrite Hq. unfold ctrue. cbn [Z.eqb negb].
  rewrite andb_false_r. done.
Qed.

Lemma aged_top_iter now n p : p_state p = RUNNABLE -> p_queue p = 0 ->
  p_state (Nat.iter n (aged now) p) = RUNNABLE /\ p_queue (Nat.iter n (aged now) p) = 0.
Proof. intros Hs Hq. induction n as [|n [IH1 IH2]]; [done|]. by apply aged_top. Qed.

(** A full wait moves the process one queue up. *)
Lemma aged_up now k p :
  p_state p = RUNNABLE -> p_queue p <> 0 -> 0 <= p_wait_time p ->
  p_wait_time p + Z.of_nat k = MAX_WAIT_TIME - 1 ->
  let p' := Nat.iter (S k) (aged now) p in
  p_state p' = RUNNABLE /\ p_queue p' = p_queue p - 1 /\ p_wait_time p' = 0.
Proof.
  revert p; induction k as [|k IH]; intros p Hs Hq Hw Hk.
  - apply aged_move; [done|lia|done].
  - rewrite Nat.iter_succ_r. rewrite aged_wait by (done || lia).
    by apply (IH (set_wait_time (p_wait_time p + 1) p)); cbn; [..|lia|lia].
Qed.

Lemma aged_to_top now n q p :
  p_state p = RUNNABLE -> p_queue p = Z.of_nat q -> 0 <= p_wait_time p < MAX_WAIT_TIME ->
  (800 * q <= n)%nat ->
  p_state (Nat.iter n (aged now) p) = RUNNABLE /\ p_queue (Nat.iter n (aged now) p) = 0.
Proof.
  revert n p; induction q as [|q IH]; intros n p Hs Hq Hw Hn; [by apply aged_top_iter|].
  set (k := Z.to_nat (MAX_WAIT_TIME - 1 - p_wait_time p)). unfold MAX_WAIT_TIME in *.
  replace n with ((n - S k) + S k)%nat by lia. rewrite Nat.iter_add.
  destruct (aged_up now k p) as (H1 & H2 & H3); [done|lia|lia|unfold MAX_WAIT_TIME; lia|].
  apply IH; [done|lia|lia|lia].
Qed.

(** C26: aging prevents starvation: whatever queue a runnable process is in and
    however long it has waited, 800 ticks per queue bring it to the round-robin
    queue, still runnable. *)
Theorem aging_no_starvation me s j p n :
  outside me s -> ptable s !! j = Some p -> p_state p = RUNNABLE ->
  0 <= p_queue p -> 0 <= p_wait_time p < MAX_WAIT_TIME ->
  MAX_WAIT_TIME * p_queue p <= Z.of_nat n ->
  exists s' p', aging_runs n me s = Ret tt s' /\ ptable s' !! j = Some p' /\
    p_state p' = RUNNABLE /\ p_queue p' = 0.
Proof.
  intros Hout Hp Hs Hq Hw Hn. destruct (aging_runs_spec n me s Hout) as (s' & E & H).
  eexists s', _. split; [done|]. split; [by apply H|]. unfold MAX_WAIT_TIME in Hn.
  apply (aged_to_top _ n (Z.to_nat (p_queue p))); (done || lia).
Qed.

Lemma aging_no_starvation_witness :
  exists s' p', aging_runs 1600 0 (demo_state [demo_run]) = Ret tt s' /\
    ptable s' !! 0%nat = Some p' /\ p_state p' = RUNNABLE /\ p_queue p' = 0.
Proof.
  apply (aging_no_starvation 0 (demo_state [demo_run]) 0 demo_run 1600);
    try reflexivity; cbn; unfold MAX_WAIT_TIME; try lia.
  split_and!; [cbn; lia| |reflexivity]. split; cbn; lia.
Defined.
