(* ===== verification/ProcLife.v ===== *)
(** The life of a process: [allocproc], [userinit], [growproc], [fork], [exit] and
    [wait] of [proc.c].

    These routines also call the memory and file-system code.  That code is an
    interface here ([Class ProcEnv]), acting on a state of its own beside the
    process table. *)

From S2P Require Import Prelude CString Printf Locks ProcDefs Sched.

(** What [proc.c] calls of kalloc.c, vm.c, file.c, fs.c and log.c.  Addresses are
    machine words, 0 the null pointer; files and inodes are table indices. *)
Class ProcEnv (E : Type) := {
  env_kalloc : M E Z;
  env_kfree : Z -> M E unit;
  env_setupkvm : M E Z;
  env_inituvm : Z -> M E unit;
  env_allocuvm : Z -> Z -> Z -> M E Z;
  env_deallocuvm : Z -> Z -> Z -> M E Z;
  env_copyuvm : Z -> Z -> M E Z;
  env_freevm : Z -> M E unit;
  env_filedup : nat -> M E nat;
  env_fileclose : nat -> M E unit;
  env_idup : option nat -> M E (option nat);
  env_iput : option nat -> M E unit;   (* between begin_op() and end_op() *)
  env_namei_root : M E (option nat) }.

Definition FL_IF : Z := 512.
Definition SEG_UCODE : Z := 3.
Definition SEG_UDATA : Z := 4.
Definition DPL_USER : Z := 3.

(** The trap frame [userinit] builds: all zero but for these. *)
Definition tf_init : trapframe :=
  let cs := Z.lor (Z.shiftl SEG_UCODE 3) DPL_USER in
  let ds := Z.lor (Z.shiftl SEG_UDATA 3) DPL_USER in
  mk_trapframe 0 0 0 0 0 0 0 0 0 0 ds ds 0 0 0 cs FL_IF PGSIZE ds.

(** The channel a process sleeps on in [wait] is its own address. *)
Definition chan_of (o : option nat) : chan :=
  match o with Some i => CProc i | None => CNull end.

(** Slots of processes that [exit] hands to init. *)
Definition reparent (cur : nat) (ini : option nat) (p : proc) : proc :=
  if bool_decide (p_parent p = Some cur) then set_parent ini p else p.

(** The loop of [exit] over the table, in table order: every child of [cur] goes to
    [initproc], and a zombie child wakes it. *)
Fixpoint exit_loop (n : nat) (j : nat) (cur : nat) : M pstate unit :=
  match n with
  | O => mret tt
  | S n' =>
      p ← getp j;
      (if bool_decide (p_parent p = Some cur) then
        s ← get;
        updp j (set_parent (initproc s)) ;;
        when (bool_decide (p_state p = ZOMBIE)) (wakeup1 (chan_of (initproc s)))
       else mret tt) ;;
      exit_loop n' (S j) cur
  end.

(** What [wait] resets in the slot of a zombie it has found. *)
Definition reaped (now : Z) (p : proc) : proc :=
  set_state UNUSED (set_killed 0 (set_arrival (i32 now) (set_consecutive_runs 0
    (set_burst_time 2 (set_confidence 50 (set_wait_time 0 (set_queue 2
      (set_sc (replicate NSYSCALLS 0) (set_name [] (set_parent None (set_pid 0
        (set_kstack 0 p)))))))))))).

(** What [allocproc] sets in a slot once it has a kernel stack. *)
Definition born (now : Z) (p : proc) : proc :=
  set_arrival (i32 now) (set_consecutive_runs 0 (set_burst_time 2 (set_confidence 50
    (set_wait_time 0 (set_queue 0 (set_sc (replicate NSYSCALLS 0)
      (set_context_eip InForkret p))))))).

Section Life.
Context {E : Type} `{ProcEnv E}.

(** The whole state: the process table's, and that of the code behind the interface. *)
Definition kst : Type := pstate * E.
Definition P {A} (m : M pstate A) : M kst A := zoom fst (fun s k => (s, snd k)) m.
Definition X {A} (m : M E A) : M kst A := zoom snd (fun e k => (fst k, e)) m.

Definition allocproc (me : nat) : M kst (option nat) :=
  P (pt_acquire me) ;;
  k ← get;
  match find_slot (fun p => bool_decide (p_state p = UNUSED)) (ptable (fst k)) with
  | None => P (pt_release me) ;; mret None
  | Some i =>
      P (updp i (set_state EMBRYO)) ;;
      let pid := nextpid (fst k) in
      P (updp i (set_pid pid)) ;;
      (if pid =? INT_MAX then faults Overflow else P (modify (set_nextpid (pid + 1)))) ;;
      P (pt_release me) ;;
      stk ← X env_kalloc;
      P (updp i (set_kstack stk)) ;;
      if stk =? 0 then
        P (updp i (set_state UNUSED)) ;; mret None
      else
        k ← get;
        P (updp i (born (ticks (fst k)))) ;;
        mret (Some i)
  end.

Definition userinit (me : nat) : M kst unit :=
  r ← allocproc me;
  P (modify (set_initproc r)) ;;
  i ← of_option NullDeref r;
  d ← X env_setupkvm;
  P (updp i (set_pgdir d)) ;;
  if d =? 0 then panic "userinit: out of memory?"
  else
    X (env_inituvm d) ;;
    P (updp i (set_sz PGSIZE)) ;;
    P (updp i (set_tf tf_init)) ;;
    P (updp i (set_name (str "initcode"))) ;;
    c ← X env_namei_root;
    P (updp i (set_cwd c)) ;;
    P (pt_acquire me) ;;
    P (updp i (set_state RUNNABLE)) ;;
    P (pt_release me).

Definition growproc (me : nat) (n : Z) : M kst Z :=
  i ← P (myproc me);
  p ← P (getp i);
  sz ← (if n >? 0 then X (env_allocuvm (p_pgdir p) (p_sz p) (u32 (p_sz p + n)))
        else if n <? 0 then X (env_deallocuvm (p_pgdir p) (p_sz p) (u32 (p_sz p + n)))
        else mret (p_sz p));
  if ctrue n && (sz =? 0) then mret (-1)
  else
    P (updp i (set_sz sz)) ;;
    P (switchuvm i) ;;
    mret 0.

(** [for(i = 0; i < NOFILE; i++) if(curproc->ofile[i]) np->ofile[i] = filedup(...)] *)
Fixpoint dup_files (fs : list (option nat)) (fd : nat) (np : nat) : M kst unit :=
  match fs with
  | [] => mret tt
  | o :: fs' =>
      match o with
      | Some f => f' ← X (env_filedup f);
                  P (updp np (fun p => set_ofile (<[fd := Some f']> (p_ofile p)) p))
      | None => mret tt
      end ;;
      dup_files fs' (S fd) np
  end.

(** [fork] after [allocproc] has returned [np]. *)
Definition fork_copy (me : nat) (cur np : nat) : M kst Z :=
  p ← P (getp cur);
  d ← X (env_copyuvm (p_pgdir p) (p_sz p));
  P (updp np (set_pgdir d)) ;;
  if d =? 0 then
    q ← P (getp np);
    X (env_kfree (p_kstack q)) ;;
    P (updp np (set_kstack 0)) ;;
    P (updp np (set_state UNUSED)) ;;
    mret (-1)
  else
    P (updp np (set_sz (p_sz p))) ;;
    P (updp np (set_parent (Some cur))) ;;
    P (updp np (set_tf (p_tf p))) ;;
    P (updp np (fun q => set_tf (set_eax 0 (p_tf q)) q)) ;;
    dup_files (p_ofile p) 0 np ;;
    c ← X (env_idup (p_cwd p));
    P (updp np (set_cwd c)) ;;
    P (updp np (set_name (p_name p))) ;;
    q ← P (getp np);
    let pid := p_pid q in
    P (pt_acquire me) ;;
    (if (p_pid p >? 2) && (pid >? 2) then P (updp np (set_queue 2)) else mret tt) ;;
    P (updp np (set_state RUNNABLE)) ;;
    P (pt_release me) ;;
    mret pid.

Definition fork (me : nat) : M kst Z :=
  cur ← P (myproc me);
  r ← allocproc me;
  match r with
  | None => mret (-1)
  | Some np => fork_copy me cur np
  end.

Fixpoint close_files (fs : list (option nat)) (fd : nat) (cur : nat) : M kst unit :=
  match fs with
  | [] => mret tt
  | o :: fs' =>
      match o with
      | Some f => X (env_fileclose f) ;;
                  P (updp cur (fun p => set_ofile (<[fd := None]> (p_ofile p)) p))
      | None => mret tt
      end ;;
      close_files fs' (S fd) cur
  end.

(** The part of [exit] that runs with ptable.lock held, up to [sched]. *)
Definition exit_locked (me : nat) (cur : nat) : M pstate unit :=
  p ← getp cur;
  wakeup1 (chan_of (p_parent p)) ;;
  exit_loop NPROC 0 cur ;;
  updp cur (set_state ZOMBIE) ;;
  sched me ;;
  mret tt.

(** [exit] up to [sched], from which it does not come back. *)
Definition exit (me : nat) : M kst unit :=
  cur ← P (myproc me);
  k ← get;
  if bool_decide (initproc (fst k) = Some cur) then panic "init exiting"
  else
    p ← P (getp cur);
    close_files (p_ofile p) 0 cur ;;
    X (env_iput (p_cwd p)) ;;
    P (updp cur (set_cwd None)) ;;
    P (pt_acquire me) ;;
    P (exit_locked me cur).

(** One turn of the [for(;;)] of [wait], with ptable.lock held: [Some r] is
    [return r], [None] is the call of [sleep], up to its [sched]. *)
Definition wait_turn (me : nat) (cur : nat) : M kst (option Z) :=
  k ← get;
  let child p := bool_decide (p_parent p = Some cur) in
  match find_slot (fun p => child p && bool_decide (p_state p = ZOMBIE)) (ptable (fst k)) with
  | Some j =>
      p ← P (getp j);
      X (env_kfree (p_kstack p)) ;;
      X (env_freevm (p_pgdir p)) ;;
      P (updp j (reaped (ticks (fst k)))) ;;
      P (pt_release me) ;;
      mret (Some (p_pid p))
  | None =>
      c ← P (getp cur);
      if negb (existsb child (ptable (fst k))) || ctrue (p_killed c) then
        P (pt_release me) ;; mret (Some (-1))
      else
        P (sleep me (CProc cur) false) ;; mret None
  end.

Definition wait (me : nat) : M kst (option Z) :=
  cur ← P (myproc me);
  P (pt_acquire me) ;;
  wait_turn me cur.

(** [wait] when it is run again after its [sleep]. *)
Definition wait_resume (me : nat) : M kst (option Z) :=
  cur ← P (myproc me);
  P (sleep_resume me cur false) ;;
  wait_turn me cur.
End Life.

Arguments kst : clear implicits.
