(* ===== verification/ProcInfo.v ===== *)
(** The calls of [proc.c] that count system calls and report on, or tune, the
    processes: [_log_syscall], [report_syscalls_count], [sort_syscalls],
    [get_most_invoked], [list_all_processes], [set_sjf_info], [set_queue],
    [report_all_processes] and [procdump]; also [mycpu] and [cpuid]. *)

From S2P Require Import Prelude CString Printf Locks ProcDefs Sched.

Definition syscall_names : list (list Z) := str <$>
  ["fork"; "exit"; "wait"; "pipe"; "read"; "kill"; "exec"; "fstat"; "chdir"; "dup"; "getpid";
   "sbrk"; "sleep"; "uptime"; "open"; "write"; "mknod"; "unlink"; "link"; "mkdir"; "close";
   "create_palindrome"; "move_file"; "sort_syscalls"; "get_most_invoked_syscall";
   "list_all_processes"; "set_sjf_info"; "set_queue"; "report_all_processes";
   "total_syscalls_count"; "fibonacci_number"; "open_sharedmem"; "close_sharedmem";
   "calculate_factorial"]%string.

Definition states_names (st : procstate) : list Z :=
  str match st with
      | UNUSED => "unused" | EMBRYO => "embryo" | SLEEPING => "sleep "
      | RUNNABLE => "runble" | RUNNING => "run   " | ZOMBIE => "zombie"
      end.

Module Info.

(** [apicid] is what lapicid() reads on the CPU the code runs on. *)
Definition mycpu (me : nat) (apicid : Z) : M pstate nat :=
  s ← get;
  if intr (c_intr (this me s)) then panic "mycpu called with interrupts enabled"
  else
    match list_find (fun c => c_apicid c = apicid) (cpus s) with
    | Some (i, _) => mret i
    | None => panic "unknown apicid"
    end.

Definition cpuid (me : nat) (apicid : Z) : M pstate Z :=
  i ← mycpu me apicid; mret (Z.of_nat i).

Definition tot_acquire (me : nat) : M pstate unit :=
  l ← gets total_lock; l' ← on_cpu me (Spinlock.acquire me l); modify (set_total_lock l').
Definition tot_release (me : nat) : M pstate unit :=
  l ← gets total_lock; l' ← on_cpu me (Spinlock.release me l); modify (set_total_lock l').

Definition syscall_weight (num : Z) : Z :=
  if num =? 15 then 3 else if num =? 16 then 2 else 1.

(** [p->sc[num - 1]++]. *)
Definition count_call (num : Z) (sc : list Z) : option (list Z) :=
  if num - 1 <? 0 then None
  else n ← sc !! Z.to_nat (num - 1); Some (<[Z.to_nat (num - 1) := i32 (n + 1)]> sc).

Definition _log_syscall (me : nat) (num : Z) : M pstate unit :=
  tot_acquire me ;;
  modify (fun s => set_total_count (i32 (total_count s + syscall_weight num)) s) ;;
  upd_cpu me (fun c => set_c_syscalls (i32 (c_syscalls c + syscall_weight num)) c) ;;
  tot_release me ;;
  i ← myproc me;
  p ← getp i;
  sc ← of_option OutOfBounds (count_call num (p_sc p));
  updp i (set_sc sc).

Fixpoint report_cpus (i : Z) (cs : list kcpu) : M pstate unit :=
  match cs with
  | [] => mret tt
  | c :: cs' => print (str "CPU %d: %d" ++ NL) [AInt i; AInt (c_syscalls c)] ;; report_cpus (i + 1) cs'
  end.

Definition report_syscalls_count : M pstate Z :=
  print (str "Number of system calls for each cpu" ++ NL) [] ;;
  print (str "-----------------------------------" ++ NL) [] ;;
  s ← get;
  report_cpus 0 (cpus s) ;;
  print (str "Total: %d" ++ NL) [AInt (total_count s)] ;;
  mret (total_count s).

(** The loop that prints the calls made at least once. *)
Fixpoint print_calls (i : nat) (sc : list Z) : M pstate unit :=
  match sc with
  | [] => mret tt
  | n :: sc' =>
      when (ctrue n)
        (nm ← of_option OutOfBounds (syscall_names !! i);
         print (str "%d %s: %d times" ++ NL) [AInt (Z.of_nat i + 1); AStr nm; AInt n]) ;;
      print_calls (S i) sc'
  end.

Definition sort_syscalls (me : nat) (pid : Z) : M pstate Z :=
  pt_acquire me ;;
  s ← get;
  match find_slot (fun p => p_pid p =? pid) (ptable s) with
  | Some i =>
      p ← getp i;
      print_calls 0 (p_sc p) ;;
      pt_release me ;;
      mret 0
  | None =>
      print (str "No process with id = %d!" ++ NL) [AInt pid] ;;
      pt_release me ;;
      print (str "sort_syscalls system call failed" ++ NL) [] ;;
      mret (-1)
  end.

(** [max] and [max_i] after the loop over [sc]. *)
Fixpoint most_loop (i : Z) (sc : list Z) (max max_i : Z) : Z * Z :=
  match sc with
  | [] => (max, max_i)
  | n :: sc' => if n >? max then most_loop (i + 1) sc' n i else most_loop (i + 1) sc' max max_i
  end.

Definition get_most_invoked (me : nat) (pid : Z) : M pstate Z :=
  pt_acquire me ;;
  s ← get;
  match find_slot (fun p => p_pid p =? pid) (ptable s) with
  | Some i =>
      p ← getp i;
      let '(max, max_i) := most_loop 0 (p_sc p) 0 (-1) in
      (if max =? 0 then print (str "No system call in process %d!" ++ NL) [AInt pid]
       else
         nm ← of_option OutOfBounds (syscall_names !! Z.to_nat max_i);
         print (str "Most invoked system call in process %d %s: %d times" ++ NL)
           [AInt pid; AStr nm; AInt max]) ;;
      pt_release me ;;
      mret 0
  | None =>
      print (str "No process with id = %d!" ++ NL) [AInt pid] ;;
      pt_release me ;;
      print (str "get_most_invoked_call system call failed" ++ NL) [] ;;
      mret (-1)
  end.

Fixpoint list_loop (p_count : Z) (tbl : list proc) : M pstate bool :=
  match tbl with
  | [] => mret false
  | p :: tbl' =>
      if ctrue (p_pid p) then
        let sum := fold_left (fun a n => i32 (a + n)) (p_sc p) 0 in
        print (str "%d. %s (id = %d): %d syscalls called" ++ NL)
          [AInt p_count; AStr (p_name p); AInt (p_pid p); AInt sum] ;;
        list_loop (p_count + 1) tbl' ;;
        mret true
      else list_loop p_count tbl'
  end.

Definition list_all_processes (me : nat) : M pstate Z :=
  pt_acquire me ;;
  s ← get;
  proc_flag ← list_loop 1 (ptable s);
  pt_release me ;;
  if (proc_flag : bool) then mret 0
  else print (str "No processes to show" ++ NL) [] ;; mret (-1).

Definition set_sjf_info (me : nat) (pid burst confidence : Z) : M pstate Z :=
  pt_acquire me ;;
  if (pid <=? 0) || (pid >=? Z.of_nat NPROC) then
    print (str "Invalid pid" ++ NL) [] ;; mret (-1)
  else
    s ← get;
    match find_slot (fun p => p_pid p =? pid) (ptable s) with
    | Some i =>
        updp i (set_burst_time burst) ;;
        updp i (set_confidence confidence) ;;
        pt_release me ;;
        mret 0
    | None => pt_release me ;; mret (-1)
    end.

Definition set_queue (me : nat) (pid queue : Z) : M pstate Z :=
  if (pid <=? 0) || (pid >=? Z.of_nat NPROC) then
    print (str "Invalid pid" ++ NL) [] ;; mret (-1)
  else if (queue >? 3) || (queue <? 0) then
    print (str "Invalid queue" ++ NL) [] ;; mret (-1)
  else
    pt_acquire me ;;
    s ← get;
    match find_slot (fun p => p_pid p =? pid) (ptable s) with
    | Some i =>
        p ← getp i;
        if p_queue p =? queue then
          print (str "The process with pid %d is already in queue %d" ++ NL) [AInt pid; AInt queue] ;;
          pt_release me ;;
          mret (-1)
        else
          updp i (ProcDefs.set_queue queue) ;;
          updp i (set_arrival (i32 (ticks s))) ;;
          pt_release me ;;
          mret 0
    | None => pt_release me ;; mret (-1)
    end.

Definition report_header : list Z :=
  str "Name" ++ TAB ++ str "Pid" ++ TAB ++ str "State" ++ TAB ++ str "Queue" ++ TAB ++
  str "Wait time" ++ TAB ++ str "Confidence" ++ TAB ++ str "Burst time" ++ TAB ++
  str "Consecutive runs" ++ TAB ++ str "Arrival" ++ NL.
Definition report_format : list Z :=
  str "%s" ++ TAB ++ str "%d" ++ TAB ++ str "%s" ++ TAB ++ str "%d" ++ TAB ++ str "%d" ++ TAB ++ TAB ++
  str "%d" ++ TAB ++ TAB ++ str "%d" ++ TAB ++ TAB ++ str "%d" ++ TAB ++ TAB ++ TAB ++ str "%d" ++ NL.

Fixpoint report_loop (tbl : list proc) : M pstate unit :=
  match tbl with
  | [] => mret tt
  | p :: tbl' =>
      when (negb (p_pid p =? 0))   (* p->pid == UNUSED *)
        (print report_format
          [AStr (p_name p); AInt (p_pid p); AStr (states_names (p_state p)); AInt (p_queue p);
           AInt (p_wait_time p); AInt (p_confidence p); AInt (p_burst_time p);
           AInt (p_consecutive_runs p); AInt (p_arrival p)]) ;;
      report_loop tbl'
  end.

Definition report_all_processes (me : nat) : M pstate Z :=
  pt_acquire me ;;
  print report_header [] ;;
  s ← get;
  report_loop (ptable s) ;;
  pt_release me ;;
  mret 0.

(** [procdump]; [pcs i] is the call chain getcallerpcs reads off the stack of the
    sleeping process in slot [i]. *)
Fixpoint dump_pcs (l : list Z) : M pstate unit :=
  match l with
  | [] => mret tt
  | pc :: l' => if pc =? 0 then mret tt else print (str " %p") [AInt pc] ;; dump_pcs l'
  end.

Fixpoint dump_loop (pcs : nat -> list Z) (i : nat) (tbl : list proc) : M pstate unit :=
  match tbl with
  | [] => mret tt
  | p :: tbl' =>
      (if bool_decide (p_state p = UNUSED) then mret tt
       else
         print (str "%d %s %s") [AInt (p_pid p); AStr (states_names (p_state p)); AStr (p_name p)] ;;
         when (bool_decide (p_state p = SLEEPING)) (dump_pcs (take 10 (pcs i))) ;;
         print NL []) ;;
      dump_loop pcs (S i) tbl'
  end.

Definition procdump (pcs : nat -> list Z) : M pstate unit :=
  s ← get; dump_loop pcs 0 (ptable s).

End Info.
