(* ===== verification/Guarded.v ===== *)
(** A data structure protected by a spin lock of its own, as most of the kernel's
    are: the CPU running the code, the lock, the data, and the channels [wakeup]
    has been called on.  A routine takes the lock, works on the data and releases
    it; the two [_run] lemmas are all the clients need of [Locks]. *)

From S2P Require Import Prelude Locks.

Record guarded (A : Type) := mk_g {
  g_cpu : cpu;
  g_lk : spinlock;
  g_val : A;
  g_wakes : list chan }.
Arguments mk_g {A} g_cpu g_lk g_val g_wakes.
Arguments g_cpu {A} g.
Arguments g_lk {A} g.
Arguments g_val {A} g.
Arguments g_wakes {A} g.

Section Guarded.
Context {A : Type}.
Implicit Types (g : guarded A) (v : A) (w : list chan).

Definition g_acquire (me : nat) : M (guarded A) unit :=
  g ← get;
  lk ← zoom g_cpu (fun c g => mk_g c (g_lk g) (g_val g) (g_wakes g)) (Spinlock.acquire me (g_lk g));
  modify (fun g => mk_g (g_cpu g) lk (g_val g) (g_wakes g)).
Definition g_release (me : nat) : M (guarded A) unit :=
  g ← get;
  lk ← zoom g_cpu (fun c g => mk_g c (g_lk g) (g_val g) (g_wakes g)) (Spinlock.release me (g_lk g));
  modify (fun g => mk_g (g_cpu g) lk (g_val g) (g_wakes g)).

Definition g_get : M (guarded A) A := gets g_val.
Definition g_mod (f : A -> A) : M (guarded A) unit :=
  modify (fun g => mk_g (g_cpu g) (g_lk g) (f (g_val g)) (g_wakes g)).
Definition g_wakeup (ch : chan) : M (guarded A) unit :=
  modify (fun g => mk_g (g_cpu g) (g_lk g) (g_val g) (g_wakes g ++ [ch])).

(** [sleep(ch, &lock)] at turn [k] of the loop around it: the lock is released,
    and taken again when the process resumes. *)
Definition g_sleep {B} (me : nat) (ch : chan) (k : Z) : M (guarded A) B :=
  g_release me ;; sleep_on ch k.

(** Nobody holds the lock and interrupts are nested properly. *)
Definition g_quiet g : Prop := g_lk g = Spinlock.initlock /\ Spinlock.cpu_ok (g_cpu g).

(** The state inside the section entered from [g], and after it has been left. *)
Definition in_cs (me : nat) g v w : guarded A :=
  mk_g (mk_cpu (ncli (g_cpu g) + 1)
         (if ncli (g_cpu g) =? 0 then intr (g_cpu g) else intena (g_cpu g)) false)
    (mk_spinlock 1 (Some me)) v w.
Definition out_cs g v w : guarded A :=
  mk_g (Sleeplock.settle (g_cpu g)) Spinlock.initlock v w.

Lemma g_acquire_run me g :
  g_quiet g -> g_acquire me g = Ret tt (in_cs me g (g_val g) (g_wakes g)).
Proof.
  intros [Hl Hc]. unfold g_acquire, zoom. munfold. rewrite Hl. by rewrite Spinlock.acquire_run.
Qed.

Lemma g_release_run me g v w :
  g_quiet g -> g_release me (in_cs me g v w) = Ret tt (out_cs g v w).
Proof.
  intros [Hl [Hn Hi]]. unfold g_release, zoom, in_cs. munfold. cbn [g_cpu g_lk g_val g_wakes].
  pose proof (Spinlock.release_run me (Sleeplock.settle (g_cpu g)) Hn) as Hr. cbn in Hr. rewrite Hr.
  unfold out_cs, Sleeplock.settle. do 2 f_equal.
  destruct (Z.eqb_spec (ncli (g_cpu g)) 0) as [E|E]; cbn; [done|]. by rewrite Hi by lia.
Qed.

Lemma g_get_run me g v w : g_get (in_cs me g v w) = Ret v (in_cs me g v w).
Proof. done. Qed.
Lemma g_mod_run me f g v w : g_mod f (in_cs me g v w) = Ret tt (in_cs me g (f v) w).
Proof. done. Qed.
Lemma g_wakeup_run me ch g v w : g_wakeup ch (in_cs me g v w) = Ret tt (in_cs me g v (w ++ [ch])).
Proof. done. Qed.

Lemma out_cs_quiet g v w : g_quiet g -> g_quiet (out_cs g v w).
Proof. intros [_ [H1 H2]]. by split; [|split]. Qed.

Lemma g_sleep_run {B} me ch k g v w :
  g_quiet g -> g_sleep (B := B) me ch k (in_cs me g v w) = Sleep ch k (out_cs g v w).
Proof. intros Hg. unfold g_sleep. by rewrite (bind_eq _ _ _ _ _ (g_release_run me g v w Hg)). Qed.

(** A whole critical section. *)
Lemma g_section {B} me (body : M (guarded A) B) g b v w :
  g_quiet g -> body (in_cs me g (g_val g) (g_wakes g)) = Ret b (in_cs me g v w) ->
  (g_acquire me ;; x ← body; g_release me ;; mret x) g = Ret b (out_cs g v w).
Proof.
  intros Hg Hb. rewrite (bind_eq _ _ _ _ _ (g_acquire_run me g Hg)), (bind_eq _ _ _ _ _ Hb).
  by rewrite (bind_eq _ _ _ _ _ (g_release_run me g v w Hg)).
Qed.

(** [runs m v Q]: called with the lock free and the data [v], [m] returns with the
    lock free again, and [Q] holds of the result and the data. *)
Definition runs {B} (m : M (guarded A) B) (v : A) (Q : B -> A -> Prop) : Prop :=
  forall g, g_quiet g -> g_val g = v -> exists b g', m g = Ret b g' /\ g_quiet g' /\ Q b (g_val g').

Lemma runs_ret {B} (b : B) v (Q : B -> A -> Prop) : Q b v -> runs (mret b) v Q.
Proof. intros H g Hg <-. by exists b, g. Qed.
Lemma runs_get v (Q : A -> A -> Prop) : Q v v -> runs g_get v Q.
Proof. intros H g Hg <-. by exists (g_val g), g. Qed.
Lemma runs_mod f v (Q : unit -> A -> Prop) : Q tt (f v) -> runs (g_mod f) v Q.
Proof. intros H g Hg <-. eexists tt, _. split; [reflexivity|]. done. Qed.
Lemma runs_bind {B C} (m : M (guarded A) B) (f : B -> M (guarded A) C) v Q :
  runs m v (fun b v' => runs (f b) v' Q) -> runs (m ≫= f) v Q.
Proof.
  intros H g Hg Hv. destruct (H g Hg Hv) as (b & g' & E & Hg' & H'). rewrite (bind_eq _ _ _ _ _ E).
  by apply (H' g').
Qed.
Lemma runs_mono {B} (m : M (guarded A) B) v (Q Q' : B -> A -> Prop) :
  runs m v Q -> (forall b v', Q b v' -> Q' b v') -> runs m v Q'.
Proof. intros H HQ g Hg Hv. destruct (H g Hg Hv) as (b & g' & E & Hg' & H'). exists b, g'. auto. Qed.

(** [leaves me m v Q]: called inside the critical section of CPU [me], with the data
    [v], [m] comes to release the lock and returns with [Q]. *)
Definition leaves {B} (me : nat) (m : M (guarded A) B) (v : A) (Q : B -> A -> Prop) : Prop :=
  forall g w, g_quiet g -> exists b g', m (in_cs me g v w) = Ret b g' /\ g_quiet g' /\ Q b (g_val g').

Lemma runs_acquire {B} me (k : unit -> M (guarded A) B) v Q : leaves me (k tt) v Q -> runs (g_acquire me ≫= k) v Q.
Proof. intros H g Hg <-. rewrite (bind_eq _ _ _ _ _ (g_acquire_run me g Hg)). by apply H. Qed.
Lemma leaves_release {B} me (k : unit -> M (guarded A) B) v Q : runs (k tt) v Q -> leaves me (g_release me ≫= k) v Q.
Proof. intros H g w Hg. rewrite (bind_eq _ _ _ _ _ (g_release_run me g v w Hg)). apply H; [by apply out_cs_quiet|done]. Qed.
Lemma leaves_get {B} me (k : A -> M (guarded A) B) v Q : leaves me (k v) v Q -> leaves me (g_get ≫= k) v Q.
Proof. intros H g w Hg. by apply H. Qed.
Lemma leaves_mod {B} me f (k : unit -> M (guarded A) B) v Q : leaves me (k tt) (f v) Q -> leaves me (g_mod f ≫= k) v Q.
Proof. intros H g w Hg. by apply H. Qed.

(** [tries E m v Q]: [m] either does what [runs m v Q] says or panics with a message
    in [E]. *)
Definition tries {B} (E : string -> Prop) (m : M (guarded A) B) (v : A) (Q : B -> A -> Prop) : Prop :=
  forall g, g_quiet g -> g_val g = v ->
    (exists b g', m g = Ret b g' /\ g_quiet g' /\ Q b (g_val g')) \/ (exists msg g', m g = Panic msg g' /\ E msg).

Lemma tries_runs {B} E (m : M (guarded A) B) v Q : runs m v Q -> tries E m v Q.
Proof. intros H g Hg Hv. left. by apply H. Qed.
Lemma tries_panic {B} (E : string -> Prop) msg v (Q : B -> A -> Prop) : E msg -> tries E (panic msg) v Q.
Proof. intros H g Hg Hv. right. by exists msg, g. Qed.
Lemma tries_bind {B C} E (m : M (guarded A) B) (f : B -> M (guarded A) C) v Q :
  tries E m v (fun b v' => tries E (f b) v' Q) -> tries E (m ≫= f) v Q.
Proof.
  intros H g Hg Hv. destruct (H g Hg Hv) as [(b & g' & Eq & Hg' & H')|(msg & g' & Eq & He)].
  - rewrite (bind_eq _ _ _ _ _ Eq). by apply (H' g').
  - right. exists msg, g'. split; [|done]. unfold mbind, M_MBind, M_bind. by rewrite Eq.
Qed.
Lemma tries_mono {B} E (m : M (guarded A) B) v (Q Q' : B -> A -> Prop) :
  tries E m v Q -> (forall b v', Q b v' -> Q' b v') -> tries E m v Q'.
Proof.
  intros H HQ g Hg Hv. destruct (H g Hg Hv) as [(b & g' & Eq & Hg' & H')|H']; [left|by right]. exists b, g'. auto.
Qed.
Lemma tries_weaken {B} (E E' : string -> Prop) (m : M (guarded A) B) v (Q : B -> A -> Prop) :
  tries E m v Q -> (forall msg, E msg -> E' msg) -> tries E' m v Q.
Proof.
  intros H HE g Hg Hv. destruct (H g Hg Hv) as [H'|(msg & g' & Eq & He)]; [by left|right]. exists msg, g'. auto.
Qed.
End Guarded.

(** Steps over the operations on the data. *)
Ltac rstep :=
  lazymatch goal with
  | |- runs (g_acquire _ ≫= _) _ _ => apply runs_acquire
  | |- leaves _ (g_release _ ≫= _) _ _ => apply leaves_release
  | |- leaves _ (g_get ≫= _) _ _ => apply leaves_get
  | |- leaves _ (g_mod _ ≫= _) _ _ => apply leaves_mod
  | |- runs (_ ≫= _) _ _ => apply runs_bind
  | |- runs (mret _) _ _ => apply runs_ret
  | |- runs (M_ret _) _ _ => apply runs_ret
  | |- runs g_get _ _ => apply runs_get
  | |- runs (g_mod _) _ _ => apply runs_mod
  | |- runs (when true _) _ _ => cbn [when]
  | |- runs (when false _) _ _ => cbn [when]
  end.
Ltac rsteps := cbv beta iota; repeat (rstep; cbv beta iota).

Ltac tstep :=
  lazymatch goal with
  | |- tries _ (_ ≫= _) _ _ => apply tries_bind
  | |- tries _ (mret _) _ _ => apply tries_runs, runs_ret
  | |- tries _ (M_ret _) _ _ => apply tries_runs, runs_ret
  | |- tries _ g_get _ _ => apply tries_runs, runs_get
  | |- tries _ (g_mod _) _ _ => apply tries_runs, runs_mod
  | |- tries _ (when true _) _ _ => cbn [when]
  | |- tries _ (when false _) _ _ => cbn [when]
  end.
Ltac tsteps := cbv beta iota; repeat (tstep; cbv beta iota).
