(* ===== verification/Pipe.v ===== *)
(** Pipes ([pipe.c]): a ring buffer of 512 bytes between a writer and a reader.

    [pipewrite] and [piperead] refine a bounded first-in first-out queue: whatever
    reads and writes are interleaved, bytes come out once each and in the order
    they were accepted. *)

From S2P Require Import Prelude Locks Guarded.

Definition PIPESIZE : Z := 512.

Record pipe := mk_pipe {
  p_data : list Z;
  p_nread : Z;
  p_nwrite : Z;
  p_readopen : Z;
  p_writeopen : Z }.

(** What [pipealloc] sets up in a fresh page with contents [junk]. *)
Definition pipe_init (junk : list Z) : pipe := mk_pipe junk 0 0 1 1.

(** [p->data[p->nwrite++ % PIPESIZE] = c]. *)
Definition put_byte (c : Z) (p : pipe) : pipe :=
  mk_pipe (<[Z.to_nat (p_nwrite p mod PIPESIZE) := c]> (p_data p)) (p_nread p)
    (u32 (p_nwrite p + 1)) (p_readopen p) (p_writeopen p).

(** [p->data[p->nread++ % PIPESIZE]] and the pipe afterwards. *)
Definition head_byte (p : pipe) : option Z := p_data p !! Z.to_nat (p_nread p mod PIPESIZE).
Definition drop_byte (p : pipe) : pipe :=
  mk_pipe (p_data p) (u32 (p_nread p + 1)) (p_nwrite p) (p_readopen p) (p_writeopen p).

(** The [for] loop of [pipewrite] with [m] bytes left, the next one [addr[i]]; [id]
    names the pipe's channels and [killed] is [myproc()->killed].  [false] is the
    [return -1], after the lock's release. *)
Fixpoint pipewrite_loop (m : nat) (i : Z) (me id : nat) (killed : bool) (addr : list Z) :
    M (guarded pipe) bool :=
  match m with
  | O => mret true
  | S m' =>
      p ← g_get;
      if p_nwrite p =? u32 (p_nread p + PIPESIZE) then
        if (p_readopen p =? 0) || killed then g_release me ;; mret false
        else g_wakeup (CPipeRead id) ;; g_sleep me (CPipeWrite id) i
      else
        c ← of_option OutOfBounds (addr !! Z.to_nat i);
        g_mod (put_byte c) ;;
        pipewrite_loop m' (i + 1) me id killed addr
  end.

(** [pipewrite] from byte [i] on: from 0 when it is called, from where it stopped
    when it wakes from its [sleep]. *)
Definition pipewrite_from (i : Z) (me id : nat) (killed : bool) (addr : list Z) (n : Z) :
    M (guarded pipe) Z :=
  g_acquire me ;;
  ok ← pipewrite_loop (Z.to_nat (n - i)) i me id killed addr;
  if (ok : bool) then
    g_wakeup (CPipeRead id) ;;
    g_release me ;;
    mret n
  else mret (-1).

Definition pipewrite := pipewrite_from 0.

(** The copying loop of [piperead]: the bytes stored at [addr]. *)
Fixpoint piperead_loop (m : nat) : M (guarded pipe) (list Z) :=
  match m with
  | O => mret []
  | S m' =>
      p ← g_get;
      if p_nread p =? p_nwrite p then mret []
      else
        c ← of_option OutOfBounds (head_byte p);
        g_mod drop_byte ;;
        rest ← piperead_loop m';
        mret (c :: rest)
  end.

(** The result is [-1], or the bytes read, whose number is returned.  After its
    [sleep] it starts over at the [while]. *)
Definition piperead (me id : nat) (killed : bool) (n : Z) : M (guarded pipe) (option (list Z)) :=
  g_acquire me ;;
  p ← g_get;
  if (p_nread p =? p_nwrite p) && ctrue (p_writeopen p) then
    if killed then g_release me ;; mret None
    else g_sleep me (CPipeRead id) 0
  else
    bytes ← piperead_loop (Z.to_nat n);
    g_wakeup (CPipeWrite id) ;;
    g_release me ;;
    mret (Some bytes).

Definition close_write (p : pipe) : pipe := mk_pipe (p_data p) (p_nread p) (p_nwrite p) (p_readopen p) 0.
Definition close_read (p : pipe) : pipe := mk_pipe (p_data p) (p_nread p) (p_nwrite p) 0 (p_writeopen p).

(** [pipeclose]: [true] when the pipe's page is freed. *)
Definition pipeclose (me id : nat) (writable : bool) : M (guarded pipe) bool :=
  g_acquire me ;;
  (if writable then
     g_mod close_write ;;
     g_wakeup (CPipeRead id)
   else
     g_mod close_read ;;
     g_wakeup (CPipeWrite id)) ;;
  p ← g_get;
  g_release me ;;
  mret ((p_readopen p =? 0) && (p_writeopen p =? 0)).

(** ** The queue in the ring *)

(** Bytes in flight, oldest first. *)
Definition used (p : pipe) : nat := Z.to_nat (u32 (p_nwrite p - p_nread p)).
Definition slot (p : pipe) (k : nat) : nat := Z.to_nat (u32 (p_nread p + Z.of_nat k) mod PIPESIZE).
Definition contents (p : pipe) : list Z := (fun k => nth (slot p k) (p_data p) 0) <$> seq 0 (used p).

Record pipe_ok (p : pipe) : Prop := mk_pipe_ok {
  po_data : length (p_data p) = Z.to_nat PIPESIZE;
  po_read : 0 <= p_nread p < 2 ^ 32;
  po_write : 0 <= p_nwrite p < 2 ^ 32;
  po_used : u32 (p_nwrite p - p_nread p) <= PIPESIZE }.

Lemma contents_length p : length (contents p) = used p.
Proof. unfold contents. by rewrite length_fmap, length_seq. Qed.

Lemma u32_mod512 x : u32 x mod PIPESIZE = x mod PIPESIZE.
Proof. unfold u32, PIPESIZE. apply Z.mod_mod_divide. by exists (2 ^ 23). Qed.

Lemma slot_eq p k : slot p k = Z.to_nat ((p_nread p + Z.of_nat k) mod PIPESIZE).
Proof. unfold slot. by rewrite u32_mod512. Qed.

Lemma slot_lt p k : (slot p k < Z.to_nat PIPESIZE)%nat.
Proof. unfold slot, PIPESIZE. pose proof (Z.mod_pos_bound (u32 (p_nread p + Z.of_nat k)) 512). lia. Qed.

(** The writer's slot is the one after the last byte in flight. *)
Lemma nwrite_slot p : pipe_ok p -> Z.to_nat (p_nwrite p mod PIPESIZE) = slot p (used p).
Proof.
  intros [_ H1 H2 H3]. rewrite slot_eq. unfold used.
  pose proof (u32_range (p_nwrite p - p_nread p)). rewrite Z2Nat.id by lia. do 1 f_equal.
  rewrite <- (u32_mod512 (p_nread p + u32 (p_nwrite p - p_nread p))). f_equal. unfold u32 in *.
  rewrite Zplus_mod_idemp_r. replace (p_nread p + (p_nwrite p - p_nread p)) with (p_nwrite p) by lia.
  by rewrite Z.mod_small by lia.
Qed.

Lemma slot_inj p j k :
  Z.abs (Z.of_nat j - Z.of_nat k) < PIPESIZE -> slot p j = slot p k -> j = k.
Proof.
  unfold PIPESIZE. intros Hd E. rewrite !slot_eq in E. unfold PIPESIZE in E.
  pose proof (Z.mod_pos_bound (p_nread p + Z.of_nat j) 512).
  pose proof (Z.mod_pos_bound (p_nread p + Z.of_nat k) 512).
  pose proof (Z.div_mod (p_nread p + Z.of_nat j) 512). pose proof (Z.div_mod (p_nread p + Z.of_nat k) 512). lia.
Qed.

Lemma full_iff p : pipe_ok p -> p_nwrite p = u32 (p_nread p + PIPESIZE) <-> used p = Z.to_nat PIPESIZE.
Proof.
  intros [_ H1 H2 H3]. unfold used, PIPESIZE in *. unfold u32 in *. split.
  - intros ->. rewrite Zminus_mod_idemp_l. replace (p_nread p + 512 - p_nread p) with 512 by lia. done.
  - pose proof (Z.mod_pos_bound (p_nwrite p - p_nread p) (2 ^ 32)). intros E.
    assert (Ed : (p_nwrite p - p_nread p) mod 2 ^ 32 = 512) by lia. rewrite <- Ed.
    rewrite Zplus_mod_idemp_r. replace (p_nread p + (p_nwrite p - p_nread p)) with (p_nwrite p) by lia.
    by rewrite Z.mod_small by lia.
Qed.

Lemma empty_iff p : pipe_ok p -> p_nread p = p_nwrite p <-> used p = 0%nat.
Proof.
  intros [_ H1 H2 H3]. unfold used, u32 in *. split.
  - intros ->. by rewrite Z.sub_diag.
  - pose proof (Z.mod_pos_bound (p_nwrite p - p_nread p) (2 ^ 32)). intros E.
    assert (Ed : (p_nwrite p - p_nread p) mod 2 ^ 32 = 0) by lia.
    apply Z.mod_divide in Ed as [q Hq]; [|done]. nia.
Qed.

Lemma put_byte_ok c p :
  pipe_ok p -> used p <> Z.to_nat PIPESIZE ->
  pipe_ok (put_byte c p) /\ contents (put_byte c p) = contents p ++ [c].
Proof.
  intros Hok Hnf. pose proof (nwrite_slot p Hok) as Hw. destruct Hok as [H1 H2 H3 H4].
  pose proof (u32_range (p_nwrite p - p_nread p)) as Hr.
  assert (Hu : u32 (u32 (p_nwrite p + 1) - p_nread p) = u32 (p_nwrite p - p_nread p) + 1).
  { unfold used, u32, PIPESIZE in *. rewrite Zminus_mod_idemp_l.
    replace (p_nwrite p + 1 - p_nread p) with ((p_nwrite p - p_nread p) + 1) by lia.
    rewrite <- Zplus_mod_idemp_l. apply Z.mod_small. lia. }
  assert (Hused : used (put_byte c p) = S (used p)) by (unfold used; cbn; rewrite Hu; lia).
  split.
  - constructor; cbn; [by rewrite length_insert|done|apply u32_range|]. rewrite Hu.
    unfold used, PIPESIZE in *. lia.
  - unfold contents. rewrite Hused, seq_S, fmap_app. cbn [fmap list_fmap]. cbn [Nat.add].
    assert (Hlt : (used p < Z.to_nat PIPESIZE)%nat) by (unfold used, PIPESIZE in *; lia).
    f_equal.
    + apply list_fmap_ext. intros i k Hk. apply lookup_seq in Hk as [-> Hi]. cbn [Nat.add].
      change (slot (put_byte c p) i) with (slot p i). cbn [put_byte p_data]. rewrite Hw.
      rewrite !nth_lookup, list_lookup_insert_ne; [done|]. intros E. apply slot_inj in E; [lia|].
      unfold PIPESIZE in *. lia.
    + change (slot (put_byte c p) (used p)) with (slot p (used p)). cbn [put_byte p_data]. rewrite Hw.
      rewrite nth_lookup, list_lookup_insert_eq; [done|]. rewrite H1. apply slot_lt.
Qed.

Lemma drop_byte_ok p :
  pipe_ok p -> used p <> 0%nat ->
  exists c, head_byte p = Some c /\ pipe_ok (drop_byte p) /\ contents p = c :: contents (drop_byte p).
Proof.
  intros [H1 H2 H3 H4] Hne. pose proof (u32_range (p_nwrite p - p_nread p)) as Hr.
  assert (Hu : u32 (p_nwrite p - u32 (p_nread p + 1)) = u32 (p_nwrite p - p_nread p) - 1).
  { unfold used, u32 in *. rewrite Zminus_mod_idemp_r.
    replace (p_nwrite p - (p_nread p + 1)) with ((p_nwrite p - p_nread p) - 1) by lia.
    rewrite <- Zminus_mod_idemp_l. apply Z.mod_small. lia. }
  assert (Hused : used p = S (used (drop_byte p))) by (unfold used in *; cbn; rewrite Hu; lia).
  assert (Hs : forall k, slot (drop_byte p) k = slot p (S k)).
  { intros k. rewrite !slot_eq. cbn. f_equal. rewrite <- (u32_mod512 (u32 _ + _)).
    unfold u32. rewrite Zplus_mod_idemp_l. fold (u32 (p_nread p + 1 + Z.of_nat k)).
    rewrite u32_mod512. f_equal. lia. }
  assert (E0 : Z.to_nat (p_nread p mod PIPESIZE) = slot p 0) by (rewrite slot_eq; do 2 f_equal; lia).
  destruct (lookup_lt_is_Some_2 (p_data p) (slot p 0)) as [c Hc]; [rewrite H1; apply slot_lt|].
  exists c. split; [unfold head_byte; by rewrite E0|]. split.
  - constructor; cbn; [done|apply u32_range|done|]. rewrite Hu. lia.
  - unfold contents. rewrite Hused. cbn [seq fmap list_fmap]. rewrite nth_lookup, Hc. cbn [default]. f_equal.
    rewrite <- fmap_S_seq, <- list_fmap_compose. apply list_fmap_ext. intros i k _. cbn. by rewrite Hs.
Qed.

Definition same_ends (p p' : pipe) : Prop :=
  p_readopen p' = p_readopen p /\ p_writeopen p' = p_writeopen p.

(** The writing loop stores [j] bytes: all it has to, or as many as fit. *)
Lemma pipewrite_loop_spec m i me id killed addr g p w :
  g_quiet g -> pipe_ok p -> 0 <= i -> (Z.to_nat i + m <= length addr)%nat ->
  exists p' j, pipe_ok p' /\ (same_ends p p' /\ p_nread p' = p_nread p) /\ (j <= m)%nat /\
    contents p' = contents p ++ take j (drop (Z.to_nat i) addr) /\
    ((j = m /\ pipewrite_loop m i me id killed addr (in_cs me g p w) = Ret true (in_cs me g p' w)) \/
     ((j < m)%nat /\ used p' = Z.to_nat PIPESIZE /\
      pipewrite_loop m i me id killed addr (in_cs me g p w) =
        if (p_readopen p =? 0) || killed then Ret false (out_cs g p' w)
        else Sleep (CPipeWrite id) (i + Z.of_nat j) (out_cs g p' (w ++ [CPipeRead id])))).
Proof.
  intros Hg. revert i p; induction m as [|m IH]; intros i p Hok Hi Hlen; cbn [pipewrite_loop].
  { exists p, 0%nat. rewrite app_nil_r. split_and!; try done. by left. }
  rewrite (bind_eq _ _ _ _ _ (g_get_run me g p w)).
  destruct (Z.eqb_spec (p_nwrite p) (u32 (p_nread p + PIPESIZE))) as [E|E]; rewrite full_iff in E by done.
  - exists p, 0%nat. rewrite app_nil_r. split_and!; try done; [lia|]. right. split_and!; [lia|done|].
    destruct (_ || killed).
    + by rewrite (bind_eq _ _ _ _ _ (g_release_run me g p w Hg)).
    + rewrite (bind_eq _ _ _ _ _ (g_wakeup_run me _ g p w)).
      rewrite g_sleep_run by done. f_equal. lia.
  - destruct (lookup_lt_is_Some_2 addr (Z.to_nat i)) as [c Hc]; [lia|]. rewrite Hc. cbn [of_option].
    rewrite (bind_eq (M_ret c) _ _ _ _ eq_refl).
    rewrite (bind_eq _ _ _ _ _ (g_mod_run me _ g p w)).
    destruct (put_byte_ok c p Hok E) as [Hok' Hcon].
    destruct (IH (i + 1) (put_byte c p) Hok') as (p' & j & H1 & H2 & H3 & H4 & H5); [lia|lia|].
    exists p', (S j). split_and!; try done; try apply H2; [lia| |].
    + rewrite H4, Hcon, <- app_assoc, (drop_S _ _ _ Hc). cbn. do 3 f_equal. f_equal. lia.
    + destruct H5 as [[-> H5]|(H5 & H6 & H7)]; [left; split; [done|exact H5]|right].
      split_and!; [lia|done|]. cbv beta. rewrite H7.
      change (p_readopen (put_byte c p)) with (p_readopen p). destruct (_ || killed); [done|]. f_equal. lia.
Qed.

Lemma pipewrite_spec i me id killed addr n g :
  g_quiet g -> pipe_ok (g_val g) -> 0 <= i <= Z.of_nat (length addr) -> n <= Z.of_nat (length addr) ->
  exists p' j w, pipe_ok p' /\ (same_ends (g_val g) p' /\ p_nread p' = p_nread (g_val g)) /\ (j <= Z.to_nat (n - i))%nat /\
    contents p' = contents (g_val g) ++ take j (drop (Z.to_nat i) addr) /\
    (j = Z.to_nat (n - i) /\
       pipewrite_from i me id killed addr n g = Ret n (out_cs g p' w) /\ w = g_wakes g ++ [CPipeRead id] \/
     (j < Z.to_nat (n - i))%nat /\ used p' = Z.to_nat PIPESIZE /\
       pipewrite_from i me id killed addr n g =
         (if (p_readopen (g_val g) =? 0) || killed then Ret (-1) (out_cs g p' w)
          else Sleep (CPipeWrite id) (i + Z.of_nat j) (out_cs g p' w)) /\
       w = g_wakes g ++ if (p_readopen (g_val g) =? 0) || killed then [] else [CPipeRead id]).
Proof.
  intros Hg Hok Hi Hn. unfold pipewrite_from. rewrite (bind_eq _ _ _ _ _ (g_acquire_run me g Hg)).
  destruct (pipewrite_loop_spec (Z.to_nat (n - i)) i me id killed addr g (g_val g) (g_wakes g) Hg Hok (proj1 Hi))
    as (p' & j & H1 & H2 & H3 & H4 & [[-> E]|(H5 & H6 & E)]); [lia| |].
  - eexists p', _, _. split_and!; try done; try apply H2. left. split; [done|]. split; [|done].
    rewrite (bind_eq _ _ _ _ _ E). cbv iota.
    rewrite (bind_eq _ _ _ _ _ (g_wakeup_run me _ g p' _)).
    by rewrite (bind_eq _ _ _ _ _ (g_release_run me g p' _ Hg)).
  - eexists p', j, _. split_and!; try done; try apply H2. right. split; [done|]. split; [done|].
    split; [|done]. unfold mbind at 1, M_MBind, M_bind. rewrite E.
    destruct (_ || killed); [by rewrite app_nil_r|done].
Qed.

Lemma piperead_loop_spec m me g p w :
  pipe_ok p ->
  exists p', pipe_ok p' /\ same_ends p p' /\
    contents p = take m (contents p) ++ contents p' /\
    piperead_loop m (in_cs me g p w) = Ret (take m (contents p)) (in_cs me g p' w).
Proof.
  revert p; induction m as [|m IH]; intros p Hok; cbn [piperead_loop].
  { by exists p. }
  rewrite (bind_eq _ _ _ _ _ (g_get_run me g p w)).
  destruct (Z.eqb_spec (p_nread p) (p_nwrite p)) as [E|E]; rewrite empty_iff in E by done.
  - exists p. assert (contents p = []) as -> by (apply length_zero_iff_nil; by rewrite contents_length).
    split_and!; done.
  - destruct (drop_byte_ok p Hok E) as (c & Hc & Hok' & Hcon). rewrite Hc. cbn [of_option].
    rewrite (bind_eq (M_ret c) _ _ _ _ eq_refl).
    rewrite (bind_eq _ _ _ _ _ (g_mod_run me _ g p w)).
    destruct (IH (drop_byte p) Hok') as (p' & H1 & H2 & H3 & H4). exists p'.
    rewrite (bind_eq _ _ _ _ _ H4). split_and!; try done; try apply H2.
    + rewrite Hcon at 1. rewrite H3 at 1. by rewrite Hcon.
    + by rewrite Hcon.
Qed.

Lemma piperead_spec me id killed n g :
  g_quiet g -> pipe_ok (g_val g) ->
  exists p' w, pipe_ok p' /\ same_ends (g_val g) p' /\
    ((used (g_val g) = 0%nat /\ p_writeopen (g_val g) <> 0 /\ p' = g_val g /\ w = g_wakes g /\
      piperead me id killed n g =
        if killed then Ret None (out_cs g p' w) else Sleep (CPipeRead id) 0 (out_cs g p' w)) \/
     (w = g_wakes g ++ [CPipeWrite id] /\
      contents (g_val g) = take (Z.to_nat n) (contents (g_val g)) ++ contents p' /\
      piperead me id killed n g = Ret (Some (take (Z.to_nat n) (contents (g_val g)))) (out_cs g p' w))).
Proof.
  intros Hg Hok. unfold piperead. rewrite (bind_eq _ _ _ _ _ (g_acquire_run me g Hg)).
  rewrite (bind_eq _ _ _ _ _ (g_get_run me g _ _)).
  destruct (Z.eqb_spec (p_nread (g_val g)) (p_nwrite (g_val g))) as [E|E], (ctrue (p_writeopen (g_val g))) eqn:Ew;
    cbn [andb].
  1: { eexists (g_val g), _. split_and!; try done. left. rewrite empty_iff in E by done.
       unfold ctrue in Ew. split_and!; try done; [by destruct (Z.eqb_spec (p_writeopen (g_val g)) 0)|].
       destruct killed.
       - by rewrite (bind_eq _ _ _ _ _ (g_release_run me g _ _ Hg)).
       - by rewrite g_sleep_run by done. }
  all: destruct (piperead_loop_spec (Z.to_nat n) me g (g_val g) (g_wakes g) Hok) as (p' & H1 & H2 & H3 & H4);
    eexists p', _; split_and!; try done; try apply H2; right; split_and!; [done|done|];
    rewrite (bind_eq _ _ _ _ _ H4);
    rewrite (bind_eq _ _ _ _ _ (g_wakeup_run me _ g p' _));
    by rewrite (bind_eq _ _ _ _ _ (g_release_run me g p' _ Hg)).
Qed.

(** ** Any interleaving of reads, writes and closes *)

Inductive pevent :=
  | EWrite (i : Z) (killed : bool) (addr : list Z) (n : Z)
  | ERead (killed : bool) (n : Z)
  | EClose (writable : bool).

(** The buffers of a write hold the bytes it is to write. *)
Definition event_ok (e : pevent) : Prop :=
  match e with
  | EWrite i _ addr n => 0 <= i <= Z.of_nat (length addr) /\ n <= Z.of_nat (length addr)
  | _ => True
  end.

(** The state after an event, the bytes it put into the pipe and those it took
    out; the bytes a write put in are those [nwrite] counts. *)
Definition event (me id : nat) (e : pevent) (g : guarded pipe) : guarded pipe * list Z * list Z :=
  match e with
  | EWrite i killed addr n =>
      let g' := result_state (pipewrite_from i me id killed addr n g) in
      (g', take (Z.to_nat (u32 (p_nwrite (g_val g') - p_nwrite (g_val g)))) (drop (Z.to_nat i) addr), [])
  | ERead killed n =>
      match piperead me id killed n g with
      | Ret (Some l) g' => (g', [], l)
      | r => (result_state r, [], [])
      end
  | EClose writable => (result_state (pipeclose me id writable g), [], [])
  end.

Fixpoint events (me id : nat) (es : list pevent) (g : guarded pipe) : guarded pipe * list Z * list Z :=
  match es with
  | [] => (g, [], [])
  | e :: es' =>
      let '(g1, a1, d1) := event me id e g in
      let '(g2, a2, d2) := events me id es' g1 in
      (g2, a1 ++ a2, d1 ++ d2)
  end.

Lemma accepted_count p p' j (l : list Z) :
  pipe_ok p -> pipe_ok p' -> p_nread p' = p_nread p -> (j <= length l)%nat ->
  contents p' = contents p ++ take j l -> Z.to_nat (u32 (p_nwrite p' - p_nwrite p)) = j.
Proof.
  intros Hp Hp' Hr Hj Hc. apply (f_equal length) in Hc.
  rewrite length_app, !contents_length, length_take_le in Hc by done.
  destruct Hp as [_ _ _ Hu], Hp' as [_ _ _ Hu']. unfold used, u32, PIPESIZE in *.
  pose proof (Z.mod_pos_bound (p_nwrite p' - p_nread p') (2 ^ 32)).
  pose proof (Z.mod_pos_bound (p_nwrite p - p_nread p) (2 ^ 32)).
  replace (p_nwrite p' - p_nwrite p) with ((p_nwrite p' - p_nread p') - (p_nwrite p - p_nread p)) by lia.
  rewrite Zminus_mod, Z.mod_small; lia.
Qed.

Lemma pipeclose_run me id (writable : bool) g :
  g_quiet g ->
  let p' := if writable then close_write (g_val g) else close_read (g_val g) in
  pipeclose me id writable g =
    Ret ((p_readopen p' =? 0) && (p_writeopen p' =? 0))
      (out_cs g p' (g_wakes g ++ [if writable then CPipeRead id else CPipeWrite id])).
Proof.
  intros Hg p'. unfold pipeclose. rewrite (bind_eq _ _ _ _ _ (g_acquire_run me g Hg)).
  assert (E : ((if writable then g_mod close_write ;; g_wakeup (CPipeRead id)
    else g_mod close_read ;; g_wakeup (CPipeWrite id)) : M (guarded pipe) unit) (in_cs me g (g_val g) (g_wakes g)) =
    Ret tt (in_cs me g p' (g_wakes g ++ [if writable then CPipeRead id else CPipeWrite id])))
    by (by destruct writable).
  rewrite (bind_eq _ _ _ _ _ E), (bind_eq _ _ _ _ _ (g_get_run me g _ _)).
  by rewrite (bind_eq _ _ _ _ _ (g_release_run me g _ _ Hg)).
Qed.

Lemma event_spec me id e g :
  g_quiet g -> pipe_ok (g_val g) -> event_ok e ->
  let '(g', acc, del) := event me id e g in
  g_quiet g' /\ pipe_ok (g_val g') /\ contents (g_val g) ++ acc = del ++ contents (g_val g').
Proof.
  intros Hg Hok He. destruct e as [i killed addr n|killed n|writable]; cbn [event event_ok] in *.
  - destruct He as [Hi Hn].
    destruct (pipewrite_spec i me id killed addr n g Hg Hok Hi Hn)
      as (p' & j & w & H1 & [_ H2] & H3 & H4 & H5).
    assert (E : result_state (pipewrite_from i me id killed addr n g) = out_cs g p' w).
    { destruct H5 as [(_ & -> & _)|(_ & _ & -> & _)]; [done|by destruct (_ || killed)]. }
    rewrite E. cbn [out_cs g_val].
    rewrite (accepted_count (g_val g) p' j (drop (Z.to_nat i) addr)); try done;
      [split_and!; [by apply out_cs_quiet|done|by rewrite H4]|rewrite length_drop; lia].
  - destruct (piperead_spec me id killed n g Hg Hok)
      as (p' & w & H1 & _ & [(_ & _ & -> & -> & E)|(_ & Hc & E)]); rewrite E.
    + destruct killed; cbn; (split_and!; [by apply out_cs_quiet|done|by rewrite app_nil_r]).
    + cbn. split_and!; [by apply out_cs_quiet|done|]. by rewrite app_nil_r.
  - rewrite pipeclose_run by done. cbn.
    split_and!; [by apply out_cs_quiet| |by destruct writable; rewrite app_nil_r].
    destruct Hok, writable; by constructor.
Qed.

(** C7: a pipe is a first-in first-out queue: after any interleaving of reads,
    writes (cut wherever they had to sleep) and closes, the bytes that came out
    followed by those still in the buffer are exactly the bytes that went in, in
    order, and never more than 512 are in flight; the counters may wrap around. *)
Theorem pipe_fifo me id es g :
  g_quiet g -> pipe_ok (g_val g) -> contents (g_val g) = [] -> Forall event_ok es ->
  let '(g', accepted, delivered) := events me id es g in
  accepted = delivered ++ contents (g_val g') /\ (length (contents (g_val g')) <= 512)%nat.
Proof.
  intros Hg Hok He Hes.
  enough (H : let '(g', accepted, delivered) := events me id es g in
    g_quiet g' /\ pipe_ok (g_val g') /\
    contents (g_val g) ++ accepted = delivered ++ contents (g_val g')).
  { destruct (events me id es g) as [[g' a] d]. destruct H as (_ & [_ _ _ Hu] & H). rewrite He in H.
    split; [done|]. rewrite contents_length. unfold used, PIPESIZE in *. lia. }
  clear He. revert g Hg Hok; induction Hes as [|e es He Hes IH]; intros g Hg Hok; cbn [events].
  { split_and!; try done. by rewrite app_nil_r. }
  pose proof (event_spec me id e g Hg Hok He) as H1. destruct (event me id e g) as [[g1 a1] d1].
  destruct H1 as (Hg1 & Hok1 & E1). specialize (IH g1 Hg1 Hok1).
  destruct (events me id es g1) as [[g2 a2] d2]. destruct IH as (Hg2 & Hok2 & E2).
  split_and!; try done. by rewrite app_assoc, E1, <- app_assoc, E2, app_assoc.
Qed.

(** A pipe whose counters are about to wrap around. *)
Definition demo_pipe : guarded pipe :=
  mk_g (mk_cpu 0 false true) Spinlock.initlock
    (mk_pipe (replicate 512 0) (2 ^ 32 - 2) (2 ^ 32 - 2) 1 1) [].

Lemma demo_pipe_ok : pipe_ok (g_val demo_pipe).
Proof. constructor; vm_compute; try done; split; done. Qed.

Lemma pipe_fifo_witness :
  let '(g', accepted, delivered) :=
    events 0 0 [EWrite 0 false [1; 2; 3; 4; 5] 5; ERead false 3; EWrite 0 false [6] 1] demo_pipe in
  accepted = delivered ++ contents (g_val g') /\ (length (contents (g_val g')) <= 512)%nat.
Proof.
  apply (pipe_fifo 0 0 [EWrite 0 false [1; 2; 3; 4; 5] 5; ERead false 3; EWrite 0 false [6] 1] demo_pipe).
  - split; [reflexivity|]. split; cbn; lia.
  - apply demo_pipe_ok.
  - reflexivity.
  - repeat constructor; cbn; lia.
Defined.

(** ** Sleeping readers and writers *)

(** The pipe, and the processes asleep in [piperead] and in [pipewrite]. *)
Record psys := mk_psys { ps_pipe : guarded pipe; ps_readers : list nat; ps_writers : list nat }.

(** After a routine has come to [r], run by [pid]: the processes asleep on the channels it
    has woken are awake, and [pid] is asleep if it went to sleep. *)
Definition settle {A} (id pid : nat) (r : res (guarded pipe) A) (x : psys) : psys :=
  let g' := result_state r in
  let woken := drop (length (g_wakes (ps_pipe x))) (g_wakes g') in
  let rs := if bool_decide (CPipeRead id ∈ woken) then [] else ps_readers x in
  let ws := if bool_decide (CPipeWrite id ∈ woken) then [] else ps_writers x in
  match r with
  | Sleep ch _ _ => mk_psys g' (if bool_decide (ch = CPipeRead id) then pid :: rs else rs)
                      (if bool_decide (ch = CPipeWrite id) then pid :: ws else ws)
  | _ => mk_psys g' rs ws
  end.
Definition turn (me id pid : nat) (e : pevent) (x : psys) : psys :=
  match e with
  | EWrite i killed addr n => settle id pid (pipewrite_from i me id killed addr n (ps_pipe x)) x
  | ERead killed n => settle id pid (piperead me id killed n (ps_pipe x)) x
  | EClose writable => settle id pid (pipeclose me id writable (ps_pipe x)) x
  end.
Definition turns (me id : nat) (es : list (nat * pevent)) (x : psys) : psys :=
  fold_left (fun x e => turn me id (fst e) (snd e) x) es x.

(** A process that reads has the read end open, so that it is closed only when nobody is
    asleep in [piperead], and likewise for the write end.  A writer that has been killed
    must not fill the pipe while readers are asleep. *)
Definition fair (e : pevent) (x : psys) : Prop :=
  let p := g_val (ps_pipe x) in
  event_ok e /\
  match e with
  | EWrite i killed _ n => p_writeopen p <> 0 /\
      (killed = true -> ps_readers x = [] \/ n - i <= 512 - Z.of_nat (used p))
  | ERead _ _ => p_readopen p <> 0
  | EClose true => ps_writers x = []
  | EClose false => ps_readers x = []
  end.
Fixpoint fair_run (me id : nat) (es : list (nat * pevent)) (x : psys) : Prop :=
  match es with
  | [] => True
  | e :: es' => fair (snd e) x /\ fair_run me id es' (turn me id (fst e) (snd e) x)
  end.

(** Nobody sleeps who could go on. *)
Record awake (x : psys) : Prop := mk_awake {
  aw_quiet : g_quiet (ps_pipe x);
  aw_ok : pipe_ok (g_val (ps_pipe x));
  aw_reader : ps_readers x <> [] -> let p := g_val (ps_pipe x) in
    contents p = [] /\ p_writeopen p <> 0 /\ p_readopen p <> 0;
  aw_writer : ps_writers x <> [] -> let p := g_val (ps_pipe x) in
    length (contents p) = 512%nat /\ p_readopen p <> 0 /\ p_writeopen p <> 0 }.

Lemma woken_new (w v : list chan) : drop (length w) (w ++ v) = v.
Proof. apply drop_app_length. Qed.
Lemma woken_none (w : list chan) : drop (length w) w = [].
Proof. by apply drop_ge. Qed.
Lemma contents_nil p : contents p = [] <-> used p = 0%nat.
Proof. rewrite <- contents_length. split; [by intros ->|apply nil_length_inv]. Qed.

Lemma in_one (c d : chan) : bool_decide (c ∈ [d]) = bool_decide (c = d).
Proof. apply bool_decide_ext, list_elem_of_singleton. Qed.
Lemma same_chan (c : chan) : bool_decide (c = c) = true.
Proof. by apply bool_decide_eq_true_2. Qed.
Lemma other_chan id : bool_decide (CPipeRead id = CPipeWrite id) = false /\ bool_decide (CPipeWrite id = CPipeRead id) = false.
Proof. split; by apply bool_decide_eq_false_2. Qed.

Ltac woken := unfold settle; cbn [result_state g_wakes out_cs];
  rewrite ?woken_new, ?woken_none, ?in_one, ?same_chan, ?(proj1 (other_chan _)), ?(proj2 (other_chan _));
  change (bool_decide (_ ∈ [])) with false; cbv iota.

Lemma write_awake me id pid i killed addr n x :
  awake x -> fair (EWrite i killed addr n) x -> awake (turn me id pid (EWrite i killed addr n) x).
Proof.
  intros [Hq Hok Hr Hw] ((Hi & Hn) & Ho & Hk). cbn [turn]. set (g := ps_pipe x) in *.
  destruct (pipewrite_spec i me id killed addr n g Hq Hok Hi Hn) as (p' & j & w & Hok' & [[Er Ew] _] & Hj & Hc & Hcase).
  assert (Hlen : used p' = (used (g_val g) + j)%nat).
  { rewrite <- !contents_length, Hc, length_app, length_take, length_drop. lia. }
  assert (Hle : (used p' <= 512)%nat) by (destruct Hok'; unfold used, PIPESIZE in *; lia).
  destruct Hcase as [(Ej & -> & ->)|(Hlt & Hu & -> & ->)].
  - woken. constructor; cbn; try done; [by apply out_cs_quiet|]. intros Hne. destruct (Hw Hne) as (H1 & H2 & H3).
    rewrite contents_length in *. rewrite Er, Ew. split_and!; (done || lia).
  - change (Z.to_nat PIPESIZE) with 512%nat in Hu. destruct (Z.eqb_spec (p_readopen (g_val g)) 0) as [E0|E0]; [|destruct killed]; cbn [orb];
      rewrite ?app_nil_r; woken; constructor; cbn; rewrite ?contents_length, ?Er, ?Ew; try done; try (by apply out_cs_quiet).
    + intros Hne. by destruct (Hr Hne) as (_ & _ & ?).
    + intros Hne. by destruct (Hw Hne) as (_ & ? & _).
    + intros Hne. destruct (Hk eq_refl) as [?|Hfit]; [done|]. lia.
Qed.

Lemma read_awake me id pid killed n x :
  awake x -> fair (ERead killed n) x -> awake (turn me id pid (ERead killed n) x).
Proof.
  intros [Hq Hok Hr Hw] (_ & Ho). cbn [turn]. set (g := ps_pipe x) in *.
  destruct (piperead_spec me id killed n g Hq Hok) as (p' & w & Hok' & [Er Ew] & [(Hu & Hwo & -> & -> & ->)|(-> & Hc & ->)]).
  - destruct killed; woken; constructor; cbn; try done; try (by apply out_cs_quiet). intros _. by rewrite contents_nil.
  - woken. constructor; cbn; try done; [by apply out_cs_quiet|]. intros Hne. destruct (Hr Hne) as (H1 & H2 & H3). rewrite Er, Ew.
    split_and!; try done. rewrite H1 in Hc. by destruct (take _ []), (contents p').
Qed.

Lemma close_awake me id pid writable x : awake x -> fair (EClose writable) x -> awake (turn me id pid (EClose writable) x).
Proof.
  intros [Hq Hok Hr Hw] (_ & Ho). cbn [turn]. rewrite pipeclose_run by done. destruct writable; woken; rewrite Ho;
    (constructor; cbn; try done; [by apply out_cs_quiet|by destruct Hok; constructor]).
Qed.

Lemma turn_awake me id pid e x : awake x -> fair e x -> awake (turn me id pid e x).
Proof. destruct e; [apply write_awake|apply read_awake|apply close_awake]. Qed.

(** C28: no wake-up is lost: whatever reads, writes (from where they stopped) and closes
    processes take turns in, a process is asleep in [piperead] only while the pipe is
    empty and its write end open, and one is asleep in [pipewrite] only while the pipe is
    full and its read end open, so that never both are asleep.  A read or write is made by
    a process with that end open, and no writer that has been killed fills the pipe while
    readers are asleep. *)
Theorem pipe_wakeups me id es g :
  g_quiet g -> pipe_ok (g_val g) -> fair_run me id es (mk_psys g [] []) ->
  let x := turns me id es (mk_psys g [] []) in let p := g_val (ps_pipe x) in
  (ps_readers x <> [] -> contents p = [] /\ p_writeopen p <> 0 /\ ps_writers x = []) /\
  (ps_writers x <> [] -> length (contents p) = 512%nat /\ p_readopen p <> 0 /\ ps_readers x = []).
Proof.
  intros Hq Hok Hf x p.
  assert (Ha : awake x).
  { unfold x, turns. assert (Ha : awake (mk_psys g [] [])) by (by constructor). revert Ha Hf. generalize (mk_psys g [] []).
    induction es as [|e es IH]; intros y Hy Hf; [done|]. destruct Hf as [He Hf]. cbn [fold_left]. apply IH; [by apply turn_awake|done]. }
  destruct Ha as [_ _ Hr Hw]. fold p in Hr, Hw. split; intros Hne.
  - destruct (Hr Hne) as (H1 & H2 & H3). split_and!; try done. destruct (ps_writers x); [done|]. destruct Hw as [H4 _]; [done|]. by rewrite H1 in H4.
  - destruct (Hw Hne) as (H1 & H2 & H3). split_and!; try done. destruct (ps_readers x); [done|]. destruct Hr as [H4 _]; [done|]. by rewrite H4 in H1.
Qed.

(** A reader sleeps, a writer fills the pipe and sleeps in turn, having woken it. *)
Definition demo_turns : list (nat * pevent) := [(3%nat, ERead false 2); (4%nat, EWrite 0 false (replicate 600 9) 600)].
Lemma pipe_wakeups_witness :
  let x := turns 0 7 demo_turns (mk_psys demo_pipe [] []) in
  ps_writers x = [4%nat] /\ length (contents (g_val (ps_pipe x))) = 512%nat /\ ps_readers x = [].
Proof.
  assert (Hf : fair_run 0 7 demo_turns (mk_psys demo_pipe [] [])).
  { split; [by split|]. split; [|done]. split; [cbn [event_ok demo_turns snd]; rewrite length_replicate; lia|]. by split. }
  destruct (pipe_wakeups 0 7 demo_turns demo_pipe) as [_ Hw]; [split; [reflexivity|split; cbn; lia]|apply demo_pipe_ok|exact Hf|].
  assert (E : ps_writers (turns 0 7 demo_turns (mk_psys demo_pipe [] [])) = [4%nat]) by (vm_compute; reflexivity).
  cbv zeta in *. split; [exact E|]. rewrite E in Hw. destruct Hw as (H1 & _ & H2); [done|]. by split.
Defined.

(** A writer that has been killed and fills the pipe returns without waking the reader,
    which sleeps on with 512 bytes to read. *)
Theorem killed_writer_loses_wakeup :
  let x := turns 0 7 [(3%nat, ERead false 2); (4%nat, EWrite 0 true (replicate 600 9) 600)] (mk_psys demo_pipe [] []) in
  ps_readers x = [3%nat] /\ length (contents (g_val (ps_pipe x))) = 512%nat.
Proof. by vm_compute. Qed.
