(* ===== verification/Kalloc.v ===== *)
(** The physical page allocator ([kalloc.c]).

    Free pages are linked through their own first words.  [k_mem] is the word at
    each address; a page in use may be written by its owner at any time.  The
    allocator refines a pool of pages: no page is handed out twice, none is lost,
    and 0 is returned only when every page is out. *)

From S2P Require Import Prelude Locks Guarded.

Definition KERNBASE : Z := 2147483648. (* 0x80000000 *)
Definition PHYSTOP : Z := 234881024.   (* 0xE000000 *)
Definition V2P (a : Z) : Z := u32 (a - KERNBASE).
Definition PGROUNDUP (sz : Z) : Z := Z.land (u32 (sz + PGSIZE - 1)) (u32 (Z.lnot (PGSIZE - 1))).

Record kmem := mk_kmem {
  k_use_lock : bool;
  k_freelist : Z;
  k_mem : Z -> Z }.

Section Kalloc.
(** [kend] is the first address after the kernel, which the linker sets. *)
Context (kend : Z).

(** [memset(v, 1, PGSIZE)] and [r->next = kmem.freelist; kmem.freelist = r]. *)
Definition fill_page (v : Z) (k : kmem) : kmem :=
  mk_kmem (k_use_lock k) (k_freelist k)
    (fun a => if (v <=? a) && (a <? v + PGSIZE) then 16843009 else k_mem k a).
Definition push_page (v : Z) (k : kmem) : kmem :=
  mk_kmem (k_use_lock k) v (fun a => if a =? v then k_freelist k else k_mem k a).
(** [r = kmem.freelist; if(r) kmem.freelist = r->next]. *)
Definition pop_page (k : kmem) : kmem :=
  mk_kmem (k_use_lock k) (if ctrue (k_freelist k) then k_mem k (k_freelist k) else k_freelist k)
    (k_mem k).

Definition kfree (me : nat) (v : Z) : M (guarded kmem) unit :=
  if ctrue (v mod PGSIZE) || (v <? kend) || (V2P v >=? PHYSTOP) then panic "kfree"
  else
    g_mod (fill_page v) ;;
    k ← g_get;
    when (k_use_lock k) (g_acquire me) ;;
    g_mod (push_page v) ;;
    when (k_use_lock k) (g_release me).

Definition kalloc (me : nat) : M (guarded kmem) Z :=
  k ← g_get;
  when (k_use_lock k) (g_acquire me) ;;
  k ← g_get;
  let r := k_freelist k in
  g_mod pop_page ;;
  when (k_use_lock k) (g_release me) ;;
  mret r.

(** [freerange]'s loop, [n] bounding the number of whole pages. *)
Fixpoint freerange_loop (n : nat) (me : nat) (p vend : Z) : M (guarded kmem) unit :=
  match n with
  | O => mret tt
  | S n' =>
      if p + PGSIZE <=? vend then kfree me p ;; freerange_loop n' me (p + PGSIZE) vend
      else mret tt
  end.

Definition freerange (me : nat) (vstart vend : Z) : M (guarded kmem) unit :=
  let p := PGROUNDUP vstart in
  freerange_loop (Z.to_nat ((vend - p) / PGSIZE)) me p vend.

Definition set_use_lock (b : bool) : M (guarded kmem) unit :=
  g_mod (fun k => mk_kmem b (k_freelist k) (k_mem k)).
Definition kinit1 (me : nat) (vstart vend : Z) : M (guarded kmem) unit :=
  modify (fun g => mk_g (g_cpu g) Spinlock.initlock (g_val g) (g_wakes g)) ;;
  set_use_lock false ;;
  freerange me vstart vend.
Definition kinit2 (me : nat) (vstart vend : Z) : M (guarded kmem) unit :=
  freerange me vstart vend ;;
  set_use_lock true.

(** ** The pool *)

(** A page [kfree] accepts. *)
Definition page (v : Z) : Prop :=
  v mod PGSIZE = 0 /\ kend <= v /\ V2P v < PHYSTOP /\ 0 < v < 2 ^ 32.

(** The pages linked from [head], in order. *)
Fixpoint chain (mem : Z -> Z) (head : Z) (l : list Z) : Prop :=
  match l with
  | [] => head = 0
  | v :: l' => head = v /\ chain mem (mem v) l'
  end.

Definition pool (l : list Z) (k : kmem) : Prop :=
  chain (k_mem k) (k_freelist k) l /\ NoDup l /\ Forall page l.

Lemma page_disjoint u v a : page u -> page v -> u <> v -> u <= a < u + PGSIZE -> ~ v <= a < v + PGSIZE.
Proof.
  intros (Hu & _) (Hv & _) Hne Ha Hb. unfold PGSIZE in *.
  pose proof (Z.div_mod u 4096). pose proof (Z.div_mod v 4096). lia.
Qed.

Lemma chain_ext mem mem' head l :
  (forall v, v ∈ l -> mem' v = mem v) -> chain mem head l -> chain mem' head l.
Proof.
  revert head; induction l as [|v l IH]; intros head Hm; cbn; [done|]. intros [-> Hc].
  split; [done|]. rewrite Hm by (by left). apply IH; [|done]. intros u Hu. apply Hm. by right.
Qed.

(** Words outside the free pages are not the allocator's. *)
Lemma pool_write l k v a x :
  pool l k -> page v -> v ∉ l -> v <= a < v + PGSIZE ->
  pool l (mk_kmem (k_use_lock k) (k_freelist k) (fun b => if b =? a then x else k_mem k b)).
Proof.
  intros (Hc & Hnd & Hp) Hv Hnin Ha. split; [|done]. cbn. eapply chain_ext; [|exact Hc].
  intros u Hu. cbn. destruct (Z.eqb_spec u a) as [->|]; [|done]. exfalso.
  rewrite Forall_forall in Hp. pose proof (Hp a Hu) as Hpa.
  apply (page_disjoint a v a Hpa Hv); [by intros ->|unfold PGSIZE; lia|done].
Qed.

Lemma pool_push l k v : pool l k -> page v -> v ∉ l -> pool (v :: l) (push_page v (fill_page v k)).
Proof.
  intros (Hc & Hnd & Hp) Hv Hnin. split_and!; [|by constructor|by constructor].
  cbn. split; [done|]. rewrite Z.eqb_refl. eapply chain_ext; [|exact Hc].
  intros u Hu. cbn. destruct (Z.eqb_spec u v) as [->|Hne]; [done|].
  destruct ((v <=? u) && (u <? v + PGSIZE)) eqn:E; [|done]. exfalso.
  rewrite Forall_forall in Hp. apply (page_disjoint u v u (Hp u Hu) Hv Hne); unfold PGSIZE in *; lia.
Qed.

Lemma pool_pop l k :
  pool l k -> k_freelist k = hd 0 l /\ pool (tl l) (pop_page k).
Proof.
  intros (Hc & Hnd & Hp). destruct l as [|v l]; cbn in Hc.
  - split; [done|]. unfold pop_page. rewrite Hc. by split_and!.
  - destruct Hc as [Hh Hc]. split; [done|]. inversion Hp as [|? ? Hv Hp']; subst.
    inversion Hnd; subst. destruct Hv as (_ & _ & _ & Hv & _).
    unfold pop_page, ctrue. rewrite (proj2 (Z.eqb_neq (k_freelist k) 0)) by lia. by split_and!.
Qed.

Lemma kfree_run me v g :
  g_quiet g -> page v ->
  exists g', kfree me v g = Ret tt g' /\ g_quiet g' /\
    g_val g' = push_page v (fill_page v (g_val g)).
Proof.
  intros Hg (H1 & H2 & H3 & H4). unfold kfree.
  replace (ctrue (v mod PGSIZE) || (v <? kend) || (V2P v >=? PHYSTOP)) with false
    by (rewrite H1; cbn; lia).
  set (g1 := mk_g (g_cpu g) (g_lk g) (fill_page v (g_val g)) (g_wakes g)).
  rewrite (bind_eq (g_mod (fill_page v)) _ g tt g1 eq_refl).
  rewrite (bind_eq g_get _ g1 (g_val g1) g1 eq_refl). assert (Hg1 : g_quiet g1) by done.
  destruct (k_use_lock (g_val g1)); cbn [when].
  - rewrite (bind_eq _ _ _ _ _ (g_acquire_run me g1 Hg1)), (bind_eq _ _ _ _ _ (g_mod_run me _ g1 _ _)).
    rewrite (g_release_run me g1 _ _ Hg1). eexists. split; [done|]. split; [by apply out_cs_quiet|done].
  - eexists. split; [reflexivity|]. done.
Qed.

Lemma kfree_bad me v g :
  v mod PGSIZE <> 0 \/ v < kend \/ PHYSTOP <= V2P v -> kfree me v g = Panic "kfree" g.
Proof.
  intros H. unfold kfree.
  replace (ctrue (v mod PGSIZE) || (v <? kend) || (V2P v >=? PHYSTOP)) with true; [done|].
  unfold ctrue. destruct H as [H|[H|H]]; [rewrite (proj2 (Z.eqb_neq _ _) H); done|lia..].
Qed.

Lemma kalloc_run me g :
  g_quiet g ->
  exists g', kalloc me g = Ret (k_freelist (g_val g)) g' /\ g_quiet g' /\ g_val g' = pop_page (g_val g).
Proof.
  intros Hg. unfold kalloc. rewrite (bind_eq g_get _ g (g_val g) g eq_refl).
  destruct (k_use_lock (g_val g)) eqn:E; cbn [when].
  - rewrite (bind_eq _ _ _ _ _ (g_acquire_run me g Hg)), (bind_eq _ _ _ _ _ (g_get_run me g _ _)).
    cbv zeta. rewrite E. rewrite (bind_eq _ _ _ _ _ (g_mod_run me _ g _ _)). cbn [when].
    rewrite (bind_eq _ _ _ _ _ (g_release_run me g _ _ Hg)).
    eexists. split; [done|]. split; [by apply out_cs_quiet|done].
  - rewrite (bind_eq (M_ret tt) _ g tt g eq_refl), (bind_eq g_get _ g (g_val g) g eq_refl). cbv zeta.
    rewrite E. eexists. split; [reflexivity|]. done.
Qed.

(** ** Any sequence of allocations, frees and writes *)

Inductive kop := KAlloc | KFree (v : Z) | KWrite (v a x : Z).

Definition kop_run (me : nat) (o : kop) (g : guarded kmem) : res (guarded kmem) Z :=
  match o with
  | KAlloc => kalloc me g
  | KFree v => (kfree me v ;; mret 0) g
  | KWrite v a x => (g_mod (fun k => mk_kmem (k_use_lock k) (k_freelist k)
      (fun b => if b =? a then x else k_mem k b)) ;; mret 0) g
  end.

(** What a client that has the pages [held] may do, and what it has afterwards. *)
Definition kop_ok (o : kop) (held : list Z) : Prop :=
  match o with
  | KAlloc => True
  | KFree v => v ∈ held
  | KWrite v a _ => v ∈ held /\ v <= a < v + PGSIZE
  end.
Definition kop_held (o : kop) (r : Z) (held : list Z) : list Z :=
  match o with
  | KAlloc => if r =? 0 then held else r :: held
  | KFree v => filter (.≠ v) held
  | KWrite _ _ _ => held
  end.

(** The pages are split between the client and the pool. *)
Definition split_pages (all held : list Z) (k : kmem) : Prop :=
  exists l, pool l k /\ Permutation all (held ++ l).

Lemma filter_out (v : Z) (held : list Z) : NoDup held -> v ∈ held -> Permutation held (v :: filter (.≠ v) held).
Proof.
  intros Hnd Hv. apply NoDup_Permutation; [done| |].
  - constructor; [|by apply NoDup_filter]. intros [H _]%list_elem_of_filter. by apply H.
  - intros u. rewrite elem_of_cons, list_elem_of_filter. destruct (decide (u = v)); naive_solver.
Qed.

Lemma kop_step me o all held g :
  g_quiet g -> NoDup all -> Forall page all -> split_pages all held (g_val g) -> kop_ok o held ->
  exists r g', kop_run me o g = Ret r g' /\ g_quiet g' /\
    split_pages all (kop_held o r held) (g_val g') /\
    (o = KAlloc -> (r = 0 /\ Permutation all held) \/ (r ∈ all /\ r ∉ held)).
Proof.
  intros Hg Hnd Hpg (l & Hpool & Hperm) Ho.
  assert (Hnd' : NoDup (held ++ l)) by (by rewrite <- Hperm).
  apply NoDup_app in Hnd' as (Hndh & Hdis & _).
  assert (Hpage : forall v, v ∈ held -> page v).
  { intros v Hv. rewrite Forall_forall in Hpg. apply Hpg. rewrite Hperm. apply elem_of_app. by left. }
  destruct o as [|v|v a x]; cbn [kop_run kop_ok kop_held] in *.
  - destruct (kalloc_run me g Hg) as (g' & E & Hg' & Ev). destruct (pool_pop _ _ Hpool) as [Hh Hpop].
    exists (k_freelist (g_val g)), g'. rewrite Ev, Hh. split; [by rewrite <- Hh|]. split; [done|].
    destruct l as [|u l]; cbn [hd tl] in *.
    + split; [by exists []|]. intros _. left. split; [done|]. by rewrite app_nil_r in Hperm.
    + assert (Hu : u ∈ all) by (rewrite Hperm; apply elem_of_app; right; by left).
      assert (u <> 0).
      { rewrite Forall_forall in Hpg. destruct (Hpg u Hu) as (_ & _ & _ & ?). lia. }
      rewrite (proj2 (Z.eqb_neq u 0)) by done. split.
      * exists l. split; [done|]. rewrite Hperm. symmetry. apply Permutation_middle.
      * intros _. right. split; [done|]. intros Hin. apply (Hdis u Hin). by left.
  - destruct (kfree_run me v g Hg (Hpage v Ho)) as (g' & E & Hg' & Ev).
    exists 0, g'. rewrite (bind_eq _ _ _ _ _ E), Ev. split_and!; try done.
    exists (v :: l). split; [apply pool_push; auto|].
    rewrite Hperm at 1. rewrite (filter_out v held) at 1 by done. apply Permutation_middle.
  - destruct Ho as [Hv Ha]. eexists 0, _. split; [reflexivity|]. split_and!; try done.
    exists l. split; [|done]. apply (pool_write l (g_val g) v a x); auto.
Qed.

(** The pages the client has after a run, if every step of it was allowed. *)
Fixpoint kops (me : nat) (os : list kop) (held : list Z) (g : guarded kmem) :
    option (list Z * guarded kmem) :=
  match os with
  | [] => Some (held, g)
  | o :: os' =>
      match kop_run me o g with
      | Ret r g' => kops me os' (kop_held o r held) g'
      | _ => None
      end
  end.

Fixpoint kops_ok (me : nat) (os : list kop) (held : list Z) (g : guarded kmem) : Prop :=
  match os with
  | [] => True
  | o :: os' =>
      kop_ok o held /\
      match kop_run me o g with Ret r g' => kops_ok me os' (kop_held o r held) g' | _ => True end
  end.

(** C10: the page allocator neither loses a page nor hands one out twice: over any
    sequence of allocations, frees and writes in which clients free and write only
    pages they have, no call panics, the pages out and the pages free are together
    the pages there were at the start, and a page returned by [kalloc] is one that
    nobody had; 0 is returned only when none is free. *)
Theorem kalloc_pool me os o all held g :
  g_quiet g -> NoDup all -> Forall page all -> split_pages all held (g_val g) ->
  kops_ok me (os ++ [o]) held g ->
  exists held' g' r g'', kops me os held g = Some (held', g') /\ kop_run me o g' = Ret r g'' /\
    split_pages all (kop_held o r held') (g_val g'') /\
    (o = KAlloc -> (r = 0 /\ Permutation all held') \/ (r ∈ all /\ r ∉ held')).
Proof.
  revert held g; induction os as [|o' os IH]; intros held g Hg Hnd Hpg Hs Hok; cbn [kops kops_ok app] in *.
  - destruct Hok as [Ho _]. destruct (kop_step me o all held g Hg Hnd Hpg Hs Ho) as (r & g' & E & _ & Hs' & Hr).
    by exists held, g, r, g'.
  - destruct Hok as [Ho Hok].
    destruct (kop_step me o' all held g Hg Hnd Hpg Hs Ho) as (r & g' & E & Hg' & Hs' & _).
    rewrite E in *. by apply IH.
Qed.
End Kalloc.

(** Two pages, both free. *)
Definition demo_kmem : guarded kmem :=
  mk_g (mk_cpu 0 false true) Spinlock.initlock
    (mk_kmem true 2148532224 (fun a => if a =? 2148532224 then 2148536320 else 0)) [].
Definition demo_pages : list Z := [2148532224; 2148536320].

Lemma kalloc_pool_witness :
  exists held' g' r g'', kops 2148532224 0 [KAlloc; KAlloc; KFree 2148532224] [] demo_kmem = Some (held', g') /\
    kop_run 2148532224 0 KAlloc g' = Ret r g'' /\
    split_pages 2148532224 demo_pages (kop_held KAlloc r held') (g_val g'') /\
    (KAlloc = KAlloc -> (r = 0 /\ Permutation demo_pages held') \/ (r ∈ demo_pages /\ r ∉ held')).
Proof.
  assert (Hp : Forall (page 2148532224) demo_pages)
    by (repeat constructor; vm_compute; try discriminate; reflexivity).
  assert (Hn : NoDup demo_pages).
  { apply NoDup_cons. split; [|apply NoDup_cons; split; [apply not_elem_of_nil|constructor]].
    intros H%list_elem_of_singleton. discriminate H. }
  apply (kalloc_pool 2148532224 0 [KAlloc; KAlloc; KFree 2148532224] KAlloc demo_pages [] demo_kmem).
  - split; [reflexivity|]. split; cbn; lia.
  - exact Hn.
  - exact Hp.
  - exists demo_pages. split; [|reflexivity]. split_and!; [repeat split|exact Hn|exact Hp].
  - vm_compute. split_and!; try exact I. apply list_elem_of_further, list_elem_of_here.
Defined.
