(* ===== verification/Bytes.v ===== *)
(** Little-endian integers in a block of bytes: how the kernel lays out, and reads
    back, the integers of the structures it keeps on disk. *)

From S2P Require Import Prelude.

Notation block := (list Z) (only parsing).

Definition byte_at (b : block) (k : nat) : Z := nth k b 0.

(** [n] bytes from [off] on, as an unsigned integer, and the bytes of an integer. *)
Fixpoint get_le (n : nat) (b : block) (off : nat) : Z :=
  match n with
  | O => 0
  | S n' => byte_at b off + 256 * get_le n' b (S off)
  end.
Fixpoint put_le (n : nat) (b : block) (off : nat) (v : Z) : block :=
  match n with
  | O => b
  | S n' => put_le n' (<[off := v mod 256]> b) (S off) (v / 256)
  end.

Definition get16 := get_le 2.
Definition get32 := get_le 4.
Definition put16 := put_le 2.
Definition put32 := put_le 4.

Lemma put_le_length n b off v : length (put_le n b off v) = length b.
Proof.
  revert b off v; induction n as [|n IH]; intros b off v; cbn [put_le]; [done|].
  by rewrite IH, length_insert.
Qed.

Lemma put_le_other n b off v k :
  (k < off \/ off + n <= k)%nat -> byte_at (put_le n b off v) k = byte_at b k.
Proof.
  revert b off v; induction n as [|n IH]; intros b off v Hk; cbn [put_le]; [done|].
  rewrite IH by lia. unfold byte_at. rewrite !nth_lookup, list_lookup_insert_ne by lia. done.
Qed.

Lemma get_le_ext n b b' off :
  (forall k, (off <= k < off + n)%nat -> byte_at b' k = byte_at b k) -> get_le n b' off = get_le n b off.
Proof.
  revert off; induction n as [|n IH]; intros off H; cbn [get_le]; [done|].
  rewrite H by lia. rewrite IH; [done|]. intros; apply H; lia.
Qed.

(** What was stored is read back, and the rest of the block is untouched. *)
Lemma get_put_same n b off v :
  (off + n <= length b)%nat -> 0 <= v < 256 ^ Z.of_nat n -> get_le n (put_le n b off v) off = v.
Proof.
  revert b off v; induction n as [|n IH]; intros b off v Hl Hv; cbn [put_le get_le].
  { change (256 ^ Z.of_nat 0) with 1 in Hv. lia. }
  rewrite Nat2Z.inj_succ, Z.pow_succ_r in Hv by lia.
  rewrite put_le_other by lia. unfold byte_at at 1.
  rewrite nth_lookup, list_lookup_insert_eq by lia. cbn [from_option id].
  assert (0 <= v / 256 < 256 ^ Z.of_nat n).
  { split; [apply Z.div_pos; lia|apply Z.div_lt_upper_bound; lia]. }
  rewrite IH; [|by rewrite length_insert; lia|done].
  pose proof (Z.div_mod v 256). unfold id. lia.
Qed.

Lemma get_put_other n m b off off' v :
  (off' + m <= off \/ off + n <= off')%nat -> get_le m (put_le n b off v) off' = get_le m b off'.
Proof. intros H. apply get_le_ext. intros k Hk. apply put_le_other. lia. Qed.

Lemma get_le_range n b off :
  Forall (fun x => 0 <= x < 256) b -> 0 <= get_le n b off < 256 ^ Z.of_nat n.
Proof.
  intros Hb. revert off; induction n as [|n IH]; intros off; cbn [get_le].
  { change (256 ^ Z.of_nat 0) with 1. lia. }
  rewrite Nat2Z.inj_succ, Z.pow_succ_r by lia. specialize (IH (S off)).
  assert (0 <= byte_at b off < 256).
  { unfold byte_at. rewrite nth_lookup. destruct (b !! off) eqn:E; cbn; [|lia].
    rewrite Forall_lookup in Hb. by apply (Hb off). }
  lia.
Qed.

Lemma put_le_bytes n b off v :
  Forall (fun x => 0 <= x < 256) b -> Forall (fun x => 0 <= x < 256) (put_le n b off v).
Proof.
  revert b off v; induction n as [|n IH]; intros b off v Hb; cbn [put_le]; [done|].
  apply IH, Forall_insert; [done|]. apply Z.mod_pos_bound. lia.
Qed.

Lemma put32_length b off v : length (put32 b off v) = length b.
Proof. apply put_le_length. Qed.
Lemma get32_put32 b off v :
  (off + 4 <= length b)%nat -> 0 <= v < 2 ^ 32 -> get32 (put32 b off v) off = v.
Proof. apply get_put_same. Qed.
Lemma get32_put32_ne b off off' v :
  (off' + 4 <= off \/ off + 4 <= off')%nat -> get32 (put32 b off v) off' = get32 b off'.
Proof. apply get_put_other. Qed.
Lemma put16_length b off v : length (put16 b off v) = length b.
Proof. apply put_le_length. Qed.
Lemma get16_put16 b off v :
  (off + 2 <= length b)%nat -> 0 <= v < 2 ^ 16 -> get16 (put16 b off v) off = v.
Proof. apply get_put_same. Qed.
Lemma get16_put16_ne b off off' v :
  (off' + 2 <= off \/ off + 2 <= off')%nat -> get16 (put16 b off v) off' = get16 b off'.
Proof. apply get_put_other. Qed.
Lemma get16_put32_ne b off off' v :
  (off' + 2 <= off \/ off + 4 <= off')%nat -> get16 (put32 b off v) off' = get16 b off'.
Proof. apply get_put_other. Qed.
Lemma get32_put16_ne b off off' v :
  (off' + 4 <= off \/ off + 2 <= off')%nat -> get32 (put16 b off v) off' = get32 b off'.
Proof. apply get_put_other. Qed.

(** A signed integer stored and read back. *)
Lemma i32_get32_put32 b off v :
  (off + 4 <= length b)%nat -> in_i32 v -> i32 (get32 (put32 b off (u32 v)) off) = v.
Proof.
  intros Hb Hv. rewrite get32_put32 by (done || apply u32_range). by rewrite i32_u32, i32_small.
Qed.
