(* ===== verification/Log.v ===== *)
(** The write-ahead log of the file system ([log.c]).

    The log works on blocks through the buffer cache, which is an interface here
    ([Class BlockIO]): what a block reads as, what is on the disk, and the reads
    and writes the log does.  Every disk write is recorded in [l_tr], so that the
    state of the disk after a crash at any moment is known; the main theorem says
    that recovery then leaves either all of a transaction's blocks as they were or
    all of them updated. *)

From S2P Require Import Prelude Locks Guarded Bytes.

Definition LOGSIZE : Z := 30.
Definition MAXOPBLOCKS : Z := 10.
Definition BSIZE : Z := 512.

(** A function with one value replaced. *)
Definition upd {A} (n : Z) (v : A) (f : Z -> A) : Z -> A := fun m => if m =? n then v else f m.

(** What [log.c] relies on of [bio.c].  [io_sees s view disk]: in state [s] the
    blocks read as [view] and the disk holds [disk].  [io_bread] is a [bread] whose
    buffer is released after use, [io_bwrite] a [bread], a change of the whole data
    and a [bwrite], [io_mark] the setting of [B_DIRTY] that keeps a buffer cached. *)
Class BlockIO (S : Type) := {
  io_size : Z;
  io_sees : S -> (Z -> block) -> (Z -> block) -> Prop;
  io_bread : Z -> M S block;
  io_bwrite : Z -> block -> M S unit;
  io_mark : Z -> M S unit;
  io_bread_ok : forall s view disk n, io_sees s view disk -> 0 <= n < io_size ->
    exists s', io_bread n s = Ret (view n) s' /\ io_sees s' view disk;
  io_bwrite_ok : forall s view disk n d, io_sees s view disk -> 0 <= n < io_size -> length d = 512%nat ->
    exists s', io_bwrite n d s = Ret tt s' /\ io_sees s' (upd n d view) (upd n d disk) }.

(** [struct log] without its lock, and [struct logheader]. *)
Record log := mk_log {
  lg_start : Z;
  lg_size : Z;
  lg_outstanding : Z;
  lg_committing : Z;
  lh_n : Z;
  lh_block : list Z }.

Definition set_outstanding (v : Z) (l : log) : log :=
  mk_log (lg_start l) (lg_size l) v (lg_committing l) (lh_n l) (lh_block l).
Definition set_committing (v : Z) (l : log) : log :=
  mk_log (lg_start l) (lg_size l) (lg_outstanding l) v (lh_n l) (lh_block l).
Definition set_lh (n : Z) (b : list Z) (l : log) : log :=
  mk_log (lg_start l) (lg_size l) (lg_outstanding l) (lg_committing l) n b.

(** The header in a block: [n] at offset 0, [block[i]] at 4 + 4 * i. *)
Fixpoint put_entries (b : block) (i : nat) (bs : list Z) : block :=
  match bs with
  | [] => b
  | x :: bs' => put_entries (put32 b (4 + 4 * i)%nat (u32 x)) (S i) bs'
  end.
Definition put_header (n : Z) (bs : list Z) (b : block) : block := put_entries (put32 b 0 (u32 n)) 0 bs.
Definition header_n (b : block) : Z := i32 (get32 b 0).
Definition header_entry (b : block) (i : nat) : Z := i32 (get32 b (4 + 4 * i)%nat).

(** The disks a crash can leave: before the commit point with the old data, after
    it with the log complete, or done. *)
Inductive phase := Old | Mid | New.
#[global] Instance phase_eq_dec : EqDecision phase.
Proof. solve_decision. Defined.

Section Log.
Context {S : Type} `{BlockIO S}.

Record lst := mk_lst { l_g : guarded log; l_io : S; l_tr : list (Z * block) }.

Definition LG {A} (m : M (guarded log) A) : M lst A :=
  zoom l_g (fun g x => mk_lst g (l_io x) (l_tr x)) m.
Definition bread (n : Z) : M lst block :=
  zoom l_io (fun s x => mk_lst (l_g x) s (l_tr x)) (io_bread n).
Definition bwrite (n : Z) (d : block) : M lst unit :=
  zoom l_io (fun s x => mk_lst (l_g x) s (l_tr x)) (io_bwrite n d) ;;
  modify (fun x => mk_lst (l_g x) (l_io x) (l_tr x ++ [(n, d)])).

(** [install_trans]: from [tail] on, with [k] blocks left. *)
Fixpoint install_loop (k tail : nat) : M lst unit :=
  match k with
  | O => mret tt
  | Datatypes.S k' =>
      l ← LG g_get;
      lbuf ← bread (lg_start l + Z.of_nat tail + 1);
      b ← of_option OutOfBounds (lh_block l !! tail);
      bread b ;;
      bwrite b lbuf ;;
      install_loop k' (Datatypes.S tail)
  end.
Definition install_trans : M lst unit := l ← LG g_get; install_loop (Z.to_nat (lh_n l)) 0.

(** The loop of [read_head]. *)
Fixpoint read_entries (k i : nat) (buf : block) : M lst unit :=
  match k with
  | O => mret tt
  | Datatypes.S k' =>
      l ← LG g_get;
      if (Nat.ltb i (length (lh_block l))) then
        LG (g_mod (fun l => set_lh (lh_n l) (<[i := header_entry buf i]> (lh_block l)) l)) ;;
        read_entries k' (Datatypes.S i) buf
      else faults OutOfBounds
  end.
Definition read_head : M lst unit :=
  l ← LG g_get;
  buf ← bread (lg_start l);
  LG (g_mod (fun l => set_lh (header_n buf) (lh_block l) l)) ;;
  read_entries (Z.to_nat (header_n buf)) 0 buf.

Definition write_head : M lst unit :=
  l ← LG g_get;
  buf ← bread (lg_start l);
  bwrite (lg_start l) (put_header (lh_n l) (take (Z.to_nat (lh_n l)) (lh_block l)) buf).

Definition recover_from_log : M lst unit :=
  read_head ;;
  install_trans ;;
  LG (g_mod (fun l => set_lh 0 (lh_block l) l)) ;;
  write_head.

(** [logstart] and [nlog] are what [readsb] finds in the superblock. *)
Definition initlog (logstart nlog : Z) : M lst unit :=
  modify (fun x => mk_lst (mk_g (g_cpu (l_g x)) Spinlock.initlock (g_val (l_g x)) (g_wakes (l_g x)))
                     (l_io x) (l_tr x)) ;;
  LG (g_mod (fun l => mk_log logstart nlog (lg_outstanding l) (lg_committing l) (lh_n l) (lh_block l))) ;;
  recover_from_log.

(** One turn of the loop of [begin_op]; after its [sleep] it starts over. *)
Definition begin_op (me : nat) : M lst unit :=
  LG (g_acquire me ;;
      l ← g_get;
      if ctrue (lg_committing l) then g_sleep me CLog 0
      else if lh_n l + (lg_outstanding l + 1) * MAXOPBLOCKS >? LOGSIZE then g_sleep me CLog 0
      else g_mod (set_outstanding (lg_outstanding l + 1)) ;; g_release me).

(** [write_log]: from [tail] on, with [k] blocks left. *)
Fixpoint write_log_loop (k tail : nat) : M lst unit :=
  match k with
  | O => mret tt
  | Datatypes.S k' =>
      l ← LG g_get;
      bread (lg_start l + Z.of_nat tail + 1) ;;
      b ← of_option OutOfBounds (lh_block l !! tail);
      from ← bread b;
      bwrite (lg_start l + Z.of_nat tail + 1) from ;;
      write_log_loop k' (Datatypes.S tail)
  end.
Definition write_log : M lst unit := l ← LG g_get; write_log_loop (Z.to_nat (lh_n l)) 0.

Definition commit : M lst unit :=
  l ← LG g_get;
  when (lh_n l >? 0)
    (write_log ;;
     write_head ;;
     install_trans ;;
     LG (g_mod (fun l => set_lh 0 (lh_block l) l)) ;;
     write_head).

Definition end_op (me : nat) : M lst unit :=
  LG (g_acquire me) ;;
  LG (g_mod (fun l => set_outstanding (lg_outstanding l - 1) l)) ;;
  l ← LG g_get;
  if ctrue (lg_committing l) then panic "log.committing"
  else
    (if lg_outstanding l =? 0 then LG (g_mod (set_committing 1)) else LG (g_wakeup CLog)) ;;
    LG (g_release me) ;;
    when (lg_outstanding l =? 0)
      (commit ;;
       LG (g_acquire me) ;;
       LG (g_mod (set_committing 0)) ;;
       LG (g_wakeup CLog) ;;
       LG (g_release me)).

(** The slot [log_write] uses for block [b]: that of an earlier write of the same
    block, else the first unused one. *)
Fixpoint absorb (bs : list Z) (b : Z) : nat :=
  match bs with
  | [] => O
  | x :: bs' => if x =? b then O else Datatypes.S (absorb bs' b)
  end.

Definition log_write (me : nat) (blockno : Z) : M lst unit :=
  l ← LG g_get;
  if (lh_n l >=? LOGSIZE) || (lh_n l >=? lg_size l - 1) then panic "too big a transaction"
  else if lg_outstanding l <? 1 then panic "log_write outside of trans"
  else
    LG (g_acquire me) ;;
    l ← LG g_get;
    let i := absorb (take (Z.to_nat (lh_n l)) (lh_block l)) blockno in
    LG (g_mod (fun l => set_lh (if Z.of_nat i =? lh_n l then lh_n l + 1 else lh_n l)
                          (<[i := blockno]> (lh_block l)) l)) ;;
    zoom l_io (fun s x => mk_lst (l_g x) s (l_tr x)) (io_mark blockno) ;;
    LG (g_release me).

(** ** Disks *)

Definition disk : Type := Z -> block.

(** The disk after a sequence of writes. *)
Definition apply_writes (ws : list (Z * block)) (d : disk) : disk :=
  fold_left (fun d w => upd (fst w) (snd w) d) ws d.

Lemma apply_writes_app ws ws' d : apply_writes (ws ++ ws') d = apply_writes ws' (apply_writes ws d).
Proof. apply fold_left_app. Qed.

Lemma apply_writes_other ws d n : n ∉ ws.*1 -> apply_writes ws d n = d n.
Proof.
  revert d; induction ws as [|[m v] ws IH]; intros d Hn; [done|]. cbn in Hn.
  apply not_elem_of_cons in Hn as [H1 H2]. change (apply_writes ((m, v) :: ws) d) with (apply_writes ws (upd m v d)).
  rewrite IH by done. unfold upd. by rewrite (proj2 (Z.eqb_neq n m)).
Qed.

(** ** The headers *)

Lemma put_entries_length b i bs : length (put_entries b i bs) = length b.
Proof. revert b i; induction bs as [|x bs IH]; intros b i; cbn [put_entries]; [done|]. by rewrite IH, put32_length. Qed.

Lemma put_header_length n bs b : length (put_header n bs b) = length b.
Proof. unfold put_header. by rewrite put_entries_length, put32_length. Qed.

Lemma put_entries_before b i bs off :
  (off + 4 <= 4 + 4 * i)%nat -> get32 (put_entries b i bs) off = get32 b off.
Proof.
  revert b i; induction bs as [|x bs IH]; intros b i Hoff; cbn [put_entries]; [done|].
  rewrite IH by lia. apply get32_put32_ne. lia.
Qed.

Lemma header_n_put n bs b :
  (4 <= length b)%nat -> in_i32 n -> header_n (put_header n bs b) = n.
Proof.
  intros Hb Hn. unfold header_n, put_header. rewrite put_entries_before by lia.
  by apply i32_get32_put32.
Qed.

Lemma put_entries_at b i bs j x :
  bs !! j = Some x -> (4 + 4 * (i + length bs) <= length b)%nat -> in_i32 x ->
  i32 (get32 (put_entries b i bs) (4 + 4 * (i + j))%nat) = x.
Proof.
  revert b i j; induction bs as [|y bs IH]; intros b i j Hj Hb Hx; [done|].
  destruct j as [|j]; cbn in Hj, Hb; cbn [put_entries].
  - injection Hj as ->. rewrite put_entries_before by lia. rewrite Nat.add_0_r. apply i32_get32_put32; [lia|done].
  - replace (4 + 4 * (i + Datatypes.S j))%nat with (4 + 4 * (Datatypes.S i + j))%nat by lia.
    apply IH; [done| |done]. rewrite put32_length. lia.
Qed.

Lemma header_entry_put n bs b j x :
  bs !! j = Some x -> (4 + 4 * length bs <= length b)%nat -> in_i32 x ->
  header_entry (put_header n bs b) j = x.
Proof.
  intros Hj Hb Hx. unfold header_entry, put_header.
  rewrite <- (put_entries_at (put32 b 0 (u32 n)) 0 bs j x Hj); [done| |done].
  by rewrite put32_length.
Qed.

(** ** Running the log's routines *)

(** The state as the log's routines see it. *)
Definition at_ (x : lst) (g : guarded log) (V D : disk) (tr : list (Z * block)) : Prop :=
  l_g x = g /\ l_tr x = tr /\ io_sees (l_io x) V D.

Definition good (V : disk) : Prop := forall n, length (V n) = 512%nat.

Lemma good_upd V n d : good V -> length d = 512%nat -> good (upd n d V).
Proof. intros HV Hd m. unfold upd. by case_match. Qed.

Lemma bread_run x g V D tr n :
  at_ x g V D tr -> 0 <= n < io_size -> exists x', bread n x = Ret (V n) x' /\ at_ x' g V D tr.
Proof.
  intros (<- & <- & Hs) Hn. destruct (io_bread_ok _ _ _ _ Hs Hn) as (s' & E & Hs').
  eexists. unfold bread, zoom. rewrite E. by split.
Qed.

Lemma bwrite_run x g V D tr n d :
  at_ x g V D tr -> 0 <= n < io_size -> length d = 512%nat ->
  exists x', bwrite n d x = Ret tt x' /\ at_ x' g (upd n d V) (upd n d D) (tr ++ [(n, d)]).
Proof.
  intros (<- & <- & Hs) Hn Hd. destruct (io_bwrite_ok _ _ _ _ _ Hs Hn Hd) as (s' & E & Hs').
  eexists. unfold bwrite, zoom. munfold. rewrite E. by split_and!.
Qed.

Lemma LG_get_run x g V D tr : at_ x g V D tr -> LG g_get x = Ret (g_val g) x.
Proof. intros (<- & _). by destruct x as [[]]. Qed.

Definition set_val (f : log -> log) (g : guarded log) : guarded log :=
  mk_g (g_cpu g) (g_lk g) (f (g_val g)) (g_wakes g).

Lemma LG_mod_run x g V D tr f :
  at_ x g V D tr -> exists x', LG (g_mod f) x = Ret tt x' /\ at_ x' (set_val f g) V D tr.
Proof. intros (<- & <- & Hs). eexists. split; [reflexivity|]. done. Qed.

(** Home blocks, and the log's area. *)
Definition home (start size b : Z) : Prop := 0 <= b < io_size /\ ~ start <= b < start + size /\ in_i32 b.
Definition area_ok (start size : Z) : Prop := 0 <= start /\ 0 < size <= LOGSIZE /\ start + size <= io_size.

(** The writes of [write_log] and of [install_trans], for blocks [bs] with log
    blocks from [a] on. *)
Fixpoint log_writes (a : Z) (V : disk) (bs : list Z) : list (Z * block) :=
  match bs with [] => [] | b :: bs' => (a, V b) :: log_writes (a + 1) V bs' end.
Fixpoint home_writes (a : Z) (V : disk) (bs : list Z) : list (Z * block) :=
  match bs with [] => [] | b :: bs' => (b, V a) :: home_writes (a + 1) V bs' end.

Lemma home_writes_ext a V V' bs :
  (forall m, a <= m < a + Z.of_nat (length bs) -> V' m = V m) -> home_writes a V' bs = home_writes a V bs.
Proof.
  revert a; induction bs as [|b bs IH]; intros a HV; cbn [home_writes]; [done|]. cbn [length] in HV.
  rewrite HV, IH; [done| |lia]. intros m Hm. apply HV. lia.
Qed.

Lemma log_writes_ext a V V' bs :
  (forall b, b ∈ bs -> V' b = V b) -> log_writes a V' bs = log_writes a V bs.
Proof.
  revert a; induction bs as [|b bs IH]; intros a HV; cbn [log_writes]; [done|].
  rewrite HV, IH; [done| |by left]. intros m Hm. apply HV. by right.
Qed.

Lemma install_loop_run start size bs tail x g V D tr :
  at_ x g V D tr -> good V -> area_ok start size -> lg_start (g_val g) = start ->
  (forall i b, bs !! i = Some b -> lh_block (g_val g) !! (tail + i)%nat = Some b) ->
  Forall (home start size) bs -> Z.of_nat (tail + length bs) < size ->
  exists x', install_loop (length bs) tail x = Ret tt x' /\
    let ws := home_writes (start + Z.of_nat tail + 1) V bs in
    at_ x' g (apply_writes ws V) (apply_writes ws D) (tr ++ ws).
Proof.
  intros Hat HV Ha <-. revert tail x V D tr Hat HV.
  induction bs as [|b bs IH]; intros tail x V D tr Hat HV Hbs Hh Hlen; cbn [length install_loop home_writes].
  { exists x. by rewrite app_nil_r. }
  inversion Hh as [|? ? (Hb1 & Hb2 & _) Hh']; subst. destruct Ha as (Ha1 & Ha2 & Ha3). cbn [length] in Hlen.
  rewrite (bind_eq _ _ _ _ _ (LG_get_run _ _ _ _ _ Hat)).
  destruct (bread_run _ _ _ _ _ (lg_start (g_val g) + Z.of_nat tail + 1) Hat) as (x1 & E1 & Hat1); [lia|].
  rewrite (bind_eq _ _ _ _ _ E1). pose proof (Hbs 0%nat b eq_refl) as Hb0. rewrite Nat.add_0_r in Hb0. rewrite Hb0.
  cbn [of_option]. rewrite (bind_eq (M_ret b) _ _ _ _ eq_refl).
  destruct (bread_run _ _ _ _ _ b Hat1) as (x2 & E2 & Hat2); [done|]. rewrite (bind_eq _ _ _ _ _ E2).
  destruct (bwrite_run _ _ _ _ _ b (V (lg_start (g_val g) + Z.of_nat tail + 1)) Hat2) as (x3 & E3 & Hat3); [done..|].
  rewrite (bind_eq _ _ _ _ _ E3). set (c := V _) in *.
  destruct (IH (Datatypes.S tail) x3 _ _ _ Hat3) as (x4 & E4 & Hat4); try done.
  - apply good_upd; [done|apply HV].
  - intros i b' Hi. replace (Datatypes.S tail + i)%nat with (tail + Datatypes.S i)%nat by lia. by apply Hbs.
  - lia.
  - exists x4. split; [exact E4|]. cbv zeta in Hat4.
    rewrite (home_writes_ext _ V) in Hat4.
    + replace (lg_start (g_val g) + Z.of_nat (Datatypes.S tail) + 1)
        with (lg_start (g_val g) + Z.of_nat tail + 1 + 1) in Hat4 by lia.
      rewrite <- app_assoc in Hat4. exact Hat4.
    + intros m Hm. unfold upd. rewrite (proj2 (Z.eqb_neq m b)); [done|]. lia.
Qed.

Lemma write_log_loop_run start size bs tail x g V D tr :
  at_ x g V D tr -> good V -> area_ok start size -> lg_start (g_val g) = start ->
  (forall i b, bs !! i = Some b -> lh_block (g_val g) !! (tail + i)%nat = Some b) ->
  Forall (home start size) bs -> Z.of_nat (tail + length bs) < size ->
  exists x', write_log_loop (length bs) tail x = Ret tt x' /\
    let ws := log_writes (start + Z.of_nat tail + 1) V bs in
    at_ x' g (apply_writes ws V) (apply_writes ws D) (tr ++ ws).
Proof.
  intros Hat HV Ha <-. revert tail x V D tr Hat HV.
  induction bs as [|b bs IH]; intros tail x V D tr Hat HV Hbs Hh Hlen; cbn [length write_log_loop log_writes].
  { exists x. by rewrite app_nil_r. }
  inversion Hh as [|? ? (Hb1 & Hb2 & _) Hh']; subst. destruct Ha as (Ha1 & Ha2 & Ha3). cbn [length] in Hlen.
  rewrite (bind_eq _ _ _ _ _ (LG_get_run _ _ _ _ _ Hat)).
  destruct (bread_run _ _ _ _ _ (lg_start (g_val g) + Z.of_nat tail + 1) Hat) as (x1 & E1 & Hat1); [lia|].
  rewrite (bind_eq _ _ _ _ _ E1). pose proof (Hbs 0%nat b eq_refl) as Hb0. rewrite Nat.add_0_r in Hb0. rewrite Hb0.
  cbn [of_option]. rewrite (bind_eq (M_ret b) _ _ _ _ eq_refl).
  destruct (bread_run _ _ _ _ _ b Hat1) as (x2 & E2 & Hat2); [done|]. rewrite (bind_eq _ _ _ _ _ E2).
  destruct (bwrite_run _ _ _ _ _ (lg_start (g_val g) + Z.of_nat tail + 1) (V b) Hat2) as (x3 & E3 & Hat3); [lia|done|].
  rewrite (bind_eq _ _ _ _ _ E3).
  destruct (IH (Datatypes.S tail) x3 _ _ _ Hat3) as (x4 & E4 & Hat4); try done.
  - apply good_upd; [done|apply HV].
  - intros i b' Hi. replace (Datatypes.S tail + i)%nat with (tail + Datatypes.S i)%nat by lia. by apply Hbs.
  - lia.
  - exists x4. split; [exact E4|]. cbv zeta in Hat4.
    rewrite (log_writes_ext _ V) in Hat4.
    + replace (lg_start (g_val g) + Z.of_nat (Datatypes.S tail) + 1)
        with (lg_start (g_val g) + Z.of_nat tail + 1 + 1) in Hat4 by lia.
      rewrite <- app_assoc in Hat4. exact Hat4.
    + intros m Hm. unfold upd. rewrite Forall_forall in Hh'. destruct (Hh' m Hm) as (_ & Hm' & _).
      rewrite (proj2 (Z.eqb_neq m _)); [done|]. lia.
Qed.

(** The header block [b] lists the blocks [bs]. *)
Definition decodes (b : block) (bs : list Z) : Prop :=
  header_n b = Z.of_nat (length bs) /\ forall j x, bs !! j = Some x -> header_entry b j = x.

Lemma decodes_put b bs :
  length b = 512%nat -> (length bs <= 30)%nat -> Forall in_i32 bs ->
  decodes (put_header (Z.of_nat (length bs)) bs b) bs.
Proof.
  intros Hb Hl Hi. split.
  - apply header_n_put; [lia|]. unfold_int. lia.
  - intros j x Hj. apply header_entry_put; [done|lia|]. rewrite Forall_lookup in Hi. by apply (Hi j).
Qed.

Lemma write_head_run x g V D tr :
  at_ x g V D tr -> good V -> 0 <= lg_start (g_val g) < io_size ->
  let l := g_val g in
  let h := put_header (lh_n l) (take (Z.to_nat (lh_n l)) (lh_block l)) (V (lg_start l)) in
  exists x', write_head x = Ret tt x' /\
    at_ x' g (upd (lg_start l) h V) (upd (lg_start l) h D) (tr ++ [(lg_start l, h)]).
Proof.
  intros Hat HV Hs l h. unfold write_head. rewrite (bind_eq _ _ _ _ _ (LG_get_run _ _ _ _ _ Hat)).
  destruct (bread_run _ _ _ _ _ _ Hat Hs) as (x1 & E1 & Hat1). rewrite (bind_eq _ _ _ _ _ E1).
  apply (bwrite_run _ _ _ _ _ _ h Hat1 Hs). unfold h. by rewrite put_header_length.
Qed.

(** The header's entries, read into a table of enough room. *)
Fixpoint fill (k i : nat) (buf : block) (t : list Z) : list Z :=
  match k with O => t | Datatypes.S k' => fill k' (Datatypes.S i) buf (<[i := header_entry buf i]> t) end.

Lemma fill_length k i buf t : length (fill k i buf t) = length t.
Proof. revert i t; induction k as [|k IH]; intros i t; cbn [fill]; [done|]. by rewrite IH, length_insert. Qed.

Lemma fill_before k i buf t j : (j < i)%nat -> fill k i buf t !! j = t !! j.
Proof.
  revert i t; induction k as [|k IH]; intros i t Hj; cbn [fill]; [done|].
  rewrite IH by lia. apply list_lookup_insert_ne. lia.
Qed.

Lemma fill_at k i buf t j :
  (i <= j < i + k)%nat -> (i + k <= length t)%nat -> fill k i buf t !! j = Some (header_entry buf j).
Proof.
  revert i t; induction k as [|k IH]; intros i t Hj Ht; [lia|]. cbn [fill].
  destruct (decide (j = i)) as [->|].
  - rewrite fill_before by lia. apply list_lookup_insert_eq. lia.
  - apply IH; [lia|]. rewrite length_insert. lia.
Qed.

Lemma read_entries_run k i buf x g V D tr :
  at_ x g V D tr -> (i + k <= length (lh_block (g_val g)))%nat ->
  exists x', read_entries k i buf x = Ret tt x' /\
    at_ x' (set_val (fun l => set_lh (lh_n l) (fill k i buf (lh_block l)) l) g) V D tr.
Proof.
  revert i x g; induction k as [|k IH]; intros i x g Hat Hl; cbn [read_entries].
  { exists x. split; [done|]. by destruct g as [? ? []]. }
  rewrite (bind_eq _ _ _ _ _ (LG_get_run _ _ _ _ _ Hat)).
  rewrite (proj2 (Nat.ltb_lt _ _)) by lia.
  destruct (LG_mod_run _ _ _ _ _ (fun l => set_lh (lh_n l) (<[i := header_entry buf i]> (lh_block l)) l) Hat)
    as (x1 & E1 & Hat1).
  rewrite (bind_eq _ _ _ _ _ E1).
  destruct (IH (Datatypes.S i) x1 _ Hat1) as (x2 & E2 & Hat2); [cbn; rewrite length_insert; lia|].
  exists x2. split; [exact E2|exact Hat2].
Qed.

Lemma read_head_run x g V D tr bs :
  at_ x g V D tr -> 0 <= lg_start (g_val g) < io_size -> decodes (V (lg_start (g_val g))) bs ->
  (length bs <= length (lh_block (g_val g)))%nat ->
  exists x' t, read_head x = Ret tt x' /\ take (length bs) t = bs /\ length t = length (lh_block (g_val g)) /\
    at_ x' (set_val (set_lh (Z.of_nat (length bs)) t) g) V D tr.
Proof.
  intros Hat Hs [Hn He] Hl. unfold read_head. rewrite (bind_eq _ _ _ _ _ (LG_get_run _ _ _ _ _ Hat)).
  destruct (bread_run _ _ _ _ _ _ Hat Hs) as (x1 & E1 & Hat1). rewrite (bind_eq _ _ _ _ _ E1).
  set (buf := V _) in *.
  destruct (LG_mod_run _ _ _ _ _ (fun l => set_lh (header_n buf) (lh_block l) l) Hat1) as (x2 & E2 & Hat2).
  rewrite (bind_eq _ _ _ _ _ E2), Hn, Nat2Z.id.
  destruct (read_entries_run (length bs) 0 buf _ _ _ _ _ Hat2) as (x3 & E3 & Hat3); [done|].
  exists x3, (fill (length bs) 0 buf (lh_block (g_val g))). split; [done|]. split_and!.
  - apply list_eq. intros j. destruct (decide (j < length bs)%nat) as [Hj|Hj].
    + rewrite lookup_take_lt by done. rewrite fill_at by lia.
      destruct (lookup_lt_is_Some_2 bs j Hj) as [b Hb]. rewrite Hb. f_equal. by apply He.
    + rewrite lookup_take_ge, lookup_ge_None_2 by lia. done.
  - apply fill_length.
  - rewrite Hn in Hat3. exact Hat3.
Qed.

(** The writes recovery does from a disk that reads as [V] and lists [bs], and
    those of a commit of the blocks [bs] as [V] has them. *)
Definition rec_writes (start : Z) (V : disk) (bs : list Z) : list (Z * block) :=
  home_writes (start + 1) V bs ++ [(start, put_header 0 [] (V start))].
Definition home_vals (V : disk) (bs : list Z) : list (Z * block) := (fun b => (b, V b)) <$> bs.
Definition commit_header (start : Z) (V : disk) (bs : list Z) : block :=
  put_header (Z.of_nat (length bs)) bs (V start).
Definition commit_writes (start : Z) (V : disk) (bs : list Z) : list (Z * block) :=
  log_writes (start + 1) V bs ++ [(start, commit_header start V bs)] ++
  home_vals V bs ++ [(start, put_header 0 [] (commit_header start V bs))].

Lemma home_writes_fst a V bs : (home_writes a V bs).*1 = bs.
Proof. revert a; induction bs as [|b bs IH]; intros a; cbn; [done|]. by rewrite IH. Qed.

Lemma log_writes_fst a V bs w : w ∈ (log_writes a V bs).*1 -> a <= w < a + Z.of_nat (length bs).
Proof.
  revert a; induction bs as [|b bs IH]; intros a; cbn; [by intros ?%elem_of_nil|].
  intros [->|Hw]%elem_of_cons; [lia|]. apply IH in Hw. lia.
Qed.

Lemma good_apply ws V : good V -> Forall (fun w => length (snd w) = 512%nat) ws -> good (apply_writes ws V).
Proof.
  intros HV Hws. revert V HV; induction Hws as [|[n d] ws Hd Hws IH]; intros V HV; [done|].
  apply IH. by apply good_upd.
Qed.

Lemma home_writes_good a V bs : good V -> Forall (fun w => length (snd w) = 512%nat) (home_writes a V bs).
Proof. intros HV. revert a; induction bs as [|b bs IH]; intros a; constructor; [apply HV|apply IH]. Qed.

Lemma log_writes_good a V bs : good V -> Forall (fun w => length (snd w) = 512%nat) (log_writes a V bs).
Proof. intros HV. revert a; induction bs as [|b bs IH]; intros a; constructor; [apply HV|apply IH]. Qed.

(** A home block is none of the log's. *)
Lemma home_not_area start size bs n :
  Forall (home start size) bs -> start <= n < start + size -> n ∉ bs.
Proof. intros Hh Hn Hin. rewrite Forall_forall in Hh. destruct (Hh n Hin) as (_ & H1 & _). lia. Qed.

(** Installing and clearing: the end of both [commit] and recovery. *)
Lemma install_clear_run start size bs x g V D tr :
  at_ x g V D tr -> good V -> area_ok start size -> lg_start (g_val g) = start ->
  lh_n (g_val g) = Z.of_nat (length bs) -> take (length bs) (lh_block (g_val g)) = bs ->
  Forall (home start size) bs -> Z.of_nat (length bs) < size ->
  exists x' V', (install_trans ;; LG (g_mod (fun l => set_lh 0 (lh_block l) l)) ;; write_head) x = Ret tt x' /\
    at_ x' (set_val (fun l => set_lh 0 (lh_block l) l) g) V' (apply_writes (rec_writes start V bs) D)
      (tr ++ rec_writes start V bs).
Proof.
  intros Hat HV Ha Hst Hn Ht Hh Hl. unfold install_trans.
  assert (Hbs : forall i b, bs !! i = Some b -> lh_block (g_val g) !! (0 + i)%nat = Some b).
  { intros i b Hi. rewrite <- Ht in Hi. by apply lookup_take_Some in Hi as [Hi _]. }
  destruct (install_loop_run start size bs 0 x g V D tr Hat HV Ha Hst Hbs Hh ltac:(lia)) as (x1 & E1 & Hat1).
  assert (E1' : (l ← LG g_get; install_loop (Z.to_nat (lh_n l)) 0) x = Ret tt x1).
  { rewrite (bind_eq _ _ _ _ _ (LG_get_run _ _ _ _ _ Hat)), Hn, Nat2Z.id. exact E1. }
  rewrite (bind_eq _ _ _ _ _ E1'). cbv zeta in Hat1.
  replace (start + Z.of_nat 0 + 1) with (start + 1) in Hat1 by lia. set (ws := home_writes (start + 1) V bs) in *.
  destruct (LG_mod_run _ _ _ _ _ (fun l => set_lh 0 (lh_block l) l) Hat1) as (x2 & E2 & Hat2).
  rewrite (bind_eq _ _ _ _ _ E2).
  assert (HV2 : good (apply_writes ws V)) by (apply good_apply, home_writes_good; done).
  destruct (write_head_run _ _ _ _ _ Hat2 HV2) as (x3 & E3 & Hat3).
  { cbn. rewrite Hst. destruct Ha as (? & ? & ?). lia. }
  cbn in Hat3. rewrite Hst in Hat3.
  assert (Es : apply_writes ws V start = V start).
  { apply apply_writes_other. unfold ws. rewrite home_writes_fst. eapply home_not_area; [done|].
    destruct Ha as (? & ? & ?). lia. }
  rewrite Es in Hat3. exists x3. eexists. split; [exact E3|]. unfold rec_writes.
  rewrite apply_writes_app, app_assoc. exact Hat3.
Qed.

Lemma initlog_run start size bs x g d :
  at_ x g d d [] -> good d -> area_ok start size -> length (lh_block (g_val g)) = 30%nat ->
  decodes (d start) bs -> Forall (home start size) bs -> Z.of_nat (length bs) < size ->
  exists x', initlog start size x = Ret tt x' /\ l_tr x' = rec_writes start d bs.
Proof.
  intros Hat Hd Ha Hl Hdec Hh Hlen. destruct Ha as (Ha1 & Ha2 & Ha3). unfold initlog.
  rewrite (bind_eq (modify _) _ _ _ _ eq_refl). set (x0 := mk_lst _ _ _).
  set (g0 := mk_g (g_cpu g) Spinlock.initlock (g_val g) (g_wakes g)).
  assert (Hat0 : at_ x0 g0 d d []) by (destruct Hat as (<- & <- & ?); done).
  destruct (LG_mod_run _ _ _ _ _ (fun l => mk_log start size (lg_outstanding l) (lg_committing l) (lh_n l) (lh_block l)) Hat0)
    as (x1 & E1 & Hat1).
  rewrite (bind_eq _ _ _ _ _ E1). unfold recover_from_log.
  destruct (read_head_run _ _ _ _ _ bs Hat1) as (x2 & t & E2 & Ht & Hlt & Hat2); cbn.
  { lia. } { done. } { unfold LOGSIZE in *. lia. }
  rewrite (bind_eq _ _ _ _ _ E2).
  destruct (install_clear_run start size bs _ _ _ _ _ Hat2) as (x3 & V' & E3 & (_ & Htr & _)); try done.
  exists x3. split; [exact E3|exact Htr].
Qed.

Lemma log_writes_read a V bs W i b :
  bs !! i = Some b -> apply_writes (log_writes a V bs) W (a + Z.of_nat i) = V b.
Proof.
  revert a i W; induction bs as [|c bs IH]; intros a i W Hi; [done|]. cbn [log_writes].
  change (apply_writes ((a, V c) :: ?ws) W) with (apply_writes ws (upd a (V c) W)).
  destruct i as [|i]; cbn in Hi.
  - injection Hi as ->. rewrite Z.add_0_r, apply_writes_other.
    + unfold upd. by rewrite Z.eqb_refl.
    + intros Hin%log_writes_fst. lia.
  - replace (a + Z.of_nat (Datatypes.S i)) with (a + 1 + Z.of_nat i) by lia. by apply IH.
Qed.

Lemma home_writes_vals a W V bs :
  (forall i b, bs !! i = Some b -> W (a + Z.of_nat i) = V b) -> home_writes a W bs = home_vals V bs.
Proof.
  revert a; induction bs as [|b bs IH]; intros a HW; cbn [home_writes home_vals fmap list_fmap]; [done|].
  rewrite <- (HW 0%nat b eq_refl), Z.add_0_r. f_equal. apply IH. intros i c Hi.
  replace (a + 1 + Z.of_nat i) with (a + Z.of_nat (Datatypes.S i)) by lia. by apply HW.
Qed.

Lemma commit_run start size bs x g V D tr :
  at_ x g V D tr -> good V -> area_ok start size -> lg_start (g_val g) = start ->
  lh_n (g_val g) = Z.of_nat (length bs) -> take (length bs) (lh_block (g_val g)) = bs -> bs <> [] ->
  Forall (home start size) bs -> Z.of_nat (length bs) < size ->
  exists x', commit x = Ret tt x' /\ l_tr x' = tr ++ commit_writes start V bs /\
    l_g x' = set_val (fun l => set_lh 0 (lh_block l) l) g.
Proof.
  intros Hat HV Ha Hst Hn Ht Hne Hh Hl. unfold commit. rewrite (bind_eq _ _ _ _ _ (LG_get_run _ _ _ _ _ Hat)).
  assert (Hpos : lh_n (g_val g) >? 0 = true) by (destruct bs; [done|cbn in Hn; lia]). rewrite Hpos. cbn [when].
  assert (Hbs : forall i b, bs !! i = Some b -> lh_block (g_val g) !! (0 + i)%nat = Some b).
  { intros i b Hi. rewrite <- Ht in Hi. by apply lookup_take_Some in Hi as [Hi _]. }
  destruct (write_log_loop_run start size bs 0 x g V D tr Hat HV Ha Hst Hbs Hh ltac:(lia)) as (x1 & E1 & Hat1).
  assert (E1' : write_log x = Ret tt x1).
  { unfold write_log. rewrite (bind_eq _ _ _ _ _ (LG_get_run _ _ _ _ _ Hat)), Hn, Nat2Z.id. exact E1. }
  rewrite (bind_eq _ _ _ _ _ E1'). cbv zeta in Hat1.
  replace (start + Z.of_nat 0 + 1) with (start + 1) in Hat1 by lia. set (ws := log_writes (start + 1) V bs) in *.
  assert (HV1 : good (apply_writes ws V)) by (apply good_apply, log_writes_good; done).
  assert (Es : apply_writes ws V start = V start).
  { apply apply_writes_other. intros Hin%log_writes_fst. lia. }
  destruct (write_head_run _ _ _ _ _ Hat1 HV1) as (x2 & E2 & Hat2).
  { rewrite Hst. destruct Ha as (? & ? & ?). lia. }
  rewrite Hn, Nat2Z.id, Ht, Hst, Es in Hat2. fold (commit_header start V bs) in Hat2.
  rewrite (bind_eq _ _ _ _ _ E2). set (h := commit_header start V bs) in *.
  destruct (install_clear_run start size bs _ _ _ _ _ Hat2) as (x3 & V' & E3 & (Hg3 & Htr & _)); try done.
  { apply good_upd; [done|]. unfold h, commit_header. by rewrite put_header_length. }
  exists x3. split; [exact E3|]. split; [|exact Hg3]. rewrite Htr. unfold commit_writes, rec_writes.
  fold h. rewrite <- !app_assoc. do 4 f_equal.
  - apply home_writes_vals. intros i b Hi. unfold upd.
    rewrite (proj2 (Z.eqb_neq (start + 1 + Z.of_nat i) start)) by lia. by apply log_writes_read.
  - f_equal. unfold upd. by rewrite Z.eqb_refl.
Qed.

(** ** Crashes *)

(** [D] is the disk before the transaction, [V] what its blocks read as. *)
Definition crashed (start size : Z) (bs : list Z) (V D : disk) (ph : phase) (d : disk) : Prop :=
  good d /\
  match ph with
  | Old => decodes (d start) [] /\ forall b, ~ start <= b < start + size -> d b = D b
  | Mid => decodes (d start) bs /\
      (forall i b, bs !! i = Some b -> d (start + 1 + Z.of_nat i) = V b) /\
      forall b, ~ start <= b < start + size -> b ∉ bs -> d b = D b
  | New => decodes (d start) [] /\
      forall b, ~ start <= b < start + size -> d b = if decide (b ∈ bs) then V b else D b
  end.

Section Crash.
Context (start size : Z) (bs : list Z) (V D : disk).
Context (Harea : area_ok start size) (Hhome : Forall (home start size) bs).
Context (Hlen : Z.of_nat (length bs) < size) (HV : good V).

Notation crashed := (crashed start size bs V D).

(** The log's own blocks may be written before the commit. *)
Lemma old_log_writes ws d :
  crashed Old d -> Forall (fun w => start < fst w < start + size /\ length (snd w) = 512%nat) ws ->
  crashed Old (apply_writes ws d).
Proof.
  intros (Hg & Hd & HD) Hws. rewrite Forall_forall in Hws.
  assert (Hnin : forall n, ~ start < n < start + size -> n ∉ ws.*1).
  { intros n Hn (w & -> & Hw)%list_elem_of_fmap. by apply Hn, Hws. }
  split; [apply good_apply; [done|]; apply Forall_forall; intros w Hw; by apply Hws|]. split.
  - rewrite apply_writes_other by (apply Hnin; lia). done.
  - intros b Hb. rewrite apply_writes_other by (apply Hnin; lia). auto.
Qed.

Lemma log_writes_area k :
  Forall (fun w => start < fst w < start + size /\ length (snd w) = 512%nat) (take k (log_writes (start + 1) V bs)).
Proof.
  apply Forall_take, Forall_forall. intros w Hw. split.
  - assert (Hin : fst w ∈ (log_writes (start + 1) V bs).*1) by (apply list_elem_of_fmap; by exists w).
    apply log_writes_fst in Hin. lia.
  - pose proof (log_writes_good (start + 1) V bs HV) as Hf. rewrite Forall_forall in Hf. by apply Hf.
Qed.

(** The header's write commits. *)
Lemma old_commit d :
  crashed Old d -> (forall i b, bs !! i = Some b -> d (start + 1 + Z.of_nat i) = V b) ->
  crashed Mid (upd start (commit_header start V bs) d).
Proof.
  intros (Hg & _ & HD) Hlog. destruct Harea as (Ha1 & Ha2 & Ha3). unfold LOGSIZE in Ha2.
  assert (Hh : length (commit_header start V bs) = 512%nat) by (unfold commit_header; by rewrite put_header_length).
  split; [by apply good_upd|]. unfold upd. split_and!.
  - rewrite Z.eqb_refl. apply decodes_put; [done|lia|]. eapply Forall_impl; [exact Hhome|]. by intros b (_ & _ & ?).
  - intros i b Hi. rewrite (proj2 (Z.eqb_neq (start + 1 + Z.of_nat i) start)) by lia. by apply Hlog.
  - intros b Hb _. rewrite (proj2 (Z.eqb_neq b start)) by lia. by apply HD.
Qed.

(** Installing keeps the log. *)
Lemma mid_install ws d :
  crashed Mid d -> (forall w, w ∈ ws -> fst w ∈ bs /\ length (snd w) = 512%nat) -> crashed Mid (apply_writes ws d).
Proof.
  intros (Hg & Hd & Hlog & HD) Hws.
  assert (Hnin : forall n, n ∉ bs -> n ∉ ws.*1).
  { intros n Hn (w & -> & Hw)%list_elem_of_fmap. by apply Hn, Hws. }
  assert (Harea' : forall n, start <= n < start + size -> n ∉ ws.*1).
  { intros n Hn. apply Hnin. by eapply home_not_area. }
  split; [apply good_apply; [done|]; apply Forall_forall; intros w Hw; by apply Hws|]. split_and!.
  - rewrite apply_writes_other by (apply Harea'; destruct Harea as (? & ? & ?); lia). done.
  - intros i b Hi. rewrite apply_writes_other; [by apply Hlog|]. apply Harea'.
    apply lookup_lt_Some in Hi. lia.
  - intros b Hb Hbs. rewrite apply_writes_other by auto. auto.
Qed.

(** Clearing the header, once everything is installed, ends the transaction. *)
Lemma clear_done d :
  crashed Mid d -> (forall b, b ∈ bs -> d b = V b) -> crashed New (upd start (put_header 0 [] (d start)) d).
Proof.
  intros (Hg & _ & _ & HD) Hins.
  split; [apply good_upd; [done|]; by rewrite put_header_length|]. unfold upd. split.
  - rewrite Z.eqb_refl. pose proof (Hg start). apply (decodes_put (d start) []); [done|cbn; lia|constructor].
  - intros b Hb. destruct Harea as (? & ? & ?). rewrite (proj2 (Z.eqb_neq b start)) by lia.
    case_decide; [by apply Hins|by apply HD].
Qed.

Lemma clear_again ph d :
  ph <> Mid -> crashed ph d -> crashed ph (upd start (put_header 0 [] (d start)) d).
Proof.
  intros Hph (Hg & Hc). pose proof (Hg start).
  assert (Hd : decodes (put_header 0 [] (d start)) []) by (apply (decodes_put (d start) []); [done|cbn; lia|constructor]).
  split; [apply good_upd; [done|]; by rewrite put_header_length|]. destruct Harea as (? & ? & ?).
  destruct ph; [|done|]; destruct Hc as [_ Hc]; unfold upd; (split; [by rewrite Z.eqb_refl|]);
    intros b Hb; rewrite (proj2 (Z.eqb_neq b start)) by lia; auto.
Qed.

Lemma home_vals_read W b : b ∈ bs -> apply_writes (home_vals V bs) W b = V b.
Proof.
  clear Hhome Hlen. revert W; induction bs as [|c l IH]; intros W Hb; [by apply elem_of_nil in Hb|].
  change (apply_writes (home_vals V (c :: l)) W) with (apply_writes (home_vals V l) (upd c (V c) W)).
  destruct (decide (b ∈ l)) as [Hin|Hnin]; [by apply IH|].
  apply elem_of_cons in Hb as [->|]; [|done]. rewrite apply_writes_other.
  - unfold upd. by rewrite Z.eqb_refl.
  - unfold home_vals. rewrite <- list_fmap_compose, list_fmap_id. done.
Qed.

(** Any prefix of "install and clear" started after the commit. *)
Lemma mid_prefix k d :
  crashed Mid d -> exists ph, ph <> Old /\
    crashed ph (apply_writes (take k (home_vals V bs ++ [(start, put_header 0 [] (d start))])) d).
Proof.
  intros Hm.
  assert (Hws : forall w, w ∈ home_vals V bs -> fst w ∈ bs /\ length (snd w) = 512%nat).
  { intros w (b & -> & Hb)%list_elem_of_fmap. split; [done|apply HV]. }
  destruct (decide (k <= length (home_vals V bs))%nat) as [Hk|Hk].
  - exists Mid. split; [done|]. rewrite take_app_le by done. apply mid_install; [done|].
    intros w Hw. apply Hws. by apply elem_of_take in Hw as (? & ?%list_elem_of_lookup_2 & _).
  - exists New. split; [done|]. rewrite take_ge by (rewrite length_app; cbn; lia).
    rewrite apply_writes_app. pose proof (mid_install _ _ Hm Hws) as Hm'.
    assert (Es : apply_writes (home_vals V bs) d start = d start).
    { apply apply_writes_other. unfold home_vals. rewrite <- list_fmap_compose, list_fmap_id.
      eapply home_not_area; [done|]. destruct Harea as (? & ? & ?). lia. }
    change (apply_writes [(start, ?h)] ?d') with (upd start h d'). rewrite <- Es. apply clear_done; [done|].
    intros b Hb. by apply home_vals_read.
Qed.

Lemma commit_prefix k :
  crashed Old D -> exists ph, crashed ph (apply_writes (take k (commit_writes start V bs)) D).
Proof.
  intros Ho. unfold commit_writes. set (lw := log_writes (start + 1) V bs).
  destruct (decide (k <= length lw)%nat) as [Hk|Hk].
  - exists Old. rewrite take_app_le by done. apply old_log_writes; [done|apply log_writes_area].
  - rewrite take_app_ge by lia. rewrite apply_writes_app.
    assert (Ho1 : crashed Old (apply_writes lw D)).
    { apply old_log_writes; [done|]. rewrite <- (firstn_all lw). apply log_writes_area. }
    assert (Hm : crashed Mid (upd start (commit_header start V bs) (apply_writes lw D))).
    { apply old_commit; [done|]. intros i b Hi. by apply log_writes_read. }
    destruct (k - length lw)%nat as [|j] eqn:Ej; [lia|].
    destruct (mid_prefix j _ Hm) as (ph & _ & Hph). exists ph. cbn [app take].
    change (apply_writes ((start, ?h) :: ?ws) ?d) with (apply_writes ws (upd start h d)).
    revert Hph. unfold upd at 1. rewrite Z.eqb_refl. done.
Qed.

(** The blocks the header of a crashed disk lists. *)
Definition pending (ph : phase) : list Z := match ph with Mid => bs | _ => [] end.

Lemma rec_prefix k ph d :
  crashed ph d -> exists ph', (ph = Mid -> ph' <> Old) /\ (ph <> Mid -> ph' = ph) /\
    crashed ph' (apply_writes (take k (rec_writes start d (pending ph))) d).
Proof.
  intros Hc. destruct (decide (ph = Mid)) as [->|Hne].
  - destruct (mid_prefix k d Hc) as (ph' & Hph & Hc'). exists ph'. split_and!; try done.
    unfold rec_writes, pending. rewrite (home_writes_vals _ _ V); [done|]. apply Hc.
  - exists ph. split_and!; try done. assert (pending ph = []) as -> by (by destruct ph).
    destruct k as [|k]; [done|]. cbn. rewrite take_nil. by apply clear_again.
Qed.

(** A full recovery leaves no transaction pending. *)
Lemma rec_full ph d :
  crashed ph d -> crashed (match ph with Old => Old | _ => New end)
    (apply_writes (rec_writes start d (pending ph)) d).
Proof.
  intros Hc. destruct ph; cbn [pending]; [by apply clear_again| |by apply clear_again].
  unfold rec_writes. rewrite (home_writes_vals _ _ V) by apply Hc. rewrite apply_writes_app.
  assert (Hws : forall w, w ∈ home_vals V bs -> fst w ∈ bs /\ length (snd w) = 512%nat).
  { intros w (b & -> & Hb)%list_elem_of_fmap. split; [done|apply HV]. }
  assert (Es : apply_writes (home_vals V bs) d start = d start).
  { apply apply_writes_other. unfold home_vals. rewrite <- list_fmap_compose, list_fmap_id.
    eapply home_not_area; [done|]. destruct Harea as (? & ? & ?). lia. }
  change (apply_writes [(start, ?h)] ?d') with (upd start h d'). rewrite <- Es.
  apply clear_done; [by apply mid_install|]. intros b Hb. by apply home_vals_read.
Qed.
End Crash.

(** The machine starts on disk [d], the cache empty and the log structure fresh. *)
Definition booted (d : disk) (x : lst) : Prop :=
  l_tr x = [] /\ io_sees (l_io x) d d /\ length (lh_block (g_val (l_g x))) = 30%nat.

(** [reboots start size d d']: from disk [d], any number of boots cut short by a
    crash during recovery, and then one that recovers, leave [d']. *)
Inductive reboots (start size : Z) (d : disk) : disk -> Prop :=
  | rb_done x y : booted d x -> initlog start size x = Ret tt y ->
      reboots start size d (apply_writes (l_tr y) d)
  | rb_crash x y j d' : booted d x -> initlog start size x = Ret tt y ->
      reboots start size (apply_writes (take j (l_tr y)) d) d' -> reboots start size d d'.

Lemma booted_run start size bs V D ph d x :
  area_ok start size -> Forall (home start size) bs -> Z.of_nat (length bs) < size ->
  crashed start size bs V D ph d -> booted d x ->
  exists y, initlog start size x = Ret tt y /\ l_tr y = rec_writes start d (pending bs ph).
Proof.
  intros Ha Hh Hl (Hg & Hc) (H1 & H2 & H3).
  assert (Hat : at_ x (l_g x) d d []) by (by split_and!).
  apply (initlog_run start size (pending bs ph) x (l_g x) d Hat Hg Ha H3); destruct ph; cbn [pending length];
    try apply Hc; try done; destruct Ha as (? & ? & ?); lia.
Qed.

Lemma reboots_phase start size bs V D ph d d' :
  area_ok start size -> Forall (home start size) bs -> Z.of_nat (length bs) < size -> good V ->
  crashed start size bs V D ph d -> reboots start size d d' ->
  crashed start size bs V D Old d' \/ crashed start size bs V D New d'.
Proof.
  intros Ha Hh Hl HV Hc Hr. revert ph Hc.
  induction Hr as [d x y Hb Hi|d x y j d' Hb Hi Hr IH]; intros ph Hc.
  - destruct (booted_run _ _ _ _ _ _ _ _ Ha Hh Hl Hc Hb) as (y' & E & Ht). rewrite E in Hi. injection Hi as ->.
    rewrite Ht. pose proof (rec_full start size bs V D Ha Hh Hl HV ph d Hc) as Hf.
    destruct ph; [by left|by right|by right].
  - destruct (booted_run _ _ _ _ _ _ _ _ Ha Hh Hl Hc Hb) as (y' & E & Ht). rewrite E in Hi. injection Hi as ->.
    destruct (rec_prefix start size bs V D Ha Hh Hl HV j ph d Hc) as (ph' & _ & _ & Hc').
    rewrite Ht in IH. by apply (IH ph').
Qed.

(** C1: a transaction is atomic under crashes.  Let the log hold the blocks [bs],
    which read as [V] in the cache, over a disk [D] whose log is empty.  [commit]
    returns; and if the machine crashes after any number of its disk writes, and
    again after any number of writes of any number of attempts at recovery, then
    recovery completes, and once [initlog] has run to its end every block outside the log is as it was
    before the transaction, or every one is as the transaction left it. *)
Theorem log_crash_atomic start size bs x V D k d' :
  at_ x (l_g x) V D [] -> good V -> good D -> area_ok start size ->
  lg_start (g_val (l_g x)) = start -> decodes (D start) [] ->
  lh_n (g_val (l_g x)) = Z.of_nat (length bs) -> take (length bs) (lh_block (g_val (l_g x))) = bs -> bs <> [] ->
  Forall (home start size) bs -> Z.of_nat (length bs) < size ->
  exists x', commit x = Ret tt x' /\
    (forall z, booted (apply_writes (take k (l_tr x')) D) z -> exists y, initlog start size z = Ret tt y) /\
    (reboots start size (apply_writes (take k (l_tr x')) D) d' ->
     (forall b, ~ start <= b < start + size -> d' b = D b) \/
     (forall b, ~ start <= b < start + size -> d' b = if decide (b ∈ bs) then V b else D b)).
Proof.
  intros Hat HV HD Ha Hst Hdec Hn Ht Hne Hh Hl.
  destruct (commit_run start size bs x _ V D [] Hat HV Ha Hst Hn Ht Hne Hh Hl) as (x' & E & Htr & _).
  assert (Ho : crashed start size bs V D Old D) by (split; [done|split; [done|by intros]]).
  destruct (commit_prefix start size bs V D Ha Hh Hl HV k Ho) as (ph & Hph).
  exists x'. split; [done|]. rewrite Htr. cbn [app]. split.
  { intros z Hz. destruct (booted_run _ _ _ _ _ _ _ _ Ha Hh Hl Hph Hz) as (y & Ey & _). by exists y. }
  intros Hr.
  destruct (reboots_phase _ _ _ _ _ _ _ _ Ha Hh Hl HV Hph Hr) as [[_ [_ H1]]|[_ [_ H1]]]; [by left|by right].
Qed.
(** ** Reservations *)

Lemma LG_run {A} (m : M (guarded log) A) x a g' :
  m (l_g x) = Ret a g' -> LG m x = Ret a (mk_lst g' (l_io x) (l_tr x)).
Proof. intros E. unfold LG, zoom. by rewrite E. Qed.

Lemma begin_op_run me x :
  g_quiet (l_g x) -> let l := g_val (l_g x) in
  begin_op me x =
    let x' l' := mk_lst (out_cs (l_g x) l' (g_wakes (l_g x))) (l_io x) (l_tr x) in
    if ctrue (lg_committing l) || (lh_n l + (lg_outstanding l + 1) * MAXOPBLOCKS >? LOGSIZE)
    then Sleep CLog 0 (x' l)
    else Ret tt (x' (set_outstanding (lg_outstanding l + 1) l)).
Proof.
  intros Hg l. unfold begin_op, LG, zoom. rewrite (bind_eq _ _ _ _ _ (g_acquire_run me _ Hg)).
  rewrite (bind_eq _ _ _ _ _ (g_get_run me _ _ _)). fold l.
  destruct (ctrue (lg_committing l)); cbn [orb]; [by rewrite g_sleep_run|].
  destruct (_ >? LOGSIZE); [by rewrite g_sleep_run|].
  by rewrite (bind_eq _ _ _ _ _ (g_mod_run me _ _ _ _)), g_release_run.
Qed.

Lemma absorb_le bs b : (absorb bs b <= length bs)%nat.
Proof. induction bs as [|x bs IH]; cbn; [done|]. case_match; lia. Qed.

Lemma wlp_LG_get (Q : log -> lst -> Prop) x : Q (g_val (l_g x)) x -> wlp (LG g_get) Q x.
Proof. intros HQ. unfold LG. apply wlp_zoom. unfold wlp. cbn. by destruct x. Qed.

Lemma wlp_LG_acquire me (Q : unit -> lst -> Prop) x :
  g_quiet (l_g x) ->
  Q tt (mk_lst (in_cs me (l_g x) (g_val (l_g x)) (g_wakes (l_g x))) (l_io x) (l_tr x)) ->
  wlp (LG (g_acquire me)) Q x.
Proof. intros Hg HQ. unfold LG. apply wlp_zoom. unfold wlp. by rewrite g_acquire_run. Qed.

Lemma wlp_LG_release me (Q : unit -> lst -> Prop) g v w io tr :
  g_quiet g -> Q tt (mk_lst (out_cs g v w) io tr) -> wlp (LG (g_release me)) Q (mk_lst (in_cs me g v w) io tr).
Proof. intros Hg HQ. unfold LG. apply wlp_zoom. unfold wlp. cbn [l_g]. by rewrite g_release_run. Qed.

Lemma wlp_LG_mod me f (Q : unit -> lst -> Prop) g v w io tr :
  Q tt (mk_lst (in_cs me g (f v) w) io tr) -> wlp (LG (g_mod f)) Q (mk_lst (in_cs me g v w) io tr).
Proof. done. Qed.

Lemma wlp_LG_wakeup me ch (Q : unit -> lst -> Prop) g v w io tr :
  Q tt (mk_lst (in_cs me g v (w ++ [ch])) io tr) -> wlp (LG (g_wakeup ch)) Q (mk_lst (in_cs me g v w) io tr).
Proof. done. Qed.

Lemma log_write_g me b x :
  g_quiet (l_g x) ->
  let l := g_val (l_g x) in
  let i := absorb (take (Z.to_nat (lh_n l)) (lh_block l)) b in
  wlp (log_write me b) (fun _ x' => lh_n l < LOGSIZE /\ lh_n l < lg_size l - 1 /\ g_quiet (l_g x') /\
    g_val (l_g x') = set_lh (if Z.of_nat i =? lh_n l then lh_n l + 1 else lh_n l) (<[i := b]> (lh_block l)) l) x.
Proof.
  intros Hg l i. unfold log_write. wl. apply wlp_LG_get. fold l.
  destruct ((lh_n l >=? LOGSIZE) || (lh_n l >=? lg_size l - 1)) eqn:E1; [exact I|].
  destruct (lg_outstanding l <? 1); [exact I|]. wl. apply wlp_LG_acquire; [done|]. wl.
  apply wlp_LG_get. cbn [l_g in_cs g_val]. wl. apply wlp_LG_mod. wl. apply wlp_zoom. cbn [l_io].
  unfold wlp at 1. destruct (io_mark b (l_io x)); try exact I. cbn [l_g l_tr]. apply wlp_LG_release; [done|].
  cbn [l_g]. split_and!; [lia|lia|by apply out_cs_quiet|done].
Qed.

(** Nothing but [commit]'s own assignment changes the log structure. *)
Lemma bread_g n x : wlp (bread n) (fun _ x' => l_g x' = l_g x) x.
Proof. unfold bread. apply wlp_zoom. unfold wlp. by destruct (io_bread n (l_io x)). Qed.
Lemma bwrite_g n d x : wlp (bwrite n d) (fun _ x' => l_g x' = l_g x) x.
Proof.
  unfold bwrite. wl. apply wlp_zoom. unfold wlp. by destruct (io_bwrite n d (l_io x)).
Qed.
Lemma install_loop_g k tail x : wlp (install_loop k tail) (fun _ x' => l_g x' = l_g x) x.
Proof.
  revert tail x; induction k as [|k IH]; intros tail x; cbn [install_loop]; wl; [done|].
  apply wlp_LG_get. wl. eapply wlp_mono; [apply bread_g|]. intros lb x1 E1. wl.
  eapply wlp_mono; [apply bread_g|]. intros ? x2 E2. wl. eapply wlp_mono; [apply bwrite_g|]. intros ? x3 E3.
  eapply wlp_mono; [apply IH|]. cbv beta. intros ? x4 E4. cbv beta in *. congruence.
Qed.
Lemma write_log_loop_g k tail x : wlp (write_log_loop k tail) (fun _ x' => l_g x' = l_g x) x.
Proof.
  revert tail x; induction k as [|k IH]; intros tail x; cbn [write_log_loop]; wl; [done|].
  apply wlp_LG_get. wl. eapply wlp_mono; [apply bread_g|]. intros lb x1 E1. wl.
  eapply wlp_mono; [apply bread_g|]. intros d x2 E2. wl. eapply wlp_mono; [apply bwrite_g|]. intros ? x3 E3.
  eapply wlp_mono; [apply IH|]. cbv beta. intros ? x4 E4. cbv beta in *. congruence.
Qed.
Lemma write_head_g x : wlp write_head (fun _ x' => l_g x' = l_g x) x.
Proof.
  unfold write_head. wl. apply wlp_LG_get. wl. eapply wlp_mono; [apply bread_g|]. intros d x1 E1.
  eapply wlp_mono; [apply bwrite_g|]. cbv beta. intros ? x2 E2. cbv beta in *. congruence.
Qed.

Lemma commit_g x :
  0 <= lh_n (g_val (l_g x)) ->
  wlp commit (fun _ x' => l_g x' = set_val (fun l => set_lh 0 (lh_block l) l) (l_g x)) x.
Proof.
  intros Hn. unfold commit. wl. apply wlp_LG_get. wl. destruct (Z.gtb_spec (lh_n (g_val (l_g x))) 0); wl.
  - unfold write_log. wl. apply wlp_LG_get. eapply wlp_mono; [apply write_log_loop_g|]. intros ? x1 E1. wl.
    eapply wlp_mono; [apply write_head_g|]. intros ? x2 E2. wl. unfold install_trans. wl. apply wlp_LG_get.
    eapply wlp_mono; [apply install_loop_g|]. intros ? x3 E3. wl. unfold LG. apply wlp_zoom.
    unfold g_mod. wl. eapply wlp_mono; [apply write_head_g|]. cbv beta. intros ? x4 E4. rewrite E4. cbn.
    unfold set_val. cbv beta in *. congruence.
  - assert (En : lh_n (g_val (l_g x)) = 0) by lia. destruct x as [[c k l w] io tr]. cbn in *.
    unfold set_val, set_lh. cbn. rewrite <- En. by destruct l.
Qed.

(** What [end_op] leaves: one operation fewer, and an empty log after the last. *)
Definition ended (l l' : log) : Prop :=
  lg_outstanding l' = lg_outstanding l - 1 /\ lg_size l' = lg_size l /\ lh_block l' = lh_block l /\
  lg_committing l' = 0 /\ lh_n l' = if lg_outstanding l - 1 =? 0 then 0 else lh_n l.

Lemma end_op_g me x :
  g_quiet (l_g x) -> 0 <= lh_n (g_val (l_g x)) ->
  wlp (end_op me) (fun _ x' => g_quiet (l_g x') /\ ended (g_val (l_g x)) (g_val (l_g x'))) x.
Proof.
  intros Hg Hn. unfold end_op. wl. apply wlp_LG_acquire; [done|]. wl. apply wlp_LG_mod. wl.
  apply wlp_LG_get. cbn [l_g in_cs g_val]. set (l := g_val (l_g x)) in *. unfold ctrue.
  destruct (Z.eqb_spec (lg_committing (set_outstanding (lg_outstanding l - 1) l)) 0) as [Ec|]; cbn [negb]; [|exact I].
  cbn in Ec. cbn [lg_outstanding set_outstanding].
  destruct (Z.eqb_spec (lg_outstanding l - 1) 0) as [E0|E0]; wl.
  - apply wlp_LG_mod. wl. apply wlp_LG_release; [done|]. wl.
    eapply wlp_mono; [apply commit_g; done|]. cbv beta. intros ? [g2 io2 tr2] E2. cbn [l_g] in E2. subst g2. wl.
    set (g2 := set_val _ _). assert (Hg2 : g_quiet g2).
    { destruct (out_cs_quiet (l_g x) l (g_wakes (l_g x)) Hg) as [K1 K2]. split; [done|exact K2]. }
    apply wlp_LG_acquire; [done|]. wl. cbn [l_g l_io l_tr]. apply wlp_LG_mod. wl. apply wlp_LG_wakeup. wl.
    apply wlp_LG_release; [done|]. cbn [l_g]. split; [by apply out_cs_quiet|]. unfold ended. cbn.
    rewrite E0. cbn. split_and!; (done || lia).
  - apply wlp_LG_wakeup. wl. apply wlp_LG_release; [done|]. split; [by apply out_cs_quiet|].
    unfold ended. cbn. rewrite (proj2 (Z.eqb_neq _ _) E0). split_and!; done.
Qed.

(** The states reached by operations that call [begin_op], then [log_write] at most
    MAXOPBLOCKS times, then [end_op], in any order; the list has the number of
    writes each operation under way has done. *)
Inductive lreach (me : nat) : lst -> list nat -> Prop :=
  | lr_init x : g_quiet (l_g x) -> lg_outstanding (g_val (l_g x)) = 0 ->
      lg_committing (g_val (l_g x)) = 0 -> lh_n (g_val (l_g x)) = 0 ->
      length (lh_block (g_val (l_g x))) = 30%nat -> lreach me x []
  | lr_begin x us x' : lreach me x us -> begin_op me x = Ret tt x' -> lreach me x' (us ++ [0%nat])
  | lr_write x us i u b x' : lreach me x us -> us !! i = Some u -> (u < 10)%nat ->
      log_write me b x = Ret tt x' -> lreach me x' (<[i := Datatypes.S u]> us)
  | lr_end x us i x' : lreach me x us -> (i < length us)%nat -> end_op me x = Ret tt x' ->
      lreach me x' (delete i us).

(** Log blocks still reserved. *)
Fixpoint reserved (us : list nat) : Z :=
  match us with [] => 0 | u :: us' => 10 - Z.of_nat u + reserved us' end.

Lemma reserved_app us vs : reserved (us ++ vs) = reserved us + reserved vs.
Proof. induction us as [|u us IH]; cbn [app reserved]; lia. Qed.

Lemma reserved_insert us i u v :
  us !! i = Some u -> reserved (<[i := v]> us) = reserved us - (10 - Z.of_nat u) + (10 - Z.of_nat v).
Proof.
  revert i; induction us as [|w us IH]; intros i Hi; [done|]. destruct i as [|i]; cbn in Hi.
  - injection Hi as ->. cbn [insert list_insert reserved]. lia.
  - change (<[Datatypes.S i := v]> (w :: us)) with (w :: <[i := v]> us). cbn [reserved].
    rewrite (IH i Hi). lia.
Qed.

Lemma reserved_delete us i u : us !! i = Some u -> reserved (delete i us) = reserved us - (10 - Z.of_nat u).
Proof.
  revert i; induction us as [|w us IH]; intros i Hi; [done|]. destruct i as [|i]; cbn in Hi.
  - injection Hi as ->. cbn [delete list_delete reserved]. lia.
  - change (delete (Datatypes.S i) (w :: us)) with (w :: delete i us). cbn [reserved].
    rewrite (IH i Hi). lia.
Qed.

Lemma reserved_bounds us : Forall (fun u => (u <= 10)%nat) us -> 0 <= reserved us <= 10 * Z.of_nat (length us).
Proof. induction 1 as [|u us Hu Hus IH]; cbn [length reserved]; lia. Qed.

Record lres (x : lst) (us : list nat) : Prop := mk_lres {
  lres_quiet : g_quiet (l_g x);
  lres_out : lg_outstanding (g_val (l_g x)) = Z.of_nat (length us);
  lres_com : lg_committing (g_val (l_g x)) = 0;
  lres_us : Forall (fun u => (u <= 10)%nat) us;
  lres_n : 0 <= lh_n (g_val (l_g x));
  lres_sum : lh_n (g_val (l_g x)) + reserved us <= LOGSIZE;
  lres_empty : us = [] -> lh_n (g_val (l_g x)) = 0 }.

Lemma lreach_lres me x us : lreach me x us -> lres x us.
Proof.
  induction 1 as [x H1 H2 H3 H4 H5|x us x' Hr IH Hb|x us i u b x' Hr IH Hi Hu Hw|x us i x' Hr IH Hi He].
  - constructor; try done; [lia|]. rewrite H4. cbn. unfold LOGSIZE. lia.
  - destruct IH as [G1 G2 G3 G4 G5 G6 G7]. rewrite begin_op_run in Hb by done. cbv zeta in Hb.
    unfold ctrue in Hb. rewrite G3 in Hb. cbn [Z.eqb negb orb] in Hb.
    destruct (Z.gtb_spec (lh_n (g_val (l_g x)) + (lg_outstanding (g_val (l_g x)) + 1) * MAXOPBLOCKS) LOGSIZE); [done|].
    injection Hb as <-. pose proof (reserved_bounds us G4). unfold MAXOPBLOCKS in *.
    constructor; cbn; try done.
    + by apply out_cs_quiet.
    + rewrite length_app. cbn. lia.
    + apply Forall_app. split; [done|]. constructor; [lia|constructor].
    + rewrite reserved_app. cbn [reserved]. lia.
    + intros E. by apply app_nil in E as [_ ?].
  - destruct IH as [G1 G2 G3 G4 G5 G6 G7]. pose proof (lookup_lt_Some _ _ _ Hi).
    destruct (wlp_elim _ _ _ _ _ (log_write_g me b x G1) Hw) as (_ & _ & Gq & Hv).
    constructor; rewrite ?Hv; cbn; try done.
    + by rewrite length_insert.
    + apply Forall_insert; [done|lia].
    + case_match; lia.
    + rewrite (reserved_insert _ _ _ _ Hi). case_match; lia.
    + intros E. apply (f_equal length) in E. rewrite length_insert in E. cbn in E. lia.
  - destruct IH as [G1 G2 G3 G4 G5 G6 G7]. destruct (lookup_lt_is_Some_2 us i Hi) as [u Hu].
    destruct (wlp_elim _ _ _ _ _ (end_op_g me x G1 G5) He) as [Gq (E1 & E2 & E3 & E4 & E5)].
    assert (Hlen : length (delete i us) = (length us - 1)%nat) by (rewrite length_delete by (by exists u); lia).
    assert (Hu10 : (u <= 10)%nat) by (rewrite Forall_lookup in G4; by apply (G4 i)).
    constructor; try done.
    + rewrite E1, G2, Hlen. lia.
    + by apply Forall_delete.
    + rewrite E5. case_match; lia.
    + rewrite (reserved_delete _ _ _ Hu), E5. pose proof (reserved_bounds us G4). case_match; lia.
    + intros Hnil. rewrite E5, G2. apply (f_equal length) in Hnil. rewrite Hlen in Hnil. cbn in Hnil.
      by replace (Z.of_nat (length us) - 1 =? 0) with true by lia.
Qed.

(** C6: the space [begin_op] reserves suffices for LOGSIZE: operations that write
    at most MAXOPBLOCKS blocks each, begun and ended in any order, never find
    LOGSIZE blocks in the log when one of them still has a write to do. *)
Theorem log_reservation me x us i u :
  lreach me x us -> us !! i = Some u -> (u < 10)%nat ->
  0 <= lh_n (g_val (l_g x)) < LOGSIZE /\ 1 <= lg_outstanding (g_val (l_g x)).
Proof.
  intros Hr Hi Hu. destruct (lreach_lres _ _ _ Hr) as [G1 G2 G3 G4 G5 G6 G7].
  pose proof (lookup_lt_Some _ _ _ Hi). split; [split; [done|]|lia].
  pose proof (reserved_delete _ _ _ Hi) as Hd.
  assert (0 <= reserved (delete i us)) by (apply reserved_bounds; by apply Forall_delete). lia.
Qed.
End Log.

Arguments lst : clear implicits.

(** A cache that writes through to a disk of 1000 blocks. *)
Record direct := mk_direct { dv : Z -> block; dd : Z -> block }.

#[export, refine] Instance direct_io : BlockIO direct := {|
  io_size := 1000;
  io_sees := fun s V D => (forall n, dv s n = V n) /\ (forall n, dd s n = D n);
  io_bread := fun n s => Ret (dv s n) s;
  io_bwrite := fun n d s => Ret tt (mk_direct (upd n d (dv s)) (upd n d (dd s)));
  io_mark := fun _ => mret tt |}.
Proof.
  - intros s view disk n [H1 H2] _. exists s. by rewrite H1.
  - intros s view disk n d [H1 H2] _ _. eexists. split; [reflexivity|].
    split; intros m; unfold upd; cbn; by case_match.
Defined.

(** Blocks 100 and 101 are to change from zeroes to sevens. *)
Definition demo_old : Z -> block := fun _ => replicate 512 0.
Definition demo_new : Z -> block := fun n => if (n =? 100) || (n =? 101) then replicate 512 7 else replicate 512 0.
Definition demo_log : guarded log :=
  mk_g (mk_cpu 0 false true) Spinlock.initlock
    (mk_log 2 30 0 1 2 ([100; 101] ++ replicate 28 0)) [].
Definition demo_lst : lst direct := mk_lst demo_log (mk_direct demo_new demo_old) [].

(** The disk after a crash right after the commit point, the boot from it, and the
    disk recovery leaves. *)
Definition demo_crash : Z -> block := apply_writes (take 3 (l_tr (result_state (commit demo_lst)))) demo_old.
Definition demo_boot : lst direct :=
  mk_lst (mk_g (mk_cpu 0 false true) Spinlock.initlock (mk_log 0 0 0 0 0 (replicate 30 0)) [])
    (mk_direct demo_crash demo_crash) [].
Definition demo_after : Z -> block := apply_writes (l_tr (result_state (initlog 2 30 demo_boot))) demo_crash.

Lemma log_crash_atomic_witness :
  exists x', commit demo_lst = Ret tt x' /\
    reboots 2 30 (apply_writes (take 3 (l_tr x')) demo_old) demo_after /\
    ((forall b, ~ 2 <= b < 32 -> demo_after b = demo_old b) \/
     (forall b, ~ 2 <= b < 32 -> demo_after b = if decide (b ∈ [100; 101]) then demo_new b else demo_old b)).
Proof.
  destruct (log_crash_atomic 2 30 [100; 101] demo_lst demo_new demo_old 3 demo_after)
    as (x' & E & Hlive & Hr).
  - repeat split.
  - intros n. unfold demo_new. by case_match.
  - intros n. reflexivity.
  - repeat split; unfold LOGSIZE; cbn; lia.
  - reflexivity.
  - split; [reflexivity|]. intros j x Hj. by rewrite lookup_nil in Hj.
  - reflexivity.
  - reflexivity.
  - discriminate.
  - repeat constructor; cbn; try lia; unfold_int; lia.
  - cbn. lia.
  - exists x'. split; [exact E|].
    assert (Ed : apply_writes (take 3 (l_tr x')) demo_old = demo_crash) by (unfold demo_crash; by rewrite E).
    rewrite Ed in *. assert (Hb : booted demo_crash demo_boot) by (repeat split).
    destruct (Hlive demo_boot Hb) as (y & Ey).
    assert (Hreb : reboots 2 30 demo_crash demo_after).
    { replace demo_after with (apply_writes (l_tr y) demo_crash) by (unfold demo_after; by rewrite Ey).
      by apply (rb_done 2 30 demo_crash demo_boot y). }
    split; [exact Hreb|exact (Hr Hreb)].
Defined.

Definition idle_lst : lst direct :=
  mk_lst (mk_g (mk_cpu 0 false true) Spinlock.initlock (mk_log 2 30 0 0 0 (replicate 30 0)) [])
    (mk_direct demo_old demo_old) [].

Lemma log_reservation_witness :
  exists x, begin_op 0 idle_lst = Ret tt x /\
    0 <= lh_n (g_val (l_g x)) < LOGSIZE /\ 1 <= lg_outstanding (g_val (l_g x)).
Proof.
  assert (E : begin_op 0 idle_lst = Ret tt (result_state (begin_op 0 idle_lst))) by reflexivity.
  exists (result_state (begin_op 0 idle_lst)). split; [exact E|].
  apply (log_reservation 0 _ [0%nat] 0 0); [|reflexivity|lia].
  apply (lr_begin 0 idle_lst []); [|exact E].
  apply lr_init; try reflexivity. split; [reflexivity|]. split; cbn; lia.
Defined.

(** Three operations begin, and write [n] different blocks between them. *)
Definition session (n : nat) : M (lst direct) unit :=
  begin_op 0 ;; begin_op 0 ;; begin_op 0 ;;
  foldr (fun k m => log_write 0 (Z.of_nat k) ;; m) (mret tt) (seq 100 n).

(** with the log of 30 blocks that [mkfs] makes, 29 of which can hold data, the
    reservation is one block too generous: three operations of ten blocks each are
    let in together, and the thirtieth block written panics the kernel. *)
Theorem log_thirtieth_block_panics :
  (exists x, session 29 idle_lst = Ret tt x) /\
  (exists x, session 30 idle_lst = Panic "too big a transaction" x).
Proof. split; eexists; vm_compute; reflexivity. Qed.
