(* ===== verification/Bio.v ===== *)
(** The buffer cache ([bio.c]) over the in-memory disk ([memide.c]).

    Buffers are kept in a circular doubly linked list, most recently used first.
    [dll] abstracts the two arrays of pointers to that list; [cache_ok] says that a
    block has at most one buffer and that a clean buffer agrees with the disk.  The
    last section shows that the cache is a [BlockIO], as the log requires: a read
    returns the latest contents of a block and a write reaches the disk. *)

From S2P Require Import Prelude Locks Guarded Bytes Log.

Definition NBUF : nat := 30.
Definition B_VALID : Z := 2.
Definition B_DIRTY : Z := 4.

(** [struct buf] without its links. *)
Record buf := mk_buf {
  b_flags : Z;
  b_dev : Z;
  b_blockno : Z;
  b_lock : sleeplock;
  b_refcnt : Z;
  b_data : block }.

Definition set_flags (v : Z) (b : buf) : buf :=
  mk_buf v (b_dev b) (b_blockno b) (b_lock b) (b_refcnt b) (b_data b).
Definition set_lock (v : sleeplock) (b : buf) : buf :=
  mk_buf (b_flags b) (b_dev b) (b_blockno b) v (b_refcnt b) (b_data b).
Definition set_refcnt (v : Z) (b : buf) : buf :=
  mk_buf (b_flags b) (b_dev b) (b_blockno b) (b_lock b) v (b_data b).
Definition set_data (v : block) (b : buf) : buf :=
  mk_buf (b_flags b) (b_dev b) (b_blockno b) (b_lock b) (b_refcnt b) v.
(** A buffer taken for another block. *)
Definition recycle (dev blockno : Z) (b : buf) : buf :=
  mk_buf 0 dev blockno (b_lock b) 1 (b_data b).

(** The list's head is buffer number [head]; the links are maps from buffers to
    buffers.  [bdisk] is the memory disk. *)
Definition head : nat := NBUF.
Record bcache := mk_bcache {
  bufs : list buf;
  bnext : nat -> nat;
  bprev : nat -> nat;
  bdisk : Z -> block }.

Definition nupd (k v : nat) (f : nat -> nat) : nat -> nat := fun x => if decide (x = k) then v else f x.

Definition buf_zero : buf := mk_buf 0 0 0 Sleeplock.initsleeplock 0 (replicate 512 0).
Definition buf_at (c : bcache) (i : nat) : buf := nth i (bufs c) buf_zero.
Definition upd_buf (i : nat) (f : buf -> buf) (c : bcache) : bcache :=
  mk_bcache (alter f i (bufs c)) (bnext c) (bprev c) (bdisk c).

(** [b] goes to the front of the list: four assignments, as in [binit]. *)
Definition push_front (b : nat) (c : bcache) : bcache :=
  let nx := nupd b (bnext c head) (bnext c) in
  let pv := nupd b head (bprev c) in
  let pv := nupd (nx head) b pv in
  let nx := nupd head b nx in
  mk_bcache (bufs c) nx pv (bdisk c).
(** [b->next->prev = b->prev; b->prev->next = b->next]. *)
Definition unlink (b : nat) (c : bcache) : bcache :=
  let pv := nupd (bnext c b) (bprev c b) (bprev c) in
  let nx := nupd (pv b) (bnext c b) (bnext c) in
  mk_bcache (bufs c) nx pv (bdisk c).

Definition binit (d : Z -> block) (junk : list buf) : bcache :=
  fold_left (fun c b => upd_buf b (set_lock Sleeplock.initsleeplock) (push_front b c)) (seq 0 NBUF)
    (mk_bcache junk (nupd head head (fun _ => O)) (nupd head head (fun _ => O)) d).

Section Bio.
(** [me] is the CPU, [mypid] the process, [disksize] the number of blocks. *)
Context (me : nat) (mypid disksize : Z).

(** Runs a sleep-lock routine on the lock of buffer [i]. *)
Definition on_lock {A} (i : nat) (f : M slctx A) : M (guarded bcache) A :=
  zoom (fun g => mk_slctx (g_cpu g) (b_lock (buf_at (g_val g) i)) (g_wakes g))
    (fun x g => mk_g (sl_cpu x) (g_lk g) (upd_buf i (set_lock (sl x)) (g_val g)) (sl_wakeups x)) f.

(** The two scans of [bget]; [None] when they come back to the head, and a fault
    if they never do. *)
Fixpoint scan_fwd (fuel : nat) (c : bcache) (dev blockno : Z) (b : nat) : M (guarded bcache) (option nat) :=
  match fuel with
  | O => faults OutOfFuel
  | S f =>
      if decide (b = head) then mret None
      else if (b_dev (buf_at c b) =? dev) && (b_blockno (buf_at c b) =? blockno) then mret (Some b)
      else scan_fwd f c dev blockno (bnext c b)
  end.
Fixpoint scan_back (fuel : nat) (c : bcache) (b : nat) : M (guarded bcache) (option nat) :=
  match fuel with
  | O => faults OutOfFuel
  | S f =>
      if decide (b = head) then mret None
      else if (b_refcnt (buf_at c b) =? 0) && (Z.land (b_flags (buf_at c b)) B_DIRTY =? 0) then mret (Some b)
      else scan_back f c (bprev c b)
  end.

(** NBUF buffers and the head. *)
Definition SCAN_FUEL : nat := S NBUF.

Definition bget (dev blockno : Z) : M (guarded bcache) nat :=
  g_acquire me ;;
  c ← g_get;
  r ← scan_fwd SCAN_FUEL c dev blockno (bnext c head);
  match r with
  | Some b =>
      g_mod (upd_buf b (fun x => set_refcnt (u32 (b_refcnt x + 1)) x)) ;;
      g_release me ;;
      on_lock b (Sleeplock.acquiresleep me b mypid) ;;
      mret b
  | None =>
      r ← scan_back SCAN_FUEL c (bprev c head);
      match r with
      | Some b =>
          g_mod (upd_buf b (recycle dev blockno)) ;;
          g_release me ;;
          on_lock b (Sleeplock.acquiresleep me b mypid) ;;
          mret b
      | None => panic "bget: no buffers"
      end
  end.

(** [iderw] of memide.c. *)
Definition iderw (b : nat) : M (guarded bcache) unit :=
  h ← on_lock b (Sleeplock.holdingsleep me mypid);
  if negb h then panic "iderw: buf not locked"
  else
    c ← g_get;
    let x := buf_at c b in
    if Z.land (b_flags x) (Z.lor B_VALID B_DIRTY) =? B_VALID then panic "iderw: nothing to do"
    else if negb (b_dev x =? 1) then panic "iderw: request not for disk 1"
    else if b_blockno x >=? disksize then panic "iderw: block out of range"
    else
      (if ctrue (Z.land (b_flags x) B_DIRTY) then
         g_mod (upd_buf b (fun x => set_flags (Z.land (b_flags x) (Z.lnot B_DIRTY)) x)) ;;
         g_mod (fun c => mk_bcache (bufs c) (bnext c) (bprev c) (upd (b_blockno x) (b_data x) (bdisk c)))
       else
         g_mod (fun c => upd_buf b (set_data (bdisk c (b_blockno x))) c)) ;;
      g_mod (upd_buf b (fun x => set_flags (Z.lor (b_flags x) B_VALID) x)).

Definition bread (dev blockno : Z) : M (guarded bcache) nat :=
  b ← bget dev blockno;
  c ← g_get;
  when (Z.land (b_flags (buf_at c b)) B_VALID =? 0) (iderw b) ;;
  mret b.

Definition bwrite (b : nat) : M (guarded bcache) unit :=
  h ← on_lock b (Sleeplock.holdingsleep me mypid);
  if negb h then panic "bwrite"
  else
    g_mod (upd_buf b (fun x => set_flags (Z.lor (b_flags x) B_DIRTY) x)) ;;
    iderw b.

Definition brelse (b : nat) : M (guarded bcache) unit :=
  h ← on_lock b (Sleeplock.holdingsleep me mypid);
  if negb h then panic "brelse"
  else
    on_lock b (Sleeplock.releasesleep me b) ;;
    g_acquire me ;;
    g_mod (upd_buf b (fun x => set_refcnt (u32 (b_refcnt x - 1)) x)) ;;
    c ← g_get;
    when (b_refcnt (buf_at c b) =? 0) (g_mod (unlink b) ;; g_mod (push_front b)) ;;
    g_release me.
End Bio.

(** ** The linked list *)

(** The path from [a] over [l] to [z]. *)
Fixpoint path (c : bcache) (a : nat) (l : list nat) (z : nat) : Prop :=
  match l with
  | [] => bnext c a = z /\ bprev c z = a
  | b :: l' => bnext c a = b /\ bprev c b = a /\ path c b l' z
  end.

Definition dll (l : list nat) (c : bcache) : Prop := path c head l head /\ NoDup (head :: l).

Lemma path_app c a l1 b l2 z : path c a (l1 ++ b :: l2) z <-> path c a l1 b /\ path c b l2 z.
Proof. revert a; induction l1 as [|x l1 IH]; intros a; cbn [app path]; [tauto|]. rewrite IH. tauto. Qed.

Lemma path_frame c c' a l z :
  (forall x, x ∈ a :: l -> bnext c' x = bnext c x) -> (forall x, x ∈ l ++ [z] -> bprev c' x = bprev c x) ->
  path c a l z -> path c' a l z.
Proof.
  revert a; induction l as [|b l IH]; intros a Hn Hp; cbn [path].
  - rewrite Hn by (by left). rewrite Hp by (by left). done.
  - rewrite Hn by (by left). rewrite Hp by (by left). intros (H1 & H2 & H3). split_and!; try done.
    apply IH; [|intros; apply Hp; by right|done]. intros x Hx. apply Hn. by right.
Qed.

Lemma nupd_eq k v f : nupd k v f k = v.
Proof. unfold nupd. by rewrite decide_True. Qed.
Lemma nupd_ne k v f x : x <> k -> nupd k v f x = f x.
Proof. intros H. unfold nupd. by rewrite decide_False. Qed.

(** The last node before [z], and the first. *)
Lemma path_last c a l z : path c a l z -> bprev c z = default a (last l).
Proof.
  revert a; induction l as [|b l IH]; intros a; cbn [path]; [tauto|]. intros (_ & _ & H).
  rewrite (IH b H). destruct l as [|d l]; [done|]. cbn. by destruct (last (d :: l)) eqn:E; [|apply last_None in E].
Qed.
Lemma path_first c a l z : path c a l z -> bnext c a = default z (hd_error l).
Proof. destruct l; cbn; naive_solver. Qed.

Lemma path_end c a l z :
  path c a l z -> z ∉ l -> NoDup (a :: l) ->
  forall p, p = default a (last l) ->
  forall c', (forall x, x ∈ a :: l -> x <> p -> bnext c' x = bnext c x) ->
    (forall x, x ∈ l -> bprev c' x = bprev c x) ->
  forall z', bnext c' p = z' -> bprev c' z' = p -> path c' a l z'.
Proof.
  revert a; induction l as [|b l IH]; intros a Hp Hz Hnd p -> c' Hn Hv z' E1 E2; cbn [path] in *; [done|].
  destruct Hp as (H1 & H2 & H3). apply not_elem_of_cons in Hz as [Hzb Hz].
  apply NoDup_cons in Hnd as [Ha Hnd].
  assert (Hlast : default a (last (b :: l)) = default b (last l)).
  { destruct l as [|d l]; [done|]. cbn. by destruct (last (d :: l)) eqn:E; [|apply last_None in E]. }
  rewrite Hlast in *.
  assert (Hin : default b (last l) ∈ b :: l).
  { destruct (last l) as [y|] eqn:E; cbn; [|by left]. right. apply last_Some in E as [l' ->].
    apply elem_of_app. right. by left. }
  split_and!.
  - rewrite Hn; [done|by left|]. intros ->. done.
  - rewrite Hv; [done|by left].
  - apply (IH b H3 Hz Hnd (default b (last l)) eq_refl c'); try done.
    + intros x Hx Hxp. apply Hn; [by right|done].
    + intros x Hx. apply Hv. by right.
Qed.

Lemma last_in_path a (l : list nat) : default a (last l) ∈ a :: l.
Proof.
  destruct (last l) as [y|] eqn:E; cbn; [|by left]. right. apply last_Some in E as [l' ->].
  apply elem_of_app. right. by left.
Qed.

Lemma unlink_dll c l1 b l2 : dll (l1 ++ b :: l2) c -> dll (l1 ++ l2) (unlink b c).
Proof.
  intros [Hp Hnd]. apply path_app in Hp as [Hp1 Hp2].
  assert (Hperm : Permutation (head :: l1 ++ b :: l2) (b :: (head :: l1) ++ l2)) by (cbn; by rewrite <- Permutation_middle, Permutation_swap).
  rewrite Hperm in Hnd. apply NoDup_cons in Hnd as [Hb Hnd]. split; [|done].
  apply NoDup_app in Hnd as (Hnd1 & Hdis & Hnd2).
  apply not_elem_of_app in Hb as [Hb1 Hb2].
  set (p := bprev c b). set (n := bnext c b).
  assert (Ep : p = default head (last l1)) by (by apply path_last).
  assert (En : n = default head (hd_error l2)) by (by apply path_first in Hp2).
  assert (Hpin : p ∈ head :: l1) by (rewrite Ep; apply last_in_path).
  assert (Hnb : n <> b).
  { rewrite En. destruct l2; cbn; [|set_solver]. intros E. apply Hb1. rewrite <- E. by left. }
  assert (Epv : bprev (unlink b c) = nupd n p (bprev c)) by done.
  assert (Enx : bnext (unlink b c) = nupd p n (bnext c)).
  { unfold unlink. cbn. fold n p. by rewrite nupd_ne. }
  assert (H1 : path (unlink b c) head l1 n).
  { apply (path_end c head l1 b Hp1) with (p := p); try done.
    - set_solver.
    - intros x Hx Hxp. rewrite Enx. by rewrite nupd_ne.
    - intros x Hx. rewrite Epv. rewrite nupd_ne; [done|]. intros ->. rewrite En in Hx.
      destruct l2 as [|d l2]; cbn in Hx; [by apply NoDup_cons in Hnd1 as [? _]|].
      apply (Hdis d); [by right|by left].
    - rewrite Enx. apply nupd_eq.
    - rewrite Epv. apply nupd_eq. }
  destruct l2 as [|d l2]; cbn in En; rewrite En in *.
  - by rewrite app_nil_r.
  - apply path_app. split; [done|]. destruct Hp2 as (_ & _ & Hp2).
    apply NoDup_cons in Hnd2 as [Hd Hnd2].
    eapply path_frame; [| |exact Hp2].
    + intros x Hx. rewrite Enx, nupd_ne; [done|]. intros ->. by apply (Hdis p).
    + intros x Hx. rewrite Epv, nupd_ne; [done|]. intros ->.
      apply elem_of_app in Hx as [|Hx%list_elem_of_singleton]; [done|].
      apply (Hdis d); rewrite Hx; by left.
Qed.

Lemma push_front_dll c l b : dll l c -> b ∉ head :: l -> dll (b :: l) (push_front b c).
Proof.
  intros [Hp Hnd] Hb. apply not_elem_of_cons in Hb as [Hbh Hbl].
  assert (Hnd' : NoDup (head :: b :: l)).
  { apply NoDup_cons in Hnd as [Hh Hnd]. apply NoDup_cons. split; [set_solver|]. by apply NoDup_cons. }
  split; [|done]. set (f := bnext c head).
  assert (Ef : f = default head (hd_error l)) by (by eapply path_first).
  assert (Hfb : f <> b) by (rewrite Ef; destruct l; cbn; set_solver).
  assert (Enx : bnext (push_front b c) = nupd head b (nupd b f (bnext c))) by done.
  assert (Epv : bprev (push_front b c) = nupd f b (nupd b head (bprev c))).
  { unfold push_front. cbn. fold f. by rewrite nupd_ne. }
  apply NoDup_cons in Hnd as [Hhl Hnd]. cbn [path]. split_and!.
  - rewrite Enx. apply nupd_eq.
  - rewrite Epv, nupd_ne by done. apply nupd_eq.
  - destruct l as [|d l]; cbn in Ef; rewrite Ef in *; cbn [path].
    + rewrite Enx, Epv, nupd_ne, !nupd_eq by done. done.
    + apply NoDup_cons in Hnd as [Hd Hnd]. split_and!.
      * rewrite Enx, nupd_ne, nupd_eq by done. done.
      * rewrite Epv. apply nupd_eq.
      * destruct Hp as (_ & _ & Hp). eapply path_frame; [| |exact Hp].
        -- intros x Hx. rewrite Enx, !nupd_ne; [done| |]; set_solver.
        -- intros x Hx. rewrite Epv, !nupd_ne; [done| |]; set_solver.
Qed.

(** Releasing a buffer moves it to the front. *)
Lemma move_to_front c l b :
  dll l c -> b ∈ l -> exists l1 l2, l = l1 ++ b :: l2 /\ dll (b :: l1 ++ l2) (push_front b (unlink b c)).
Proof.
  intros Hd Hb. apply list_elem_of_split in Hb as (l1 & l2 & ->). exists l1, l2. split; [done|].
  pose proof (unlink_dll c l1 b l2 Hd) as Hd'. apply push_front_dll; [done|].
  destruct Hd as [_ Hnd]. apply NoDup_cons in Hnd as [Hh Hnd]. apply NoDup_app in Hnd as (Hnd1 & Hdis & Hnd2).
  apply NoDup_cons in Hnd2 as [Hb2 _]. set_solver.
Qed.

(** [bnext] and [bprev] are all the list is about. *)
Lemma dll_same c c' l : bnext c' = bnext c -> bprev c' = bprev c -> dll l c -> dll l c'.
Proof. intros E1 E2 [Hp Hn]. split; [|done]. eapply path_frame; [| |exact Hp]; intros; by rewrite ?E1, ?E2. Qed.

Lemma dll_upd_buf l i f c : dll l c -> dll l (upd_buf i f c).
Proof. by apply dll_same. Qed.

Lemma binit_dll d junk : dll (rev (seq 0 NBUF)) (binit d junk).
Proof.
  unfold binit. set (c0 := mk_bcache _ _ _ _).
  assert (H : forall n, (n <= NBUF)%nat -> dll (rev (seq 0 n))
    (fold_left (fun c b => upd_buf b (set_lock Sleeplock.initsleeplock) (push_front b c)) (seq 0 n) c0));
    [|by apply H].
  induction n as [|n IH]; intros Hn.
  - split; [cbn; by rewrite !nupd_eq|]. apply NoDup_singleton.
  - rewrite seq_S, rev_app_distr, fold_left_app. cbn [Nat.add rev app fold_left].
    set (c := fold_left _ (seq 0 n) c0) in *. apply (dll_same (push_front n c)); [done|done|].
    apply push_front_dll; [apply IH; lia|]. apply not_elem_of_cons. split; [unfold head; lia|].
    rewrite list_elem_of_In, <- in_rev, in_seq. lia.
Qed.

(** ** The scans *)

Definition hit (dev n : Z) (c : bcache) (i : nat) : bool :=
  (b_dev (buf_at c i) =? dev) && (b_blockno (buf_at c i) =? n).
Definition free (c : bcache) (i : nat) : bool :=
  (b_refcnt (buf_at c i) =? 0) && (Z.land (b_flags (buf_at c i)) B_DIRTY =? 0).

Lemma scan_fwd_run c dev n a l fuel g :
  path c a l head -> head ∉ l -> (length l < fuel)%nat ->
  scan_fwd fuel c dev n (bnext c a) g = Ret (List.find (hit dev n c) l) g.
Proof.
  revert a fuel; induction l as [|b l IH]; intros a fuel Hp Hh Hf; (destruct fuel as [|fuel]; [lia|]);
    cbn [scan_fwd path List.find] in *.
  - destruct Hp as [-> _]. by rewrite decide_True.
  - destruct Hp as (-> & _ & Hp). apply not_elem_of_cons in Hh as [Hb Hh]. rewrite decide_False by done.
    fold (hit dev n c b). destruct (hit dev n c b); [done|]. apply IH; [done|done|cbn in Hf; lia].
Qed.

Lemma scan_back_run c l z fuel g :
  path c head l z -> head ∉ l -> (length l < fuel)%nat ->
  scan_back fuel c (bprev c z) g = Ret (List.find (free c) (rev l)) g.
Proof.
  revert z fuel; induction l as [|b l IH] using rev_ind; intros z fuel Hp Hh Hf;
    (destruct fuel as [|fuel]; [lia|]); cbn [scan_back].
  - destruct Hp as [_ ->]. by rewrite decide_True.
  - apply path_app in Hp as [Hp [_ ->]]. apply not_elem_of_app in Hh as [Hh Hb].
    rewrite decide_False by (intros E; apply Hb; rewrite E; by left).
    rewrite rev_app_distr. cbn [rev app List.find]. fold (free c b). destruct (free c b); [done|].
    apply IH; [done|done|]. rewrite length_app in Hf. cbn in Hf. lia.
Qed.

(** ** Coherence *)

Definition is_dirty (x : buf) : bool := Z.testbit (b_flags x) 2.
Definition is_valid (x : buf) : bool := Z.testbit (b_flags x) 1.

Lemma land_dirty f : (Z.land f B_DIRTY =? 0) = negb (Z.testbit f 2).
Proof.
  unfold B_DIRTY. change 4 with (2 ^ 2). destruct (Z.testbit f 2) eqn:E; cbn.
  - apply Z.eqb_neq. intros H. assert (H2 : Z.testbit (Z.land f (2 ^ 2)) 2 = false) by (by rewrite H).
    rewrite Z.land_spec, E in H2. done.
  - apply Z.eqb_eq, Z.bits_inj'. intros n Hn. rewrite Z.land_spec, Z.bits_0.
    destruct (decide (n = 2)) as [->|]; [by rewrite E|]. rewrite Z.pow2_bits_false by lia. by rewrite andb_false_r.
Qed.

Lemma land_valid f : (Z.land f B_VALID =? 0) = negb (Z.testbit f 1).
Proof.
  unfold B_VALID. change 2 with (2 ^ 1). destruct (Z.testbit f 1) eqn:E; cbn.
  - apply Z.eqb_neq. intros H. assert (H2 : Z.testbit (Z.land f (2 ^ 1)) 1 = false) by (by rewrite H).
    rewrite Z.land_spec, E in H2. done.
  - apply Z.eqb_eq, Z.bits_inj'. intros n Hn. rewrite Z.land_spec, Z.bits_0.
    destruct (decide (n = 1)) as [->|]; [by rewrite E|]. rewrite Z.pow2_bits_false by lia. by rewrite andb_false_r.
Qed.

(** Neither valid alone: there is something for the disk to do. *)
Lemma land_both f :
  (Z.land f (Z.lor B_VALID B_DIRTY) =? B_VALID) = Z.testbit f 1 && negb (Z.testbit f 2).
Proof.
  unfold B_VALID, B_DIRTY. change (Z.lor 2 4) with 6.
  assert (H1 : Z.testbit (Z.land f 6) 1 = Z.testbit f 1) by (rewrite Z.land_spec; by rewrite andb_true_r).
  assert (H2 : Z.testbit (Z.land f 6) 2 = Z.testbit f 2) by (rewrite Z.land_spec; by rewrite andb_true_r).
  destruct (Z.eqb_spec (Z.land f 6) 2) as [E|E].
  - rewrite E in H1, H2. by rewrite <- H1, <- H2.
  - destruct (Z.testbit f 1) eqn:E1, (Z.testbit f 2) eqn:E2; try done. exfalso. apply E.
    apply Z.bits_inj'. intros n Hn. rewrite Z.land_spec.
    destruct (decide (n = 1)) as [->|]; [by rewrite E1|]. destruct (decide (n = 2)) as [->|]; [by rewrite E2|].
    assert (E6 : Z.testbit 6 n = false).
    { change 6 with (Z.lor (2 ^ 1) (2 ^ 2)). by rewrite Z.lor_spec, !Z.pow2_bits_false by lia. }
    assert (E7 : Z.testbit 2 n = false) by (change 2 with (2 ^ 1); by rewrite Z.pow2_bits_false by lia).
    by rewrite E6, E7, andb_false_r.
Qed.

(** The contents of block [n] of disk 1 as the cache sees them. *)
Definition view (c : bcache) (n : Z) : block :=
  match List.find (hit 1 n c) (seq 0 NBUF) with
  | Some i => b_data (buf_at c i)
  | None => bdisk c n
  end.

(** No buffer is in use, a block of disk 1 has at most one buffer, clean buffers
    agree with the disk, and some buffer can be recycled. *)
Record cache_ok (l : list nat) (c : bcache) : Prop := mk_cache_ok {
  co_dll : dll l c;
  co_perm : Permutation l (seq 0 NBUF);
  co_len : length (bufs c) = NBUF;
  co_idle : forall i, (i < NBUF)%nat -> b_refcnt (buf_at c i) = 0 /\
    b_lock (buf_at c i) = Sleeplock.initsleeplock /\ length (b_data (buf_at c i)) = 512%nat;
  co_uniq : forall i j, (i < NBUF)%nat -> (j < NBUF)%nat -> b_dev (buf_at c i) = 1 -> b_dev (buf_at c j) = 1 ->
    b_blockno (buf_at c i) = b_blockno (buf_at c j) -> i = j;
  co_valid : forall i, (i < NBUF)%nat -> b_dev (buf_at c i) = 1 -> is_valid (buf_at c i) = true;
  co_clean : forall i, (i < NBUF)%nat -> b_dev (buf_at c i) = 1 -> is_dirty (buf_at c i) = false ->
    b_data (buf_at c i) = bdisk c (b_blockno (buf_at c i));
  co_room : exists i, (i < NBUF)%nat /\ is_dirty (buf_at c i) = false;
  co_disk : forall n, length (bdisk c n) = 512%nat }.

Lemma buf_at_upd i f c j :
  (i < length (bufs c))%nat ->
  buf_at (upd_buf i f c) j = if decide (j = i) then f (buf_at c i) else buf_at c j.
Proof.
  intros Hi. unfold buf_at, upd_buf. cbn. rewrite !nth_lookup. destruct (decide (j = i)) as [->|Hne].
  - rewrite list_lookup_alter_eq. destruct (lookup_lt_is_Some_2 _ _ Hi) as [x Hx]. by rewrite Hx.
  - by rewrite list_lookup_alter_ne.
Qed.

Lemma buf_at_upd_eq i f c : (i < length (bufs c))%nat -> buf_at (upd_buf i f c) i = f (buf_at c i).
Proof. intros Hi. rewrite buf_at_upd by done. by rewrite decide_True. Qed.

Lemma upd_buf_length i f c : length (bufs (upd_buf i f c)) = length (bufs c).
Proof. apply length_alter. Qed.

Lemma upd_buf_eq i f h c :
  (i < length (bufs c))%nat -> f (buf_at c i) = h (buf_at c i) -> upd_buf i f c = upd_buf i h c.
Proof.
  intros Hi E. unfold upd_buf. f_equal. apply list_eq. intros j. destruct (decide (j = i)) as [->|Hne].
  - rewrite !list_lookup_alter_eq. unfold buf_at in E. rewrite nth_lookup in E.
    destruct (lookup_lt_is_Some_2 _ _ Hi) as [x Hx]. rewrite Hx in *. cbn in *. by rewrite E.
  - by rewrite !list_lookup_alter_ne.
Qed.

Lemma upd_buf_id i c : upd_buf i (fun x => x) c = c.
Proof.
  destruct c as [bs nx pv dk]. unfold upd_buf. cbn. f_equal. apply list_eq. intros j.
  destruct (decide (j = i)) as [->|Hne]; [|by rewrite list_lookup_alter_ne].
  rewrite list_lookup_alter_eq. by destruct (bs !! i).
Qed.

Lemma upd_buf_twice i f h c : upd_buf i f (upd_buf i h c) = upd_buf i (fun x => f (h x)) c.
Proof.
  unfold upd_buf. cbn. f_equal. apply list_eq. intros j. destruct (decide (j = i)) as [->|Hne].
  - rewrite !list_lookup_alter_eq. by destruct (bufs c !! i).
  - by rewrite !list_lookup_alter_ne.
Qed.

Section Coherence.
Context (me : nat) (mypid disksize : Z).

Definition held_lock : sleeplock := mk_sleeplock 1 Spinlock.initlock mypid.

Lemma lock_quiet g i :
  g_quiet g -> sl_lk (b_lock (buf_at (g_val g) i)) = Spinlock.initlock ->
  Sleeplock.quiet (mk_slctx (g_cpu g) (b_lock (buf_at (g_val g) i)) (g_wakes g)).
Proof. intros [_ Hc] Hl. by split. Qed.

Lemma settle_quiet (g : guarded bcache) (c : bcache) w :
  g_quiet g -> g_quiet (mk_g (Sleeplock.settle (g_cpu g)) (g_lk g) c w).
Proof. intros [Hl [H1 H2]]. split; [done|]. by split. Qed.

Lemma acquire_lock_run g i :
  g_quiet g -> b_lock (buf_at (g_val g) i) = Sleeplock.initsleeplock ->
  exists g', on_lock i (Sleeplock.acquiresleep me i mypid) g = Ret tt g' /\ g_quiet g' /\
    g_val g' = upd_buf i (set_lock held_lock) (g_val g).
Proof.
  intros Hg Hl. unfold on_lock, zoom.
  rewrite Sleeplock.acquiresleep_run by (apply lock_quiet; [done|by rewrite Hl]). cbn [sl]. rewrite Hl. cbn.
  eexists. split; [reflexivity|]. split; [by apply settle_quiet|done].
Qed.

Lemma holding_lock_run g i :
  g_quiet g -> b_lock (buf_at (g_val g) i) = held_lock ->
  exists g', on_lock i (Sleeplock.holdingsleep me mypid) g = Ret true g' /\ g_quiet g' /\
    g_val g' = upd_buf i (set_lock held_lock) (g_val g).
Proof.
  intros Hg Hl. unfold on_lock, zoom.
  rewrite Sleeplock.holdingsleep_run by (apply lock_quiet; [done|by rewrite Hl]). cbn [sl]. rewrite Hl.
  cbn [Sleeplock.owner held_lock sl_locked sl_pid ctrue Z.eqb negb]. rewrite bool_decide_true by done.
  eexists. split; [reflexivity|]. split; [by apply settle_quiet|done].
Qed.

Lemma release_lock_run g i :
  g_quiet g -> b_lock (buf_at (g_val g) i) = held_lock ->
  exists g', on_lock i (Sleeplock.releasesleep me i) g = Ret tt g' /\ g_quiet g' /\
    g_val g' = upd_buf i (set_lock Sleeplock.initsleeplock) (g_val g).
Proof.
  intros Hg Hl. unfold on_lock, zoom.
  rewrite Sleeplock.releasesleep_run by (apply lock_quiet; [done|by rewrite Hl]).
  eexists. split; [reflexivity|]. split; [by apply settle_quiet|done].
Qed.

(** Updating a field to the value it has. *)
Lemma set_lock_same i (c : bcache) :
  (i < length (bufs c))%nat -> b_lock (buf_at c i) = held_lock -> upd_buf i (set_lock held_lock) c = c.
Proof.
  intros Hi Hl. rewrite (upd_buf_eq i _ (fun x => x)); [apply upd_buf_id|done|].
  unfold set_lock. rewrite <- Hl. by destruct (buf_at c i).
Qed.

Lemma iderw_read_run g i :
  g_quiet g -> (i < length (bufs (g_val g)))%nat ->
  let x := buf_at (g_val g) i in
  b_lock x = held_lock -> b_flags x = 0 -> b_dev x = 1 -> b_blockno x < disksize ->
  exists g', iderw me mypid disksize i g = Ret tt g' /\ g_quiet g' /\
    g_val g' = upd_buf i (fun x => set_flags 2 (set_data (bdisk (g_val g) (b_blockno x)) x)) (g_val g).
Proof.
  intros Hg Hi x Hl Hf Hd Hb. unfold iderw. destruct (holding_lock_run g i Hg Hl) as (g1 & E1 & Hg1 & V1).
  rewrite (bind_eq _ _ _ _ _ E1). cbn [negb]. rewrite (bind_eq g_get _ g1 (g_val g1) g1 eq_refl).
  rewrite set_lock_same in V1 by done. rewrite V1. fold x. cbv zeta. rewrite Hf, Hd.
  change (Z.land 0 (Z.lor B_VALID B_DIRTY) =? B_VALID) with false.
  change (ctrue (Z.land 0 B_DIRTY)) with false. cbn [Z.eqb Pos.eqb negb].
  replace (b_blockno x >=? disksize) with false by lia.
  eexists. split; [reflexivity|]. split; [done|]. cbn [g_val]. rewrite V1, upd_buf_twice.
  apply upd_buf_eq; [done|]. fold x. unfold set_flags, set_data. cbn. by rewrite Hf.
Qed.

Lemma iderw_write_run g i :
  g_quiet g -> (i < length (bufs (g_val g)))%nat ->
  let x := buf_at (g_val g) i in
  b_lock x = held_lock -> is_dirty x = true -> b_dev x = 1 -> b_blockno x < disksize ->
  exists g' f, iderw me mypid disksize i g = Ret tt g' /\ g_quiet g' /\
    Z.testbit f 2 = false /\ Z.testbit f 1 = true /\
    g_val g' = upd_buf i (set_flags f)
      (mk_bcache (bufs (g_val g)) (bnext (g_val g)) (bprev (g_val g)) (upd (b_blockno x) (b_data x) (bdisk (g_val g)))).
Proof.
  intros Hg Hi x Hl Hf Hd Hb. unfold iderw. destruct (holding_lock_run g i Hg Hl) as (g1 & E1 & Hg1 & V1).
  rewrite (bind_eq _ _ _ _ _ E1). cbn [negb]. rewrite (bind_eq g_get _ g1 (g_val g1) g1 eq_refl).
  rewrite set_lock_same in V1 by done. rewrite V1. fold x. cbv zeta. unfold is_dirty in Hf.
  rewrite land_both, Hf, andb_false_r, Hd. cbn [Z.eqb Pos.eqb negb].
  replace (b_blockno x >=? disksize) with false by lia. unfold ctrue. rewrite land_dirty, Hf. cbn [negb].
  eexists _, (Z.lor (Z.land (b_flags x) (Z.lnot B_DIRTY)) B_VALID). split; [reflexivity|]. split; [done|].
  split_and!.
  - rewrite Z.lor_spec, Z.land_spec, Z.lnot_spec by lia. by rewrite Hf.
  - rewrite Z.lor_spec. by rewrite orb_true_r.
  - cbn [g_val]. rewrite V1. unfold upd_buf at 1. cbn [bufs bnext bprev bdisk].
    change (mk_bcache (alter ?f i (bufs (upd_buf i ?h (g_val g)))) ?a ?b ?d)
      with (mk_bcache (bufs (upd_buf i f (upd_buf i h (g_val g)))) a b d).
    rewrite upd_buf_twice. unfold upd_buf at 5. cbn [bufs bnext bprev bdisk]. unfold upd_buf. cbn.
    f_equal. pose proof (upd_buf_eq i (fun y => set_flags (Z.lor (b_flags (set_flags (Z.land (b_flags y) (Z.lnot B_DIRTY)) y)) B_VALID)
      (set_flags (Z.land (b_flags y) (Z.lnot B_DIRTY)) y)) (set_flags (Z.lor (Z.land (b_flags x) (Z.lnot B_DIRTY)) B_VALID)) (g_val g) Hi eq_refl) as E.
    apply (f_equal bufs) in E. exact E.
Qed.

Lemma hit_spec dev n c i :
  hit dev n c i = true <-> b_dev (buf_at c i) = dev /\ b_blockno (buf_at c i) = n.
Proof. unfold hit. rewrite andb_true_iff, !Z.eqb_eq. done. Qed.

Lemma view_cached c i n :
  (forall i j, (i < NBUF)%nat -> (j < NBUF)%nat -> b_dev (buf_at c i) = 1 -> b_dev (buf_at c j) = 1 ->
    b_blockno (buf_at c i) = b_blockno (buf_at c j) -> i = j) ->
  (i < NBUF)%nat -> b_dev (buf_at c i) = 1 -> b_blockno (buf_at c i) = n -> view c n = b_data (buf_at c i).
Proof.
  intros Hu Hi H1 H2. unfold view. destruct (List.find (hit 1 n c) (seq 0 NBUF)) as [j|] eqn:E.
  - apply List.find_some in E as [Hj%in_seq [H3 H4]%hit_spec]. by rewrite (Hu i j) by (done || lia || congruence).
  - assert (Hin : In i (seq 0 NBUF)) by (apply in_seq; lia).
    pose proof (List.find_none _ _ E i Hin) as Hh. by rewrite (proj2 (hit_spec 1 n c i)) in Hh.
Qed.

Lemma view_uncached c n :
  (forall j, (j < NBUF)%nat -> ~ (b_dev (buf_at c j) = 1 /\ b_blockno (buf_at c j) = n)) -> view c n = bdisk c n.
Proof.
  intros Hn. unfold view. destruct (List.find (hit 1 n c) (seq 0 NBUF)) as [j|] eqn:E; [|done].
  apply List.find_some in E as [Hj%in_seq Hh%hit_spec]. exfalso. apply (Hn j); [lia|done].
Qed.

Lemma order_in l i : Permutation l (seq 0 NBUF) -> In i l <-> (i < NBUF)%nat.
Proof.
  intros Hp. split.
  - intros Hi%(Permutation_in _ Hp). apply in_seq in Hi. lia.
  - intros Hi. apply (Permutation_in i (Permutation_sym Hp)), in_seq. lia.
Qed.

(** What [bread] gives: a buffer [x] in slot [i] for block [n], locked and counted. *)
Record got (c : bcache) (n : Z) (i : nat) (x : buf) : Prop := mk_got {
  got_lt : (i < NBUF)%nat;
  got_dev : b_dev x = 1;
  got_blockno : b_blockno x = n;
  got_data : b_data x = view c n;
  got_refcnt : b_refcnt x = 1;
  got_lock : b_lock x = held_lock;
  got_valid : is_valid x = true;
  got_only : forall j, (j < NBUF)%nat -> j <> i -> ~ (b_dev (buf_at c j) = 1 /\ b_blockno (buf_at c j) = n);
  got_dirty : is_dirty x = is_dirty (buf_at c i);
  got_clean : is_dirty x = false -> b_data x = bdisk c n;
  got_old : is_dirty (buf_at c i) = true -> b_dev (buf_at c i) = 1 /\ b_blockno (buf_at c i) = n }.

Lemma bread_hit g l n i :
  g_quiet g -> cache_ok l (g_val g) -> List.find (hit 1 n (g_val g)) l = Some i ->
  exists g' x, bread me mypid disksize 1 n g = Ret i g' /\ g_quiet g' /\ got (g_val g) n i x /\
    g_val g' = upd_buf i (fun _ => x) (g_val g).
Proof.
  intros Hg [H1 H2 H3 H4 H5 H6 H7 H8 H9] Ef. set (c := g_val g) in *.
  pose proof Ef as Ef'. apply List.find_some in Ef' as [Hin [Hd Hb]%hit_spec].
  apply (order_in l i H2) in Hin as Hi. destruct (H4 i Hi) as (Hr & Hl & Hlen).
  destruct H1 as [Hp Hnd]. apply NoDup_cons in Hnd as [Hh _].
  assert (Hll : length l = NBUF) by (rewrite H2; apply length_seq).
  unfold bread, bget. unfold mbind at 1, M_MBind, M_bind. fold (M_MBind (guarded bcache)).
  rewrite (bind_eq _ _ _ _ _ (g_acquire_run me g Hg)), (bind_eq _ _ _ _ _ (g_get_run me g _ _)). fold c.
  rewrite (bind_eq _ _ _ _ _ (scan_fwd_run c 1 n head l SCAN_FUEL _ Hp Hh ltac:(unfold SCAN_FUEL; lia))), Ef.
  rewrite (bind_eq _ _ _ _ _ (g_mod_run me _ g _ _)), (bind_eq _ _ _ _ _ (g_release_run me g _ _ Hg)).
  set (g1 := out_cs g _ _). assert (Hg1 : g_quiet g1) by (by apply out_cs_quiet).
  assert (Hl1 : b_lock (buf_at (g_val g1) i) = Sleeplock.initsleeplock).
  { unfold g1. cbn [out_cs g_val]. rewrite buf_at_upd_eq by lia. exact Hl. }
  destruct (acquire_lock_run g1 i Hg1 Hl1) as (g2 & E2 & Hg2 & V2). rewrite (bind_eq _ _ _ _ _ E2).
  cbn [mret M_MRet M_ret]. rewrite (bind_eq g_get _ g2 (g_val g2) g2 eq_refl).
  set (x := mk_buf (b_flags (buf_at c i)) (b_dev (buf_at c i)) (b_blockno (buf_at c i)) held_lock 1 (b_data (buf_at c i))).
  assert (V2' : g_val g2 = upd_buf i (fun _ => x) c).
  { rewrite V2. unfold g1. cbn [out_cs g_val]. rewrite upd_buf_twice. apply upd_buf_eq; [lia|].
    unfold set_lock, set_refcnt. cbn. by rewrite Hr. }
  assert (Hval : is_valid x = true) by (apply (H6 i Hi Hd)).
  rewrite V2', buf_at_upd_eq by lia. rewrite land_valid. change (Z.testbit (b_flags x) 1) with (is_valid x).
  rewrite Hval. cbn [negb when]. exists g2, x. split; [reflexivity|]. split; [done|]. split; [|done].
  constructor; cbn; try done.
  - symmetry. by apply view_cached.
  - intros j Hj Hne [K1 K2]. apply Hne, (H5 j i); (done || congruence).
  - intros Hcl. rewrite <- Hb. by apply H7.
Qed.

Lemma bread_miss g l n :
  g_quiet g -> cache_ok l (g_val g) -> 0 <= n < disksize -> List.find (hit 1 n (g_val g)) l = None ->
  exists g' i x, bread me mypid disksize 1 n g = Ret i g' /\ g_quiet g' /\ got (g_val g) n i x /\
    g_val g' = upd_buf i (fun _ => x) (g_val g) /\ List.find (free (g_val g)) (rev l) = Some i.
Proof.
  intros Hg [H1 H2 H3 H4 H5 H6 H7 H8 H9] Hn Ef. set (c := g_val g) in *.
  destruct H1 as [Hp Hnd]. apply NoDup_cons in Hnd as [Hh _].
  assert (Hll : length l = NBUF) by (rewrite H2; apply length_seq).
  assert (Hnone : forall j, (j < NBUF)%nat -> ~ (b_dev (buf_at c j) = 1 /\ b_blockno (buf_at c j) = n)).
  { intros j Hj Hc. apply (order_in l j H2) in Hj. pose proof (List.find_none _ _ Ef j Hj) as Hf.
    by rewrite (proj2 (hit_spec 1 n c j) Hc) in Hf. }
  assert (exists i, List.find (free c) (rev l) = Some i /\ (i < NBUF)%nat /\ is_dirty (buf_at c i) = false) as (i & Ei & Hi & Hcl).
  { destruct (List.find (free c) (rev l)) as [i|] eqn:Ei.
    - exists i. split; [done|]. apply List.find_some in Ei as [Hi [_ Hd]%andb_true_iff].
      rewrite land_dirty in Hd. split; [apply (order_in l i H2); by apply in_rev|].
      unfold is_dirty. by destruct (Z.testbit _ 2).
    - exfalso. destruct H8 as (i & Hi & Hd). assert (Hin : In i (rev l)) by (apply -> in_rev; by apply (order_in l i H2)).
      pose proof (List.find_none _ _ Ei i Hin) as Hf. unfold free in Hf. rewrite land_dirty in Hf.
      unfold is_dirty in Hd. rewrite Hd, (proj1 (H4 i Hi)) in Hf. done. }
  destruct (H4 i Hi) as (Hr & Hl & Hlen).
  unfold bread, bget. unfold mbind at 1, M_MBind, M_bind. fold (M_MBind (guarded bcache)).
  rewrite (bind_eq _ _ _ _ _ (g_acquire_run me g Hg)), (bind_eq _ _ _ _ _ (g_get_run me g _ _)). fold c.
  rewrite (bind_eq _ _ _ _ _ (scan_fwd_run c 1 n head l SCAN_FUEL _ Hp Hh ltac:(unfold SCAN_FUEL; lia))), Ef.
  rewrite (bind_eq _ _ _ _ _ (scan_back_run c l head SCAN_FUEL _ Hp Hh ltac:(unfold SCAN_FUEL; lia))), Ei.
  rewrite (bind_eq _ _ _ _ _ (g_mod_run me _ g _ _)), (bind_eq _ _ _ _ _ (g_release_run me g _ _ Hg)).
  set (g1 := out_cs g _ _). assert (Hg1 : g_quiet g1) by (by apply out_cs_quiet).
  assert (Hl1 : b_lock (buf_at (g_val g1) i) = Sleeplock.initsleeplock).
  { unfold g1. cbn [out_cs g_val]. rewrite buf_at_upd_eq by lia. exact Hl. }
  destruct (acquire_lock_run g1 i Hg1 Hl1) as (g2 & E2 & Hg2 & V2). rewrite (bind_eq _ _ _ _ _ E2).
  cbn [mret M_MRet M_ret]. rewrite (bind_eq g_get _ g2 (g_val g2) g2 eq_refl).
  set (x0 := mk_buf 0 1 n held_lock 1 (b_data (buf_at c i))).
  assert (V2' : g_val g2 = upd_buf i (fun _ => x0) c).
  { rewrite V2. unfold g1. cbn [out_cs g_val]. by rewrite upd_buf_twice, (upd_buf_eq i _ (fun _ => x0)) by (done || lia). }
  assert (Hx0 : buf_at (g_val g2) i = x0) by (rewrite V2', buf_at_upd_eq by lia; done).
  rewrite Hx0. change (Z.land (b_flags x0) B_VALID =? 0) with true. cbn [when].
  destruct (iderw_read_run g2 i Hg2) as (g3 & E3 & Hg3 & V3); rewrite ?Hx0; cbn; try done; try lia.
  { rewrite V2', upd_buf_length. lia. }
  rewrite (bind_eq _ _ _ _ _ E3). exists g3, i, (mk_buf 2 1 n held_lock 1 (bdisk c n)).
  split; [reflexivity|]. split; [done|]. split.
  - constructor; cbn [b_dev b_blockno b_data b_refcnt b_lock]; fold c; rewrite ?Hcl; try done;
      [symmetry; by apply view_uncached|by intros ??; auto].
  - split; [|done]. rewrite V3, V2'. rewrite upd_buf_twice. by apply upd_buf_eq; [lia|].
Qed.

Lemma bread_got g l n :
  g_quiet g -> cache_ok l (g_val g) -> 0 <= n < disksize ->
  exists g' i x, bread me mypid disksize 1 n g = Ret i g' /\ g_quiet g' /\ got (g_val g) n i x /\
    g_val g' = upd_buf i (fun _ => x) (g_val g).
Proof.
  intros Hg Hc Hn. destruct (List.find (hit 1 n (g_val g)) l) as [i|] eqn:E.
  - destruct (bread_hit g l n i Hg Hc E) as (g' & x & ?). by exists g', i, x.
  - destruct (bread_miss g l n Hg Hc Hn E) as (g' & i & x & ? & ? & ? & ? & _). by exists g', i, x.
Qed.

Lemma brelse_run g i :
  g_quiet g -> (i < length (bufs (g_val g)))%nat ->
  b_lock (buf_at (g_val g) i) = held_lock -> b_refcnt (buf_at (g_val g) i) = 1 ->
  exists g', brelse me mypid i g = Ret tt g' /\ g_quiet g' /\
    g_val g' = push_front i (unlink i
      (upd_buf i (fun x => set_refcnt 0 (set_lock Sleeplock.initsleeplock x)) (g_val g))).
Proof.
  intros Hg Hi Hl Hr. unfold brelse. destruct (holding_lock_run g i Hg Hl) as (g1 & E1 & Hg1 & V1).
  rewrite set_lock_same in V1 by done. rewrite (bind_eq _ _ _ _ _ E1). cbn [negb].
  rewrite <- V1 in Hl. destruct (release_lock_run g1 i Hg1 Hl) as (g2 & E2 & Hg2 & V2). rewrite (bind_eq _ _ _ _ _ E2).
  rewrite (bind_eq _ _ _ _ _ (g_acquire_run me g2 Hg2)), (bind_eq _ _ _ _ _ (g_mod_run me _ g2 _ _)).
  rewrite (bind_eq _ _ _ _ _ (g_get_run me g2 _ _)).
  assert (V3 : upd_buf i (fun x => set_refcnt (u32 (b_refcnt x - 1)) x) (g_val g2) =
    upd_buf i (fun x => set_refcnt 0 (set_lock Sleeplock.initsleeplock x)) (g_val g)).
  { rewrite V2, V1, upd_buf_twice. apply upd_buf_eq; [done|]. cbn. rewrite Hr. done. }
  rewrite V3, buf_at_upd_eq by done. cbn [b_refcnt set_refcnt Z.eqb when].
  unfold mbind at 1, M_MBind, M_bind. rewrite (bind_eq _ _ _ _ _ (g_mod_run me _ g2 _ _)), g_mod_run.
  rewrite (g_release_run me g2 _ _ Hg2). eexists. split; [reflexivity|]. split; [by apply out_cs_quiet|done].
Qed.

(** Putting buffer [x] back for block [n], with disk [d]. *)
Lemma cache_put l c n i x d :
  cache_ok l c -> (i < NBUF)%nat -> b_dev x = 1 -> b_blockno x = n -> b_refcnt x = 0 ->
  b_lock x = Sleeplock.initsleeplock -> length (b_data x) = 512%nat -> is_valid x = true ->
  (is_dirty x = false -> b_data x = d n) -> (is_dirty x = true -> is_dirty (buf_at c i) = true) ->
  (forall j, (j < NBUF)%nat -> j <> i -> ~ (b_dev (buf_at c j) = 1 /\ b_blockno (buf_at c j) = n)) ->
  (is_dirty (buf_at c i) = true -> b_dev (buf_at c i) = 1 /\ b_blockno (buf_at c i) = n) ->
  (forall m, m <> n -> d m = bdisk c m) -> (forall m, length (d m) = 512%nat) ->
  let c1 := upd_buf i (fun _ => x) c in
  let c' := push_front i (unlink i (mk_bcache (bufs c1) (bnext c1) (bprev c1) d)) in
  (exists l', cache_ok l' c') /\ forall m, view c' m = if m =? n then b_data x else view c m.
Proof.
  intros [H1 H2 H3 H4 H5 H6 H7 H8 H9] Hi Hd Hb Hr Hl Hlen Hv Hcl Hdi Hun Hold Hdk Hdl c1 c'.
  assert (Hat : forall j, buf_at c' j = if decide (j = i) then x else buf_at c j).
  { intros j. change (buf_at c' j) with (buf_at c1 j). unfold c1. apply buf_at_upd. lia. }
  assert (Hdj : forall j, (j < NBUF)%nat -> j <> i -> b_dev (buf_at c j) = 1 -> b_blockno (buf_at c j) <> n)
    by (intros j Hj Hne K1 K2; by apply (Hun j Hj Hne)).
  assert (Hu : forall j k, (j < NBUF)%nat -> (k < NBUF)%nat -> b_dev (buf_at c' j) = 1 -> b_dev (buf_at c' k) = 1 ->
    b_blockno (buf_at c' j) = b_blockno (buf_at c' k) -> j = k).
  { intros j k Hj Hk. rewrite !Hat. destruct (decide (j = i)) as [->|Nj], (decide (k = i)) as [->|Nk]; try done.
    - intros _ K1 K2. exfalso. apply (Hdj k Hk Nk K1). congruence.
    - intros K1 _ K2. exfalso. apply (Hdj j Hj Nj K1). congruence.
    - by apply H5. }
  split.
  - assert (Hd1 : dll l (mk_bcache (bufs c1) (bnext c1) (bprev c1) d)) by (by apply (dll_same c)).
    assert (Hin : i ∈ l) by (apply list_elem_of_In; by apply (order_in l i H2)).
    destruct (move_to_front _ _ _ Hd1 Hin) as (l1 & l2 & El & Hdll). exists (i :: l1 ++ l2).
    constructor; try done.
    + rewrite <- H2, El. apply Permutation_middle.
    + change (bufs c') with (bufs c1). unfold c1. by rewrite upd_buf_length.
    + intros j Hj. rewrite Hat. destruct (decide (j = i)); [done|]. by apply H4.
    + intros j Hj. rewrite Hat. destruct (decide (j = i)); [done|]. by apply H6.
    + intros j Hj. rewrite Hat. change (bdisk c') with d. destruct (decide (j = i)) as [->|Hne].
      * intros _ K. rewrite Hb. by apply Hcl.
      * intros K1 K2. rewrite (H7 j Hj K1 K2). symmetry. apply Hdk. by apply Hdj.
    + destruct H8 as (j & Hj & K). exists j. split; [done|]. rewrite Hat. destruct (decide (j = i)) as [->|]; [|done].
      destruct (is_dirty x) eqn:E; [|done]. rewrite (Hdi eq_refl) in K. done.
  - intros m. destruct (Z.eqb_spec m n) as [->|Hm].
    + rewrite (view_cached c' i n Hu Hi); rewrite Hat, decide_True; done.
    + destruct (List.find (hit 1 m c) (seq 0 NBUF)) as [j|] eqn:E.
      * apply List.find_some in E as [Hj%in_seq [K1 K2]%hit_spec]. rewrite (view_cached c j m H5) by (done || lia).
        destruct (decide (j = i)) as [->|Hne].
        -- rewrite view_uncached.
           ++ change (bdisk c') with d. rewrite Hdk by done. symmetry. rewrite <- K2. apply H7; [done|done|].
              destruct (is_dirty (buf_at c i)) eqn:Ed; [|done]. destruct (Hold eq_refl) as [_ K3]. congruence.
           ++ intros k Hk. rewrite Hat. destruct (decide (k = i)) as [->|Nk]; [intros [_ K]; congruence|].
              intros [K3 K4]. apply Nk. apply (H5 k i); (done || congruence).
        -- rewrite (view_cached c' j m Hu); rewrite ?Hat, ?decide_False by done; (done || lia).
      * assert (Hno : forall j, (j < NBUF)%nat -> ~ (b_dev (buf_at c j) = 1 /\ b_blockno (buf_at c j) = m)).
        { intros j Hj K. assert (Hin : In j (seq 0 NBUF)) by (apply in_seq; lia).
          pose proof (List.find_none _ _ E j Hin) as K'. by rewrite (proj2 (hit_spec 1 m c j) K) in K'. }
        rewrite (view_uncached c m Hno), view_uncached; [by apply Hdk|].
        intros k Hk. rewrite Hat. destruct (decide (k = i)) as [->|Nk]; [intros [_ K]; congruence|by apply Hno].
Qed.

(** *** The cache as the log sees it *)

(** [bread], a copy of the data, [brelse]. *)
Definition cached_read (n : Z) : M (guarded bcache) block :=
  b ← bread me mypid disksize 1 n;
  c ← g_get;
  brelse me mypid b ;;
  mret (b_data (buf_at c b)).
(** [bread], a [memmove] into the data, [bwrite], [brelse]. *)
Definition cached_write (n : Z) (d : block) : M (guarded bcache) unit :=
  b ← bread me mypid disksize 1 n;
  g_mod (upd_buf b (set_data d)) ;;
  bwrite me mypid disksize b ;;
  brelse me mypid b.

Definition cache_sees (g : guarded bcache) (V D : Z -> block) : Prop :=
  g_quiet g /\ (exists l, cache_ok l (g_val g)) /\
  (forall n, view (g_val g) n = V n) /\ (forall n, bdisk (g_val g) n = D n).

Lemma cached_read_ok g V D n :
  cache_sees g V D -> 0 <= n < disksize ->
  exists g', cached_read n g = Ret (V n) g' /\ cache_sees g' V D.
Proof.
  intros (Hg & [l Hc] & HV & HD) Hn. destruct (bread_got g l n Hg Hc Hn) as (g1 & i & x & E1 & Hg1 & Hx & V1).
  destruct Hx as [G1 G2 G3 G4 G5 G6 G7 G8 G9 G10 G11]. pose proof (co_len _ _ Hc) as Hlen.
  assert (Hat : buf_at (g_val g1) i = x) by (rewrite V1, buf_at_upd_eq by lia; done).
  assert (Hi1 : (i < length (bufs (g_val g1)))%nat) by (rewrite V1, upd_buf_length; lia).
  destruct (brelse_run g1 i Hg1 Hi1) as (g2 & E2 & Hg2 & V2); [by rewrite Hat|by rewrite Hat|].
  exists g2. split.
  - unfold cached_read. rewrite (bind_eq _ _ _ _ _ E1), (bind_eq g_get _ g1 (g_val g1) g1 eq_refl).
    rewrite (bind_eq _ _ _ _ _ E2), Hat, G4, HV. done.
  - set (y := set_refcnt 0 (set_lock Sleeplock.initsleeplock x)).
    assert (V3 : g_val g2 = push_front i (unlink i (upd_buf i (fun _ => y) (g_val g))))
      by (rewrite V2, V1, upd_buf_twice; by rewrite (upd_buf_eq i _ (fun _ => y)) by (done || lia)).
    assert (Hdl : length (b_data y) = 512%nat).
    { cbn. destruct (is_dirty x) eqn:Ed; [|rewrite G10 by done; apply (co_disk _ _ Hc)].
      destruct G11 as [K1 K2]; [congruence|]. rewrite G4, (view_cached _ i n (co_uniq _ _ Hc)) by done.
      by apply (co_idle _ _ Hc). }
    destruct (cache_put l (g_val g) n i y (bdisk (g_val g)) Hc G1) as [P1 P2]; try done.
    { intros K. rewrite <- G9. exact K. }
    { apply (co_disk _ _ Hc). }
    split; [done|]. rewrite V3. split; [exact P1|]. split; [|intros m; apply HD].
    intros m. etransitivity; [apply P2|]. destruct (Z.eqb_spec m n) as [->|]; [|apply HV]. cbn. by rewrite G4, HV.
Qed.

Lemma bwrite_got g i :
  g_quiet g -> (i < length (bufs (g_val g)))%nat ->
  let x := buf_at (g_val g) i in
  b_lock x = held_lock -> b_dev x = 1 -> b_blockno x < disksize ->
  exists g' f, bwrite me mypid disksize i g = Ret tt g' /\ g_quiet g' /\
    Z.testbit f 2 = false /\ Z.testbit f 1 = true /\
    g_val g' = upd_buf i (set_flags f)
      (mk_bcache (bufs (g_val g)) (bnext (g_val g)) (bprev (g_val g)) (upd (b_blockno x) (b_data x) (bdisk (g_val g)))).
Proof.
  intros Hg Hi x Hl Hd Hb. unfold bwrite. destruct (holding_lock_run g i Hg Hl) as (g1 & E1 & Hg1 & V1).
  rewrite set_lock_same in V1 by done. rewrite (bind_eq _ _ _ _ _ E1). cbn [negb].
  set (g2 := mk_g (g_cpu g1) (g_lk g1) (upd_buf i (fun x => set_flags (Z.lor (b_flags x) B_DIRTY) x) (g_val g1)) (g_wakes g1)).
  rewrite (bind_eq (g_mod _) _ g1 tt g2 eq_refl).
  assert (Hat : buf_at (g_val g2) i = set_flags (Z.lor (b_flags x) B_DIRTY) x)
    by (unfold g2; cbn [g_val]; rewrite V1, buf_at_upd_eq by done; done).
  destruct (iderw_write_run g2 i) as (g3 & f & E3 & Hg3 & F1 & F2 & V3); rewrite ?Hat; try done.
  { unfold g2; cbn [g_val]. by rewrite V1, upd_buf_length. }
  { unfold is_dirty. cbn [b_flags set_flags]. rewrite Z.lor_spec. by rewrite orb_true_r. }
  rewrite Hat in V3. exists g3, f. rewrite E3. split_and!; try done. rewrite V3. unfold g2. cbn [g_val]. rewrite V1.
  pose proof (f_equal bufs (upd_buf_twice i (set_flags f) (fun x => set_flags (Z.lor (b_flags x) B_DIRTY) x) (g_val g))) as K.
  unfold upd_buf in *. cbn in *. by rewrite K.
Qed.

Lemma cached_write_ok g V D n d :
  cache_sees g V D -> 0 <= n < disksize -> length d = 512%nat ->
  exists g', cached_write n d g = Ret tt g' /\ cache_sees g' (upd n d V) (upd n d D).
Proof.
  intros (Hg & [l Hc] & HV & HD) Hn Hd. destruct (bread_got g l n Hg Hc Hn) as (g1 & i & x & E1 & Hg1 & Hx & V1).
  destruct Hx as [G1 G2 G3 G4 G5 G6 G7 G8 G9 G10 G11]. pose proof (co_len _ _ Hc) as Hlen.
  unfold cached_write. rewrite (bind_eq _ _ _ _ _ E1).
  set (g2 := mk_g (g_cpu g1) (g_lk g1) (upd_buf i (set_data d) (g_val g1)) (g_wakes g1)).
  rewrite (bind_eq (g_mod _) _ g1 tt g2 eq_refl).
  assert (V2 : g_val g2 = upd_buf i (fun _ => set_data d x) (g_val g))
    by (unfold g2; cbn [g_val]; by rewrite V1, upd_buf_twice).
  assert (Hat : buf_at (g_val g2) i = set_data d x) by (rewrite V2, buf_at_upd_eq by lia; done).
  assert (Hl2 : length (bufs (g_val g2)) = NBUF) by (by rewrite V2, upd_buf_length).
  destruct (bwrite_got g2 i) as (g3 & f & E3 & Hg3 & F1 & F2 & V3); rewrite ?Hat; cbn [b_lock b_dev b_blockno set_data];
    rewrite ?Hl2, ?G3; try done; try lia.
  rewrite (bind_eq _ _ _ _ _ E3). rewrite Hat in V3. cbn [b_blockno b_data set_data] in V3. rewrite G3 in V3.
  assert (Hat3 : buf_at (g_val g3) i = set_flags f (set_data d x)).
  { rewrite V3, buf_at_upd_eq by (cbn [bufs]; lia). by rewrite <- Hat. }
  destruct (brelse_run g3 i Hg3) as (g4 & E4 & Hg4 & V4); rewrite ?Hat3; try done.
  { rewrite V3, upd_buf_length. cbn [bufs]. lia. }
  exists g4. split; [done|].
  set (y := set_refcnt 0 (set_lock Sleeplock.initsleeplock (set_flags f (set_data d x)))).
  destruct (cache_put l (g_val g) n i y (upd n d (bdisk (g_val g))) Hc G1) as [P1 P2]; try done.
  { intros _. unfold upd. by rewrite Z.eqb_refl. }
  { unfold y, is_dirty. cbn [b_flags set_refcnt set_lock set_flags]. by rewrite F1. }
  { intros m Hm. unfold upd. by rewrite (proj2 (Z.eqb_neq m n) Hm). }
  { intros m. unfold upd. case_match; [done|]. apply (co_disk _ _ Hc). }
  assert (V5 : g_val g4 = push_front i (unlink i (mk_bcache (bufs (upd_buf i (fun _ => y) (g_val g)))
    (bnext (g_val g)) (bprev (g_val g)) (upd n d (bdisk (g_val g)))))).
  { rewrite V4, V3. do 2 f_equal. rewrite upd_buf_twice. unfold upd_buf at 1. cbn [bufs bnext bprev bdisk]. rewrite V2. cbn.
    f_equal. exact (f_equal bufs (upd_buf_twice i _ (fun _ => set_data d x) (g_val g))). }
  split; [done|]. rewrite V5. split; [exact P1|]. split.
  - intros m. etransitivity; [apply P2|]. unfold upd. destruct (m =? n); [done|apply HV].
  - intros m. cbn. unfold upd. destruct (m =? n); [done|apply HD].
Qed.
End Coherence.

#[export, refine] Instance cache_io (me : nat) (mypid disksize : Z) : BlockIO (guarded bcache) := {|
  io_size := disksize;
  io_sees := cache_sees;
  io_bread := cached_read me mypid disksize;
  io_bwrite := cached_write me mypid disksize;
  io_mark := fun n => g_mod (fun c =>
    match List.find (hit 1 n c) (seq 0 NBUF) with
    | Some i => upd_buf i (fun x => set_flags (Z.lor (b_flags x) B_DIRTY) x) c
    | None => c
    end) |}.
Proof.
  - intros. by apply cached_read_ok.
  - intros. by apply cached_write_ok.
Defined.

(** ** What the cache promises *)

(** The cache at boot: the buffers are zeroed memory. *)
Definition boot_cache (d : Z -> block) : guarded bcache :=
  mk_g (mk_cpu 0 false true) Spinlock.initlock (binit d (replicate NBUF buf_zero)) [].

Lemma binit_bufs d n :
  bufs (fold_left (fun c b => upd_buf b (set_lock Sleeplock.initsleeplock) (push_front b c)) (seq 0 n)
    (mk_bcache (replicate NBUF buf_zero) (nupd head head (fun _ => O)) (nupd head head (fun _ => O)) d)) =
  replicate NBUF buf_zero /\
  bdisk (fold_left (fun c b => upd_buf b (set_lock Sleeplock.initsleeplock) (push_front b c)) (seq 0 n)
    (mk_bcache (replicate NBUF buf_zero) (nupd head head (fun _ => O)) (nupd head head (fun _ => O)) d)) = d.
Proof.
  induction n as [|n [IH1 IH2]]; [done|]. rewrite seq_S, fold_left_app. cbn -[replicate]. rewrite IH1. split; [|exact IH2].
  apply list_eq. intros j. destruct (decide (j = n)) as [->|Hne]; [|by rewrite list_lookup_alter_ne].
  rewrite list_lookup_alter_eq. destruct (replicate NBUF buf_zero !! n) as [x|] eqn:E; [|done].
  by apply lookup_replicate in E as [-> _].
Qed.

Lemma boot_at d i : buf_at (g_val (boot_cache d)) i = buf_zero.
Proof.
  destruct (binit_bufs d NBUF) as [Hb _]. change (bufs (g_val (boot_cache d)) = replicate NBUF buf_zero) in Hb.
  unfold buf_at. rewrite Hb, nth_lookup. destruct (replicate NBUF buf_zero !! i) as [x|] eqn:E; [|done].
  by apply lookup_replicate in E as [-> _].
Qed.

Lemma boot_ok d : (forall n, length (d n) = 512%nat) -> cache_ok (rev (seq 0 NBUF)) (g_val (boot_cache d)).
Proof.
  intros Hd. destruct (binit_bufs d NBUF) as [Hb Hk].
  change (bufs (g_val (boot_cache d)) = replicate NBUF buf_zero) in Hb. change (bdisk (g_val (boot_cache d)) = d) in Hk.
  constructor; intros; rewrite ?boot_at in *; try done.
  - apply binit_dll.
  - symmetry. apply Permutation_rev.
  - exists O. split; [unfold NBUF; lia|by rewrite boot_at].
Qed.

Lemma boot_sees d : (forall n, length (d n) = 512%nat) -> cache_sees (boot_cache d) d d.
Proof.
  intros Hd. destruct (binit_bufs d NBUF) as [_ Hk]. change (bdisk (g_val (boot_cache d)) = d) in Hk.
  split; [by split|]. split; [eexists; by apply boot_ok|split].
  - intros n. rewrite view_uncached, Hk; [done|]. intros j _. rewrite boot_at. by intros [? _].
  - intros n. by rewrite Hk.
Qed.

(** A client's block operations, through the cache and on a plain array. *)
Inductive bop := Rd (n : Z) | Wr (n : Z) (d : block).
Definition bop_ok (disksize : Z) (o : bop) : Prop :=
  match o with
  | Rd n => 0 <= n < disksize
  | Wr n d => 0 <= n < disksize /\ length d = 512%nat
  end.

Fixpoint run_ops (me : nat) (mypid disksize : Z) (os : list bop) : M (guarded bcache) (list block) :=
  match os with
  | [] => mret []
  | Rd n :: os' => x ← cached_read me mypid disksize n; r ← run_ops me mypid disksize os'; mret (x :: r)
  | Wr n d :: os' => cached_write me mypid disksize n d ;; run_ops me mypid disksize os'
  end.
Fixpoint array_reads (os : list bop) (a : Z -> block) : list block :=
  match os with
  | [] => []
  | Rd n :: os' => a n :: array_reads os' a
  | Wr n d :: os' => array_reads os' (upd n d a)
  end.
Fixpoint array_after (os : list bop) (a : Z -> block) : Z -> block :=
  match os with
  | [] => a
  | Rd _ :: os' => array_after os' a
  | Wr n d :: os' => array_after os' (upd n d a)
  end.

Lemma run_ops_sees me mypid disksize os g V D :
  cache_sees g V D -> Forall (bop_ok disksize) os ->
  exists g', run_ops me mypid disksize os g = Ret (array_reads os V) g' /\
    cache_sees g' (array_after os V) (array_after os D).
Proof.
  revert g V D; induction os as [|[n|n d] os IH]; intros g V D Hs Hos; cbn [run_ops array_reads array_after];
    [by exists g| |]; apply Forall_cons in Hos as [Ho Hos].
  - destruct (cached_read_ok me mypid disksize g V D n Hs Ho) as (g1 & E1 & Hs1). rewrite (bind_eq _ _ _ _ _ E1).
    destruct (IH g1 V D Hs1 Hos) as (g2 & E2 & Hs2). rewrite (bind_eq _ _ _ _ _ E2). by exists g2.
  - destruct Ho as [Hn Hd]. destruct (cached_write_ok me mypid disksize g V D n d Hs Hn Hd) as (g1 & E1 & Hs1).
    rewrite (bind_eq _ _ _ _ _ E1). by apply IH.
Qed.

(** C4: The buffer cache refines an array of blocks.  From boot, any sequence of
    [bread]/[brelse] and [bread]/[bwrite]/[brelse] of blocks on the disk returns
    (no panic, no lost buffer); every read gives what was last written to the
    block, and afterwards the disk itself holds every write. *)
Theorem bcache_refines_array (me : nat) (mypid disksize : Z) (d : Z -> block) (os : list bop) :
  (forall n, length (d n) = 512%nat) -> Forall (bop_ok disksize) os ->
  exists g', run_ops me mypid disksize os (boot_cache d) = Ret (array_reads os d) g' /\
    forall n, bdisk (g_val g') n = array_after os d n.
Proof.
  intros Hd Hos. destruct (run_ops_sees me mypid disksize os _ d d (boot_sees d Hd) Hos) as (g' & E & _ & _ & _ & HD).
  by exists g'.
Qed.

Lemma bcache_refines_array_witness :
  exists g', run_ops 0 1 1000 [Wr 7 (replicate 512 5); Rd 7; Rd 8] (boot_cache (fun _ => replicate 512 0)) =
    Ret [replicate 512 5; replicate 512 0] g' /\ bdisk (g_val g') 7 = replicate 512 5.
Proof.
  destruct (bcache_refines_array 0 1 1000 (fun _ => replicate 512 0) [Wr 7 (replicate 512 5); Rd 7; Rd 8])
    as (g' & E & H); [intros; apply length_replicate|repeat constructor; lia|].
  exists g'. rewrite H. split; [exact E|done].
Defined.

(** Releasing the last reference to a buffer makes it the most recently used:
    [brelse] puts it at the front of the list, the other buffers keep their order,
    and the list stays properly linked in both directions. *)
Theorem brelse_moves_to_front (me : nat) (mypid : Z) (g : guarded bcache) (l : list nat) (i : nat) :
  g_quiet g -> dll l (g_val g) -> i ∈ l -> (i < length (bufs (g_val g)))%nat ->
  b_lock (buf_at (g_val g) i) = held_lock mypid -> b_refcnt (buf_at (g_val g) i) = 1 ->
  exists g' l1 l2, brelse me mypid i g = Ret tt g' /\ l = l1 ++ i :: l2 /\ dll (i :: l1 ++ l2) (g_val g') /\
    b_refcnt (buf_at (g_val g') i) = 0 /\ b_lock (buf_at (g_val g') i) = Sleeplock.initsleeplock.
Proof.
  intros Hg Hd Hi Hlt Hl Hr. destruct (brelse_run me mypid g i Hg Hlt Hl Hr) as (g' & E & _ & HV).
  set (c1 := upd_buf i _ (g_val g)) in HV. assert (Hd1 : dll l c1) by (by apply (dll_same (g_val g))).
  destruct (move_to_front _ _ _ Hd1 Hi) as (l1 & l2 & El & Hdll). exists g', l1, l2. rewrite HV.
  change (buf_at (push_front i (unlink i c1)) i) with (buf_at c1 i). unfold c1. rewrite buf_at_upd_eq by done.
  by split_and!.
Qed.

(** Buffer 3 has been read by process 1 and not yet released. *)
Definition demo_cache : guarded bcache :=
  mk_g (mk_cpu 0 false true) Spinlock.initlock
    (upd_buf 3 (fun x => set_refcnt 1 (set_lock (held_lock 1) x)) (g_val (boot_cache (fun _ => replicate 512 0)))) [].

Lemma brelse_moves_to_front_witness :
  exists g' l1 l2, brelse 0 1 3 demo_cache = Ret tt g' /\ rev (seq 0 NBUF) = l1 ++ 3%nat :: l2 /\
    dll (3%nat :: l1 ++ l2) (g_val g').
Proof.
  destruct (brelse_moves_to_front 0 1 demo_cache (rev (seq 0 NBUF)) 3) as (g' & l1 & l2 & E & El & Hd & _).
  - by split.
  - unfold demo_cache, boot_cache. cbn [g_val]. apply dll_upd_buf, binit_dll.
  - apply list_elem_of_In, in_rev. rewrite rev_involutive. apply in_seq. unfold NBUF. lia.
  - apply Nat.ltb_lt. vm_compute. reflexivity.
  - vm_compute. reflexivity.
  - vm_compute. reflexivity.
  - by exists g', l1, l2.
Defined.

(** A block that is not cached gets the least recently used buffer that is free:
    [bread] takes the first one from the back of the list that is neither in use
    nor dirty (a dirty one holds a logged block not yet installed), fills it from
    the disk and returns it locked, referenced once and valid. *)
Theorem bread_recycles_lru (me : nat) (mypid disksize : Z) (g : guarded bcache) (l : list nat) (n : Z) :
  g_quiet g -> cache_ok l (g_val g) -> 0 <= n < disksize -> List.find (hit 1 n (g_val g)) l = None ->
  exists g' i, bread me mypid disksize 1 n g = Ret i g' /\ List.find (free (g_val g)) (rev l) = Some i /\
    (forall j, j <> i -> buf_at (g_val g') j = buf_at (g_val g) j) /\
    let x := buf_at (g_val g') i in
    b_dev x = 1 /\ b_blockno x = n /\ b_data x = bdisk (g_val g) n /\ b_refcnt x = 1 /\
    b_lock x = held_lock mypid /\ is_valid x = true /\ is_dirty x = false.
Proof.
  intros Hg Hc Hn Hf. destruct (bread_miss me mypid disksize g l n Hg Hc Hn Hf) as (g' & i & x & E & _ & Hx & HV & Hfr).
  destruct Hx as [G1 G2 G3 G4 G5 G6 G7 G8 G9 G10 G11]. pose proof (co_len _ _ Hc) as Hlen.
  exists g', i. split; [done|]. split; [done|]. rewrite HV. split.
  - intros j Hj. rewrite buf_at_upd by lia. by rewrite decide_False.
  - rewrite buf_at_upd_eq by lia. cbv zeta. apply List.find_some in Hfr as [_ [_ Hd]%andb_true_iff].
    rewrite land_dirty in Hd. assert (Hdx : is_dirty x = false) by (rewrite G9; unfold is_dirty; by destruct (Z.testbit _ 2)).
    split_and!; try done. by apply G10.
Qed.

Lemma bread_recycles_lru_witness :
  exists g' i, bread 0 1 1000 1 7 (boot_cache (fun _ => replicate 512 0)) = Ret i g' /\
    b_blockno (buf_at (g_val g') i) = 7.
Proof.
  destruct (boot_sees (fun _ => replicate 512 0)) as (Hg & _ & _ & _); [intros; apply length_replicate|].
  destruct (bread_recycles_lru 0 1 1000 (boot_cache (fun _ => replicate 512 0)) (rev (seq 0 NBUF)) 7)
    as (g' & i & E & _ & _ & _ & Hb & _); [done|apply boot_ok; intros; apply length_replicate|lia|vm_compute; reflexivity|].
  exists g', i. split; [exact E|exact Hb].
Defined.
