(* ===== verification/Ide.v ===== *)
(** The IDE disk driver ([ide.c]).

    The drive is an interface: [Drive] has the port instructions of [x86.h] as they act
    on it, [DriveOk] what the driver relies on of a drive that works.  Requests wait in
    a queue linked through [qnext]; the first one is being served.  The main theorem
    says that, for any order of requests and interrupts, driver and drive together are
    an array of blocks and a first-in first-out queue of requests ([spec]). *)

From S2P Require Import Prelude Locks Guarded Bytes Log Bio.

Definition SECTOR_SIZE : Z := 512.
Definition IDE_BSY : Z := 128.
Definition IDE_DRDY : Z := 64.
Definition IDE_DF : Z := 32.
Definition IDE_ERR : Z := 1.
Definition IDE_CMD_READ : Z := 32.
Definition IDE_CMD_WRITE : Z := 48.
Definition IDE_CMD_RDMUL : Z := 196.
Definition IDE_CMD_WRMUL : Z := 197.
Definition IDE_FSSIZE : Z := 1000.

(** [inb], [outb], and [insl] and [outsl] of the bytes of [cnt] words. *)
Class Drive (DV : Type) := {
  dv_inb : Z -> DV -> Z * DV;
  dv_outb : Z -> Z -> DV -> DV;
  dv_insl : Z -> nat -> DV -> list Z * DV;
  dv_outsl : Z -> list Z -> DV -> DV }.

(** [id_queue] is [idequeue], [id_disk1] is [havedisk1]; [None] is the null pointer. *)
Record ide (DV : Type) := mk_ide {
  id_bufs : list buf;
  id_qnext : nat -> option nat;
  id_queue : option nat;
  id_disk1 : bool;
  id_dv : DV }.
Arguments mk_ide {DV} _ _ _ _ _.
Arguments id_bufs {DV} _.
Arguments id_qnext {DV} _ _.
Arguments id_queue {DV} _.
Arguments id_disk1 {DV} _.
Arguments id_dv {DV} _.

Section Ide.
Context {DV : Type} `{Drive DV}.
(** [me] is the CPU, [mypid] the process; the drive is ready after at most [patience]
    reads of its status. *)
Context (me : nat) (mypid : Z) (patience : nat).
Notation D := (M (guarded (ide DV))).

Definition set_dv (d : DV) (s : ide DV) : ide DV := mk_ide (id_bufs s) (id_qnext s) (id_queue s) (id_disk1 s) d.
Definition set_queue (q : option nat) (s : ide DV) : ide DV := mk_ide (id_bufs s) (id_qnext s) q (id_disk1 s) (id_dv s).
Definition set_qnext (b : nat) (q : option nat) (s : ide DV) : ide DV :=
  mk_ide (id_bufs s) (fun i => if decide (i = b) then q else id_qnext s i) (id_queue s) (id_disk1 s) (id_dv s).
Definition set_disk1 (s : ide DV) : ide DV := mk_ide (id_bufs s) (id_qnext s) (id_queue s) true (id_dv s).
Definition ide_upd (b : nat) (f : buf -> buf) (s : ide DV) : ide DV :=
  mk_ide (alter f b (id_bufs s)) (id_qnext s) (id_queue s) (id_disk1 s) (id_dv s).
Definition ide_buf (s : ide DV) (b : nat) : buf := nth b (id_bufs s) buf_zero.

Definition inb (port : Z) : D Z :=
  s ← g_get;
  g_mod (set_dv (snd (dv_inb port (id_dv s)))) ;;
  mret (fst (dv_inb port (id_dv s))).
Definition outb (port v : Z) : D unit := g_mod (fun s => set_dv (dv_outb port (u8 v) (id_dv s)) s).

Fixpoint idewait_loop (fuel : nat) (checkerr : bool) : D Z :=
  match fuel with
  | O => faults OutOfFuel
  | S f =>
      r ← inb 0x1f7;
      if negb (Z.land r (Z.lor IDE_BSY IDE_DRDY) =? IDE_DRDY) then idewait_loop f checkerr
      else if checkerr && ctrue (Z.land r (Z.lor IDE_DF IDE_ERR)) then mret (-1)
      else mret 0
  end.
Definition idewait (checkerr : bool) : D Z := idewait_loop patience checkerr.

Fixpoint probe (n : nat) : D unit :=
  match n with
  | O => mret tt
  | S n' => r ← inb 0x1f7; if ctrue r then g_mod set_disk1 else probe n'
  end.
(** [ioapicenable] sends the interrupt to a CPU; it does not touch the driver's state. *)
Definition ideinit : D unit :=
  modify (fun g => mk_g (g_cpu g) Spinlock.initlock (g_val g) (g_wakes g)) ;;
  idewait false ;;
  outb 0x1f6 (Z.lor 0xe0 (Z.shiftl 1 4)) ;;
  probe 1000 ;;
  outb 0x1f6 (Z.lor 0xe0 (Z.shiftl 0 4)).

Definition idestart (b : option nat) : D unit :=
  match b with
  | None => panic "idestart"
  | Some b =>
      s ← g_get;
      let x := ide_buf s b in
      if b_blockno x >=? IDE_FSSIZE then panic "incorrect blockno"
      else
        let sector_per_block := BSIZE / SECTOR_SIZE in
        let sector := i32 (u32 (b_blockno x * sector_per_block)) in
        let read_cmd := if sector_per_block =? 1 then IDE_CMD_READ else IDE_CMD_RDMUL in
        let write_cmd := if sector_per_block =? 1 then IDE_CMD_WRITE else IDE_CMD_WRMUL in
        if sector_per_block >? 7 then panic "idestart"
        else
          idewait false ;;
          outb 0x3f6 0 ;;
          outb 0x1f2 sector_per_block ;;
          outb 0x1f3 (Z.land sector 0xff) ;;
          outb 0x1f4 (Z.land (Z.shiftr sector 8) 0xff) ;;
          outb 0x1f5 (Z.land (Z.shiftr sector 16) 0xff) ;;
          outb 0x1f6 (Z.lor (Z.lor 0xe0 (Z.shiftl (Z.land (b_dev x) 1) 4)) (Z.land (Z.shiftr sector 24) 0x0f)) ;;
          if ctrue (Z.land (b_flags x) B_DIRTY) then
            outb 0x1f7 write_cmd ;;
            g_mod (fun s => set_dv (dv_outsl 0x1f0 (b_data x) (id_dv s)) s)
          else outb 0x1f7 read_cmd
  end.

Definition ideintr : D unit :=
  g_acquire me ;;
  s ← g_get;
  match id_queue s with
  | None => g_release me
  | Some b =>
      g_mod (set_queue (id_qnext s b)) ;;
      r ← (if Z.land (b_flags (ide_buf s b)) B_DIRTY =? 0 then idewait true else mret (-1));
      when (r >=? 0)
        (g_mod (fun s => ide_upd b (set_data (fst (dv_insl 0x1f0 (Z.to_nat (BSIZE / 4)) (id_dv s))))
                           (set_dv (snd (dv_insl 0x1f0 (Z.to_nat (BSIZE / 4)) (id_dv s))) s))) ;;
      g_mod (ide_upd b (fun x => set_flags (Z.lor (b_flags x) B_VALID) x)) ;;
      g_mod (ide_upd b (fun x => set_flags (Z.land (b_flags x) (Z.lnot B_DIRTY)) x)) ;;
      g_wakeup (CBuf b) ;;
      s ← g_get;
      match id_queue s with
      | None => mret tt
      | Some b' => idestart (Some b')
      end ;;
      g_release me
  end.

(** The walk to the end of the queue: [pp] is the address of [idequeue], [None], or of
    the [qnext] of a buffer. *)
Definition deref (s : ide DV) (pp : option nat) : option nat :=
  match pp with None => id_queue s | Some i => id_qnext s i end.
Fixpoint queue_end (fuel : nat) (s : ide DV) (pp : option nat) : D (option nat) :=
  match fuel with
  | O => faults OutOfFuel
  | S f => match deref s pp with None => mret pp | Some j => queue_end f s (Some j) end
  end.
Definition assign (pp : option nat) (q : option nat) : ide DV -> ide DV :=
  match pp with None => set_queue q | Some i => set_qnext i q end.

(** The [while]; after [sleep] it starts over. *)
Definition iderw_wait (b : nat) : D unit :=
  s ← g_get;
  if negb (Z.land (b_flags (ide_buf s b)) (Z.lor B_VALID B_DIRTY) =? B_VALID) then g_sleep me (CBuf b) 0
  else g_release me.
(** Resumed after [sleep]. *)
Definition iderw_resume (b : nat) : D unit := g_acquire me ;; iderw_wait b.

Definition on_buf_lock {A} (i : nat) (f : M slctx A) : D A :=
  zoom (fun g => mk_slctx (g_cpu g) (b_lock (ide_buf (g_val g) i)) (g_wakes g))
    (fun x g => mk_g (sl_cpu x) (g_lk g) (ide_upd i (set_lock (sl x)) (g_val g)) (sl_wakeups x)) f.
(** A queue without a cycle is no longer than the list of buffers. *)
Definition iderw (b : nat) : D unit :=
  h ← on_buf_lock b (Sleeplock.holdingsleep me mypid);
  if negb h then panic "iderw: buf not locked"
  else
    s ← g_get;
    let x := ide_buf s b in
    if Z.land (b_flags x) (Z.lor B_VALID B_DIRTY) =? B_VALID then panic "iderw: nothing to do"
    else if negb (b_dev x =? 0) && negb (id_disk1 s) then panic "iderw: ide disk 1 not present"
    else
      g_acquire me ;;
      g_mod (set_qnext b None) ;;
      s ← g_get;
      pp ← queue_end (S (length (id_bufs s))) s None;
      g_mod (assign pp (Some b)) ;;
      s ← g_get;
      when (bool_decide (id_queue s = Some b)) (idestart (Some b)) ;;
      iderw_wait b.
End Ide.

(** ** A drive that works *)

(** The registers of a command: number of sectors, the address in [a], [b], [c] and the
    low bits of [e], which also selects the drive. *)
Definition lba (a b c e : Z) : Z := a + 256 * b + 65536 * c + 16777216 * (Z.land e 15).
Definition drive_bit (e : Z) : Z := Z.land (Z.shiftr e 4) 1.
Definition upd_sector {A} (r l : Z) (x : A) (f : Z -> Z -> A) : Z -> Z -> A := fun r' l' => if (r' =? r) && (l' =? l) then x else f r' l'.

Section Commands.
Context {DV : Type} `{Drive DV}.
Definition commanded (n a b c e cmd : Z) (d : DV) : DV :=
  dv_outb 0x1f7 cmd (dv_outb 0x1f6 e (dv_outb 0x1f5 c (dv_outb 0x1f4 b (dv_outb 0x1f3 a (dv_outb 0x1f2 n d))))).
(** After [n] reads of the status. *)
Fixpoint polled (n : nat) (d : DV) : DV := match n with O => d | S n' => polled n' (snd (dv_inb 0x1f7 d)) end.
Definition status (d : DV) : Z := fst (dv_inb 0x1f7 d).
End Commands.
Definition ready (r : Z) : bool := Z.land r (Z.lor IDE_BSY IDE_DRDY) =? IDE_DRDY.
Definition no_error (r : Z) : bool := Z.land r (Z.lor IDE_DF IDE_ERR) =? 0.

(** [dv_sectors] are the contents; [dv_serving d r l]: a read of sector [l] of drive [r]
    has been asked for and its data can be fetched. *)
Class DriveOk (DV : Type) `{Drive DV} := {
  dv_sectors : DV -> Z -> Z -> block;
  dv_serving : DV -> Z -> Z -> Prop;
  dv_patience : nat;
  ok_poll : forall d, (forall r l, dv_sectors (snd (dv_inb 0x1f7 d)) r l = dv_sectors d r l) /\
    (forall r l, dv_serving d r l -> dv_serving (snd (dv_inb 0x1f7 d)) r l);
  ok_ready : forall d, exists n, (n < dv_patience)%nat /\ (forall k, (k < n)%nat -> ready (status (polled k d)) = false) /\
    ready (status (polled n d)) = true /\ no_error (status (polled n d)) = true;
  ok_control : forall d r l, dv_sectors (dv_outb 0x3f6 0 d) r l = dv_sectors d r l;
  ok_read : forall d a b c e, let d' := commanded 1 a b c e IDE_CMD_READ d in
    (forall r l, dv_sectors d' r l = dv_sectors d r l) /\ dv_serving d' (drive_bit e) (lba a b c e);
  ok_fetch : forall d r l, dv_serving d r l -> fst (dv_insl 0x1f0 128 d) = dv_sectors d r l /\
    (forall r' l', dv_sectors (snd (dv_insl 0x1f0 128 d)) r' l' = dv_sectors d r' l');
  ok_write : forall d a b c e data, length data = 512%nat ->
    forall r l, dv_sectors (dv_outsl 0x1f0 data (commanded 1 a b c e IDE_CMD_WRITE d)) r l =
      upd_sector (drive_bit e) (lba a b c e) data (dv_sectors d) r l }.

(** ** The specification *)

Record spec := mk_spec {
  sp_disk : Z -> Z -> block;
  sp_bufs : list buf;
  sp_queue : list nat }.
Inductive ievent := Request (pid : Z) (b : nat) | Interrupt.

Definition dirty (x : buf) : bool := ctrue (Z.land (b_flags x) B_DIRTY).
Definition drv (x : buf) : Z := Z.land (b_dev x) 1.
(** The request of a buffer carried out. *)
Definition served (x : buf) : buf := set_flags (Z.land (Z.lor (b_flags x) B_VALID) (Z.lnot B_DIRTY)) x.
Definition sync_disk (x : buf) (A : Z -> Z -> block) : Z -> Z -> block :=
  if dirty x then upd_sector (drv x) (b_blockno x) (b_data x) A else A.
Definition sync_buf (x : buf) (A : Z -> Z -> block) : buf :=
  served (if dirty x then x else set_data (A (drv x) (b_blockno x)) x).
Definition buf_of (l : list buf) (b : nat) : buf := nth b l buf_zero.
Definition spec_step (e : ievent) (p : spec) : spec :=
  match e with
  | Request _ b => mk_spec (sp_disk p) (sp_bufs p) (sp_queue p ++ [b])
  | Interrupt =>
      match sp_queue p with
      | [] => p
      | b :: q => let x := buf_of (sp_bufs p) b in mk_spec (sync_disk x (sp_disk p)) (<[b := sync_buf x (sp_disk p)]> (sp_bufs p)) q
      end
  end.

(** A buffer that [bread] or [bwrite] may ask for: locked by the caller, of a drive that
    is there. *)
Record asks (disk1 : bool) (pid : Z) (x : buf) : Prop := mk_asks {
  as_lock : b_lock x = mk_sleeplock 1 Spinlock.initlock pid;
  as_todo : Z.land (b_flags x) (Z.lor B_VALID B_DIRTY) <> B_VALID;
  as_drive : b_dev x = 0 \/ disk1 = true;
  as_block : 0 <= b_blockno x < IDE_FSSIZE;
  as_data : length (b_data x) = 512%nat }.
Definition legal (disk1 : bool) (e : ievent) (p : spec) : Prop :=
  match e with
  | Request pid b => b ∉ sp_queue p /\ (b < length (sp_bufs p))%nat /\ asks disk1 pid (buf_of (sp_bufs p) b)
  | Interrupt => True
  end.
Fixpoint legal_run (disk1 : bool) (es : list ievent) (p : spec) : Prop :=
  match es with
  | [] => True
  | e :: es' => legal disk1 e p /\ legal_run disk1 es' (spec_step e p)
  end.
Definition spec_run (es : list ievent) (p : spec) : spec := fold_left (fun p e => spec_step e p) es p.

(** ** The driver meets it *)

(** [plain m v a v']: [m] works on the data alone. *)
Definition plain {A B} (m : M (guarded A) B) (v : A) (b : B) (v' : A) : Prop :=
  forall g, g_val g = v -> m g = Ret b (mk_g (g_cpu g) (g_lk g) v' (g_wakes g)).
Lemma plain_ret {A B} (b : B) (v : A) : plain (mret b) v b v.
Proof. intros [c l x w] <-. done. Qed.
Lemma plain_get {A} (v : A) : plain g_get v v v.
Proof. intros [c l x w] <-. done. Qed.
Lemma plain_mod {A} f (v : A) : plain (g_mod f) v tt (f v).
Proof. intros [c l x w] <-. done. Qed.
Lemma plain_bind {A B C} (m : M (guarded A) B) (f : B -> M (guarded A) C) v b v1 c v2 :
  plain m v b v1 -> plain (f b) v1 c v2 -> plain (m ≫= f) v c v2.
Proof. intros Hm Hf g Hg. rewrite (bind_eq _ _ _ _ _ (Hm g Hg)). by rewrite Hf. Qed.
Ltac psteps := repeat (first [eapply plain_bind; [first [apply plain_get | apply plain_mod | apply plain_ret]|] | apply plain_ret | apply plain_mod]; cbv beta).

Section Serve.
Context {DV : Type} `{HO : DriveOk DV}.
Notation patience := dv_patience.
Implicit Type s : ide DV.

Lemma inb_plain port s : plain (inb port) s (fst (dv_inb port (id_dv s))) (set_dv (snd (dv_inb port (id_dv s))) s).
Proof. unfold inb. psteps. Qed.
Lemma outb_plain port v s : plain (outb port v) s tt (set_dv (dv_outb port (u8 v) (id_dv s)) s).
Proof. intros [c l x w] <-. done. Qed.
Lemma polled_ok n : forall d, (forall r l, dv_sectors (polled n d) r l = dv_sectors d r l) /\ (forall r l, dv_serving d r l -> dv_serving (polled n d) r l).
Proof.
  induction n as [|n IH]; intros d; [done|]. cbn [polled]. destruct (IH (snd (dv_inb 0x1f7 d))) as [I1 I2], (ok_poll d) as [O1 O2].
  split; [intros r l; by rewrite I1|auto].
Qed.
Lemma idewait_loop_plain n : forall fuel ck s, (n < fuel)%nat -> (forall k, (k < n)%nat -> ready (status (polled k (id_dv s))) = false) ->
  ready (status (polled n (id_dv s))) = true -> no_error (status (polled n (id_dv s))) = true ->
  plain (idewait_loop fuel ck) s 0 (set_dv (polled (S n) (id_dv s)) s).
Proof.
  induction n as [|n IH]; intros [|f] ck s Hf Hbusy Hr He; try lia; cbn [idewait_loop]; (eapply plain_bind; [apply inb_plain|]); cbv beta.
  - cbn [polled] in Hr, He. unfold status, ready, no_error in *. rewrite Hr. cbn [negb]. unfold ctrue. rewrite He. cbn [negb]. rewrite andb_false_r. apply plain_ret.
  - pose proof (Hbusy 0%nat ltac:(lia)) as Hb0. cbn [polled] in Hb0. unfold status, ready in Hb0. rewrite Hb0. cbn [negb].
    eapply (IH f ck (set_dv (snd (dv_inb 0x1f7 (id_dv s))) s)); [lia| |exact Hr|exact He]. intros k Hk. exact (Hbusy (S k) ltac:(lia)).
Qed.
Lemma idewait_plain ck s : exists d, plain (idewait patience ck) s 0 (set_dv d s) /\ (forall r l, dv_sectors d r l = dv_sectors (id_dv s) r l) /\
  (forall r l, dv_serving (id_dv s) r l -> dv_serving d r l).
Proof.
  destruct (ok_ready (id_dv s)) as (n & Hn & Hb & Hr & He). exists (polled (S n) (id_dv s)). split; [by apply idewait_loop_plain|]. apply polled_ok.
Qed.

(** The registers hold the block number and the drive. *)
Lemma registers sec dev : 0 <= sec < IDE_FSSIZE ->
  let e := u8 (Z.lor (Z.lor 0xe0 (Z.shiftl (Z.land dev 1) 4)) (Z.land (Z.shiftr sec 24) 0x0f)) in
  lba (u8 (Z.land sec 0xff)) (u8 (Z.land (Z.shiftr sec 8) 0xff)) (u8 (Z.land (Z.shiftr sec 16) 0xff)) e = sec /\ drive_bit e = Z.land dev 1.
Proof.
  intros Hs e. unfold IDE_FSSIZE in Hs. assert (Ed : Z.land dev 1 = 0 \/ Z.land dev 1 = 1).
  { pose proof (Z.land_ones dev 1 ltac:(lia)) as E. change (Z.ones 1) with 1 in E. rewrite E. change (2 ^ 1) with 2. pose proof (Z.mod_pos_bound dev 2 ltac:(lia)). lia. }
  assert (E24 : Z.shiftr sec 24 = 0) by (rewrite Z.shiftr_div_pow2 by lia; apply Z.div_small; lia).
  assert (E16 : Z.shiftr sec 16 = 0) by (rewrite Z.shiftr_div_pow2 by lia; apply Z.div_small; lia).
  unfold e. rewrite E24, E16. split; [|destruct Ed as [-> | ->]; done]. unfold lba. change (u8 (Z.land 0 255)) with 0.
  assert (Ee : Z.land (u8 (Z.lor (Z.lor 224 (Z.shiftl (Z.land dev 1) 4)) (Z.land 0 15))) 15 = 0) by (destruct Ed as [-> | ->]; done). rewrite Ee.
  change 0xff with (Z.ones 8). rewrite !Z.land_ones by lia. unfold u8. rewrite !Z.mod_mod by lia. rewrite Z.shiftr_div_pow2 by lia. change (2 ^ 8) with 256.
  rewrite (Z.mod_small (sec / 256)) by (split; [apply Z.div_pos; lia|apply Z.div_lt_upper_bound; lia]). pose proof (Z.div_mod sec 256). lia.
Qed.
(** The drive [d] as the first request [x] wants it, for the contents [A]. *)
Definition working (x : buf) (A : Z -> Z -> block) (d : DV) : Prop :=
  (forall r l, dv_sectors d r l = sync_disk x A r l) /\ (dirty x = false -> dv_serving d (drv x) (b_blockno x)).
Lemma idestart_plain s b (A : Z -> Z -> block) :
  let x := ide_buf s b in 0 <= b_blockno x < IDE_FSSIZE -> length (b_data x) = 512%nat -> (forall r l, dv_sectors (id_dv s) r l = A r l) ->
  exists d, plain (idestart patience (Some b)) s tt (set_dv d s) /\ working x A d.
Proof.
  intros x Hb Hl HA. destruct (registers (b_blockno x) (b_dev x) Hb) as [Elba Edrv]. destruct (idewait_plain false s) as (dw & P0 & Sw & _).
  set (d0 := dv_outb 0x3f6 0 dw). assert (S0 : forall r l, dv_sectors d0 r l = dv_sectors (id_dv s) r l) by (intros r l; unfold d0; by rewrite ok_control, Sw).
  set (a1 := u8 (Z.land (b_blockno x) 0xff)) in *. set (a2 := u8 (Z.land (Z.shiftr (b_blockno x) 8) 0xff)) in *. set (a3 := u8 (Z.land (Z.shiftr (b_blockno x) 16) 0xff)) in *.
  set (a4 := u8 (Z.lor _ _)) in *.
  set (d1 := commanded 1 a1 a2 a3 a4 (if dirty x then IDE_CMD_WRITE else IDE_CMD_READ) d0).
  exists (if dirty x then dv_outsl 0x1f0 (b_data x) d1 else d1). split.
  - unfold idestart. eapply plain_bind; [apply plain_get|]. cbv beta. fold x. replace (b_blockno x >=? IDE_FSSIZE) with false by lia.
    change (BSIZE / SECTOR_SIZE) with 1. cbv zeta. change (1 =? 1) with true. change (1 >? 7) with false. cbv iota.
    rewrite Z.mul_1_r, u32_small, i32_small by (unfold IDE_FSSIZE in Hb; unfold_int; lia).
    eapply plain_bind; [exact P0|]. do 6 (eapply plain_bind; [apply outb_plain|]; cbv beta). unfold d1. fold (dirty x). destruct (dirty x).
    + eapply plain_bind; [apply outb_plain|]. cbv beta. intros g Hg. unfold g_mod, modify. by rewrite Hg.
    + intros g Hg. unfold outb, g_mod, modify. by rewrite Hg.
  - unfold working, sync_disk. fold (drv x) in Edrv. destruct (dirty x); unfold d1.
    + split; [|done]. intros r l. rewrite ok_write by done. rewrite Elba, Edrv. unfold upd_sector. destruct (_ && _); [done|]. by rewrite S0.
    + destruct (ok_read d0 a1 a2 a3 a4) as [R1 R2]. rewrite Elba, Edrv in R2. split; [|done]. intros r l. by rewrite R1, S0.
Qed.

(** *** The queue *)

Fixpoint chain (next : nat -> option nat) (p : option nat) (q : list nat) : Prop :=
  match q with
  | [] => p = None
  | b :: q' => p = Some b /\ chain next (next b) q'
  end.
Lemma qchain_ext next next' p q : (forall i, i ∈ q -> next' i = next i) -> chain next p q -> chain next' p q.
Proof.
  revert p; induction q as [|b q IH]; intros p He; cbn [chain]; [done|]. intros [-> Hc]. split; [done|]. rewrite He by left.
  apply IH; [intros i Hi; apply He; by right|done].
Qed.
Lemma chain_snoc next p q j b : chain next p (q ++ [j]) -> NoDup (q ++ [j]) -> b ∉ q ++ [j] -> next b = None ->
  chain (fun i => if decide (i = j) then Some b else next i) p (q ++ [j; b]).
Proof.
  revert p; induction q as [|i q IH]; intros p; cbn [app chain].
  - intros [-> _] _ Hb Hn. split; [done|]. rewrite decide_True by done. split; [done|]. rewrite decide_False; [done|]. intros ->. apply Hb. by left.
  - intros [-> Hc] [Hi Hnd]%NoDup_cons Hb Hn. split; [done|]. rewrite decide_False by (intros ->; apply Hi; set_solver). apply IH; [done|done|set_solver|done].
Qed.
Lemma queue_end_plain s q : forall fuel pp, chain (id_qnext s) (deref s pp) q -> (length q < fuel)%nat ->
  plain (queue_end fuel s pp) s (match last q with Some j => Some j | None => pp end) s.
Proof.
  induction q as [|b q IH]; intros [|f] pp Hc Hf; try (cbn in Hf; lia); cbn [queue_end chain] in *.
  - rewrite Hc. apply plain_ret.
  - destruct Hc as [-> Hc]. pose proof (IH f (Some b) Hc ltac:(cbn in Hf; lia)) as P. rewrite last_cons. by destruct (last q).
Qed.
Lemma nodup_bound (q : list nat) n : NoDup q -> (forall b, b ∈ q -> (b < n)%nat) -> (length q <= n)%nat.
Proof.
  intros Hn Hb. rewrite <- (length_seq n 0). apply submseteq_length, NoDup_submseteq; [done|]. intros b Hb'. apply elem_of_seq. specialize (Hb b Hb'). lia.
Qed.

Definition todo (x : buf) : Prop :=
  Z.land (b_flags x) (Z.lor B_VALID B_DIRTY) <> B_VALID /\ 0 <= b_blockno x < IDE_FSSIZE /\ length (b_data x) = 512%nat.
Record refines (disk1 : bool) (g : guarded (ide DV)) (p : spec) : Prop := mk_refines {
  rf_quiet : g_quiet g;
  rf_disk1 : id_disk1 (g_val g) = disk1;
  rf_bufs : id_bufs (g_val g) = sp_bufs p;
  rf_chain : chain (id_qnext (g_val g)) (id_queue (g_val g)) (sp_queue p);
  rf_nodup : NoDup (sp_queue p);
  rf_reqs : forall b, b ∈ sp_queue p -> (b < length (sp_bufs p))%nat /\ todo (buf_of (sp_bufs p) b);
  rf_drive : match sp_queue p with
             | [] => forall r l, dv_sectors (id_dv (g_val g)) r l = sp_disk p r l
             | b :: _ => working (buf_of (sp_bufs p) b) (sp_disk p) (id_dv (g_val g))
             end }.

(** The end of the queue, and the drive started if it was idle. *)
Lemma enqueue_plain disk1 g p b : refines disk1 g p -> b ∉ sp_queue p -> (b < length (sp_bufs p))%nat -> todo (buf_of (sp_bufs p) b) ->
  exists v', plain (g_mod (set_qnext b None) ;;
                    s ← g_get;
                    pp ← queue_end (S (length (id_bufs s))) s None;
                    g_mod (assign pp (Some b)) ;;
                    s ← g_get;
                    when (bool_decide (id_queue s = Some b)) (idestart patience (Some b))) (g_val g) tt v' /\
    id_disk1 v' = disk1 /\ id_bufs v' = sp_bufs p /\ chain (id_qnext v') (id_queue v') (sp_queue p ++ [b]) /\
    match sp_queue p with
    | [] => working (buf_of (sp_bufs p) b) (sp_disk p) (id_dv v')
    | b' :: _ => working (buf_of (sp_bufs p) b') (sp_disk p) (id_dv v')
    end.
Proof.
  intros [_ Hd1 Hbufs Hch Hnd Hreq Hdrv] Hb Hlt (_ & Hblk & Hlen). set (s0 := set_qnext b None (g_val g)).
  assert (Hch0 : chain (id_qnext s0) (id_queue s0) (sp_queue p)).
  { apply (qchain_ext (id_qnext (g_val g))); [|done]. intros i Hi. cbn. rewrite decide_False; [done|]. by intros ->. }
  assert (Hfuel : (length (sp_queue p) < S (length (id_bufs s0)))%nat).
  { apply Nat.lt_succ_r. apply nodup_bound; [done|]. intros i Hi. cbn. rewrite Hbufs. by apply Hreq. }
  pose proof (queue_end_plain s0 _ _ None Hch0 Hfuel) as Pq.
  assert (Hpre : forall v' pp, plain (queue_end (S (length (id_bufs s0))) s0 None) s0 pp s0 ->
    plain (when (bool_decide (id_queue (assign pp (Some b) s0) = Some b)) (idestart patience (Some b))) (assign pp (Some b) s0) tt v' ->
    plain (g_mod (set_qnext b None) ;; s ← g_get; pp ← queue_end (S (length (id_bufs s))) s None; g_mod (assign pp (Some b)) ;;
           s ← g_get; when (bool_decide (id_queue s = Some b)) (idestart patience (Some b))) (g_val g) tt v').
  { intros v' pp P1 P2. eapply plain_bind; [apply plain_mod|]. cbv beta. eapply plain_bind; [apply plain_get|]. cbv beta. eapply plain_bind; [exact P1|]. cbv beta.
    eapply plain_bind; [apply plain_mod|]. cbv beta. eapply plain_bind; [apply plain_get|]. exact P2. }
  destruct (sp_queue p) as [|b0 q0] eqn:Eq.
  - set (s1 := set_queue (Some b) s0). assert (Ex : ide_buf s1 b = buf_of (sp_bufs p) b) by (unfold ide_buf, buf_of; cbn; by rewrite Hbufs).
    destruct (idestart_plain s1 b (sp_disk p)) as (d & Pd & Wd); [by rewrite Ex|by rewrite Ex|exact Hdrv|]. rewrite Ex in Wd.
    exists (set_dv d s1). split; [|split; [exact Hd1|]; split; [exact Hbufs|]; split; [|exact Wd]].
    + apply (Hpre _ None Pq). change (assign None (Some b) s0) with s1. rewrite bool_decide_eq_true_2 by done. exact Pd.
    + cbn. split; [done|]. by rewrite decide_True.
  - destruct (exists_last (l := b0 :: q0)) as (q & j & El); [done|]. rewrite El in *. rewrite last_snoc in Pq. cbv iota in Pq.
    set (s1 := set_qnext j (Some b) s0). exists s1. assert (Hq0 : id_queue s1 = Some b0) by (rewrite <- El in Hch0; by destruct Hch0).
    split; [|split; [exact Hd1|]; split; [exact Hbufs|]; split; [|exact Hdrv]].
    + apply (Hpre _ (Some j) Pq). change (assign (Some j) (Some b) s0) with s1. rewrite bool_decide_eq_false_2; [apply plain_ret|].
      rewrite Hq0. intros [= ->]. apply Hb. rewrite <- El. by left.
    + rewrite <- app_assoc. apply chain_snoc; [exact Hch0|done|done|]. cbn. by rewrite decide_True.
Qed.

Lemma holding_buf me pid b (g : guarded (ide DV)) : g_quiet g -> (b < length (id_bufs (g_val g)))%nat ->
  b_lock (ide_buf (g_val g) b) = mk_sleeplock 1 Spinlock.initlock pid ->
  exists g', on_buf_lock b (Sleeplock.holdingsleep me pid) g = Ret true g' /\ g_quiet g' /\ g_val g' = g_val g.
Proof.
  intros Hq Hb Hl. unfold on_buf_lock, zoom. pose proof Hq as [_ Hc]. rewrite Sleeplock.holdingsleep_run by (split; [cbn; by rewrite Hl|done]). cbn [sl]. rewrite Hl.
  cbn [Sleeplock.owner sl_locked sl_pid ctrue Z.eqb negb]. rewrite bool_decide_true by done. eexists. split; [reflexivity|]. split.
  - destruct Hq as [H1 [H2 H3]]. by split; [|split].
  - cbn [g_val sl]. destruct (g_val g) as [bs nx q d1 dv]. unfold ide_upd, ide_buf in *. cbn in *. f_equal. apply list_eq. intros i.
    destruct (decide (i = b)) as [->|]; [|by rewrite list_lookup_alter_ne]. rewrite list_lookup_alter_eq. destruct (lookup_lt_is_Some_2 bs b Hb) as [x Hx]. rewrite Hx. cbn.
    rewrite (nth_lookup_Some _ _ _ _ Hx) in Hl. unfold set_lock. rewrite <- Hl. by destruct x.
Qed.
Lemma request_step me disk1 g p pid b : refines disk1 g p -> legal disk1 (Request pid b) p ->
  exists g', iderw me pid patience b g = Sleep (CBuf b) 0 g' /\ refines disk1 g' (spec_step (Request pid b) p).
Proof.
  intros R (Hb & Hlt & [A1 A2 A3 A4 A5]). assert (Ht : todo (buf_of (sp_bufs p) b)) by done. pose proof (rf_bufs _ _ _ R) as Eb.
  assert (Ex : ide_buf (g_val g) b = buf_of (sp_bufs p) b) by (unfold ide_buf, buf_of; by rewrite Eb).
  destruct (holding_buf me pid b g (rf_quiet _ _ _ R)) as (g1 & E1 & Hq1 & V1); [by rewrite Eb|by rewrite Ex|].
  unfold iderw. rewrite (bind_eq _ _ _ _ _ E1). cbn [negb]. rewrite (bind_eq g_get _ g1 (g_val g1) g1 eq_refl). rewrite V1, Ex. cbv zeta.
  rewrite (proj2 (Z.eqb_neq _ _) A2). rewrite (rf_disk1 _ _ _ R).
  assert (Ed : negb (b_dev (buf_of (sp_bufs p) b) =? 0) && negb disk1 = false) by (destruct A3 as [-> | ->]; [done|apply andb_false_r]). rewrite Ed.
  rewrite (bind_eq _ _ _ _ _ (g_acquire_run me g1 Hq1)). destruct (enqueue_plain disk1 g p b R Hb Hlt Ht) as (v' & P & D1 & B1 & C1 & W1).
  specialize (P (in_cs me g1 (g_val g1) (g_wakes g1)) V1). change (mk_g _ _ v' _) with (in_cs me g1 v' (g_wakes g1)) in P.
  exists (out_cs g1 v' (g_wakes g1)). split.
  - pose proof (bind_eq _ (fun _ : unit => iderw_wait me b) _ _ _ P) as E. etrans; [|etrans; [exact E|]].
    + unfold mbind, M_MBind, M_bind. repeat match goal with |- context [match ?m ?s with _ => _ end] => destruct (m s) end; done.
    + unfold iderw_wait. rewrite (bind_eq g_get _ _ _ _ (g_get_run me g1 v' (g_wakes g1))).
      assert (Ex' : ide_buf v' b = buf_of (sp_bufs p) b) by (unfold ide_buf, buf_of; by rewrite B1). rewrite Ex', (proj2 (Z.eqb_neq _ _) A2). cbn [negb]. by apply g_sleep_run.
  - constructor; cbn [spec_step sp_disk sp_bufs sp_queue out_cs g_val]; [by apply out_cs_quiet|done|done|done| | |].
    + apply NoDup_app. split; [apply R|]. split; [|apply NoDup_singleton]. intros i Hi ->%list_elem_of_singleton. done.
    + intros i [Hi| ->%list_elem_of_singleton]%elem_of_app; [by apply (rf_reqs _ _ _ R)|done].
    + by destruct (sp_queue p).
Qed.

Lemma alter_buf (l : list buf) b f : (b < length l)%nat -> alter f b l = <[b := f (buf_of l b)]> l.
Proof.
  intros Hb. apply list_eq. intros i. destruct (decide (i = b)) as [->|]; [|by rewrite list_lookup_alter_ne, list_lookup_insert_ne].
  rewrite list_lookup_alter_eq, list_lookup_insert_eq by done. unfold buf_of. destruct (lookup_lt_is_Some_2 l b Hb) as [x Hx]. by rewrite Hx, (nth_lookup_Some _ _ _ _ Hx).
Qed.
Lemma buf_of_insert l b x i : (b < length l)%nat -> buf_of (<[b := x]> l) i = if decide (i = b) then x else buf_of l i.
Proof.
  intros Hb. unfold buf_of. rewrite !nth_lookup. case_decide as E; [subst i; by rewrite list_lookup_insert_eq|by rewrite list_lookup_insert_ne].
Qed.
(** The first request completed: its data fetched, its flags set. *)
Lemma fetch_plain (s : ide DV) b (A : Z -> Z -> block) :
  let x := buf_of (id_bufs s) b in (b < length (id_bufs s))%nat -> working x A (id_dv s) ->
  exists v', plain (r ← (if Z.land (b_flags x) B_DIRTY =? 0 then idewait patience true else mret (-1));
                    when (r >=? 0)
                      (g_mod (fun s => ide_upd b (set_data (fst (dv_insl 0x1f0 (Z.to_nat (BSIZE / 4)) (id_dv s))))
                                         (set_dv (snd (dv_insl 0x1f0 (Z.to_nat (BSIZE / 4)) (id_dv s))) s))) ;;
                    g_mod (ide_upd b (fun x => set_flags (Z.lor (b_flags x) B_VALID) x)) ;;
                    g_mod (ide_upd b (fun x => set_flags (Z.land (b_flags x) (Z.lnot B_DIRTY)) x))) s tt v' /\
    id_bufs v' = <[b := sync_buf x A]> (id_bufs s) /\ id_qnext v' = id_qnext s /\ id_queue v' = id_queue s /\ id_disk1 v' = id_disk1 s /\
    (forall r l, dv_sectors (id_dv v') r l = sync_disk x A r l).
Proof.
  intros x Hb [W1 W2]. pose (flag := fun v => ide_upd b (fun x => set_flags (Z.land (b_flags x) (Z.lnot B_DIRTY)) x) (ide_upd b (fun x => set_flags (Z.lor (b_flags x) B_VALID) x) v) : ide DV).
  assert (Hfl : forall v y, id_bufs v = <[b := y]> (id_bufs s) -> id_bufs (flag v) = <[b := served y]> (id_bufs s)).
  { intros v y E. unfold flag, ide_upd. cbn [id_bufs]. rewrite E. rewrite !alter_buf by (rewrite ?length_alter, length_insert; done).
    rewrite !buf_of_insert, !decide_True by (rewrite ?length_insert; done). by rewrite !list_insert_insert_eq. }
  assert (E0 : (Z.land (b_flags x) B_DIRTY =? 0) = negb (dirty x)) by (unfold dirty, ctrue; by rewrite negb_involutive). rewrite E0.
  unfold sync_buf, sync_disk in *. destruct (dirty x) eqn:Ed; cbn [negb].
  - exists (flag s). split; [|split; [apply Hfl; rewrite list_insert_id; [done|]|done]].
    2: { unfold x, buf_of. destruct (lookup_lt_is_Some_2 (id_bufs s) b Hb) as [y Hy]. by rewrite Hy, (nth_lookup_Some _ _ _ _ Hy). }
    eapply plain_bind; [apply plain_ret|]. cbv beta. change (-1 >=? 0) with false. cbn [when]. eapply plain_bind; [apply plain_ret|]. cbv beta.
    eapply plain_bind; [apply plain_mod|]. exact (plain_mod _ _).
  - destruct (idewait_plain true s) as (d & Pd & Sd & Vd). destruct (ok_fetch d _ _ (Vd _ _ (W2 eq_refl))) as [F1 F2]. change (Z.to_nat (BSIZE / 4)) with 128%nat.
    set (s1 := ide_upd b (set_data (fst (dv_insl 0x1f0 128 d))) (set_dv (snd (dv_insl 0x1f0 128 d)) s)). exists (flag s1).
    split; [|split; [apply Hfl|]]; [| |split_and!; try done].
    + eapply plain_bind; [exact Pd|]. cbv beta. change (0 >=? 0) with true. cbn [when]. eapply plain_bind; [apply plain_mod|]. cbv beta.
      eapply plain_bind; [apply plain_mod|]. exact (plain_mod _ _).
    + unfold s1, ide_upd. cbn [id_bufs set_dv]. rewrite alter_buf by done. fold x. by rewrite F1, Sd, W1.
    + intros r l. cbn [flag ide_upd id_dv s1 set_dv]. by rewrite F2, Sd, W1.
Qed.

Lemma next_plain (s : ide DV) (q : list nat) (A : Z -> Z -> block) :
  chain (id_qnext s) (id_queue s) q -> (forall r l, dv_sectors (id_dv s) r l = A r l) ->
  (forall b, b ∈ q -> 0 <= b_blockno (buf_of (id_bufs s) b) < IDE_FSSIZE /\ length (b_data (buf_of (id_bufs s) b)) = 512%nat) ->
  exists d, plain (s ← g_get; match id_queue s with None => mret tt | Some b' => idestart patience (Some b') end) s tt (set_dv d s) /\
    match q with
    | [] => forall r l, dv_sectors d r l = A r l
    | b :: _ => working (buf_of (id_bufs s) b) A d
    end.
Proof.
  intros Hc HA Hq. destruct q as [|b q]; cbn [chain] in Hc.
  - exists (id_dv s). split; [|done]. eapply plain_bind; [apply plain_get|]. cbv beta. rewrite Hc. destruct s. apply plain_ret.
  - destruct Hc as [Hb _]. destruct (Hq b) as [H1 H2]; [by left|]. destruct (idestart_plain s b A H1 H2 HA) as (d & P & W). exists d. split; [|exact W].
    eapply plain_bind; [apply plain_get|]. cbv beta. rewrite Hb. exact P.
Qed.
Lemma interrupt_step me disk1 g p : refines disk1 g p -> exists g', ideintr me patience g = Ret tt g' /\
  refines disk1 g' (spec_step Interrupt p) /\ g_wakes g' = g_wakes g ++ (CBuf <$> take 1 (sp_queue p)).
Proof.
  intros R. pose proof R as [Hq Hd1 Hbufs Hch Hnd Hreq Hdrv]. unfold ideintr. rewrite (bind_eq _ _ _ _ _ (g_acquire_run me g Hq)).
  rewrite (bind_eq g_get _ _ _ _ (g_get_run me g _ _)). cbn [spec_step]. destruct (sp_queue p) as [|b q] eqn:Eq; cbn [chain] in Hch.
  - rewrite Hch. eexists. split; [by apply g_release_run|]. split; [|by rewrite app_nil_r]. constructor; rewrite ?Eq; try done. by apply out_cs_quiet.
  - destruct Hch as [Hb Hch]. rewrite Hb. rewrite (bind_eq _ _ _ _ _ (g_mod_run me _ g _ _)). set (v1 := set_queue (id_qnext (g_val g) b) (g_val g)). set (x := buf_of (sp_bufs p) b) in *.
    apply NoDup_cons in Hnd as [Hbq Hnd]. destruct (Hreq b) as [Hlt Hx]; [by left|]. assert (Ex : buf_of (id_bufs v1) b = x) by (unfold v1; cbn; by rewrite Hbufs).
    assert (Eb : ide_buf (g_val g) b = x) by (unfold ide_buf, x, buf_of; by rewrite Hbufs). rewrite Eb.
    destruct (fetch_plain v1 b (sp_disk p)) as (v2 & P2 & B2 & N2 & Q2 & D2 & S2); [cbn; by rewrite Hbufs|by rewrite Ex|]. rewrite Ex in P2, B2, S2. change (id_bufs v1) with (id_bufs (g_val g)) in B2. rewrite Hbufs in B2.
    assert (Hother : forall i, i ∈ q -> buf_of (id_bufs v2) i = buf_of (sp_bufs p) i) by (intros i Hi; rewrite B2, buf_of_insert, decide_False by (done || intros ->; done); done).
    destruct (next_plain v2 q (sync_disk x (sp_disk p))) as (d & P3 & W3).
    { rewrite N2, Q2. exact Hch. } { exact S2. } { intros i Hi. rewrite Hother by done. destruct (Hreq i) as [_ (_ & H1 & H2)]; [by right|]. done. }
    specialize (P2 (in_cs me g v1 (g_wakes g)) eq_refl). change (mk_g _ _ v2 _) with (in_cs me g v2 (g_wakes g)) in P2.
    specialize (P3 (in_cs me g v2 (g_wakes g ++ [CBuf b])) eq_refl). change (mk_g _ _ (set_dv d v2) _) with (in_cs me g (set_dv d v2) (g_wakes g ++ [CBuf b])) in P3.
    exists (out_cs g (set_dv d v2) (g_wakes g ++ [CBuf b])). split.
    + etrans; [|apply (g_release_run me g (set_dv d v2) (g_wakes g ++ [CBuf b]) Hq)].
      etrans; [|exact (bind_eq _ (fun _ => g_release me) _ _ _ P3)].
      etrans; [|exact (bind_eq _ (fun _ => g_wakeup (CBuf b) ;; (s ← g_get; match id_queue s with None => mret tt | Some b' => idestart patience (Some b') end) ;; g_release me) _ _ _ P2)].
      unfold mbind, M_MBind, M_bind. repeat match goal with |- context [match ?m ?s with _ => _ end] => destruct (m s) end; done.
    + split; [|done]. constructor; cbn [sp_disk sp_bufs sp_queue out_cs g_val set_dv id_disk1 id_bufs id_qnext id_queue id_dv]; [by apply out_cs_quiet|by rewrite D2|done|by rewrite N2, Q2|done| |].
      * intros i Hi. rewrite <- B2, Hother by done. rewrite B2, length_insert. apply Hreq. by right.
      * destruct q as [|i q]; [done|]. rewrite <- B2. exact W3.
Qed.

Definition complete (x : buf) : bool := Z.land (b_flags x) (Z.lor B_VALID B_DIRTY) =? B_VALID.
Lemma resume_run me b disk1 g p : refines disk1 g p ->
  iderw_resume me b g = if complete (buf_of (sp_bufs p) b) then Ret tt (out_cs g (g_val g) (g_wakes g)) else Sleep (CBuf b) 0 (out_cs g (g_val g) (g_wakes g)).
Proof.
  intros R. unfold iderw_resume. rewrite (bind_eq _ _ _ _ _ (g_acquire_run me g (rf_quiet _ _ _ R))). unfold iderw_wait.
  rewrite (bind_eq g_get _ _ _ _ (g_get_run me g _ _)). assert (Ex : ide_buf (g_val g) b = buf_of (sp_bufs p) b) by (unfold ide_buf, buf_of; by rewrite (rf_bufs _ _ _ R)).
  rewrite Ex. fold (complete (buf_of (sp_bufs p) b)). destruct (complete _); cbn [negb]; [apply g_release_run, R|apply g_sleep_run, R].
Qed.
Lemma quiet_refines disk1 g p w : refines disk1 g p -> refines disk1 (out_cs g (g_val g) w) p.
Proof. intros []. constructor; try done. by apply out_cs_quiet. Qed.
Lemma served_complete x : complete (served x) = true.
Proof.
  unfold complete, served, set_flags. cbn [b_flags]. apply Z.eqb_eq. apply Z.bits_inj'. intros i Hi. rewrite !Z.land_spec, !Z.lor_spec, Z.lnot_spec by done.
  change B_VALID with (2 ^ 1). change B_DIRTY with (2 ^ 2). rewrite !Z.pow2_bits_eqb by lia. destruct (Z.eqb_spec 1 i), (Z.eqb_spec 2 i), (Z.testbit (b_flags x) i); (done || lia).
Qed.

(** The driver, the buffers whose processes are asleep in [iderw], and those whose
    processes have come back from it. *)
Record isys := mk_isys { is_drv : guarded (ide DV); is_asleep : list nat; is_back : list nat }.

(** The processes asleep on one of [chans] are woken and go on in [iderw]. *)
Fixpoint wake_all (me : nat) (chans : list chan) (asleep : list nat) (g : guarded (ide DV)) : option isys :=
  match asleep with
  | [] => Some (mk_isys g [] [])
  | b :: bs =>
      if bool_decide (CBuf b ∈ chans) then
        match iderw_resume me b g with
        | Ret _ g' => x ← wake_all me chans bs g'; Some (mk_isys (is_drv x) (is_asleep x) (b :: is_back x))
        | Sleep _ _ g' => x ← wake_all me chans bs g'; Some (mk_isys (is_drv x) (b :: is_asleep x) (is_back x))
        | _ => None
        end
      else x ← wake_all me chans bs g; Some (mk_isys (is_drv x) (b :: is_asleep x) (is_back x))
  end.

(** A process calls [iderw] and falls asleep; or the drive interrupts, and the processes
    that the handler wakes run. *)
Definition ide_event (me : nat) (e : ievent) (x : isys) : option isys :=
  match e with
  | Request pid b =>
      match iderw me pid patience b (is_drv x) with
      | Sleep (CBuf b') _ g' => Some (mk_isys g' (is_asleep x ++ [b']) (is_back x))
      | _ => None
      end
  | Interrupt =>
      match ideintr me patience (is_drv x) with
      | Ret _ g' =>
          y ← wake_all me (drop (length (g_wakes (is_drv x))) (g_wakes g')) (is_asleep x) g';
          Some (mk_isys (is_drv y) (is_asleep y) (is_back x ++ is_back y))
      | _ => None
      end
  end.
Fixpoint ide_run (me : nat) (es : list ievent) (x : isys) : option isys :=
  match es with
  | [] => Some x
  | e :: es' => ide_event me e x ≫= ide_run me es'
  end.
(** The buffers of the requests, in the order in which they are made. *)
Fixpoint requests (es : list ievent) : list nat :=
  match es with
  | [] => []
  | Request _ b :: es' => b :: requests es'
  | Interrupt :: es' => requests es'
  end.

Lemma wake_others me chans q g : (forall b, b ∈ q -> CBuf b ∉ chans) -> wake_all me chans q g = Some (mk_isys g q []).
Proof.
  induction q as [|b q IH]; intros Hq; [done|]. cbn [wake_all]. rewrite bool_decide_eq_false_2 by (apply Hq; by left).
  rewrite IH by (intros i Hi; apply Hq; by right). done.
Qed.

(** The driver does what the specification does, and the processes asleep are those with
    requests in its queue. *)
Record sys_refines (disk1 : bool) (x : isys) (p : spec) : Prop := mk_sys_refines {
  sr_drv : refines disk1 (is_drv x) p;
  sr_asleep : is_asleep x = sp_queue p }.

Lemma event_refines me disk1 e x p : sys_refines disk1 x p -> legal disk1 e p ->
  exists x', ide_event me e x = Some x' /\ sys_refines disk1 x' (spec_step e p) /\
    is_back x' ++ is_asleep x' = is_back x ++ is_asleep x ++ requests [e].
Proof.
  intros [R Ha] He. destruct e as [pid b|]; cbn [ide_event requests].
  - destruct (request_step me disk1 _ p pid b R He) as (g1 & -> & R1). eexists. split; [reflexivity|]. split; [|done]. constructor; [done|]. cbn. by rewrite Ha.
  - destruct (interrupt_step me disk1 _ p R) as (g1 & -> & R1 & W1). rewrite W1, drop_app_length, app_nil_r, Ha.
    pose proof (rf_nodup _ _ _ R) as Hnd. pose proof (rf_reqs _ _ _ R) as Hreq. cbn [spec_step] in R1 |- *. destruct (sp_queue p) as [|b q] eqn:Eq.
    { eexists. split; [reflexivity|]. split; [by constructor; cbn; rewrite ?Eq|]. cbn. by rewrite app_nil_r. }
    cbn [wake_all take fmap list_fmap]. rewrite bool_decide_eq_true_2 by (by left). apply NoDup_cons in Hnd as [Hb Hnd].
    rewrite (resume_run me b disk1 g1 _ R1). cbn [sp_bufs]. destruct (Hreq b) as [Hlt _]; [by left|].
    rewrite buf_of_insert, decide_True by done. unfold sync_buf at 1. rewrite served_complete. rewrite wake_others.
    2: { intros i Hi [= ->]%list_elem_of_singleton. done. }
    eexists. split; [reflexivity|]. cbn. split; [|by rewrite <- app_assoc]. constructor; [by apply quiet_refines|done].
Qed.
Lemma run_refines me disk1 es : forall x p, sys_refines disk1 x p -> legal_run disk1 es p ->
  exists x', ide_run me es x = Some x' /\ sys_refines disk1 x' (spec_run es p) /\ is_back x' ++ is_asleep x' = is_back x ++ is_asleep x ++ requests es.
Proof.
  induction es as [|e es IH]; intros x p R Hl; [exists x; cbn; by rewrite app_nil_r|]. destruct Hl as [He Hl]. cbn [ide_run].
  destruct (event_refines me disk1 e x p R He) as (x1 & E1 & R1 & F1). rewrite E1. destruct (IH x1 _ R1 Hl) as (x' & E' & R' & F').
  exists x'. split; [done|]. split; [done|]. rewrite F', (app_assoc (is_back x1)), F1. destruct e; cbn; by rewrite <- ?app_assoc, ?app_nil_r.
Qed.

Record idle (g : guarded (ide DV)) (A : Z -> Z -> block) : Prop := mk_idle {
  il_quiet : g_quiet g;
  il_queue : id_queue (g_val g) = None;
  il_disk : forall r l, dv_sectors (id_dv (g_val g)) r l = A r l }.
Lemma idle_refines g A : idle g A -> refines (id_disk1 (g_val g)) g (mk_spec A (id_bufs (g_val g)) []).
Proof. intros [H1 H2 H3]. constructor; cbn; try done; [apply NoDup_nil_2|]. intros b Hb. by apply elem_of_nil in Hb. Qed.

(** Interrupts serve the requests in the order of the queue. *)
Lemma interrupts_serve n : forall p, sp_queue (spec_run (replicate n Interrupt) p) = drop n (sp_queue p).
Proof.
  induction n as [|n IH]; intros p; [done|]. cbn [replicate]. change (spec_run (Interrupt :: ?l) p) with (spec_run l (spec_step Interrupt p)).
  rewrite IH. cbn [spec_step]. destruct (sp_queue p) eqn:E; cbn [sp_queue]; [by rewrite E, drop_nil|done].
Qed.
Lemma interrupts_legal disk1 n : forall p, legal_run disk1 (replicate n Interrupt) p.
Proof. induction n as [|n IH]; intros p; cbn; [done|]. by split. Qed.
Lemma no_requests n : requests (replicate n Interrupt) = [].
Proof. by induction n. Qed.

(** C5: the IDE driver and a drive that works are an array of blocks with a queue of
    requests.  For any requests of locked buffers, whose processes fall asleep, and any
    interrupts, in any order, the buffers are what the specification says, that is, the
    requests are carried out one per interrupt in the order in which they came; with no
    request left the drive's sectors are the specification's.  The processes come back
    from [iderw] in the order of their requests: they are woken by the interrupt that
    completes the request, those asleep are those whose request is still in the queue, and
    [n] more interrupts bring the first [n] of them back. *)
Theorem ide_refines_queue me es g A :
  idle g A -> legal_run (id_disk1 (g_val g)) es (mk_spec A (id_bufs (g_val g)) []) ->
  let p := spec_run es (mk_spec A (id_bufs (g_val g)) []) in
  exists x, ide_run me es (mk_isys g [] []) = Some x /\ id_bufs (g_val (is_drv x)) = sp_bufs p /\
    (sp_queue p = [] -> forall r l, dv_sectors (id_dv (g_val (is_drv x))) r l = sp_disk p r l) /\
    is_asleep x = sp_queue p /\ requests es = is_back x ++ is_asleep x /\
    forall n, exists y, ide_run me (replicate n Interrupt) x = Some y /\
      is_back y = is_back x ++ take n (is_asleep x) /\ is_asleep y = drop n (is_asleep x).
Proof.
  intros Hi Hl p. destruct (run_refines me _ es (mk_isys g [] []) _ (mk_sys_refines _ (mk_isys g [] []) _ (idle_refines g A Hi) eq_refl) Hl) as (x & E & R & F).
  fold p in R. exists x. split; [done|]. pose proof R as [R1 Ha]. split; [apply R1|]. split_and!; try done.
  - intros Hq. pose proof (rf_drive _ _ _ R1) as Hd. by rewrite Hq in Hd.
  - intros n. destruct (run_refines me _ (replicate n Interrupt) x p R (interrupts_legal _ n p)) as (y & Ey & Ry & Fy).
    exists y. split; [done|]. pose proof (sr_asleep _ _ _ Ry) as Hy. rewrite interrupts_serve, <- Ha in Hy. split; [|done].
    rewrite no_requests, app_nil_r, Hy in Fy. apply (app_inv_tail (drop n (is_asleep x))). by rewrite Fy, <- app_assoc, take_drop.
Qed.
End Serve.

(** *** Drives *)

(** A drive that is always ready; the registers are where the commands left them. *)
Record sim := mk_sim { sm_regs : Z -> Z; sm_disk : Z -> Z -> block }.
Definition sim_lba (d : sim) : Z := lba (sm_regs d 0x1f3) (sm_regs d 0x1f4) (sm_regs d 0x1f5) (sm_regs d 0x1f6).
Definition sim_drive (d : sim) : Z := drive_bit (sm_regs d 0x1f6).
#[export] Instance sim_ops : Drive sim := {
  dv_inb _ d := (IDE_DRDY, d);
  dv_outb port v d := mk_sim (upd port v (sm_regs d)) (sm_disk d);
  dv_insl _ _ d := (sm_disk d (sim_drive d) (sim_lba d), d);
  dv_outsl _ data d := mk_sim (sm_regs d) (upd_sector (sim_drive d) (sim_lba d) data (sm_disk d)) }.
#[export] Instance sim_ok : DriveOk sim.
Proof.
  refine (Build_DriveOk sim sim_ops sm_disk (fun d r l => r = sim_drive d /\ l = sim_lba d) 1%nat _ _ _ _ _ _).
  - done.
  - intros d. exists 0%nat. split; [lia|]. split; [lia|done].
  - done.
  - done.
  - intros d r l [-> ->]. done.
  - done.
Defined.
Definition demo_buf (pid blockno : Z) (flags : Z) : buf := mk_buf flags 0 blockno (mk_sleeplock 1 Spinlock.initlock pid) 1 (replicate 512 7).
Definition demo_ide : guarded (ide sim) :=
  mk_g (mk_cpu 0 false true) Spinlock.initlock
    (mk_ide [demo_buf 3 20 B_DIRTY; demo_buf 4 20 0] (fun _ => None) None false (mk_sim (fun _ => 0) (fun _ _ => replicate 512 0))) [].
(** A write and a read of the same block, the read asked for while the write is served. *)
Lemma ide_refines_queue_witness :
  exists x, ide_run 0 [Request 3 0; Request 4 1; Interrupt; Interrupt] (mk_isys demo_ide [] []) = Some x /\
    b_data (buf_of (id_bufs (g_val (is_drv x))) 1) = replicate 512 7 /\ is_back x = [0%nat; 1%nat].
Proof.
  destruct (ide_refines_queue 0 [Request 3 0; Request 4 1; Interrupt; Interrupt] demo_ide (fun _ _ => replicate 512 0)) as (x & E & Hb & _ & Ha & Hr & _).
  - split; [split; [done|split; cbn; lia]|done|done].
  - cbn [legal_run]. split; [|split]; [| |done].
    + split; [set_solver|]. split; [cbn; lia|]. constructor; cbn; (done || lia || by left).
    + split; [cbn; set_solver|]. split; [cbn; lia|]. constructor; cbn; (done || lia || by left).
  - exists x. split; [exact E|]. split; [rewrite Hb; by vm_compute|].
    rewrite Ha in Hr. change (sp_queue _) with (@nil nat) in Hr. by rewrite app_nil_r in Hr.
Defined.

(** A drive that reports an error on every command, and transfers nothing. *)
Definition broken_ops : Drive unit := {| dv_inb _ d := (Z.lor IDE_DRDY IDE_ERR, d); dv_outb _ _ d := d; dv_insl _ _ d := ([], d); dv_outsl _ _ d := d |}.
Definition broken_ide : guarded (ide unit) :=
  mk_g (mk_cpu 0 false true) Spinlock.initlock (mk_ide [demo_buf 4 20 0] (fun _ => None) None false tt) [].
(** A read that fails is reported as done: the buffer is valid, with the data it had. *)
Theorem ide_read_error_ignored :
  exists g1 g2 g3, iderw (H := broken_ops) 0 4 1 0 broken_ide = Sleep (CBuf 0) 0 g1 /\ ideintr (H := broken_ops) 0 1 g1 = Ret tt g2 /\
    iderw_resume 0 0 g2 = Ret tt g3 /\ complete (buf_of (id_bufs (g_val g3)) 0) = true /\ b_data (buf_of (id_bufs (g_val g3)) 0) = replicate 512 7.
Proof. do 3 eexists. split; [vm_compute; reflexivity|]. split; [vm_compute; reflexivity|]. split; [vm_compute; reflexivity|]. split; reflexivity. Qed.
