(* ===== verification/Expr.v ===== *)
(** The calculator of the console ([console.c]): it looks for an expression such as
    [12+30=?] in the line being typed and works out the decimal result.

    The routines read [input.buf], the state of the computations here.  [float] is
    binary32, rounded at every operation; converting a value that does not fit an
    [int] is a fault, and so is an access outside [num_str] or the buffer. *)

From S2P Require Import Prelude CString Printf.
From Stdlib Require Import SpecFloat.

Definition INPUT_BUF : nat := 128.

Record __exp_found := mk_exp {
  num_str : list Z;
  num_float : Z;
  num_size : Z;
  start_exp_idx : Z;
  exp_size : Z;
  success_flag : Z }.

Definition set_num (s : list Z) (n : Z) (x : __exp_found) : __exp_found :=
  mk_exp s (num_float x) n (start_exp_idx x) (exp_size x) (success_flag x).
Definition set_num_float (v : Z) (x : __exp_found) : __exp_found :=
  mk_exp (num_str x) v (num_size x) (start_exp_idx x) (exp_size x) (success_flag x).
Definition set_start (v : Z) (x : __exp_found) : __exp_found :=
  mk_exp (num_str x) (num_float x) (num_size x) v (exp_size x) (success_flag x).

(** [a[i]] and [a[i] = v]. *)
Definition cell (a : list Z) (i : Z) : option Z := if i <? 0 then None else a !! Z.to_nat i.
Definition set_cell (a : list Z) (i v : Z) : option (list Z) :=
  if (0 <=? i) && (i <? Z.of_nat (length a)) then Some (<[Z.to_nat i := i8 v]> a) else None.

(** The search stops at [arr]'s NUL, after comparing it too. *)
Definition __is_in_arr (inc : Z) (arr : list Z) : bool := existsb (Z.eqb inc) (arr ++ [0]).

Definition nums : list Z := bytes_of_string "0123456789".
Definition ops : list Z := bytes_of_string "+-*/".

(** [__char_to_int(&buf[base], n)] with [k] characters left. *)
Fixpoint char_to_int_loop (k : nat) (base i result : Z) : M (list Z) Z :=
  match k with
  | O => mret result
  | S k' =>
      a ← get;
      c ← of_option OutOfBounds (cell a (base + i));
      char_to_int_loop k' base (i + 1) (i32 (10 * result + c - 48))
  end.
Definition __char_to_int (base n : Z) : M (list Z) Z := char_to_int_loop (Z.to_nat (n + 1)) base 0 0.

(** [while (t > 0.9) { t /= 10; l++; }]: an [int] has at most ten digits. *)
Fixpoint count_digits (fuel : nat) (t l : Z) : Z :=
  match fuel with
  | O => l
  | S f => if t >? 0 then count_digits f (Z.quot t 10) (l + 1) else l
  end.
Definition DIGITS_FUEL : nat := 11.

(** [for (int i = sign; i < l; i++) num_str[l-i-(sign?0:1)] = n % 10 + '0', n /= 10]. *)
Fixpoint put_digits (k : nat) (i l sign n : Z) (s : list Z) : option (list Z) :=
  match k with
  | O => Some s
  | S k' =>
      s' ← set_cell s (l - i - (if ctrue sign then 0 else 1)) (Z.rem n 10 + 48);
      put_digits k' (i + 1) l sign (Z.quot n 10) s'
  end.

Definition __int_to_char (n : Z) (exp : __exp_found) : option __exp_found :=
  if n =? 0 then
    s ← set_cell (num_str exp) 0 48;
    Some (set_num s 1 exp)
  else
    sl ← (if n <? 0 then s ← set_cell (num_str exp) 0 MINUS; Some (s, 1, i32 (- n))
          else Some (num_str exp, 0, n));
    let '(s, sign, n') := sl in
    let l := count_digits DIGITS_FUEL n' sign in
    s' ← put_digits (Z.to_nat (l - sign)) sign l sign n' s;
    Some (set_num s' l exp).

(** *** [float] *)
Definition float_of_int (z : Z) : spec_float := binary_normalize 24 128 z 0 false.
Definition float_mul : spec_float -> spec_float -> spec_float := SFmul 24 128.
Definition float_div : spec_float -> spec_float -> spec_float := SFdiv 24 128.
Definition float_neg (x : spec_float) : spec_float := SFopp x.
Definition float_zero : spec_float := S754_zero false.
(** Conversion to [int] drops the fraction. *)
Definition int_of_float (x : spec_float) : option Z :=
  match x with
  | S754_zero _ => Some 0
  | S754_finite s m e =>
      let v := if 0 <=? e then Zpos m * 2 ^ e else Zpos m / 2 ^ (- e) in
      let v := if (s : bool) then - v else v in
      if (INT_MIN <=? v) && (v <=? INT_MAX) then Some v else None
  | _ => None
  end.

Definition __float1p_to_char (n : spec_float) (exp : __exp_found) : M (list Z) __exp_found :=
  let temp := float_mul n (float_of_int 10) in
  t ← of_option Overflow (int_of_float temp);
  let neg := SFltb n float_zero in
  sl ← (if neg then s ← of_option OutOfBounds (set_cell (num_str exp) 0 MINUS); mret (s, 1, i32 (- t), float_neg temp)
        else mret (num_str exp, 0, t, temp));
  let '(s, sign, t, temp) := sl in
  let l := count_digits DIGITS_FUEL t sign in
  t ← of_option Overflow (int_of_float temp);
  s ← of_option OutOfBounds (put_digits (Z.to_nat (l - sign)) sign l sign t s);
  let l := l + 1 in
  d ← of_option OutOfBounds (cell s (l - 2));
  s ← of_option OutOfBounds (set_cell s (l - 1) d);
  s ← of_option OutOfBounds (set_cell s (l - 2) 46);
  mret (set_num s l exp).

(** [for (int i = n; i < INPUT_BUF; i++) num_str[i] = '\0']. *)
Fixpoint clear_from (k : nat) (i : Z) (s : list Z) : option (list Z) :=
  match k with
  | O => Some s
  | S k' => s' ← set_cell s i 0; clear_from k' (i + 1) s'
  end.

(** [exp] is a local variable; every cell of [num_str] is written before it is
    read, so what it starts with does not matter. *)
Definition exp0 : __exp_found := mk_exp (replicate INPUT_BUF 0) 0 0 0 0 0.

Definition __solve_exp (txt break_index end_index : Z) : M (list Z) __exp_found :=
  let exp := mk_exp (num_str exp0) 0 0 0 (end_index + 2 + 1) 1 in
  num1 ← __char_to_int txt break_index;
  num2 ← __char_to_int (txt + break_index + 2) (end_index - 2 - break_index);
  a ← get;
  op ← of_option OutOfBounds (cell a (txt + break_index + 1));
  exp ← (if op =? 43 (* '+' *) then
           let result := i32 (num1 + num2) in
           of_option OutOfBounds (__int_to_char result (set_num_float result exp))
         else if op =? 45 (* '-' *) then
           let result := i32 (num1 - num2) in
           of_option OutOfBounds (__int_to_char result (set_num_float result exp))
         else if op =? 42 (* '*' *) then
           let result := i32 (num1 * num2) in
           of_option OutOfBounds (__int_to_char result (set_num_float result exp))
         else if op =? 47 (* '/' *) then
           let num1_float := float_of_int num1 in
           let r := float_div num1_float (float_of_int num2) in
           v ← of_option Overflow (int_of_float r);
           let exp := set_num_float v exp in
           if SFeqb num1_float float_zero then
             s ← of_option OutOfBounds (set_cell (num_str exp) 0 48);
             mret (set_num s 1 exp)
           else __float1p_to_char r exp
         else mret exp);
  s ← of_option OutOfBounds (clear_from (Z.to_nat (Z.of_nat INPUT_BUF - num_size exp)) (num_size exp) (num_str exp));
  mret (set_num s (num_size exp) exp).

(** The automaton of [__find_expression]: state, [num1_start], [num1_end] and
    [num2_end] after the character [c] at [i], for states 0 to 4. *)
Record scan := mk_scan { sc_s : Z; num1_start : Z; num1_end : Z; num2_end : Z }.
Definition scan_char (c i : Z) (x : scan) : scan :=
  let s := sc_s x in
  if s =? 0 then
    if __is_in_arr c nums then mk_scan 1 i i (num2_end x) else x
  else if s =? 1 then
    if __is_in_arr c nums then mk_scan 1 (num1_start x) i (num2_end x)
    else if __is_in_arr c ops then mk_scan 2 (num1_start x) (num1_end x) (num2_end x)
    else mk_scan 0 (num1_start x) (num1_end x) (num2_end x)
  else if s =? 2 then
    if __is_in_arr c nums then mk_scan 3 (num1_start x) (num1_end x) i
    else mk_scan 0 (num1_start x) (num1_end x) (num2_end x)
  else if s =? 3 then
    if __is_in_arr c nums then mk_scan 3 (num1_start x) (num1_end x) i
    else mk_scan (if c =? 61 (* '=' *) then 4 else 0) (num1_start x) (num1_end x) (num2_end x)
  else if s =? 4 then
    mk_scan (if c =? 63 (* '?' *) then 5 else 0) (num1_start x) (num1_end x) (num2_end x)
  else mk_scan 0 (num1_start x) (num1_end x) (num2_end x).

(** The loop, with the last character read; [None] is [no_exp]. *)
Fixpoint find_loop (fuel : nat) (c i : Z) (x : scan) : M (list Z) (option __exp_found) :=
  match fuel with
  | O => faults OutOfFuel
  | S f =>
      if c =? 0 then mret None
      else
        a ← get;
        c ← of_option OutOfBounds (cell a i);
        if sc_s x =? 5 then
          e ← __solve_exp (num1_start x) (num1_end x - num1_start x) (num2_end x - num1_start x);
          mret (Some (set_start (num1_start x) e))
        else find_loop f c (i + 1) (scan_char c i x)
  end.
(** The buffer's cells, one read that fails past them, and the last test. *)
Definition FIND_FUEL : nat := 130.
Definition __find_expression : M (list Z) (option __exp_found) := find_loop FIND_FUEL 97 0 (mk_scan 0 0 0 0).

(** ** Results are printed as [cprintf] prints them *)

Lemma cell_app1 a b i : 0 <= i < Z.of_nat (length a) -> cell (a ++ b) i = cell a i.
Proof. intros Hi. unfold cell. replace (i <? 0) with false by lia. apply lookup_app_l. lia. Qed.
Lemma cell_app2 a b i : Z.of_nat (length a) <= i -> cell (a ++ b) i = cell b (i - Z.of_nat (length a)).
Proof.
  intros Hi. unfold cell. replace (i <? 0) with false by lia. replace (i - Z.of_nat (length a) <? 0) with false by lia.
  rewrite lookup_app_r by lia. f_equal. lia.
Qed.
(** The cell at the border of two lists. *)
Lemma cell_mid a c b i : i = Z.of_nat (length a) -> cell (a ++ c :: b) i = Some c.
Proof. intros ->. rewrite cell_app2 by lia. by rewrite Z.sub_diag. Qed.

Lemma set_cell_mid a c b i v :
  i = Z.of_nat (length a) -> set_cell (a ++ c :: b) i v = Some (a ++ i8 v :: b).
Proof.
  intros ->. unfold set_cell. rewrite length_app. cbn [length].
  replace ((0 <=? Z.of_nat (length a)) && _) with true by lia. rewrite Nat2Z.id. f_equal.
  by rewrite insert_app_r_alt, Nat.sub_diag by lia.
Qed.

Lemma i8_small x : -128 <= x < 128 -> i8 x = x.
Proof. intros. unfold_int. rewrite Z.mod_small; lia. Qed.

(** The [k] low digits of [n], least significant first. *)
Fixpoint low_digits (k : nat) (n : Z) : list Z :=
  match k with
  | O => []
  | S k' => (n mod 10 + 48) :: low_digits k' (n / 10)
  end.

Lemma low_digits_length k n : length (low_digits k n) = k.
Proof. revert n; induction k as [|k IH]; intros n; cbn; [done|]. by rewrite IH. Qed.

(** [put_digits] overwrites the [k] cells [m] before the rest [b]. *)
Lemma put_digits_run k i l sign n a m b :
  0 <= n -> length m = k ->
  l - i - (if ctrue sign then 0 else 1) = Z.of_nat (length a + k) - 1 ->
  put_digits k i l sign n (a ++ m ++ b) = Some (a ++ rev (low_digits k n) ++ b).
Proof.
  revert i n m b; induction k as [|k IH]; intros i n m b Hn Hm Hp; cbn [put_digits low_digits].
  { by apply nil_length_inv in Hm as ->. }
  destruct (exists_last (l := m)) as (m' & x & ->); [by intros ->|]. rewrite length_app in Hm. cbn in Hm.
  rewrite Z.rem_mod_nonneg, Z.quot_div_nonneg by lia.
  rewrite <- !app_assoc. cbn [app]. rewrite (app_assoc a m'), set_cell_mid.
  - cbn [mbind option_bind]. rewrite <- app_assoc. rewrite IH; [|apply Z.div_pos; lia|lia|lia].
    cbn [rev]. rewrite <- !app_assoc. cbn [app]. rewrite i8_small; [done|]. pose proof (Z.mod_pos_bound n 10). lia.
  - rewrite length_app. lia.
Qed.

Lemma digit_char k : 0 <= k < 10 -> nth (Z.to_nat k) Cprintf.digits 0 = k + 48.
Proof.
  intros Hk. assert (exists i, (i < 10)%nat /\ k = Z.of_nat i) as (i & Hi & ->) by (exists (Z.to_nat k); lia).
  rewrite Nat2Z.id. do 10 (destruct i as [|i]; [reflexivity|]). lia.
Qed.

(** A number of at most [f] digits has as many as [count_digits] counts, and those
    are the ones [printint] collects. *)
Lemma count_digits_run f f' n l :
  0 < n < 10 ^ Z.of_nat f -> (f <= f')%nat ->
  exists k, (0 < k <= f)%nat /\ count_digits f n l = l + Z.of_nat k /\
    printint_digits f' Cprintf.digits n 10 = low_digits k n.
Proof.
  revert f' n l; induction f as [|f IH]; intros f' n l Hn Hf; [cbn in Hn; lia|].
  destruct f' as [|f']; [lia|]. cbn [count_digits printint_digits]. replace (n >? 0) with true by lia.
  rewrite Z.quot_div_nonneg by lia. pose proof (Z.mod_pos_bound n 10) as Hm. rewrite (digit_char (n mod 10)) by lia.
  pose proof (Z.div_mod n 10). destruct (Z.eqb_spec (n / 10) 0) as [E|E].
  - exists 1%nat. rewrite E. split; [lia|]. split; [destruct f; cbn; lia|]. cbn. done.
  - destruct (IH f' (n / 10) (l + 1)) as (k & Hk & E1 & E2); [|lia|].
    + rewrite Nat2Z.inj_succ, Z.pow_succ_r in Hn by lia. pose proof (Z.div_pos n 10).
      split; [lia|]. apply Z.div_lt_upper_bound; lia.
    + exists (S k). rewrite E1, E2. split; [lia|]. split; [lia|]. done.
Qed.

(** What [__int_to_char] leaves in [num_str] and [num_size]. *)
Lemma int_to_char_run n exp :
  in_i32 n -> n <> INT_MIN -> length (num_str exp) = INPUT_BUF ->
  exists rest, __int_to_char n exp =
    Some (set_num (Cprintf.printint n 10 1 ++ rest) (Z.of_nat (length (Cprintf.printint n 10 1))) exp) /\
    (length (Cprintf.printint n 10 1) + length rest = INPUT_BUF)%nat.
Proof.
  intros Hn Hm Hl. unfold __int_to_char. destruct (Z.eqb_spec n 0) as [->|H0].
  { destruct (num_str exp) as [|x s] eqn:E; [done|]. rewrite (set_cell_mid [] x s 0) by done.
    exists s. split; [reflexivity|]. unfold INPUT_BUF in *. cbn [length] in Hl. change (length (Cprintf.printint 0 10 1)) with 1%nat. lia. }
  assert (Hb : exists sg x, (sg = if n <? 0 then 1 else 0) /\ 0 < x < 2 ^ 31 /\
    (if n <? 0 then s ← set_cell (num_str exp) 0 MINUS; Some (s, 1, i32 (- n)) else Some (num_str exp, 0, n)) =
    Some ((if n <? 0 then MINUS :: drop 1 (num_str exp) else num_str exp), sg, x) /\
    Cprintf.printint n 10 1 = (if n <? 0 then [MINUS] else []) ++ rev (printint_digits 32 Cprintf.digits x 10)).
  { unfold Cprintf.printint. change (ctrue 1) with true. cbv zeta iota. destruct (Z.ltb_spec n 0) as [Hneg|Hpos].
    - destruct (num_str exp) as [|c s] eqn:E; [done|]. rewrite (set_cell_mid [] c s 0) by done.
      exists 1, (- n). unfold in_i32, INT_MIN, INT_MAX in *. split_and!; [done|lia|lia| |].
      + cbn. rewrite (i32_small (- n)) by (unfold_int; lia). done.
      + rewrite rev_app_distr, (u32_small (- n)) by lia. done.
    - exists 0, n. unfold in_i32, INT_MIN, INT_MAX in *. split_and!; [done|lia|lia|done|].
      by rewrite (u32_small n) by lia. }
  destruct Hb as (sg & x & Hsg & Hx & E1 & E2). rewrite E1. cbn [mbind option_bind].
  destruct (count_digits_run DIGITS_FUEL 32 x sg) as (k & Hk & E3 & E4); [unfold DIGITS_FUEL; lia|unfold DIGITS_FUEL; lia|].
  rewrite E2, E3, E4. replace (Z.to_nat (sg + Z.of_nat k - sg)) with k by lia.
  unfold INPUT_BUF, DIGITS_FUEL in *.
  set (pre := if n <? 0 then [MINUS] else []). set (o := length pre).
  assert (Ho : sg = Z.of_nat o /\ (o <= 1)%nat) by (unfold o, pre; rewrite Hsg; destruct (n <? 0); cbn; lia).
  set (cells := drop o (num_str exp)). assert (Hc : (length cells = 128 - o)%nat) by (unfold cells; rewrite length_drop; lia).
  replace (if n <? 0 then MINUS :: drop 1 (num_str exp) else num_str exp) with (pre ++ cells)
    by (unfold cells, o, pre; by destruct (n <? 0)).
  rewrite <- (take_drop k cells). rewrite put_digits_run;
    [|lia|rewrite length_take; lia|fold o; unfold ctrue; rewrite Hsg in *; destruct (n <? 0); cbn in *; lia].
  cbn [mbind option_bind]. exists (drop k cells). split.
  - f_equal. rewrite <- app_assoc. f_equal. rewrite length_app, length_rev, low_digits_length. fold o. lia.
  - rewrite length_app, length_rev, low_digits_length, length_drop. fold o. lia.
Qed.

(** ** An expression is found and solved *)

Definition digit (c : Z) : Prop := 48 <= c <= 57.

Lemma is_digit c : digit c -> __is_in_arr c nums = true.
Proof.
  unfold digit. intros Hc. assert (exists i, (i < 10)%nat /\ c = Z.of_nat i + 48) as (i & Hi & ->) by (exists (Z.to_nat (c - 48)); lia).
  do 10 (destruct i as [|i]; [reflexivity|]). lia.
Qed.
Lemma not_digit c : c <> 0 -> ~ digit c -> __is_in_arr c nums = false.
Proof.
  unfold digit. intros H0 Hc. unfold __is_in_arr, nums. cbn. repeat (apply orb_false_iff; split; try lia).
Qed.

(** The automaton run over a segment of the buffer that starts at [i]. *)
Fixpoint scan_all (seg : list Z) (i : Z) (x : scan) : scan :=
  match seg with
  | [] => x
  | c :: seg' => scan_all seg' (i + 1) (scan_char c i x)
  end.
(** It is not in state 5 before the end of the segment. *)
Fixpoint searching (seg : list Z) (i : Z) (x : scan) : Prop :=
  match seg with
  | [] => True
  | c :: seg' => sc_s x <> 5 /\ searching seg' (i + 1) (scan_char c i x)
  end.

Lemma scan_all_app s1 s2 i x : scan_all (s1 ++ s2) i x = scan_all s2 (i + Z.of_nat (length s1)) (scan_all s1 i x).
Proof.
  revert i x; induction s1 as [|c s1 IH]; intros i x; cbn [app scan_all length]; [by rewrite Z.add_0_r|].
  rewrite IH. f_equal. lia.
Qed.
Lemma searching_app s1 s2 i x :
  searching (s1 ++ s2) i x <-> searching s1 i x /\ searching s2 (i + Z.of_nat (length s1)) (scan_all s1 i x).
Proof.
  revert i x; induction s1 as [|c s1 IH]; intros i x; cbn [app searching scan_all length]; [by rewrite Z.add_0_r; tauto|].
  rewrite IH. replace (i + 1 + Z.of_nat (length s1)) with (i + Z.of_nat (S (length s1))) by lia. tauto.
Qed.

Lemma find_loop_run seg a b f c i x :
  i = Z.of_nat (length a) -> c <> 0 -> Forall (fun c => c <> 0) seg -> searching seg i x ->
  exists c', c' <> 0 /\ find_loop (length seg + f) c i x (a ++ seg ++ b) =
    find_loop f c' (i + Z.of_nat (length seg)) (scan_all seg i x) (a ++ seg ++ b).
Proof.
  revert a c i x; induction seg as [|d seg IH]; intros a c i x Hi Hc Hs Hx.
  { exists c. cbn. by rewrite Z.add_0_r. }
  apply Forall_cons in Hs as [Hd Hs]. destruct Hx as [H5 Hx]. cbn [length Nat.add find_loop scan_all].
  replace (c =? 0) with false by lia. rewrite (bind_eq _ _ _ _ _ (eq_refl : get _ = Ret _ _)).
  cbn [app]. rewrite cell_mid by done. rewrite (bind_eq _ _ _ d (a ++ d :: seg ++ b) eq_refl).
  replace (sc_s x =? 5) with false by lia.
  destruct (IH (a ++ [d]) d (i + 1) (scan_char d i x)) as (c' & Hc' & E); [rewrite length_app; cbn; lia|done..|].
  rewrite <- app_assoc in E. cbn [app] in E. exists c'. split; [done|]. rewrite E. f_equal. lia.
Qed.

Ltac scan_step := unfold scan_char; cbn [sc_s num1_start num1_end num2_end Z.eqb Pos.eqb].

(** Before the expression: nothing that is not a digit leaves state 0. *)
Lemma scan_pre pre i x :
  Forall (fun c => c <> 0 /\ ~ digit c) pre -> sc_s x = 0 -> scan_all pre i x = x /\ searching pre i x.
Proof.
  revert i; induction pre as [|c pre IH]; intros i Hp Hx; [done|]. apply Forall_cons in Hp as [[H0 Hd] Hp].
  cbn [scan_all searching]. assert (E : scan_char c i x = x).
  { unfold scan_char. rewrite Hx. cbn [Z.eqb]. by rewrite not_digit. }
  rewrite E. destruct (IH (i + 1) Hp Hx) as [-> ?]. split_and!; [done|lia|done].
Qed.
Lemma scan_num1 d i j a b :
  Forall digit d -> scan_all d i (mk_scan 1 a j b) = mk_scan 1 a (match d with [] => j | _ => i + Z.of_nat (length d) - 1 end) b /\
    searching d i (mk_scan 1 a j b).
Proof.
  revert i j; induction d as [|c d IH]; intros i j Hd; [done|]. apply Forall_cons in Hd as [Hc Hd].
  cbn [scan_all searching]. scan_step. rewrite is_digit by done. destruct (IH (i + 1) i Hd) as [-> ?].
  split; [|done]. f_equal. destruct d; cbn [length]; lia.
Qed.
Lemma scan_num2 d i j a b :
  Forall digit d -> scan_all d i (mk_scan 3 a b j) = mk_scan 3 a b (match d with [] => j | _ => i + Z.of_nat (length d) - 1 end) /\
    searching d i (mk_scan 3 a b j).
Proof.
  revert i j; induction d as [|c d IH]; intros i j Hd; [done|]. apply Forall_cons in Hd as [Hc Hd].
  cbn [scan_all searching]. scan_step. rewrite is_digit by done. destruct (IH (i + 1) i Hd) as [-> ?].
  split; [|done]. f_equal. destruct d; cbn [length]; lia.
Qed.

(** [c1 d1 op c2 d2 = ?] *)
Definition expression (d1 d2 : list Z) (op : Z) : list Z := d1 ++ op :: d2 ++ [61; 63].

Lemma scan_expression c1 d1 op c2 d2 i x :
  digit c1 -> digit c2 -> Forall digit d1 -> Forall digit d2 -> In op [43; 45; 42; 47] -> sc_s x = 0 ->
  scan_all (expression (c1 :: d1) (c2 :: d2) op) i x =
    mk_scan 5 i (i + Z.of_nat (length d1)) (i + Z.of_nat (length d1) + 2 + Z.of_nat (length d2)) /\
  searching (expression (c1 :: d1) (c2 :: d2) op) i x.
Proof.
  intros H1 H2 Hd1 Hd2 Hop Hx. destruct x as [s a b c]. cbn [sc_s] in Hx. subst s. unfold expression.
  cbn [app scan_all searching]. scan_step. rewrite is_digit by done. rewrite scan_all_app, searching_app.
  destruct (scan_num1 d1 (i + 1) i i c Hd1) as [-> S1]. cbn [scan_all searching]. scan_step.
  assert (Eo : __is_in_arr op nums = false /\ __is_in_arr op ops = true)
    by (destruct Hop as [<-|[<-|[<-|[<-|[]]]]]; by vm_compute).
  destruct Eo as [-> ->]. cbn [sc_s]. scan_step. rewrite is_digit by done. rewrite scan_all_app, searching_app.
  set (p := i + 1 + Z.of_nat (length d1) + 1).
  destruct (scan_num2 d2 (p + 1) p i (match d1 with [] => i | _ => i + 1 + Z.of_nat (length d1) - 1 end) Hd2) as [-> S2].
  cbn [scan_all searching]. scan_step. change (__is_in_arr 61 nums) with false. cbn [sc_s]. scan_step.
  split; [|split_and!; try done; lia].
  f_equal; unfold p; [destruct d1; cbn [length]; lia|destruct d2; cbn [length]; lia].
Qed.

Lemma i32_step r k : i32 (10 * i32 r + k) = i32 (r * 10 + k).
Proof.
  unfold i32. f_equal. pose proof (Z.div_mod (r + 2 ^ 31) (2 ^ 32)) as Hd. set (q := (r + 2 ^ 31) / 2 ^ 32) in *.
  replace (10 * ((r + 2 ^ 31) mod 2 ^ 32 - 2 ^ 31) + k + 2 ^ 31) with (r * 10 + k + 2 ^ 31 + (- 10 * q) * 2 ^ 32) by lia.
  apply Z_mod_plus_full.
Qed.

Lemma char_to_int_run d a b k base i r :
  base + i = Z.of_nat (length a) -> k = length d -> Forall digit d ->
  char_to_int_loop k base i (i32 r) (a ++ d ++ b) = Ret (i32 (fold_left (fun n c => n * 10 + hexval c) d r)) (a ++ d ++ b).
Proof.
  revert a k i r; induction d as [|c d IH]; intros a k i r Ha -> Hd; [done|]. apply Forall_cons in Hd as [Hc Hd].
  cbn [length char_to_int_loop app fold_left]. rewrite (bind_eq _ _ _ _ _ (eq_refl : get _ = Ret _ _)).
  rewrite cell_mid by done. rewrite (bind_eq _ _ _ c (a ++ c :: d ++ b) eq_refl).
  specialize (IH (a ++ [c]) (length d) (i + 1) (r * 10 + hexval c)). rewrite <- app_assoc in IH. cbn [app] in IH.
  rewrite <- IH; [|rewrite length_app; cbn; lia|done|done]. unfold digit in Hc. unfold hexval.
  replace ((48 <=? c) && (c <=? 57)) with true by lia. f_equal. rewrite <- !Z.add_sub_assoc. apply i32_step.
Qed.

Lemma char_to_int_denote d a b base n :
  base = Z.of_nat (length a) -> n + 1 = Z.of_nat (length d) -> Forall digit d ->
  __char_to_int base n (a ++ d ++ b) = Ret (i32 (denote 10 d)) (a ++ d ++ b).
Proof. intros Hb Hn Hd. unfold __char_to_int. change 0 with (i32 0) at 2. apply char_to_int_run; [lia|lia|done]. Qed.

Lemma clear_from_run k i (a b : list Z) :
  i = Z.of_nat (length a) -> k = length b -> clear_from k i (a ++ b) = Some (a ++ replicate k 0).
Proof.
  revert i a b; induction k as [|k IH]; intros i a b Hi Hk; cbn [clear_from replicate].
  { by destruct b. }
  destruct b as [|x b]; [done|]. rewrite set_cell_mid by done. cbn [mbind option_bind].
  change (i8 0) with 0. specialize (IH (i + 1) (a ++ [0]) b). rewrite <- !app_assoc in IH. apply IH; [rewrite length_app; cbn; lia|].
  cbn in Hk. lia.
Qed.

(** What [+], [-] and [*] compute. *)
Definition apply_op (op n1 n2 : Z) : Z :=
  if op =? 43 then n1 + n2 else if op =? 45 then n1 - n2 else n1 * n2.

Lemma solve_exp_run a d1 d2 op b :
  Forall digit d1 -> Forall digit d2 -> d1 <> [] -> d2 <> [] -> In op [43; 45; 42] ->
  in_i32 (denote 10 d1) -> in_i32 (denote 10 d2) ->
  let n := apply_op op (denote 10 d1) (denote 10 d2) in
  in_i32 n -> n <> INT_MIN ->
  let buf := a ++ expression d1 d2 op ++ b in
  let s := Cprintf.printint n 10 1 in
  __solve_exp (Z.of_nat (length a)) (Z.of_nat (length d1) - 1) (Z.of_nat (length d1) + Z.of_nat (length d2)) buf =
    Ret (mk_exp (s ++ replicate (INPUT_BUF - length s) 0) n (Z.of_nat (length s)) 0
      (Z.of_nat (length (expression d1 d2 op))) 1) buf.
Proof.
  intros Hd1 Hd2 H1 H2 Hop I1 I2 n Hn Hm buf s. unfold __solve_exp.
  assert (L1 : (0 < length d1)%nat) by (destruct d1; [done|cbn; lia]).
  assert (E1 : buf = a ++ d1 ++ (op :: d2 ++ [61; 63] ++ b)) by (unfold buf, expression; rewrite <- !app_assoc; cbn; by rewrite <- app_assoc).
  assert (E2 : buf = (a ++ d1 ++ [op]) ++ d2 ++ ([61; 63] ++ b)) by (rewrite E1, <- !app_assoc; done).
  assert (E3 : buf = (a ++ d1) ++ op :: (d2 ++ [61; 63] ++ b)) by (rewrite E1, <- !app_assoc; done).
  rewrite (bind_eq _ _ _ (denote 10 d1) buf), (bind_eq _ _ _ (denote 10 d2) buf).
  2:{ rewrite E2, char_to_int_denote by (done || (rewrite ?length_app; cbn [length]; lia)). by rewrite i32_small. }
  2:{ rewrite E1, char_to_int_denote by (done || lia). by rewrite i32_small. }
  rewrite (bind_eq get _ buf buf buf eq_refl). rewrite (bind_eq _ _ _ op buf).
  2:{ rewrite E3, cell_mid; [done|]. rewrite length_app. lia. }
  set (x := mk_exp (num_str exp0) n 0 0 (Z.of_nat (length d1) + Z.of_nat (length d2) + 2 + 1) 1).
  destruct (int_to_char_run n x Hn Hm) as (rest & Er & Hr); [apply length_replicate|].
  rewrite (bind_eq _ _ _ (set_num (s ++ rest) (Z.of_nat (length s)) x) buf).
  2:{ transitivity (of_option OutOfBounds (__int_to_char n x) buf); [|by rewrite Er].
      unfold x, n in *. clear - Hop Hn. destruct Hop as [<-|[<-|[<-|[]]]]; unfold apply_op in *; cbn [Z.eqb Pos.eqb] in *;
      cbv zeta; by rewrite (i32_small _ Hn). }
  cbn [num_size num_str set_num]. fold s in Hr. rewrite (bind_eq _ _ _ (s ++ replicate (INPUT_BUF - length s) 0) buf).
  - unfold mret, M_MRet, M_ret. do 2 f_equal. cbn [num_float set_num exp_size x]. unfold set_num, expression. cbn. f_equal.
    rewrite !length_app. cbn [length]. rewrite length_app. cbn. lia.
  - replace (Z.to_nat _) with (INPUT_BUF - length s)%nat by lia. by rewrite clear_from_run by (done || lia).
Qed.


(** [ls 12+30=?] *)
Definition demo_expr : list Z := bytes_of_string "ls " ++ expression [49; 50] [51; 48] 43 ++ replicate 118 0.


(** A quotient below 0.1 has no digit to put the decimal point before: the digit is
    read from, and the point written to, the byte before [num_str]. *)
Theorem small_quotient_out_of_bounds :
  let buf := bytes_of_string "1/20=?" ++ replicate 122 0 in
  __find_expression buf = Fault OutOfBounds buf.
Proof. vm_compute. reflexivity. Qed.

(** A division by zero converts an infinity to an [int]. *)
Theorem division_by_zero_undefined :
  let buf := bytes_of_string "5/0=?" ++ replicate 123 0 in
  __find_expression buf = Fault Overflow buf.
Proof. vm_compute. reflexivity. Qed.
