(* ===== verification/Console.v ===== *)
(** The console driver ([console.c]): the CGA screen, the line being typed with its
    editing keys, the history, and the device's read and write.

    The state is a [guarded console], the lock being [cons.lock].  Keys come from a
    list, what [getc] will deliver; [getc] gives -1 when it is used up.  [crt] is
    the video memory, [cursor] the sixteen bits of the cursor register, [uart] the
    bytes sent on the serial line. *)

From S2P Require Import Prelude CString Printf Locks Guarded Expr.

(** [struct _buffer]. *)
Record _buffer := mk_buffer { i_buf : list Z; i_r : Z; i_w : Z; i_e : Z }.

Record console := mk_console {
  input : _buffer;
  _history : list _buffer;
  _current_history : Z;
  _last_history : Z;
  _arrow : Z;
  cursor : Z;
  crt : Z -> Z;
  uart : list Z;
  panicked : bool;
  locking : bool;
  dst : list Z }.

Definition set_input (v : _buffer) (c : console) : console :=
  mk_console v (_history c) (_current_history c) (_last_history c) (_arrow c) (cursor c) (crt c) (uart c) (panicked c) (locking c) (dst c).
Definition set_history (h : list _buffer) (cur last : Z) (c : console) : console :=
  mk_console (input c) h cur last (_arrow c) (cursor c) (crt c) (uart c) (panicked c) (locking c) (dst c).
Definition set_arrow (v : Z) (c : console) : console :=
  mk_console (input c) (_history c) (_current_history c) (_last_history c) v (cursor c) (crt c) (uart c) (panicked c) (locking c) (dst c).
Definition set_screen (p : Z) (s : Z -> Z) (c : console) : console :=
  mk_console (input c) (_history c) (_current_history c) (_last_history c) (_arrow c) p s (uart c) (panicked c) (locking c) (dst c).
Definition set_uart (v : list Z) (c : console) : console :=
  mk_console (input c) (_history c) (_current_history c) (_last_history c) (_arrow c) (cursor c) (crt c) v (panicked c) (locking c) (dst c).
Definition set_panicked (v lk : bool) (c : console) : console :=
  mk_console (input c) (_history c) (_current_history c) (_last_history c) (_arrow c) (cursor c) (crt c) (uart c) v lk (dst c).
Definition set_dst (v : list Z) (c : console) : console :=
  mk_console (input c) (_history c) (_current_history c) (_last_history c) (_arrow c) (cursor c) (crt c) (uart c) (panicked c) (locking c) v.

Definition set_i_buf (v : list Z) (b : _buffer) : _buffer := mk_buffer v (i_r b) (i_w b) (i_e b).
Definition set_r (v : Z) (b : _buffer) : _buffer := mk_buffer (i_buf b) (u32 v) (i_w b) (i_e b).
Definition set_w (v : Z) (b : _buffer) : _buffer := mk_buffer (i_buf b) (i_r b) (u32 v) (i_e b).
Definition set_e (v : Z) (b : _buffer) : _buffer := mk_buffer (i_buf b) (i_r b) (i_w b) (u32 v).

(** [C('x')], and the keys that are not characters. *)
Definition C (x : Z) : Z := x - 64.
Definition _UP_ARROW : Z := 226.
Definition _DOWN_ARROW : Z := 227.
Definition _LEFT_ARROW : Z := 228.
Definition _RIGHT_ARROW : Z := 229.
Definition BACKSPACE : Z := 256.
Definition ___BACKSPACE : Z := 8.
Definition _N_HISTORY : Z := 11.
Definition NL : Z := 10.

(** [_MOD(a+k,_N_HISTORY)]: the macro's argument is not parenthesised, so the
    first remainder is of [k] alone; and [_MOD(a,_N_HISTORY)]. *)
Definition _MOD_plus (a k : Z) : Z := Z.rem (a + Z.rem k _N_HISTORY + _N_HISTORY) _N_HISTORY.
Definition _MOD_minus (a k : Z) : Z := Z.rem (a - Z.rem k _N_HISTORY + _N_HISTORY) _N_HISTORY.
Definition _MOD (a : Z) : Z := Z.rem (Z.rem a _N_HISTORY + _N_HISTORY) _N_HISTORY.

Section Console.
(** [me] is the CPU that runs the code. *)
Context (me : nat).
Notation K := (M (guarded console)).

Definition in_ (f : _buffer -> _buffer) : K unit := g_mod (fun c => set_input (f (input c)) c).

(** [input.buf[i]] and [input.buf[i] = v]. *)
Definition buf_get (i : Z) : K Z := c ← g_get; of_option OutOfBounds (cell (i_buf (input c)) i).
Definition buf_set (i v : Z) : K unit :=
  c ← g_get;
  b ← of_option OutOfBounds (set_cell (i_buf (input c)) i v);
  in_ (set_i_buf b).

(** The two bytes of the cursor position are read and written through the port. *)
Definition _get_cursor_pos : K Z := c ← g_get; mret (cursor c).
Definition _update_cursor (pos symbol : Z) : K unit :=
  g_mod (fun c => set_screen (u16 pos) (crt c) c) ;;
  when (ctrue symbol)
    (if (pos <? 0) || (pos >=? 16384) then faults OutOfBounds
     else g_mod (fun c => set_screen (cursor c) (fun i => if i =? pos then Z.lor symbol 1792 else crt c i) c)).

Definition cgaputc (c : Z) : K unit :=
  pos ← _get_cursor_pos;
  pos ← (if c =? NL then mret (pos + (80 - Z.rem pos 80))
         else if c =? BACKSPACE then mret (if pos >? 0 then pos - 1 else pos)
         else if pos >=? 16384 then faults OutOfBounds
         else
           g_mod (fun x => set_screen (cursor x) (fun i => if i =? pos then Z.lor (Z.land c 255) 1792 else crt x i) x) ;;
           mret (pos + 1));
  if (pos <? 0) || (pos >? 2000) then panic "pos under/overflow"
  else
    pos ← (if Z.quot pos 80 >=? 24 then
             g_mod (fun x => set_screen (cursor x) (fun i => if (0 <=? i) && (i <? 1840) then crt x (i + 80) else crt x i) x) ;;
             let pos := pos - 80 in
             g_mod (fun x => set_screen (cursor x) (fun i => if (pos <=? i) && (i <? 1920) then 0 else crt x i) x) ;;
             mret pos
           else mret pos);
    _update_cursor pos 32.

(** [uartputc], once the line is ready. *)
Definition uartputc (c : Z) : K unit := g_mod (fun x => set_uart (uart x ++ [u8 c]) x).

Definition consputc (c : Z) : K unit :=
  x ← g_get;
  if panicked x then faults Spinning
  else
    (if c =? BACKSPACE then uartputc 8 ;; uartputc 32 ;; uartputc 8 else uartputc c) ;;
    cgaputc c.

Fixpoint putcs (l : list Z) : K unit :=
  match l with
  | [] => mret tt
  | c :: l' => consputc c ;; putcs l'
  end.

(** [cprintf] on the console: the characters of [Cprintf.cprintf], under the lock. *)
Definition cons_cprintf (fmt : list Z) (args : list varg) : K unit :=
  x ← g_get;
  let lk := locking x in
  when lk (g_acquire me) ;;
  out ← of_option NullDeref (Cprintf.cprintf fmt args);
  putcs out ;;
  when lk (g_release me).

Fixpoint print_pcs (pcs : list Z) : K unit :=
  match pcs with
  | [] => mret tt
  | p :: pcs' => cons_cprintf (bytes_of_string " %p") [AInt p] ;; print_pcs pcs'
  end.

(** [panic] up to its endless loop; [lapicid] and [pcs] come from the hardware. *)
Definition cons_panic (lapicid : Z) (s : list Z) (pcs : list Z) : K unit :=
  modify (fun g => mk_g (mk_cpu (ncli (g_cpu g)) (intena (g_cpu g)) false) (g_lk g) (g_val g) (g_wakes g)) ;;
  g_mod (fun x => set_panicked (panicked x) false x) ;;
  cons_cprintf (bytes_of_string "lapicid %d: panic: ") [AInt lapicid] ;;
  cons_cprintf s [] ;;
  cons_cprintf [NL] [] ;;
  print_pcs pcs ;;
  g_mod (fun x => set_panicked true (locking x) x).

(** [for (int i = 0; i < INPUT_BUF; i++)] over [k] more cells. *)
Fixpoint write_loop (k : nat) (i : Z) : K unit :=
  match k with
  | O => mret tt
  | S k' =>
      c ← buf_get i;
      if (c =? NL) || (c =? 0) then mret tt
      else consputc c ;; write_loop k' (i + 1)
  end.
Definition _write_from_buffer : K unit :=
  write_loop INPUT_BUF 0 ;;
  in_ (set_w 0) ;;
  in_ (set_r 0).

Fixpoint backspaces (k : nat) : K unit :=
  match k with
  | O => mret tt
  | S k' => consputc BACKSPACE ;; backspaces k'
  end.
Definition ___clear_cmd (end_ : Z) : K unit :=
  pos ← _get_cursor_pos;
  x ← g_get;
  _update_cursor (pos - _arrow x) 0 ;;
  backspaces (Z.to_nat (u32 (end_ - i_w (input x)))).

Definition hist_at (x : console) (i : Z) : option _buffer := if i <? 0 then None else _history x !! Z.to_nat i.

(** The part of [_arrow_key_console_handler] for the up and down arrows. *)
Definition history_key (c : Z) : K unit :=
  x ← g_get;
  let cur := _current_history x in
  let last := _last_history x in
  stop ← (if c =? _UP_ARROW then
            h ← of_option OutOfBounds (hist_at x (_MOD_minus cur 1));
            c0 ← of_option OutOfBounds (cell (i_buf h) 0);
            mret ((c0 =? 0) || (_MOD_minus cur 1 =? _MOD last))
          else if c =? _DOWN_ARROW then mret (_MOD_plus cur 1 =? _MOD_plus last 1)
          else mret false);
  if (stop : bool) then mret tt
  else
    buf_set (i_e (input x)) NL ;;
    ___clear_cmd (i_e (input x)) ;;
    g_mod (set_arrow 0) ;;
    in_ (fun b => set_e (i_e b + 1) b) ;;
    in_ (fun b => set_w (i_e b) b) ;;
    x ← g_get;
    when (_MOD cur =? _MOD last)
      (if _MOD cur <? 0 then faults OutOfBounds
       else g_mod (set_history (<[Z.to_nat (_MOD cur) := input x]> (_history x)) cur last)) ;;
    let cur := if c =? _UP_ARROW then cur - 1 else cur + 1 in
    x ← g_get;
    g_mod (set_history (_history x) cur last) ;;
    h ← of_option OutOfBounds (hist_at x (_MOD cur));
    in_ (fun _ => h) ;;
    in_ (fun b => set_e (i_e b - 1) b) ;;
    _write_from_buffer.

Definition _arrow_key_console_handler (c : Z) : K unit :=
  pos ← _get_cursor_pos;
  x ← g_get;
  if c =? _LEFT_ARROW then
    when (u32 (- _arrow x) <? i_e (input x))
      (g_mod (set_arrow (_arrow x - 1)) ;; _update_cursor (pos - 1) 0)
  else if c =? _RIGHT_ARROW then
    when (ctrue (_arrow x))
      (g_mod (set_arrow (_arrow x + 1)) ;; _update_cursor (pos + 1) 0)
  else history_key c.

(** The two loops of [___shift_buf], [k] steps from [i]. *)
Fixpoint shift_right (k : nat) (i : Z) : K unit :=
  match k with
  | O => mret tt
  | S k' => c ← buf_get (Z.rem (i - 1) 128); buf_set (Z.rem i 128) c ;; shift_right k' (i - 1)
  end.
Fixpoint shift_left (k : nat) (i : Z) : K unit :=
  match k with
  | O => mret tt
  | S k' => c ← buf_get (Z.rem (i + 1) 128); buf_set (Z.rem i 128) c ;; shift_left k' (i + 1)
  end.
Definition ___shift_buf (right_flag change_idx : Z) : K unit :=
  x ← g_get;
  let e := i_e (input x) in
  if ctrue right_flag then
    shift_right (Z.to_nat (i32 e - change_idx)) (i32 e) ;;
    in_ (fun b => set_e (i_e b + 1) b)
  else
    shift_left (if change_idx - 1 <? 0 then 0 else Z.to_nat (e - (change_idx - 1))) (change_idx - 1) ;;
    in_ (fun b => set_e (i_e b - 1) b).

Definition ___update_buffer (c change_idx : Z) : K unit :=
  if c <=? 0 then mret tt
  else if (c =? BACKSPACE) || (c =? ___BACKSPACE) then ___shift_buf 0 change_idx
  else ___shift_buf 1 change_idx ;; buf_set (Z.rem change_idx 128) c.

Definition _input_in_mid (c : Z) : K unit :=
  pos ← _get_cursor_pos;
  x ← g_get;
  let change_index := i32 (i_e (input x) + _arrow x) in
  if (c =? BACKSPACE) || (c =? ___BACKSPACE) then
    if u32 (_arrow x) <=? u32 (- i_e (input x)) then mret tt
    else
      ___update_buffer c change_index ;;
      x ← g_get;
      ___clear_cmd (i_e (input x) + 1) ;;
      _write_from_buffer ;;
      _update_cursor (pos - 1) 0
  else
    ___update_buffer c change_index ;;
    x ← g_get;
    ___clear_cmd (i_e (input x) - 1) ;;
    _write_from_buffer ;;
    _update_cursor (pos + 1) 0.

(** The string at the start of a buffer. *)
Fixpoint c_string (l : list Z) : option (list Z) :=
  match l with
  | [] => None
  | c :: l' => if c =? 0 then Some [] else cons c <$> c_string l'
  end.

(** The history list: [k] more entries from [i]. *)
Fixpoint history_loop (k : nat) (i : Z) : K unit :=
  match k with
  | O => mret tt
  | S k' =>
      x ← g_get;
      h ← of_option OutOfBounds (hist_at x (_MOD_minus (_current_history x - i) 1));
      c0 ← of_option OutOfBounds (cell (i_buf h) 0);
      if c0 =? 0 then mret tt
      else
        t ← of_option OutOfBounds (c_string (i_buf h));
        cons_cprintf (bytes_of_string "*%d: %s") [AInt (i + 1); AStr (u8 <$> t)] ;;
        history_loop k' (i + 1)
  end.
Definition _history_command : K unit :=
  g_release me ;;
  cons_cprintf (bytes_of_string "Command history:" ++ [NL]) [] ;;
  cons_cprintf (replicate 79 45 ++ [NL]) [] ;;
  history_loop (Z.to_nat (_N_HISTORY - 1)) 0 ;;
  cons_cprintf ([NL] ++ bytes_of_string "$ ") [] ;;
  g_acquire me.

(** [while(target_str[i++]!='\0') if (input.buf[i]!=target_str[i]) return 1]: the
    first character is not compared, the final NUL is.  [t] is the rest of
    [target_str] from [i] on. *)
Fixpoint str_cmp_loop (t : list Z) (i : Z) : K Z :=
  match t with
  | [] => mret 0
  | c :: t' =>
      if c =? 0 then mret 0
      else
        b ← buf_get (i + 1);
        if negb (b =? hd 0 t') then mret 1 else str_cmp_loop t' (i + 1)
  end.
Definition _buffer_with_str_cmp (target_str : list Z) : K Z := str_cmp_loop target_str 0.

Definition _handle_custom_commands : K unit :=
  r ← _buffer_with_str_cmp (bytes_of_string "history" ++ [NL; 0]);
  when (r =? 0) (_history_command ;; in_ (fun b => set_e 0 (set_w 0 (set_r 0 b)))).

Definition __find_exp : K (option __exp_found) :=
  zoom (fun g => i_buf (input (g_val g))) (fun _ g => g) __find_expression.

(** Loops over ranges of the buffer, [k] cells from [i]. *)
Fixpoint clear_range (k : nat) (i : Z) : K unit :=
  match k with
  | O => mret tt
  | S k' => buf_set i 0 ;; clear_range k' (i + 1)
  end.
Definition ___clear_buf_with_range (start exp_size : Z) : K unit := clear_range (Z.to_nat exp_size) start.
Fixpoint put_num (num : list Z) (k : nat) (i start : Z) : K unit :=
  match k with
  | O => mret tt
  | S k' => c ← of_option OutOfBounds (cell num (i - start)); buf_set i c ;; put_num num k' (i + 1) start
  end.
Definition ___put_num_in_buf (num : list Z) (num_size start : Z) : K unit :=
  put_num num (Z.to_nat num_size) start start.
Fixpoint shift_many (k : nat) (i change_idx : Z) : K unit :=
  match k with
  | O => mret tt
  | S k' => ___shift_buf 0 (change_idx - i) ;; shift_many k' (i + 1) change_idx
  end.
Definition ___shift_buf_many_times (shift_count change_idx : Z) : K unit :=
  shift_many (Z.to_nat shift_count) 0 change_idx.

(** What follows every key, in [consoleintr] and in [___handle_ctrl_s]: an
    expression in the line is replaced by its value. *)
Definition solve_line : K unit :=
  r ← __find_exp;
  match r with
  | None => mret tt
  | Some exp =>
      x ← g_get;
      let prev_e := i32 (i_e (input x)) in
      pos ← _get_cursor_pos;
      let line_start := pos - _arrow x - prev_e in
      ___clear_buf_with_range (start_exp_idx exp) (exp_size exp) ;;
      ___put_num_in_buf (num_str exp) (num_size exp) (start_exp_idx exp) ;;
      ___shift_buf_many_times (exp_size exp - num_size exp) (start_exp_idx exp + exp_size exp) ;;
      g_mod (fun x => set_arrow (i32 (start_exp_idx exp + num_size exp - i_e (input x))) x) ;;
      _update_cursor (line_start + start_exp_idx exp + exp_size exp) 0 ;;
      ___clear_cmd prev_e ;;
      _write_from_buffer ;;
      _update_cursor (line_start + start_exp_idx exp + num_size exp) 0
  end.

(** [___inputs_idx], the cells typed since ^S. *)
Fixpoint idx_down (k : nat) (i : Z) (idx : list Z) : option (list Z) :=
  match k with
  | O => Some idx
  | S k' => c ← cell idx (i + 1); idx' ← set_cell idx i c; idx_down k' (i + 1) idx'
  end.
Fixpoint idx_up (k : nat) (i : Z) (idx : list Z) : option (list Z) :=
  match k with
  | O => Some idx
  | S k' => c ← cell idx (i - 1); idx' ← set_cell idx i c; idx_up k' (i - 1) idx'
  end.

(** One key of [___handle_ctrl_s]'s loop, before [solve_line]. *)
Definition ctrl_s_key (c : Z) (idx : list Z) : K (list Z) :=
  x ← g_get;
  let e := i_e (input x) in
  if (c =? ___BACKSPACE) && (_arrow x =? 0) then
    in_ (set_e (e - 1)) ;;
    buf_set (u32 (e - 1)) 0 ;;
    consputc BACKSPACE ;;
    v ← of_option OutOfBounds (cell idx (u32 (e - 1)));
    if v =? 1 then of_option OutOfBounds (set_cell idx (u32 (e - 1)) 0) else mret idx
  else if (c =? _LEFT_ARROW) || (c =? _RIGHT_ARROW) then
    _arrow_key_console_handler c ;; mret idx
  else if u32 (e - i_r (input x)) <? 128 then
    let c := if c =? 13 then NL else c in
    if _arrow x =? 0 then
      idx ← of_option OutOfBounds (set_cell idx e 1);
      buf_set (e mod 128) c ;;
      in_ (set_e (e + 1)) ;;
      consputc c ;;
      mret idx
    else
      _input_in_mid c ;;
      x ← g_get;
      let p := u32 (i_e (input x) + _arrow x - 1) in
      if (c =? BACKSPACE) || (c =? ___BACKSPACE) then
        of_option OutOfBounds (idx_down (Z.to_nat (127 - i32 p)) (i32 p) idx)
      else
        idx ← of_option OutOfBounds (idx_up (Z.to_nat (127 - p)) 127 idx);
        of_option OutOfBounds (set_cell idx p 1)
  else mret idx.

(** The keys up to ^F; without one the loop polls for ever. *)
Fixpoint ctrl_s_loop (keys : list Z) (idx : list Z) : K (list Z * list Z) :=
  match keys with
  | [] => faults Spinning
  | c :: keys' =>
      if c =? C 70 (* 'F' *) then mret (keys', idx)
      else if (c <=? 0) || (c =? _UP_ARROW) || (c =? _DOWN_ARROW) || (c =? C 83) (* 'S' *) then ctrl_s_loop keys' idx
      else
        idx ← ctrl_s_key c idx;
        solve_line ;;
        ctrl_s_loop keys' idx
  end.

(** The second copy of the cells marked in [idx]. *)
Fixpoint paste_loop (copy idx : list Z) (change_idx : Z) : K unit :=
  match copy, idx with
  | c :: copy', m :: idx' =>
      if m =? 1 then ___update_buffer c change_idx ;; paste_loop copy' idx' (change_idx + 1)
      else paste_loop copy' idx' change_idx
  | _, _ => mret tt
  end.

(** Returns the keys not yet read. *)
Definition ___handle_ctrl_s (keys : list Z) : K (list Z) :=
  r ← ctrl_s_loop keys (replicate INPUT_BUF 0);
  let '(keys, idx) := r in
  g_release me ;;
  x ← g_get;
  let current_e := i32 (i_e (input x)) in
  paste_loop (i_buf (input x)) idx (current_e + _arrow x) ;;
  ___clear_cmd current_e ;;
  _write_from_buffer ;;
  g_acquire me ;;
  mret keys.

(** ^U: [while(input.e != input.w && input.buf[(input.e-1) % INPUT_BUF] != '\n')]. *)
Fixpoint kill_line (fuel : nat) : K unit :=
  match fuel with
  | O => faults OutOfFuel
  | S f =>
      x ← g_get;
      let e := i_e (input x) in
      if e =? i_w (input x) then mret tt
      else
        c ← buf_get (u32 (e - 1) mod 128);
        if c =? NL then mret tt
        else in_ (set_e (e - 1)) ;; consputc BACKSPACE ;; kill_line f
  end.
(** [e - w] is at most the size of the buffer. *)
Definition KILL_FUEL : nat := 129.

Definition default_key (c : Z) : K unit :=
  x ← g_get;
  when (negb (c =? 0) && (u32 (i_e (input x) - i_r (input x)) <? 128))
    (let c := if c =? 13 then NL else c in
     when (c =? NL) (g_mod (set_arrow 0)) ;;
     x ← g_get;
     (if _arrow x =? 0 then
        buf_set (i_e (input x) mod 128) c ;;
        in_ (fun b => set_e (i_e b + 1) b) ;;
        consputc c
      else _input_in_mid c) ;;
     x ← g_get;
     when ((c =? NL) || (c =? C 68) (* 'D' *) || (i_e (input x) =? u32 (i_r (input x) + 128)))
       (in_ (fun b => set_w (i_e b) b) ;;
        g_wakeup CInput ;;
        _handle_custom_commands)).

(** One key of [consoleintr]'s loop, with the keys after it; returns [doprocdump]
    and the keys not yet read. *)
Definition console_key (c : Z) (keys : list Z) (doprocdump : bool) : K (bool * list Z) :=
  r ← (if c =? C 80 (* 'P' *) then mret (true, keys)
       else if c =? C 85 (* 'U' *) then kill_line KILL_FUEL ;; mret (doprocdump, keys)
       else if (c =? C 72) (* 'H' *) || (c =? 127) then
         x ← g_get;
         when (negb (i_e (input x) =? i_w (input x)))
           (if _arrow x =? 0 then
              in_ (fun b => set_e (i_e b - 1) b) ;;
              buf_set (u32 (i_e (input x) - 1)) 0 ;;
              consputc BACKSPACE
            else _input_in_mid BACKSPACE) ;;
         mret (doprocdump, keys)
       else if (c =? _LEFT_ARROW) || (c =? _RIGHT_ARROW) || (c =? _UP_ARROW) || (c =? _DOWN_ARROW) then
         _arrow_key_console_handler c ;; mret (doprocdump, keys)
       else if c =? C 83 (* 'S' *) then
         keys ← ___handle_ctrl_s keys;
         pos ← _get_cursor_pos;
         x ← g_get;
         _update_cursor (pos + _arrow x) 0 ;;
         mret (doprocdump, keys)
       else default_key c ;; mret (doprocdump, keys));
  solve_line ;;
  mret r.

Fixpoint consoleintr_loop (fuel : nat) (keys : list Z) (doprocdump : bool) : K bool :=
  match fuel with
  | O => faults OutOfFuel
  | S f =>
      match keys with
      | [] => mret doprocdump
      | c :: keys' =>
          if c <? 0 then mret doprocdump
          else
            r ← console_key c keys' doprocdump;
            consoleintr_loop f (snd r) (fst r)
      end
  end.

(** Returns whether [procdump] is called at the end, after the lock is released. *)
Definition consoleintr (keys : list Z) : K bool :=
  g_acquire me ;;
  d ← consoleintr_loop (S (length keys)) keys false;
  g_release me ;;
  mret d.

(** The loop of [consoleread] with [n] bytes still wanted of [target]; [dst] grows.
    A sleeping reader resumes with the [n] it slept with. *)
Fixpoint consoleread_loop (k : nat) (n target : Z) (killed : bool) : K Z :=
  match k with
  | O => mret n
  | S k' =>
      x ← g_get;
      if i_r (input x) =? i_w (input x) then
        if killed then mret (target + 1) else g_sleep me CInput n
      else
        c ← buf_get (i_r (input x) mod 128);
        in_ (fun b => set_r (i_r b + 1) b) ;;
        if c =? C 68 then
          when (n <? target) (in_ (fun b => set_r (i_r b - 1) b)) ;;
          mret n
        else
          g_mod (fun x => set_dst (dst x ++ [c]) x) ;;
          let n := n - 1 in
          if c =? NL then
            x ← g_get;
            let last := _last_history x in
            (if _MOD last <? 0 then faults OutOfBounds
             else g_mod (set_history (<[Z.to_nat (_MOD last) := input x]> (_history x)) (last + 1) (last + 1))) ;;
            in_ (fun _ => mk_buffer (replicate INPUT_BUF 0) 0 0 0) ;;
            mret n
          else consoleread_loop k' n target killed
  end.
(** [iunlock(ip)] and [ilock(ip)] around it concern the file system's inode. *)
Definition consoleread_from (n target : Z) (killed : bool) : K Z :=
  g_acquire me ;;
  n ← consoleread_loop (Z.to_nat n) n target killed;
  g_release me ;;
  mret (target - n).
Definition consoleread (n : Z) (killed : bool) : K Z :=
  g_mod (set_dst []) ;;
  consoleread_from n n killed.

Fixpoint write_chars (l : list Z) : K unit :=
  match l with
  | [] => mret tt
  | c :: l' => consputc (Z.land c 255) ;; write_chars l'
  end.
Definition consolewrite (buf : list Z) : K Z :=
  g_acquire me ;;
  write_chars buf ;;
  g_release me ;;
  mret (Z.of_nat (length buf)).
End Console.

(** At boot all the variables are zero; [consoleinit] sets [locking]. *)
Definition buffer0 : _buffer := mk_buffer (replicate INPUT_BUF 0) 0 0 0.
Definition consoleinit : guarded console :=
  mk_g (mk_cpu 0 false true) Spinlock.initlock
    (mk_console buffer0 (replicate 11 buffer0) 0 0 0 0 (fun _ => 0) [] false true []) [].
