(* ===== verification/LineEdit.v ===== *)
(** Line editing on the console: a session of typing, erasing and moving the cursor
    leaves in the input buffer, and on the screen, the line an abstract editor
    produces, and [consoleread] then delivers that line. *)

From S2P Require Import Prelude CString Printf Locks Guarded Expr Console.

(** ** Reasoning about the driver's routines

    [does m x Q]: with the console in state [x], [m] returns, and [Q] holds of the
    result and the new state; the lock and the CPU are left alone. *)

Definition putv (x : console) (g : guarded console) : guarded console := mk_g (g_cpu g) (g_lk g) x (g_wakes g).
Definition does {A} (m : M (guarded console) A) (x : console) (Q : A -> console -> Prop) : Prop :=
  forall g, g_val g = x -> exists a x', m g = Ret a (putv x' g) /\ Q a x'.

Lemma putv_same g : putv (g_val g) g = g.
Proof. by destruct g. Qed.

Lemma does_ret {A} (a : A) x (Q : A -> console -> Prop) : Q a x -> does (mret a) x Q.
Proof. intros H g Hg. exists a, x. split; [|done]. rewrite <- Hg, putv_same. done. Qed.
Lemma does_get x (Q : console -> console -> Prop) : Q x x -> does g_get x Q.
Proof. intros H g Hg. exists x, x. split; [|done]. rewrite <- Hg at 2. rewrite putv_same. by rewrite <- Hg. Qed.
Lemma does_mod f x (Q : unit -> console -> Prop) : Q tt (f x) -> does (g_mod f) x Q.
Proof. intros H g Hg. exists tt, (f x). split; [|done]. by rewrite <- Hg. Qed.
Lemma does_bind {A B} (m : M (guarded console) A) (f : A -> M (guarded console) B) x Q :
  does m x (fun a x' => does (f a) x' Q) -> does (m ≫= f) x Q.
Proof.
  intros H g Hg. destruct (H g Hg) as (a & x' & E & H'). rewrite (bind_eq _ _ _ _ _ E).
  destruct (H' (putv x' g) eq_refl) as (b & x'' & E' & HQ). by exists b, x''.
Qed.
Lemma does_mono {A} (m : M (guarded console) A) x (Q Q' : A -> console -> Prop) :
  does m x Q -> (forall a x', Q a x' -> Q' a x') -> does m x Q'.
Proof. intros H HQ g Hg. destruct (H g Hg) as (a & x' & E & Hq). exists a, x'. auto. Qed.
Lemma does_option {A} e (o : option A) a x (Q : A -> console -> Prop) : o = Some a -> Q a x -> does (of_option e o) x Q.
Proof. intros -> H. by apply does_ret. Qed.

(** Steps over the pure operations. *)
Ltac dstep :=
  lazymatch goal with
  | |- does (_ ≫= _) _ _ => apply does_bind
  | |- does (mret _) _ _ => apply does_ret
  | |- does g_get _ _ => apply does_get
  | |- does (g_mod _) _ _ => apply does_mod
  | |- does (in_ _) _ _ => unfold in_; apply does_mod
  | |- does _get_cursor_pos _ _ => unfold _get_cursor_pos
  | |- does (M_ret _) _ _ => apply does_ret
  | |- does (when true _) _ _ => cbn [when]
  | |- does (when false _) _ _ => cbn [when]
  end.
Ltac dsteps := cbv beta iota; repeat (dstep; cbv beta iota).

(** ** The screen *)

(** [x'] is [x] but for the screen and the serial line. *)
Definition shown (x x' : console) : Prop := exists p s u, x' = set_uart u (set_screen p s x).
Lemma shown_refl x : shown x x.
Proof. exists (cursor x), (crt x), (uart x). by destruct x. Qed.
Lemma shown_trans x y z : shown x y -> shown y z -> shown x z.
Proof. intros (p & s & u & ->) (p' & s' & u' & ->). by exists p', s', u'. Qed.

Definition glyph (c : Z) : Z := Z.lor (Z.land c 255) 1792.
(** A cell on which nothing is to be seen. *)
Definition blank (v : Z) : Prop := v = 0 \/ v = glyph 32.

Lemma u16_small x : 0 <= x < 65536 -> u16 x = x.
Proof. apply Z.mod_small. Qed.

Lemma update_cursor_does pos x (Q : unit -> console -> Prop) :
  0 <= pos < 65536 -> Q tt (set_screen pos (crt x) x) -> does (_update_cursor pos 0) x Q.
Proof. intros Hp H. unfold _update_cursor. dsteps. change (ctrue 0) with false. dsteps. by rewrite u16_small. Qed.

(** A character at position [p] of a screen that need not scroll. *)
Lemma consputc_does c x p :
  panicked x = false -> cursor x = p -> 0 <= p < 1919 -> c <> NL -> c <> BACKSPACE ->
  does (consputc c) x (fun _ x' => shown x x' /\ cursor x' = p + 1 /\ crt x' p = glyph c /\ blank (crt x' (p + 1)) /\
    forall i, i <> p -> i <> p + 1 -> crt x' i = crt x i).
Proof.
  intros Hpa Hc Hp H1 H2. unfold consputc. dsteps. rewrite Hpa. replace (c =? BACKSPACE) with false by lia.
  unfold uartputc, cgaputc. dsteps. cbn [cursor set_uart]. rewrite Hc.
  replace (c =? NL) with false by lia. replace (c =? BACKSPACE) with false by lia. replace (p >=? 16384) with false by lia.
  dsteps. replace ((p + 1 <? 0) || (p + 1 >? 2000)) with false by lia.
  rewrite Z.quot_div_nonneg by lia. assert ((p + 1) / 80 < 24) by (apply Z.div_lt_upper_bound; lia).
  replace ((p + 1) / 80 >=? 24) with false by lia. dsteps. unfold _update_cursor. dsteps. change (ctrue 32) with true. cbn [when].
  replace ((p + 1 <? 0) || (p + 1 >=? 16384)) with false by lia. dsteps. rewrite u16_small by lia.
  cbn [crt cursor set_screen set_uart]. split_and!.
  - by eexists _, _, _.
  - done.
  - replace (p =? p + 1) with false by lia. rewrite Z.eqb_refl. done.
  - rewrite Z.eqb_refl. by right.
  - intros i Hi1 Hi2. replace (i =? p + 1) with false by lia. replace (i =? p) with false by lia. done.
Qed.

Lemma backspace_does x p :
  panicked x = false -> cursor x = p -> 0 < p < 1920 ->
  does (consputc BACKSPACE) x (fun _ x' => shown x x' /\ cursor x' = p - 1 /\
    blank (crt x' (p - 1)) /\ forall i, i <> p - 1 -> crt x' i = crt x i).
Proof.
  intros Hpa Hc Hp. unfold consputc. dsteps. rewrite Hpa. change (BACKSPACE =? BACKSPACE) with true.
  unfold uartputc, cgaputc. dsteps. cbn [cursor set_uart]. rewrite Hc.
  change (BACKSPACE =? NL) with false. change (BACKSPACE =? BACKSPACE) with true. replace (p >? 0) with true by lia.
  dsteps. replace ((p - 1 <? 0) || (p - 1 >? 2000)) with false by lia.
  rewrite Z.quot_div_nonneg by lia. assert ((p - 1) / 80 < 24) by (apply Z.div_lt_upper_bound; lia).
  replace ((p - 1) / 80 >=? 24) with false by lia. dsteps. unfold _update_cursor. dsteps. change (ctrue 32) with true. cbn [when].
  replace ((p - 1 <? 0) || (p - 1 >=? 16384)) with false by lia. dsteps. rewrite u16_small by lia.
  cbn [crt cursor set_screen set_uart]. split_and!.
  - by eexists _, _, _.
  - done.
  - rewrite Z.eqb_refl. by right.
  - intros i Hi. replace (i =? p - 1) with false by lia. done.
Qed.

(** A new line, which may scroll, always fits. *)
Lemma newline_does x :
  panicked x = false -> 0 <= cursor x < 1920 ->
  does (consputc NL) x (fun _ x' => shown x x' /\ 0 <= cursor x' < 1920).
Proof.
  intros Hpa Hp. unfold consputc. dsteps. rewrite Hpa. change (NL =? BACKSPACE) with false.
  unfold uartputc, cgaputc. dsteps. cbn [cursor set_uart]. change (NL =? NL) with true. dsteps.
  set (p := cursor x) in *. rewrite Z.rem_mod_nonneg by lia. assert (Hm : 0 <= p mod 80 < 80) by (apply Z.mod_pos_bound; lia).
  pose proof (Z.div_mod p 80). assert (p / 80 < 24) by (apply Z.div_lt_upper_bound; lia).
  set (q := p + (80 - p mod 80)). assert (0 < q <= 1920) by lia.
  replace ((q <? 0) || (q >? 2000)) with false by lia. apply does_bind.
  destruct (Z.quot q 80 >=? 24) eqn:Eq; dsteps; unfold _update_cursor; dsteps; change (ctrue 32) with true; cbn [when].
  - replace ((q - 80 <? 0) || (q - 80 >=? 16384)) with false by lia. dsteps. rewrite u16_small by lia.
    split; [by eexists _, _, _|]. cbn. rewrite Z.quot_div_nonneg in Eq by lia. pose proof (Z.div_mod q 80). lia.
  - replace ((q <? 0) || (q >=? 16384)) with false by lia. dsteps. rewrite u16_small by lia.
    split; [by eexists _, _, _|]. cbn. rewrite Z.quot_div_nonneg in Eq by lia.
    destruct (Z.eq_dec q 1920) as [->|]; [done|lia].
Qed.

Lemma backspaces_does k x p :
  panicked x = false -> cursor x = p -> Z.of_nat k <= p < 1920 ->
  does (backspaces k) x (fun _ x' => shown x x' /\ cursor x' = p - Z.of_nat k /\
    (forall i, p - Z.of_nat k <= i < p -> blank (crt x' i)) /\
    forall i, ~ p - Z.of_nat k <= i < p -> crt x' i = crt x i).
Proof.
  revert x p; induction k as [|k IH]; intros x p Hpa Hc Hp; cbn [backspaces].
  { dsteps. split_and!; [apply shown_refl|lia|lia|done]. }
  dsteps. eapply does_mono; [apply (backspace_does x p); [done|done|lia]|].
  intros _ y (Hs & Hcy & Hb & Hy). destruct Hs as (p' & s' & u' & ->). eapply does_mono; [apply (IH _ (p - 1)); [done|done|lia]|].
  intros _ z (Hs & Hcz & Hbz & Hz). split_and!; [eapply shown_trans; [by eexists _, _, _|done]|lia| |].
  - intros i Hi. destruct (Z.eq_dec i (p - 1)) as [->|Hne]; [by rewrite Hz by lia|]. apply Hbz. lia.
  - intros i Hi. rewrite Hz, Hy by lia. done.
Qed.

(** ** The buffer *)

(** A character one can type in a line: printable, and not [?]. *)
Definition plain (c : Z) : Prop := 32 <= c < 127 /\ c <> 63.

Definition with_buf (b : list Z) (x : console) : console := set_input (set_i_buf b (input x)) x.

Lemma buf_get_does i c x (Q : Z -> console -> Prop) :
  cell (i_buf (input x)) i = Some c -> Q c x -> does (buf_get i) x Q.
Proof. intros H HQ. unfold buf_get. dsteps. by eapply does_option. Qed.
Lemma buf_set_does i v b x (Q : unit -> console -> Prop) :
  set_cell (i_buf (input x)) i v = Some b -> Q tt (with_buf b x) -> does (buf_set i v) x Q.
Proof. intros H HQ. unfold buf_set. dsteps. eapply does_option; [exact H|]. by dsteps. Qed.

Lemma with_buf_twice b b' x : with_buf b (with_buf b' x) = with_buf b x.
Proof. done. Qed.

(** The characters of the line are put on the screen from the cursor on. *)
Lemma write_loop_does l a b k x p :
  i_buf (input x) = a ++ l ++ b -> (length l < k)%nat -> Forall plain l ->
  match b with c :: _ => c = 0 \/ c = NL | [] => False end ->
  panicked x = false -> cursor x = p -> 0 <= p -> p + Z.of_nat (length l) < 1920 ->
  does (write_loop k (Z.of_nat (length a))) x (fun _ x' => shown x x' /\ cursor x' = p + Z.of_nat (length l) /\
    (forall i c, l !! i = Some c -> crt x' (p + Z.of_nat i) = glyph c) /\
    (blank (crt x p) -> blank (crt x' (p + Z.of_nat (length l)))) /\
    forall i, ~ p <= i <= p + Z.of_nat (length l) -> crt x' i = crt x i).
Proof.
  revert a k x p; induction l as [|c l IH]; intros a k x p Hb Hk Hl Hend Hpa Hc Hp Hlen;
    (destruct k as [|k]; [cbn in Hk; lia|]); cbn [write_loop].
  - apply does_bind. destruct b as [|d b]; [done|]. eapply buf_get_does; [rewrite Hb; cbn [app]; by rewrite cell_mid|].
    replace ((d =? NL) || (d =? 0)) with true by (unfold NL in *; lia). dsteps.
    split_and!; [apply shown_refl|cbn; lia|done|cbn; by rewrite Z.add_0_r|done].
  - apply Forall_cons in Hl as [[Hc1 Hc2] Hl]. cbn [length] in *.
    apply does_bind. eapply buf_get_does; [rewrite Hb; cbn [app]; by rewrite cell_mid|].
    unfold NL in *. replace ((c =? 10) || (c =? 0)) with false by lia. apply does_bind.
    eapply does_mono; [apply (consputc_does c x p); try done; unfold NL, BACKSPACE; lia|].
    intros _ y (Hs & Hcy & Hg & Hbl & Hy). destruct Hs as (p' & s' & u' & ->).
    eapply does_mono.
    + replace (Z.of_nat (length a) + 1) with (Z.of_nat (length (a ++ [c]))) by (rewrite length_app; cbn; lia).
      apply (IH (a ++ [c]) k _ (p + 1)); try done; try lia. cbn. by rewrite Hb, <- app_assoc.
    + intros _ z (Hs & Hcz & Hz & Hbz & Ho). split_and!; [eapply shown_trans; [by eexists _, _, _|done]|lia| | |].
      * intros [|i] d Hd; cbn in Hd.
        -- injection Hd as <-. rewrite Z.add_0_r, Ho by lia. done.
        -- replace (p + Z.of_nat (S i)) with (p + 1 + Z.of_nat i) by lia. by apply Hz.
      * intros _. replace (p + Z.of_nat (S (length l))) with (p + 1 + Z.of_nat (length l)) by lia. by apply Hbz.
      * intros i Hi. rewrite Ho, Hy by lia. done.
Qed.

Lemma rem_small i : 0 <= i < 128 -> Z.rem i 128 = i.
Proof. intros. apply Z.rem_small. lia. Qed.

Lemma shift_right_does k i a m y b x (Q : unit -> console -> Prop) :
  i_buf (input x) = a ++ m ++ y :: b -> length m = k -> i = Z.of_nat (length a + k) -> i < 128 ->
  Forall (fun c => -128 <= c < 128) m ->
  (forall h, Q tt (with_buf (a ++ h :: m ++ b) x)) -> does (shift_right k i) x Q.
Proof.
  revert i m y b x; induction k as [|k IH]; intros i m y b x Hb Hm Hi Hi' Hr HQ; cbn [shift_right].
  { apply nil_length_inv in Hm as ->. dsteps. specialize (HQ y). cbn in HQ. cbn in Hb. rewrite <- Hb in HQ.
    assert (E : with_buf (i_buf (input x)) x = x) by (destruct x as [[] ? ? ? ? ? ? ? ? ? ?]; done). by rewrite E in HQ. }
  destruct (exists_last (l := m)) as (m' & z & ->); [by intros ->|]. rewrite length_app in Hm. cbn in Hm.
  apply Forall_app in Hr as [Hr Hz]. apply Forall_cons in Hz as [Hz _].
  rewrite <- app_assoc in Hb. cbn [app] in Hb. rewrite !rem_small by lia.
  apply does_bind. eapply buf_get_does.
  { rewrite Hb, app_assoc, cell_mid; [done|]. rewrite length_app. lia. }
  apply does_bind. eapply buf_set_does.
  { rewrite Hb. replace (a ++ m' ++ z :: y :: b) with ((a ++ m' ++ [z]) ++ y :: b) by (by rewrite <- !app_assoc).
    rewrite set_cell_mid; [done|]. rewrite !length_app. cbn. lia. }
  rewrite i8_small by lia. eapply (IH (i - 1) m' z (z :: b)); [|lia|lia|lia|done|].
  - cbn. by rewrite <- !app_assoc.
  - intros h. rewrite with_buf_twice. specialize (HQ h). by rewrite <- app_assoc in HQ.
Qed.

Lemma shift_left_does k i a m y b x (Q : unit -> console -> Prop) :
  i_buf (input x) = a ++ y :: m ++ b -> length m = k -> i = Z.of_nat (length a) -> i + Z.of_nat k < 128 ->
  Forall (fun c => -128 <= c < 128) m ->
  Q tt (with_buf (a ++ m ++ default y (last m) :: b) x) -> does (shift_left k i) x Q.
Proof.
  revert i a m y x; induction k as [|k IH]; intros i a m y x Hb Hm Hi Hi' Hr HQ; cbn [shift_left].
  { apply nil_length_inv in Hm as ->. dsteps. cbn in *. rewrite <- Hb in HQ.
    assert (E : with_buf (i_buf (input x)) x = x) by (destruct x as [[] ? ? ? ? ? ? ? ? ? ?]; done). by rewrite E in HQ. }
  destruct m as [|z m]; [done|]. cbn in Hm. apply Forall_cons in Hr as [Hz Hr]. cbn [app] in Hb. rewrite !rem_small by lia.
  apply does_bind. eapply buf_get_does.
  { rewrite Hb. replace (a ++ y :: z :: m ++ b) with ((a ++ [y]) ++ z :: m ++ b) by (by rewrite <- !app_assoc).
    rewrite cell_mid; [done|]. rewrite length_app. cbn. lia. }
  apply does_bind. eapply buf_set_does; [rewrite Hb, set_cell_mid by done; done|].
  rewrite i8_small by lia. eapply (IH (i + 1) (a ++ [z]) m z); [|lia|rewrite length_app; cbn; lia|lia|done|].
  - cbn. by rewrite <- !app_assoc.
  - rewrite with_buf_twice, <- app_assoc. cbn [app].
    replace (default z (last m)) with (default y (last (z :: m))); [exact HQ|]. rewrite last_cons. by destruct (last m).
Qed.

(** ** The line being edited *)

(** The abstract line: what is before the cursor, nearest first, and after it. *)
Inductive key := Type_ (c : Z) | Erase | Left_ | Right_.
Definition code (k : key) : Z :=
  match k with Type_ c => c | Erase => 8 | Left_ => _LEFT_ARROW | Right_ => _RIGHT_ARROW end.
Definition edit (k : key) (l : list Z * list Z) : list Z * list Z :=
  match k, l with
  | Type_ c, (b, a) => (c :: b, a)
  | Erase, (b, a) => (tl b, a)
  | Left_, (c :: b, a) => (b, c :: a)
  | Right_, (b, c :: a) => (c :: b, a)
  | _, _ => l
  end.
Definition line (l : list Z * list Z) : list Z := rev (fst l) ++ snd l.
Definition len (l : list Z * list Z) : nat := (length (fst l) + length (snd l))%nat.
Definition typed (k : key) : Prop := match k with Type_ c => plain c | _ => True end.

Section Screen.
(** The end of the part of the screen on which nothing but the line is to be seen. *)
Context (bound : Z).

(** The line [l] is on screen from position [P] on, and nothing after it. *)
Definition on_screen (P : Z) (l : list Z) (x : console) : Prop :=
  (forall i c, l !! i = Some c -> crt x (P + Z.of_nat i) = glyph c) /\
  (forall i, P + Z.of_nat (length l) <= i < bound -> blank (crt x i)).

(** The console holds the line [l], shown from position [P] on. *)
Record editing (P : Z) (l : list Z * list Z) (x : console) : Prop := mk_editing {
  ed_input : input x = mk_buffer (line l ++ replicate (128 - len l) 0) 0 0 (Z.of_nat (len l));
  ed_arrow : _arrow x = - Z.of_nat (length (snd l));
  ed_cursor : cursor x = P + Z.of_nat (length (fst l));
  ed_live : panicked x = false;
  ed_plain : Forall plain (line l);
  ed_screen : on_screen P (line l) x }.

(** Nothing but the line and the screen differ; and nothing but the line and the screen
    from [P] on. *)
Definition same_store (x x' : console) : Prop :=
  _history x' = _history x /\ _current_history x' = _current_history x /\ _last_history x' = _last_history x /\
  locking x' = locking x /\ dst x' = dst x.
Definition same_rest (P : Z) (x x' : console) : Prop :=
  (forall i, i < P -> crt x' i = crt x i) /\ same_store x x'.
Lemma same_store_trans x y z : same_store x y -> same_store y z -> same_store x z.
Proof. unfold same_store. intuition congruence. Qed.
Lemma same_rest_trans P x y z : same_rest P x y -> same_rest P y z -> same_rest P x z.
Proof. intros [H1 H2] [H3 H4]. split; [intros i Hi; by rewrite H3, H1|]. by eapply same_store_trans. Qed.

Lemma line_length l : length (line l) = len l.
Proof. unfold line, len. by rewrite length_app, length_rev. Qed.
Lemma plain_char l : Forall plain l -> Forall (fun c => -128 <= c < 128) l.
Proof. intros H. eapply Forall_impl; [exact H|]. unfold plain. intros; lia. Qed.

Lemma clear_cmd_does e x P k :
  panicked x = false -> i_w (input x) = 0 -> 0 <= e < 2 ^ 32 -> cursor x - _arrow x = P + e -> 0 <= P -> P + e < 1920 ->
  k = e ->
  does (___clear_cmd k) x (fun _ x' => shown x x' /\ cursor x' = P /\
    (forall i, P <= i < P + e -> blank (crt x' i)) /\ forall i, ~ P <= i < P + e -> crt x' i = crt x i).
Proof.
  intros Hpa Hw He Hc HP Hl ->. unfold ___clear_cmd. dsteps. apply update_cursor_does; [lia|].
  eapply does_mono; [apply (backspaces_does _ _ (P + e)); cbn [panicked cursor set_screen]; try done; rewrite Hw, u32_small by lia; lia|].
  rewrite Hw, u32_small by lia.
  intros _ x' (Hs & Hc' & Hb & Ho). split_and!.
  - eapply shown_trans; [|exact Hs]. exists (cursor x - _arrow x), (crt x), (uart x). by destruct x.
  - rewrite Hc'. lia.
  - intros i Hi. apply Hb. lia.
  - intros i Hi. rewrite Ho by lia. done.
Qed.

(** The line is cleared and written again, and the cursor put at [q]. *)
Lemma redraw_does l z e k q x P :
  input x = mk_buffer (l ++ replicate z 0) 0 0 e -> (length l + z = 128)%nat -> (0 < z)%nat -> Forall plain l ->
  panicked x = false -> 0 <= k < 2 ^ 32 -> cursor x - _arrow x = P + k -> 0 <= P -> P + k < 1920 ->
  P + Z.of_nat (length l) < 1920 -> 0 <= q < 65536 -> (forall i, P + k <= i < bound -> blank (crt x i)) ->
  does (___clear_cmd k ;; _write_from_buffer ;; _update_cursor q 0) x
    (fun _ x' => shown x x' /\ cursor x' = q /\ on_screen P l x' /\ forall i, i < P -> crt x' i = crt x i).
Proof.
  intros Hi Hlz Hz Hl Hpa Hk Hc HP HPk HPl Hq Hend. apply does_bind.
  eapply does_mono; [apply (clear_cmd_does k x P k); rewrite ?Hi; try done; lia|].
  intros _ y (Hs & Hcy & Hby & Hoy). destruct Hs as (p1 & s1 & u1 & ->). unfold _write_from_buffer. apply does_bind, does_bind.
  eapply does_mono; [apply (write_loop_does l [] (replicate z 0) INPUT_BUF _ P); cbn [input set_uart set_screen panicked]; rewrite ?Hi; try done|].
  { unfold INPUT_BUF. lia. }
  { destruct z; [lia|]. by left. }
  intros _ y (Hs & Hcy' & Hg & Hb' & Ho'). destruct Hs as (p2 & s2 & u2 & ->). dsteps. apply update_cursor_does; [done|].
  split_and!.
  - exists q, s2, u2. destruct x as [[b r w e'] ? ? ? ? ? ? ? ? ? ?]. cbn in *. injection Hi as -> -> -> ->. done.
  - done.
  - assert (Hbl : forall i, P <= i < bound -> blank (s1 i)).
    { intros i Hi'. destruct (decide (i < P + k)); [apply Hby; lia|]. specialize (Hoy i ltac:(lia)). cbn in Hoy. rewrite Hoy. apply Hend. lia. }
    split; [intros i c Hic; by apply Hg|]. cbn in *. intros i Hi'.
    destruct (Z.eq_dec i (P + Z.of_nat (length l))) as [->|Hne]; [apply Hb', Hbl; lia|].
    rewrite Ho' by lia. apply Hbl. lia.
  - intros i Hi'. cbn in *. rewrite Ho', Hoy by lia. done.
Qed.

(** ** No expression is found in a line without a question mark *)

Lemma scan_not_5 c i x : c <> 63 -> sc_s x <> 5 -> sc_s (scan_char c i x) <> 5.
Proof.
  intros Hc Hx. unfold scan_char. repeat (case_match; cbn [sc_s]; try lia).
Qed.
Lemma searching_plain l i x : Forall (fun c => c <> 63) l -> sc_s x <> 5 -> searching l i x /\ sc_s (scan_all l i x) <> 5.
Proof.
  revert i x; induction l as [|c l IH]; intros i x Hl Hx; [done|]. apply Forall_cons in Hl as [Hc Hl].
  cbn [searching scan_all]. destruct (IH (i + 1) (scan_char c i x)) as [? ?]; [done|by apply scan_not_5|]. done.
Qed.

Lemma find_nothing l z :
  Forall (fun c => c <> 63 /\ c <> 0) l -> (length l + z = 128)%nat -> (0 < z)%nat ->
  __find_expression (l ++ replicate z 0) = Ret None (l ++ replicate z 0).
Proof.
  intros Hl Hlz Hz. unfold __find_expression, FIND_FUEL.
  assert (H1 : Forall (fun c => c <> 63) l) by (eapply Forall_impl; [exact Hl|by intros ? []]).
  assert (H2 : Forall (fun c => c <> 0) l) by (eapply Forall_impl; [exact Hl|by intros ? []]).
  destruct (searching_plain l 0 (mk_scan 0 0 0 0) H1) as [Hs H5]; [done|].
  destruct z as [|z]; [lia|]. cbn [replicate].
  destruct (find_loop_run l [] (0 :: replicate z 0) (130 - length l) 97 0 (mk_scan 0 0 0 0)) as (c' & Hc' & E); [done|done|done|done|].
  replace (length l + (130 - length l))%nat with 130%nat in E by lia. cbn [app] in E. rewrite E.
  destruct (130 - length l)%nat as [|[|f]] eqn:Ef; [lia|lia|]. rewrite Z.add_0_l. cbn [find_loop].
  replace (c' =? 0) with false by lia. rewrite (bind_eq get _ _ _ _ eq_refl), cell_mid by done.
  rewrite (bind_eq _ _ _ 0 (l ++ 0 :: replicate z 0) eq_refl).
  replace (sc_s _ =? 5) with false by lia. done.
Qed.

Lemma plain_63 l : Forall plain l -> Forall (fun c => c <> 63 /\ c <> 0) l.
Proof. intros H. eapply Forall_impl; [exact H|]. unfold plain. intros; lia. Qed.

Lemma solve_nothing l z x (Q : unit -> console -> Prop) :
  i_buf (input x) = l ++ replicate z 0 -> Forall (fun c => c <> 63 /\ c <> 0) l -> (length l + z = 128)%nat -> (0 < z)%nat ->
  Q tt x -> does solve_line x Q.
Proof.
  intros Hb Hl Hlz Hz HQ. unfold solve_line. apply does_bind. intros g Hg. exists None, x.
  unfold __find_exp, zoom. rewrite Hg, Hb, find_nothing by done. split; [by rewrite <- Hg, putv_same|]. by apply does_ret.
Qed.

(** ** Every key edits the line *)

(** One line of at most 127 characters fits between [P] and the end of the screen. *)
Definition room (P : Z) : Prop := 0 <= P /\ P + 128 < 1920.

(** What a key does to the console, with the keys after it. *)
Definition key_edits (me : nat) (P : Z) (l : list Z * list Z) (x : console) (k : key) (keys : list Z) (d : bool) : Prop :=
  does (console_key me (code k) keys d) x
    (fun r x' => r = (d, keys) /\ editing P (edit k l) x' /\ same_rest P x x').

(** The tail of every case: the line is as it should be and no expression is in it. *)
Lemma key_done P l x y (d : bool) (keys : list Z) :
  (len l < 128)%nat -> editing P l y -> same_rest P x y ->
  does solve_line y (fun _ y' => does (mret (d, keys)) y' (fun r x' => r = (d, keys) /\ editing P l x' /\ same_rest P x x')).
Proof.
  intros Hl He Hr. apply (solve_nothing (line l) (128 - len l)); try (rewrite ?line_length; lia).
  - by rewrite (ed_input _ _ _ He).
  - apply plain_63, (ed_plain _ _ _ He).
  - by apply does_ret.
Qed.

Lemma left_key me P l x keys d :
  room P -> (len l < 128)%nat -> editing P l x -> key_edits me P l x Left_ keys d.
Proof.
  intros HP Hl He. unfold key_edits, console_key. cbn [code]. apply does_bind.
  change (_LEFT_ARROW =? C 80) with false. change (_LEFT_ARROW =? C 85) with false.
  change ((_LEFT_ARROW =? C 72) || (_LEFT_ARROW =? 127)) with false. change (_LEFT_ARROW =? _LEFT_ARROW) with true.
  cbn [orb]. unfold _arrow_key_console_handler. dsteps. change (_LEFT_ARROW =? _LEFT_ARROW) with true. cbv iota.
  pose proof He as [E1 E2 E3 E4 E5 E6]. rewrite E1, E2, E3. cbn [i_e]. destruct l as [b a]. unfold len in *. cbn [fst snd] in *.
  rewrite u32_small by lia. destruct b as [|c b].
  - replace (_ <? _) with false by (cbn; lia). dsteps. by apply (key_done P ([], a)).
  - replace (_ <? _) with true by (cbn [length]; lia). dsteps. unfold room in HP. cbn [length] in *.
    apply update_cursor_does; [lia|]. dsteps. apply (key_done P (b, c :: a)); [unfold len; cbn; lia| |done].
    assert (EL : line (c :: b, a) = line (b, c :: a)) by (unfold line; cbn; by rewrite <- app_assoc).
    constructor; cbn [input _arrow cursor panicked crt set_screen set_arrow fst snd]; rewrite <- ?EL; try done.
    + rewrite E1. unfold len. cbn [fst snd length]. do 2 f_equal; [f_equal; lia|lia].
    + cbn [length]. lia.
    + lia.
Qed.

Lemma right_key me P l x keys d :
  room P -> (len l < 128)%nat -> editing P l x -> key_edits me P l x Right_ keys d.
Proof.
  intros HP Hl He. unfold key_edits, console_key. cbn [code]. apply does_bind.
  change (_RIGHT_ARROW =? C 80) with false. change (_RIGHT_ARROW =? C 85) with false.
  change ((_RIGHT_ARROW =? C 72) || (_RIGHT_ARROW =? 127)) with false. change (_RIGHT_ARROW =? _RIGHT_ARROW) with true.
  rewrite orb_true_r. cbn [orb]. unfold _arrow_key_console_handler. dsteps. change (_RIGHT_ARROW =? _LEFT_ARROW) with false.
  change (_RIGHT_ARROW =? _RIGHT_ARROW) with true. cbv iota.
  pose proof He as [E1 E2 E3 E4 E5 E6]. rewrite E2, E3. destruct l as [b a]. unfold len in *. cbn [fst snd] in *.
  destruct a as [|c a].
  - replace (ctrue _) with false by done. dsteps. change (edit Right_ (b, [])) with (b, @nil Z). by apply (key_done P (b, [])).
  - replace (ctrue _) with true by (unfold ctrue; cbn [length]; lia). dsteps. unfold room in HP. cbn [length] in *.
    apply update_cursor_does; [lia|]. dsteps. apply (key_done P (c :: b, a)); [unfold len; cbn; lia| |done].
    assert (EL : line (c :: b, a) = line (b, c :: a)) by (unfold line; cbn; by rewrite <- app_assoc).
    constructor; cbn [input _arrow cursor panicked crt set_screen set_arrow fst snd]; rewrite ?EL; try done.
    + rewrite E1. unfold len. cbn [fst snd length]. do 2 f_equal; [f_equal; lia|lia].
    + cbn [length]. lia.
    + cbn [length]. lia.
Qed.

(** The dispatch for a character, and for a character that is not [Enter]. *)
Lemma type_dispatch me c keys d x Q :
  plain c \/ c = NL ->
  does (default_key me c) x (fun _ y => does solve_line y (fun _ y' => does (mret (d, keys)) y' Q)) ->
  does (console_key me c keys d) x Q.
Proof.
  intros Hc H. unfold plain, NL in Hc. unfold console_key, C, _LEFT_ARROW, _RIGHT_ARROW, _UP_ARROW, _DOWN_ARROW.
  replace (c =? 80 - 64) with false by lia. replace (c =? 85 - 64) with false by lia.
  replace ((c =? 72 - 64) || (c =? 127)) with false by lia.
  replace ((c =? 228) || (c =? 229) || (c =? 226) || (c =? 227)) with false by lia. replace (c =? 83 - 64) with false by lia.
  apply does_bind, does_bind. eapply does_mono; [exact H|]. intros [] y Hy. dsteps. exact Hy.
Qed.

Lemma default_dispatch me P l c x Q :
  editing P l x -> (len l < 127)%nat -> plain c ->
  does (if _arrow x =? 0 then buf_set (i_e (input x) mod 128) c ;; in_ (fun b => set_e (i_e b + 1) b) ;; consputc c
        else _input_in_mid c) x (fun _ y => (i_e (input y) = Z.of_nat (len l) + 1 /\ i_r (input y) = 0) /\ Q tt y) ->
  does (default_key me c) x Q.
Proof.
  intros [E1 E2 E3 E4 E5 E6] Hl [Hc Hc'] H. unfold default_key. dsteps. rewrite E1 at 1. rewrite E1 at 1. cbn [i_e i_r].
  rewrite u32_small by lia. replace (negb (c =? 0) && _) with true by lia. dsteps.
  replace (c =? 13) with false by lia. unfold NL. replace (c =? 10) with false by lia. dsteps.
  eapply does_mono; [exact H|]. intros [] y [[He Hr] HQ]. dsteps. rewrite He, Hr.
  unfold C. change (u32 (0 + 128)) with 128.
  replace (false || (c =? 68 - 64) || (Z.of_nat (len l) + 1 =? 128)) with false by lia. by dsteps.
Qed.

Lemma zeros_split n : (0 < n)%nat -> replicate n 0 = 0 :: replicate (n - 1) 0.
Proof. intros. destruct n; [lia|]. cbn. by rewrite Nat.sub_0_r. Qed.

(** Typing at the end of the line. *)
Lemma type_at_end me P b c x keys d :
  room P -> (len (b, []) < 127)%nat -> plain c -> editing P (b, []) x -> key_edits me P (b, []) x (Type_ c) keys d.
Proof.
  intros [HP HP'] Hl Hc He. unfold key_edits. cbn [code]. apply type_dispatch; [by left|]. apply (default_dispatch me P (b, [])); [done|done|done|].
  pose proof He as [E1 E2 E3 E4 E5 E6]. unfold len, line in *. cbn [fst snd length] in *. rewrite Nat.add_0_r, app_nil_r in *.
  rewrite E2. cbn [Z.of_nat Z.opp Z.eqb]. rewrite E1. cbn [i_e]. rewrite Z.mod_small by lia.
  apply does_bind. eapply buf_set_does.
  { rewrite E1. cbn [i_buf]. rewrite zeros_split by lia. apply set_cell_mid. by rewrite length_rev. }
  destruct Hc as [Hc Hc']. rewrite i8_small by lia. dsteps.
  set (y := set_input _ _). eapply does_mono;
    [apply (consputc_does c y (P + Z.of_nat (length b))); try done; unfold NL, BACKSPACE; lia|].
  intros _ z (Hs & Hcz & Hg & Hbl & Ho). destruct Hs as (p' & s' & u' & ->).
  assert (Hin : input (set_uart u' (set_screen p' s' y)) = mk_buffer (rev (c :: b) ++ replicate (128 - length (c :: b)) 0) 0 0
    (Z.of_nat (length (c :: b)))).
  { unfold y, set_e. cbn. rewrite E1. cbn [i_buf i_r i_w i_e]. rewrite u32_small by lia. rewrite <- app_assoc. cbn [app]. f_equal; [|lia].
    do 3 f_equal. lia. }
  split; [split; by rewrite Hin; cbn [i_e i_r length]; lia|].
  apply (key_done P (c :: b, [])); [unfold len; cbn in *; lia| |split; [|done]; intros i Hi; rewrite Ho by lia; done].
  assert (EL : line (c :: b, []) = rev b ++ [c]) by (unfold line; cbn; by rewrite app_nil_r).
  constructor; cbn [fst snd]; rewrite ?EL; try done.
  - rewrite Hin. unfold len. cbn [fst snd length rev]. rewrite Nat.add_0_r. done.
  - rewrite Hcz. cbn [length]. lia.
  - apply Forall_app. split; [done|]. constructor; [by split|constructor].
  - destruct E6 as [E6 E7]. rewrite length_rev in E7. split.
    + intros i k Hk. destruct (decide (i < length (rev b))%nat) as [Hi|Hi].
      * rewrite lookup_app_l in Hk by done. rewrite length_rev in Hi. rewrite Ho by lia. by apply E6.
      * rewrite lookup_app_r in Hk by lia. rewrite length_rev in *. destruct (i - length b)%nat eqn:Ei; [|done].
        cbn in Hk. injection Hk as <-. replace i with (length b) by lia. done.
    + rewrite length_app, length_rev. cbn [length]. intros i Hi.
      destruct (Z.eq_dec i (P + Z.of_nat (length b) + 1)) as [->|Hne]; [done|]. rewrite Ho by lia. apply E7. lia.
Qed.

Lemma update_insert_does c b a z x Q :
  plain c -> i_buf (input x) = rev b ++ a ++ replicate (S z) 0 -> i_e (input x) = Z.of_nat (length b + length a) ->
  (length b + length a < 127)%nat -> Forall plain a ->
  Q tt (set_input (mk_buffer (rev b ++ c :: a ++ replicate z 0) (i_r (input x)) (i_w (input x)) (i_e (input x) + 1)) x) ->
  does (___update_buffer c (Z.of_nat (length b))) x Q.
Proof.
  intros [Hc Hc'] Hb He Hl Ha HQ. unfold ___update_buffer, BACKSPACE, ___BACKSPACE. replace (c <=? 0) with false by lia.
  replace ((c =? 256) || (c =? 8)) with false by lia. unfold ___shift_buf. dsteps. change (ctrue 1) with true. dsteps.
  rewrite He, i32_small by (unfold_int; lia).
  eapply (shift_right_does _ _ (rev b) a 0 (replicate z 0));
    [exact Hb|lia|rewrite length_rev; lia|lia|by apply plain_char|].
  intros h. dsteps. eapply buf_set_does.
  { cbn [input set_input set_e i_buf with_buf set_i_buf]. rewrite rem_small by lia. apply set_cell_mid. by rewrite length_rev. }
  rewrite i8_small by lia. unfold with_buf, set_input, set_e, set_i_buf. cbn. rewrite He, u32_small by lia.
  rewrite <- He. exact HQ.
Qed.

(** Typing before the end of the line. *)
Lemma type_in_mid me P b a c x keys d :
  room P -> (len (b, a) < 127)%nat -> plain c -> a <> [] -> editing P (b, a) x -> key_edits me P (b, a) x (Type_ c) keys d.
Proof.
  intros [HP HP'] Hl Hc Ha He. unfold key_edits. cbn [code]. apply type_dispatch; [by left|]. apply (default_dispatch me P (b, a)); [done|done|done|].
  pose proof He as [E1 E2 E3 E4 E5 E6]. unfold len, line in *. cbn [fst snd] in *.
  assert (La : (0 < length a)%nat) by (destruct a; [done|cbn; lia]).
  rewrite E2. replace (_ =? 0) with false by lia. unfold _input_in_mid. dsteps. rewrite E1, E2, E3. cbn [i_e].
  pose proof Hc as [Hc1 Hc2]. unfold BACKSPACE, ___BACKSPACE. replace ((c =? 256) || (c =? 8)) with false by lia.
  rewrite i32_small by (unfold_int; lia). dsteps.
  replace (Z.of_nat (length b + length a) + - Z.of_nat (length a)) with (Z.of_nat (length b)) by lia.
  apply Forall_app in E5 as [Pb Pa]. eapply (update_insert_does c b a (127 - (length b + length a))); rewrite ?E1; try done.
  { cbn [i_buf]. rewrite <- app_assoc. do 3 f_equal. lia. }
  cbn [i_r i_w i_e]. apply does_bind, does_get. cbn [input set_input i_e]. rewrite Z.add_simpl_r.
  set (y := set_input _ _). set (l' := rev b ++ c :: a).
  assert (Ll : length l' = S (length b + length a)) by (unfold l'; rewrite length_app, length_rev; cbn; lia).
  eapply does_mono; [apply (redraw_does l' (127 - (length b + length a)) (Z.of_nat (S (length b + length a)))
    (Z.of_nat (length b + length a)) (P + Z.of_nat (length b) + 1) y P); try done; try lia|].
  { unfold y, l'. cbn. rewrite <- app_assoc. f_equal. lia. }
  { unfold l'. apply Forall_app. split; [done|]. by constructor. }
  { unfold y. cbn [cursor _arrow set_input]. rewrite E3, E2. lia. }
  { intros i Hi. apply (proj2 E6). rewrite length_app, length_rev. lia. }
  intros _ w (Hs & Hcw & Hw & Ho). destruct Hs as (p' & s' & u' & ->). split; [split; cbn; lia|].
  apply (key_done P (c :: b, a)); [unfold len; cbn in *; lia| |by split].
  assert (EL : line (c :: b, a) = l') by (unfold line, l'; cbn; by rewrite <- app_assoc).
  constructor; cbn [fst snd]; rewrite ?EL; try done.
  - cbn. unfold len, l'. cbn [fst snd length]. rewrite <- app_assoc. cbn [app]. f_equal; lia.
  - rewrite Hcw. cbn [length]. lia.
  - unfold l'. apply Forall_app. split; [done|]. by constructor.
Qed.

Lemma update_erase_does c b a z x Q :
  i_buf (input x) = rev (c :: b) ++ a ++ replicate (S z) 0 -> i_e (input x) = Z.of_nat (S (length b) + length a) ->
  (length b + length a < 127)%nat -> Forall plain a ->
  Q tt (set_input (mk_buffer (rev b ++ a ++ replicate (S (S z)) 0) (i_r (input x)) (i_w (input x)) (i_e (input x) - 1)) x) ->
  does (___update_buffer BACKSPACE (Z.of_nat (S (length b)))) x Q.
Proof.
  intros Hb He Hl Ha HQ. unfold ___update_buffer, ___shift_buf. change (BACKSPACE <=? 0) with false.
  change (BACKSPACE =? BACKSPACE) with true. cbn [orb]. dsteps. change (ctrue 0) with false. dsteps.
  replace (Z.of_nat (S (length b)) - 1 <? 0) with false by lia. rewrite He.
  replace (Z.to_nat _) with (S (length a)) by lia.
  eapply (shift_left_does _ _ (rev b) (a ++ [0]) c (replicate z 0)).
  - rewrite Hb. cbn [rev]. rewrite <- !app_assoc. done.
  - rewrite length_app. cbn. lia.
  - rewrite length_rev. lia.
  - lia.
  - apply Forall_app. split; [by apply plain_char|]. repeat constructor; lia.
  - dsteps. rewrite last_snoc. cbn [default]. unfold id, with_buf, set_e, set_i_buf, set_input. cbn [input i_buf i_r i_w i_e].
    rewrite (u32_small (i_e (input x) - 1)) by lia. rewrite <- app_assoc. exact HQ.
Qed.

Lemma erase_dispatch me P l keys d x Q :
  editing P l x ->
  does (when (negb (Z.of_nat (len l) =? 0))
         (if _arrow x =? 0 then
            in_ (fun b => set_e (i_e b - 1) b) ;; buf_set (u32 (Z.of_nat (len l) - 1)) 0 ;; consputc BACKSPACE
          else _input_in_mid BACKSPACE)) x
    (fun _ y => does solve_line y (fun _ y' => does (mret (d, keys)) y' Q)) ->
  does (console_key me 8 keys d) x Q.
Proof.
  intros [E1 _ _ _ _ _] H. unfold console_key. change (8 =? C 80) with false. change (8 =? C 85) with false.
  change ((8 =? C 72) || (8 =? 127)) with true. dsteps. rewrite E1. cbn [i_e i_w].
  eapply does_mono; [exact H|]. intros [] y Hy. dsteps. exact Hy.
Qed.

Lemma erase_at_end me P b x keys d :
  room P -> (len (b, []) < 128)%nat -> editing P (b, []) x -> key_edits me P (b, []) x Erase keys d.
Proof.
  intros [HP HP'] Hl He. unfold key_edits. cbn [code]. apply (erase_dispatch me P (b, [])); [done|].
  pose proof He as [E1 E2 E3 E4 E5 E6]. unfold len, line in *. cbn [fst snd length] in *. rewrite Nat.add_0_r, app_nil_r in *.
  destruct b as [|c b].
  { change (negb _) with false. dsteps. by apply (key_done P ([], [])). }
  replace (negb _) with true by (cbn [length]; lia). rewrite E2. change (- Z.of_nat 0 =? 0) with true. cbn [when length] in *. dsteps.
  cbn [rev] in *. apply Forall_app in E5 as [Pb _].
  eapply buf_set_does.
  { cbn. rewrite E1. cbn [i_buf]. rewrite <- app_assoc. cbn [app]. apply set_cell_mid. rewrite length_rev, u32_small by lia. lia. }
  change (i8 0) with 0. set (y := with_buf _ _).
  eapply does_mono; [apply (backspace_does y (P + Z.of_nat (S (length b)))); try done; lia|].
  intros _ z (Hs & Hcz & Hbl & Ho). destruct Hs as (p' & s' & u' & ->).
  apply (key_done P (b, [])); [unfold len; cbn in *; lia| |split; [|done]; intros i Hi; rewrite Ho by lia; done].
  constructor; cbn [fst snd tl]; unfold line; cbn [fst snd]; rewrite ?app_nil_r; try done.
  - unfold y, with_buf, set_i_buf, set_e. cbn [input set_input set_uart set_screen]. rewrite E1. unfold len.
    cbn [i_buf i_r i_w i_e fst snd length]. rewrite u32_small, Nat.add_0_r by lia. f_equal; [|lia].
    replace (128 - length b)%nat with (S (128 - S (length b))) by lia. done.
  - rewrite Hcz. lia.
  - destruct E6 as [E6 E7]. rewrite length_app, length_rev in E7. cbn [length] in E7. split.
    + intros i k Hk. pose proof (lookup_lt_Some _ _ _ Hk) as Hi. rewrite length_rev in Hi. rewrite Ho by lia. apply E6.
      by rewrite lookup_app_l by (rewrite length_rev; lia).
    + rewrite length_rev. intros i Hi. destruct (Z.eq_dec i (P + Z.of_nat (S (length b)) - 1)) as [->|Hne]; [done|].
      rewrite Ho by lia. apply E7. lia.
Qed.

Lemma erase_in_mid me P b a x keys d :
  room P -> (len (b, a) < 128)%nat -> a <> [] -> editing P (b, a) x -> key_edits me P (b, a) x Erase keys d.
Proof.
  intros [HP HP'] Hl Ha He. unfold key_edits. cbn [code]. apply (erase_dispatch me P (b, a)); [done|].
  pose proof He as [E1 E2 E3 E4 E5 E6]. unfold len, line in *. cbn [fst snd] in *.
  assert (La : (0 < length a)%nat) by (destruct a; [done|cbn; lia]).
  replace (negb _) with true by lia. rewrite E2. replace (_ =? 0) with false by lia. cbn [when].
  unfold _input_in_mid. dsteps. change (BACKSPACE =? BACKSPACE) with true. cbn [orb]. rewrite E1, E2, E3. cbn [i_e].
  assert (Hu : forall n, (0 < n < 1000)%nat -> u32 (- Z.of_nat n) = 2 ^ 32 - Z.of_nat n).
  { intros n Hn. symmetry. apply (Z.mod_unique (- Z.of_nat n) (2 ^ 32) (-1)); lia. }
  rewrite !Hu by lia. destruct b as [|c b]; cbn [length] in *.
  { replace (_ <=? _) with true by lia. dsteps. by apply (key_done P ([], a)). }
  replace (_ <=? _) with false by lia. rewrite i32_small by (unfold_int; lia). dsteps.
  replace (Z.of_nat (S (length b) + length a) + - Z.of_nat (length a)) with (Z.of_nat (S (length b))) by lia.
  apply Forall_app in E5 as [Pcb Pa]. pose proof Pcb as Pb. cbn [rev] in Pb. apply Forall_app in Pb as [Pb _].
  eapply (update_erase_does c b a (127 - (S (length b) + length a))); rewrite ?E1; try done; try lia.
  { cbn [i_buf]. rewrite <- app_assoc. do 3 f_equal. lia. }
  cbn [i_r i_w i_e]. apply does_bind, does_get. cbn [input set_input i_e]. rewrite Z.sub_simpl_r.
  set (y := set_input _ _). set (l' := rev b ++ a).
  assert (Ll : length l' = (length b + length a)%nat) by (unfold l'; rewrite length_app, length_rev; lia).
  eapply does_mono; [apply (redraw_does l' (128 - (length b + length a)) (Z.of_nat (length b + length a))
    (Z.of_nat (S (length b) + length a)) (P + Z.of_nat (S (length b)) - 1) y P); try done; try lia|].
  { unfold y, l'. cbn. rewrite <- app_assoc. f_equal; [|lia]. do 2 f_equal.
    replace (128 - (length b + length a))%nat with (S (S (127 - (S (length b) + length a)))) by lia. done. }
  { unfold l'. by apply Forall_app. }
  { unfold y. cbn [cursor _arrow set_input]. rewrite E3, E2. lia. }
  { intros i Hi. apply (proj2 E6). rewrite length_app, length_rev. cbn [length]. lia. }
  intros _ w (Hs & Hcw & Hw & Ho). destruct Hs as (p' & s' & u' & ->).
  apply (key_done P (b, a)); [unfold len; cbn in *; lia| |by split].
  constructor; cbn [fst snd tl]; fold l'; try done.
  - cbn. unfold len, line. cbn [fst snd]. rewrite <- app_assoc. f_equal; [|lia]. do 2 f_equal.
    replace (128 - (length b + length a))%nat with (S (S (127 - (S (length b) + length a)))) by lia. done.
  - rewrite Hcw. lia.
  - unfold line. by apply Forall_app.
Qed.

Lemma every_key me P l k x keys d :
  room P -> (len l < 127)%nat -> typed k -> editing P l x -> key_edits me P l x k keys d.
Proof.
  intros HP Hl Hk He. destruct l as [b a], k as [c| | |]; [| |apply left_key; (done || lia)|apply right_key; (done || lia)].
  - destruct a as [|z a]; [by apply type_at_end|by apply type_in_mid].
  - destruct a as [|z a]; [apply erase_at_end; (done || lia)|apply erase_in_mid; (done || lia)].
Qed.

(** ** A whole line *)

Definition edits (ks : list key) (l : list Z * list Z) : list Z * list Z := fold_left (fun l k => edit k l) ks l.

Lemma edit_len k l : (len (edit k l) <= S (len l))%nat.
Proof. destruct l as [[|b bs] [|a as_]], k; unfold len; cbn; lia. Qed.
Lemma edits_len ks l : (len (edits ks l) <= len l + length ks)%nat.
Proof.
  revert l; induction ks as [|k ks IH]; intros l; cbn; [lia|]. specialize (IH (edit k l)). pose proof (edit_len k l).
  unfold edits in *. lia.
Qed.
Lemma code_nonneg k : typed k -> (code k <? 0) = false.
Proof. destruct k as [c| | |]; [|done..]. unfold typed, plain. cbn. lia. Qed.

Lemma typing_run me P ks rest l g fuel d :
  room P -> (len l + length ks <= 127)%nat -> Forall typed ks -> editing P l (g_val g) ->
  exists x', consoleintr_loop me (length ks + fuel) (map code ks ++ rest) d g = consoleintr_loop me fuel rest d (putv x' g) /\
    editing P (edits ks l) x' /\ same_rest P (g_val g) x'.
Proof.
  intros HP. revert l g; induction ks as [|k ks IH]; intros l g Hl Hk He.
  { exists (g_val g). cbn. by rewrite putv_same. }
  apply Forall_cons in Hk as [Hk Hks]. cbn [length map app Nat.add consoleintr_loop] in *. rewrite code_nonneg by done.
  destruct (every_key me P l k (g_val g) (map code ks ++ rest) d HP) with (g := g) as (r & y & E & -> & Hy & Hr); [lia|done..|].
  rewrite (bind_eq _ _ _ _ _ E). cbn [fst snd].
  destruct (IH (edit k l) (putv y g)) as (x' & E' & Hx' & Hr'); [pose proof (edit_len k l); lia|done|done|].
  exists x'. rewrite E'. split_and!; [done|done|by eapply same_rest_trans].
Qed.

End Screen.

Lemma putv_in_cs me g x x' w : putv x' (in_cs me g x w) = in_cs me g x' w.
Proof. done. Qed.

(** C30: The line editor.  On an empty line that starts at position [P], with nothing on
    the screen after it, any sequence of at most 127 printable characters other than the
    question mark, backspaces and left and right arrows leaves in the input buffer the
    line the abstract editor makes of it, with the cursor where the editor has it; the
    screen shows that line from [P] on and nothing after it, and is as before up to [P];
    nothing is delivered to readers and the history is untouched.  The screen must not
    need to scroll. *)
Theorem console_line_editor (me : nat) (P : Z) (ks : list key) (g : guarded console) :
  g_quiet g -> room P -> editing 1920 P ([], []) (g_val g) -> Forall typed ks -> (length ks <= 127)%nat ->
  exists x', consoleintr me (map code ks) g = Ret false (out_cs g x' (g_wakes g)) /\
    editing 1920 P (edits ks ([], [])) x' /\ same_rest P (g_val g) x'.
Proof.
  intros Hg HP He Hk Hl. unfold consoleintr. rewrite (bind_eq _ _ _ _ _ (g_acquire_run me g Hg)).
  set (g1 := in_cs me g (g_val g) (g_wakes g)).
  destruct (typing_run 1920 me P ks [] ([], []) g1 1 false HP Hl Hk He) as (x' & E & Hx' & Hr).
  rewrite app_nil_r in E. replace (length ks + 1)%nat with (S (length (map code ks))) in E by (rewrite length_map; lia).
  exists x'. split; [|done]. rewrite (bind_eq _ _ _ _ _ E).
  unfold g1. by rewrite putv_in_cs, (bind_eq _ _ _ _ _ (g_release_run me g x' _ Hg)).
Qed.

Lemma editing_boot bound : editing bound 0 ([], []) (g_val consoleinit).
Proof. constructor; try done. split; [done|]. by left. Qed.

(** [abc], two steps left, [X], backspace, [Y] leaves [aYbc]. *)
Lemma console_line_editor_witness :
  exists x', consoleintr 0 (map code [Type_ 97; Type_ 98; Type_ 99; Left_; Left_; Type_ 88; Erase; Type_ 89]) consoleinit =
    Ret false (out_cs consoleinit x' []) /\ take 5 (i_buf (input x')) = [97; 89; 98; 99; 0].
Proof.
  destruct (console_line_editor 0 0 [Type_ 97; Type_ 98; Type_ 99; Left_; Left_; Type_ 88; Erase; Type_ 89] consoleinit)
    as (x' & E & He & _); [by split|split; lia|apply editing_boot|repeat constructor; lia|cbn; lia|].
  exists x'. split; [exact E|]. rewrite (ed_input _ _ _ _ He). reflexivity.
Defined.

(** ** Enter, and the reader *)

(** [does], for a routine that also wakes the sleepers on [ws]. *)
Definition does_w {A} (m : M (guarded console) A) (x : console) (ws : list chan) (Q : A -> console -> Prop) : Prop :=
  forall g, g_val g = x -> exists a x', m g = Ret a (mk_g (g_cpu g) (g_lk g) x' (g_wakes g ++ ws)) /\ Q a x'.

Lemma does_w_bind {A B} (m : M (guarded console) A) (f : A -> M (guarded console) B) x ws Q :
  does m x (fun a x' => does_w (f a) x' ws Q) -> does_w (m ≫= f) x ws Q.
Proof.
  intros H g Hg. destruct (H g Hg) as (a & x' & E & H'). rewrite (bind_eq _ _ _ _ _ E). by apply (H' (putv x' g)).
Qed.
Lemma does_w_then {A B} (m : M (guarded console) A) (f : A -> M (guarded console) B) x ws Q :
  does_w m x ws (fun a x' => does (f a) x' Q) -> does_w (m ≫= f) x ws Q.
Proof.
  intros H g Hg. destruct (H g Hg) as (a & x' & E & H'). rewrite (bind_eq _ _ _ _ _ E).
  destruct (H' (mk_g (g_cpu g) (g_lk g) x' (g_wakes g ++ ws)) eq_refl) as (b & x'' & E' & HQ). by exists b, x''.
Qed.
Lemma does_wakeup ch x (Q : unit -> console -> Prop) : Q tt x -> does_w (g_wakeup ch) x [ch] Q.
Proof. intros HQ g <-. by exists tt, (g_val g). Qed.
Lemma does_w_mono {A} (m : M (guarded console) A) x ws (Q Q' : A -> console -> Prop) :
  does_w m x ws Q -> (forall a x', Q a x' -> Q' a x') -> does_w m x ws Q'.
Proof. intros H HQ g Hg. destruct (H g Hg) as (a & x' & E & Hq). exists a, x'. auto. Qed.

(** The comparison with a command reads the buffer only, and finds it equal only
    if its cells from the second on are the command's. *)
Lemma str_cmp_does t i x :
  0 <= i -> i + Z.of_nat (length t) < Z.of_nat (length (i_buf (input x))) ->
  does (str_cmp_loop (t ++ [0]) i) x (fun r x' => x' = x /\
    (r = 1 \/ (forall j c, (t ++ [0]) !! S j = Some c -> cell (i_buf (input x)) (i + 1 + Z.of_nat j) = Some c) \/ In 0 t)).
Proof.
  revert i; induction t as [|c t IH]; intros i Hi Hl; cbn [app str_cmp_loop].
  { change (0 =? 0) with true. dsteps. split; [done|]. right. left. intros [] ? ?; done. }
  destruct (Z.eqb_spec c 0) as [->|H0]; [dsteps; split; [done|]; right; right; by left|].
  cbn [length] in Hl. destruct (cell (i_buf (input x)) (i + 1)) as [b|] eqn:Eb.
  2:{ exfalso. unfold cell in Eb. replace (i + 1 <? 0) with false in Eb by lia. apply lookup_ge_None in Eb. lia. }
  apply does_bind. eapply buf_get_does; [exact Eb|]. destruct (Z.eqb_spec b (hd 0 (t ++ [0]))) as [E|E]; cbn [negb].
  - eapply does_mono; [apply (IH (i + 1)); lia|]. intros r x' (-> & [->|[H|H]]); (split; [done|]); [by left| |by right; right; right].
    right. left. intros [|j] d Hd.
    + cbn in Hd. rewrite Z.add_0_r, Eb. rewrite E. destruct (t ++ [0]); [done|]. cbn in Hd. done.
    + replace (i + 1 + Z.of_nat (S j)) with (i + 1 + 1 + Z.of_nat j) by lia. by apply H.
  - dsteps. split; [done|]. by left.
Qed.

Lemma cell_line l z j : Forall plain l -> cell (l ++ NL :: replicate z 0) (Z.of_nat j) = Some NL -> j = length l.
Proof.
  intros Hl. unfold cell. replace (_ <? 0) with false by lia. rewrite Nat2Z.id.
  intros [H|[Hge H]]%lookup_app_Some; [rewrite Forall_lookup in Hl; apply Hl in H; unfold plain, NL in H; lia|].
  destruct (j - length l)%nat as [|k] eqn:E; [lia|]. cbn in H. by apply lookup_replicate in H as [? _].
Qed.

(** Only a line that ends in [istory] is taken for the history command. *)
Lemma not_history l z x (Q : unit -> console -> Prop) me :
  i_buf (input x) = l ++ NL :: replicate z 0 -> (length l + 1 + z = 128)%nat -> Forall plain l ->
  (forall c, l <> c :: bytes_of_string "istory") -> Q tt x ->
  does (_handle_custom_commands me) x Q.
Proof.
  intros Hb Hlz Hl Hne HQ. unfold _handle_custom_commands, _buffer_with_str_cmp. apply does_bind.
  change (bytes_of_string "history" ++ [NL; 0]) with ((bytes_of_string "history" ++ [NL]) ++ [0]).
  eapply does_mono; [apply str_cmp_does; [lia|]|].
  { change (length (bytes_of_string "history" ++ [NL])) with 8%nat. rewrite Hb, length_app. cbn [length]. rewrite length_replicate. cbn. lia. }
  intros r y (-> & Hr). destruct Hr as [->|[H|H]].
  - change (1 =? 0) with false. dsteps. exact HQ.
  - exfalso. rewrite Hb in H. pose proof (H 6%nat NL eq_refl) as H7. apply (cell_line l z 7) in H7; [|done].
    do 8 (destruct l as [|? l]; try done).
    pose proof (H 0%nat _ eq_refl) as K0. pose proof (H 1%nat _ eq_refl) as K1. pose proof (H 2%nat _ eq_refl) as K2.
    pose proof (H 3%nat _ eq_refl) as K3. pose proof (H 4%nat _ eq_refl) as K4. pose proof (H 5%nat _ eq_refl) as K5.
    vm_compute in K0, K1, K2, K3, K4, K5. simplify_eq. by eapply Hne.
  - exfalso. cbn in H. unfold NL in H. intuition lia.
Qed.

(** The state of the console after [Enter] on line [l]. *)
Record entered (l : list Z) (x : console) : Prop := mk_entered {
  en_input : input x = mk_buffer (l ++ NL :: replicate (127 - length l) 0) 0 (Z.of_nat (length l + 1)) (Z.of_nat (length l + 1));
  en_arrow : _arrow x = 0;
  en_live : panicked x = false;
  en_cursor : 0 <= cursor x < 1920 }.

Lemma enter_does bound me P l x c keys d :
  room P -> (len l < 127)%nat -> editing bound P l x -> c = NL \/ c = 13 -> (forall c, line l <> c :: bytes_of_string "istory") ->
  does_w (console_key me c keys d) x [CInput] (fun r x' => r = (d, keys) /\ entered (line l) x' /\ same_store x x').
Proof.
  intros [HP HP'] Hl [E1 E2 E3 E4 E5 E6] Hc Hne. unfold console_key, C, _LEFT_ARROW, _RIGHT_ARROW, _UP_ARROW, _DOWN_ARROW, NL in *.
  replace (c =? 80 - 64) with false by lia. replace (c =? 85 - 64) with false by lia.
  replace ((c =? 72 - 64) || (c =? 127)) with false by lia.
  replace ((c =? 228) || (c =? 229) || (c =? 226) || (c =? 227)) with false by lia. replace (c =? 83 - 64) with false by lia.
  set (n := len l) in *. assert (Hn : length (line l) = n) by apply line_length.
  apply does_w_then, does_w_then. unfold default_key. apply does_w_bind, does_get. rewrite E1. cbn [i_e i_r]. rewrite u32_small by lia.
  replace (negb (c =? 0) && _) with true by lia. cbn [when]. unfold NL. replace (if c =? 13 then 10 else c) with 10
    by (destruct Hc as [->| ->]; done). change (10 =? 10) with true. cbv zeta.
  apply does_w_bind, does_mod, does_w_bind, does_get. cbn [_arrow set_arrow Z.eqb]. apply does_w_bind.
  apply does_bind. eapply buf_set_does.
  { cbn [input set_arrow i_buf i_e]. rewrite E1. cbn [i_buf i_e]. rewrite Z.mod_small, zeros_split by lia. apply set_cell_mid. lia. }
  change (i8 10) with 10. dsteps. set (y := set_input _ _). change 10 with NL at 1.
  assert (Hy : input y = mk_buffer (line l ++ NL :: replicate (127 - n) 0) 0 0 (Z.of_nat (n + 1))).
  { unfold y, with_buf, set_i_buf, set_e. cbn [input set_input set_arrow]. rewrite E1. cbn [i_buf i_r i_w i_e].
    rewrite u32_small by lia. replace (128 - n - 1)%nat with (127 - n)%nat by lia. f_equal. lia. }
  eapply does_mono; [apply (newline_does y); [done|]|].
  { unfold y. cbn [cursor set_input with_buf set_arrow]. rewrite E3. unfold n, len in *. lia. }
  intros _ w (Hs & Hcw). destruct Hs as (p' & s' & u' & ->). apply does_w_bind, does_get. cbn [orb when].
  apply does_w_bind, does_mod, does_w_then, does_wakeup.
  set (v := set_input _ _). assert (Hv : input v = mk_buffer (line l ++ NL :: replicate (127 - n) 0) 0 (Z.of_nat (n + 1)) (Z.of_nat (n + 1))).
  { unfold v, set_w. cbn [input set_input set_uart set_screen]. rewrite Hy. cbn [i_buf i_r i_w i_e]. by rewrite u32_small by lia. }
  apply (not_history (line l) (127 - n)); [by rewrite Hv|lia|done|done|]. dsteps.
  apply (solve_nothing (line l ++ [NL]) (127 - n)); [rewrite Hv; by rewrite <- app_assoc|
    |rewrite length_app; cbn; lia|lia|].
  { apply Forall_app. split; [by apply plain_63|]. repeat constructor; unfold NL; lia. }
  apply does_ret. split; [done|]. split; [|done]. constructor; try done. by rewrite Hv, Hn.
Qed.

(** Reading the line up to its end. *)
Lemma reading_does me l a b k n target killed x :
  i_buf (input x) = a ++ l ++ NL :: b -> i_r (input x) = Z.of_nat (length a) ->
  i_w (input x) = Z.of_nat (length a + length l + 1) -> (length a + length l < 128)%nat -> Forall plain l ->
  (length l < k)%nat -> 0 <= _last_history x ->
  does (consoleread_loop me k n target killed) x (fun r x' => r = n - Z.of_nat (length l) - 1 /\
    dst x' = dst x ++ l ++ [NL] /\ input x' = buffer0 /\ _last_history x' = _last_history x + 1 /\
    _current_history x' = _last_history x' /\
    _history x' = <[Z.to_nat (_MOD (_last_history x)) := mk_buffer (a ++ l ++ NL :: b) (i_w (input x)) (i_w (input x)) (i_e (input x))]>
      (_history x)).
Proof.
  revert a k n x; induction l as [|c l IH]; intros a k n x Hb Hr Hw Hlen Hl Hk Hlast; (destruct k as [|k]; [cbn in Hk; lia|]);
    cbn [consoleread_loop]; apply does_bind, does_get; rewrite Hr, Hw; cbn [length] in *;
    replace (Z.of_nat (length a) =? _) with false by lia; rewrite Z.mod_small by lia; apply does_bind;
    (eapply buf_get_does; [rewrite Hb; cbn [app]; by rewrite cell_mid|]); unfold C.
  - change (NL =? 68 - 64) with false. change (NL =? NL) with true. dsteps. cbn [_last_history set_dst set_input].
    unfold _MOD in *. assert (Hm : 0 <= Z.rem (Z.rem (_last_history x) _N_HISTORY + _N_HISTORY) _N_HISTORY).
    { apply Z.rem_nonneg; [done|]. pose proof (Z.rem_nonneg (_last_history x) _N_HISTORY). unfold _N_HISTORY in *. lia. }
    replace (_ <? 0) with false by lia. dsteps. cbn [length]. split_and!; [lia|done|done|done|done|].
    cbn. f_equal. unfold set_r. rewrite Hr, Hb, Hw, u32_small by lia. f_equal; lia.
  - apply Forall_cons in Hl as [[Hc Hc'] Hl]. replace (c =? 68 - 64) with false by lia. unfold NL in *. replace (c =? 10) with false by lia.
    dsteps. set (y := set_dst _ _).
    assert (Hy : input y = mk_buffer (a ++ (c :: l) ++ 10 :: b) (Z.of_nat (length a + 1)) (i_w (input x)) (i_e (input x))).
    { unfold y. unfold set_r. cbn [input set_dst set_input]. rewrite Hr, Hb, u32_small by lia. f_equal. lia. }
    eapply does_mono; [apply (IH (a ++ [c])); rewrite ?Hy; cbn [i_buf i_r i_w]; rewrite ?length_app; cbn [length]; try done; try lia|].
    + by rewrite <- app_assoc.
    + intros r z (-> & Hd & Hi & H1 & H2 & H3). split_and!; try done; [lia| |].
      * rewrite Hd. unfold y. cbn. by rewrite <- app_assoc.
      * rewrite H3, Hy. cbn [i_w i_e]. rewrite Hw, <- app_assoc. done.
Qed.

(** C29: What is typed is what is read.  After a session of fewer than 127 keys, each a
    printable character other than the question mark, a backspace or a left or right
    arrow, that starts on an empty line with room for it on the screen and ends with
    [Enter], sleeping readers are woken and a [consoleread] of enough bytes returns
    exactly the edited line and its newline; the line goes to the next slot of the
    history and the input buffer is empty again.  A line of any letter followed by
    [istory] is taken for the history command instead. *)
Theorem console_delivers_line (me : nat) (P c n : Z) (ks : list key) (killed : bool) (g : guarded console) :
  let l := line (edits ks ([], [])) in
  g_quiet g -> room P -> editing P P ([], []) (g_val g) -> Forall typed ks -> (length ks < 127)%nat -> c = NL \/ c = 13 ->
  (forall c, l <> c :: bytes_of_string "istory") -> 0 <= _last_history (g_val g) -> Z.of_nat (length l) < n ->
  exists g1 g2, consoleintr me (map code ks ++ [c]) g = Ret false g1 /\ g_wakes g1 = g_wakes g ++ [CInput] /\
    consoleread me n killed g1 = Ret (Z.of_nat (length l) + 1) g2 /\
    let x := g_val g2 in
    dst x = l ++ [NL] /\ input x = buffer0 /\ _last_history x = _last_history (g_val g) + 1 /\
    _history x = <[Z.to_nat (_MOD (_last_history (g_val g))) :=
      mk_buffer (l ++ NL :: replicate (127 - length l) 0) (Z.of_nat (length l + 1)) (Z.of_nat (length l + 1)) (Z.of_nat (length l + 1))]>
      (_history (g_val g)).
Proof.
  intros l Hg HP He Hk Hl Hc Hne Hlast Hn. set (L := edits ks ([], [])) in *.
  assert (HL : (len L < 127)%nat) by (pose proof (edits_len ks ([], [])) as H; unfold len at 2 in H; cbn in H; unfold L; lia).
  assert (Hll : length l = len L) by apply line_length.
  set (g0 := in_cs me g (g_val g) (g_wakes g)).
  destruct (typing_run P me P ks [c] ([], []) g0 2 false HP) as (y & E & Hy & Hr); [unfold len; cbn; lia|done|done|]. fold L in Hy.
  destruct (enter_does P me P L y c [] false HP HL Hy Hc Hne (putv y g0) eq_refl) as (r & x & E' & -> & Hx & Hr').
  set (g1 := out_cs g x (g_wakes g ++ [CInput])).
  assert (E1 : consoleintr me (map code ks ++ [c]) g = Ret false g1).
  { unfold consoleintr. rewrite (bind_eq _ _ _ _ _ (g_acquire_run me g Hg)). fold g0.
    rewrite (bind_eq _ _ _ false (in_cs me g x (g_wakes g ++ [CInput]))).
    - by rewrite (bind_eq _ _ _ _ _ (g_release_run me g x _ Hg)).
    - replace (S (length (map code ks ++ [c]))) with (length ks + 2)%nat by (rewrite length_app, length_map; cbn; lia).
      rewrite E. cbn [consoleintr_loop]. replace (c <? 0) with false by (unfold NL in Hc; lia).
      by rewrite (bind_eq _ _ _ _ _ E'). }
  assert (Hg1 : g_quiet (putv (set_dst [] x) g1)) by (by apply out_cs_quiet).
  destruct Hr as (_ & R1 & R2 & R3 & R4 & R5), Hr' as (S1 & S2 & S3 & S4 & S5).
  assert (Hlx : _last_history x = _last_history (g_val g)) by (rewrite S3; exact R3).
  destruct (reading_does me l [] (replicate (127 - length l) 0) (Z.to_nat n) n n killed (set_dst [] x)) with
    (g := in_cs me (putv (set_dst [] x) g1) (set_dst [] x) (g_wakes g1)) as (r & z & E2 & -> & D1 & D2 & D3 & D4 & D5);
    try (cbn [input set_dst _last_history]; rewrite ?(en_input _ _ Hx); cbn [i_buf i_r i_w length app]; (done || lia)).
  { apply (ed_plain _ _ _ _ Hy). }
  exists g1, (out_cs (putv (set_dst [] x) g1) z (g_wakes g1)). cbv zeta. cbn [g_val out_cs].
  split_and!; [done|done| |by rewrite D1|done|rewrite D3; exact (f_equal (fun v => v + 1) Hlx)|].
  - unfold consoleread. rewrite (bind_eq (g_mod _) _ g1 tt (putv (set_dst [] x) g1) eq_refl). unfold consoleread_from.
    rewrite (bind_eq _ _ _ _ _ (g_acquire_run me _ Hg1)). change (g_val (putv (set_dst [] x) g1)) with (set_dst [] x).
    rewrite (bind_eq _ _ _ _ _ E2), putv_in_cs, (bind_eq _ _ _ _ _ (g_release_run me _ _ _ Hg1)).
    unfold mret, M_MRet, M_ret. f_equal. lia.
  - rewrite D5. cbn [input set_dst _last_history _history]. rewrite (en_input _ _ Hx). cbn [i_w i_e app].
    rewrite Hlx, S1, R1. done.
Qed.

Lemma console_delivers_line_witness :
  exists g1 g2, consoleintr 0 (map code [Type_ 108; Type_ 120; Erase; Type_ 115] ++ [13]) consoleinit = Ret false g1 /\
    consoleread 0 100 false g1 = Ret 3 g2 /\ dst (g_val g2) = [108; 115; 10].
Proof.
  destruct (console_delivers_line 0 0 13 100 [Type_ 108; Type_ 120; Erase; Type_ 115] false consoleinit)
    as (g1 & g2 & E1 & _ & E2 & D & _).
  - by split.
  - split; lia.
  - apply editing_boot.
  - repeat constructor; lia.
  - cbn. lia.
  - by right.
  - intros c H. discriminate H.
  - cbn. lia.
  - cbn. lia.
  - exists g1, g2. split; [exact E1|]. split; [exact E2|exact D].
Defined.

(** ** Where the driver goes wrong *)

(** ^U erases the line but leaves the cursor's offset: the next character typed is
    stored before the start of [input.buf]. *)
Theorem kill_line_keeps_arrow :
  fault_of (consoleintr 0 ([97; 98; _LEFT_ARROW; _LEFT_ARROW; 21] ++ [99]) consoleinit) = Some OutOfBounds.
Proof. vm_compute. reflexivity. Qed.

(** In ^S mode a backspace on an empty line writes before the start of [input.buf]. *)
Theorem ctrl_s_backspace_underflow : fault_of (consoleintr 0 [19; 8; 6] consoleinit) = Some OutOfBounds.
Proof. vm_compute. reflexivity. Qed.

(** What is typed ahead of the reader is lost: after [ls], Enter and [cat], reading
    the first line empties the whole buffer. *)
Theorem type_ahead_lost :
  let g1 := result_state (consoleintr 0 [108; 115; 13; 99; 97; 116] consoleinit) in
  let g2 := result_state (consoleread 0 100 false g1) in
  take 7 (i_buf (input (g_val g1))) = [108; 115; 10; 99; 97; 116; 0] /\
  value_of (consoleread 0 100 false g1) = Some 3 /\ dst (g_val g2) = [108; 115; 10] /\ input (g_val g2) = buffer0.
Proof. cbv zeta. split_and!; vm_compute; reflexivity. Qed.

(** [xistory] is taken for [history]: the line is dropped before a reader sees it. *)
Theorem history_first_letter_ignored :
  let r := consoleintr 0 (bytes_of_string "xistory" ++ [13]) consoleinit in
  value_of r = Some false /\ i_w (input (g_val (result_state r))) = 0 /\ i_e (input (g_val (result_state r))) = 0.
Proof. cbv zeta. split_and!; vm_compute; reflexivity. Qed.
