(* ===== verification/Vm.v ===== *)
(** Page tables and user memory ([vm.c]), over the page allocator.

    The memory is that of [Kalloc]: [k_mem k a] is what the cell at kernel address
    [a] holds, a word for page-table entries and free-list links, a byte for user
    data; the code reads a cell at the width it was written.  The messages [vm.c]
    prints when memory runs out are left out. *)

From S2P Require Import Prelude Locks Guarded Kalloc.

Definition NPDENTRIES : nat := 1024.
Definition EXTMEM : Z := 1048576.
Definition DEVSPACE : Z := 4261412864. (* 0xFE000000 *)
Definition KERNLINK : Z := KERNBASE + EXTMEM.
Definition PTE_P : Z := 1.
Definition PTE_W : Z := 2.
Definition PTE_U : Z := 4.

Definition PDX (va : Z) : Z := Z.land (Z.shiftr va 22) 1023.
Definition PTX (va : Z) : Z := Z.land (Z.shiftr va 12) 1023.
Definition PGADDR (d t o : Z) : Z := u32 (Z.lor (Z.lor (Z.shiftl d 22) (Z.shiftl t 12)) o).
Definition PGROUNDDOWN (a : Z) : Z := Z.land a 4294963200. (* ~(PGSIZE-1) *)
Definition PTE_ADDR (pte : Z) : Z := Z.land pte 4294963200.
Definition PTE_FLAGS (pte : Z) : Z := Z.land pte 4095.
Definition P2V (a : Z) : Z := u32 (a + KERNBASE).
Definition present (pte : Z) : bool := ctrue (Z.land pte PTE_P).

(** Changes of memory: one cell, [memset(v, 0, PGSIZE)], a range of cells. *)
Definition with_mem (f : (Z -> Z) -> Z -> Z) (k : kmem) : kmem := mk_kmem (k_use_lock k) (k_freelist k) (f (k_mem k)).
Definition set_word (a x : Z) : kmem -> kmem := with_mem (fun m b => if b =? a then x else m b).
Definition zero_page (v : Z) : kmem -> kmem := with_mem (fun m b => if (v <=? b) && (b <? v + PGSIZE) then 0 else m b).
Definition copy_cells (dst src n : Z) : kmem -> kmem :=
  with_mem (fun m b => if (dst <=? b) && (b <? dst + n) then m (src + (b - dst)) else m b).
Definition put_cells (dst : Z) (l : list Z) : kmem -> kmem :=
  with_mem (fun m b => if (dst <=? b) && (b <? dst + Z.of_nat (length l)) then nth (Z.to_nat (b - dst)) l 0 else m b).

Section Vm.
(** [kend] is the end of the kernel and [data] the start of its data, which the
    linker sets; [me] is the CPU. *)
Context (kend data : Z) (me : nat).
Notation K := (M (guarded kmem)).

Definition rd (a : Z) : K Z := k ← g_get; mret (k_mem k a).
Definition wr (a x : Z) : K unit := g_mod (set_word a x).

(** Returns the address of the entry, or 0. *)
Definition walkpgdir (pgdir va : Z) (alloc : bool) : K Z :=
  let pde := pgdir + 4 * PDX va in
  e ← rd pde;
  if present e then mret (P2V (PTE_ADDR e) + 4 * PTX va)
  else if negb alloc then mret 0
  else
    pgtab ← kalloc me;
    if pgtab =? 0 then mret 0
    else
      g_mod (zero_page pgtab) ;;
      wr pde (Z.lor (Z.lor (Z.lor (V2P pgtab) PTE_P) PTE_W) PTE_U) ;;
      mret (pgtab + 4 * PTX va).

(** [n] pages after the one at [a]. *)
Fixpoint mappages_loop (n : nat) (pgdir a pa perm : Z) : K Z :=
  pte ← walkpgdir pgdir a true;
  if pte =? 0 then mret (-1)
  else
    e ← rd pte;
    if present e then panic "remap"
    else
      wr pte (Z.lor (Z.lor pa perm) PTE_P) ;;
      match n with
      | O => mret 0
      | S n' => mappages_loop n' pgdir (u32 (a + PGSIZE)) (u32 (pa + PGSIZE)) perm
      end.
(** The loop ends when [a] reaches [last], wrapping around if it has to. *)
Definition mappages (pgdir va size pa perm : Z) : K Z :=
  let a := PGROUNDDOWN va in
  let last := PGROUNDDOWN (u32 (va + size - 1)) in
  mappages_loop (Z.to_nat (u32 (last - a) / PGSIZE)) pgdir a pa perm.

(** The loop of [deallocuvm] from [a] on. *)
Fixpoint deallocuvm_loop (fuel : nat) (pgdir a oldsz : Z) : K unit :=
  match fuel with
  | O => faults OutOfFuel
  | S f =>
      if negb (a <? oldsz) then mret tt
      else
        pte ← walkpgdir pgdir a false;
        if pte =? 0 then
          deallocuvm_loop f pgdir (u32 (u32 (PGADDR (PDX a + 1) 0 0 - PGSIZE) + PGSIZE)) oldsz
        else
          e ← rd pte;
          (if present e then
             let pa := PTE_ADDR e in
             if pa =? 0 then panic "kfree"
             else kfree kend me (P2V pa) ;; wr pte 0
           else mret tt) ;;
          deallocuvm_loop f pgdir (u32 (a + PGSIZE)) oldsz
  end.
Definition deallocuvm (pgdir oldsz newsz : Z) : K Z :=
  if newsz >=? oldsz then mret oldsz
  else
    let a := PGROUNDUP newsz in
    (* every turn moves [a] up by a page or more *)
    deallocuvm_loop (Z.to_nat ((oldsz - a) / PGSIZE + 2)) pgdir a oldsz ;;
    mret newsz.

Fixpoint allocuvm_loop (fuel : nat) (pgdir a oldsz newsz : Z) : K Z :=
  match fuel with
  | O => faults OutOfFuel
  | S f =>
      if negb (a <? newsz) then mret newsz
      else
        mem ← kalloc me;
        if mem =? 0 then
          deallocuvm pgdir newsz oldsz ;; mret 0
        else
          g_mod (zero_page mem) ;;
          r ← mappages pgdir a PGSIZE (V2P mem) (Z.lor PTE_W PTE_U);
          if r <? 0 then
            deallocuvm pgdir newsz oldsz ;; kfree kend me mem ;; mret 0
          else allocuvm_loop f pgdir (u32 (a + PGSIZE)) oldsz newsz
  end.
Definition allocuvm (pgdir oldsz newsz : Z) : K Z :=
  if newsz >=? KERNBASE then mret 0
  else if newsz <? oldsz then mret oldsz
  else
    let a := PGROUNDUP oldsz in
    allocuvm_loop (Z.to_nat ((newsz - a) / PGSIZE + 2)) pgdir a oldsz newsz.

Fixpoint free_tables (n : nat) (i pgdir : Z) : K unit :=
  match n with
  | O => mret tt
  | S n' =>
      e ← rd (pgdir + 4 * i);
      when (present e) (kfree kend me (P2V (PTE_ADDR e))) ;;
      free_tables n' (i + 1) pgdir
  end.
Definition freevm (pgdir : Z) : K unit :=
  if pgdir =? 0 then panic "freevm: no pgdir"
  else
    deallocuvm pgdir KERNBASE 0 ;;
    free_tables NPDENTRIES 0 pgdir ;;
    kfree kend me pgdir.

(** [kmap]: virtual address, physical start and end, permissions. *)
Definition kmap : list (Z * Z * Z * Z) :=
  [ (KERNBASE, 0, EXTMEM, PTE_W);
    (KERNLINK, V2P KERNLINK, V2P data, 0);
    (data, V2P data, PHYSTOP, PTE_W);
    (DEVSPACE, DEVSPACE, 0, PTE_W) ].

Fixpoint map_kernel (pgdir : Z) (ks : list (Z * Z * Z * Z)) : K Z :=
  match ks with
  | [] => mret pgdir
  | (virt, phys_start, phys_end, perm) :: ks' =>
      r ← mappages pgdir virt (u32 (phys_end - phys_start)) phys_start perm;
      if r <? 0 then freevm pgdir ;; mret 0 else map_kernel pgdir ks'
  end.
Definition setupkvm : K Z :=
  pgdir ← kalloc me;
  if pgdir =? 0 then mret 0
  else
    g_mod (zero_page pgdir) ;;
    if P2V PHYSTOP >? DEVSPACE then panic "PHYSTOP too high"
    else map_kernel pgdir kmap.

(** [kalloc]'s result is not checked. *)
Definition inituvm (pgdir : Z) (init : list Z) : K unit :=
  if Z.of_nat (length init) >=? PGSIZE then panic "inituvm: more than a page"
  else
    mem ← kalloc me;
    if mem =? 0 then faults NullDeref
    else
      g_mod (zero_page mem) ;;
      mappages pgdir 0 PGSIZE (V2P mem) (Z.lor PTE_W PTE_U) ;;
      g_mod (put_cells mem init).

Definition clearpteu (pgdir uva : Z) : K unit :=
  pte ← walkpgdir pgdir uva false;
  if pte =? 0 then panic "clearpteu"
  else e ← rd pte; wr pte (Z.land e (u32 (Z.lnot PTE_U))).

Fixpoint copyuvm_loop (fuel : nat) (pgdir d sz i : Z) : K Z :=
  match fuel with
  | O => faults OutOfFuel
  | S f =>
      if negb (i <? sz) then mret d
      else
        pte ← walkpgdir pgdir i false;
        if pte =? 0 then panic "copyuvm: pte should exist"
        else
          e ← rd pte;
          if negb (present e) then panic "copyuvm: page not present"
          else
            let pa := PTE_ADDR e in
            let flags := PTE_FLAGS e in
            mem ← kalloc me;
            if mem =? 0 then freevm d ;; mret 0
            else
              g_mod (copy_cells mem (P2V pa) PGSIZE) ;;
              r ← mappages d i PGSIZE (V2P mem) flags;
              if r <? 0 then kfree kend me mem ;; freevm d ;; mret 0
              else copyuvm_loop f pgdir d sz (u32 (i + PGSIZE))
  end.
Definition copyuvm (pgdir sz : Z) : K Z :=
  d ← setupkvm;
  if d =? 0 then mret 0
  else copyuvm_loop (Z.to_nat (sz / PGSIZE + 2)) pgdir d sz 0.

(** The entry is read without checking that there is one. *)
Definition uva2ka (pgdir uva : Z) : K Z :=
  pte ← walkpgdir pgdir uva false;
  if pte =? 0 then faults NullDeref
  else
    e ← rd pte;
    if negb (present e) then mret 0
    else if Z.land e PTE_U =? 0 then mret 0
    else mret (P2V (PTE_ADDR e)).

Fixpoint copyout_loop (fuel : nat) (pgdir va : Z) (buf : list Z) : K Z :=
  match fuel with
  | O => faults OutOfFuel
  | S f =>
      if Z.of_nat (length buf) =? 0 then mret 0
      else
        let va0 := PGROUNDDOWN va in
        pa0 ← uva2ka pgdir va0;
        if pa0 =? 0 then mret (-1)
        else
          let n := PGSIZE - (va - va0) in
          let n := if n >? Z.of_nat (length buf) then Z.of_nat (length buf) else n in
          g_mod (put_cells (pa0 + (va - va0)) (take (Z.to_nat n) buf)) ;;
          copyout_loop f pgdir (u32 (va0 + PGSIZE)) (drop (Z.to_nat n) buf)
  end.
(** [len] bytes touch at most [len / PGSIZE + 2] pages. *)
Definition copyout (pgdir va : Z) (p : list Z) : K Z :=
  copyout_loop (Z.to_nat (Z.of_nat (length p) / PGSIZE + 3)) pgdir va p.
End Vm.
