(* ===== verification/VmSpace.v ===== *)
(** What [vm.c] does to an address space ([Vm]).

    An address space is seen as a function from page numbers to page-table entries
    ([entry]); [tables] says that the directory and the tables take pages of their
    own, [space U] that the user pages are those in [U], each with a physical page
    of its own.  [mappages], [allocuvm], [deallocuvm], [freevm], [setupkvm] and
    [copyuvm] are shown to do what they should for every size and every amount of
    free memory, running out of it included. *)

From S2P Require Import Prelude Locks Guarded Kalloc Vm.

(** ** Addresses and entries *)

Lemma land_low z : Z.land z 4095 = z mod 4096.
Proof. exact (Z.land_ones z 12 ltac:(lia)). Qed.

Lemma land_page z : 0 <= z < 2 ^ 32 -> Z.land z 4294963200 = z - z mod 4096.
Proof.
  intros Hz. change 4294963200 with (Z.land (Z.ones 32) (Z.lnot (Z.ones 12))).
  rewrite Z.land_assoc, Z.land_ones, Z.mod_small, <- Z.ldiff_land, Z.ldiff_ones_r by lia.
  rewrite Z.shiftl_mul_pow2, Z.shiftr_div_pow2 by lia. pose proof (Z.div_mod z 4096). change (2 ^ 12) with 4096. lia.
Qed.

Lemma lor_aligned x f : x mod 4096 = 0 -> 0 <= f < 4096 -> Z.lor x f = x + f.
Proof.
  intros Hx Hf. assert (E : Z.land x f = 0); [|pose proof (Z.add_lor_land x f); lia].
  rewrite <- (Z.mod_small f 4096) by lia. rewrite <- land_low, (Z.land_comm f), Z.land_assoc, land_low, Hx. apply Z.land_0_l.
Qed.

Lemma lor_flags a b : 0 <= a < 4096 -> 0 <= b < 4096 -> 0 <= Z.lor a b < 4096.
Proof.
  intros Ha Hb. assert (E : Z.lor a b = Z.lor a b mod 4096); [|rewrite E; apply Z.mod_pos_bound; lia].
  rewrite <- land_low, Z.land_lor_distr_l, !land_low, !Z.mod_small by lia. done.
Qed.

Lemma lor_odd f : Z.odd f = true -> Z.lor f PTE_P = f.
Proof.
  intros Hf. apply Z.bits_inj'. intros i Hi. rewrite Z.lor_spec. unfold PTE_P.
  destruct (Z.eq_dec i 0) as [->|]; [by rewrite Z.bit0_odd, Hf|].
  change 1 with (2 ^ 0). rewrite Z.pow2_bits_false by lia. apply orb_false_r.
Qed.
Lemma present_odd e : present e = Z.odd e.
Proof.
  unfold present, ctrue, PTE_P. change 1 with (Z.ones 1). rewrite Z.land_ones by lia. change (2 ^ 1) with 2.
  rewrite Zmod_odd. by destruct (Z.odd e).
Qed.

Lemma odd_aligned x f : x mod 4096 = 0 -> Z.odd (x + f) = Z.odd f.
Proof.
  intros Hx. rewrite Z.odd_add. replace x with (2 * (2048 * (x / 4096))) by (pose proof (Z.div_mod x 4096); lia).
  rewrite Z.odd_mul. done.
Qed.

(** The number of the page a virtual address is in. *)
Definition vpn (va : Z) : Z := va / 4096.

Lemma PDX_vpn va : 0 <= va < 2 ^ 32 -> PDX va = vpn va / 1024.
Proof.
  intros Hva. unfold PDX, vpn. rewrite (Z.land_ones _ 10), Z.shiftr_div_pow2 by lia.
  rewrite Z.div_div by lia. change (4096 * 1024) with (2 ^ 22). apply Z.mod_small.
  split; [apply Z.div_pos; lia|apply Z.div_lt_upper_bound; lia].
Qed.
Lemma PTX_vpn va : 0 <= va < 2 ^ 32 -> PTX va = vpn va mod 1024.
Proof. intros Hva. unfold PTX, vpn. by rewrite (Z.land_ones _ 10), Z.shiftr_div_pow2 by lia. Qed.

Lemma vpn_range va : 0 <= va < 2 ^ 32 -> 0 <= vpn va < 2 ^ 20.
Proof. intros. unfold vpn. split; [apply Z.div_pos; lia|apply Z.div_lt_upper_bound; lia]. Qed.

(** ** An address space as a function from page numbers to entries *)

Definition pde (k : kmem) (pgdir i : Z) : Z := k_mem k (pgdir + 4 * i).
Definition table (k : kmem) (pgdir i : Z) : Z := P2V (PTE_ADDR (pde k pgdir i)).
(** The entry of page [n], 0 where there is no table. *)
Definition entry (k : kmem) (pgdir n : Z) : Z :=
  if present (pde k pgdir (n / 1024)) then k_mem k (table k pgdir (n / 1024) + 4 * (n mod 1024)) else 0.

Section Spaces.
Context (kend : Z) (me : nat).
(** The kernel is linked above [KERNBASE]. *)
Hypothesis Hkend : KERNBASE < kend.

Lemma page_V2P v : page kend v -> V2P v = v - KERNBASE /\ (v - KERNBASE) mod 4096 = 0 /\ 0 <= v - KERNBASE < PHYSTOP.
Proof.
  intros (H1 & H2 & H3 & H4). unfold V2P, KERNBASE, PHYSTOP, PGSIZE in *. rewrite u32_small in * by lia.
  split; [done|]. split; [|lia]. rewrite Zminus_mod, H1. done.
Qed.
Lemma page_entry v f : page kend v -> 0 <= f < 4096 -> P2V (PTE_ADDR (V2P v + f)) = v /\ PTE_FLAGS (V2P v + f) = f /\
  0 <= V2P v + f < 2 ^ 32 /\ PTE_ADDR (V2P v + f) = V2P v.
Proof.
  intros Hv Hf. destruct (page_V2P v Hv) as (-> & Hm & Hr). unfold KERNBASE, PHYSTOP in *.
  assert (Em : (v - 2147483648 + f) mod 4096 = f).
  { rewrite Zplus_mod, Hm, Z.add_0_l, !Z.mod_mod by lia. apply Z.mod_small. lia. }
  unfold PTE_ADDR, PTE_FLAGS, P2V, KERNBASE. rewrite land_low, land_page, Em by lia.
  split_and!; try lia. rewrite u32_small by lia. lia.
Qed.

(** The structure of a page table: [l] is the free list, every table is a page of
    its own in use. *)
Record tables (l : list Z) (pgdir : Z) (k : kmem) : Prop := mk_tables {
  tb_pool : pool kend l k;
  tb_dir : page kend pgdir;
  tb_dir_used : pgdir ∉ l;
  tb_table : forall i, 0 <= i < 1024 -> present (pde k pgdir i) = true ->
    exists t, pde k pgdir i = V2P t + 7 /\ page kend t /\ t ∉ l /\ t <> pgdir;
  tb_inj : forall i j, 0 <= i < 1024 -> 0 <= j < 1024 -> present (pde k pgdir i) = true -> present (pde k pgdir j) = true ->
    pde k pgdir i = pde k pgdir j -> i = j }.

(** The pages the page table itself takes. *)
Definition table_page (k : kmem) (pgdir v : Z) : Prop :=
  v = pgdir \/ exists i, 0 <= i < 1024 /\ present (pde k pgdir i) = true /\ v = table k pgdir i.

Lemma table_is l pgdir k i :
  tables l pgdir k -> 0 <= i < 1024 -> present (pde k pgdir i) = true ->
  page kend (table k pgdir i) /\ table k pgdir i ∉ l /\ table k pgdir i <> pgdir /\ pde k pgdir i = V2P (table k pgdir i) + 7.
Proof.
  intros T Hi Hp. destruct (tb_table _ _ _ T i Hi Hp) as (t & E & Ht & Hl & Hn).
  unfold table. rewrite E. destruct (page_entry t 7 Ht) as (-> & _); [lia|]. done.
Qed.
Lemma table_inj l pgdir k i j :
  tables l pgdir k -> 0 <= i < 1024 -> 0 <= j < 1024 -> present (pde k pgdir i) = true -> present (pde k pgdir j) = true ->
  table k pgdir i = table k pgdir j -> i = j.
Proof.
  intros T Hi Hj Pi Pj E. apply (tb_inj _ _ _ T); try done.
  destruct (table_is _ _ _ _ T Hi Pi) as (_ & _ & _ & ->), (table_is _ _ _ _ T Hj Pj) as (_ & _ & _ & ->). by rewrite E.
Qed.

(** Two cells of different pages are different. *)
Lemma cells_apart u v x y : page kend u -> page kend v -> u <> v -> 0 <= x < 4096 -> 0 <= y < 4096 -> u + x <> v + y.
Proof.
  intros Hu Hv Hne Hx Hy E. apply (page_disjoint kend u v (u + x) Hu Hv Hne); unfold PGSIZE; lia.
Qed.

(** Writing an entry through its table. *)
Lemma outside_page u (f g : Z -> Z) v x :
  page kend u -> page kend v -> v <> u -> 0 <= x < 4096 ->
  (if (u <=? v + x) && (v + x <? u + PGSIZE) then f (v + x) else g (v + x)) = g (v + x).
Proof.
  intros Hu Hv Hne Hx. destruct ((u <=? v + x) && (v + x <? u + PGSIZE)) eqn:E; [|done]. exfalso.
  apply (page_disjoint kend v u (v + x) Hv Hu Hne); unfold PGSIZE in *; lia.
Qed.

Lemma push_outside u k v x :
  page kend u -> page kend v -> v <> u -> 0 <= x < 4096 -> k_mem (push_page u (fill_page u k)) (v + x) = k_mem k (v + x).
Proof.
  intros Hu Hv Hne Hx. cbn. assert (v + x <> u) by (rewrite <- (Z.add_0_r u); apply cells_apart; (done || lia)).
  rewrite (proj2 (Z.eqb_neq _ _)) by done. by apply (outside_page u (fun _ => 16843009)).
Qed.
Lemma table_page_used l pgdir k v : tables l pgdir k -> table_page k pgdir v -> page kend v /\ v ∉ l.
Proof.
  intros T [->|(i & Hi & Pi & ->)]; [split; [apply (tb_dir _ _ _ T)|apply (tb_dir_used _ _ _ T)]|].
  by destruct (table_is _ _ _ _ T Hi Pi) as (? & ? & _).
Qed.

Lemma write_entry l pgdir k n x :
  tables l pgdir k -> 0 <= n < 2 ^ 20 -> present (pde k pgdir (n / 1024)) = true ->
  let k' := set_word (table k pgdir (n / 1024) + 4 * (n mod 1024)) x k in
  tables l pgdir k' /\ (forall i, 0 <= i < 1024 -> pde k' pgdir i = pde k pgdir i) /\
  forall m, 0 <= m < 2 ^ 20 -> entry k' pgdir m = if m =? n then x else entry k pgdir m.
Proof.
  intros T Hn Hp k'. assert (Hd : 0 <= n / 1024 < 1024) by (split; [apply Z.div_pos; lia|apply Z.div_lt_upper_bound; lia]).
  assert (Hm : 0 <= n mod 1024 < 1024) by (apply Z.mod_pos_bound; lia).
  destruct (table_is _ _ _ _ T Hd Hp) as (Ht & Hl & Hne & Epde). set (t := table k pgdir (n / 1024)) in *.
  assert (Hpde : forall i, 0 <= i < 1024 -> pde k' pgdir i = pde k pgdir i).
  { intros i Hi. unfold pde, k'. cbn. assert (pgdir + 4 * i <> t + 4 * (n mod 1024)).
    { apply cells_apart; [apply (tb_dir _ _ _ T)|done|done|lia|lia]. }
    by rewrite (proj2 (Z.eqb_neq _ _)). }
  assert (T' : tables l pgdir k').
  { destruct T as [T1 T2 T3 T4 T5]. constructor; try done.
    - apply (pool_write kend l k t); [done|done|done|unfold PGSIZE; lia].
    - intros i Hi. rewrite Hpde by done. by apply T4.
    - intros i j Hi Hj. rewrite !Hpde by done. by apply T5. }
  split; [done|]. split; [done|]. intros m Hm'.
  assert (Hd' : 0 <= m / 1024 < 1024) by (split; [apply Z.div_pos; lia|apply Z.div_lt_upper_bound; lia]).
  assert (Hmm : 0 <= m mod 1024 < 1024) by (apply Z.mod_pos_bound; lia).
  unfold entry, table. rewrite Hpde by done. fold (table k pgdir (m / 1024)).
  destruct (Z.eqb_spec m n) as [->|Hmn].
  - rewrite Hp. fold t. unfold k'. cbn. by rewrite Z.eqb_refl.
  - destruct (present (pde k pgdir (m / 1024))) eqn:Pm; [|done].
    destruct (table_is _ _ _ _ T Hd' Pm) as (Ht' & _). unfold k'. cbn.
    assert (table k pgdir (m / 1024) + 4 * (m mod 1024) <> t + 4 * (n mod 1024)).
    { destruct (Z.eq_dec (m / 1024) (n / 1024)) as [E|E].
      - rewrite E. fold t. pose proof (Z.div_mod m 1024). pose proof (Z.div_mod n 1024). lia.
      - apply cells_apart; [done|done| |lia|lia]. intros E'. apply E. by apply (table_inj l pgdir k). }
    by rewrite (proj2 (Z.eqb_neq _ _)).
Qed.

(** A new, empty table. *)
Lemma new_table l t pgdir k i :
  tables (t :: l) pgdir k -> 0 <= i < 1024 -> present (pde k pgdir i) = false ->
  let k' := set_word (pgdir + 4 * i) (V2P t + 7) (zero_page t (pop_page k)) in
  tables l pgdir k' /\ table k' pgdir i = t /\ present (pde k' pgdir i) = true /\
  (forall j, 0 <= j < 1024 -> j <> i -> pde k' pgdir j = pde k pgdir j) /\
  forall m, 0 <= m < 2 ^ 20 -> entry k' pgdir m = entry k pgdir m.
Proof.
  intros T Hi Hp k'. destruct T as [T1 T2 T3 T4 T5]. apply not_elem_of_cons in T3 as [Hne T3].
  destruct (pool_pop kend _ _ T1) as [Hh T1']. cbn [tl hd] in *.
  assert (Ht : page kend t) by (destruct T1 as (_ & _ & Hf); by inversion Hf).
  assert (Htl : t ∉ l) by (destruct T1 as (_ & Hnd & _); by inversion Hnd).
  assert (Hcell : forall v x, page kend v -> v <> t -> 0 <= x < 4096 -> v + x <> pgdir + 4 * i -> k_mem k' (v + x) = k_mem k (v + x)).
  { intros v x Hv Hvt Hx Hc. unfold k'. cbn. rewrite (proj2 (Z.eqb_neq _ _) Hc).
    by apply (outside_page t (fun _ => 0)). }
  assert (Hpde : forall j, 0 <= j < 1024 -> j <> i -> pde k' pgdir j = pde k pgdir j).
  { intros j Hj Hji. apply Hcell; [done|done|lia|lia]. }
  assert (Hpi : pde k' pgdir i = V2P t + 7) by (unfold pde, k'; cbn; by rewrite Z.eqb_refl).
  destruct (page_entry t 7 Ht) as (Et & _ & _ & _); [lia|].
  assert (Htab : table k' pgdir i = t) by (unfold table; by rewrite Hpi).
  assert (Hpr : present (pde k' pgdir i) = true).
  { rewrite Hpi, present_odd, odd_aligned; [done|]. destruct (page_V2P t Ht) as (-> & ? & _). done. }
  assert (Hold : forall j, 0 <= j < 1024 -> present (pde k pgdir j) = true -> exists u, pde k pgdir j = V2P u + 7 /\
    page kend u /\ u ∉ l /\ u <> pgdir /\ u <> t).
  { intros j Hj Pj. destruct (T4 j Hj Pj) as (u & E & Hu & Hul & Hun). exists u.
    apply not_elem_of_cons in Hul as [? ?]. done. }
  assert (Hdiff : forall j, 0 <= j < 1024 -> present (pde k pgdir j) = true -> pde k pgdir j <> V2P t + 7).
  { intros j Hj Pj E. destruct (Hold j Hj Pj) as (u & Eu & Hu & _ & _ & Hut). apply Hut.
    destruct (page_V2P u Hu) as (Vu & _), (page_V2P t Ht) as (Vt & _). lia. }
  split_and!; try done.
  - constructor; try done.
    + apply (pool_write kend l (zero_page t (pop_page k)) pgdir); [|done|done|unfold PGSIZE; lia].
      destruct T1' as (C1 & C2 & C3). split; [|done]. eapply chain_ext; [|exact C1]. intros u Hu. cbn.
      destruct ((t <=? u) && (u <? t + PGSIZE)) eqn:E; [|done]. exfalso. rewrite Forall_forall in C3.
      apply (page_disjoint kend u t u (C3 u Hu) Ht); unfold PGSIZE in *; [by intros ->|lia|lia].
    + intros j Hj. destruct (Z.eq_dec j i) as [->|Hji].
      * intros _. exists t. rewrite Hpi. done.
      * rewrite Hpde by done. intros Pj. destruct (Hold j Hj Pj) as (u & ? & ? & ? & ? & _). by exists u.
    + intros j j' Hj Hj'. destruct (Z.eq_dec j i) as [->|Hji], (Z.eq_dec j' i) as [->|Hji']; rewrite ?Hpi, ?Hpde by done; try done.
      * intros _ P' E. exfalso. by apply (Hdiff j' Hj' P').
      * intros P' _ E. exfalso. by apply (Hdiff j Hj P').
      * by apply T5.
  - intros m Hm. assert (Hd : 0 <= m / 1024 < 1024) by (split; [apply Z.div_pos; lia|apply Z.div_lt_upper_bound; lia]).
    assert (Hmm : 0 <= m mod 1024 < 1024) by (apply Z.mod_pos_bound; lia).
    unfold entry. destruct (Z.eq_dec (m / 1024) i) as [E|E].
    + rewrite E, Hpr, Hp, Htab. unfold k'. cbn.
      assert (t + 4 * (m mod 1024) <> pgdir + 4 * i) by (apply cells_apart; (done || lia)).
      rewrite (proj2 (Z.eqb_neq _ _)) by done. by replace (_ && _) with true by (unfold PGSIZE; lia).
    + unfold table. rewrite Hpde by done. fold (table k pgdir (m / 1024)).
      destruct (present (pde k pgdir (m / 1024))) eqn:Pm; [|done].
      destruct (Hold _ Hd Pm) as (u & Eu & Hu & _ & Hud & Hut). unfold table. rewrite Eu.
      destruct (page_entry u 7 Hu) as (-> & _); [lia|]. apply Hcell; [done|done|lia|].
      apply cells_apart; (done || lia).
Qed.

Lemma pop_nil k : pool kend [] k -> pop_page k = k.
Proof. intros (Hc & _). cbn in Hc. unfold pop_page. rewrite Hc. cbn. destruct k; cbn in *. by subst. Qed.

Lemma runs_kalloc l k (Q : Z -> kmem -> Prop) :
  pool kend l k -> Q (hd 0 l) (pop_page k) -> runs (kalloc me) k Q.
Proof.
  intros Hp HQ g Hg <-. destruct (kalloc_run me g Hg) as (g' & E & Hg' & Ev).
  destruct (pool_pop kend _ _ Hp) as [Hh _]. exists (hd 0 l), g'. rewrite E, Hh, Ev. done.
Qed.
Lemma runs_kfree v k (Q : unit -> kmem -> Prop) :
  page kend v -> Q tt (push_page v (fill_page v k)) -> runs (kfree kend me v) k Q.
Proof. intros Hv HQ g Hg <-. destruct (kfree_run kend me v g Hg Hv) as (g' & E & Hg' & Ev). exists tt, g'. by rewrite E, Ev. Qed.

(** [k'] comes from [k] by work on the page table [pgdir]: it may have taken pages
    from the free list for tables, and changed its own tables; nothing else. *)
Record grows (pgdir : Z) (l : list Z) (k : kmem) (l' : list Z) (k' : kmem) : Prop := mk_grows {
  gr_tables : tables l' pgdir k';
  gr_free : exists new, l = new ++ l';
  gr_used : forall v, v ∈ l -> v ∈ l' \/ table_page k' pgdir v;
  gr_new : forall v, table_page k' pgdir v -> table_page k pgdir v \/ v ∈ l;
  gr_kept : forall v, table_page k pgdir v -> table_page k' pgdir v;
  gr_frame : forall v x, page kend v -> v ∉ l -> ~ table_page k pgdir v -> 0 <= x < 4096 -> k_mem k' (v + x) = k_mem k (v + x) }.

Lemma grows_refl pgdir l k : tables l pgdir k -> grows pgdir l k l k.
Proof. intros T. constructor; try done; [by exists []|by left|by left]. Qed.
Lemma grows_trans pgdir l k l1 k1 l2 k2 : grows pgdir l k l1 k1 -> grows pgdir l1 k1 l2 k2 -> grows pgdir l k l2 k2.
Proof.
  intros [A1 [n1 A2] A0 A3 A4 A5] [B1 [n2 B2] B0 B3 B4 B5].
  assert (Hin : forall v, v ∈ l1 -> v ∈ l) by (intros v Hv; rewrite A2; apply elem_of_app; by right).
  constructor; [done|exists (n1 ++ n2); by rewrite A2, B2, app_assoc| | | |].
  - intros v Hv. destruct (A0 v Hv) as [H|H]; [by apply B0|right; by apply B4].
  - intros v Hv. destruct (B3 v Hv) as [H|H]; [by apply A3|right; by apply Hin].
  - intros v Hv. by apply B4, A4.
  - intros v x Hp Hv Ht Hx. rewrite B5, A5; try done; [intros H; by apply Hv, Hin|].
    intros H. destruct (A3 v H); [by apply Ht|by apply Hv].
Qed.

Lemma pte_addr_split va : 0 <= va < 2 ^ 32 -> PDX va = vpn va / 1024 /\ PTX va = vpn va mod 1024 /\
  0 <= vpn va / 1024 < 1024 /\ 0 <= vpn va mod 1024 < 1024.
Proof.
  intros Hva. pose proof (vpn_range va Hva). rewrite PDX_vpn, PTX_vpn by done. split_and!; try done.
  - apply Z.div_pos; lia.
  - apply Z.div_lt_upper_bound; lia.
  - apply Z.mod_pos_bound; lia.
  - apply Z.mod_pos_bound; lia.
Qed.

(** What [walkpgdir] finds, or makes. *)
Definition walked (l : list Z) (pgdir n : Z) (alloc : bool) (k : kmem) (r : Z) (k' : kmem) : Prop :=
  (r = 0 /\ k' = k /\ present (pde k pgdir (n / 1024)) = false /\ (alloc = true -> l = [])) \/
  (r = table k' pgdir (n / 1024) + 4 * (n mod 1024) /\ r <> 0 /\ present (pde k' pgdir (n / 1024)) = true /\
   (alloc = false -> k' = k) /\
   exists l', grows pgdir l k l' k' /\ (length l <= length l' + 1)%nat /\
     forall m, 0 <= m < 2 ^ 20 -> entry k' pgdir m = entry k pgdir m).

Lemma walkpgdir_runs l pgdir va alloc k :
  tables l pgdir k -> 0 <= va < 2 ^ 32 -> runs (walkpgdir me pgdir va alloc) k (walked l pgdir (vpn va) alloc k).
Proof.
  intros T Hva. destruct (pte_addr_split va Hva) as (Ed & Et & Hd & Ht). unfold walkpgdir, rd. rsteps. rewrite Ed, Et.
  fold (pde k pgdir (vpn va / 1024)). destruct (present _) eqn:Hp.
  { rsteps. right. fold (table k pgdir (vpn va / 1024)). destruct (table_is _ _ _ _ T Hd Hp) as ((_ & _ & _ & ?) & _).
    split_and!; try done; [lia|]. exists l. split; [by apply grows_refl|]. split; [lia|done]. }
  destruct alloc; cbn [negb]; rsteps; [|left; done].
  eapply runs_kalloc; [apply (tb_pool _ _ _ T)|]. destruct l as [|t l]; cbn [hd].
  { change (0 =? 0) with true. rsteps. left. by rewrite (pop_nil k (tb_pool _ _ _ T)). }
  destruct (new_table l t pgdir k _ T Hd Hp) as (T' & Htab & Hpr & Hpde & Hent).
  destruct (tb_pool _ _ _ T) as (_ & _ & Hf). apply Forall_cons in Hf as [Hpt _]. pose proof Hpt as (_ & _ & _ & Htr).
  replace (t =? 0) with false by lia. unfold wr. rsteps. right.
  assert (E7 : Z.lor (Z.lor (Z.lor (V2P t) PTE_P) PTE_W) PTE_U = V2P t + 7).
  { rewrite <- !Z.lor_assoc. change (Z.lor PTE_P (Z.lor PTE_W PTE_U)) with 7. apply lor_aligned; [|lia].
    destruct (page_V2P t Hpt) as (-> & ? & _). done. }
  rewrite E7. set (k' := set_word _ _ _) in *. split_and!; try done; [by rewrite Htab|lia|].
  exists l. split; [|split; [cbn; lia|done]]. constructor; [done|by exists [t]| | | |].
  - intros v [->|Hv]%elem_of_cons; [right; right; exists (vpn va / 1024); by rewrite Htab|by left].
  - intros v [->|(i & Hi & Pi & ->)]; [left; by left|]. destruct (Z.eq_dec i (vpn va / 1024)) as [->|Hne].
    + right. rewrite Htab. by left.
    + left. right. exists i. unfold table. rewrite Hpde in Pi |- * by done. done.
  - intros v [->|(i & Hi & Pi & ->)]; [by left|]. right. exists i. destruct (Z.eq_dec i (vpn va / 1024)) as [->|Hne]; [congruence|].
    unfold table. by rewrite !Hpde.
  - intros v x Hv Hvl Hvt Hx. apply not_elem_of_cons in Hvl as [Hvt' Hvl]. unfold k'. cbn.
    assert (v + x <> pgdir + 4 * (vpn va / 1024)).
    { apply cells_apart; try done; [apply (tb_dir _ _ _ T)|intros ->; apply Hvt; by left|lia]. }
    rewrite (proj2 (Z.eqb_neq _ _)) by done. by apply (outside_page t (fun _ => 0)).
Qed.

(** An entry is set, as [mappages] does after [walkpgdir]. *)
Lemma set_entry_grows l pgdir k n x :
  tables l pgdir k -> 0 <= n < 2 ^ 20 -> present (pde k pgdir (n / 1024)) = true ->
  let k' := set_word (table k pgdir (n / 1024) + 4 * (n mod 1024)) x k in
  grows pgdir l k l k' /\ forall m, 0 <= m < 2 ^ 20 -> entry k' pgdir m = if m =? n then x else entry k pgdir m.
Proof.
  intros T Hn Hp k'. destruct (write_entry l pgdir k n x T Hn Hp) as (T' & Hpde & He). split; [|done].
  assert (Hd : 0 <= n / 1024 < 1024) by (split; [apply Z.div_pos; lia|apply Z.div_lt_upper_bound; lia]).
  assert (Hm : 0 <= n mod 1024 < 1024) by (apply Z.mod_pos_bound; lia).
  destruct (table_is _ _ _ _ T Hd Hp) as (Ht & _).
  constructor; [done|by exists []|by left| | |].
  - intros v [->|(i & Hi & Pi & ->)]; [left; by left|]. left. right. exists i. unfold table. rewrite Hpde in * by done. done.
  - intros v [->|(i & Hi & Pi & ->)]; [by left|]. right. exists i. unfold table. by rewrite !Hpde.
  - intros v y Hv _ Hvt Hy. unfold k'. cbn.
    assert (v + y <> table k pgdir (n / 1024) + 4 * (n mod 1024)).
    { apply cells_apart; try done; [|lia]. intros E. apply Hvt. right. by exists (n / 1024). }
    by rewrite (proj2 (Z.eqb_neq _ _)).
Qed.

(** The entries [mappages] makes: page [n + i] of [c] pages goes to [pa + i * PGSIZE]. *)
Definition mapped (n c pa perm : Z) (f : Z -> Z) (m : Z) : Z :=
  if (n <=? m) && (m <? n + c) then pa + (m - n) * 4096 + Z.lor perm PTE_P else f m.

(** [c] entries were made, all of them unless memory ran out. *)
Definition mapping_done (l : list Z) (pgdir n cnt pa perm : Z) (k : kmem) (r : Z) (k' : kmem) : Prop :=
  exists l' c, grows pgdir l k l' k' /\ 0 <= c <= cnt /\ Z.of_nat (length l) <= Z.of_nat (length l') + c /\
    (forall m, 0 <= m < 2 ^ 20 -> entry k' pgdir m = mapped n c pa perm (entry k pgdir) m) /\
    ((r = 0 /\ c = cnt) \/ (r = -1 /\ c < cnt /\ l' = [])).

Lemma vpn_next a : vpn (a + 4096) = vpn a + 1.
Proof. unfold vpn. rewrite <- (Z.div_add a 1 4096) by lia. done. Qed.

Lemma mappages_loop_runs cnt l pgdir k a pa perm :
  tables l pgdir k -> 0 <= a -> a + Z.of_nat cnt * 4096 < 2 ^ 32 ->
  pa mod 4096 = 0 -> 0 <= pa -> pa + Z.of_nat cnt * 4096 < 2 ^ 32 -> 0 <= perm < 4096 ->
  (forall m, vpn a <= m <= vpn a + Z.of_nat cnt -> present (entry k pgdir m) = false) ->
  runs (mappages_loop me cnt pgdir a pa perm) k (mapping_done l pgdir (vpn a) (Z.of_nat cnt + 1) pa perm k).
Proof.
  intros T Ha0 Hae Hpa Hpa0 Hpae Hpm Hun. revert l k a pa T Ha0 Hae Hpa Hpa0 Hpae Hun.
  induction cnt as [|cnt IH]; intros l k a pa T Ha0 Hae Hpa Hpa0 Hpae Hun; cbn [mappages_loop]; apply runs_bind;
    (eapply runs_mono; [apply (walkpgdir_runs l pgdir a true k T); lia|]);
    intros r k1 [(-> & -> & Hp & Hl)|(Hr & Hr0 & Hp & _ & l1 & Hg & Hlen & He)].
  1,3: change (0 =? 0) with true; rsteps; exists l, 0; split; [by apply grows_refl|]; split; [lia|]; split; [lia|]; split;
    [intros m Hm; unfold mapped; by replace (_ && _) with false by lia|right; split_and!; [done|lia|by apply Hl]].
  all: rewrite (proj2 (Z.eqb_neq _ _) Hr0); unfold rd, wr; rsteps;
    pose proof (vpn_range a ltac:(lia)) as Hvr; pose proof (gr_tables _ _ _ _ _ Hg) as T1;
    assert (Ek : k_mem k1 r = entry k1 pgdir (vpn a)) by (unfold entry; rewrite Hp, Hr; done);
    rewrite Ek, He, Hun by lia; rewrite Hr;
    destruct (set_entry_grows l1 pgdir k1 (vpn a) (Z.lor (Z.lor pa perm) PTE_P) T1 Hvr Hp) as [Hg2 He2];
    assert (Ep : Z.lor (Z.lor pa perm) PTE_P = pa + Z.lor perm PTE_P)
      by (rewrite <- Z.lor_assoc; apply lor_aligned; [done|apply lor_flags; unfold PTE_P; lia]); rewrite Ep in *.
  - rsteps. eexists l1, 1. split; [by eapply grows_trans|]. split; [lia|]. split; [lia|]. split; [|by left].
    intros m Hm. rewrite He2, He by done. unfold mapped. destruct (Z.eqb_spec m (vpn a)) as [->|].
    + replace (_ && _) with true by lia. lia.
    + by replace (_ && _) with false by lia.
  - rsteps. unfold PGSIZE. rewrite !u32_small by lia.
    set (k2 := set_word _ _ k1) in *. eapply runs_mono.
    + apply (IH l1 k2 (a + 4096) (pa + 4096) (gr_tables _ _ _ _ _ Hg2)); try lia.
      * rewrite <- (Z_mod_plus_full pa 1 4096) in Hpa. done.
      * intros m Hm. rewrite vpn_next in Hm. assert (0 <= m < 2 ^ 20).
        { unfold vpn in *. pose proof (Z.div_mod a 4096 ltac:(lia)). pose proof (Z.mod_pos_bound a 4096 ltac:(lia)). lia. }
        rewrite He2, (proj2 (Z.eqb_neq m (vpn a))), He by lia. apply Hun. lia.
    + intros r' k3 (l3 & c & Hg3 & Hc & Hlen3 & He3 & Hres). exists l3, (c + 1).
      split; [eapply grows_trans; [exact Hg|]; by eapply grows_trans|]. split; [lia|]. split; [lia|].
      split; [|destruct Hres as [[-> ->]|(-> & ? & ->)]; [left|right]; split_and!; (done || lia)].
      intros m Hm. rewrite He3 by done. unfold mapped. rewrite vpn_next, He2, He by done.
      destruct (Z.eqb_spec m (vpn a)) as [->|Hne].
      * replace ((vpn a + 1 <=? vpn a) && _) with false by lia. replace (_ && _) with true by lia. lia.
      * destruct ((vpn a + 1 <=? m) && (m <? vpn a + 1 + c)) eqn:E.
        -- replace ((vpn a <=? m) && _) with true by lia. lia.
        -- by replace ((vpn a <=? m) && _) with false by lia.
Qed.

Lemma mappages_runs l pgdir k va size pa perm :
  tables l pgdir k -> 0 <= va -> 0 < size -> va + size <= 2 ^ 32 ->
  pa mod 4096 = 0 -> 0 <= pa -> pa + (vpn (va + size - 1) - vpn va) * 4096 < 2 ^ 32 -> 0 <= perm < 4096 ->
  (forall m, vpn va <= m <= vpn (va + size - 1) -> present (entry k pgdir m) = false) ->
  runs (mappages me pgdir va size pa perm) k
    (mapping_done l pgdir (vpn va) (vpn (va + size - 1) - vpn va + 1) pa perm k).
Proof.
  intros T Hva Hsz Hend Hpa Hpa0 Hpae Hpm Hun. unfold mappages, PGROUNDDOWN. rewrite (u32_small (va + size - 1)) by lia.
  rewrite !land_page by lia.
  assert (Hr : forall x, x - x mod 4096 = vpn x * 4096) by (intros x; unfold vpn; pose proof (Z.div_mod x 4096); lia).
  rewrite !Hr. assert (Hle : vpn va <= vpn (va + size - 1)) by (apply Z.div_le_mono; lia).
  assert (H0 : 0 <= vpn va) by (apply Z.div_pos; lia).
  assert (Hlast : vpn (va + size - 1) * 4096 <= va + size - 1) by (unfold vpn; pose proof (Z.div_mod (va + size - 1) 4096 ltac:(lia)); pose proof (Z.mod_pos_bound (va + size - 1) 4096 ltac:(lia)); lia).
  assert (Hdist : va + size - 1 - va >= (vpn (va + size - 1) - vpn va - 1) * 4096).
  { unfold vpn in *. pose proof (Z.div_mod va 4096 ltac:(lia)). pose proof (Z.mod_pos_bound va 4096 ltac:(lia)). lia. }
  rewrite <- Z.mul_sub_distr_r, u32_small by lia. unfold PGSIZE. rewrite Z.div_mul by lia.
  set (c := vpn (va + size - 1) - vpn va) in *. assert (Hc : Z.of_nat (Z.to_nat c) = c) by lia.
  assert (Hv : vpn (vpn va * 4096) = vpn va) by (unfold vpn; by rewrite Z.div_mul).
  pose proof (mappages_loop_runs (Z.to_nat c) l pgdir k (vpn va * 4096) pa perm) as H. rewrite Hv, Hc in H.
  apply H; try done; try lia. intros m Hm. apply Hun. unfold c in Hm. lia.
Qed.

(** The case of one page. *)
Lemma map_one l pgdir k n pa perm :
  tables l pgdir k -> 0 <= n < 2 ^ 20 -> pa mod 4096 = 0 -> 0 <= pa < 2 ^ 32 -> 0 <= perm < 4096 -> present (entry k pgdir n) = false ->
  runs (mappages me pgdir (n * 4096) PGSIZE pa perm) k (fun r k' => exists l', grows pgdir l k l' k' /\ (length l <= length l' + 1)%nat /\
    (forall m, 0 <= m < 2 ^ 20 -> m <> n -> entry k' pgdir m = entry k pgdir m) /\
    ((r = 0 /\ entry k' pgdir n = pa + Z.lor perm PTE_P) \/ (r = -1 /\ entry k' pgdir n = entry k pgdir n /\ l = [] /\ l' = []))).
Proof.
  intros T Hn Hpa Hpr Hpm He.
  assert (Hv1 : vpn (n * 4096) = n) by (unfold vpn; by rewrite Z.div_mul).
  assert (Hv2 : vpn (n * 4096 + PGSIZE - 1) = n) by (symmetry; apply (Z.div_unique _ _ _ 4095); unfold PGSIZE; lia).
  eapply runs_mono; [apply (mappages_runs l pgdir k (n * 4096) PGSIZE pa perm); rewrite ?Hv1, ?Hv2; try done; unfold PGSIZE; try lia|].
  { intros m Hm'. by replace m with n by lia. }
  rewrite Hv1, Hv2. intros r k' (l' & c & G & Hc & Hlen & E & Hres). exists l'. split; [done|]. split; [lia|]. split.
  { intros m Hm' Hmn. rewrite E by done. unfold mapped. by replace (_ && _) with false by lia. }
  destruct Hres as [[-> Hc1]|(-> & Hc0 & ->)]; [left|right]; rewrite E by lia; unfold mapped.
  - split; [done|]. replace (_ && _) with true by lia. lia.
  - replace (_ && _) with false by lia. split_and!; try done. apply nil_length_inv. cbn in Hlen. lia.
Qed.

(** Work outside the tables leaves the address space alone. *)
Lemma tables_same l l' pgdir k k' :
  tables l pgdir k -> pool kend l' k' -> (forall v, table_page k pgdir v -> v ∉ l') ->
  (forall v x, table_page k pgdir v -> 0 <= x < 4096 -> k_mem k' (v + x) = k_mem k (v + x)) ->
  tables l' pgdir k' /\ (forall i, 0 <= i < 1024 -> pde k' pgdir i = pde k pgdir i) /\
  (forall m, 0 <= m < 2 ^ 20 -> entry k' pgdir m = entry k pgdir m).
Proof.
  intros T Hp Hl Hc.
  assert (Hpde : forall i, 0 <= i < 1024 -> pde k' pgdir i = pde k pgdir i) by (intros i Hi; apply Hc; [by left|lia]).
  split_and!; [|done|].
  - constructor; [done|apply (tb_dir _ _ _ T)|apply Hl; by left| |].
    + intros i Hi. rewrite Hpde by done. intros Pi. destruct (table_is _ _ _ _ T Hi Pi) as (? & ? & ? & ?).
      exists (table k pgdir i). split_and!; try done. apply Hl. right. by exists i.
    + intros i j Hi Hj. rewrite !Hpde by done. by apply (tb_inj _ _ _ T).
  - intros m Hm. assert (Hd : 0 <= m / 1024 < 1024) by (split; [apply Z.div_pos; lia|apply Z.div_lt_upper_bound; lia]).
    assert (0 <= m mod 1024 < 1024) by (apply Z.mod_pos_bound; lia).
    unfold entry, table. rewrite Hpde by done. destruct (present _) eqn:P; [|done].
    apply Hc; [right; by exists (m / 1024)|lia].
Qed.
Lemma table_page_same pgdir k k' v :
  (forall i, 0 <= i < 1024 -> pde k' pgdir i = pde k pgdir i) -> table_page k' pgdir v <-> table_page k pgdir v.
Proof.
  intros H. unfold table_page, table. split; (intros [->|(i & Hi & Pi & ->)]; [by left|right; exists i]);
    [rewrite H in Pi by done; by rewrite H|by rewrite H].
Qed.

(** *** User memory *)

(** The page behind page number [m]. *)
Definition upage (k : kmem) (pgdir m : Z) : Z := P2V (PTE_ADDR (entry k pgdir m)).

(** The user pages of [pgdir] are those in [U]; each has a page of its own. *)
Record space (U : Z -> Prop) (l : list Z) (pgdir : Z) (k : kmem) : Prop := mk_space {
  sp_tables : tables l pgdir k;
  sp_in : forall m, 0 <= m < 2 ^ 19 -> U m -> present (entry k pgdir m) = true /\
    exists u f, entry k pgdir m = V2P u + f /\ page kend u /\ 0 <= f < 4096 /\ u ∉ l /\ ~ table_page k pgdir u;
  sp_out : forall m, 0 <= m < 2 ^ 19 -> ~ U m -> present (entry k pgdir m) = false;
  sp_inj : forall m m', 0 <= m < 2 ^ 19 -> 0 <= m' < 2 ^ 19 -> U m -> U m' -> upage k pgdir m = upage k pgdir m' -> m = m' }.

Lemma upage_is U l pgdir k m :
  space U l pgdir k -> 0 <= m < 2 ^ 19 -> U m ->
  page kend (upage k pgdir m) /\ upage k pgdir m ∉ l /\ ~ table_page k pgdir (upage k pgdir m) /\
  exists f, 0 <= f < 4096 /\ entry k pgdir m = V2P (upage k pgdir m) + f.
Proof.
  intros S Hm HU. destruct (sp_in _ _ _ _ S m Hm HU) as (_ & u & f & E & Hu & Hf & Hl & Ht).
  unfold upage. rewrite E. destruct (page_entry u f Hu Hf) as (-> & _). split_and!; try done. by exists f.
Qed.

(** The pages below [n] keep their entries and contents. *)
Definition keeps_user (n pgdir : Z) (k k' : kmem) : Prop :=
  forall m, 0 <= m < n -> entry k' pgdir m = entry k pgdir m /\
    forall x, 0 <= x < 4096 -> k_mem k' (upage k pgdir m + x) = k_mem k (upage k pgdir m + x).

Lemma keeps_user_refl n pgdir k : keeps_user n pgdir k k.
Proof. done. Qed.
Lemma keeps_user_trans n pgdir k k1 k2 : keeps_user n pgdir k k1 -> keeps_user n pgdir k1 k2 -> keeps_user n pgdir k k2.
Proof.
  intros H1 H2 m Hm. destruct (H1 m Hm) as [E1 C1], (H2 m Hm) as [E2 C2]. split; [congruence|].
  intros x Hx. rewrite <- C1 by done. assert (Eu : upage k1 pgdir m = upage k pgdir m) by (unfold upage; by rewrite E1).
  rewrite <- Eu. by apply C2.
Qed.

(** A user page is freed and its entry cleared, as [deallocuvm] does. *)
Lemma free_user U l pgdir k n :
  space U l pgdir k -> 0 <= n < 2 ^ 19 -> U n ->
  let u := upage k pgdir n in
  let k1 := push_page u (fill_page u k) in
  let k' := set_word (table k pgdir (n / 1024) + 4 * (n mod 1024)) 0 k1 in
  space (fun m => U m /\ m <> n) (u :: l) pgdir k' /\
  (forall m, 0 <= m < 2 ^ 20 -> entry k' pgdir m = if m =? n then 0 else entry k pgdir m) /\
  (forall m x, 0 <= m < 2 ^ 19 -> m <> n -> U m -> 0 <= x < 4096 ->
     k_mem k' (upage k pgdir m + x) = k_mem k (upage k pgdir m + x)) /\
  (forall v, table_page k' pgdir v <-> table_page k pgdir v) /\
  (forall v x, page kend v -> ~ table_page k pgdir v -> v ∉ u :: l -> 0 <= x < 4096 -> k_mem k' (v + x) = k_mem k (v + x)).
Proof.
  intros S Hn HU u k1 k'. pose proof (sp_tables _ _ _ _ S) as T.
  destruct (upage_is _ _ _ _ _ S Hn HU) as (Hu & Hul & Hut & f & Hf & Ef). fold u in Hu, Hul, Hut, Ef.
  assert (Hc1 : forall v x, page kend v -> v <> u -> 0 <= x < 4096 -> k_mem k1 (v + x) = k_mem k (v + x)).
  { intros v x Hv Hvu Hx. by apply push_outside. }
  assert (Htp : forall v, table_page k pgdir v -> page kend v /\ v ∉ l /\ v <> u).
  { intros v Hv. destruct (table_page_used _ _ _ _ T Hv). split; [done|]. split; [done|]. intros ->. by apply Hut. }
  destruct (tables_same l (u :: l) pgdir k k1 T) as (T1 & Hpde1 & He1).
  { apply pool_push; [apply (tb_pool _ _ _ T)|done|done]. }
  { intros v Hv. destruct (Htp v Hv) as (_ & ? & ?). by apply not_elem_of_cons. }
  { intros v x Hv Hx. destruct (Htp v Hv) as (? & _ & ?). by apply Hc1. }
  assert (Hd : 0 <= n / 1024 < 1024) by (split; [apply Z.div_pos; lia|apply Z.div_lt_upper_bound; lia]).
  destruct (sp_in _ _ _ _ S n Hn HU) as (Pn & _).
  assert (Pd : present (pde k1 pgdir (n / 1024)) = true).
  { rewrite Hpde1 by done. unfold entry in Pn. by destruct (present (pde k pgdir (n / 1024))). }
  assert (Ek' : k' = set_word (table k1 pgdir (n / 1024) + 4 * (n mod 1024)) 0 k1) by (unfold k', table; by rewrite Hpde1).
  destruct (set_entry_grows (u :: l) pgdir k1 n 0 T1) as [G He2]; [lia|done|]. rewrite <- Ek' in *.
  assert (Hent : forall m, 0 <= m < 2 ^ 20 -> entry k' pgdir m = if m =? n then 0 else entry k pgdir m).
  { intros m Hm. rewrite He2, He1 by done. done. }
  assert (Hsame : forall m, 0 <= m < 2 ^ 19 -> m <> n -> entry k' pgdir m = entry k pgdir m).
  { intros m Hm Hmn. rewrite Hent by lia. by rewrite (proj2 (Z.eqb_neq _ _)). }
  assert (Hne : forall m, 0 <= m < 2 ^ 19 -> U m -> m <> n -> upage k pgdir m <> u).
  { intros m Hm HUm Hmn E. apply Hmn. by apply (sp_inj _ _ _ _ S). }
  assert (Htk : forall v, table_page k' pgdir v <-> table_page k pgdir v).
  { intros v. destruct (write_entry (u :: l) pgdir k1 n 0 T1 ltac:(lia) Pd) as (_ & Hpde2 & _). rewrite <- Ek' in Hpde2.
    rewrite (table_page_same pgdir k1 k') by done. by apply (table_page_same pgdir k k1). }
  assert (Hfr : forall v x, page kend v -> ~ table_page k pgdir v -> v ∉ u :: l -> 0 <= x < 4096 -> k_mem k' (v + x) = k_mem k (v + x)).
  { intros v x Hv Hvt Hvl Hx. rewrite (gr_frame _ _ _ _ _ G), Hc1; try done; [by apply not_elem_of_cons in Hvl as [? _]|].
    intros H. by apply (table_page_same pgdir k k1) in H. }
  split; [|split; [done|split; [|split; [exact Htk|exact Hfr]]]].
  - constructor.
    + apply (gr_tables _ _ _ _ _ G).
    + intros m Hm [HUm Hmn]. rewrite Hsame by done. destruct (sp_in _ _ _ _ S m Hm HUm) as (Pm & w & fw & Ew & Hw & Hfw & Hwl & Hwt).
      split; [done|]. exists w, fw. split; [done|]. split; [done|]. split; [done|].
      split; [|intros H; by apply Hwt, Htk]. apply not_elem_of_cons. split; [|done]. specialize (Hne m Hm HUm Hmn). unfold upage in Hne. rewrite Ew in Hne.
      destruct (page_entry w fw Hw Hfw) as (E & _). by rewrite E in Hne.
    + intros m Hm HnU. destruct (Z.eq_dec m n) as [->|Hmn]; [rewrite Hent, Z.eqb_refl by lia; done|].
      rewrite Hsame by done. apply (sp_out _ _ _ _ S); [done|]. tauto.
    + intros m m' Hm Hm' [HUm Hmn] [HUm' Hmn']. unfold upage. rewrite !Hsame by done. by apply (sp_inj _ _ _ _ S).
  - intros m x Hm Hmn HUm Hx. destruct (upage_is _ _ _ _ _ S Hm HUm) as (Hw & Hwl & Hwt & _).
    specialize (Hne m Hm HUm Hmn). apply Hfr; try done. by apply not_elem_of_cons.
Qed.

Lemma space_ext (U U' : Z -> Prop) l pgdir k :
  (forall m, 0 <= m < 2 ^ 19 -> U m <-> U' m) -> space U l pgdir k -> space U' l pgdir k.
Proof.
  intros H [S1 S2 S3 S4]. constructor; [done| | |].
  - intros m Hm HU. apply S2; [done|]. by apply H.
  - intros m Hm HU. apply S3; [done|]. by rewrite H.
  - intros m m' Hm Hm' HU HU'. apply S4; try done; by apply H.
Qed.

(** The release of the user pages from [b] to [e]: exactly these are added to the
    free list, the tables stay, and nothing else is written. *)
Definition released (b e pgdir : Z) (l : list Z) (k : kmem) (l' : list Z) (k' : kmem) : Prop :=
  (forall v, v ∈ l' <-> v ∈ l \/ exists m, 0 <= m < 2 ^ 19 /\ b <= m < e /\ v = upage k pgdir m) /\
  (forall v, table_page k' pgdir v <-> table_page k pgdir v) /\
  (forall v x, page kend v -> ~ table_page k pgdir v -> v ∉ l' -> 0 <= x < 4096 -> k_mem k' (v + x) = k_mem k (v + x)).
Lemma released_refl b e pgdir l k : e <= b -> released b e pgdir l k l k.
Proof. split; [|done]. intros v. split; [by left|]. intros [?|(m & ? & ? & ?)]; [done|lia]. Qed.
Lemma released_skip b b' e pgdir l k l' k' :
  b <= b' -> (forall m, 0 <= m < 2 ^ 19 -> b <= m < e -> b' <= m) -> released b' e pgdir l k l' k' -> released b e pgdir l k l' k'.
Proof.
  intros Hb Hs [H1 H2]. split; [|done]. intros v. rewrite H1.
  split; (intros [?|(m & ? & ? & ?)]; [by left|right; exists m]); split_and!; try done; try lia. by apply Hs.
Qed.

(** No table, no user page. *)
Lemma no_table U l pgdir k n m :
  space U l pgdir k -> present (pde k pgdir (n / 1024)) = false -> 0 <= m < 2 ^ 19 -> m / 1024 = n / 1024 -> ~ U m.
Proof.
  intros S Hp Hm E HU. destruct (sp_in _ _ _ _ S m Hm HU) as [Pm _]. unfold entry in Pm. rewrite E, Hp in Pm. done.
Qed.

Lemma V2P_nonzero u : page kend u -> V2P u <> 0.
Proof. intros Hu. destruct (page_V2P u Hu) as (-> & _). destruct Hu as (_ & ? & _). lia. Qed.

Lemma P2V_V2P u : page kend u -> P2V (V2P u) = u.
Proof. intros Hu. destruct (page_entry u 0 Hu) as (E0 & _ & _ & Ea0); [lia|]. rewrite Z.add_0_r in *. by rewrite Ea0 in E0. Qed.

Lemma PGADDR_next n : 0 <= n < 2 ^ 19 -> PGADDR (n / 1024 + 1) 0 0 = (n / 1024 + 1) * 1024 * 4096.
Proof.
  intros Hn. unfold PGADDR. rewrite Z.shiftl_0_l, !Z.lor_0_r, Z.shiftl_mul_pow2 by lia.
  assert (0 <= n / 1024 < 512) by (split; [apply Z.div_pos; lia|apply Z.div_lt_upper_bound; lia]).
  change (2 ^ 22) with (1024 * 4096). rewrite u32_small; lia.
Qed.

(** The loop skips a whole table that is not there. *)
Lemma skip_table b e n0 l pgdir k :
  space (fun m => m < n0 \/ b <= m < e) l pgdir k -> present (pde k pgdir (b / 1024)) = false ->
  forall m, 0 <= m < 2 ^ 19 -> b <= m < e -> (b / 1024 + 1) * 1024 <= m.
Proof.
  intros S Hp m Hm Hbm. destruct (Z.lt_ge_cases m ((b / 1024 + 1) * 1024)) as [Hmb|]; [exfalso|done].
  apply (no_table _ _ _ _ b m S Hp Hm); [|by right]. apply Z.le_antisymm.
  - apply Z.lt_succ_r. apply Z.div_lt_upper_bound; lia.
  - apply Z.div_le_mono; lia.
Qed.

(** One page freed, then the rest released. *)
Lemma released_step b e n0 l pgdir k k' l2 k2 :
  0 <= b < 2 ^ 19 -> b < e -> n0 <= b ->
  (forall m, 0 <= m < 2 ^ 20 -> entry k' pgdir m = if m =? b then 0 else entry k pgdir m) ->
  (forall m x, 0 <= m < 2 ^ 19 -> m <> b -> m < n0 \/ b <= m < e -> 0 <= x < 4096 ->
     k_mem k' (upage k pgdir m + x) = k_mem k (upage k pgdir m + x)) ->
  (forall v, table_page k' pgdir v <-> table_page k pgdir v) ->
  (forall v x, page kend v -> ~ table_page k pgdir v -> v ∉ upage k pgdir b :: l -> 0 <= x < 4096 -> k_mem k' (v + x) = k_mem k (v + x)) ->
  keeps_user n0 pgdir k' k2 -> released (b + 1) e pgdir (upage k pgdir b :: l) k' l2 k2 ->
  keeps_user n0 pgdir k k2 /\ released b e pgdir l k l2 k2.
Proof.
  intros Hb Hbe Hn0 He' Hc' Ht' Hfr' K2 (R2 & R2' & R2f).
  assert (Hsame : forall m, 0 <= m < 2 ^ 19 -> m <> b -> entry k' pgdir m = entry k pgdir m).
  { intros m Hm Hmb. rewrite He' by lia. by rewrite (proj2 (Z.eqb_neq m b)). }
  split; [|split; [|split; [intros v; by rewrite R2', Ht'|]]].
  - eapply keeps_user_trans; [|exact K2]. intros m Hm. rewrite Hsame by lia. split; [done|].
    intros x Hx. apply Hc'; (done || lia).
  - intros v. rewrite R2, elem_of_cons. split.
    + intros [[->|?]|(m & Hm & Hbm & ->)]; [right; exists b; split_and!; (done || lia)|by left|].
      right. exists m. unfold upage. rewrite Hsame by lia. split_and!; (done || lia).
    + intros [?|(m & Hm & Hbm & ->)]; [by left; right|]. destruct (Z.eq_dec m b) as [->|]; [by left; left|].
      right. exists m. unfold upage. rewrite Hsame by lia. split_and!; (done || lia).
  - intros v x Hv Hvt Hvl Hx. rewrite R2f, Hfr'; try done; [|by rewrite Ht'].
    intros H. apply Hvl. rewrite R2. by left.
Qed.

Lemma deallocuvm_loop_runs fuel l pgdir k b e n0 oldsz :
  space (fun m => m < n0 \/ b <= m < e) l pgdir k -> 0 <= n0 <= b -> (forall m, m < e -> m * 4096 < oldsz) -> 0 <= oldsz <= 2 ^ 31 ->
  oldsz < b * 4096 + (Z.of_nat fuel - 1) * 4096 + 1 -> b <= 2 ^ 19 -> (0 < fuel)%nat ->
  runs (deallocuvm_loop kend me fuel pgdir (b * 4096) oldsz) k
    (fun _ k' => exists l', space (fun m => m < n0) l' pgdir k' /\ keeps_user n0 pgdir k k' /\ released b e pgdir l k l' k').
Proof.
  revert l k b; induction fuel as [|fuel IH]; intros l k b S Hn0 He Ho Hf Hb Hpos; [lia|]. cbn [deallocuvm_loop].
  destruct (Z.ltb_spec (b * 4096) oldsz) as [Hlt|Hge]; cbn [negb].
  2:{ assert (Heb : e <= b) by (destruct (Z.le_gt_cases e b) as [|Hbe]; [done|specialize (He b Hbe); lia]).
      rsteps. exists l. split; [|split; [apply keeps_user_refl|by apply released_refl]]. eapply space_ext; [|exact S]. intros m Hm. cbv beta. lia. }
  assert (Hb' : 0 <= b < 2 ^ 19) by lia. assert (Hv : vpn (b * 4096) = b) by (unfold vpn; by rewrite Z.div_mul).
  assert (Hf' : (0 < fuel)%nat) by lia.
  apply runs_bind. eapply runs_mono; [apply (walkpgdir_runs l pgdir (b * 4096) false k (sp_tables _ _ _ _ S)); lia|].
  rewrite Hv. intros r k1 [(-> & -> & Hp & _)|(Hr & Hr0 & Hp & Hk & _)].
  - change (0 =? 0) with true. destruct (pte_addr_split (b * 4096)) as (Ed & _ & Hd & _); [lia|]. rewrite Ed, Hv in *.
    pose proof (skip_table _ _ _ _ _ _ S Hp) as Hskip. rewrite PGADDR_next by done. set (b' := (b / 1024 + 1) * 1024) in *.
    assert (Hbb : b < b' <= b + 1024 /\ b' <= 2 ^ 19).
    { unfold b'. pose proof (Z.div_mod b 1024 ltac:(lia)). pose proof (Z.mod_pos_bound b 1024 ltac:(lia)).
      assert (b / 1024 < 512) by (apply Z.div_lt_upper_bound; lia). lia. }
    unfold PGSIZE. rewrite (u32_small (b' * 4096 - 4096)), u32_small by lia. rewrite Z.sub_simpl_r.
    eapply runs_mono; [apply (IH l k b'); try lia; [|done]|].
    2:{ intros _ k2 (l2 & S2 & K2 & R2). exists l2. split_and!; try done. apply (released_skip b b'); (done || lia). }
    eapply space_ext; [|exact S]. intros m Hm. specialize (Hskip m Hm). cbv beta. lia.
  - rewrite (Hk eq_refl) in *. rewrite (proj2 (Z.eqb_neq _ _) Hr0). unfold rd. rsteps.
    assert (Ek : k_mem k r = entry k pgdir b) by (unfold entry; rewrite Hp, Hr; done). rewrite Ek.
    unfold PGSIZE. destruct (present (entry k pgdir b)) eqn:Pb.
    + assert (HUb : b < n0 \/ b <= b < e).
      { destruct (Z.lt_ge_cases b e); [right; lia|]. exfalso. rewrite (sp_out _ _ _ _ S b Hb') in Pb; [done|lia]. }
      destruct (upage_is _ _ _ _ _ S Hb' HUb) as (Hu & _ & _ & f & Hf1 & Ef).
      destruct (page_entry _ f Hu Hf1) as (_ & _ & _ & Ea). rewrite Ef, Ea.
      rewrite (proj2 (Z.eqb_neq _ _) (V2P_nonzero _ Hu)), (P2V_V2P _ Hu). rsteps. apply runs_kfree; [done|]. unfold wr. rsteps. rewrite Hr.
      destruct (free_user _ _ _ _ _ S Hb' HUb) as (S' & He' & Hc' & Ht' & Hfr'). set (k' := set_word _ _ _) in *.
      rewrite u32_small by lia. replace (b * 4096 + 4096) with ((b + 1) * 4096) by lia.
      eapply runs_mono; [apply (IH (upage k pgdir b :: l) k' (b + 1)); try lia; [|done]|].
      { eapply space_ext; [|exact S']. intros m Hm. cbn. lia. }
      intros _ k2 (l2 & S2 & K2 & R2). exists l2. split; [done|]. eapply released_step; (done || lia).
    + assert (Hskip : forall m, 0 <= m < 2 ^ 19 -> b <= m < e -> b + 1 <= m).
      { intros m Hm Hbm. destruct (Z.eq_dec m b) as [->|]; [|lia]. destruct (sp_in _ _ _ _ S b Hb') as [Pb' _]; [by right|congruence]. }
      rsteps. rewrite u32_small by lia. replace (b * 4096 + 4096) with ((b + 1) * 4096) by lia.
      eapply runs_mono; [apply (IH l k (b + 1)); try lia; [|done]|].
      2:{ intros _ k2 (l2 & S2 & K2 & R2). exists l2. split_and!; try done. apply (released_skip b (b + 1)); (done || lia). }
      eapply space_ext; [|exact S]. intros m Hm. specialize (Hskip m Hm). cbv beta. lia.
Qed.

Lemma PGROUNDUP_is x : 0 <= x <= 2 ^ 31 -> PGROUNDUP x = (x + 4095) / 4096 * 4096.
Proof.
  intros Hx. unfold PGROUNDUP, PGSIZE. rewrite u32_small by lia. change (u32 (Z.lnot (4096 - 1))) with 4294963200.
  rewrite land_page by lia. replace (x + 4096 - 1) with (x + 4095) by lia. pose proof (Z.div_mod (x + 4095) 4096). lia.
Qed.
(** The number of pages of [sz] bytes. *)
Definition npages (sz : Z) : Z := (sz + 4095) / 4096.
Lemma npages_spec sz m : m < npages sz <-> m * 4096 < sz.
Proof.
  unfold npages. pose proof (Z.div_mod (sz + 4095) 4096 ltac:(lia)). pose proof (Z.mod_pos_bound (sz + 4095) 4096 ltac:(lia)). lia.
Qed.
Lemma npages_range sz : 0 <= sz <= 2 ^ 31 -> 0 <= npages sz <= 2 ^ 19.
Proof. intros. unfold npages. split; [apply Z.div_pos; lia|]. apply Z.lt_succ_r, Z.div_lt_upper_bound; lia. Qed.

(** User memory of [sz] bytes. *)
Definition umem (sz : Z) : list Z -> Z -> kmem -> Prop := space (fun m => m < npages sz).

(** [deallocuvm] from a size that may be larger than the actual one. *)
Lemma dealloc_runs l pgdir k oldsz newsz e :
  space (fun m => m < e) l pgdir k -> e <= npages oldsz -> npages newsz <= e -> 0 <= newsz -> oldsz <= 2 ^ 31 -> newsz < oldsz ->
  runs (deallocuvm kend me pgdir oldsz newsz) k
    (fun r k' => r = newsz /\ exists l', umem newsz l' pgdir k' /\ keeps_user (npages newsz) pgdir k k' /\
       released (npages newsz) e pgdir l k l' k').
Proof.
  intros S He Hn H0 Ho Hlt. unfold deallocuvm. replace (newsz >=? oldsz) with false by lia.
  rewrite PGROUNDUP_is by lia. fold (npages newsz). pose proof (npages_range newsz ltac:(lia)). apply runs_bind.
  eapply runs_mono; [apply (deallocuvm_loop_runs _ l pgdir k (npages newsz) e (npages newsz) oldsz)|].
  - eapply space_ext; [|exact S]. intros m Hm. cbv beta. clear -Hn. split; lia.
  - lia.
  - intros m Hm. apply npages_spec. lia.
  - lia.
  - unfold PGSIZE. pose proof (npages_spec newsz (npages newsz - 1)) as Hs.
    assert (0 <= (oldsz - npages newsz * 4096) / 4096 + 2).
    { assert (-1 <= (oldsz - npages newsz * 4096) / 4096); [|lia]. apply Z.div_le_lower_bound; lia. }
    rewrite Z2Nat.id by lia. pose proof (Z.div_mod (oldsz - npages newsz * 4096) 4096 ltac:(lia)).
    pose proof (Z.mod_pos_bound (oldsz - npages newsz * 4096) 4096 ltac:(lia)). lia.
  - lia.
  - unfold PGSIZE. assert (-1 <= (oldsz - npages newsz * 4096) / 4096); [|lia].
    pose proof (npages_spec newsz (npages newsz - 1)). apply Z.div_le_lower_bound; lia.
  - intros _ k' (l' & S' & K' & R'). rsteps. split; [done|]. by exists l'.
Qed.

(** A page nobody uses is freed. *)
Lemma free_other U l pgdir k u :
  space U l pgdir k -> page kend u -> u ∉ l -> ~ table_page k pgdir u ->
  (forall m, 0 <= m < 2 ^ 19 -> U m -> upage k pgdir m <> u) ->
  let k' := push_page u (fill_page u k) in
  space U (u :: l) pgdir k' /\ (forall m, 0 <= m < 2 ^ 20 -> entry k' pgdir m = entry k pgdir m) /\
  (forall v, table_page k' pgdir v <-> table_page k pgdir v) /\
  (forall v x, page kend v -> v <> u -> 0 <= x < 4096 -> k_mem k' (v + x) = k_mem k (v + x)).
Proof.
  intros S Hu Hul Hut Hne k'. pose proof (sp_tables _ _ _ _ S) as T.
  assert (Hc : forall v x, page kend v -> v <> u -> 0 <= x < 4096 -> k_mem k' (v + x) = k_mem k (v + x)).
  { intros v x Hv Hvu Hx. by apply push_outside. }
  assert (Htp : forall v, table_page k pgdir v -> page kend v /\ v ∉ l /\ v <> u).
  { intros v Hv. destruct (table_page_used _ _ _ _ T Hv). split; [done|]. split; [done|]. intros ->. by apply Hut. }
  destruct (tables_same l (u :: l) pgdir k k' T) as (T1 & Hpde & He).
  { apply pool_push; [apply (tb_pool _ _ _ T)|done|done]. }
  { intros v Hv. destruct (Htp v Hv) as (_ & ? & ?). by apply not_elem_of_cons. }
  { intros v x Hv Hx. destruct (Htp v Hv) as (? & _ & ?). by apply Hc. }
  split; [|split; [done|split; [intros v; by apply table_page_same|done]]]. constructor; [done| | |].
  - intros m Hm HU. rewrite He by lia. destruct (sp_in _ _ _ _ S m Hm HU) as (Pm & w & f & Ew & Hw & Hf & Hwl & Hwt).
    split; [done|]. exists w, f. split; [done|]. split; [done|]. split; [done|].
    split; [|intros H; apply Hwt; by apply (table_page_same pgdir k k')]. apply not_elem_of_cons. split; [|done].
    specialize (Hne m Hm HU). unfold upage in Hne. rewrite Ew in Hne. destruct (page_entry w f Hw Hf) as (E & _). by rewrite E in Hne.
  - intros m Hm HU. rewrite He by lia. by apply (sp_out _ _ _ _ S).
  - intros m m' Hm Hm' HU HU'. unfold upage. rewrite !He by lia. by apply (sp_inj _ _ _ _ S).
Qed.

(** A page [u] is taken from the free list and filled; the space is as before. *)
Lemma take_page U u l pgdir k k1 :
  space U (u :: l) pgdir k -> pool kend l k1 ->
  (forall v x, page kend v -> v <> u -> v ∉ l -> 0 <= x < 4096 -> k_mem k1 (v + x) = k_mem k (v + x)) ->
  space U l pgdir k1 /\ (forall m, 0 <= m < 2 ^ 20 -> entry k1 pgdir m = entry k pgdir m) /\
  (forall v, table_page k1 pgdir v <-> table_page k pgdir v) /\ page kend u /\ u ∉ l /\ ~ table_page k1 pgdir u /\ (forall m, 0 <= m < 2 ^ 19 -> U m -> upage k1 pgdir m <> u).
Proof.
  intros S Hp Hc. pose proof (sp_tables _ _ _ _ S) as T. destruct (tb_pool _ _ _ T) as (_ & Hnd & Hf).
  apply NoDup_cons in Hnd as [Hul _]. apply Forall_cons in Hf as [Hu _].
  assert (Htp : forall v, table_page k pgdir v -> page kend v /\ v ∉ l /\ v <> u).
  { intros v Hv. destruct (table_page_used _ _ _ _ T Hv) as [? H]. apply not_elem_of_cons in H as [? ?]. done. }
  destruct (tables_same (u :: l) l pgdir k k1 T Hp) as (T1 & Hpde & He).
  { intros v Hv. by apply Htp. }
  { intros v x Hv Hx. destruct (Htp v Hv) as (? & ? & ?). by apply Hc. }
  split_and!; try done.
  - constructor; [done| | |].
    + intros m Hm HU. rewrite He by lia. destruct (sp_in _ _ _ _ S m Hm HU) as (Pm & w & f & Ew & Hw & Hf & Hwl & Hwt).
      apply not_elem_of_cons in Hwl as [? ?]. split; [done|]. exists w, f. split; [done|]. split; [done|]. split; [done|]. split; [done|].
      intros H1. apply Hwt. by apply (table_page_same pgdir k k1).
    + intros m Hm HU. rewrite He by lia. by apply (sp_out _ _ _ _ S).
    + intros m m' Hm Hm' HU HU'. unfold upage. rewrite !He by lia. by apply (sp_inj _ _ _ _ S).
  - intros v. by apply table_page_same.
  - intros H. apply (table_page_same pgdir k k1) in H; [|done]. by destruct (Htp u H) as (_ & _ & ?).
  - intros m Hm HU. unfold upage. rewrite He by lia. destruct (upage_is _ _ _ _ _ S Hm HU) as (_ & H & _).
    by apply not_elem_of_cons in H as [? _].
Qed.

(** [u] becomes page [n] of the space, unless there is no memory for a table. *)
Lemma map_page U l pgdir k n u perm :
  space U l pgdir k -> 0 <= n < 2 ^ 19 -> ~ U n -> 0 <= perm < 4096 ->
  page kend u -> u ∉ l -> ~ table_page k pgdir u -> (forall m, 0 <= m < 2 ^ 19 -> U m -> upage k pgdir m <> u) ->
  runs (mappages me pgdir (n * 4096) PGSIZE (V2P u) perm) k (fun r k' => exists l' (U' : Z -> Prop),
    space U' l' pgdir k' /\ (forall v, v ∈ l' -> v ∈ l) /\ (length l <= length l' + 1)%nat /\
    (forall m, 0 <= m < 2 ^ 20 -> m <> n -> entry k' pgdir m = entry k pgdir m) /\
    (forall v x, page kend v -> v ∉ l -> ~ table_page k pgdir v -> 0 <= x < 4096 -> k_mem k' (v + x) = k_mem k (v + x)) /\
    (forall v, table_page k' pgdir v -> table_page k pgdir v \/ v ∈ l) /\
    (forall v, v ∈ l \/ table_page k pgdir v -> v ∈ l' \/ table_page k' pgdir v) /\
    ((r = 0 /\ (forall m, U' m <-> U m \/ m = n) /\ entry k' pgdir n = V2P u + Z.lor perm PTE_P) \/
     (r = -1 /\ l = [] /\ (forall m, U' m <-> U m) /\ entry k' pgdir n = entry k pgdir n))).
Proof.
  intros S Hn HU Hpm Hu Hul Hut Hne. pose proof (sp_tables _ _ _ _ S) as T.
  destruct (page_V2P u Hu) as (Ev & Hm & Hr). unfold PHYSTOP in Hr.
  eapply runs_mono; [apply (map_one l pgdir k n (V2P u) perm T); rewrite ?Ev; try done; try lia; by apply (sp_out _ _ _ _ S)|].
  intros r k' (l' & G & Hlen & Hsame & Hres).
  assert (Hin : forall v, v ∈ l' -> v ∈ l).
  { intros v Hv. destruct (gr_free _ _ _ _ _ G) as [new ->]. apply elem_of_app. by right. }
  assert (Huse : forall v, v ∈ l \/ table_page k pgdir v -> v ∈ l' \/ table_page k' pgdir v).
  { intros v [Hv|Hv]; [by apply (gr_used _ _ _ _ _ G)|right; by apply (gr_kept _ _ _ _ _ G)]. }
  assert (Htn : forall w, w ∉ l -> ~ table_page k pgdir w -> ~ table_page k' pgdir w).
  { intros w Hw Hwt H. destruct (gr_new _ _ _ _ _ G w H); [by apply Hwt|by apply Hw]. }
  assert (Hold : forall m, 0 <= m < 2 ^ 19 -> U m -> present (entry k' pgdir m) = true /\
    exists w f, entry k' pgdir m = V2P w + f /\ page kend w /\ 0 <= f < 4096 /\ w ∉ l' /\ ~ table_page k' pgdir w).
  { intros m Hm' HUm. rewrite Hsame by (lia || by intros ->). destruct (sp_in _ _ _ _ S m Hm' HUm) as (Pm & w & f & Ew & Hw & Hf & Hwl & Hwt).
    split; [done|]. exists w, f. split; [done|]. split; [done|]. split; [done|]. split; [intros H; by apply Hwl, Hin|by apply Htn]. }
  assert (Hup : forall m, 0 <= m < 2 ^ 19 -> U m -> upage k' pgdir m = upage k pgdir m).
  { intros m Hm' HUm. unfold upage. rewrite Hsame by (lia || by intros ->). done. }
  destruct Hres as [[-> En]|(-> & En & -> & ->)].
  - assert (Hf : 0 <= Z.lor perm PTE_P < 4096) by (apply lor_flags; unfold PTE_P; lia).
    assert (Hun : upage k' pgdir n = u) by (unfold upage; rewrite En; by destruct (page_entry u _ Hu Hf) as (-> & _)).
    exists l', (fun m => U m \/ m = n). split; [|split_and!; try done; [apply (gr_frame _ _ _ _ _ G)|apply (gr_new _ _ _ _ _ G)|by left]].
    constructor; [apply (gr_tables _ _ _ _ _ G)| | |].
    + intros m Hm' [HUm| ->]; [by apply Hold|]. rewrite En. split.
      * rewrite present_odd, odd_aligned by (by rewrite Ev). rewrite <- Z.bit0_odd, Z.lor_spec. by rewrite orb_true_r.
      * exists u, (Z.lor perm PTE_P). split; [done|]. split; [done|]. split; [done|]. split; [intros H; by apply Hul, Hin|by apply Htn].
    + intros m Hm' HnU. assert (m <> n) by tauto. rewrite Hsame by lia. apply (sp_out _ _ _ _ S); [done|tauto].
    + intros m m' Hm1 Hm2 [HU1| ->] [HU2| ->]; rewrite ?Hun, ?Hup by done; try done.
      * by apply (sp_inj _ _ _ _ S).
      * intros E. exfalso. by apply (Hne m).
      * intros E. exfalso. by apply (Hne m').
  - exists [], U. split; [|split_and!; try done; [apply (gr_frame _ _ _ _ _ G)|apply (gr_new _ _ _ _ _ G)|by right]].
    constructor; [apply (gr_tables _ _ _ _ _ G)|done| |].
    + intros m Hm' HnU. destruct (Z.eq_dec m n) as [->|]; [rewrite En|rewrite Hsame by lia]; by apply (sp_out _ _ _ _ S).
    + intros m m' Hm1 Hm2 HU1 HU2. rewrite !Hup by done. by apply (sp_inj _ _ _ _ S).
Qed.

Lemma keeps_user_le n n' pgdir k k' : n' <= n -> keeps_user n pgdir k k' -> keeps_user n' pgdir k k'.
Proof. intros Hn H m Hm. apply H. lia. Qed.

(** A zeroed page of its own is behind page [m], for the user to read and write. *)
Definition fresh_page (pgdir : Z) (k : kmem) (m : Z) : Prop :=
  entry k pgdir m = V2P (upage k pgdir m) + 7 /\ forall x, 0 <= x < 4096 -> k_mem k (upage k pgdir m + x) = 0.

Lemma keeps_fresh n pgdir k k' m : keeps_user n pgdir k k' -> 0 <= m < n -> fresh_page pgdir k m -> fresh_page pgdir k' m.
Proof.
  intros K Hm [E Z0]. destruct (K m Hm) as [E' C']. assert (Eu : upage k' pgdir m = upage k pgdir m) by (unfold upage; by rewrite E').
  split; [by rewrite E', Eu|]. intros x Hx. rewrite Eu, C' by done. by apply Z0.
Qed.

(** A page is taken from the free list and written by its new owner. *)
Lemma pool_popped u l k k1 :
  pool kend (u :: l) k -> k_freelist k1 = k_freelist (pop_page k) ->
  (forall v x, page kend v -> v <> u -> 0 <= x < 4096 -> k_mem k1 (v + x) = k_mem k (v + x)) -> pool kend l k1.
Proof.
  intros Hp Hf Hc. pose proof (pool_pop kend _ _ Hp) as [_ (Hch & Hr)]. cbn [tl] in *. split; [|done]. rewrite Hf.
  destruct Hp as (_ & Hnd & Hpf). apply NoDup_cons in Hnd as [Hul _]. apply Forall_cons in Hpf as [_ Hpl]. rewrite Forall_forall in Hpl.
  eapply chain_ext; [|exact Hch]. intros v Hv. rewrite <- (Z.add_0_r v). apply Hc; [by apply Hpl|by intros ->|lia].
Qed.
(** A page [u] was taken and mapped as page [b], or tried to. *)
Record adding (u : Z) (l : list Z) (pgdir : Z) (k : kmem) (b : Z) (l' : list Z) (k' : kmem) : Prop := mk_adding {
  ad_keeps : keeps_user b pgdir k k';
  ad_len : (length l <= length l' + 1)%nat;
  ad_entry : forall m, 0 <= m < 2 ^ 20 -> m <> b -> entry k' pgdir m = entry k pgdir m;
  ad_used : forall v, v ∈ l \/ table_page k pgdir v -> v ∈ l' \/ table_page k' pgdir v;
  ad_sub : forall v, v ∈ l' -> v ∈ l;
  ad_new : forall v, table_page k' pgdir v -> table_page k pgdir v \/ v ∈ l;
  ad_frame : forall v x, page kend v -> v ∉ u :: l -> ~ table_page k pgdir v -> 0 <= x < 4096 -> k_mem k' (v + x) = k_mem k (v + x) }.

Lemma add_page u l pgdir k k1 b perm :
  space (fun m => m < b) (u :: l) pgdir k -> k_freelist k1 = k_freelist (pop_page k) ->
  (forall v x, page kend v -> v <> u -> 0 <= x < 4096 -> k_mem k1 (v + x) = k_mem k (v + x)) ->
  0 <= b < 2 ^ 19 -> 0 <= perm < 4096 ->
  runs (mappages me pgdir (b * 4096) PGSIZE (V2P u) perm) k1 (fun r k' => exists l', adding u l pgdir k b l' k' /\
    ((r = 0 /\ space (fun m => m < b + 1) l' pgdir k' /\ entry k' pgdir b = V2P u + Z.lor perm PTE_P /\ upage k' pgdir b = u /\
      forall x, 0 <= x < 4096 -> k_mem k' (u + x) = k_mem k1 (u + x)) \/
     (r = -1 /\ l = [] /\ l' = [] /\ space (fun m => m < b) [] pgdir k' /\ ~ table_page k' pgdir u /\
      forall m, 0 <= m < 2 ^ 19 -> m < b -> upage k' pgdir m <> u))).
Proof.
  intros S Hf Hc Hb Hpm. pose proof (sp_tables _ _ _ _ S) as T. pose proof (pool_popped _ _ _ _ (tb_pool _ _ _ T) Hf Hc) as Hp1.
  destruct (take_page _ u l pgdir k k1 S Hp1) as (S1 & He1 & Ht1 & Hu & Hul & Hut & Hne).
  { intros v x Hv Hvu _ Hx. by apply Hc. }
  eapply runs_mono; [apply (map_page _ l pgdir k1 b u perm S1); (done || lia)|].
  intros r k' (l' & U' & S' & Hin & Hlen & He & Hfr & Htn & Huse & Hres). exists l'. split.
  { constructor; try done.
    - intros m Hm. split; [rewrite He, He1 by lia; done|]. intros x Hx. destruct (upage_is _ _ _ _ m S) as (? & H & ? & _); [lia|lia|].
      apply not_elem_of_cons in H as [? ?]. rewrite Hfr, Hc; try done. by rewrite Ht1.
    - intros m Hm Hmb. by rewrite He, He1.
    - intros v Hv. apply Huse. by rewrite Ht1.
    - intros v Hv. rewrite <- Ht1. by apply Htn.
    - intros v x Hv Hvl Hvt Hx. apply not_elem_of_cons in Hvl as [? ?]. rewrite Hfr, Hc; try done. by rewrite Ht1. }
  destruct Hres as [(-> & HU & En)|(-> & -> & HU & En)]; [left|right].
  - assert (Eu : upage k' pgdir b = u).
    { unfold upage. rewrite En. destruct (page_entry u (Z.lor perm PTE_P) Hu) as (-> & _); [|done]. apply lor_flags; unfold PTE_P; lia. }
    split_and!; try done; [eapply space_ext; [|exact S']; intros m Hm; rewrite HU; cbv beta; lia|]. intros x Hx. by apply Hfr.
  - assert (l' = []) as -> by (destruct l' as [|v l']; [done|]; by destruct (not_elem_of_nil v (Hin v ltac:(by left)))).
    split_and!; try done.
    + eapply space_ext; [|exact S']. intros m Hm. by rewrite HU.
    + intros H. destruct (Htn u H) as [?|?%not_elem_of_nil]; [by apply Hut|done].
    + intros m Hm Hmb. unfold upage. rewrite He by lia. by apply Hne.
Qed.

Lemma keeps_push n pgdir k U l u :
  space U l pgdir k -> 0 <= n <= 2 ^ 19 -> (forall m, m < n -> U m) ->
  (forall m, 0 <= m < 2 ^ 19 -> U m -> upage k pgdir m <> u) -> forall k',
  (forall m, 0 <= m < 2 ^ 20 -> entry k' pgdir m = entry k pgdir m) ->
  (forall v x, page kend v -> v <> u -> 0 <= x < 4096 -> k_mem k' (v + x) = k_mem k (v + x)) ->
  keeps_user n pgdir k k'.
Proof.
  intros S Hn HU Hne k' He Hc m Hm. split; [apply He; lia|]. intros x Hx.
  destruct (upage_is _ _ _ _ m S) as (? & _); [lia|by apply HU; lia|]. apply Hc; [done| |done]. apply Hne; [lia|apply HU; lia].
Qed.

(** The pages of [l] and of user pages [b] to [e] of [k] are, in [k'], free, tables,
    or the user pages from [b'] to [e']. *)
Definition no_leak (pgdir : Z) (l : list Z) (k : kmem) (b e : Z) (l' : list Z) (k' : kmem) (b' e' : Z) : Prop :=
  forall v, v ∈ l \/ table_page k pgdir v \/ (exists m, b <= m < e /\ v = upage k pgdir m) ->
    v ∈ l' \/ table_page k' pgdir v \/ (exists m, b' <= m < e' /\ v = upage k' pgdir m).
Lemma no_leak_trans pgdir l k b e l1 k1 b1 e1 l2 k2 b2 e2 :
  no_leak pgdir l k b e l1 k1 b1 e1 -> no_leak pgdir l1 k1 b1 e1 l2 k2 b2 e2 -> no_leak pgdir l k b e l2 k2 b2 e2.
Proof. intros H1 H2 v Hv. by apply H2, H1. Qed.
(** A release leaks nothing. *)
Lemma released_no_leak pgdir l k b e l' k' c :
  released b e pgdir l k l' k' -> 0 <= b -> e <= 2 ^ 19 -> no_leak pgdir l k b e l' k' c c.
Proof.
  intros (R1 & R2 & _) Hb He v [Hv|[Hv|(m & Hm & ->)]].
  - left. apply R1. by left.
  - right. left. by apply R2.
  - left. apply R1. right. exists m. split_and!; (done || lia).
Qed.
Lemma alloc_one_no_leak n pgdir u l k b l' k' e :
  keeps_user b pgdir k k' -> 0 <= n -> (forall v, v ∈ l \/ table_page k pgdir v -> v ∈ l' \/ table_page k' pgdir v) ->
  (forall v, v = u -> v ∈ l' \/ table_page k' pgdir v \/ (exists m, n <= m < e /\ v = upage k' pgdir m)) -> b <= e ->
  no_leak pgdir (u :: l) k n b l' k' n e.
Proof.
  intros K Hn Huse Hu Hbe v [[->|Hv]%elem_of_cons|[Hv|(m & Hm & ->)]].
  - by apply Hu.
  - destruct (Huse v) as [?|?]; [by left|by left|by right; left].
  - destruct (Huse v) as [?|?]; [by right|by left|by right; left].
  - right. right. exists m. split; [lia|]. unfold upage. by destruct (K m ltac:(lia)) as [-> _].
Qed.

(** The way [allocuvm] gives up when there is no table for the page [u]. *)
Lemma alloc_back pgdir k u b oldsz newsz :
  space (fun m => m < b) [] pgdir k -> 0 <= oldsz < newsz -> newsz < 2 ^ 31 -> npages oldsz <= b <= npages newsz ->
  page kend u -> ~ table_page k pgdir u -> (forall m, 0 <= m < 2 ^ 19 -> m < b -> upage k pgdir m <> u) ->
  runs (deallocuvm kend me pgdir newsz oldsz ;; kfree kend me u ;; mret 0) k (fun r k' => exists l',
    r = 0 /\ umem oldsz l' pgdir k' /\ keeps_user (npages oldsz) pgdir k k' /\
    no_leak pgdir [u] k (npages oldsz) b l' k' 0 0).
Proof.
  intros S Hsz Hns Hb Hu Hut Hne. pose proof (npages_range oldsz ltac:(lia)). pose proof (npages_range newsz ltac:(lia)).
  apply runs_bind. eapply runs_mono; [apply (dealloc_runs [] pgdir k newsz oldsz b S); lia|].
  intros _ k2 (_ & l2 & S2 & K2 & R2). pose proof R2 as (Rl & Rt & _). apply runs_bind. apply runs_kfree; [done|]. rsteps.
  assert (Hu2 : forall m, 0 <= m < 2 ^ 19 -> m < npages oldsz -> upage k2 pgdir m <> u).
  { intros m Hm Hmo. destruct (K2 m ltac:(lia)) as [E2 _]. unfold upage. rewrite E2. apply Hne; lia. }
  destruct (free_other _ l2 pgdir k2 u S2 Hu) as (S3 & E3 & T3 & C3); [|by intros Ht; apply Hut, Rt|done|].
  { intros Hl. apply Rl in Hl as [?%not_elem_of_nil|(m & Hm & Hmb & ->)]; [done|]. by apply (Hne m); [lia..|]. }
  exists (u :: l2). split_and!; try done.
  - eapply keeps_user_trans; [exact K2|]. by eapply keeps_push; [exact S2|lia|..|exact E3|exact C3].
  - intros v [[->|[]%not_elem_of_nil]%elem_of_cons|Hv]; [by left; left|].
    destruct (released_no_leak _ _ _ _ _ _ _ 0 R2 ltac:(lia) ltac:(lia) v) as [?|[?|(m & ? & ?)]]; [by right|by left; right| |lia].
    right. left. by apply T3.
Qed.

Lemma allocuvm_loop_runs fuel l pgdir k b oldsz newsz :
  space (fun m => m < b) l pgdir k -> 0 <= oldsz <= newsz -> newsz < 2 ^ 31 -> npages oldsz <= b <= npages newsz ->
  newsz < b * 4096 + (Z.of_nat fuel - 1) * 4096 + 1 ->
  runs (allocuvm_loop kend me fuel pgdir (b * 4096) oldsz newsz) k (fun r k' => exists l',
    (r = newsz /\ umem newsz l' pgdir k' /\ keeps_user b pgdir k k' /\ (forall m, b <= m < npages newsz -> fresh_page pgdir k' m) /\
     no_leak pgdir l k (npages oldsz) b l' k' (npages oldsz) (npages newsz) /\
     Z.of_nat (length l) <= Z.of_nat (length l') + 2 * (npages newsz - b)) \/
    (r = 0 /\ umem oldsz l' pgdir k' /\ keeps_user (npages oldsz) pgdir k k' /\
     no_leak pgdir l k (npages oldsz) b l' k' 0 0 /\ Z.of_nat (length l) < 2 * (npages newsz - b))).
Proof.
  intros S Hsz Hns Hb Hf. pose proof (npages_range oldsz ltac:(lia)). pose proof (npages_range newsz ltac:(lia)).
  revert l k b S Hb Hf; induction fuel as [|fuel IH]; intros l k b S Hb Hf.
  { pose proof (npages_spec newsz (npages newsz - 1)). lia. }
  cbn [allocuvm_loop]. destruct (Z.ltb_spec (b * 4096) newsz) as [Hlt|Hge]; cbn [negb].
  2:{ rsteps. exists l. left. pose proof (npages_spec newsz b). assert (b = npages newsz) as -> by lia. split_and!; try done; [lia|by intros v|lia]. }
  assert (Hbn : b < npages newsz) by (by apply npages_spec). assert (Hold : oldsz < newsz).
  { pose proof (npages_spec oldsz b). pose proof (npages_spec oldsz (npages oldsz)). lia. }
  pose proof (tb_pool _ _ _ (sp_tables _ _ _ _ S)) as Hp. apply runs_bind. eapply runs_kalloc; [exact Hp|].
  destruct l as [|u l]; cbn [hd].
  { change (0 =? 0) with true. rewrite (pop_nil k Hp). apply runs_bind. eapply runs_mono; [apply (dealloc_runs [] pgdir k newsz oldsz b S); lia|].
    intros _ k' (_ & l' & S' & K' & R'). rsteps. exists l'. right. split_and!; try done; [apply released_no_leak; (done || lia)|cbn; lia]. }
  assert (Hu : page kend u) by (destruct Hp as (_ & _ & Hpf); by apply Forall_cons in Hpf as [? _]).
  replace (u =? 0) with false by (destruct Hu as (_ & _ & _ & ?); lia). rsteps.
  eapply runs_mono; [apply (add_page u l pgdir k _ b (Z.lor PTE_W PTE_U) S); try done; [|lia]|].
  { intros v x Hv Hvu Hx. by apply (outside_page u (fun _ => 0)). }
  intros r k' (l' & [K Hlen _ Huse _ _ _] & [(-> & S' & En & Eu & Hz)|(-> & -> & -> & S' & Hut & Hne)]).
  - change (0 <? 0) with false. cbv iota. unfold PGSIZE. rewrite u32_small by lia.
    replace (b * 4096 + 4096) with ((b + 1) * 4096) by lia. eapply runs_mono; [apply (IH l' k' (b + 1) S'); lia|].
    assert (NL : no_leak pgdir (u :: l) k (npages oldsz) b l' k' (npages oldsz) (b + 1)).
    { eapply alloc_one_no_leak; try done; [lia| |lia]. intros v ->. right. right. exists b. split; [lia|done]. }
    assert (Hfresh : fresh_page pgdir k' b).
    { split; [by rewrite En, Eu|]. intros x Hx. rewrite Eu, Hz by done. cbn. by replace (_ && _) with true by (unfold PGSIZE; lia). }
    intros r k2 (l2 & [(-> & S2 & K2 & F2 & L2 & Hl2)|(-> & S2 & K2 & L2 & Hl2)]); exists l2; [left|right]; split_and!; try done.
    + eapply keeps_user_trans; [exact K|]. eapply keeps_user_le; [|exact K2]. lia.
    + intros m Hm. destruct (Z.eq_dec m b) as [->|]; [|apply F2; lia]. eapply keeps_fresh; [exact K2| |done]. lia.
    + by eapply no_leak_trans.
    + cbn [length]. lia.
    + eapply keeps_user_trans; [|exact K2]. eapply keeps_user_le; [|exact K]. lia.
    + by eapply no_leak_trans.
    + cbn [length]. lia.
  - change (-1 <? 0) with true. cbv iota. eapply runs_mono; [apply (alloc_back pgdir k' u b oldsz newsz S'); (done || lia)|].
    intros r k2 (l2 & -> & S2 & K2 & L2). exists l2. right. split_and!; try done; [| |cbn; lia].
    + eapply keeps_user_trans; [|exact K2]. eapply keeps_user_le; [|exact K]. lia.
    + eapply no_leak_trans; [|exact L2]. intros v Hv.
      destruct (alloc_one_no_leak (npages oldsz) pgdir u [] k b [u] k' b K ltac:(lia)) with (v := v) as [?|?]; try done; try lia; [| |by left|by right].
      * intros w Hw. destruct (Huse w Hw) as [?%not_elem_of_nil|?]; [done|by right].
      * intros w ->. left. by left.
Qed.

(** C9: [allocuvm] of an address space of [oldsz] bytes, to a size below the
    kernel's.  It returns and either the space has [newsz] bytes, the new pages
    zeroed, writable and each with a physical page of its own, and the old ones
    with their entries and contents; or it returns 0 with the old space intact,
    which happens only when there are fewer free pages than twice the number of new
    ones.  No page is leaked: each page that was free is free, a table, or, on
    success, behind a new user page. *)
Theorem allocuvm_grows l pgdir k oldsz newsz :
  umem oldsz l pgdir k -> 0 <= oldsz <= newsz -> newsz < KERNBASE ->
  runs (allocuvm kend me pgdir oldsz newsz) k (fun r k' => exists l',
    (r = newsz /\ umem newsz l' pgdir k' /\ keeps_user (npages oldsz) pgdir k k' /\
     (forall m, npages oldsz <= m < npages newsz -> fresh_page pgdir k' m) /\
     no_leak pgdir l k 0 0 l' k' (npages oldsz) (npages newsz)) \/
    (r = 0 /\ umem oldsz l' pgdir k' /\ keeps_user (npages oldsz) pgdir k k' /\
     no_leak pgdir l k 0 0 l' k' 0 0 /\
     Z.of_nat (length l) < 2 * (npages newsz - npages oldsz))).
Proof.
  intros S Hsz Hns. unfold allocuvm. replace (newsz >=? KERNBASE) with false by lia. replace (newsz <? oldsz) with false by lia.
  unfold KERNBASE in Hns. rewrite PGROUNDUP_is by lia. fold (npages oldsz).
  assert (npages oldsz <= npages newsz) by (apply Z.div_le_mono; lia).
  assert (NL : no_leak pgdir l k 0 0 l k (npages oldsz) (npages oldsz)).
  { intros v [?|[?|(m & ? & ?)]]; [by left|by right; left|lia]. }
  eapply runs_mono; [apply (allocuvm_loop_runs _ l pgdir k (npages oldsz) oldsz newsz); [exact S|lia|lia|lia|]|].
  { unfold PGSIZE. pose proof (npages_spec oldsz (npages oldsz - 1)).
    assert (-1 <= (newsz - npages oldsz * 4096) / 4096) by (apply Z.div_le_lower_bound; lia).
    pose proof (Z.div_mod (newsz - npages oldsz * 4096) 4096 ltac:(lia)). pose proof (Z.mod_pos_bound (newsz - npages oldsz * 4096) 4096 ltac:(lia)).
    rewrite Z2Nat.id by lia. lia. }
  intros r k' (l' & [(-> & S' & K' & F' & L' & _)|(-> & S' & K' & L' & Hl)]); exists l'; [left|right]; split_and!; try done; by eapply no_leak_trans.
Qed.

(** [deallocuvm] gives back exactly the user pages above [newsz], clears their
    entries, and leaves the pages below [newsz] and the tables as they are. *)
Theorem deallocuvm_shrinks l pgdir k oldsz newsz :
  umem oldsz l pgdir k -> 0 <= newsz < oldsz -> oldsz <= KERNBASE ->
  runs (deallocuvm kend me pgdir oldsz newsz) k (fun r k' => r = newsz /\ exists l',
    umem newsz l' pgdir k' /\ keeps_user (npages newsz) pgdir k k' /\
    released (npages newsz) (npages oldsz) pgdir l k l' k').
Proof.
  intros S Hsz Hos. unfold KERNBASE in Hos. assert (npages newsz <= npages oldsz) by (apply Z.div_le_mono; lia).
  apply (dealloc_runs l pgdir k oldsz newsz (npages oldsz) S); lia.
Qed.

(** *** Freeing a whole address space *)

(** The pages [v] of [l'] and the others, whose cells are as in [k]. *)
Definition frame (l : list Z) (k k' : kmem) : Prop :=
  forall v x, page kend v -> v ∉ l -> 0 <= x < 4096 -> k_mem k' (v + x) = k_mem k (v + x).
Lemma frame_trans l k k1 k2 : frame l k k1 -> frame l k1 k2 -> frame l k k2.
Proof. intros H1 H2 v x Hv Hl Hx. rewrite H2, H1; done. Qed.
Lemma frame_weaken l l' k k' : (forall v, v ∈ l -> v ∈ l') -> frame l k k' -> frame l' k k'.
Proof. intros Hl H v x Hv Hn Hx. apply H; try done. intros Hin. by apply Hn, Hl. Qed.
Lemma frame_push u l k : page kend u -> u ∈ l -> frame l k (push_page u (fill_page u k)).
Proof.
  intros Hu Hul v x Hv Hvl Hx. apply push_outside; try done. by intros ->.
Qed.

Lemma free_tables_runs n i l pgdir k :
  i + Z.of_nat n = 1024 -> 0 <= i -> pool kend l k -> page kend pgdir -> pgdir ∉ l ->
  (forall j, i <= j < 1024 -> present (pde k pgdir j) = true -> page kend (table k pgdir j) /\ table k pgdir j ∉ l /\ table k pgdir j <> pgdir) ->
  (forall j j', i <= j < 1024 -> i <= j' < 1024 -> present (pde k pgdir j) = true -> present (pde k pgdir j') = true ->
     table k pgdir j = table k pgdir j' -> j = j') ->
  runs (free_tables kend me n i pgdir) k (fun _ k' => exists l', pool kend l' k' /\ frame l' k k' /\
    forall v, v ∈ l' <-> v ∈ l \/ exists j, i <= j < 1024 /\ present (pde k pgdir j) = true /\ v = table k pgdir j).
Proof.
  revert i l k; induction n as [|n IH]; intros i l k Hi H0 Hp Hd Hdl Ht Hinj; cbn [free_tables].
  { rsteps. exists l. split; [done|]. split; [done|]. intros v. split; [by left|]. intros [?|(j & ? & _)]; [done|lia]. }
  unfold rd. rsteps. fold (pde k pgdir i). destruct (present (pde k pgdir i)) eqn:Pi; cbn [when].
  - fold (table k pgdir i). destruct (Ht i ltac:(lia) Pi) as (Htp & Htl & Htd). apply runs_kfree; [done|]. rsteps.
    set (t := table k pgdir i) in *. set (k1 := push_page t (fill_page t k)).
    assert (F1 : frame (t :: l) k k1) by (apply frame_push; [done|by left]).
    assert (Hpde : forall j, 0 <= j < 1024 -> pde k1 pgdir j = pde k pgdir j).
    { intros j Hj. apply F1; [done| |lia]. apply not_elem_of_cons. split; [congruence|done]. }
    assert (Htab : forall j, 0 <= j < 1024 -> table k1 pgdir j = table k pgdir j) by (intros j Hj; unfold table; by rewrite Hpde).
    eapply runs_mono; [apply (IH (i + 1) (t :: l) k1); try lia; try done|].
    + by apply pool_push.
    + apply not_elem_of_cons. split; [congruence|done].
    + intros j Hj. rewrite Hpde, Htab by lia. intros Pj. destruct (Ht j ltac:(lia) Pj) as (? & ? & ?). split_and!; try done.
      apply not_elem_of_cons. split; [|done]. intros E. assert (j = i); [|lia]. by apply Hinj; [lia..| | |].
    + intros j j' Hj Hj'. rewrite !Hpde, !Htab by lia. apply Hinj; lia.
    + intros _ k2 (l2 & Hp2 & F2 & E2). exists l2. split; [done|]. split.
      * eapply frame_trans; [|exact F2]. eapply frame_weaken; [|exact F1]. intros v Hv. apply E2. by left.
      * intros v. rewrite E2, elem_of_cons. split.
        -- intros [[->|?]|(j & Hj & Pj & ->)]; [right; exists i; split_and!; (done || lia)|by left|].
           rewrite Hpde, ?Htab in * by lia. right. exists j. split_and!; (done || lia).
        -- intros [?|(j & Hj & Pj & ->)]; [by left; right|]. destruct (Z.eq_dec j i) as [->|]; [by left; left|].
           right. exists j. rewrite Hpde, Htab by lia. split_and!; (done || lia).
  - rsteps. eapply runs_mono; [apply (IH (i + 1) l k); try lia; try done; intros; (apply Ht || apply Hinj); (done || lia)|].
    intros _ k2 (l2 & Hp2 & F2 & E2). exists l2. split; [done|]. split; [done|]. intros v. rewrite E2.
    split; (intros [?|(j & Hj & Pj & ->)]; [by left|right; exists j]); split_and!; try done; try lia.
    destruct (Z.eq_dec j i) as [->|]; [congruence|lia].
Qed.

(** [l'] has the pages of [l], and those of the address space [pgdir]. *)
Definition gives_back (U : Z -> Prop) (l : list Z) (pgdir : Z) (k : kmem) (l' : list Z) : Prop :=
  forall v, v ∈ l' <-> v ∈ l \/ table_page k pgdir v \/ exists m, 0 <= m < 2 ^ 19 /\ U m /\ v = upage k pgdir m.

Lemma freevm_runs e l pgdir k :
  space (fun m => m < e) l pgdir k -> 0 <= e <= 2 ^ 19 ->
  runs (freevm kend me pgdir) k (fun _ k' => exists l', pool kend l' k' /\ frame l' k k' /\ gives_back (fun m => m < e) l pgdir k l').
Proof.
  intros S He. unfold freevm. pose proof (tb_dir _ _ _ (sp_tables _ _ _ _ S)) as Hd.
  rewrite (proj2 (Z.eqb_neq pgdir 0)) by (destruct Hd as (_ & _ & _ & ?); lia). apply runs_bind.
  eapply runs_mono; [apply (dealloc_runs l pgdir k KERNBASE 0 e S); unfold KERNBASE; try lia|]; [change (npages 2147483648) with (2 ^ 19); lia|change (npages 0) with 0; lia|].
  change (npages 0) with 0. intros _ k1 (_ & l1 & S1 & _ & R1 & R2 & R3). pose proof (sp_tables _ _ _ _ S1) as T1. apply runs_bind.
  eapply runs_mono; [apply (free_tables_runs NPDENTRIES 0 l1 pgdir k1); try done; [apply (tb_pool _ _ _ T1)|apply (tb_dir_used _ _ _ T1)| |]|].
  { intros j Hj Pj. destruct (table_is _ _ _ _ T1 Hj Pj) as (? & ? & ? & ?). done. }
  { intros j j' Hj Hj' Pj Pj' E. by apply (table_inj _ _ _ _ _ T1). }
  intros _ k2 (l2 & Hp2 & F2 & E2).
  assert (Hdl : pgdir ∉ l2).
  { rewrite E2. intros [H|(j & Hj & Pj & H)]; [by apply (tb_dir_used _ _ _ T1)|]. by destruct (table_is _ _ _ _ T1 Hj Pj) as (_ & _ & ? & _). }
  apply runs_kfree; [done|]. exists (pgdir :: l2). split; [by apply pool_push|].
  assert (Hall : gives_back (fun m => m < e) l pgdir k (pgdir :: l2)).
  { intros v. rewrite elem_of_cons, E2, R1. setoid_rewrite <- R2. split.
    - intros [->|[[?|(m & Hm & Hme & ->)]|(j & Hj & Pj & ->)]]; [right; left; by left|by left| |right; left; right; by exists j].
      right. right. exists m. split_and!; (done || lia).
    - intros [?|[[->|(j & Hj & Pj & ->)]|(m & Hm & Hme & ->)]]; [by right; left; left|by left|right; right; by exists j|].
      right. left. right. exists m. split_and!; (done || lia). }
  split; [|done]. apply (frame_trans _ _ k1); [|apply (frame_trans _ _ k2)].
  - intros v x Hv Hvl Hx. apply R3; try done; intros H; apply Hvl; [apply Hall; by right; left|].
    rewrite elem_of_cons, E2. by right; left.
  - eapply frame_weaken; [|exact F2]. intros v Hv. by right.
  - apply frame_push; [done|by left].
Qed.

(** A directory with nothing in it. *)
Lemma empty_space l pgdir k :
  pool kend l k -> page kend pgdir -> pgdir ∉ l -> (forall i, 0 <= i < 1024 -> pde k pgdir i = 0) -> umem 0 l pgdir k.
Proof.
  intros Hp Hd Hl H0. constructor.
  - constructor; try done; intros i; [intros Hi Pi|intros j Hi Hj Pi]; by rewrite H0 in Pi.
  - intros m Hm HU. change (npages 0) with 0 in HU. lia.
  - intros m Hm _. unfold entry. rewrite H0; [done|]. split; [apply Z.div_pos; lia|apply Z.div_lt_upper_bound; lia].
  - intros m m' Hm _ HU. change (npages 0) with 0 in HU. lia.
Qed.

(** *** The kernel's part of an address space *)

(** The pages a line of [kmap] maps, and what their entries hold. *)
Definition kregion : Type := Z * Z * Z * Z.
Definition r_first (r : kregion) : Z := let '(virt, _, _, _) := r in vpn virt.
Definition r_last (r : kregion) : Z := let '(virt, ps, pe, _) := r in vpn (virt + u32 (pe - ps) - 1).
Definition r_entry (r : kregion) (m : Z) : Z := let '(virt, ps, _, perm) := r in ps + (m - vpn virt) * 4096 + Z.lor perm PTE_P.
Definition in_region (r : kregion) (m : Z) : Prop := r_first r <= m <= r_last r.
Definition region_ok (r : kregion) : Prop := let '(virt, ps, pe, perm) := r in
  KERNBASE <= virt /\ 0 < u32 (pe - ps) /\ virt + u32 (pe - ps) <= 2 ^ 32 /\
  ps mod 4096 = 0 /\ 0 <= ps /\ ps + (vpn (virt + u32 (pe - ps) - 1) - vpn virt) * 4096 < 2 ^ 32 /\ 0 <= perm < 4096.
Fixpoint apart (ks : list kregion) : Prop :=
  match ks with
  | [] => True
  | r :: ks' => (forall r' m, r' ∈ ks' -> in_region r m -> ~ in_region r' m) /\ apart ks'
  end.

Lemma region_high r m : region_ok r -> in_region r m -> 2 ^ 19 <= m < 2 ^ 20.
Proof.
  destruct r as [[[virt ps] pe] perm]. intros (Hv & Hs & He & _) [H1 H2]. cbn in *. unfold KERNBASE in Hv.
  pose proof (vpn_range (virt + u32 (pe - ps) - 1) ltac:(lia)). assert (2 ^ 19 <= vpn virt) by (unfold vpn; apply Z.div_le_lower_bound; lia). lia.
Qed.

(** The address space [pgdir] was made of pages of [l0], and all others are as they
    were; what is not free any more is a table. *)
Definition made_of (l0 l : list Z) (k0 : kmem) (pgdir : Z) (k : kmem) : Prop :=
  (forall v, v ∈ l0 <-> v ∈ l \/ table_page k pgdir v) /\ frame l0 k0 k.

Lemma grows_made_of l0 k0 pgdir l k l' k' :
  made_of l0 l k0 pgdir k -> grows pgdir l k l' k' -> made_of l0 l' k0 pgdir k'.
Proof.
  intros [M F] G. split.
  - intros v. rewrite M. destruct (gr_free _ _ _ _ _ G) as [new El]. split.
    + intros [Hv|Hv]; [by apply (gr_used _ _ _ _ _ G)|right; by apply (gr_kept _ _ _ _ _ G)].
    + intros [Hv|Hv]; [left; rewrite El; apply elem_of_app; by right|]. destruct (gr_new _ _ _ _ _ G v Hv); [by right|by left].
  - eapply frame_trans; [exact F|]. intros v x Hv Hl Hx. apply (gr_frame _ _ _ _ _ G); try done; intros H; apply Hl; rewrite M; [by left|by right].
Qed.

Lemma map_kernel_runs ks l0 k0 l pgdir k :
  umem 0 l pgdir k -> made_of l0 l k0 pgdir k -> Forall region_ok ks -> apart ks ->
  (forall r m, r ∈ ks -> in_region r m -> present (entry k pgdir m) = false) ->
  runs (map_kernel kend me pgdir ks) k (fun r k' =>
    (r = pgdir /\ exists l', umem 0 l' pgdir k' /\ made_of l0 l' k0 pgdir k' /\
       (forall r m, r ∈ ks -> in_region r m -> entry k' pgdir m = r_entry r m) /\
       (forall m, 0 <= m < 2 ^ 20 -> (forall r, r ∈ ks -> ~ in_region r m) -> entry k' pgdir m = entry k pgdir m)) \/
    (r = 0 /\ exists l' k1, pool kend l' k' /\ frame l0 k0 k' /\ (forall v, v ∈ l' <-> v ∈ l0) /\
       tables [] pgdir k1 /\ made_of l0 [] k0 pgdir k1)).
Proof.
  revert l k; induction ks as [|r ks IH]; intros l k S M Hok Hap Hun; cbn [map_kernel].
  { rsteps. left. split; [done|]. exists l. split_and!; try done. intros r m Hr. by apply not_elem_of_nil in Hr. }
  apply Forall_cons in Hok as [Hr Hok]. pose proof (fun m => region_high r m Hr) as Hhigh. destruct r as [[[virt ps] pe] perm].
  pose proof Hr as (Hv & Hs & He & Hps & Hps0 & Hpse & Hpm). unfold KERNBASE in Hv. apply runs_bind.
  eapply runs_mono; [apply (mappages_runs l pgdir k virt (u32 (pe - ps)) ps perm (sp_tables _ _ _ _ S)); try done; try lia|].
  { intros m Hm. by apply (Hun (virt, ps, pe, perm) m); [left|]. }
  intros r k1 (l1 & c & G & Hc & _ & E1 & Hres).
  assert (S1 : umem 0 l1 pgdir k1).
  { constructor; [apply (gr_tables _ _ _ _ _ G)| | |]; try (intros m; intros; change (npages 0) with 0 in *; lia).
    intros m Hm HU. rewrite E1 by lia. unfold mapped. assert (2 ^ 19 <= vpn virt) by (unfold vpn; apply Z.div_le_lower_bound; lia).
    replace (_ && _) with false by lia. by apply (sp_out _ _ _ _ S). }
  pose proof (grows_made_of _ _ _ _ _ _ _ M G) as M1. destruct Hres as [[-> ->]|(-> & Hlt & ->)].
  - change (0 <? 0) with false. cbv iota. cbn [apart] in Hap. destruct Hap as [Hap1 Hap].
    assert (Hin : forall m, 0 <= m < 2 ^ 20 -> entry k1 pgdir m =
      if decide (in_region (virt, ps, pe, perm) m) then r_entry (virt, ps, pe, perm) m else entry k pgdir m).
    { intros m Hm. rewrite E1 by done. unfold mapped. case_decide as Hd; cbn in Hd; unfold in_region in Hd; cbn in Hd.
      - replace (_ && _) with true by lia. done.
      - by replace (_ && _) with false by lia. }
    eapply runs_mono; [apply (IH l1 k1 S1 M1 Hok Hap)|].
    { intros r m Hr' Hm. assert (Hk : r ∈ (virt, ps, pe, perm) :: ks) by (by right). rewrite Forall_forall in Hok.
      pose proof (region_high r m (Hok r Hr') Hm). rewrite Hin by lia. case_decide as Hd; [by destruct (Hap1 r m Hr' Hd)|]. by apply (Hun r). }
    intros r k2 [(-> & l2 & S2 & M2 & Ein & Eout)|H2]; [left|by right]. split; [done|]. exists l2. split_and!; try done.
    + intros r m [->|Hr']%elem_of_cons Hm; [|by apply Ein]. pose proof (Hhigh m Hm). rewrite Eout, Hin by (lia || (intros r' Hr'; by apply Hap1)).
      by rewrite decide_True.
    + intros m Hm Hno. rewrite Eout, Hin by (done || (intros r' Hr'; apply Hno; by right)). rewrite decide_False; [done|]. apply Hno. by left.
  - change (-1 <? 0) with true. cbv iota. apply runs_bind. eapply runs_mono; [apply (freevm_runs 0 [] pgdir k1 S1); lia|].
    intros _ k2 (l2 & P2 & F2 & B2). rsteps. right. split; [done|]. exists l2, k1. destruct M1 as [Ml Mf].
    assert (El : forall v, v ∈ l2 <-> v ∈ l0).
    { intros v. rewrite (B2 v), Ml. split; [intros [?|[?|(m & ? & ? & _)]]; [by left|by right|lia]|intros [?|?]; [by left|by right; left]]. }
    split_and!; try done; [|apply (sp_tables _ _ _ _ S1)]. eapply frame_trans; [exact Mf|]. eapply frame_weaken; [|exact F2]. intros v. by rewrite El.
Qed.

(** An address space of [b] user pages takes at most [1025 + b] pages. *)
Lemma space_size l pgdir k b us :
  0 <= b -> NoDup l -> (forall v, v ∈ l -> v ∈ us \/ table_page k pgdir v \/ exists m, 0 <= m < b /\ v = upage k pgdir m) ->
  Z.of_nat (length l) <= 1025 + b + Z.of_nat (length us).
Proof.
  intros Hb Hnd Hl.
  set (c := pgdir :: us ++ map (table k pgdir) (seqZ 0 1024) ++ map (upage k pgdir) (seqZ 0 b)).
  assert (Hlen : Z.of_nat (length c) = 1025 + b + Z.of_nat (length us)) by (unfold c; cbn [length]; rewrite !length_app, !length_map, !length_seqZ; lia).
  rewrite <- Hlen. apply Nat2Z.inj_le, submseteq_length, NoDup_submseteq; [done|].
  intros v Hv. unfold c. rewrite elem_of_cons, !elem_of_app, !list_elem_of_fmap.
  destruct (Hl v Hv) as [?|[[->|(i & Hi & _ & ->)]|(m & Hm & ->)]]; [by right; left|by left| |].
  - right. right. left. exists i. split; [done|]. apply elem_of_seqZ. lia.
  - right. right. right. exists m. split; [done|]. apply elem_of_seqZ. lia.
Qed.

(** What the kernel's page-table entries are: pages of the first megabyte, of the
    kernel's text, of its data and of free memory, and of the devices. *)
Definition kernel_entry (data m : Z) : Z :=
  if decide (vpn KERNBASE <= m < vpn KERNLINK) then (m - vpn KERNBASE) * 4096 + 3
  else if decide (vpn KERNLINK <= m < vpn data) then (m - vpn KERNBASE) * 4096 + 1
  else if decide (vpn data <= m < vpn (KERNBASE + PHYSTOP)) then (m - vpn KERNBASE) * 4096 + 3
  else if decide (vpn DEVSPACE <= m) then m * 4096 + 3
  else 0.

Section Kernel.
(** The kernel's data segment starts on a page of its own, after the text. *)
Context (data : Z).
Hypothesis Hdata : KERNLINK < data < KERNBASE + PHYSTOP.
Hypothesis Hdata_page : data mod 4096 = 0.

Lemma data_pages : data = vpn data * 4096 /\ V2P data = data - KERNBASE /\ 524544 < vpn data < 581632.
Proof.
  unfold KERNLINK, KERNBASE, EXTMEM, PHYSTOP in Hdata. assert (E : data = vpn data * 4096) by (unfold vpn; pose proof (Z.div_mod data 4096); lia).
  split; [done|]. split; [|lia]. unfold V2P, KERNBASE. rewrite u32_small; lia.
Qed.
Lemma vpn_mul n : vpn (n * 4096) = n.
Proof. unfold vpn. by rewrite Z.div_mul. Qed.
Lemma vpn_before n : vpn (n * 4096 - 1) = n - 1.
Proof. unfold vpn. symmetry. apply (Z.div_unique _ _ _ 4095); lia. Qed.

(** A line of [kmap]: pages [f] to [e], physical pages from [p]. *)
Lemma region_line f e p pe perm :
  2 ^ 19 <= f -> f < e <= 2 ^ 20 -> u32 (pe - p * 4096) = (e - f) * 4096 -> 0 <= p -> p + (e - f) <= 2 ^ 20 -> 0 <= perm < 4096 ->
  let r := (f * 4096, p * 4096, pe, perm) in
  region_ok r /\ (forall m, in_region r m <-> f <= m < e) /\ forall m, r_entry r m = (m - f + p) * 4096 + Z.lor perm PTE_P.
Proof.
  intros Hf He Es Hp Hpe Hpm r. unfold r, in_region, region_ok, r_first, r_last, r_entry.
  rewrite Es. replace (f * 4096 + (e - f) * 4096 - 1) with (e * 4096 - 1) by lia. rewrite vpn_mul, vpn_before. unfold KERNBASE.
  split_and!; try lia. by apply Z.mod_mul.
Qed.

Lemma kmap_lines :
  exists r1 r2 r3 r4, kmap data = [r1; r2; r3; r4] /\ Forall region_ok [r1; r2; r3; r4] /\
  (forall m, in_region r1 m <-> 524288 <= m < 524544) /\ (forall m, in_region r2 m <-> 524544 <= m < vpn data) /\
  (forall m, in_region r3 m <-> vpn data <= m < 581632) /\ (forall m, in_region r4 m <-> 1040384 <= m < 1048576) /\
  (forall m, r_entry r1 m = (m - 524288) * 4096 + 3) /\ (forall m, r_entry r2 m = (m - 524288) * 4096 + 1) /\
  (forall m, r_entry r3 m = (m - 524288) * 4096 + 3) /\ (forall m, r_entry r4 m = m * 4096 + 3).
Proof.
  destruct data_pages as (Ed & Ev & Hp). set (p := vpn data) in *. unfold KERNBASE in Ev.
  destruct (region_line 524288 524544 0 EXTMEM PTE_W) as (O1 & I1 & E1); try done; try lia.
  destruct (region_line 524544 p 256 (V2P data) 0) as (O2 & I2 & E2); try done; try lia.
  { rewrite Ev, Ed, u32_small; lia. }
  destruct (region_line p 581632 (p - 524288) PHYSTOP PTE_W) as (O3 & I3 & E3); try done; try lia.
  { unfold PHYSTOP. rewrite u32_small; lia. }
  destruct (region_line 1040384 1048576 1040384 0 PTE_W) as (O4 & I4 & E4); try done; try lia.
  exists (524288 * 4096, 0 * 4096, EXTMEM, PTE_W), (524544 * 4096, 256 * 4096, V2P data, 0),
    (p * 4096, (p - 524288) * 4096, PHYSTOP, PTE_W), (1040384 * 4096, 1040384 * 4096, 0, PTE_W).
  split; [|split_and!; [rewrite !Forall_cons, Forall_nil; by split_and!|done..| | | |]].
  - unfold kmap. rewrite Ev. replace (data - 2147483648) with ((p - 524288) * 4096) by lia. by rewrite <- Ed.
  - intros m. rewrite E1. change (Z.lor PTE_W PTE_P) with 3. lia.
  - intros m. rewrite E2. change (Z.lor 0 PTE_P) with 1. lia.
  - intros m. rewrite E3. change (Z.lor PTE_W PTE_P) with 3. lia.
  - intros m. rewrite E4. change (Z.lor PTE_W PTE_P) with 3. lia.
Qed.

Lemma kernel_map_runs l0 k0 l pgdir k :
  umem 0 l pgdir k -> made_of l0 l k0 pgdir k -> (forall m, 0 <= m < 2 ^ 20 -> entry k pgdir m = 0) ->
  runs (map_kernel kend me pgdir (kmap data)) k (fun r k' =>
    (r = pgdir /\ exists l', umem 0 l' pgdir k' /\ made_of l0 l' k0 pgdir k' /\
       forall m, 2 ^ 19 <= m < 2 ^ 20 -> entry k' pgdir m = kernel_entry data m) \/
    (r = 0 /\ exists l' k1, pool kend l' k' /\ frame l0 k0 k' /\ (forall v, v ∈ l' <-> v ∈ l0) /\
       tables [] pgdir k1 /\ made_of l0 [] k0 pgdir k1)).
Proof.
  intros S M E0. destruct data_pages as (_ & _ & Hp).
  destruct kmap_lines as (r1 & r2 & r3 & r4 & -> & Hok & I1 & I2 & I3 & I4 & R1 & R2 & R3 & R4).
  eapply runs_mono; [apply (map_kernel_runs [r1; r2; r3; r4] l0 k0 l pgdir k S M Hok)|].
  - cbn [apart]. split_and!; try done; intros r m Hr; rewrite ?elem_of_cons in Hr;
      repeat destruct Hr as [->|Hr]; rewrite ?I1, ?I2, ?I3, ?I4; try lia; by apply not_elem_of_nil in Hr.
  - intros r m Hr Hm. rewrite Forall_forall in Hok. pose proof (region_high r m (Hok r Hr) Hm). by rewrite E0 by lia.
  - intros r k' [(-> & l' & S' & M' & Ein & Eout)|H]; [left|by right]. split; [done|]. exists l'. split; [done|]. split; [done|].
    intros m Hm. unfold kernel_entry. change (vpn KERNBASE) with 524288. change (vpn KERNLINK) with 524544.
    change (vpn (KERNBASE + PHYSTOP)) with 581632. change (vpn DEVSPACE) with 1040384.
    case_decide; [rewrite (Ein r1) by ((apply I1; lia) || (rewrite !elem_of_cons; tauto)); apply R1|].
    case_decide; [rewrite (Ein r2) by ((apply I2; lia) || (rewrite !elem_of_cons; tauto)); apply R2|].
    case_decide; [rewrite (Ein r3) by ((apply I3; lia) || (rewrite !elem_of_cons; tauto)); apply R3|].
    case_decide; [rewrite (Ein r4) by ((apply I4; lia) || (rewrite !elem_of_cons; tauto)); apply R4|].
    rewrite Eout, E0 by (try lia; intros r Hr; rewrite !elem_of_cons in Hr;
      destruct Hr as [->|[->|[->|[->|Hr]]]]; rewrite ?I1, ?I2, ?I3, ?I4; try lia; by apply not_elem_of_nil in Hr). done.
Qed.

(** A fresh directory, zeroed. *)
Lemma new_directory d l k :
  pool kend (d :: l) k -> let k1 := zero_page d (pop_page k) in
  umem 0 l d k1 /\ made_of (d :: l) l k d k1 /\ forall m, 0 <= m < 2 ^ 20 -> entry k1 d m = 0.
Proof.
  intros Hp k1. pose proof Hp as (_ & Hnd & Hf). apply NoDup_cons in Hnd as [Hdl _]. apply Forall_cons in Hf as [Hd _].
  assert (Hc : forall v x, page kend v -> v <> d -> 0 <= x < 4096 -> k_mem k1 (v + x) = k_mem k (v + x)).
  { intros v x Hv Hvd Hx. by apply (outside_page d (fun _ => 0)). }
  assert (H0 : forall i, 0 <= i < 1024 -> pde k1 d i = 0).
  { intros i Hi. unfold pde, k1. cbn. by replace (_ && _) with true by (unfold PGSIZE; lia). }
  pose proof (pool_popped d l k k1 Hp eq_refl Hc) as Hp'.
  split_and!.
  - by apply empty_space.
  - split.
    + intros v. rewrite elem_of_cons. split; [intros [->|?]; [right; by left|by left]|].
      intros [?|[->|(i & Hi & Pi & _)]]; [by right|by left|]. by rewrite H0 in Pi.
    + intros v x Hv Hvl Hx. apply not_elem_of_cons in Hvl as [? _]. by apply Hc.
  - intros m Hm. unfold entry. rewrite H0; [done|]. split; [apply Z.div_pos; lia|apply Z.div_lt_upper_bound; lia].
Qed.

(** The outcome of [setupkvm]: a page directory that maps the kernel and nothing
    else; or 0 and all memory as before, when there was too little of it. *)
Definition kvm_ready (l : list Z) (k : kmem) (r : Z) (k' : kmem) : Prop :=
  (r <> 0 /\ exists l', umem 0 l' r k' /\ made_of l l' k r k' /\
     forall m, 2 ^ 19 <= m < 2 ^ 20 -> entry k' r m = kernel_entry data m) \/
  (r = 0 /\ Z.of_nat (length l) <= 1025 /\ exists l', pool kend l' k' /\ frame l k k' /\ forall v, v ∈ l' <-> v ∈ l).

Lemma setupkvm_runs l k : pool kend l k -> runs (setupkvm kend data me) k (kvm_ready l k).
Proof.
  intros Hp. unfold setupkvm. apply runs_bind. eapply runs_kalloc; [exact Hp|]. destruct l as [|d l]; cbn [hd].
  { change (0 =? 0) with true. rewrite (pop_nil k Hp). rsteps. right. split; [done|]. split; [cbn; lia|]. by exists []. }
  pose proof (new_directory d l k Hp) as (S & M & E0). cbn zeta in S, M, E0. destruct Hp as (_ & Hnd & Hf).
  assert (Hd0 : d <> 0) by (apply Forall_cons in Hf as [(_ & _ & _ & ?) _]; lia).
  rewrite (proj2 (Z.eqb_neq d 0) Hd0). rsteps. change (P2V PHYSTOP >? DEVSPACE) with false. cbv iota.
  eapply runs_mono; [apply (kernel_map_runs (d :: l) k l d _ S M E0)|].
  intros r k' [(-> & H)|(-> & l' & k1 & P' & F' & E' & T1 & M1 & _)]; [by left|right]. split; [done|]. split; [|by exists l'].
  apply (space_size (d :: l) d k1 0 []); [lia|done|]. intros v Hv. right. left. by apply M1 in Hv as [?%not_elem_of_nil|?].
Qed.

(** *** Copying an address space *)

(** What is outside the pages of [l0] stays: an address space there is kept. *)
Lemma space_kept U l0 pgdir k0 l k :
  space U l0 pgdir k0 -> pool kend l k -> (forall v, v ∈ l -> v ∈ l0) -> frame l0 k0 k ->
  space U l pgdir k /\ (forall m, 0 <= m < 2 ^ 20 -> entry k pgdir m = entry k0 pgdir m) /\
  (forall m x, 0 <= m < 2 ^ 19 -> U m -> 0 <= x < 4096 -> k_mem k (upage k0 pgdir m + x) = k_mem k0 (upage k0 pgdir m + x)).
Proof.
  intros S Hp Hsub F. pose proof (sp_tables _ _ _ _ S) as T.
  assert (Htp : forall v, table_page k0 pgdir v -> page kend v /\ v ∉ l0).
  { intros v. by apply table_page_used. }
  destruct (tables_same l0 l pgdir k0 k T Hp) as (T1 & Hpde & He).
  { intros v Hv Hl. apply Htp in Hv as [_ Hv]. by apply Hv, Hsub. }
  { intros v x Hv Hx. apply Htp in Hv as [? ?]. by apply F. }
  split; [|split; [done|]].
  - constructor; [done| | |].
    + intros m Hm HU. rewrite He by lia. destruct (sp_in _ _ _ _ S m Hm HU) as (Pm & w & f & Ew & Hw & Hf & Hwl & Hwt).
      split; [done|]. exists w, f. split; [done|]. split; [done|]. split; [done|]. split; [intros H; by apply Hwl, Hsub|]. by rewrite (table_page_same pgdir k0 k).
    + intros m Hm HU. rewrite He by lia. by apply (sp_out _ _ _ _ S).
    + intros m m' Hm Hm' HU HU'. unfold upage. rewrite !He by lia. by apply (sp_inj _ _ _ _ S).
  - intros m x Hm HU Hx. destruct (upage_is _ _ _ _ m S Hm HU) as (? & ? & _). by apply F.
Qed.

(** Page [m] of [d] in [k] is a copy of page [m] of [pgdir] in [k0], with the same
    flags. *)
Definition copied (pgdir : Z) (k0 : kmem) (d : Z) (k : kmem) (m : Z) : Prop :=
  entry k d m = V2P (upage k d m) + PTE_FLAGS (entry k0 pgdir m) /\
  forall x, 0 <= x < 4096 -> k_mem k (upage k d m + x) = k_mem k0 (upage k0 pgdir m + x).

(** The first [b] pages are copied: the new address space takes pages that were
    free, all others are as they were. *)
Record copying (l0 : list Z) (pgdir : Z) (k0 : kmem) (b : Z) (l : list Z) (d : Z) (k : kmem) : Prop := mk_copying {
  cp_child : space (fun m => m < b) l d k;
  cp_parts : forall v, v ∈ l0 <-> v ∈ l \/ table_page k d v \/ exists m, 0 <= m < b /\ v = upage k d m;
  cp_frame : frame l0 k0 k;
  cp_copy : forall m, 0 <= m < b -> copied pgdir k0 d k m;
  cp_kernel : forall m, 2 ^ 19 <= m < 2 ^ 20 -> entry k d m = kernel_entry data m }.

Lemma setup_copying l pgdir k d k' l' :
  umem 0 l' d k' -> made_of l l' k d k' -> (forall m, 2 ^ 19 <= m < 2 ^ 20 -> entry k' d m = kernel_entry data m) ->
  copying l pgdir k 0 l' d k'.
Proof.
  intros S [M F] E. constructor; [exact S| |done|lia|done]. intros v. rewrite M.
  split; [intros [?|?]; [by left|by right; left]|intros [?|[?|(m & ? & _)]]; [by left|by right|lia]].
Qed.

(** One page more. *)
Lemma copying_step l0 pgdir k0 b u l d k l' k' f :
  copying l0 pgdir k0 b (u :: l) d k -> 0 <= b < 2 ^ 19 -> adding u l d k b l' k' -> space (fun m => m < b + 1) l' d k' ->
  entry k' d b = V2P u + f -> f = PTE_FLAGS (entry k0 pgdir b) -> upage k' d b = u ->
  (forall x, 0 <= x < 4096 -> k_mem k' (u + x) = k_mem k0 (upage k0 pgdir b + x)) ->
  copying l0 pgdir k0 (b + 1) l' d k'.
Proof.
  intros [S P F C K] Hb A S' En -> Eu Hx.
  assert (Hup : forall m, 0 <= m < b -> upage k' d m = upage k d m).
  { intros m Hm. unfold upage. by destruct (ad_keeps _ _ _ _ _ _ _ A m Hm) as [-> _]. }
  constructor; [done| | | |].
  - intros v. rewrite P, elem_of_cons. split.
    + intros [[->|Hv]|[Hv|(m & Hm & ->)]].
      * right. right. exists b. split; [lia|done].
      * destruct (ad_used _ _ _ _ _ _ _ A v) as [?|?]; [by left|by left|by right; left].
      * destruct (ad_used _ _ _ _ _ _ _ A v) as [?|?]; [by right|by left|by right; left].
      * right. right. exists m. split; [lia|]. by rewrite Hup.
    + intros [Hv|[Hv|(m & Hm & ->)]].
      * left. right. by apply (ad_sub _ _ _ _ _ _ _ A).
      * destruct (ad_new _ _ _ _ _ _ _ A v Hv); [by right; left|by left; right].
      * destruct (Z.eq_dec m b) as [->|]; [rewrite Eu; by left; left|]. right. right. exists m. split; [lia|]. apply Hup. lia.
  - eapply frame_trans; [exact F|]. intros v x Hv Hvl Hx'. apply (ad_frame _ _ _ _ _ _ _ A); try done; intros H; apply Hvl; rewrite P; [by left|by right; left].
  - intros m Hm. destruct (Z.eq_dec m b) as [->|]; [split; [by rewrite Eu|intros x Hx'; rewrite Eu; by apply Hx]|].
    assert (Hm' : 0 <= m < b) by lia. destruct (C m Hm') as [E1 E2]. destruct (ad_keeps _ _ _ _ _ _ _ A m Hm') as [E3 E4].
    split; [by rewrite E3, Hup|]. intros x Hx'. rewrite Hup by done. rewrite E4 by done. by apply E2.
  - intros m Hm. rewrite (ad_entry _ _ _ _ _ _ _ A) by lia. by apply K.
Qed.

(** The way back when memory runs out: every page is free again. *)
Definition all_back (l0 : list Z) (k0 : kmem) (sz : Z) (r : Z) (k' : kmem) : Prop :=
  r = 0 /\ Z.of_nat (length l0) <= 1025 + npages sz /\
  exists l', pool kend l' k' /\ frame l0 k0 k' /\ forall v, v ∈ l' <-> v ∈ l0.

Lemma copy_back l0 k0 b us d k sz :
  space (fun m => m < b) us d k -> 0 <= b <= 2 ^ 19 -> NoDup l0 -> b + Z.of_nat (length us) <= npages sz -> frame l0 k0 k ->
  (forall v, v ∈ l0 <-> v ∈ us \/ table_page k d v \/ exists m, 0 <= m < b /\ v = upage k d m) ->
  runs (freevm kend me d ;; mret 0) k (all_back l0 k0 sz).
Proof.
  intros S Hb Hnd Hsz F P. apply runs_bind. eapply runs_mono; [apply (freevm_runs b us d k S Hb)|].
  intros _ k' (l' & P' & F' & B'). rsteps. split; [done|]. split.
  { pose proof (space_size l0 d k b us ltac:(lia) Hnd (fun v Hv => proj1 (P v) Hv)). lia. }
  assert (El : forall v, v ∈ l' <-> v ∈ l0).
  { intros v. rewrite (B' v), P. split; (intros [?|[?|(m & Hm)]]; [by left|by right; left|right; right; exists m]); [tauto|].
    destruct Hm. split_and!; (done || lia). }
  exists l'. split; [done|]. split; [|done]. eapply frame_trans; [exact F|]. eapply frame_weaken; [|exact F']. intros v. by rewrite El.
Qed.

(** The pages after a failed attempt to map [u]. *)
Lemma copying_parts l0 pgdir k0 b u d k k' k2 :
  copying l0 pgdir k0 b [u] d k -> 0 <= b < 2 ^ 19 -> adding u [] d k b [] k' ->
  (forall m, 0 <= m < 2 ^ 20 -> entry k2 d m = entry k' d m) -> (forall v, table_page k2 d v <-> table_page k' d v) ->
  forall v, v ∈ l0 <-> v ∈ [u] \/ table_page k2 d v \/ exists m, 0 <= m < b /\ v = upage k2 d m.
Proof.
  intros [S P F C K] Hb A E3 T3 v. rewrite P, T3.
  assert (Ht : table_page k' d v <-> table_page k d v).
  { split; intros H; [by destruct (ad_new _ _ _ _ _ _ _ A v H) as [?|?%not_elem_of_nil]|].
    by destruct (ad_used _ _ _ _ _ _ _ A v (or_intror H)) as [?%not_elem_of_nil|?]. }
  assert (Hup : forall m, 0 <= m < b -> upage k2 d m = upage k d m).
  { intros m Hm. unfold upage. rewrite E3 by lia. by destruct (ad_keeps _ _ _ _ _ _ _ A m Hm) as [-> _]. }
  rewrite Ht. split; (intros [?|[?|(m & Hm & ->)]]; [by left|by right; left|right; right; exists m]); by rewrite Hup.
Qed.

Lemma copyuvm_loop_runs fuel l0 pgdir k0 b l d k sz :
  umem sz l0 pgdir k0 -> 0 <= sz < 2 ^ 31 -> copying l0 pgdir k0 b l d k -> 0 <= b <= npages sz -> (npages sz - b < Z.of_nat fuel) ->
  runs (copyuvm_loop kend me fuel pgdir d sz (b * 4096)) k (fun r k' =>
    (r = d /\ exists l', copying l0 pgdir k0 (npages sz) l' d k') \/ all_back l0 k0 sz r k').
Proof.
  intros S0 Hsz. pose proof (npages_range sz ltac:(lia)) as Hn. destruct (tb_pool _ _ _ (sp_tables _ _ _ _ S0)) as (_ & Hnd & _).
  revert b l k; induction fuel as [|fuel IH]; intros b l k CP Hb Hf; [lia|]. cbn [copyuvm_loop].
  pose proof (npages_spec sz b). destruct (Z.ltb_spec (b * 4096) sz) as [Hlt|Hge]; cbn [negb].
  2:{ rsteps. left. split; [done|]. exists l. by replace (npages sz) with b by lia. }
  assert (Hbn : b < npages sz) by tauto. pose proof CP as [S P F C K]. pose proof (tb_pool _ _ _ (sp_tables _ _ _ _ S)) as Hp.
  destruct (space_kept _ l0 pgdir k0 l k S0 Hp) as (Sp & Ep & Cp); [intros v Hv; apply P; by left|done|].
  apply runs_bind. eapply runs_mono; [apply (walkpgdir_runs l pgdir (b * 4096) false k (sp_tables _ _ _ _ Sp)); lia|].
  rewrite vpn_mul. destruct (sp_in _ _ _ _ Sp b ltac:(lia) Hbn) as (Pb & _).
  intros r k1 [(_ & _ & Hpde & _)|(-> & Hr0 & Hpde & Hk & _)]; [unfold entry in Pb; by rewrite Hpde in Pb|].
  rewrite (Hk eq_refl) in *. clear k1 Hk. rewrite (proj2 (Z.eqb_neq _ _) Hr0). unfold rd. rsteps.
  assert (Er : k_mem k (table k pgdir (b / 1024) + 4 * (b mod 1024)) = entry k0 pgdir b) by (rewrite <- Ep by lia; unfold entry; by rewrite Hpde).
  rewrite Er. rewrite Ep in Pb by lia. rewrite Pb. cbn [negb]. destruct (upage_is _ _ _ _ b S0 ltac:(lia) Hbn) as (Hw & Hwl & _ & f & Hf1 & Ef).
  set (w := upage k0 pgdir b) in *. destruct (page_entry w f Hw Hf1) as (_ & Efl & _ & Ea). rewrite Ef, Ea, Efl, (P2V_V2P w Hw).
  apply runs_bind. eapply runs_kalloc; [exact Hp|]. destruct l as [|u l]; cbn [hd].
  { change (0 =? 0) with true. rewrite (pop_nil k Hp). eapply runs_mono; [eapply (copy_back l0 k0 b [] d k sz S); try done; cbn; lia|].
    intros r k' Hr. by right. }
  assert (Hu : page kend u) by (destruct Hp as (_ & _ & Hpf); by apply Forall_cons in Hpf as [? _]).
  assert (Hul : u ∈ l0) by (apply P; left; by left).
  replace (u =? 0) with false by (destruct Hu as (_ & _ & _ & ?); lia). rsteps.
  eapply runs_mono; [apply (add_page u l d k _ b f S); try done; [|lia]|].
  { intros v x Hv Hvu Hx. by apply (outside_page u (fun a => k_mem k (w + (a - u)))). }
  assert (Efp : Z.lor f PTE_P = f).
  { apply lor_odd. rewrite Ef, present_odd, odd_aligned in Pb; [done|]. by destruct (page_V2P w Hw) as (-> & ? & _). }
  rewrite Efp. intros r k' (l' & A & [(-> & S' & En & Eu & Hc)|(-> & -> & -> & S' & Hut & Hne)]).
  - change (0 <? 0) with false. cbv iota. unfold PGSIZE. rewrite u32_small by lia. replace (b * 4096 + 4096) with ((b + 1) * 4096) by lia.
    apply (IH (b + 1) l' k'); [|lia|lia]. eapply copying_step; try done; [lia|by rewrite Ef, Efl|]. intros x Hx. rewrite Hc by done.
    cbn. replace (_ && _) with true by (unfold PGSIZE; lia). replace (w + (u + x - u)) with (w + x) by lia. by apply F.
  - change (-1 <? 0) with true. cbv iota. apply runs_bind. apply runs_kfree; [done|]. cbv beta.
    destruct (free_other _ [] d k' u S' Hu) as (S3 & E3 & T3 & C3); [apply not_elem_of_nil|done|done|].
    eapply runs_mono; [eapply (copy_back l0 k0 b [u] d _ sz S3); try done; [lia|cbn; lia| |]|intros r k2 H2; by right].
    + eapply frame_trans; [exact F|]. eapply frame_trans; [|by apply frame_push]. intros v x Hv Hvl Hx.
      apply (ad_frame _ _ _ _ _ _ _ A); try done; intros H'; apply Hvl; rewrite P; [by left|by right; left].
    + eapply copying_parts; (done || lia).
Qed.

(** C8: [copyuvm] of an address space of [sz] bytes, as [fork] makes the child's.
    Either it returns a page directory for an address space of [sz] bytes that maps
    the kernel like every other, and whose pages were all free, each with the
    contents and the permissions of the parent's page; or it returns 0 and all
    memory it took is free again, which happens only when fewer pages are free than
    the copy may need.  The parent's address space is as it was in both cases. *)
Theorem copyuvm_copies l pgdir k sz :
  umem sz l pgdir k -> 0 <= sz < KERNBASE ->
  runs (copyuvm kend data me pgdir sz) k (fun r k' => exists l',
    umem sz l' pgdir k' /\ keeps_user (npages sz) pgdir k k' /\
    ((r <> 0 /\ umem sz l' r k' /\ (forall m, 0 <= m < npages sz -> copied pgdir k r k' m /\ upage k' r m ∈ l) /\
      forall m, 2 ^ 19 <= m < 2 ^ 20 -> entry k' r m = kernel_entry data m) \/
     (r = 0 /\ Z.of_nat (length l) <= 1025 + npages sz /\ forall v, v ∈ l' <-> v ∈ l))).
Proof.
  intros S Hsz. unfold KERNBASE in Hsz. pose proof (npages_range sz ltac:(lia)). pose proof (tb_pool _ _ _ (sp_tables _ _ _ _ S)) as Hp.
  assert (Hback : forall l' k', pool kend l' k' -> (forall v, v ∈ l' -> v ∈ l) -> frame l k k' -> umem sz l' pgdir k' /\ keeps_user (npages sz) pgdir k k').
  { intros l' k' P' Hsub F'. destruct (space_kept _ l pgdir k l' k' S P' Hsub F') as (S' & E' & C'). split; [done|].
    intros m Hm. split; [apply E'; lia|]. intros x Hx. by apply C'; [lia|tauto|]. }
  unfold copyuvm. apply runs_bind. eapply runs_mono; [apply (setupkvm_runs l k Hp)|].
  intros d k1 [(Hd & l1 & S1 & M1 & E1)|(-> & Hlen & l1 & P1 & F1 & El)].
  - rewrite (proj2 (Z.eqb_neq _ _) Hd). pose proof (setup_copying l pgdir k d k1 l1 S1 M1 E1) as CP.
    change 0 with (0 * 4096) at 1. eapply runs_mono; [apply (copyuvm_loop_runs _ l pgdir k 0 l1 d k1 sz S); try done; try lia|].
    { unfold PGSIZE, npages. rewrite Z2Nat.id by (pose proof (Z.div_pos sz 4096); lia). pose proof (Z.div_mod sz 4096 ltac:(lia)).
      pose proof (Z.mod_pos_bound sz 4096 ltac:(lia)). pose proof (Z.div_lt_upper_bound (sz + 4095) 4096 (sz / 4096 + 2)). lia. }
    intros r k' [(-> & l' & [S' P' F' C' K'])|(-> & Hlen & l' & P' & F' & El)]; exists l'.
    + destruct (Hback l' k') as [? ?]; [apply (tb_pool _ _ _ (sp_tables _ _ _ _ S'))|intros v Hv; apply P'; by left|done|].
      split; [done|]. split; [done|]. left. split; [done|]. split; [done|]. split; [|done].
      intros m Hm. split; [by apply C'|]. apply P'. right. right. by exists m.
    + destruct (Hback l' k') as [? ?]; [done|intros v Hv; by apply El|done|]. split; [done|]. split; [done|]. by right.
  - change (0 =? 0) with true. rsteps. exists l1. destruct (Hback l1 k1) as [? ?]; [done|intros v Hv; by apply El|done|].
    split; [done|]. split; [done|]. right. split; [done|]. split; [lia|done].
Qed.

(** [setupkvm] makes a page directory that maps every page of the kernel's half
    as [kmap] says and no page of the user's half; when memory runs out it returns 0
    with all memory it took free again. *)
Theorem setupkvm_maps_kernel l k :
  pool kend l k -> runs (setupkvm kend data me) k (kvm_ready l k).
Proof. apply setupkvm_runs. Qed.
End Kernel.
End Spaces.

(** The allocator's lock free, around [v]. *)
Definition demo_guard (v : kmem) : guarded kmem := mk_g (g_cpu demo_kmem) (g_lk demo_kmem) v [].

(** A directory at the first page after the kernel, and three free pages. *)
Definition demo_kend : Z := 2148597760.
Definition demo_free : list Z := [2148601856; 2148605952; 2148610048].
Definition demo_vm : kmem :=
  mk_kmem true 2148601856 (fun a => if a =? 2148601856 then 2148605952 else if a =? 2148605952 then 2148610048 else 0).

Lemma demo_space : umem demo_kend 0 demo_free demo_kend demo_vm.
Proof.
  apply empty_space.
  - split; [cbn; done|]. split; [repeat constructor; set_solver|]. repeat apply Forall_cons_2; try apply Forall_nil_2; by vm_compute.
  - by vm_compute.
  - set_solver.
  - intros i Hi. unfold pde, demo_vm, demo_kend. cbn [k_mem]. by rewrite !(proj2 (Z.eqb_neq _ _)) by lia.
Qed.

Lemma allocuvm_grows_witness :
  runs (allocuvm demo_kend 0 demo_kend 0 4096) demo_vm (fun r k' => r = 4096 /\ fresh_page demo_kend k' 0).
Proof.
  eapply runs_mono.
  - apply (allocuvm_grows demo_kend 0 ltac:(reflexivity) demo_free demo_kend demo_vm 0 4096 demo_space ltac:(lia) ltac:(reflexivity)).
  - intros r k' (l' & [(-> & _ & _ & F & _)|(_ & _ & _ & _ & Hl)]).
    + split; [reflexivity|]. apply F. change (npages 4096) with 1. change (npages 0) with 0. lia.
    + exfalso. change (npages 4096) with 1 in Hl. change (npages 0) with 0 in Hl. cbn in Hl. lia.
Defined.

Lemma deallocuvm_shrinks_witness :
  exists l k, umem demo_kend 4096 l demo_kend k /\
    runs (deallocuvm demo_kend 0 demo_kend 4096 0) k (fun r k' => r = 0 /\ exists l',
      umem demo_kend 0 l' demo_kend k' /\ upage k demo_kend 0 ∈ l').
Proof.
  assert (Hq : g_quiet (demo_guard demo_vm)) by (split; [reflexivity|]; split; cbn; lia).
  assert (Hr : 0 <= 0 <= 4096) by lia. assert (Hs : 4096 < 2 ^ 31) by lia.
  assert (Hn : npages 0 <= 0 <= npages 4096) by (split; discriminate).
  assert (Hf : 4096 < 0 * 4096 + (Z.of_nat 2 - 1) * 4096 + 1) by lia.
  destruct (allocuvm_loop_runs demo_kend 0 ltac:(reflexivity) 2 demo_free demo_kend demo_vm 0 0 4096 demo_space Hr Hs Hn Hf _ Hq eq_refl)
    as (r & g' & _ & _ & l & [(-> & S & _)|(_ & _ & _ & _ & Hl)]).
  - exists l, (g_val g'). split; [done|]. eapply runs_mono.
    + apply (deallocuvm_shrinks demo_kend 0 ltac:(reflexivity) l demo_kend (g_val g') 4096 0 S ltac:(lia) ltac:(discriminate)).
    + intros r k' (-> & l' & S' & _ & R & _). split; [done|]. exists l'. split; [done|]. apply R. right. exists 0. split_and!; done.
  - exfalso. change (npages 4096) with 1 in Hl. cbn in Hl. lia.
Defined.

(** Eleven hundred free pages, each linked to the next. *)
Definition many_free : list Z := map (fun i => demo_kend + 4096 * i) (seqZ 1 1100).
Definition many_vm : kmem :=
  mk_kmem true (demo_kend + 4096) (fun a =>
    if (demo_kend <? a) && (a <? demo_kend + 4096 * 1100) && (a mod 4096 =? 0) then a + 4096 else 0).

Lemma many_chain n i :
  0 < i -> i + Z.of_nat n = 1101 ->
  chain (k_mem many_vm) (if i <=? 1100 then demo_kend + 4096 * i else 0) (map (fun j => demo_kend + 4096 * j) (seqZ i (Z.of_nat n))).
Proof.
  revert i; induction n as [|n IH]; intros i Hi Hn; [cbn; by replace (i <=? 1100) with false by lia|].
  rewrite seqZ_cons by lia. replace (Z.pred (Z.of_nat (S n))) with (Z.of_nat n) by lia. cbn [map chain]. replace (i <=? 1100) with true by lia.
  split; [done|]. specialize (IH (Z.succ i) ltac:(lia) ltac:(lia)). cbn [many_vm k_mem].
  assert (Em : (demo_kend + 4096 * i) mod 4096 = 0) by (unfold demo_kend; rewrite Z.mul_comm, Z.mod_add by lia; done).
  rewrite Em. destruct (Z.leb_spec (Z.succ i) 1100) in IH.
  - replace (_ && _) with true by lia. by replace (demo_kend + 4096 * i + 4096) with (demo_kend + 4096 * Z.succ i) by lia.
  - by replace (_ && _) with false by lia.
Qed.

Lemma many_space : umem demo_kend 0 many_free demo_kend many_vm.
Proof.
  assert (Hpg : forall i, 0 <= i <= 1100 -> page demo_kend (demo_kend + 4096 * i)).
  { intros i Hi. unfold page, V2P, PGSIZE, KERNBASE, PHYSTOP, demo_kend. rewrite u32_small by lia.
    split; [rewrite Z.mul_comm, Z.mod_add by lia; done|lia]. }
  apply empty_space.
  - split; [exact (many_chain 1100 1 ltac:(lia) ltac:(lia))|]. split.
    + apply NoDup_fmap_2; [intros i j; lia|apply NoDup_seqZ].
    + apply Forall_fmap, Forall_forall. intros i Hi%elem_of_seqZ. apply Hpg. lia.
  - rewrite <- (Z.add_0_r demo_kend) at 2. apply (Hpg 0). lia.
  - intros (i & Hi & H%elem_of_seqZ)%list_elem_of_fmap. lia.
  - intros i Hi. unfold pde, many_vm, demo_kend. cbn [k_mem]. destruct (Z.eq_dec i 0) as [->|]; [done|].
    assert (Em : (2148597760 + 4 * i) mod 4096 <> 0).
    { replace (2148597760 + 4 * i) with (4 * i + 524560 * 4096) by lia. rewrite Z.mod_add, Z.mod_small by lia. lia. }
    by replace (_ && _) with false by lia.
Qed.

Lemma setupkvm_maps_kernel_witness :
  runs (setupkvm demo_kend 2148552704 0) many_vm (fun r k' => r <> 0 /\
    forall m, 2 ^ 19 <= m < 2 ^ 20 -> entry k' r m = kernel_entry 2148552704 m).
Proof.
  eapply runs_mono.
  - apply (setupkvm_maps_kernel demo_kend 0 ltac:(reflexivity) 2148552704 ltac:(split; reflexivity) eq_refl many_free many_vm).
    exact (tb_pool _ _ _ _ (sp_tables _ _ _ _ _ many_space)).
  - intros r k' [(Hr & l' & _ & _ & E)|(_ & Hl & _)]; [by split|].
    exfalso. unfold many_free in Hl. rewrite length_map, length_seqZ in Hl. lia.
Defined.

Lemma copyuvm_copies_witness :
  exists l k, umem demo_kend 4096 l demo_kend k /\
    runs (copyuvm demo_kend 2148552704 0 demo_kend 4096) k (fun r k' => r <> 0 /\ copied demo_kend k r k' 0).
Proof.
  assert (Hq : g_quiet (demo_guard many_vm)) by (split; [reflexivity|]; split; cbn; lia).
  assert (Hr : 0 <= 0 <= 4096) by lia. assert (Hs : 4096 < 2 ^ 31) by lia.
  assert (Hn : npages 0 <= 0 <= npages 4096) by (split; discriminate).
  assert (Hf : 4096 < 0 * 4096 + (Z.of_nat 2 - 1) * 4096 + 1) by lia.
  assert (Hlen : Z.of_nat (length many_free) = 1100) by (unfold many_free; rewrite length_map, length_seqZ; lia).
  destruct (allocuvm_loop_runs demo_kend 0 ltac:(reflexivity) 2 many_free demo_kend many_vm 0 0 4096 many_space Hr Hs Hn Hf _ Hq eq_refl)
    as (r & g' & _ & _ & l & [(-> & S & _ & _ & _ & Hl)|(_ & _ & _ & _ & Hl)]); change (npages 4096) with 1 in Hl; [|lia].
  exists l, (g_val g'). split; [done|]. eapply runs_mono.
  - apply (copyuvm_copies demo_kend 0 ltac:(reflexivity) 2148552704 ltac:(split; reflexivity) eq_refl l demo_kend (g_val g') 4096 S).
    split; [discriminate|reflexivity].
  - change (npages 4096) with 1. intros r k' (l' & _ & _ & [(Hr0 & _ & C & _)|(_ & Hl' & _)]); [|lia].
    split; [done|]. apply C. lia.
Defined.
