(* ===== verification/Shm.v ===== *)
(** Shared memory ([open_sharedmem], [close_sharedmem] of [vm.c]).

    Ten pages, taken at boot, each with the id it is open under and the number of
    processes that have it open.  Opening maps the page at the end of the process's
    memory; a table remembers where, by process id.  A process is seen through the
    fields of [struct proc] the code uses. *)

From S2P Require Import Prelude Locks Guarded Kalloc Vm VmSpace.

Definition _NSHAREDPAGES : nat := 10.
Definition NPROC_rows : Z := 64.

Record shm_table := mk_shm {
  sh_id : list Z;
  sh_pa : list Z;
  sh_ref : list Z;
  sh_va : list (list Z) }.

Record curproc := mk_curproc {
  cp_pid : Z;
  cp_sz : Z;
  cp_pgdir : Z;
  cp_kstack : Z }.

(** What the code works on, under [shm_table.lock]: the table, the kernel's memory
    with its lock, and the calling process. *)
Record shm_state := mk_ss {
  ss_tab : shm_table;
  ss_klk : spinlock;
  ss_mem : kmem;
  ss_proc : curproc }.

Definition set_tab (t : shm_table) (s : shm_state) : shm_state := mk_ss t (ss_klk s) (ss_mem s) (ss_proc s).
Definition set_mem (k : kmem) (s : shm_state) : shm_state := mk_ss (ss_tab s) (ss_klk s) k (ss_proc s).
Definition upd_sz (sz : Z) (s : shm_state) : shm_state :=
  let p := ss_proc s in mk_ss (ss_tab s) (ss_klk s) (ss_mem s) (mk_curproc (cp_pid p) sz (cp_pgdir p) (cp_kstack p)).
Definition at_slot (l : list Z) (i : Z) : Z := nth (Z.to_nat i) l 0.
Definition put_id (i x : Z) (t : shm_table) : shm_table := mk_shm (<[Z.to_nat i := x]> (sh_id t)) (sh_pa t) (sh_ref t) (sh_va t).
Definition put_pa (i x : Z) (t : shm_table) : shm_table := mk_shm (sh_id t) (<[Z.to_nat i := x]> (sh_pa t)) (sh_ref t) (sh_va t).
Definition put_ref (i x : Z) (t : shm_table) : shm_table := mk_shm (sh_id t) (sh_pa t) (<[Z.to_nat i := x]> (sh_ref t)) (sh_va t).
Definition put_va (pid i x : Z) (t : shm_table) : shm_table :=
  mk_shm (sh_id t) (sh_pa t) (sh_ref t) (<[Z.to_nat pid := <[Z.to_nat i := x]> (nth (Z.to_nat pid) (sh_va t) [])]> (sh_va t)).

Section Shm.
Context (kend : Z) (me : nat).
Notation H := (M (guarded shm_state)).

(** Code that works on the kernel's memory, run on the same CPU. *)
Definition in_mem {A} (m : M (guarded kmem) A) : H A := fun g =>
  let back (h : guarded kmem) := mk_g (g_cpu h) (g_lk g)
      (mk_ss (ss_tab (g_val g)) (g_lk h) (g_val h) (ss_proc (g_val g))) (g_wakes g) in
  match m (mk_g (g_cpu g) (ss_klk (g_val g)) (ss_mem (g_val g)) []) with
  | Ret a h => Ret a (back h)
  | Panic msg h => Panic msg (back h)
  | Sleep ch k h => Sleep ch k (back h)
  | Fault f h => Fault f (back h)
  end.

Definition tab_mod (f : shm_table -> shm_table) : H unit := g_mod (fun s => set_tab (f (ss_tab s)) s).

Fixpoint init_pages (n : nat) (i : Z) : H unit :=
  match n with
  | O => mret tt
  | S n' =>
      pa ← in_mem (kalloc me);
      tab_mod (put_pa i pa) ;;
      if pa =? 0 then panic "_shared_mem_init: kalloc failed"
      else tab_mod (put_ref i 0) ;; init_pages n' (i + 1)
  end.
Definition _shared_mem_init : H unit :=
  modify (fun g => mk_g (g_cpu g) Spinlock.initlock (g_val g) (g_wakes g)) ;;
  init_pages _NSHAREDPAGES 0.

(** The checks of [switchuvm]; the rest of it loads registers of the processor. *)
Definition shm_switchuvm : H unit :=
  s ← g_get;
  if cp_kstack (ss_proc s) =? 0 then panic "switchuvm: no kstack"
  else if cp_pgdir (ss_proc s) =? 0 then panic "switchuvm: no pgdir"
  else mret tt.

(** The loop over the slots: a slot open under [id], or else the last free one. *)
Fixpoint open_scan (n : nat) (i mem_idx id : Z) (t : shm_table) : Z :=
  match n with
  | O => mem_idx
  | S n' =>
      if at_slot (sh_ref t) i =? 0 then open_scan n' (i + 1) i id t
      else if at_slot (sh_id t) i =? id then i
      else open_scan n' (i + 1) mem_idx id t
  end.

Definition add_ref (i d : Z) : H unit :=
  s ← g_get;
  let r := at_slot (sh_ref (ss_tab s)) i + d in
  if (INT_MIN <=? r) && (r <=? INT_MAX) then tab_mod (put_ref i r) else faults Overflow.

Definition open_sharedmem (id : Z) : H Z :=
  s ← g_get;
  let va := PGROUNDUP (cp_sz (ss_proc s)) in
  let pgdir := cp_pgdir (ss_proc s) in
  g_acquire me ;;
  s ← g_get;
  let mem_idx := open_scan _NSHAREDPAGES 0 (-1) id (ss_tab s) in
  if mem_idx =? -1 then g_release me ;; mret (-1)
  else
    tab_mod (put_id mem_idx id) ;;
    add_ref mem_idx 1 ;;
    g_release me ;;
    s ← g_get;
    r ← in_mem (mappages me pgdir va PGSIZE (V2P (at_slot (sh_pa (ss_tab s)) mem_idx)) (Z.lor PTE_W PTE_U));
    if r <? 0 then
      g_acquire me ;; add_ref mem_idx (-1) ;; g_release me ;; mret (-1)
    else
      shm_switchuvm ;;
      s ← g_get;
      if negb (cp_pid (ss_proc s) <? NPROC_rows) then faults OutOfBounds
      else
        tab_mod (put_va (cp_pid (ss_proc s)) mem_idx va) ;;
        g_mod (fun s => upd_sz (u32 (cp_sz (ss_proc s) + PGSIZE)) s) ;;
        mret (i32 va).

(** The test [!*pte || !PTE_P] is [!*pte]: [PTE_P] is the constant 1. *)
Fixpoint unmappages_loop (n : nat) (pgdir a : Z) : M (guarded kmem) Z :=
  pte ← walkpgdir me pgdir a true;
  if pte =? 0 then mret (-1)
  else
    e ← rd pte;
    if negb (ctrue e) || negb (ctrue PTE_P) then panic "reunmap"
    else
      wr pte 0 ;;
      match n with
      | O => mret 0
      | S n' => unmappages_loop n' pgdir (u32 (a + PGSIZE))
      end.
Definition unmappages (pgdir va size : Z) : M (guarded kmem) Z :=
  let a := PGROUNDDOWN va in
  let last := PGROUNDDOWN (u32 (va + size - 1)) in
  unmappages_loop (Z.to_nat (u32 (last - a) / PGSIZE)) pgdir a.

Fixpoint close_scan (n : nat) (i id : Z) (t : shm_table) : Z :=
  match n with
  | O => -1
  | S n' =>
      if (at_slot (sh_id t) i =? id) && ctrue (at_slot (sh_ref t) i) then i
      else close_scan n' (i + 1) id t
  end.

Definition close_sharedmem (id : Z) : H Z :=
  s ← g_get;
  let pgdir := cp_pgdir (ss_proc s) in
  g_acquire me ;;
  s ← g_get;
  let mem_idx := close_scan _NSHAREDPAGES 0 id (ss_tab s) in
  if mem_idx =? -1 then g_release me ;; mret (-1)
  else
    add_ref mem_idx (-1) ;;
    g_release me ;;
    s ← g_get;
    let pid := cp_pid (ss_proc s) in
    if negb (pid <? NPROC_rows) then faults OutOfBounds
    else
      let va := u32 (at_slot (nth (Z.to_nat pid) (sh_va (ss_tab s)) []) mem_idx) in
      r ← in_mem (unmappages pgdir va PGSIZE);
      if r <? 0 then
        g_acquire me ;; add_ref mem_idx 1 ;; g_release me ;; mret (-1)
      else
        shm_switchuvm ;;
        g_mod (fun s => upd_sz (u32 (cp_sz (ss_proc s) - PGSIZE)) s) ;;
        mret 0.
End Shm.

(** ** The table *)

Definition slot (i : Z) : Prop := 0 <= i < 10.
Definition live (t : shm_table) (i : Z) : Prop := 0 < at_slot (sh_ref t) i.
(** No two pages are open under one id; every page is a page of memory. *)
Record shm_ok (kend : Z) (t : shm_table) : Prop := mk_shm_ok {
  so_id : length (sh_id t) = 10%nat;
  so_pa : length (sh_pa t) = 10%nat;
  so_ref : length (sh_ref t) = 10%nat;
  so_va : length (sh_va t) = 64%nat;
  so_rows : forall r, r ∈ sh_va t -> length r = 10%nat;
  so_count : forall i, slot i -> 0 <= at_slot (sh_ref t) i < INT_MAX;
  so_unique : forall i j, slot i -> slot j -> live t i -> live t j -> at_slot (sh_id t) i = at_slot (sh_id t) j -> i = j;
  so_page : forall i, slot i -> page kend (at_slot (sh_pa t) i) }.

(** The slot [open_sharedmem] has to choose: the one open under [id] if there is
    one, a free one otherwise. *)
Definition slot_for (t : shm_table) (id i : Z) : Prop :=
  slot i /\ ((live t i /\ at_slot (sh_id t) i = id) \/
             (at_slot (sh_ref t) i = 0 /\ forall j, slot j -> live t j -> at_slot (sh_id t) j <> id)).

Lemma open_scan_spec kend t id n i m :
  shm_ok kend t -> 0 <= i -> i + Z.of_nat n = 10 ->
  (m = -1 /\ (forall j, 0 <= j < i -> live t j)) \/ (slot m /\ at_slot (sh_ref t) m = 0) ->
  (forall j, 0 <= j < i -> live t j -> at_slot (sh_id t) j <> id) ->
  let r := open_scan n i m id t in
  (r = -1 /\ forall j, slot j -> live t j /\ at_slot (sh_id t) j <> id) \/ slot_for t id r.
Proof.
  intros O. revert i m; induction n as [|n IH]; intros i m Hi Hn Hm Hno; cbn [open_scan].
  - destruct Hm as [[-> Hall]|[Hs Hz]]; [left|right].
    + split; [done|]. intros j Hj. unfold slot in Hj. split; [apply Hall; lia|apply Hno; [lia|apply Hall; lia]].
    + split; [done|]. right. split; [done|]. intros j Hj. apply Hno. unfold slot in Hj. lia.
  - destruct (Z.eqb_spec (at_slot (sh_ref t) i) 0) as [E|E].
    + apply IH; [lia|lia|right; split; [split; lia|done]|]. intros j Hj. destruct (Z.eq_dec j i) as [->|]; [unfold live; lia|apply Hno; lia].
    + assert (Hl : live t i) by (unfold live; pose proof (so_count _ _ O i ltac:(split; lia)); lia).
      destruct (Z.eqb_spec (at_slot (sh_id t) i) id) as [Ei|Ei]; [right; split; [split; lia|by left]|].
      apply IH; [lia|lia| |].
      * destruct Hm as [[-> Hall]|Hm]; [left|by right]. split; [done|]. intros j Hj. destruct (Z.eq_dec j i) as [->|]; [done|apply Hall; lia].
      * intros j Hj. destruct (Z.eq_dec j i) as [->|]; [done|apply Hno; lia].
Qed.

Lemma close_scan_spec kend t id n i :
  shm_ok kend t -> 0 <= i -> i + Z.of_nat n = 10 -> (forall j, 0 <= j < i -> live t j -> at_slot (sh_id t) j <> id) ->
  let r := close_scan n i id t in
  (r = -1 /\ forall j, slot j -> live t j -> at_slot (sh_id t) j <> id) \/ (slot r /\ live t r /\ at_slot (sh_id t) r = id).
Proof.
  intros O. revert i; induction n as [|n IH]; intros i Hi Hn Hno; cbn [close_scan].
  - left. split; [done|]. intros j Hj. apply Hno. unfold slot in Hj. lia.
  - pose proof (so_count _ _ O i ltac:(split; lia)). unfold ctrue.
    destruct (Z.eqb_spec (at_slot (sh_id t) i) id) as [Ei|Ei], (Z.eqb_spec (at_slot (sh_ref t) i) 0) as [E|E]; cbn [negb andb].
    2:{ right. split; [split; lia|]. split; [unfold live; lia|done]. }
    all: apply IH; [lia|lia|]; intros j Hj Hl; destruct (Z.eq_dec j i) as [->|]; [try done; unfold live in Hl; lia|apply Hno; (lia || done)].
Qed.

Lemma at_insert l i j x : length l = 10%nat -> slot i -> slot j ->
  at_slot (<[Z.to_nat i := x]> l) j = if j =? i then x else at_slot l j.
Proof.
  intros Hl Hi Hj. unfold at_slot, slot in *. rewrite !nth_lookup. destruct (Z.eqb_spec j i) as [->|].
  - by rewrite list_lookup_insert_eq by lia.
  - by rewrite list_lookup_insert_ne by lia.
Qed.

(** The table with slot [i] open once more ([d = 1]) or less, under [id]. *)
Definition counted (i id d : Z) (t : shm_table) : shm_table :=
  put_ref i (at_slot (sh_ref t) i + d) (put_id i id t).
Lemma counted_ok kend i id d t :
  shm_ok kend t -> slot i -> 0 <= at_slot (sh_ref t) i + d < INT_MAX ->
  (forall j, slot j -> j <> i -> live t j -> at_slot (sh_id t) j <> id) -> shm_ok kend (counted i id d t).
Proof.
  intros O Hi Hr Hno. destruct O as [O1 O2 O3 O4 O5 O6 O7 O8].
  assert (Hl : forall j, slot j -> live (counted i id d t) j -> j <> i -> live t j).
  { intros j Hj Hlj Hji. unfold live, counted in *. cbn [put_ref put_id sh_ref] in Hlj. rewrite at_insert in Hlj by done. by replace (j =? i) with false in Hlj by lia. }
  unfold counted in *. constructor; cbn [put_ref put_id sh_ref sh_id sh_pa sh_va]; rewrite ?length_insert; try done.
  - intros j Hj. rewrite at_insert by done. destruct (j =? i); [done|by apply O6].
  - intros j j' Hj Hj' Lj Lj'. rewrite !at_insert by done.
    destruct (Z.eqb_spec j i) as [->|], (Z.eqb_spec j' i) as [->|]; try done.
    + intros E. exfalso. by apply (Hno j'); [| |apply Hl|].
    + intros E. exfalso. by apply (Hno j); [| |apply Hl|].
    + apply O7; try done; by apply Hl.
Qed.
Lemma slot_for_other t id i kend : shm_ok kend t -> slot_for t id i -> forall j, slot j -> j <> i -> live t j -> at_slot (sh_id t) j <> id.
Proof.
  intros O [Hi [[Hl E]|[_ Hno]]] j Hj Hji Hlj; [|by apply Hno]. intros E'. apply Hji. apply (so_unique _ _ O); (done || congruence).
Qed.

(** ** Opening and closing *)

Section Shared.
Context (kend : Z) (me : nat).
Hypothesis Hkend : KERNBASE < kend.

Lemma runs_in_mem {B} (m : M (guarded kmem) B) s (Q : B -> kmem -> Prop) :
  ss_klk s = Spinlock.initlock -> runs m (ss_mem s) Q ->
  runs (in_mem m) s (fun b s' => Q b (ss_mem s') /\ s' = set_mem (ss_mem s') s).
Proof.
  intros Hk Hm g [Hg Hc] <-. destruct (Hm (mk_g (g_cpu g) (ss_klk (g_val g)) (ss_mem (g_val g)) [])) as (b & h & E & [Hl Hc'] & HQ); [by split|done|].
  unfold in_mem. rewrite E. eexists b, _. split; [reflexivity|]. cbn. split; [by split|]. split; [done|]. unfold set_mem. cbn. by rewrite Hk, Hl.
Qed.

Lemma leaves_add_ref {B} i d (k : unit -> M (guarded shm_state) B) s Q :
  in_i32 (at_slot (sh_ref (ss_tab s)) i + d) ->
  leaves me (k tt) (set_tab (put_ref i (at_slot (sh_ref (ss_tab s)) i + d) (ss_tab s)) s) Q -> leaves me (add_ref i d ≫= k) s Q.
Proof.
  intros [H1 H2] HL g w Hg. destruct (HL g w Hg) as (b & g' & E & H'). exists b, g'. split; [|done]. rewrite <- E.
  unfold add_ref, g_get, gets, tab_mod, g_mod, modify, in_cs, at_slot in *. munfold. cbn -[Z.leb Z.add INT_MIN INT_MAX] in *.
  rewrite (proj2 (Z.leb_le _ _) H1), (proj2 (Z.leb_le _ _) H2). reflexivity.
Qed.
Lemma leaves_tab {B} f (k : unit -> M (guarded shm_state) B) s Q :
  leaves me (k tt) (set_tab (f (ss_tab s)) s) Q -> leaves me (tab_mod f ≫= k) s Q.
Proof. intros HL. exact (leaves_mod me (fun s => set_tab (f (ss_tab s)) s) k s Q HL). Qed.

(** The calling process and its page table, for which [l] is the free list.  The rows of
    [shm_table.va], of which there are [NPROC], are indexed by process id: the calls are
    those of a process with an id below 64 (for another, see
    [open_by_pid_64_out_of_bounds]). *)
Record caller (l : list Z) (s : shm_state) : Prop := mk_caller {
  ca_tab : shm_ok kend (ss_tab s);
  ca_klk : ss_klk s = Spinlock.initlock;
  ca_tables : tables kend l (cp_pgdir (ss_proc s)) (ss_mem s);
  ca_pid : 0 <= cp_pid (ss_proc s) < 64;
  ca_kstack : cp_kstack (ss_proc s) <> 0 }.

(** Entries of the calling process's page table. *)
Definition pentry (s : shm_state) (m : Z) : Z := entry (ss_mem s) (cp_pgdir (ss_proc s)) m.
Definition same_but (s s' : shm_state) (m : Z) : Prop :=
  forall m', 0 <= m' < 2 ^ 20 -> m' <> m -> pentry s' m' = pentry s m'.

Definition opened (id : Z) (s : shm_state) (l : list Z) (r : Z) (s' : shm_state) : Prop := exists l', caller l' s' /\
  let n := npages (cp_sz (ss_proc s)) in let t := ss_tab s in
  same_but s s' n /\
  ((r = -1 /\ ss_proc s' = ss_proc s /\ pentry s' n = pentry s n /\ sh_ref (ss_tab s') = sh_ref t /\
    (l = [] \/ forall j, slot j -> live t j /\ at_slot (sh_id t) j <> id)) \/
   (r = n * 4096 /\ cp_sz (ss_proc s') = cp_sz (ss_proc s) + 4096 /\
    cp_pid (ss_proc s') = cp_pid (ss_proc s) /\ cp_pgdir (ss_proc s') = cp_pgdir (ss_proc s) /\ cp_kstack (ss_proc s') = cp_kstack (ss_proc s) /\
    exists i, slot_for t id i /\ ss_tab s' = put_va (cp_pid (ss_proc s)) i r (counted i id 1 t) /\
      pentry s' n = V2P (at_slot (sh_pa t) i) + 7)).

Lemma put_va_ok pid i x t : shm_ok kend t -> 0 <= pid < 64 -> shm_ok kend (put_va pid i x t).
Proof.
  intros [O1 O2 O3 O4 O5 O6 O7 O8] Hp. constructor; try done; cbn [put_va sh_va].
  - by rewrite length_insert.
  - intros r Hr. apply list_elem_of_lookup in Hr as [k Hk]. destruct (decide (k = Z.to_nat pid)) as [->|Hne].
    + rewrite list_lookup_insert_eq in Hk by lia. injection Hk as <-. rewrite length_insert. apply O5.
      rewrite nth_lookup. destruct (lookup_lt_is_Some_2 (sh_va t) (Z.to_nat pid)) as [r Hr]; [lia|].
      rewrite Hr. cbn. by eapply list_elem_of_lookup_2.
    + rewrite list_lookup_insert_ne in Hk by done. apply O5. by eapply list_elem_of_lookup_2.
Qed.

Lemma counted_back i id t :
  length (sh_ref t) = 10%nat -> slot i ->
  put_ref i (at_slot (sh_ref (counted i id 1 t)) i + -1) (counted i id 1 t) = counted i id 0 t /\
  sh_ref (counted i id 0 t) = sh_ref t.
Proof.
  intros Hl Hi. unfold counted, put_ref, put_id. cbn [sh_ref sh_id sh_pa sh_va]. rewrite at_insert, Z.eqb_refl by done. rewrite list_insert_insert_eq.
  split; [do 2 f_equal; lia|]. rewrite Z.add_0_r. apply list_insert_id. unfold at_slot. rewrite nth_lookup.
  destruct (lookup_lt_is_Some_2 (sh_ref t) (Z.to_nat i)) as [x Hx]; [unfold slot in Hi; lia|]. by rewrite Hx.
Qed.

Lemma switch_runs s Q :
  cp_kstack (ss_proc s) <> 0 -> cp_pgdir (ss_proc s) <> 0 -> Q tt s -> runs shm_switchuvm s Q.
Proof.
  intros Hk Hd HQ. unfold shm_switchuvm. rsteps. rewrite (proj2 (Z.eqb_neq _ _) Hk), (proj2 (Z.eqb_neq _ _) Hd). by rsteps.
Qed.

Lemma open_runs l s id :
  caller l s -> 0 <= cp_sz (ss_proc s) -> npages (cp_sz (ss_proc s)) < 2 ^ 19 -> pentry s (npages (cp_sz (ss_proc s))) = 0 ->
  (forall i, slot i -> at_slot (sh_ref (ss_tab s)) i + 1 < INT_MAX) ->
  runs (open_sharedmem me id) s (opened id s l).
Proof.
  intros C Hsz Hn He Hcnt. pose proof C as [O Hk T Hp Hks]. pose proof (tb_dir _ _ _ _ T) as (_ & _ & _ & Hd).
  set (n := npages (cp_sz (ss_proc s))) in *. assert (Hs31 : cp_sz (ss_proc s) <= 2 ^ 31 - 4096).
  { pose proof (npages_spec (cp_sz (ss_proc s)) n). unfold n in *. lia. }
  unfold open_sharedmem. rsteps. rewrite PGROUNDUP_is by lia. fold (npages (cp_sz (ss_proc s))). fold n.
  destruct (open_scan_spec kend (ss_tab s) id 10 0 (-1) O) as [[Er Hall]|Hfor]; [lia|done|left; split; [done|lia]|lia| |];
    change (open_scan _NSHAREDPAGES) with (open_scan 10).
  { rewrite Er. change (-1 =? -1) with true. rsteps. exists l. split; [done|]. split; [done|]. left. split_and!; try done. by right. }
  set (i := open_scan 10 0 (-1) id (ss_tab s)) in *. pose proof Hfor as [Hi _]. pose proof (so_count _ _ O i Hi) as Hc.
  replace (i =? -1) with false by (unfold slot in Hi; lia). apply leaves_tab, leaves_add_ref.
  { cbn [set_tab put_id ss_tab sh_ref]. unfold in_i32, INT_MIN, INT_MAX in *. lia. }
  rsteps. cbn [set_tab put_id put_ref ss_tab sh_ref sh_pa].
  change (put_ref i _ (put_id i id (ss_tab s))) with (counted i id 1 (ss_tab s)).
  set (s1 := set_tab (counted i id 1 (ss_tab s)) s).
  destruct (page_V2P kend Hkend _ (so_page _ _ O i Hi)) as (Ev & Ha & Hr). unfold PHYSTOP in Hr.
  assert (He0 : present (entry (ss_mem s) (cp_pgdir (ss_proc s)) n) = false) by (change (present (pentry s n) = false); by rewrite He).
  assert (0 <= n < 2 ^ 20) by (pose proof (npages_range (cp_sz (ss_proc s)) ltac:(lia)); unfold n in *; lia).
  pose proof (map_one kend me Hkend l (cp_pgdir (ss_proc s)) (ss_mem s) n (V2P (at_slot (sh_pa (ss_tab s)) i)) (Z.lor PTE_W PTE_U) T ltac:(done) ltac:(rewrite Ev; exact Ha)
    ltac:(rewrite Ev; lia) ltac:(split; [discriminate|reflexivity]) He0) as Hmap.
  eapply runs_mono; [exact (runs_in_mem _ s1 _ Hk Hmap)|]. clear Hmap.
  intros r s2 [(l' & G & _ & Hsame & Hres) E2]. pose proof (gr_tables _ _ _ _ _ _ G) as T2.
  destruct Hres as [(-> & En)|(-> & En & -> & ->)].
  - change (0 <? 0) with false. cbv iota. rsteps. rewrite E2. apply switch_runs; [done|cbn; lia|]. rsteps. cbn [set_mem s1 set_tab ss_proc ss_tab].
    replace (cp_pid (ss_proc s) <? NPROC_rows) with true by (unfold NPROC_rows; lia). cbn [negb]. unfold tab_mod. rsteps.
    exists l'. cbn [set_mem s1 set_tab ss_proc ss_tab upd_sz ss_mem cp_sz cp_pid cp_pgdir cp_kstack ss_klk]. unfold PGSIZE. rewrite u32_small by lia.
    split; [|split]; [constructor; try done| |].
    + apply put_va_ok; [|done]. apply counted_ok; try done; [specialize (Hcnt i Hi); lia|by eapply slot_for_other].
    + done.
    + right. rewrite i32_small by (unfold in_i32, INT_MIN, INT_MAX; lia). split_and!; try done. exists i. split_and!; try done.
  - change (-1 <? 0) with true. cbv iota. rewrite E2. rsteps. destruct (counted_back i id (ss_tab s) (so_ref _ _ O) Hi) as [Eb Er].
    apply leaves_add_ref; cbn [set_mem s1 set_tab ss_tab ss_proc ss_klk ss_mem].
    { unfold counted. cbn [put_ref put_id sh_ref]. rewrite at_insert, Z.eqb_refl by (done || apply O). unfold in_i32, INT_MIN, INT_MAX in *. lia. }
    rewrite Eb. rsteps. exists []. split; [|split]; [constructor; try done| |].
    + cbn [set_tab ss_tab]. apply counted_ok; try done; [lia|by eapply slot_for_other].
    + done.
    + left. split_and!; try done. by left.
Qed.

Lemma unmap_one l pgdir k n :
  tables kend l pgdir k -> 0 <= n < 2 ^ 20 -> entry k pgdir n <> 0 ->
  runs (unmappages me pgdir (n * 4096) PGSIZE) k (fun r k' => r = 0 /\ exists l', tables kend l' pgdir k' /\ entry k' pgdir n = 0 /\
    forall m, 0 <= m < 2 ^ 20 -> m <> n -> entry k' pgdir m = entry k pgdir m).
Proof.
  intros T Hn He. assert (Hpde : present (pde k pgdir (n / 1024)) = true) by (unfold entry in He; by destruct (present _)).
  assert (Hr : forall x, 0 <= x < 4096 -> PGROUNDDOWN (n * 4096 + x) = n * 4096).
  { intros x Hx. unfold PGROUNDDOWN. rewrite land_page by lia. rewrite Z.add_comm, Z.mod_add, Z.mod_small by lia. lia. }
  unfold unmappages. rewrite (u32_small (n * 4096 + PGSIZE - 1)) by (unfold PGSIZE; lia). pose proof (Hr 0 ltac:(lia)) as H0. rewrite Z.add_0_r in H0. rewrite H0.
  replace (n * 4096 + PGSIZE - 1) with (n * 4096 + 4095) by (unfold PGSIZE; lia). rewrite (Hr 4095) by lia. rewrite Z.sub_diag.
  change (Z.to_nat (u32 0 / PGSIZE)) with 0%nat. cbn [unmappages_loop]. apply runs_bind.
  eapply runs_mono; [apply (walkpgdir_runs kend me Hkend l pgdir (n * 4096) true k T); lia|]. rewrite vpn_mul.
  intros r k1 [(_ & _ & Habs & _)|(-> & Hr0 & Hp1 & _ & l1 & G & _ & E1)]; [congruence|].
  rewrite (proj2 (Z.eqb_neq _ _) Hr0). unfold rd, wr. rsteps.
  assert (Er : k_mem k1 (table k1 pgdir (n / 1024) + 4 * (n mod 1024)) = entry k pgdir n) by (rewrite <- E1 by lia; unfold entry; by rewrite Hp1).
  rewrite Er. replace (negb (ctrue (entry k pgdir n)) || negb (ctrue PTE_P)) with false
    by (unfold ctrue; by rewrite (proj2 (Z.eqb_neq _ _) He)). rsteps.
  split; [done|]. exists l1. destruct (set_entry_grows kend Hkend l1 pgdir k1 n 0 (gr_tables _ _ _ _ _ _ G) Hn Hp1) as [G2 E2].
  split; [apply (gr_tables _ _ _ _ _ _ G2)|]. split; [by rewrite E2, Z.eqb_refl|]. intros m Hm Hmn. rewrite E2, E1 by done.
  by rewrite (proj2 (Z.eqb_neq _ _)).
Qed.

Lemma released_ok i t : shm_ok kend t -> slot i -> live t i -> shm_ok kend (put_ref i (at_slot (sh_ref t) i + -1) t).
Proof.
  intros [O1 O2 O3 O4 O5 O6 O7 O8] Hi Hl. unfold live in *. constructor; cbn [put_ref sh_ref sh_id sh_pa sh_va]; rewrite ?length_insert; try done.
  - intros j Hj. rewrite at_insert by done. pose proof (O6 i Hi). pose proof (O6 j Hj). destruct (j =? i); lia.
  - intros j j' Hj Hj' L L'. cbn in L, L'. unfold live in *. cbn [put_ref sh_ref] in L, L'. rewrite at_insert in L, L' by done.
    apply O7; try done; [destruct (Z.eqb_spec j i) as [->|]|destruct (Z.eqb_spec j' i) as [->|]]; done || lia.
Qed.

(** The caller closes slot [i], which it has open at page [n]. *)
Lemma close_runs l s id i n :
  caller l s -> slot i -> live (ss_tab s) i -> at_slot (sh_id (ss_tab s)) i = id ->
  at_slot (nth (Z.to_nat (cp_pid (ss_proc s))) (sh_va (ss_tab s)) []) i = n * 4096 -> 0 <= n < 2 ^ 20 -> pentry s n <> 0 ->
  4096 <= cp_sz (ss_proc s) < 2 ^ 32 ->
  runs (close_sharedmem me id) s (fun r s' => r = 0 /\ exists l', caller l' s' /\
    ss_tab s' = put_ref i (at_slot (sh_ref (ss_tab s)) i + -1) (ss_tab s) /\ pentry s' n = 0 /\ same_but s s' n /\
    ss_proc s' = mk_curproc (cp_pid (ss_proc s)) (cp_sz (ss_proc s) - 4096) (cp_pgdir (ss_proc s)) (cp_kstack (ss_proc s))).
Proof.
  intros C Hi Hl Hid Hva Hn He Hsz. pose proof C as [O Hk T Hp Hks]. pose proof (tb_dir _ _ _ _ T) as (_ & _ & _ & Hd).
  unfold close_sharedmem. rsteps. change (close_scan _NSHAREDPAGES) with (close_scan 10).
  assert (Ei : close_scan 10 0 id (ss_tab s) = i).
  { destruct (close_scan_spec kend (ss_tab s) id 10 0 O) as [[_ Hno]|(Hs & Hl' & Hid')]; [lia|done|lia|by destruct (Hno i Hi Hl)|].
    apply (so_unique _ _ O); (done || congruence). }
  rewrite Ei. replace (i =? -1) with false by (unfold slot in Hi; lia).
  apply leaves_add_ref; [pose proof (so_count _ _ O i Hi); unfold live in Hl; unfold in_i32, INT_MIN, INT_MAX in *; lia|].
  rsteps. cbn [set_tab ss_proc ss_tab put_ref sh_va]. replace (cp_pid (ss_proc s) <? NPROC_rows) with true by (unfold NPROC_rows; lia). cbn [negb].
  rewrite Hva, u32_small by lia. set (s1 := set_tab _ s). rsteps.
  eapply runs_mono; [exact (runs_in_mem _ s1 _ Hk (unmap_one l _ (ss_mem s) n T Hn He))|].
  intros r s2 [(-> & l2 & T2 & En & Hsame) ->]. change (0 <? 0) with false. cbv iota. rsteps. apply switch_runs; [done|cbn; lia|]. rsteps.
  split; [done|]. exists l2. unfold s1, upd_sz, set_mem, set_tab, PGSIZE. cbn [ss_proc ss_tab ss_mem ss_klk cp_sz cp_pid cp_pgdir cp_kstack].
  rewrite (u32_small (cp_sz (ss_proc s) - 4096)) by lia.
  split; [constructor; try done; by apply released_ok|]. done.
Qed.
(** C32: Called by a process with an id below 64 that has nothing mapped at the end of
    its memory, [open_sharedmem] maps there the page that is
    open under [id] if there is one, so that all processes that open an id see the
    same page, and a page nobody uses otherwise; it counts the caller, extends its
    size by a page and changes no other entry of its page table.  It fails only when
    all ten pages are open under other ids or no page is free for a page table, and
    then changes no entry, no count and no size.  No two open pages ever have the
    same id. *)
Theorem open_sharedmem_maps l s id :
  caller l s -> 0 <= cp_sz (ss_proc s) -> npages (cp_sz (ss_proc s)) < 2 ^ 19 -> pentry s (npages (cp_sz (ss_proc s))) = 0 ->
  (forall i, slot i -> at_slot (sh_ref (ss_tab s)) i + 1 < INT_MAX) ->
  runs (open_sharedmem me id) s (opened id s l).
Proof. apply open_runs. Qed.

Definition open_then_close (id : Z) : M (guarded shm_state) Z :=
  r ← open_sharedmem me id;
  if r =? -1 then mret (-1) else close_sharedmem me id.

(** C33: A process with an id below 64, with nothing mapped at the end of its memory,
    that opens a page and closes it again is back where it was: its size, all entries of its page table and all reference counts are as before. *)
Theorem sharedmem_open_close l s id :
  caller l s -> 0 <= cp_sz (ss_proc s) -> npages (cp_sz (ss_proc s)) < 2 ^ 19 -> pentry s (npages (cp_sz (ss_proc s))) = 0 ->
  (forall i, slot i -> at_slot (sh_ref (ss_tab s)) i + 1 < INT_MAX) ->
  runs (open_then_close id) s (fun r s' => exists l', caller l' s' /\ ss_proc s' = ss_proc s /\
    sh_ref (ss_tab s') = sh_ref (ss_tab s) /\ (forall m, 0 <= m < 2 ^ 20 -> pentry s' m = pentry s m) /\
    (r = 0 \/ (r = -1 /\ (l = [] \/ forall j, slot j -> live (ss_tab s) j /\ at_slot (sh_id (ss_tab s)) j <> id)))).
Proof.
  intros C Hsz Hn He Hcnt. unfold open_then_close. apply runs_bind. eapply runs_mono; [apply (open_runs l s id C Hsz Hn He Hcnt)|].
  pose proof (ca_tab _ _ C) as O. set (n := npages (cp_sz (ss_proc s))) in *. assert (Hn0 : 0 <= n) by (apply Z.div_pos; lia).
  pose proof (npages_spec (cp_sz (ss_proc s)) n) as Hns. fold n in Hns.
  intros r s1 (l1 & C1 & Hsame & [(-> & Ep & En & Er & Hwhy)|(-> & Es & Epid & Epg & Eks & i & Hfor & Et & En)]).
  { change (-1 =? -1) with true. rsteps. exists l1. split_and!; try done; [|by right]. intros m Hm. destruct (Z.eq_dec m n) as [->|]; [done|by apply Hsame]. }
  fold n in Hsame, Et, En |- *. rewrite (proj2 (Z.eqb_neq (n * 4096) (-1))) by lia. pose proof (proj1 Hfor) as Hi. pose proof (ca_pid _ _ C) as Hp.
  destruct O as [O1 O2 O3 O4 O5 O6 O7 O8]. pose proof (O6 i Hi).
  assert (Eref : at_slot (sh_ref (ss_tab s1)) i = at_slot (sh_ref (ss_tab s)) i + 1).
  { rewrite Et. cbn [put_va counted put_ref put_id sh_ref]. rewrite at_insert by done. by rewrite Z.eqb_refl. }
  eapply runs_mono; [apply (close_runs l1 s1 id i n C1 Hi)|].
  - unfold live. lia.
  - rewrite Et. cbn [put_va counted put_ref put_id sh_id]. rewrite at_insert by done. by rewrite Z.eqb_refl.
  - rewrite Et, Epid. cbn [put_va counted put_ref put_id sh_va]. rewrite (nth_lookup (<[_:=_]> _)), list_lookup_insert_eq by lia. cbv [from_option Datatypes.id].
    rewrite at_insert, Z.eqb_refl; try done. apply O5. rewrite nth_lookup.
    destruct (lookup_lt_is_Some_2 (sh_va (ss_tab s)) (Z.to_nat (cp_pid (ss_proc s)))) as [rw Hrw]; [lia|]. rewrite Hrw. by eapply list_elem_of_lookup_2.
  - lia.
  - rewrite En. destruct (page_V2P kend Hkend _ (O8 i Hi)) as (-> & _ & ?). lia.
  - rewrite Es. lia.
  - intros r s2 (-> & l2 & C2 & Et2 & En2 & Hsame2 & Ep2). exists l2. split; [done|]. split_and!.
    + rewrite Ep2, Epid, Es, Epg, Eks, Z.add_simpl_r. by destruct (ss_proc s).
    + rewrite Et2. cbn [put_ref sh_ref]. rewrite Eref, Et. cbn [put_va counted put_ref put_id sh_ref]. rewrite list_insert_insert_eq.
      apply list_insert_id. unfold at_slot. rewrite nth_lookup. destruct (lookup_lt_is_Some_2 (sh_ref (ss_tab s)) (Z.to_nat i)) as [x Hx]; [unfold slot in Hi; lia|].
      rewrite Hx. cbn. f_equal. lia.
    + intros m Hm. destruct (Z.eq_dec m n) as [->|]; [by rewrite En2, He|]. by rewrite Hsame2, Hsame.
    + by left.
Qed.
End Shared.

(** A process of size 0 on a machine with eleven hundred free pages, and ten more
    for the table. *)
Definition demo_tab : shm_table :=
  mk_shm (replicate 10 0) (map (fun i => demo_kend + 4096 * i) (seqZ 1200 10)) (replicate 10 0) (replicate 64 (replicate 10 0)).
Definition demo_shm (pid : Z) : shm_state := mk_ss demo_tab Spinlock.initlock many_vm (mk_curproc pid 0 demo_kend 4096).

Lemma demo_at i : slot i -> at_slot (sh_pa demo_tab) i = demo_kend + 4096 * (1200 + i) /\ at_slot (sh_ref demo_tab) i = 0.
Proof.
  unfold slot. intros Hi. assert (Hc : i = 0 \/ i = 1 \/ i = 2 \/ i = 3 \/ i = 4 \/ i = 5 \/ i = 6 \/ i = 7 \/ i = 8 \/ i = 9) by lia.
  by repeat destruct Hc as [->|Hc]; try subst i.
Qed.
Lemma demo_caller : caller demo_kend many_free (demo_shm 1).
Proof.
  constructor; try done; [|exact (sp_tables _ _ _ _ _ many_space)]. constructor; try done.
  - intros r Hr. cbn [demo_shm demo_tab ss_tab sh_va] in Hr. by apply elem_of_replicate in Hr as [-> _].
  - intros i Hi. cbn [demo_shm ss_tab]. destruct (demo_at i Hi) as [_ ->]. done.
  - intros i j Hi _ Hl. unfold live in Hl. destruct (demo_at i Hi) as [_ E]. cbn [demo_shm ss_tab] in Hl. lia.
  - intros i Hi. cbn [demo_shm ss_tab]. destruct (demo_at i Hi) as [-> _]. unfold slot in Hi.
    unfold page, V2P, PGSIZE, KERNBASE, PHYSTOP, demo_kend. rewrite u32_small by lia. split; [rewrite Z.mul_comm, Z.mod_add by lia; done|lia].
Qed.
Lemma demo_counts i : slot i -> at_slot (sh_ref (ss_tab (demo_shm 1))) i + 1 < INT_MAX.
Proof. intros Hi. cbn [demo_shm ss_tab]. destruct (demo_at i Hi) as [_ ->]. done. Qed.
Lemma demo_no_entry : pentry (demo_shm 1) 0 = 0.
Proof. by vm_compute. Qed.

Lemma open_sharedmem_maps_witness : runs (open_sharedmem 0 7) (demo_shm 1) (opened demo_kend 7 (demo_shm 1) many_free).
Proof.
  apply (open_sharedmem_maps demo_kend 0 ltac:(reflexivity) many_free (demo_shm 1) 7 demo_caller ltac:(discriminate) ltac:(reflexivity)
    demo_no_entry demo_counts).
Defined.

Lemma sharedmem_open_close_witness :
  runs (open_then_close 0 7) (demo_shm 1) (fun r s' => r = 0 /\ ss_proc s' = ss_proc (demo_shm 1)).
Proof.
  eapply runs_mono.
  - apply (sharedmem_open_close demo_kend 0 ltac:(reflexivity) many_free (demo_shm 1) 7 demo_caller ltac:(discriminate) ltac:(reflexivity)
      demo_no_entry demo_counts).
  - intros r s' (l' & _ & Ep & _ & _ & [->|(-> & [Hl|Hall])]).
    + by split.
    + exfalso. discriminate Hl.
    + exfalso. destruct (Hall 0 ltac:(split; [discriminate|reflexivity])) as [Hl _]. discriminate Hl.
Defined.

(** ** What goes wrong *)

Definition demo_run (pid : Z) (m : M (guarded shm_state) Z) : res (guarded shm_state) Z :=
  m (mk_g (mk_cpu 0 false true) Spinlock.initlock (demo_shm pid) []).

(** Closing a page that is not the last one opened lowers the size although the last
    page stays mapped just above it, so that the next [open_sharedmem] panics. *)
Lemma close_out_of_order_panics :
  panic_of (demo_run 1 (open_sharedmem 0 1 ;; open_sharedmem 0 2 ;; close_sharedmem 0 1 ;; open_sharedmem 0 3)) = Some "remap"%string.
Proof. by vm_compute. Qed.

(** The table of addresses has a row for each of the 64 slots of the process table
    but is indexed by process id, which is never reused. *)
Lemma open_by_pid_64_out_of_bounds : fault_of (demo_run 64 (open_sharedmem 0 1)) = Some OutOfBounds.
Proof. by vm_compute. Qed.

(** A process that exits without closing gives the shared page to the allocator,
    though the page is still counted as open. *)
Lemma exit_frees_shared_page :
  let r := demo_run 1 (open_sharedmem 0 1 ;; in_mem (deallocuvm demo_kend 0 demo_kend 4096 0)) in
  value_of r = Some 0 /\ k_freelist (ss_mem (g_val (result_state r))) = at_slot (sh_pa demo_tab) 9 /\
  at_slot (sh_ref (ss_tab (g_val (result_state r)))) 9 = 1.
Proof. by vm_compute. Qed.
