(* ===== verification/Fs.v ===== *)
(** The file system ([fs.c]): block allocator, inodes, file contents, directories
    and path names.

    Blocks are those of the running transaction: [f_view b] is what [bread] of block
    [b] finds, and changing a buffer and calling [log_write] changes it ([Bio] and
    [Log] are where reads and writes are shown to behave so).  [f_logged] are the
    blocks in the log's header, for [log_write]'s test.  The inode table is
    [icache.inode]; an inode pointer is an index into it, [None] the null pointer.
    The [guarded] lock is [icache.lock]. *)

From S2P Require Import Prelude CString Locks Guarded Bytes.

Definition ROOTINO : Z := 1.
Definition ROOTDEV : Z := 1.
Definition BSIZE : Z := 512.
Definition NDIRECT : Z := 12.
Definition NINDIRECT : Z := 128.            (* BSIZE / sizeof(uint) *)
Definition MAXFILE : Z := NDIRECT + NINDIRECT.
Definition IPB : Z := 8.                    (* BSIZE / sizeof(struct dinode) *)
Definition BPB : Z := BSIZE * 8.
Definition DIRSIZ : nat := 14.
Definition NINODE : nat := 50.
Definition NDEV : Z := 10.
Definition FS_LOGSIZE : Z := 30.
Definition T_DIR : Z := 1.
Definition T_FILE : Z := 2.
Definition T_DEV : Z := 3.

Record superblock := mk_sb {
  sb_size : Z;
  sb_nblocks : Z;
  sb_ninodes : Z;
  sb_nlog : Z;
  sb_logstart : Z;
  sb_inodestart : Z;
  sb_bmapstart : Z }.

Definition IBLOCK (i : Z) (sb : superblock) : Z := i / IPB + sb_inodestart sb.
Definition BBLOCK (b : Z) (sb : superblock) : Z := b / BPB + sb_bmapstart sb.

Record inode := mk_inode {
  i_dev : Z;
  i_inum : Z;
  i_ref : Z;
  i_lock : sleeplock;
  i_valid : bool;
  i_type : Z;
  i_major : Z;
  i_minor : Z;
  i_nlink : Z;
  i_size : Z;
  i_addrs : list Z }.

Definition set_ref (v : Z) (p : inode) : inode :=
  mk_inode (i_dev p) (i_inum p) v (i_lock p) (i_valid p) (i_type p) (i_major p) (i_minor p) (i_nlink p) (i_size p) (i_addrs p).
Definition set_ilock (v : sleeplock) (p : inode) : inode :=
  mk_inode (i_dev p) (i_inum p) (i_ref p) v (i_valid p) (i_type p) (i_major p) (i_minor p) (i_nlink p) (i_size p) (i_addrs p).
Definition set_valid (v : bool) (p : inode) : inode :=
  mk_inode (i_dev p) (i_inum p) (i_ref p) (i_lock p) v (i_type p) (i_major p) (i_minor p) (i_nlink p) (i_size p) (i_addrs p).
Definition set_type (v : Z) (p : inode) : inode :=
  mk_inode (i_dev p) (i_inum p) (i_ref p) (i_lock p) (i_valid p) v (i_major p) (i_minor p) (i_nlink p) (i_size p) (i_addrs p).
Definition set_size (v : Z) (p : inode) : inode :=
  mk_inode (i_dev p) (i_inum p) (i_ref p) (i_lock p) (i_valid p) (i_type p) (i_major p) (i_minor p) (i_nlink p) v (i_addrs p).
Definition set_addrs (v : list Z) (p : inode) : inode :=
  mk_inode (i_dev p) (i_inum p) (i_ref p) (i_lock p) (i_valid p) (i_type p) (i_major p) (i_minor p) (i_nlink p) (i_size p) v.
(** [iget] recycles a slot: what the inode's lock protects is kept. *)
Definition reuse (dev inum : Z) (p : inode) : inode :=
  mk_inode dev inum 1 (i_lock p) false (i_type p) (i_major p) (i_minor p) (i_nlink p) (i_size p) (i_addrs p).

Record fs := mk_fs {
  f_sb : superblock;
  f_disksize : Z;
  f_view : Z -> block;
  f_logged : list Z;
  f_outstanding : Z;
  f_icache : list inode }.

Definition fupd (b : Z) (d : block) (v : Z -> block) : Z -> block := fun x => if x =? b then d else v x.
Definition set_view (v : Z -> block) (s : fs) : fs :=
  mk_fs (f_sb s) (f_disksize s) v (f_logged s) (f_outstanding s) (f_icache s).
Definition set_icache (c : list inode) (s : fs) : fs :=
  mk_fs (f_sb s) (f_disksize s) (f_view s) (f_logged s) (f_outstanding s) c.
Definition inode_zero : inode := mk_inode 0 0 0 Sleeplock.initsleeplock false 0 0 0 0 0 (replicate 13 0).
Definition ino (s : fs) (i : nat) : inode := nth i (f_icache s) inode_zero.
Definition upd_ino (i : nat) (f : inode -> inode) (s : fs) : fs := set_icache (alter f i (f_icache s)) s.

(** The fields of the [k]th [struct dinode] of a block, at their offsets. *)
Definition di_off (inum : Z) : nat := Z.to_nat (inum mod IPB * 64).
Definition get_dinode (b : block) (o : nat) (p : inode) : inode :=
  mk_inode (i_dev p) (i_inum p) (i_ref p) (i_lock p) true
    (i16 (get16 b o)) (i16 (get16 b (o + 2))) (i16 (get16 b (o + 4))) (i16 (get16 b (o + 6))) (get32 b (o + 8))
    (map (fun k => get32 b (o + 12 + 4 * k)) (seq 0 13)).
Fixpoint put_words (b : block) (o : nat) (ws : list Z) : block :=
  match ws with
  | [] => b
  | w :: ws' => put_words (put32 b o w) (o + 4) ws'
  end.
Definition put_dinode (b : block) (o : nat) (p : inode) : block :=
  let b := put16 b o (u16 (i_type p)) in
  let b := put16 b (o + 2) (u16 (i_major p)) in
  let b := put16 b (o + 4) (u16 (i_minor p)) in
  let b := put16 b (o + 6) (u16 (i_nlink p)) in
  let b := put32 b (o + 8) (i_size p) in
  put_words b (o + 12) (take 13 (i_addrs p)).
(** [memmove] of [src] to [dst + o] of a block. *)
Fixpoint splice (b : block) (o : nat) (src : list Z) : block :=
  match src with
  | [] => b
  | x :: src' => splice (<[o := x]> b) (S o) src'
  end.

(** The entries of the device table; [None] is a null pointer. *)
Record dev_ops := mk_dev {
  d_read : option (nat -> Z -> M (guarded fs) (Z * list Z));
  d_write : option (nat -> list Z -> M (guarded fs) Z) }.

Section Fs.
(** [me] is the CPU and [mypid] the process; [devsw] the device table. *)
Context (me : nat) (mypid : Z) (devsw : Z -> dev_ops).
Notation F := (M (guarded fs)).

(** [bread]; the disk driver panics on a block the disk does not have. *)
Definition bread (b : Z) : F block :=
  s ← g_get;
  if b >=? f_disksize s then panic "iderw: block out of range" else mret (f_view s b).
(** A buffer changed to [d], then [log_write] and [brelse]. *)
Definition log_write (b : Z) (d : block) : F unit :=
  s ← g_get;
  let n := Z.of_nat (length (f_logged s)) in
  if (n >=? FS_LOGSIZE) || (n >=? sb_nlog (f_sb s) - 1) then panic "too big a transaction"
  else if f_outstanding s <? 1 then panic "log_write outside of trans"
  else g_mod (fun s => mk_fs (f_sb s) (f_disksize s) (fupd b d (f_view s))
                (if bool_decide (b ∈ f_logged s) then f_logged s else f_logged s ++ [b]) (f_outstanding s) (f_icache s)).

(** The seven words of block 1. *)
Definition read_sb (b : block) : superblock :=
  mk_sb (get32 b 0) (get32 b 4) (get32 b 8) (get32 b 12) (get32 b 16) (get32 b 20) (get32 b 24).
Definition readsb : F superblock := b ← bread 1; mret (read_sb b).

Definition bzero (bno : Z) : F unit := bread bno ;; log_write bno (replicate 512 0).

(** *** Blocks *)

Definition bit_mask (bi : Z) : Z := Z.shiftl 1 (bi mod 8).
Definition bit_at (data : block) (bi : Z) : Z := Z.land (byte_at data (Z.to_nat (bi / 8))) (bit_mask bi).
(** The inner loop of [balloc]: the first clear bit from [bi] on. *)
Fixpoint scan_bits (n : nat) (bi b size : Z) (data : block) : option Z :=
  match n with
  | O => None
  | S n' =>
      if negb (b + bi <? size) then None
      else if bit_at data bi =? 0 then Some bi
      else scan_bits n' (bi + 1) b size data
  end.
Definition set_bit (data : block) (bi : Z) : block :=
  let k := Z.to_nat (bi / 8) in <[k := Z.lor (byte_at data k) (bit_mask bi)]> data.
Definition clear_bit (data : block) (bi : Z) : block :=
  let k := Z.to_nat (bi / 8) in <[k := u8 (Z.land (byte_at data k) (Z.lnot (bit_mask bi)))]> data.

Fixpoint balloc_loop (fuel : nat) (b : Z) : F Z :=
  match fuel with
  | O => faults OutOfFuel
  | S f =>
      s ← g_get;
      if negb (b <? sb_size (f_sb s)) then panic "balloc: out of blocks"
      else
        data ← bread (BBLOCK b (f_sb s));
        match scan_bits (Z.to_nat BPB) 0 b (sb_size (f_sb s)) data with
        | Some bi =>
            log_write (BBLOCK b (f_sb s)) (set_bit data bi) ;;
            bzero (b + bi) ;;
            mret (b + bi)
        | None => balloc_loop f (b + BPB)
        end
  end.
(** One turn for each block of the bitmap. *)
Definition balloc : F Z :=
  s ← g_get; balloc_loop (Z.to_nat (sb_size (f_sb s) / BPB + 2)) 0.

Definition bfree (b : Z) : F unit :=
  s ← g_get;
  data ← bread (BBLOCK b (f_sb s));
  let bi := b mod BPB in
  if bit_at data bi =? 0 then panic "freeing free block"
  else log_write (BBLOCK b (f_sb s)) (clear_bit data bi).

(** *** Inodes *)

(** The line [iinit] prints is left out. *)
Definition iinit : F unit :=
  modify (fun g => mk_g (g_cpu g) Spinlock.initlock (g_val g) (g_wakes g)) ;;
  g_mod (fun s => set_icache (map (set_ilock Sleeplock.initsleeplock) (f_icache s)) s) ;;
  sb ← readsb;
  g_mod (fun s => mk_fs sb (f_disksize s) (f_view s) (f_logged s) (f_outstanding s) (f_icache s)).

(** The scan of [iget]: the slot of a cached inode, or else the first empty one. *)
Fixpoint iget_scan (l : list inode) (k : nat) (empty : option nat) (dev inum : Z) : nat + option nat :=
  match l with
  | [] => inr empty
  | p :: l' =>
      if (i_ref p >? 0) && (i_dev p =? dev) && (i_inum p =? inum) then inl k
      else iget_scan l' (S k) (if bool_decide (empty = None) && (i_ref p =? 0) then Some k else empty) dev inum
  end.
Definition iget (dev inum : Z) : F nat :=
  g_acquire me ;;
  s ← g_get;
  match iget_scan (f_icache s) 0 None dev inum with
  | inl i =>
      g_mod (upd_ino i (fun p => set_ref (i32 (i_ref p + 1)) p)) ;;
      g_release me ;;
      mret i
  | inr (Some i) =>
      g_mod (upd_ino i (reuse dev inum)) ;;
      g_release me ;;
      mret i
  | inr None => panic "iget: no inodes"
  end.

Definition idup (i : nat) : F nat :=
  g_acquire me ;;
  g_mod (upd_ino i (fun p => set_ref (i32 (i_ref p + 1)) p)) ;;
  g_release me ;;
  mret i.

(** [memset(dip, 0, sizeof *dip); dip->type = type]. *)
Definition fresh_dinode (data : block) (inum type : Z) : block :=
  put16 (splice data (di_off inum) (replicate 64 0)) (di_off inum) (u16 type).
Fixpoint ialloc_loop (n : nat) (inum dev type : Z) : F nat :=
  match n with
  | O => panic "ialloc: no inodes"
  | S n' =>
      s ← g_get;
      data ← bread (IBLOCK inum (f_sb s));
      if i16 (get16 data (di_off inum)) =? 0 then
        log_write (IBLOCK inum (f_sb s)) (fresh_dinode data inum type) ;;
        iget dev inum
      else ialloc_loop n' (inum + 1) dev type
  end.
Definition ialloc (dev type : Z) : F nat :=
  s ← g_get; ialloc_loop (Z.to_nat (sb_ninodes (f_sb s) - 1)) 1 dev type.

Definition iupdate (i : nat) : F unit :=
  s ← g_get;
  let b := IBLOCK (i_inum (ino s i)) (f_sb s) in
  data ← bread b;
  log_write b (put_dinode data (di_off (i_inum (ino s i))) (ino s i)).

(** Runs a sleep-lock routine on the lock of inode [i]. *)
Definition on_ilock {A} (i : nat) (f : M slctx A) : F A :=
  zoom (fun g => mk_slctx (g_cpu g) (i_lock (ino (g_val g) i)) (g_wakes g))
    (fun x g => mk_g (sl_cpu x) (g_lk g) (upd_ino i (set_ilock (sl x)) (g_val g)) (sl_wakeups x)) f.
(** The channel of an inode's lock. *)
Definition ichan (i : nat) : nat := (1000 + i)%nat.

Definition ilock (o : option nat) : F unit :=
  match o with
  | None => panic "ilock"
  | Some i =>
      s ← g_get;
      if i_ref (ino s i) <? 1 then panic "ilock"
      else
        on_ilock i (Sleeplock.acquiresleep me (ichan i) mypid) ;;
        s ← g_get;
        when (negb (i_valid (ino s i)))
          (data ← bread (IBLOCK (i_inum (ino s i)) (f_sb s));
           g_mod (upd_ino i (get_dinode data (di_off (i_inum (ino s i))))) ;;
           s ← g_get;
           if i_type (ino s i) =? 0 then panic "ilock: no type" else mret tt)
  end.

Definition iunlock (o : option nat) : F unit :=
  match o with
  | None => panic "iunlock"
  | Some i =>
      h ← on_ilock i (Sleeplock.holdingsleep me mypid);
      s ← g_get;
      if negb h || (i_ref (ino s i) <? 1) then panic "iunlock"
      else on_ilock i (Sleeplock.releasesleep me (ichan i))
  end.

(** The two loops of [itrunc]. *)
Fixpoint free_direct (n : nat) (k : nat) (i : nat) : F unit :=
  match n with
  | O => mret tt
  | S n' =>
      s ← g_get;
      let a := nth k (i_addrs (ino s i)) 0 in
      when (ctrue a) (bfree a ;; g_mod (upd_ino i (fun p => set_addrs (<[k := 0]> (i_addrs p)) p))) ;;
      free_direct n' (S k) i
  end.
Fixpoint free_indirect (n : nat) (j : nat) (data : block) : F unit :=
  match n with
  | O => mret tt
  | S n' =>
      let a := get32 data (4 * j) in
      when (ctrue a) (bfree a) ;;
      free_indirect n' (S j) data
  end.
Definition itrunc (i : nat) : F unit :=
  free_direct 12 0 i ;;
  s ← g_get;
  let a := nth 12 (i_addrs (ino s i)) 0 in
  when (ctrue a)
    (data ← bread a;
     free_indirect 128 0 data ;;
     bfree a ;;
     g_mod (upd_ino i (fun p => set_addrs (<[12%nat := 0]> (i_addrs p)) p))) ;;
  g_mod (upd_ino i (set_size 0)) ;;
  iupdate i.

Definition iput (i : nat) : F unit :=
  on_ilock i (Sleeplock.acquiresleep me (ichan i) mypid) ;;
  s ← g_get;
  when (i_valid (ino s i) && (i_nlink (ino s i) =? 0))
    (g_acquire me ;;
     s ← g_get;
     let r := i_ref (ino s i) in
     g_release me ;;
     when (r =? 1)
       (itrunc i ;;
        g_mod (upd_ino i (set_type 0)) ;;
        iupdate i ;;
        g_mod (upd_ino i (set_valid false)))) ;;
  on_ilock i (Sleeplock.releasesleep me (ichan i)) ;;
  g_acquire me ;;
  g_mod (upd_ino i (fun p => set_ref (i32 (i_ref p - 1)) p)) ;;
  g_release me.

Definition iunlockput (i : nat) : F unit := iunlock (Some i) ;; iput i.

(** *** Contents *)

Definition bmap (i : nat) (bn : Z) : F Z :=
  s ← g_get;
  if bn <? NDIRECT then
    let k := Z.to_nat bn in
    let addr := nth k (i_addrs (ino s i)) 0 in
    if addr =? 0 then
      addr ← balloc;
      g_mod (upd_ino i (fun p => set_addrs (<[k := addr]> (i_addrs p)) p)) ;;
      mret addr
    else mret addr
  else
    let bn := bn - NDIRECT in
    if bn <? NINDIRECT then
      let addr := nth 12 (i_addrs (ino s i)) 0 in
      addr ← (if addr =? 0 then
                addr ← balloc;
                g_mod (upd_ino i (fun p => set_addrs (<[12%nat := addr]> (i_addrs p)) p)) ;;
                mret addr
              else mret addr);
      data ← bread addr;
      let k := (4 * Z.to_nat bn)%nat in
      if get32 data k =? 0 then
        a ← balloc;
        log_write addr (put32 data k a) ;;
        mret a
      else mret (get32 data k)
    else panic "bmap: out of range".

(** [struct stat]. *)
Record stat := mk_stat { st_type : Z; st_dev : Z; st_ino : Z; st_nlink : Z; st_size : Z }.
Definition stati (i : nat) : F stat :=
  s ← g_get; let p := ino s i in
  mret (mk_stat (i_type p) (i32 (i_dev p)) (i_inum p) (i_nlink p) (i_size p)).

Definition min (a b : Z) : Z := if a <? b then a else b.

(** [n] bytes from [off] on, [acc] being what has been copied to [dst] so far. *)
Fixpoint readi_loop (fuel : nat) (i : nat) (off n : Z) (acc : list Z) : F (list Z) :=
  match fuel with
  | O => faults OutOfFuel
  | S f =>
      if negb (0 <? n) then mret acc
      else
        addr ← bmap i (off / BSIZE);
        data ← bread addr;
        let m := min n (BSIZE - off mod BSIZE) in
        readi_loop f i (off + m) (n - m) (acc ++ take (Z.to_nat m) (drop (Z.to_nat (off mod BSIZE)) data))
  end.
(** The result and the bytes copied.  A turn copies up to the end of a block. *)
Definition readi (i : nat) (off n : Z) : F (Z * list Z) :=
  s ← g_get;
  let p := ino s i in
  if i_type p =? T_DEV then
    if (i_major p <? 0) || (i_major p >=? NDEV) then mret (-1, [])
    else match d_read (devsw (i_major p)) with None => mret (-1, []) | Some f => f i n end
  else if (off >? i_size p) || (u32 (off + n) <? off) then mret (-1, [])
  else
    let n := if u32 (off + n) >? i_size p then i_size p - off else n in
    bs ← readi_loop (Z.to_nat (n / BSIZE + 3)) i off n [];
    mret (n, bs).

Fixpoint writei_loop (fuel : nat) (i : nat) (off : Z) (src : list Z) : F Z :=
  match fuel with
  | O => faults OutOfFuel
  | S f =>
      match src with
      | [] => mret off
      | _ =>
          addr ← bmap i (off / BSIZE);
          data ← bread addr;
          let m := min (Z.of_nat (length src)) (BSIZE - off mod BSIZE) in
          log_write addr (splice data (Z.to_nat (off mod BSIZE)) (take (Z.to_nat m) src)) ;;
          writei_loop f i (off + m) (drop (Z.to_nat m) src)
      end
  end.
(** [src] is the [n] bytes to be written. *)
Definition writei (i : nat) (src : list Z) (off : Z) : F Z :=
  let n := Z.of_nat (length src) in
  s ← g_get;
  let p := ino s i in
  if i_type p =? T_DEV then
    if (i_major p <? 0) || (i_major p >=? NDEV) then mret (-1)
    else match d_write (devsw (i_major p)) with None => mret (-1) | Some f => f i src end
  else if (off >? i_size p) || (u32 (off + n) <? off) then mret (-1)
  else if u32 (off + n) >? MAXFILE * BSIZE then mret (-1)
  else
    off' ← writei_loop (Z.to_nat (n / BSIZE + 3)) i off src;
    s ← g_get;
    when ((n >? 0) && (off' >? i_size (ino s i)))
      (g_mod (upd_ino i (set_size off')) ;; iupdate i) ;;
    mret n.

(** *** Directories *)

(** [strncmp(s, t, DIRSIZ)]: up to a difference, a NUL or the fourteenth byte. *)
Fixpoint strncmp_list (n : nat) (p q : list Z) : Z :=
  match n with
  | O => 0
  | S n' =>
      let a := hd 0 p in let b := hd 0 q in
      if ctrue a && (a =? b) then strncmp_list n' (tl p) (tl q) else a - b
  end.
Definition namecmp (s t : list Z) : Z := strncmp_list DIRSIZ s t.
(** [strncpy(t, s, DIRSIZ)] of a string: its bytes, padded with NULs. *)
Definition name_field (s : list Z) : list Z := take DIRSIZ (s ++ replicate DIRSIZ 0).

(** [struct dirent]: a 16-bit inode number and a name. *)
Definition de_inum (de : list Z) : Z := get16 de 0.
Definition de_name (de : list Z) : list Z := drop 2 de.
Definition dirent (inum : Z) (name : list Z) : list Z := put16 (replicate 2 0) 0 (u16 inum) ++ name_field name.

Fixpoint dirlookup_loop (fuel : nat) (dp : nat) (name : list Z) (off : Z) : F (option (nat * Z)) :=
  match fuel with
  | O => faults OutOfFuel
  | S f =>
      s ← g_get;
      if negb (off <? i_size (ino s dp)) then mret None
      else
        r ← readi dp off 16;
        if negb (fst r =? 16) then panic "dirlookup read"
        else if de_inum (snd r) =? 0 then dirlookup_loop f dp name (off + 16)
        else if namecmp name (de_name (snd r)) =? 0 then
          s ← g_get;
          i ← iget (i_dev (ino s dp)) (de_inum (snd r));
          mret (Some (i, off))
        else dirlookup_loop f dp name (off + 16)
  end.
(** The inode found and the offset of its entry. *)
Definition dirlookup (dp : nat) (name : list Z) : F (option (nat * Z)) :=
  s ← g_get;
  if negb (i_type (ino s dp) =? T_DIR) then panic "dirlookup not DIR"
  else dirlookup_loop (Z.to_nat (i_size (ino s dp) / 16 + 2)) dp name 0.

Fixpoint empty_slot (fuel : nat) (dp : nat) (off : Z) : F Z :=
  match fuel with
  | O => faults OutOfFuel
  | S f =>
      s ← g_get;
      if negb (off <? i_size (ino s dp)) then mret off
      else
        r ← readi dp off 16;
        if negb (fst r =? 16) then panic "dirlink read"
        else if de_inum (snd r) =? 0 then mret off
        else empty_slot f dp (off + 16)
  end.
Definition dirlink (dp : nat) (name : list Z) (inum : Z) : F Z :=
  r ← dirlookup dp name;
  match r with
  | Some (ip, _) => iput ip ;; mret (-1)
  | None =>
      s ← g_get;
      off ← empty_slot (Z.to_nat (i_size (ino s dp) / 16 + 2)) dp 0;
      r ← writei dp (dirent inum name) off;
      if negb (r =? 16) then panic "dirlink" else mret 0
  end.

(** *** Paths *)

Fixpoint skip_slashes (p : list Z) : list Z :=
  match p with
  | c :: p' => if c =? 47 then skip_slashes p' else p
  | [] => []
  end.
(** The bytes before the next slash or the end, and the rest. *)
Fixpoint element (p : list Z) : list Z * list Z :=
  match p with
  | [] => ([], [])
  | c :: p' => if c =? 47 then ([], p) else let '(e, r) := element p' in (c :: e, r)
  end.
(** A path is the bytes before its NUL.  The name, and what is left of the path. *)
Definition skipelem (path : list Z) : option (list Z * list Z) :=
  let path := skip_slashes path in
  match path with
  | [] => None
  | _ => let '(e, rest) := element path in Some (take DIRSIZ e, skip_slashes rest)
  end.

Fixpoint namex_loop (fuel : nat) (ip : nat) (path : list Z) (nameiparent : bool) (name : list Z)
    : F (option (nat * list Z)) :=
  match fuel with
  | O => faults OutOfFuel
  | S f =>
      match skipelem path with
      | None =>
          if nameiparent then iput ip ;; mret None else mret (Some (ip, name))
      | Some (name, path) =>
          ilock (Some ip) ;;
          s ← g_get;
          if negb (i_type (ino s ip) =? T_DIR) then iunlockput ip ;; mret None
          else if nameiparent && bool_decide (path = []) then iunlock (Some ip) ;; mret (Some (ip, name))
          else
            r ← dirlookup ip name;
            match r with
            | None => iunlockput ip ;; mret None
            | Some (next, _) => iunlockput ip ;; namex_loop f next path nameiparent name
            end
      end
  end.
(** [cwd] is [myproc()->cwd]; [name0] what the caller's buffer holds. *)
Definition namex (cwd : nat) (path : list Z) (nameiparent : bool) (name0 : list Z) : F (option (nat * list Z)) :=
  ip ← (if bool_decide (head path = Some 47) then iget ROOTDEV ROOTINO else idup cwd);
  namex_loop (S (length path)) ip path nameiparent name0.

Definition namei (cwd : nat) (path : list Z) : F (option nat) :=
  r ← namex cwd path false []; mret (fst <$> r).
Definition nameiparent (cwd : nat) (path : list Z) : F (option (nat * list Z)) := namex cwd path true [].
End Fs.
