(* ===== verification/FsBlocks.v ===== *)
(** The block allocator of [fs.c]: the bitmap, [balloc] and [bfree].

    [usedb s b] is block [b]'s bit.  [fs_ok] is what a file system in the middle of a
    transaction satisfies: the layout of the superblock, blocks of 512 bytes, and
    the blocks that hold metadata marked as in use. *)

From S2P Require Import Prelude CString Locks Guarded Bytes Fs.

Definition bitb (data : block) (bi : Z) : bool := Z.testbit (byte_at data (Z.to_nat (bi / 8))) (bi mod 8).

Lemma bit_at_bitb data bi : (bit_at data bi =? 0) = negb (bitb data bi).
Proof.
  unfold bit_at, bitb, bit_mask. set (x := byte_at _ _). set (k := bi mod 8).
  assert (Hk : 0 <= k) by (apply Z.mod_pos_bound; lia). rewrite Z.shiftl_1_l.
  destruct (Z.testbit x k) eqn:E; cbn [negb].
  - apply Z.eqb_neq. intros H. assert (Ht : Z.testbit (Z.land x (2 ^ k)) k = true) by (rewrite Z.land_spec, E, Z.pow2_bits_true; done).
    by rewrite H, Z.bits_0 in Ht.
  - apply Z.eqb_eq, Z.bits_inj'. intros j Hj. rewrite Z.land_spec, Z.bits_0. destruct (Z.eq_dec j k) as [->|]; [by rewrite E|].
    rewrite (Z.pow2_bits_false k j) by lia. apply andb_false_r.
Qed.

Lemma bit_slot bi : 0 <= bi < BPB -> (Z.to_nat (bi / 8) < 512)%nat.
Proof.
  unfold BPB, BSIZE. intros H. assert (bi / 8 < 512) by (apply Z.div_lt_upper_bound; lia). pose proof (Z.div_pos bi 8). lia.
Qed.
Lemma bit_slot_eq bi bj : 0 <= bi < BPB -> 0 <= bj < BPB -> (Z.to_nat (bj / 8) = Z.to_nat (bi / 8) <-> bj / 8 = bi / 8).
Proof. intros Hi Hj. pose proof (Z.div_pos bi 8). pose proof (Z.div_pos bj 8). lia. Qed.

Lemma bitb_insert data bi bj x :
  length data = 512%nat -> 0 <= bi < BPB -> 0 <= bj < BPB ->
  bitb (<[Z.to_nat (bi / 8) := x]> data) bj = if bj / 8 =? bi / 8 then Z.testbit x (bj mod 8) else bitb data bj.
Proof.
  intros Hl Hi Hj. unfold bitb, byte_at. pose proof (bit_slot bi Hi). rewrite !nth_lookup. destruct (Z.eqb_spec (bj / 8) (bi / 8)) as [E|E].
  - rewrite E, list_lookup_insert_eq by lia. done.
  - rewrite list_lookup_insert_ne; [done|]. intros H'. apply E. apply (bit_slot_eq bi bj Hi Hj). lia.
Qed.
Lemma same_bit bi bj : 0 <= bi -> 0 <= bj -> bj / 8 = bi / 8 -> (bj mod 8 = bi mod 8 <-> bj = bi).
Proof. intros. pose proof (Z.div_mod bi 8). pose proof (Z.div_mod bj 8). lia. Qed.

Lemma bitb_set data bi bj :
  length data = 512%nat -> 0 <= bi < BPB -> 0 <= bj < BPB -> bitb (set_bit data bi) bj = (bj =? bi) || bitb data bj.
Proof.
  intros Hl Hi Hj. unfold set_bit. rewrite bitb_insert by done. unfold bit_mask. rewrite Z.shiftl_1_l, Z.lor_spec.
  pose proof (Z.mod_pos_bound bi 8 ltac:(lia)). pose proof (Z.mod_pos_bound bj 8 ltac:(lia)).
  destruct (Z.eqb_spec (bj / 8) (bi / 8)) as [E|E].
  - rewrite Z.pow2_bits_eqb by lia. unfold bitb. rewrite E. rewrite orb_comm. f_equal.
    pose proof (same_bit bi bj ltac:(lia) ltac:(lia) E). lia.
  - destruct (Z.eqb_spec bj bi) as [->|]; [done|]. done.
Qed.
Lemma bitb_clear data bi bj :
  length data = 512%nat -> 0 <= bi < BPB -> 0 <= bj < BPB -> bitb (clear_bit data bi) bj = negb (bj =? bi) && bitb data bj.
Proof.
  intros Hl Hi Hj. unfold clear_bit. rewrite bitb_insert by done. unfold bit_mask, u8. rewrite Z.shiftl_1_l.
  pose proof (Z.mod_pos_bound bi 8 ltac:(lia)). pose proof (Z.mod_pos_bound bj 8 ltac:(lia)).
  destruct (Z.eqb_spec (bj / 8) (bi / 8)) as [E|E].
  - rewrite Z.mod_pow2_bits_low by lia. rewrite Z.land_spec, Z.lnot_spec, Z.pow2_bits_eqb by lia. unfold bitb. rewrite E, andb_comm. f_equal. f_equal.
    pose proof (same_bit bi bj ltac:(lia) ltac:(lia) E). lia.
  - destruct (Z.eqb_spec bj bi) as [->|]; [done|]. done.
Qed.

(** The inner loop of [balloc]. *)
Lemma scan_bits_spec n bi b size data :
  match scan_bits n bi b size data with
  | Some r => bi <= r < bi + Z.of_nat n /\ b + r < size /\ bitb data r = false
  | None => forall r, bi <= r < bi + Z.of_nat n -> b + r < size -> bitb data r = true
  end.
Proof.
  revert bi; induction n as [|n IH]; intros bi; cbn [scan_bits]; [lia|].
  destruct (Z.ltb_spec (b + bi) size); cbn [negb]; [|intros r Hr; lia]. rewrite bit_at_bitb.
  destruct (bitb data bi) eqn:E; cbn [negb]; [|split_and!; (done || lia)]. specialize (IH (bi + 1)).
  destruct (scan_bits n (bi + 1) b size data) as [r|].
  - destruct IH as (? & ? & ?). split_and!; (done || lia).
  - intros r Hr Hs. destruct (Z.eq_dec r bi) as [->|]; [done|]. apply IH; lia.
Qed.

(** ** A file system in a transaction *)

Definition usedb (s : fs) (b : Z) : bool := bitb (f_view s (BBLOCK b (f_sb s))) (b mod BPB).
(** The first block after the metadata. *)
Definition data_start (s : fs) : Z := sb_bmapstart (f_sb s) + sb_size (f_sb s) / BPB + 1.
Definition byte_ok (x : Z) : Prop := 0 <= x < 256.
Definition block_ok (d : block) : Prop := length d = 512%nat /\ Forall byte_ok d.

Record fs_ok (s : fs) : Prop := mk_fs_ok {
  fo_size : 0 < sb_size (f_sb s) <= f_disksize s;
  fo_width : sb_size (f_sb s) < 2 ^ 31;
  fo_inodes : 0 <= sb_inodestart (f_sb s) /\ 0 <= sb_ninodes (f_sb s) /\
    sb_inodestart (f_sb s) + sb_ninodes (f_sb s) / IPB + 1 <= sb_bmapstart (f_sb s);
  fo_data : data_start s <= sb_size (f_sb s);
  fo_block : forall b, 0 <= b < f_disksize s -> block_ok (f_view s b);
  fo_meta : forall b, 0 <= b < data_start s -> usedb s b = true;
  fo_tx : 1 <= f_outstanding s }.

(** Blocks that hold file data, or could. *)
Definition data_block (s : fs) (b : Z) : Prop := data_start s <= b < sb_size (f_sb s).

Lemma bblock_range s b : fs_ok s -> 0 <= b < sb_size (f_sb s) -> 0 <= BBLOCK b (f_sb s) < data_start s.
Proof.
  intros O Hb. pose proof (fo_inodes _ O) as (H1 & H2 & H3). unfold BBLOCK, data_start, BPB, BSIZE, IPB in *.
  pose proof (Z.div_pos b (512 * 8) ltac:(lia) ltac:(lia)). pose proof (Z.div_pos (sb_ninodes (f_sb s)) 8 ltac:(lia) ltac:(lia)).
  assert (b / (512 * 8) <= sb_size (f_sb s) / (512 * 8)) by (apply Z.div_le_mono; lia). lia.
Qed.
Lemma data_not_bitmap s b b' : fs_ok s -> data_block s b -> 0 <= b' < sb_size (f_sb s) -> BBLOCK b' (f_sb s) <> b.
Proof. intros O [Hb _] Hb'. pose proof (bblock_range s b' O Hb'). lia. Qed.
Lemma mod_BPB b : 0 <= b mod BPB < BPB.
Proof. apply Z.mod_pos_bound. unfold BPB, BSIZE. lia. Qed.
Lemma same_bblock s b b' : BBLOCK b (f_sb s) = BBLOCK b' (f_sb s) -> b mod BPB = b' mod BPB -> b = b'.
Proof.
  unfold BBLOCK. intros H1 H2. pose proof (Z.div_mod b BPB ltac:(unfold BPB, BSIZE; lia)).
  pose proof (Z.div_mod b' BPB ltac:(unfold BPB, BSIZE; lia)). assert (b / BPB = b' / BPB) by lia. congruence.
Qed.

(** The state after [log_write]. *)
Definition logged (b : Z) (d : block) (s : fs) : fs :=
  mk_fs (f_sb s) (f_disksize s) (fupd b d (f_view s))
    (if bool_decide (b ∈ f_logged s) then f_logged s else f_logged s ++ [b]) (f_outstanding s) (f_icache s).
Definition too_big (msg : string) : Prop := msg = "too big a transaction"%string.
Definition no_space (msg : string) : Prop := msg = "balloc: out of blocks"%string \/ too_big msg.

Lemma bread_tries E s b (Q : block -> fs -> Prop) : b < f_disksize s -> Q (f_view s b) s -> tries E (bread b) s Q.
Proof. intros Hb HQ. unfold bread. tsteps. replace (b >=? f_disksize s) with false by lia. by tsteps. Qed.
Lemma log_write_tries (E : string -> Prop) s b d (Q : unit -> fs -> Prop) :
  fs_ok s -> (forall msg, too_big msg -> E msg) -> Q tt (logged b d s) -> tries E (log_write b d) s Q.
Proof.
  intros O HE HQ. unfold log_write. tsteps. destruct (_ || _); [by apply tries_panic, HE|].
  pose proof (fo_tx _ O). replace (f_outstanding s <? 1) with false by lia. by tsteps.
Qed.

Lemma logged_same b d s : f_view (logged b d s) b = d.
Proof. cbn. unfold fupd. by rewrite Z.eqb_refl. Qed.
Lemma logged_other b d s b' : b' <> b -> f_view (logged b d s) b' = f_view s b'.
Proof. intros H. cbn. unfold fupd. by rewrite (proj2 (Z.eqb_neq _ _)). Qed.

(** A write outside the bitmap changes no bit. *)
Lemma usedb_logged b d s b' : BBLOCK b' (f_sb s) <> b -> usedb (logged b d s) b' = usedb s b'.
Proof. intros H. unfold usedb. cbn [f_sb logged]. by rewrite logged_other. Qed.
Lemma fs_ok_logged b d s : fs_ok s -> block_ok d -> (forall b', 0 <= b' < sb_size (f_sb s) -> BBLOCK b' (f_sb s) <> b) -> fs_ok (logged b d s).
Proof.
  intros O Hd Hb. pose proof O as [O1 O2 O3 O4 O5 O6 O7]. constructor; try done.
  - intros b' Hb'. destruct (Z.eq_dec b' b) as [->|]; [by rewrite logged_same|]. rewrite logged_other by done. by apply O5.
  - intros b' Hb'. rewrite usedb_logged; [by apply O6|]. apply Hb. change (data_start (logged b d s)) with (data_start s) in Hb'. lia.
Qed.

Lemma byte_ok_lor x k : byte_ok x -> 0 <= k < 8 -> byte_ok (Z.lor x (2 ^ k)).
Proof.
  unfold byte_ok. intros Hx Hk. assert (0 <= 2 ^ k < 256) by (split; [lia|change 256 with (2 ^ 8); apply Z.pow_lt_mono_r; lia]).
  assert (E : Z.lor x (2 ^ k) mod 256 = Z.lor x (2 ^ k)).
  { change 256 with (2 ^ 8). rewrite <- !Z.land_ones, Z.land_lor_distr_l by lia. rewrite !Z.land_ones, !Z.mod_small by lia. done. }
  rewrite <- E. apply Z.mod_pos_bound. lia.
Qed.
Lemma byte_at_ok d k : block_ok d -> byte_ok (byte_at d k).
Proof.
  intros [_ Hd]. unfold byte_at. rewrite nth_lookup. destruct (d !! k) as [x|] eqn:E; cbn; [|unfold byte_ok; lia].
  rewrite Forall_lookup in Hd. by apply (Hd k).
Qed.
Lemma set_bit_ok d bi : block_ok d -> block_ok (set_bit d bi).
Proof.
  intros Hd. pose proof Hd as [Hl Hf]. unfold set_bit. split; [by rewrite length_insert|]. apply Forall_insert; [done|].
  unfold bit_mask. rewrite Z.shiftl_1_l. apply byte_ok_lor; [by apply byte_at_ok|apply Z.mod_pos_bound; lia].
Qed.
Lemma clear_bit_ok d bi : block_ok d -> block_ok (clear_bit d bi).
Proof.
  intros [Hl Hf]. unfold clear_bit. split; [by rewrite length_insert|]. apply Forall_insert; [done|]. apply Z.mod_pos_bound. lia.
Qed.
Lemma zeros_ok : block_ok (replicate 512 0).
Proof. split; [done|]. apply Forall_replicate. unfold byte_ok. lia. Qed.

(** Writing a bitmap block. *)
Definition with_bit (v : bool) (b : Z) (s : fs) : fs :=
  let B := BBLOCK b (f_sb s) in
  logged B ((if v then set_bit else clear_bit) (f_view s B) (b mod BPB)) s.
Lemma usedb_with_bit v b s b' :
  fs_ok s -> 0 <= b < sb_size (f_sb s) -> 0 <= b' < sb_size (f_sb s) -> usedb (with_bit v b s) b' = if b' =? b then v else usedb s b'.
Proof.
  intros O Hb Hb'. unfold usedb, with_bit. cbn [f_sb logged]. set (B := BBLOCK b (f_sb s)).
  pose proof (bblock_range s b O Hb) as HB. pose proof (fo_data _ O). pose proof (fo_size _ O).
  destruct (fo_block _ O B) as [Hl _]; [lia|]. destruct (Z.eq_dec (BBLOCK b' (f_sb s)) B) as [E|E].
  - rewrite E, logged_same. pose proof (mod_BPB b). pose proof (mod_BPB b').
    pose proof (same_bblock s b' b E) as Hsame. destruct v; [rewrite bitb_set by done|rewrite bitb_clear by done];
      destruct (Z.eqb_spec b' b) as [->|Hne]; rewrite ?Z.eqb_refl; try done;
      rewrite (proj2 (Z.eqb_neq (b' mod BPB) (b mod BPB))) by (intros E'; by apply Hne, Hsame); done.
  - rewrite logged_other by done. destruct (Z.eqb_spec b' b) as [->|]; [by destruct E|done].
Qed.
Lemma fs_ok_with_bit v b s : fs_ok s -> data_block s b -> fs_ok (with_bit v b s).
Proof.
  intros O Hb. pose proof O as [O1 O2 O3 O4 O5 O6 O7]. unfold data_block in Hb.
  assert (H0 : 0 <= data_start s) by (pose proof (bblock_range s 0 O ltac:(lia)); lia). constructor; try done.
  - intros b' Hb'. unfold with_bit. pose proof (bblock_range s b O ltac:(lia)).
    destruct (Z.eq_dec b' (BBLOCK b (f_sb s))) as [->|]; [rewrite logged_same|rewrite logged_other by done; by apply O5].
    destruct v; [apply set_bit_ok|apply clear_bit_ok]; apply O5; change (f_disksize (with_bit _ _ s)) with (f_disksize s) in Hb'; lia.
  - intros b' Hb'. change (data_start (with_bit v b s)) with (data_start s) in Hb'. rewrite usedb_with_bit by (done || lia).
    rewrite (proj2 (Z.eqb_neq b' b)) by lia. by apply O6.
Qed.
Lemma view_with_bit v b s b' : (forall x, 0 <= x < sb_size (f_sb s) -> BBLOCK x (f_sb s) <> b') -> 0 <= b < sb_size (f_sb s) ->
  f_view (with_bit v b s) b' = f_view s b'.
Proof. intros H Hb. unfold with_bit. apply logged_other. intros ->. by apply (H b). Qed.

(** ** balloc and bfree *)

(** [s] with block [b] taken from the bitmap and zeroed. *)
Definition allocated (b : Z) (s : fs) : fs := logged b (replicate 512 0) (with_bit true b s).
(** [balloc] gives up only when no block is left. *)
Definition full (s : fs) (msg : string) : Prop :=
  (msg = "balloc: out of blocks"%string /\ forall b, 0 <= b < sb_size (f_sb s) -> usedb s b = true) \/ too_big msg.

Lemma balloc_loop_tries fuel s j :
  fs_ok s -> 0 <= j -> sb_size (f_sb s) <= j * BPB + (Z.of_nat fuel - 1) * BPB -> (0 < fuel)%nat ->
  (forall b, 0 <= b < j * BPB -> b < sb_size (f_sb s) -> usedb s b = true) ->
  tries (full s) (balloc_loop fuel (j * BPB)) s (fun b s' => data_block s b /\ usedb s b = false /\ s' = allocated b s).
Proof.
  intros O. pose proof (fo_size _ O). pose proof (fo_data _ O) as Hd. assert (HP : BPB = 4096) by reflexivity.
  revert j; induction fuel as [|fuel IH]; intros j Hj Hf Hpos Hall; [lia|]. cbn [balloc_loop]. tsteps.
  destruct (Z.ltb_spec (j * BPB) (sb_size (f_sb s))) as [Hlt|Hge]; cbn [negb].
  2:{ apply tries_panic. left. split; [done|]. intros b Hb. apply Hall; lia. }
  pose proof (bblock_range s (j * BPB) O ltac:(lia)) as HB.
  assert (EB : forall bi, 0 <= bi < BPB -> BBLOCK (j * BPB + bi) (f_sb s) = BBLOCK (j * BPB) (f_sb s) /\ (j * BPB + bi) mod BPB = bi).
  { intros bi Hbi. unfold BBLOCK. rewrite (Z.add_comm (j * BPB) bi), Z.div_add, Z.mod_add, Z.div_small, Z.mod_small by lia. by rewrite Z.div_mul by lia. }
  tsteps. apply bread_tries; [lia|]. pose proof (scan_bits_spec (Z.to_nat BPB) 0 (j * BPB) (sb_size (f_sb s)) (f_view s (BBLOCK (j * BPB) (f_sb s)))) as Hs.
  destruct (scan_bits _ _ _ _ _) as [bi|].
  - destruct Hs as (Hbi & Hsz & Hbit). destruct (EB bi ltac:(lia)) as [E1 E2]. set (b := j * BPB + bi) in *.
    assert (Hu : usedb s b = false) by (unfold usedb; by rewrite E1, E2).
    assert (Hdb : data_block s b).
    { split; [|done]. destruct (Z.lt_ge_cases b (data_start s)) as [Hb|]; [|lia]. rewrite (fo_meta _ O b) in Hu; [done|lia]. }
    assert (Ew : with_bit true b s = logged (BBLOCK (j * BPB) (f_sb s)) (set_bit (f_view s (BBLOCK (j * BPB) (f_sb s))) bi) s).
    { unfold with_bit. by rewrite E1, E2. }
    tsteps. apply log_write_tries; [done|by right|]. rewrite <- Ew.
    pose proof (fs_ok_with_bit true b s O Hdb) as O1. unfold bzero. tsteps. apply bread_tries; [cbn; lia|].
    apply log_write_tries; [done|by right|]. tsteps. done.
  - replace (j * BPB + BPB) with ((j + 1) * BPB) by lia. apply IH; [lia|lia|lia|].
    intros b Hb Hbs. destruct (Z.lt_ge_cases b (j * BPB)) as [|Hge]; [apply Hall; lia|].
    destruct (EB (b - j * BPB) ltac:(lia)) as [E1 E2]. replace (j * BPB + (b - j * BPB)) with b in E1, E2 by lia.
    unfold usedb. rewrite E1, E2. apply Hs; lia.
Qed.

Lemma balloc_tries s :
  fs_ok s -> tries (full s) balloc s (fun b s' => data_block s b /\ usedb s b = false /\ s' = allocated b s).
Proof.
  intros O. pose proof (fo_size _ O). unfold balloc. tsteps. change (balloc_loop ?n 0) with (balloc_loop n (0 * BPB)). assert (HP : BPB = 4096) by reflexivity.
  pose proof (Z.div_pos (sb_size (f_sb s)) BPB ltac:(lia) ltac:(lia)).
  pose proof (Z.div_mod (sb_size (f_sb s)) BPB ltac:(lia)). pose proof (Z.mod_pos_bound (sb_size (f_sb s)) BPB ltac:(lia)).
  apply balloc_loop_tries; [done|lia| |lia|lia]. rewrite Z2Nat.id by lia. lia.
Qed.

Lemma bfree_tries (E : string -> Prop) s b (Q : unit -> fs -> Prop) :
  fs_ok s -> data_block s b -> usedb s b = true -> (forall msg, too_big msg -> E msg) -> Q tt (with_bit false b s) -> tries E (bfree b) s Q.
Proof.
  intros O Hb Hu HE HQ. pose proof (fo_size _ O). pose proof (fo_data _ O). unfold data_block in Hb.
  assert (Hd0 : 0 <= data_start s) by (pose proof (bblock_range s 0 O ltac:(lia)); lia).
  pose proof (bblock_range s b O ltac:(lia)). unfold bfree. tsteps. apply bread_tries; [lia|].
  rewrite bit_at_bitb. unfold usedb in Hu. rewrite Hu. cbn [negb]. by apply log_write_tries.
Qed.

Lemma fs_ok_allocated b s : fs_ok s -> data_block s b -> fs_ok (allocated b s).
Proof.
  intros O Hb. apply fs_ok_logged; [by apply fs_ok_with_bit|apply zeros_ok|]. intros b' Hb'. by apply (data_not_bitmap s b b' O Hb).
Qed.
Lemma usedb_allocated b s b' : fs_ok s -> data_block s b -> 0 <= b' < sb_size (f_sb s) -> usedb (allocated b s) b' = (b' =? b) || usedb s b'.
Proof.
  intros O Hb Hb'. unfold allocated. rewrite usedb_logged by (by apply (data_not_bitmap s b b' O Hb)).
  assert (H0 : 0 <= data_start s) by (pose proof (bblock_range s b' O ltac:(lia)); lia).
  rewrite usedb_with_bit by (done || unfold data_block in Hb; lia). by destruct (b' =? b).
Qed.
(** No other data block is touched. *)
Lemma view_allocated b s b' : fs_ok s -> data_block s b -> data_block s b' -> b' <> b -> f_view (allocated b s) b' = f_view s b'.
Proof.
  intros O Hb Hb' Hne. unfold allocated. rewrite logged_other by done.
  assert (H0 : 0 <= data_start s) by (pose proof (fo_size _ O); pose proof (bblock_range s 0 O ltac:(lia)); lia).
  apply view_with_bit; [|unfold data_block in Hb; lia]. intros x Hx. by apply (data_not_bitmap s b' x O Hb').
Qed.

(** [balloc] returns a data block that was free, marks it and no other as used,
    zeroes it and writes no other data block; it panics for lack of blocks only when
    every block of the disk is in use.  [bfree] of that block gives back the bitmap
    as it was. *)
Theorem balloc_takes_free_block s :
  fs_ok s -> tries (full s) (b ← balloc; s1 ← g_get; bfree b ;; mret (b, s1)) s (fun '(b, s1) s' =>
    data_block s b /\ usedb s b = false /\ f_view s1 b = replicate 512 0 /\
    (forall b', 0 <= b' < sb_size (f_sb s) -> usedb s1 b' = (b' =? b) || usedb s b') /\
    (forall b', data_block s b' -> b' <> b -> f_view s1 b' = f_view s b') /\
    (forall b', 0 <= b' < sb_size (f_sb s) -> usedb s' b' = usedb s b')).
Proof.
  intros O. tsteps. eapply tries_mono; [apply (balloc_tries s O)|]. intros b s1 (Hb & Hu & ->). tsteps.
  pose proof (fs_ok_allocated b s O Hb) as O1.
  assert (H0 : 0 <= data_start s) by (pose proof (fo_size _ O); pose proof (bblock_range s 0 O ltac:(lia)); lia).
  assert (Hbr : 0 <= b < sb_size (f_sb s)) by (unfold data_block in Hb; lia).
  apply bfree_tries; [done|done|by rewrite usedb_allocated, Z.eqb_refl|by right|]. tsteps. split_and!; try done.
  - apply logged_same.
  - intros b' Hb'. by apply usedb_allocated.
  - intros b' Hb' Hne. by apply view_allocated.
  - intros b' Hb'. rewrite usedb_with_bit by done. destruct (Z.eqb_spec b' b) as [->|Hne]; [done|].
    rewrite usedb_allocated by done. by rewrite (proj2 (Z.eqb_neq _ _) Hne).
Qed.

(** A disk of twenty blocks, the first five metadata, with two empty files. *)
Definition demo_sb : superblock := mk_sb 20 15 8 31 2 2 4.
Definition demo_file (inum : Z) : inode := mk_inode 1 inum 1 Sleeplock.initsleeplock true T_FILE 0 0 1 0 (replicate 13 0).
Definition demo_fs : fs :=
  mk_fs demo_sb 20 (fun b => if b =? 4 then 31 :: replicate 511 0 else replicate 512 0) [] 1 [demo_file 1; demo_file 2].
Definition no_dev : Z -> dev_ops := fun _ => mk_dev None None.

Lemma demo_fs_ok : fs_ok demo_fs.
Proof.
  constructor; try done.
  - intros b Hb. cbn [demo_fs f_view]. destruct (b =? 4); [|apply zeros_ok]. split; [done|]. apply Forall_cons. split; [unfold byte_ok; lia|].
    apply Forall_replicate. unfold byte_ok. lia.
  - intros b Hb. change (data_start demo_fs) with 5 in Hb. assert (Hc : b = 0 \/ b = 1 \/ b = 2 \/ b = 3 \/ b = 4) by lia.
    by repeat destruct Hc as [->|Hc]; try subst b.
Qed.
Definition demo_g : guarded fs := mk_g (mk_cpu 0 false true) Spinlock.initlock demo_fs [].

Lemma balloc_takes_free_block_witness :
  tries (full demo_fs) (b ← balloc; s1 ← g_get; bfree b ;; mret (b, s1)) demo_fs (fun '(b, s1) s' => usedb s1 b = true /\ usedb s' b = false) /\
  value_of (balloc demo_g) = Some 5.
Proof.
  split; [|by vm_compute]. eapply tries_mono; [exact (balloc_takes_free_block demo_fs demo_fs_ok)|].
  intros [b s1] s' ([Hb1 Hb2] & Hu & _ & U1 & _ & U2). change (data_start demo_fs) with 5 in Hb1. rewrite U1, U2, Z.eqb_refl by lia. done.
Defined.
