(* ===== verification/FsInode.v ===== *)
(** The contents of files: [bmap], [readi] and [writei] of [fs.c].

    A file has 141 slots for block numbers: twelve direct ones, the indirect block,
    and the indirect block's 128 words.  [fdata s i bn] is block [bn] of file [i],
    zeros where no block has been allocated; [contents s i] is the file as a list of
    bytes.  [bmap] changes no block of the file's data, [readi] reads a piece of
    [contents] and [writei] replaces one; other files' blocks are not touched. *)

From S2P Require Import Prelude CString Locks Guarded Bytes Fs FsBlocks.

Definition slot_addr (v : Z -> block) (p : inode) (k : Z) : Z :=
  if k <=? 12 then nth (Z.to_nat k) (i_addrs p) 0
  else
    let a := nth 12 (i_addrs p) 0 in
    if a =? 0 then 0 else get32 (v a) (4 * Z.to_nat (k - 13)).
Definition addr (s : fs) (i : nat) (k : Z) : Z := slot_addr (f_view s) (ino s i) k.
(** The slot of the file's block [bn]. *)
Definition fslot (bn : Z) : Z := if bn <? NDIRECT then bn else bn + 1.
Definition fdata (s : fs) (i : nat) (bn : Z) : block :=
  let a := addr s i (fslot bn) in if a =? 0 then replicate 512 0 else f_view s a.

Record inode_ok (s : fs) (i : nat) : Prop := mk_inode_ok {
  io_idx : (i < length (f_icache s))%nat;
  io_len : length (i_addrs (ino s i)) = 13%nat;
  io_data : forall k, 0 <= k <= 140 -> addr s i k <> 0 -> data_block s (addr s i k) /\ usedb s (addr s i k) = true;
  io_inj : forall k k', 0 <= k <= 140 -> 0 <= k' <= 140 -> addr s i k <> 0 -> addr s i k = addr s i k' -> k = k';
  io_inum : 0 <= i_inum (ino s i) < sb_ninodes (f_sb s);
  io_size : 0 <= i_size (ino s i) <= MAXFILE * BSIZE }.

(** Inode [inum] as it is on disk. *)
Definition disk_inode (s : fs) (inum : Z) : inode := get_dinode (f_view s (IBLOCK inum (f_sb s))) (di_off inum) inode_zero.

Lemma di_off_range inum : (di_off inum + 64 <= 512)%nat.
Proof. unfold di_off, IPB. pose proof (Z.mod_pos_bound inum 8 ltac:(lia)). lia. Qed.
Lemma iblock_range s inum : fs_ok s -> 0 <= inum < sb_ninodes (f_sb s) -> 0 <= IBLOCK inum (f_sb s) < sb_bmapstart (f_sb s).
Proof.
  intros O Hi. pose proof (fo_inodes _ O) as (H1 & H2 & H3). unfold IBLOCK, IPB in *. pose proof (Z.div_pos inum 8 ltac:(lia) ltac:(lia)).
  assert (inum / 8 <= sb_ninodes (f_sb s) / 8) by (apply Z.div_le_mono; lia). lia.
Qed.
Lemma bblock_above s b : fs_ok s -> 0 <= b -> sb_bmapstart (f_sb s) <= BBLOCK b (f_sb s).
Proof. intros O Hb. unfold BBLOCK, BPB, BSIZE. pose proof (Z.div_pos b (512 * 8) ltac:(lia) ltac:(lia)). lia. Qed.

(** File [i] may have got more blocks, and its blocks other contents; all else is as
    it was. *)
Record keeps (s : fs) (i : nat) (s' : fs) : Prop := mk_keeps {
  kp_sb : f_sb s' = f_sb s;
  kp_disk : f_disksize s' = f_disksize s;
  kp_icache : length (f_icache s') = length (f_icache s);
  kp_ino : forall j, j <> i -> ino s' j = ino s j;
  kp_inum : i_inum (ino s' i) = i_inum (ino s i);
  kp_inodes : forall inum, 0 <= inum < sb_ninodes (f_sb s) -> inum <> i_inum (ino s i) -> disk_inode s' inum = disk_inode s inum;
  kp_blocks : forall b, data_block s b -> usedb s b = true -> (forall k, 0 <= k <= 140 -> addr s i k <> b) ->
    f_view s' b = f_view s b /\ usedb s' b = true;
  kp_new : forall k, 0 <= k <= 140 -> addr s' i k <> 0 ->
    (exists k', 0 <= k' <= 140 /\ addr s i k' = addr s' i k) \/ usedb s (addr s' i k) = false }.

Lemma data_block_sb s s' b : f_sb s' = f_sb s -> data_block s' b <-> data_block s b.
Proof. intros E. unfold data_block, data_start. by rewrite E. Qed.

Lemma fs_keeps_refl s i : keeps s i s.
Proof. constructor; try done. intros k Hk _. left. by exists k. Qed.
Lemma data_block_pos s b : fs_ok s -> data_block s b -> 0 < b < 2 ^ 31.
Proof.
  intros O [H1 H2]. pose proof (fo_width _ O). pose proof (fo_inodes _ O) as (H3 & H4 & H5). unfold data_start, IPB, BPB, BSIZE in *.
  pose proof (fo_size _ O). pose proof (Z.div_pos (sb_size (f_sb s)) (512 * 8) ltac:(lia) ltac:(lia)). pose proof (Z.div_pos (sb_ninodes (f_sb s)) 8 ltac:(lia) ltac:(lia)). lia.
Qed.
Lemma own_dec s i x : (exists k, 0 <= k <= 140 /\ addr s i k = x) \/ (forall k, 0 <= k <= 140 -> addr s i k <> x).
Proof.
  destruct (decide (Exists (fun k => addr s i k = x) (seqZ 0 141))) as [H|H]; [left|right].
  - apply Exists_exists in H as (k & Hk & E). apply elem_of_seqZ in Hk. exists k. split; [lia|done].
  - intros k Hk E. apply H, Exists_exists. exists k. split; [apply elem_of_seqZ; lia|done].
Qed.
Lemma fs_keeps_trans s i s1 s2 : fs_ok s -> inode_ok s2 i -> keeps s i s1 -> keeps s1 i s2 -> keeps s i s2.
Proof.
  intros O I2 [A1 A2 A3 A4 Ai Ad A5 A6] [B1 B2 B3 B4 Bi Bd B5 B6].
  constructor; try congruence.
  - intros j Hj. by rewrite B4, A4.
  - intros inum Hi Hne. rewrite Bd, Ad by (rewrite ?A1, ?Ai; done). done.
  - intros b Hb Hu Hn. destruct (A5 b Hb Hu Hn) as [E1 U1]. pose proof (data_block_pos s b O Hb).
    destruct (B5 b) as [E2 U2]; [by rewrite (data_block_sb s)|done| |split; [congruence|done]].
    intros k Hk E. destruct (A6 k Hk) as [(k' & Hk' & E')|Hf]; [lia| |congruence]. apply (Hn k' Hk'). congruence.
  - intros k Hk Ha. destruct (B6 k Hk Ha) as [(k1 & Hk1 & E1)|Hf].
    + destruct (A6 k1 Hk1) as [(k2 & Hk2 & E2)|Hf]; [congruence|left; exists k2; split; [done|congruence]|right; congruence].
    + destruct (own_dec s i (addr s2 i k)) as [?|Hn]; [by left|right]. destruct (usedb s (addr s2 i k)) eqn:Hu; [|done].
      destruct (io_data _ _ I2 k Hk Ha) as [Hd _]. destruct (A5 (addr s2 i k)) as [_ U1]; [|done|done|congruence].
      rewrite (data_block_sb s) in Hd by congruence. done.
Qed.

(** Block [b], free in [s], becomes slot [k] of file [i]. *)
Record installed (s : fs) (i : nat) (k b : Z) (s' : fs) : Prop := mk_installed {
  in_sb : f_sb s' = f_sb s;
  in_disk : f_disksize s' = f_disksize s;
  in_icache : length (f_icache s') = length (f_icache s);
  in_ino : forall j, j <> i -> ino s' j = ino s j;
  in_same : set_addrs [] (ino s' i) = set_addrs [] (ino s i) /\ length (i_addrs (ino s' i)) = length (i_addrs (ino s i));
  in_used : forall b', 0 <= b' < sb_size (f_sb s) -> usedb s' b' = (b' =? b) || usedb s b';
  in_addr : forall k', 0 <= k' <= 140 -> addr s' i k' = if k' =? k then b else addr s i k';
  in_zero : f_view s' b = replicate 512 0;
  in_meta : forall b', 0 <= b' < sb_bmapstart (f_sb s) -> f_view s' b' = f_view s b';
  in_view : forall b', data_block s b' -> b' <> b -> b' <> addr s i 12 -> f_view s' b' = f_view s b' }.

Lemma installed_ok s i k b s' :
  fs_ok s -> fs_ok s' -> inode_ok s i -> 0 <= k <= 140 -> addr s i k = 0 -> data_block s b -> usedb s b = false -> installed s i k b s' ->
  inode_ok s' i /\ keeps s i s' /\ forall bn, 0 <= bn < MAXFILE -> fdata s' i bn = fdata s i bn.
Proof.
  intros O O' I Hk Ha Hb Hu [N1 N2 N3 N4 [N5 N5'] N6 N7 N8 Nm N9].
  assert (Hrange : forall x, data_block s x -> 0 <= x < sb_size (f_sb s)).
  { intros x Hx. pose proof (data_block_pos s x O Hx). unfold data_block in Hx. lia. }
  assert (Hself : forall k', 0 <= k' <= 140 -> addr s i k' <> 0 -> addr s i k' <> b).
  { intros k' Hk' Hne E. destruct (io_data _ _ I k' Hk' Hne) as [_ U]. congruence. }
  pose proof (data_block_pos s b O Hb) as Hb0. split; [|split].
  - constructor.
    + rewrite N3. apply (io_idx _ _ I).
    + rewrite N5'. apply (io_len _ _ I).
    + intros k' Hk'. rewrite N7 by done. rewrite (data_block_sb s) by done. destruct (Z.eqb_spec k' k) as [->|].
      * intros _. split; [done|]. by rewrite N6, Z.eqb_refl by (by apply Hrange).
      * intros Hne. destruct (io_data _ _ I k' Hk' Hne) as [Hd U]. split; [done|]. rewrite N6, U by (by apply Hrange). apply orb_true_r.
    + intros k1 k2 H1 H2. rewrite !N7 by done. destruct (Z.eqb_spec k1 k) as [->|], (Z.eqb_spec k2 k) as [->|]; try done.
      * intros _ E. exfalso. apply (Hself k2 H2); lia.
      * intros Hne E. exfalso. by apply (Hself k1 H1).
      * by apply (io_inj _ _ I).
    + replace (i_inum (ino s' i)) with (i_inum (set_addrs [] (ino s' i))) by done. rewrite N5, N1. apply (io_inum _ _ I).
    + replace (i_size (ino s' i)) with (i_size (set_addrs [] (ino s' i))) by done. rewrite N5. apply (io_size _ _ I).
  - constructor; try done.
    + change (i_inum (set_addrs [] (ino s' i)) = i_inum (set_addrs [] (ino s i))). by rewrite N5.
    + intros inum Hi _. unfold disk_inode. rewrite N1, Nm; [done|]. by apply iblock_range.
    + intros b' Hb' U' Hn. split; [|rewrite N6, U' by (by apply Hrange); apply orb_true_r]. apply N9; [done|congruence|].
      intros ->. by apply (Hn 12).
    + intros k' Hk'. rewrite N7 by done. destruct (Z.eqb_spec k' k) as [->|]; [by right|]. left. by exists k'.
  - intros bn Hbn. unfold fdata. assert (Hf : 0 <= fslot bn <= 140 /\ fslot bn <> 12).
    { unfold fslot, MAXFILE, NDIRECT, NINDIRECT in *. destruct (Z.ltb_spec bn 12); lia. }
    rewrite N7 by tauto. destruct (Z.eqb_spec (fslot bn) k) as [->|Hne].
    + rewrite Ha, Z.eqb_refl. rewrite (proj2 (Z.eqb_neq b 0)) by lia. done.
    + destruct (Z.eqb_spec (addr s i (fslot bn)) 0) as [|H0]; [done|]. destruct (io_data _ _ I (fslot bn)) as [Hd _]; [tauto|done|].
      apply N9; [done|apply Hself; tauto|]. intros E. destruct Hf as [Hf1 Hf2]. apply Hf2. apply (io_inj _ _ I); (done || lia).
Qed.

Lemma ino_upd i f s j : (i < length (f_icache s))%nat -> ino (upd_ino i f s) j = if decide (j = i) then f (ino s i) else ino s j.
Proof.
  intros Hi. unfold ino, upd_ino, set_icache. cbn [f_icache]. rewrite !nth_lookup. case_decide as E.
  - subst j. rewrite list_lookup_alter_eq. destruct (lookup_lt_is_Some_2 (f_icache s) i Hi) as [p Hp]. by rewrite Hp.
  - by rewrite list_lookup_alter_ne by done.
Qed.
Lemma get_zeros n off : get_le n (replicate 512 0) off = 0.
Proof.
  revert off; induction n as [|n IH]; intros off; cbn [get_le]; [done|]. rewrite IH. unfold byte_at. rewrite nth_lookup.
  destruct (replicate 512 0 !! off) as [x|] eqn:E; cbn; [|done]. apply lookup_replicate in E as [-> _]. done.
Qed.

Lemma fs_ok_upd_ino i f s : fs_ok s -> fs_ok (upd_ino i f s).
Proof. intros [O1 O2 O3 O4 O5 O6 O7]. by constructor. Qed.

Lemma bitmap_low s : fs_ok s -> sb_bmapstart (f_sb s) < data_start s.
Proof.
  intros O. unfold data_start, BPB, BSIZE. pose proof (fo_size _ O). pose proof (Z.div_pos (sb_size (f_sb s)) (512 * 8) ltac:(lia) ltac:(lia)). lia.
Qed.

Section Fresh.
Context (s : fs) (i : nat) (b : Z).
Hypothesis (O : fs_ok s) (I : inode_ok s i) (Hb : data_block s b) (Hu : usedb s b = false).

Lemma own_not_fresh k : 0 <= k <= 140 -> addr s i k <> 0 -> data_block s (addr s i k) /\ addr s i k <> b.
Proof. intros Hk Ha. destruct (io_data _ _ I k Hk Ha) as [Hd U]. split; [done|congruence]. Qed.

Lemma low_allocated b' : 0 <= b' < sb_bmapstart (f_sb s) -> f_view (allocated b s) b' = f_view s b'.
Proof.
  intros Hb'. pose proof (data_block_pos s b O Hb). pose proof (bblock_above s b O ltac:(lia)). pose proof (bitmap_low s O).
  unfold allocated, with_bit, data_block in *. by rewrite !logged_other by lia.
Qed.

Lemma install_direct k :
  0 <= k <= 12 -> addr s i k = 0 ->
  let s' := upd_ino i (fun p => set_addrs (<[Z.to_nat k := b]> (i_addrs p)) p) (allocated b s) in
  fs_ok s' /\ installed s i k b s'.
Proof.
  intros Hk Ha s'. pose proof (io_idx _ _ I) as Hi. pose proof (io_len _ _ I) as Hl.
  pose proof (fs_ok_allocated b s O Hb) as O1. split; [by apply fs_ok_upd_ino|].
  assert (Ei : ino s' i = set_addrs (<[Z.to_nat k := b]> (i_addrs (ino s i))) (ino s i)) by (unfold s'; rewrite ino_upd by done; by rewrite decide_True).
  assert (Hn : forall j, (j <= 12)%nat -> nth j (i_addrs (ino s' i)) 0 = if decide (j = Z.to_nat k) then b else nth j (i_addrs (ino s i)) 0).
  { intros j Hj. rewrite Ei. cbn [set_addrs i_addrs]. rewrite !nth_lookup. case_decide as E; [subst j; by rewrite list_lookup_insert_eq by lia|].
    by rewrite list_lookup_insert_ne by done. }
  constructor; try done.
  - unfold s', upd_ino, set_icache. cbn [f_icache]. by rewrite length_alter.
  - intros j Hj. unfold s'. rewrite ino_upd by done. by rewrite decide_False.
  - rewrite Ei. split; [done|]. cbn [set_addrs i_addrs]. by rewrite length_insert.
  - intros b' Hb'. by apply (usedb_allocated b s b' O Hb).
  - intros k' Hk'. unfold addr, slot_addr. destruct (Z.leb_spec k' 12) as [Hle|Hgt].
    + rewrite Hn by lia. case_decide as E; [by replace (k' =? k) with true by lia|by replace (k' =? k) with false by lia].
    + replace (k' =? k) with false by lia. rewrite (Hn 12%nat) by lia. case_decide as E.
      * assert (k = 12) as -> by lia. unfold addr, slot_addr in Ha. change (12 <=? 12) with true in Ha. change (Z.to_nat 12) with 12%nat in Ha. rewrite Ha, Z.eqb_refl.
        pose proof (data_block_pos s b O Hb). replace (b =? 0) with false by lia. change (f_view s') with (f_view (allocated b s)).
        unfold allocated. rewrite logged_same. apply get_zeros.
      * destruct (Z.eqb_spec (nth 12 (i_addrs (ino s i)) 0) 0) as [|H12]; [done|].
        change (nth 12 (i_addrs (ino s i)) 0) with (addr s i 12) in *. destruct (own_not_fresh 12 ltac:(lia) H12) as [Hd Hne].
        change (f_view s') with (f_view (allocated b s)). by rewrite view_allocated.
  - apply logged_same.
  - intros b' Hb'. by apply low_allocated.
  - intros b' Hb' Hne _. by apply (view_allocated b s b' O Hb).
Qed.

Lemma install_indirect k :
  13 <= k <= 140 -> addr s i 12 <> 0 -> addr s i k = 0 ->
  let s' := logged (addr s i 12) (put32 (f_view s (addr s i 12)) (4 * Z.to_nat (k - 13)) b) (allocated b s) in
  fs_ok s' /\ installed s i k b s'.
Proof.
  intros Hk H12 Ha s'. pose proof (fs_ok_allocated b s O Hb) as O1. destruct (own_not_fresh 12 ltac:(lia) H12) as [Hd Hne].
  set (a := addr s i 12) in *. pose proof (data_block_pos s a O Hd) as Ha0. pose proof (fo_size _ O). pose proof (data_block_pos s b O Hb) as Hb0.
  destruct (fo_block _ O a) as [Hl Hf]; [unfold data_block in Hd; lia|].
  assert (Hnb : forall b', 0 <= b' < sb_size (f_sb s) -> BBLOCK b' (f_sb s) <> a) by (intros b' Hb'; by apply (data_not_bitmap s a b' O Hd)).
  split.
  { apply fs_ok_logged; [done| |done]. split; [by rewrite put32_length|by apply put_le_bytes]. }
  constructor; try done.
  - intros b' Hb'. unfold s'. rewrite usedb_logged by (by apply Hnb). by apply usedb_allocated.
  - intros k' Hk'. unfold addr, slot_addr. change (ino s' i) with (ino s i). change (nth 12 (i_addrs (ino s i)) 0) with a.
    destruct (Z.leb_spec k' 12) as [Hle|Hgt]; [by replace (k' =? k) with false by lia|]. rewrite (proj2 (Z.eqb_neq a 0)) by lia.
    unfold s'. rewrite logged_same. destruct (Z.eqb_spec k' k) as [->|Hkk].
    + apply get32_put32; [lia|lia].
    + apply get32_put32_ne. lia.
  - unfold s'. rewrite logged_other by done. apply logged_same.
  - intros b' Hb'. pose proof (bitmap_low s O). unfold s', data_block in *. rewrite logged_other by lia. by apply low_allocated.
  - intros b' Hb' Hne1 Hne2. unfold s'. rewrite logged_other by done. by apply view_allocated.
Qed.
End Fresh.

(** ** bmap *)

(** File [i] may have got more blocks, its data is the same. *)
Record grown (s : fs) (i : nat) (s' : fs) : Prop := mk_grown {
  gw_fs : fs_ok s';
  gw_inode : inode_ok s' i;
  gw_keeps : keeps s i s';
  gw_ino : set_addrs [] (ino s' i) = set_addrs [] (ino s i);
  gw_data : forall bn, 0 <= bn < MAXFILE -> fdata s' i bn = fdata s i bn }.
Lemma grown_refl s i : fs_ok s -> inode_ok s i -> grown s i s.
Proof. intros O I. constructor; try done. apply fs_keeps_refl. Qed.
Lemma grown_trans s i s1 s2 : fs_ok s -> grown s i s1 -> grown s1 i s2 -> grown s i s2.
Proof.
  intros O [A1 A2 A3 A4 A5] [B1 B2 B3 B4 B5]. constructor; try done.
  - by apply (fs_keeps_trans s i s1 s2).
  - by rewrite B4.
  - intros bn Hbn. by rewrite B5, A5.
Qed.
Lemma full_no_space s msg : full s msg -> no_space msg.
Proof. intros [[-> _]|H]; [by left|by right]. Qed.

Lemma installed_grown s i k b s' :
  fs_ok s -> inode_ok s i -> 0 <= k <= 140 -> addr s i k = 0 -> data_block s b -> usedb s b = false -> fs_ok s' -> installed s i k b s' ->
  grown s i s' /\ addr s' i k = b /\ b <> 0.
Proof.
  intros O I Hk Ha Hb Hu O' N. destruct (installed_ok s i k b s' O O' I Hk Ha Hb Hu N) as (I' & K & D).
  split; [|split; [by rewrite (in_addr _ _ _ _ _ N), Z.eqb_refl|]].
  - constructor; try done. by apply (in_same _ _ _ _ _ N).
  - pose proof (data_block_pos s b O Hb). lia.
Qed.

(** Slot [k], allocated if need be. *)
Lemma direct_tries s i k :
  fs_ok s -> inode_ok s i -> 0 <= k <= 12 ->
  tries no_space (if nth (Z.to_nat k) (i_addrs (ino s i)) 0 =? 0 then
      addr ← balloc;
      g_mod (upd_ino i (fun p => set_addrs (<[Z.to_nat k := addr]> (i_addrs p)) p)) ;; mret addr
    else mret (nth (Z.to_nat k) (i_addrs (ino s i)) 0)) s
    (fun a s' => grown s i s' /\ a = addr s' i k /\ a <> 0).
Proof.
  intros O I Hk. assert (Ea : nth (Z.to_nat k) (i_addrs (ino s i)) 0 = addr s i k) by (unfold addr, slot_addr; by replace (k <=? 12) with true by lia).
  rewrite Ea. destruct (Z.eqb_spec (addr s i k) 0) as [E|E].
  - tsteps. eapply tries_weaken; [eapply tries_mono; [apply (balloc_tries s O)|]|apply full_no_space].
    intros b s1 (Hb & Hu & ->). tsteps. destruct (install_direct s i b O I Hb Hu k Hk E) as [O' N].
    destruct (installed_grown s i k b _ O I ltac:(lia) E Hb Hu O' N) as (G & -> & Hne). done.
  - tsteps. split; [by apply grown_refl|done].
Qed.

Lemma bmap_tries s i bn :
  fs_ok s -> inode_ok s i -> 0 <= bn < MAXFILE ->
  tries no_space (bmap i bn) s (fun a s' => grown s i s' /\ a = addr s' i (fslot bn) /\ a <> 0).
Proof.
  intros O I Hbn. unfold MAXFILE, NDIRECT, NINDIRECT in Hbn. unfold bmap, fslot, NDIRECT, NINDIRECT. tsteps.
  destruct (Z.ltb_spec bn 12) as [Hlt|Hge].
  - apply direct_tries; (done || lia).
  - replace (bn - 12 <? 128) with true by lia. tsteps. eapply tries_mono; [apply (direct_tries s i 12 O I); lia|].
    intros a s1 (G & -> & Ha). pose proof (gw_fs _ _ _ G) as O1. pose proof (gw_inode _ _ _ G) as I1. tsteps.
    destruct (io_data _ _ I1 12 ltac:(lia) Ha) as [Hd _]. pose proof (fo_size _ O1).
    apply bread_tries; [unfold data_block in Hd; lia|].
    assert (Eg : get32 (f_view s1 (addr s1 i 12)) (4 * Z.to_nat (bn - 12)) = addr s1 i (bn + 1)).
    { unfold addr at 2, slot_addr. replace (bn + 1 <=? 12) with false by lia. change (nth 12 (i_addrs (ino s1 i)) 0) with (addr s1 i 12).
      rewrite (proj2 (Z.eqb_neq _ _) Ha). do 3 f_equal. lia. }
    rewrite Eg. destruct (Z.eqb_spec (addr s1 i (bn + 1)) 0) as [E|E].
    + tsteps. eapply tries_weaken; [eapply tries_mono; [apply (balloc_tries s1 O1)|]|apply full_no_space].
      intros b s2 (Hb & Hu & ->). tsteps. destruct (install_indirect s1 i b O1 I1 Hb Hu (bn + 1)) as [O' N]; [lia|done|done|].
      replace (bn + 1 - 13) with (bn - 12) in O', N by lia.
      apply log_write_tries; [by apply fs_ok_allocated|by right|]. tsteps.
      destruct (installed_grown s1 i (bn + 1) b _ O1 I1 ltac:(lia) E Hb Hu O' N) as (G' & -> & Hne). split; [by eapply grown_trans|done].
    + tsteps. split; [done|]. done.
Qed.

(** ** readi *)

Definition file_byte (s : fs) (i : nat) (k : Z) : Z := byte_at (fdata s i (k / BSIZE)) (Z.to_nat (k mod BSIZE)).
(** The file's bytes from [off] on. *)
Definition slice (s : fs) (i : nat) (off n : Z) : list Z := map (file_byte s i) (seqZ off n).
Definition contents (s : fs) (i : nat) : list Z := slice s i 0 (i_size (ino s i)).

Lemma slice_split s i off m n : 0 <= m -> 0 <= n -> slice s i off (m + n) = slice s i off m ++ slice s i (off + m) n.
Proof. intros Hm Hn. unfold slice. by rewrite seqZ_app, map_app by done. Qed.
Lemma slice_ext s s' i off n : (forall k, off <= k < off + n -> file_byte s' i k = file_byte s i k) -> slice s' i off n = slice s i off n.
Proof. intros H. unfold slice. apply map_ext_in. intros k Hk. apply list_elem_of_In, elem_of_seqZ in Hk. by apply H. Qed.
Lemma slice_length s i off n : length (slice s i off n) = Z.to_nat n.
Proof. unfold slice. by rewrite length_map, length_seqZ. Qed.
Lemma slice_lookup s i off n j : (j < Z.to_nat n)%nat -> slice s i off n !! j = Some (file_byte s i (off + Z.of_nat j)).
Proof. intros Hj. unfold slice. rewrite list_lookup_fmap, lookup_seqZ_lt by lia. done. Qed.

Lemma block_of k off : 0 <= off -> 0 <= k < BSIZE - off mod BSIZE -> (off + k) / BSIZE = off / BSIZE /\ (off + k) mod BSIZE = off mod BSIZE + k.
Proof.
  unfold BSIZE. intros Ho Hk. pose proof (Z.div_mod off 512 ltac:(lia)). pose proof (Z.mod_pos_bound off 512 ltac:(lia)).
  assert (E : off + k = 512 * (off / 512) + (off mod 512 + k)) by lia.
  split; [symmetry; apply (Z.div_unique _ _ _ (off mod 512 + k)); lia|symmetry; apply (Z.mod_unique _ _ (off / 512)); lia].
Qed.
Lemma chunk_slice s i off m :
  0 <= off -> 0 <= m <= BSIZE - off mod BSIZE -> length (fdata s i (off / BSIZE)) = 512%nat ->
  take (Z.to_nat m) (drop (Z.to_nat (off mod BSIZE)) (fdata s i (off / BSIZE))) = slice s i off m.
Proof.
  intros Ho Hm Hl. pose proof (Z.mod_pos_bound off BSIZE ltac:(unfold BSIZE; lia)). apply list_eq. intros j.
  destruct (decide (j < Z.to_nat m)%nat) as [Hj|Hj].
  - rewrite lookup_take_lt, lookup_drop, slice_lookup by done. unfold file_byte, byte_at.
    destruct (block_of (Z.of_nat j) off Ho ltac:(lia)) as [-> ->]. rewrite nth_lookup.
    replace (Z.to_nat (off mod BSIZE + Z.of_nat j)) with (Z.to_nat (off mod BSIZE) + j)%nat by lia.
    destruct (lookup_lt_is_Some_2 (fdata s i (off / BSIZE)) (Z.to_nat (off mod BSIZE) + j)) as [x Hx]; [unfold BSIZE in *; lia|]. by rewrite Hx.
  - rewrite lookup_take_ge by lia. symmetry. apply lookup_ge_None_2. rewrite slice_length. lia.
Qed.

Lemma fdata_ok s i bn : fs_ok s -> inode_ok s i -> 0 <= bn < MAXFILE -> block_ok (fdata s i bn).
Proof.
  intros O I Hbn. unfold fdata. destruct (Z.eqb_spec (addr s i (fslot bn)) 0) as [|Ha]; [apply zeros_ok|].
  assert (0 <= fslot bn <= 140) by (unfold fslot, MAXFILE, NDIRECT, NINDIRECT in *; destruct (bn <? 12); lia).
  destruct (io_data _ _ I (fslot bn)) as [Hd _]; [done|done|]. pose proof (data_block_pos s _ O Hd). pose proof (fo_size _ O).
  apply (fo_block _ O). unfold data_block in Hd. lia.
Qed.
Lemma fdata_view s i bn : addr s i (fslot bn) <> 0 -> f_view s (addr s i (fslot bn)) = fdata s i bn.
Proof. intros H. unfold fdata. by rewrite (proj2 (Z.eqb_neq _ _) H). Qed.
Lemma addr_on_disk s i bn : fs_ok s -> inode_ok s i -> 0 <= bn < MAXFILE -> addr s i (fslot bn) <> 0 -> addr s i (fslot bn) < f_disksize s.
Proof.
  intros O I Hbn Ha. assert (0 <= fslot bn <= 140) by (unfold fslot, MAXFILE, NDIRECT, NINDIRECT in *; destruct (bn <? 12); lia).
  destruct (io_data _ _ I (fslot bn)) as [Hd _]; [done|done|]. pose proof (fo_size _ O). unfold data_block in Hd. lia.
Qed.
Lemma grown_byte s i s' k : grown s i s' -> 0 <= k < MAXFILE * BSIZE -> file_byte s' i k = file_byte s i k.
Proof.
  intros G Hk. unfold file_byte. rewrite (gw_data _ _ _ G); [done|]. unfold MAXFILE, NDIRECT, NINDIRECT, BSIZE in *.
  split; [apply Z.div_pos; lia|apply Z.div_lt_upper_bound; lia].
Qed.
Lemma chunk_spec off n : 0 <= off -> 0 < n -> let m := min n (BSIZE - off mod BSIZE) in
  0 < m <= n /\ m <= BSIZE - off mod BSIZE /\ (m < n -> (off + m) mod BSIZE = 0 /\ m = BSIZE - off mod BSIZE).
Proof.
  intros Ho Hn m. unfold m, min, BSIZE. pose proof (Z.mod_pos_bound off 512 ltac:(lia)).
  destruct (Z.ltb_spec n (512 - off mod 512)); split_and!; try lia. intros _. split; [|done].
  pose proof (Z.div_mod off 512 ltac:(lia)). symmetry. apply (Z.mod_unique _ _ (off / 512 + 1)); lia.
Qed.

Lemma readi_loop_tries fuel s i off n acc :
  fs_ok s -> inode_ok s i -> 0 <= off -> 0 <= n -> off + n <= MAXFILE * BSIZE ->
  (0 < fuel)%nat -> (0 < n -> off mod BSIZE + n <= (Z.of_nat fuel - 1) * BSIZE) ->
  tries no_space (readi_loop fuel i off n acc) s (fun bs s' => grown s i s' /\ bs = acc ++ slice s i off n).
Proof.
  revert s off n acc; induction fuel as [|fuel IH]; intros s off n acc O I Ho Hn Hmax Hpos Hf; [lia|]. cbn [readi_loop].
  destruct (Z.ltb_spec 0 n) as [H0|H0]; cbn [negb].
  2:{ tsteps. split; [by apply grown_refl|]. replace n with 0 by lia. unfold slice. by rewrite app_nil_r. }
  specialize (Hf H0). assert (Hbn : 0 <= off / BSIZE < MAXFILE).
  { unfold BSIZE in *. split; [apply Z.div_pos; lia|apply Z.div_lt_upper_bound; lia]. }
  tsteps. eapply tries_mono; [apply (bmap_tries s i _ O I Hbn)|]. intros a s1 (G & -> & Ha). pose proof (gw_fs _ _ _ G) as O1. pose proof (gw_inode _ _ _ G) as I1.
  tsteps. apply bread_tries; [by apply addr_on_disk|]. rewrite fdata_view by done.
  pose proof (chunk_spec off n Ho H0) as (Hm1 & Hm2 & Hm3). set (m := min n (BSIZE - off mod BSIZE)) in *.
  rewrite (chunk_slice s1 i off m) by (try done; try lia; apply (fdata_ok s1 i _ O1 I1 Hbn)).
  pose proof (Z.mod_pos_bound off BSIZE ltac:(unfold BSIZE; lia)). eapply tries_mono; [apply (IH s1 (off + m) (n - m)); try done; try lia|].
  - unfold BSIZE in *. lia.
  - intros bs s2 [G2 ->]. split; [by eapply grown_trans|]. rewrite <- app_assoc. f_equal.
    assert (E : forall o k, 0 <= o -> o + k <= MAXFILE * BSIZE -> slice s1 i o k = slice s i o k).
    { intros o k Ho' Hk. apply slice_ext. intros x Hx. apply (grown_byte s i s1); [done|lia]. }
    rewrite !E by lia. rewrite <- slice_split by lia. f_equal. lia.
Qed.

(** ** writei *)

Lemma splice_length b o src : length (splice b o src) = length b.
Proof. revert b o; induction src as [|x src IH]; intros b o; cbn [splice]; [done|]. by rewrite IH, length_insert. Qed.
Lemma splice_at b o src j :
  (o + length src <= length b)%nat ->
  byte_at (splice b o src) j = if decide (o <= j < o + length src)%nat then nth (j - o) src 0 else byte_at b j.
Proof.
  revert b o; induction src as [|x src IH]; intros b o Hl; cbn [splice length] in *; [rewrite decide_False by lia; done|].
  rewrite IH by (rewrite length_insert; lia). unfold byte_at. rewrite !nth_lookup. case_decide as E1.
  - rewrite decide_True by lia. by replace (j - o)%nat with (S (j - S o)) by lia.
  - destruct (decide (j = o)) as [->|].
    + rewrite list_lookup_insert_eq, decide_True by lia. by rewrite Nat.sub_diag.
    + rewrite list_lookup_insert_ne by done. by rewrite decide_False by lia.
Qed.
Lemma splice_ok b o src : block_ok b -> Forall byte_ok src -> block_ok (splice b o src).
Proof.
  intros [Hl Hf] Hs. split; [by rewrite splice_length|]. clear Hl. revert b o Hf; induction src as [|x src IH]; intros b o Hf; cbn [splice]; [done|].
  apply Forall_cons in Hs as [? ?]. apply IH; [done|]. by apply Forall_insert.
Qed.

(** Block [bn] of the file, which has one, is overwritten. *)
Lemma overwrite s i bn d :
  fs_ok s -> inode_ok s i -> 0 <= bn < MAXFILE -> addr s i (fslot bn) <> 0 -> block_ok d ->
  let s' := logged (addr s i (fslot bn)) d s in
  fs_ok s' /\ inode_ok s' i /\ keeps s i s' /\ forall bn', 0 <= bn' < MAXFILE -> fdata s' i bn' = if bn' =? bn then d else fdata s i bn'.
Proof.
  intros O I Hbn Ha Hd s'. set (a := addr s i (fslot bn)) in *.
  assert (Hsl : forall x, 0 <= x < MAXFILE -> 0 <= fslot x <= 140 /\ fslot x <> 12).
  { intros x Hx. unfold fslot, MAXFILE, NDIRECT, NINDIRECT in *. destruct (Z.ltb_spec x 12); lia. }
  destruct (Hsl bn Hbn) as [Hf1 Hf2]. destruct (io_data _ _ I _ Hf1 Ha) as [Hda Hua]. fold a in Hda, Hua.
  assert (Hnb : forall b', 0 <= b' < sb_size (f_sb s) -> BBLOCK b' (f_sb s) <> a) by (intros b' Hb'; by apply (data_not_bitmap s a b' O Hda)).
  assert (Hrange : forall x, data_block s x -> 0 <= x < sb_size (f_sb s)).
  { intros x Hx. pose proof (data_block_pos s x O Hx). unfold data_block in Hx. lia. }
  assert (Hu : forall x, data_block s x -> usedb s' x = usedb s x) by (intros x Hx; apply usedb_logged, Hnb; by apply Hrange).
  assert (Haddr : forall k, addr s' i k = addr s i k).
  { intros k. unfold addr, slot_addr. change (ino s' i) with (ino s i). destruct (k <=? 12); [done|]. change (nth 12 (i_addrs (ino s i)) 0) with (addr s i 12).
    destruct (Z.eqb_spec (addr s i 12) 0) as [|H12]; [done|]. unfold s'. rewrite logged_other; [done|]. intros E. apply Hf2. apply (io_inj _ _ I); (done || lia). }
  pose proof (bitmap_low s O) as Hlow. split; [by apply fs_ok_logged|]. destruct I as [I1 I2 I3 I4 I5 I6]. split_and!.
  - constructor; try done.
    + intros k Hk. rewrite Haddr. intros Hne. destruct (I3 k Hk Hne) as [H1 H2]. split; [done|]. by rewrite Hu.
    + intros k k' Hk Hk'. rewrite !Haddr. by apply I4.
  - constructor; try done.
    + intros inum Hi _. unfold disk_inode, s'. cbn [f_sb logged]. rewrite logged_other; [done|].
      pose proof (iblock_range s inum O Hi). unfold data_block in Hda. lia.
    + intros b Hb Hub Hn. split; [|by rewrite Hu]. unfold s'. apply logged_other. intros ->. by apply (Hn _ Hf1).
    + intros k Hk _. left. exists k. by rewrite Haddr.
  - intros bn' Hbn'. unfold fdata. rewrite Haddr. destruct (Hsl bn' Hbn') as [Hf1' _]. destruct (Z.eqb_spec bn' bn) as [->|Hne].
    + fold a. rewrite (proj2 (Z.eqb_neq a 0) Ha). apply logged_same.
    + destruct (Z.eqb_spec (addr s i (fslot bn')) 0) as [|H0]; [done|]. unfold s'. apply logged_other. intros E. apply Hne.
      pose proof (I4 _ _ Hf1' Hf1 H0 E) as Es. clear -Es Hbn Hbn'. unfold fslot, NDIRECT in Es. destruct (Z.ltb_spec bn 12), (Z.ltb_spec bn' 12); lia.
Qed.

(** [src] has been written at [off]; the inode is the same but for its blocks. *)
Record written (s : fs) (i : nat) (off : Z) (src : list Z) (s' : fs) : Prop := mk_written {
  wr_fs : fs_ok s';
  wr_inode : inode_ok s' i;
  wr_keeps : keeps s i s';
  wr_ino : set_addrs [] (ino s' i) = set_addrs [] (ino s i);
  wr_byte : forall k, 0 <= k < MAXFILE * BSIZE -> file_byte s' i k =
    if (off <=? k) && (k <? off + Z.of_nat (length src)) then nth (Z.to_nat (k - off)) src 0 else file_byte s i k }.

Lemma grown_written s i off s' : grown s i s' -> written s i off [] s'.
Proof.
  intros G. pose proof G as [G1 G2 G3 G4 _]. constructor; try done. intros k Hk. replace (_ && _) with false by (cbn; lia). by apply (grown_byte s i s').
Qed.
Lemma written_trans s i off a b s1 s2 :
  fs_ok s -> 0 <= off -> written s i off a s1 -> written s1 i (off + Z.of_nat (length a)) b s2 -> written s i off (a ++ b) s2.
Proof.
  intros O Ho [A1 A2 A3 A4 A5] [B1 B2 B3 B4 B5]. constructor; try done; [by apply (fs_keeps_trans s i s1 s2)|congruence|].
  intros k Hk. rewrite B5, A5 by done. rewrite length_app.
  destruct (Z.ltb_spec k off); [by replace ((off + _ <=? k) && _) with false by lia; replace ((off <=? k) && _) with false by lia; replace ((off <=? k) && _) with false by lia|].
  destruct (Z.ltb_spec k (off + Z.of_nat (length a))).
  - replace ((off + _ <=? k) && _) with false by lia. replace ((off <=? k) && _) with true by lia. replace ((off <=? k) && _) with true by lia.
    rewrite app_nth1 by lia. done.
  - destruct (Z.ltb_spec k (off + Z.of_nat (length a) + Z.of_nat (length b))).
    + replace ((off + _ <=? k) && _) with true by lia. replace ((off <=? k) && _) with true by lia. rewrite app_nth2 by lia. f_equal. lia.
    + replace ((off + _ <=? k) && _) with false by lia. replace ((off <=? k) && _) with false by lia. by replace ((off <=? k) && _) with false by lia.
Qed.

(** One turn of the loop. *)
Lemma write_chunk s i off c :
  fs_ok s -> inode_ok s i -> 0 <= off -> off + Z.of_nat (length c) <= MAXFILE * BSIZE -> Z.of_nat (length c) <= BSIZE - off mod BSIZE -> c <> [] -> Forall byte_ok c ->
  addr s i (fslot (off / BSIZE)) <> 0 ->
  written s i off c (logged (addr s i (fslot (off / BSIZE))) (splice (fdata s i (off / BSIZE)) (Z.to_nat (off mod BSIZE)) c) s).
Proof.
  intros O I Ho Hmax Hc Hne Hbytes Ha. pose proof (Z.mod_pos_bound off BSIZE ltac:(unfold BSIZE; lia)) as Hr.
  assert (Hlc : 0 < Z.of_nat (length c)) by (destruct c; [done|cbn; lia]).
  assert (Hbn : 0 <= off / BSIZE < MAXFILE).
  { unfold BSIZE in *. split; [apply Z.div_pos; lia|apply Z.div_lt_upper_bound; lia]. }
  pose proof (fdata_ok s i _ O I Hbn) as Hd. destruct (overwrite s i _ _ O I Hbn Ha (splice_ok _ (Z.to_nat (off mod BSIZE)) c Hd Hbytes)) as (O' & I' & K & D).
  constructor; try done. intros k Hk. unfold file_byte.
  assert (Hkb : 0 <= k / BSIZE < MAXFILE).
  { unfold BSIZE in *. split; [apply Z.div_pos; lia|apply Z.div_lt_upper_bound; lia]. }
  rewrite D by done. destruct (Z.eqb_spec (k / BSIZE) (off / BSIZE)) as [E|E].
  - rewrite E. destruct Hd as [Hl _]. rewrite splice_at by (unfold BSIZE in *; lia).
    pose proof (Z.div_mod k BSIZE ltac:(unfold BSIZE; lia)). pose proof (Z.div_mod off BSIZE ltac:(unfold BSIZE; lia)).
    pose proof (Z.mod_pos_bound k BSIZE ltac:(unfold BSIZE; lia)). rewrite E in *. case_decide as Hin.
    + replace (_ && _) with true by lia. f_equal. lia.
    + replace (_ && _) with false by lia. done.
  - replace (_ && _) with false; [done|]. destruct (Z.leb_spec off k), (Z.ltb_spec k (off + Z.of_nat (length c))); try done. exfalso. apply E.
    destruct (block_of (k - off) off Ho) as [E' _]; [lia|]. by replace (off + (k - off)) with k in E' by lia.
Qed.

Lemma writei_loop_tries fuel s i off src :
  fs_ok s -> inode_ok s i -> 0 <= off -> off + Z.of_nat (length src) <= MAXFILE * BSIZE -> Forall byte_ok src ->
  (0 < fuel)%nat -> (src <> [] -> off mod BSIZE + Z.of_nat (length src) <= (Z.of_nat fuel - 1) * BSIZE) ->
  tries no_space (writei_loop fuel i off src) s (fun r s' => written s i off src s' /\ r = off + Z.of_nat (length src)).
Proof.
  revert s off src; induction fuel as [|fuel IH]; intros s off src O I Ho Hmax Hby Hpos Hf; [lia|]. cbn [writei_loop].
  destruct src as [|x src].
  { tsteps. split; [apply grown_written; by apply grown_refl|cbn; lia]. }
  set (l := x :: src) in *. specialize (Hf ltac:(done)). assert (Hl0 : 0 < Z.of_nat (length l)) by (cbn; lia).
  assert (Hbn : 0 <= off / BSIZE < MAXFILE).
  { unfold BSIZE in *. split; [apply Z.div_pos; lia|apply Z.div_lt_upper_bound; lia]. }
  tsteps. eapply tries_mono; [apply (bmap_tries s i _ O I Hbn)|]. intros a s1 (G & -> & Ha). pose proof (gw_fs _ _ _ G) as O1. pose proof (gw_inode _ _ _ G) as I1.
  tsteps. apply bread_tries; [by apply addr_on_disk|]. rewrite fdata_view by done. pose proof (chunk_spec off _ Ho Hl0) as (Hm1 & Hm2 & Hm3).
  set (m := min (Z.of_nat (length l)) (BSIZE - off mod BSIZE)) in *. set (c := take (Z.to_nat m) l).
  assert (Hlc : Z.of_nat (length c) = m) by (unfold c; rewrite length_take; lia).
  tsteps. apply log_write_tries; [done|by right|]. set (s2 := logged _ _ s1).
  assert (W : written s i off c s2).
  { rewrite <- (app_nil_l c). apply (written_trans s i off [] c s1 s2 O Ho); [by apply grown_written|]. cbn [length]. rewrite Z.add_0_r.
    apply write_chunk; try done; try lia; [intros E; rewrite E in Hlc; cbn in Hlc; lia|by apply Forall_take]. }
  eapply tries_mono; [apply (IH s2 (off + m) (drop (Z.to_nat m) l)); [apply (wr_fs _ _ _ _ _ W)|apply (wr_inode _ _ _ _ _ W)|lia|rewrite length_drop; lia|by apply Forall_drop| |]|].
  - pose proof (Z.mod_pos_bound off BSIZE ltac:(unfold BSIZE; lia)). unfold BSIZE in *. lia.
  - intros Hnm. assert (length (drop (Z.to_nat m) l) <> 0%nat) by (by destruct (drop (Z.to_nat m) l)). rewrite length_drop in *.
    destruct (Hm3 ltac:(lia)) as [E1 E2]. rewrite E1. unfold BSIZE in *. lia.
  - intros r s3 [W3 ->]. split; [|rewrite length_drop; lia]. rewrite <- (take_drop (Z.to_nat m) l). fold c. apply (written_trans s i off c _ s2 s3 O Ho W). by rewrite Hlc.
Qed.

(** ** The inode on disk *)

Lemma put_words_length b o ws : length (put_words b o ws) = length b.
Proof. revert b o; induction ws as [|w ws IH]; intros b o; cbn [put_words]; [done|]. by rewrite IH, put32_length. Qed.
Lemma put_words_ok b o ws : block_ok b -> block_ok (put_words b o ws).
Proof.
  intros Hb. revert b o Hb; induction ws as [|w ws IH]; intros b o [Hl Hf]; cbn [put_words]; [done|]. apply IH. split; [by rewrite put32_length|by apply put_le_bytes].
Qed.
Lemma put_words_before b o ws m off : (off + m <= o)%nat -> get_le m (put_words b o ws) off = get_le m b off.
Proof.
  revert b o; induction ws as [|w ws IH]; intros b o Ho; cbn [put_words]; [done|]. rewrite IH by lia. apply get_put_other. lia.
Qed.
Lemma put_words_at b o ws k :
  (o + 4 * length ws <= length b)%nat -> (k < length ws)%nat -> Forall in_u32 ws -> get32 (put_words b o ws) (o + 4 * k) = nth k ws 0.
Proof.
  revert b o k; induction ws as [|w ws IH]; intros b o k Hl Hk Hws; cbn [put_words length] in *; [lia|]. apply Forall_cons in Hws as [Hw Hws]. destruct k as [|k].
  - rewrite Nat.mul_0_r, Nat.add_0_r. unfold get32. rewrite put_words_before by lia. apply get32_put32; [lia|done].
  - replace (o + 4 * S k)%nat with (o + 4 + 4 * k)%nat by lia. cbn [nth]. apply IH; [rewrite put32_length; lia|lia|done].
Qed.

Definition in_i16 (x : Z) : Prop := - 2 ^ 15 <= x < 2 ^ 15.
Lemma i16_u16 x : in_i16 x -> i16 (u16 x) = x.
Proof.
  unfold in_i16, i16, u16. intros Hx. rewrite Z.add_mod_idemp_l by lia. rewrite Z.mod_small; lia.
Qed.
(** The fields of an inode fit the widths they have on disk. *)
Record fits (p : inode) : Prop := mk_fits {
  ft_type : in_i16 (i_type p);
  ft_major : in_i16 (i_major p);
  ft_minor : in_i16 (i_minor p);
  ft_nlink : in_i16 (i_nlink p);
  ft_size : in_u32 (i_size p);
  ft_addrs : Forall in_u32 (i_addrs p) }.

Lemma put_dinode_ok b o p : block_ok b -> block_ok (put_dinode b o p).
Proof.
  intros [Hl Hf]. unfold put_dinode, put16, put32. apply put_words_ok. split; [by rewrite !put_le_length|]. by repeat apply put_le_bytes.
Qed.
Lemma dinode_read_back b o p q :
  length b = 512%nat -> (o + 64 <= 512)%nat -> fits p -> length (i_addrs p) = 13%nat ->
  get_dinode (put_dinode b o p) o q =
  mk_inode (i_dev q) (i_inum q) (i_ref q) (i_lock q) true (i_type p) (i_major p) (i_minor p) (i_nlink p) (i_size p) (i_addrs p).
Proof.
  intros Hl Ho [F1 F2 F3 F4 F5 F6] Ha. unfold put_dinode. rewrite firstn_all2 by lia.
  set (b1 := put16 b o _). set (b2 := put16 b1 _ _). set (b3 := put16 b2 _ _). set (b4 := put16 b3 _ _). set (b5 := put32 b4 _ _).
  assert (L1 : length b1 = 512%nat) by (unfold b1; by rewrite put16_length). assert (L2 : length b2 = 512%nat) by (unfold b2; by rewrite put16_length).
  assert (L3 : length b3 = 512%nat) by (unfold b3; by rewrite put16_length). assert (L4 : length b4 = 512%nat) by (unfold b4; by rewrite put16_length).
  assert (L5 : length b5 = 512%nat) by (unfold b5; by rewrite put32_length).
  assert (Hu : forall x, 0 <= u16 x < 2 ^ 16) by (intros x; unfold u16; apply Z.mod_pos_bound; lia).
  assert (E : forall off, (off + 2 <= o + 8)%nat -> get16 (put_words b5 (o + 12) (i_addrs p)) off = get16 b4 off).
  { intros off Hoff. unfold get16. rewrite put_words_before by lia. apply get16_put32_ne. lia. }
  unfold get_dinode. rewrite !E by lia. unfold get32 at 1. rewrite put_words_before by lia. fold (get32 b5 (o + 8)). f_equal.
  - unfold b4, b3, b2, b1. rewrite !get16_put16_ne by lia. rewrite get16_put16 by (done || lia). by apply i16_u16.
  - unfold b4, b3, b2. rewrite !get16_put16_ne by lia. rewrite get16_put16 by (done || lia). by apply i16_u16.
  - unfold b4, b3. rewrite !get16_put16_ne by lia. rewrite get16_put16 by (done || lia). by apply i16_u16.
  - unfold b4. rewrite get16_put16 by (done || lia). by apply i16_u16.
  - unfold b5. rewrite get32_put32 by (done || lia). done.
  - apply list_eq. intros k. destruct (decide (k < 13)%nat) as [Hk|Hk].
    + rewrite list_lookup_fmap, lookup_seq_lt by done. cbn [fmap option_fmap option_map]. rewrite put_words_at by (done || lia). cbn [Nat.add].
      rewrite nth_lookup. destruct (lookup_lt_is_Some_2 (i_addrs p) k) as [x Hx]; [lia|]. by rewrite Hx.
    + rewrite !(lookup_ge_None_2 _ k); [done|lia|rewrite length_map, length_seq; lia].
Qed.

(** The inodes of a block do not overlap. *)
Lemma di_off_apart a b sb : IBLOCK a sb = IBLOCK b sb -> a <> b -> (di_off a + 64 <= di_off b \/ di_off b + 64 <= di_off a)%nat.
Proof.
  unfold IBLOCK, di_off, IPB. intros E Hne. pose proof (Z.div_mod a 8 ltac:(lia)). pose proof (Z.div_mod b 8 ltac:(lia)).
  pose proof (Z.mod_pos_bound a 8 ltac:(lia)). pose proof (Z.mod_pos_bound b 8 ltac:(lia)). lia.
Qed.
Lemma put_words_other n b o ws off :
  (off + n <= o \/ o + 4 * length ws <= off)%nat -> get_le n (put_words b o ws) off = get_le n b off.
Proof.
  revert b o; induction ws as [|w ws IH]; intros b o Ho; cbn [put_words length] in *; [done|]. rewrite IH by lia.
  unfold put32. apply get_put_other. lia.
Qed.
Lemma put_dinode_other n b o p off :
  (off + n <= o \/ o + 64 <= off)%nat -> get_le n (put_dinode b o p) off = get_le n b off.
Proof.
  intros Ho. unfold put_dinode, put16, put32. rewrite put_words_other by (rewrite length_take; lia).
  by rewrite !get_put_other by lia.
Qed.
Lemma get_dinode_other b o p o' q : (o' + 64 <= o \/ o + 64 <= o')%nat -> length (i_addrs p) = 13%nat -> get_dinode (put_dinode b o p) o' q = get_dinode b o' q.
Proof.
  intros Ho Hl. unfold get_dinode, get16, get32. rewrite !put_dinode_other by lia. f_equal. apply map_ext_in. intros k Hk%in_seq.
  apply put_dinode_other. lia.
Qed.

(** The state after [iupdate]. *)
Definition updated (i : nat) (s : fs) : fs :=
  let b := IBLOCK (i_inum (ino s i)) (f_sb s) in
  logged b (put_dinode (f_view s b) (di_off (i_inum (ino s i))) (ino s i)) s.
Lemma iupdate_tries (E : string -> Prop) s i (Q : unit -> fs -> Prop) :
  fs_ok s -> 0 <= i_inum (ino s i) < sb_ninodes (f_sb s) -> (forall msg, too_big msg -> E msg) -> Q tt (updated i s) -> tries E (iupdate i) s Q.
Proof.
  intros O Hi HE HQ. pose proof (iblock_range s _ O Hi) as Hb. pose proof (fo_size _ O). pose proof (fo_data _ O) as Hd.
  assert (sb_bmapstart (f_sb s) < data_start s) by (unfold data_start, BPB, BSIZE; pose proof (Z.div_pos (sb_size (f_sb s)) (512 * 8) ltac:(lia) ltac:(lia)); lia).
  unfold iupdate. tsteps. apply bread_tries; [lia|]. by apply log_write_tries.
Qed.
(** It writes no data block and no bit, and the inode can be read back. *)
Lemma updated_ok s i :
  fs_ok s -> inode_ok s i -> grown s i (updated i s) /\
  (fits (ino s i) -> forall q, get_dinode (f_view (updated i s) (IBLOCK (i_inum (ino s i)) (f_sb s))) (di_off (i_inum (ino s i))) q =
     mk_inode (i_dev q) (i_inum q) (i_ref q) (i_lock q) true (i_type (ino s i)) (i_major (ino s i)) (i_minor (ino s i)) (i_nlink (ino s i))
       (i_size (ino s i)) (i_addrs (ino s i))).
Proof.
  intros O I. pose proof (iblock_range s _ O (io_inum _ _ I)) as Hb. set (B := IBLOCK (i_inum (ino s i)) (f_sb s)) in *.
  pose proof (fo_size _ O) as Hsz. pose proof (fo_data _ O) as Hd.
  assert (Hds : sb_bmapstart (f_sb s) < data_start s) by (unfold data_start, BPB, BSIZE; pose proof (Z.div_pos (sb_size (f_sb s)) (512 * 8) ltac:(lia) ltac:(lia)); lia).
  assert (Hnb : forall b', 0 <= b' < sb_size (f_sb s) -> BBLOCK b' (f_sb s) <> B) by (intros b' Hb'; pose proof (bblock_above s b' O ltac:(lia)); lia).
  assert (Hblk : block_ok (f_view s B)) by (apply (fo_block _ O); lia).
  assert (Hview : forall x, data_block s x -> f_view (updated i s) x = f_view s x).
  { intros x Hx. apply logged_other. unfold data_block in Hx. fold B. lia. }
  assert (Hrange : forall x, data_block s x -> 0 <= x < sb_size (f_sb s)).
  { intros x Hx. pose proof (data_block_pos s x O Hx). unfold data_block in Hx. lia. }
  assert (Hused : forall x, data_block s x -> usedb (updated i s) x = usedb s x) by (intros x Hx; apply usedb_logged, Hnb; by apply Hrange).
  assert (Haddr : forall k, addr (updated i s) i k = addr s i k).
  { intros k. unfold addr, slot_addr. change (ino (updated i s) i) with (ino s i). destruct (k <=? 12); [done|].
    change (nth 12 (i_addrs (ino s i)) 0) with (addr s i 12). destruct (Z.eqb_spec (addr s i 12) 0) as [|H12]; [done|].
    destruct (io_data _ _ I 12) as [Hd12 _]; [lia|done|]. by rewrite Hview. }
  split; [|intros F q; unfold updated; fold B; rewrite logged_same; apply dinode_read_back; [apply Hblk|apply di_off_range|done|apply (io_len _ _ I)]].
  pose proof I as [I1 I2 I3 I4 I5 I6]. constructor; try done.
  - apply fs_ok_logged; [done|by apply put_dinode_ok|done].
  - constructor; try done.
    + intros k Hk. rewrite Haddr. intros Hne. destruct (I3 k Hk Hne). split; [done|]. by rewrite Hused.
    + intros k k' Hk Hk'. rewrite !Haddr. by apply I4.
  - constructor; try done.
    + intros inum Hi Hne. unfold disk_inode. unfold updated. cbn [f_sb logged]. fold B.
      destruct (Z.eq_dec (IBLOCK inum (f_sb s)) B) as [E|E]; [rewrite E, logged_same|by rewrite logged_other].
      apply get_dinode_other; [by apply (di_off_apart inum _ (f_sb s))|apply (io_len _ _ I)].
    + intros b Hdb Hub _. by rewrite Hview, Hused.
    + intros k Hk _. left. exists k. by rewrite Haddr.
  - intros bn Hbn. unfold fdata. rewrite Haddr. destruct (Z.eqb_spec (addr s i (fslot bn)) 0) as [|H0]; [done|].
    destruct (io_data _ _ I (fslot bn)) as [Hdb _]; [|done|by apply Hview]. unfold fslot, MAXFILE, NDIRECT, NINDIRECT in *. destruct (bn <? 12); lia.
Qed.

(** The size is set, as [writei] does at the end of a growing file. *)
Lemma resized_ok s i z :
  fs_ok s -> inode_ok s i -> 0 <= z <= MAXFILE * BSIZE ->
  let s' := upd_ino i (set_size z) s in
  fs_ok s' /\ inode_ok s' i /\ keeps s i s' /\ ino s' i = set_size z (ino s i) /\ forall k, file_byte s' i k = file_byte s i k.
Proof.
  intros O I Hz s'. pose proof I as [I1 I2 I3 I4 I5 I6].
  assert (Ei : ino s' i = set_size z (ino s i)) by (unfold s'; rewrite ino_upd by done; by rewrite decide_True).
  assert (Haddr : forall k, addr s' i k = addr s i k) by (intros k; unfold addr, slot_addr; by rewrite Ei).
  split; [by apply fs_ok_upd_ino|]. split_and!; [| |done|].
  - constructor; rewrite ?Ei; try done.
    + unfold s', upd_ino, set_icache. cbn [f_icache]. by rewrite length_alter.
    + intros k Hk. rewrite Haddr. by apply I3.
    + intros k k' Hk Hk'. rewrite !Haddr. by apply I4.
  - constructor; try done.
    + unfold s', upd_ino, set_icache. cbn [f_icache]. by rewrite length_alter.
    + intros j Hj. unfold s'. rewrite ino_upd by done. by rewrite decide_False.
    + by rewrite Ei.
    + intros k Hk _. left. exists k. by rewrite Haddr.
  - intros k. unfold file_byte, fdata. by rewrite Haddr.
Qed.

(** The bytes of a file after a write, as a list. *)
Lemma contents_written s s' i off src :
  0 <= off <= i_size (ino s i) -> i_size (ino s' i) = Z.max (i_size (ino s i)) (off + Z.of_nat (length src)) -> i_size (ino s' i) <= MAXFILE * BSIZE ->
  (forall k, 0 <= k < MAXFILE * BSIZE -> file_byte s' i k =
    if (off <=? k) && (k <? off + Z.of_nat (length src)) then nth (Z.to_nat (k - off)) src 0 else file_byte s i k) ->
  contents s' i = take (Z.to_nat off) (contents s i) ++ src ++ drop (Z.to_nat (off + Z.of_nat (length src))) (contents s i).
Proof.
  intros Ho Hs Hmax Hb. unfold contents. apply list_eq. intros j. set (n := length src) in *.
  assert (Hlt : length (take (Z.to_nat off) (slice s i 0 (i_size (ino s i)))) = Z.to_nat off) by (rewrite length_take, slice_length; lia).
  destruct (decide (j < Z.to_nat (i_size (ino s' i)))%nat) as [Hj|Hj].
  - rewrite slice_lookup by done. rewrite Hb by lia. rewrite Z.add_0_l. destruct (Z.ltb_spec (Z.of_nat j) off) as [H1|H1].
    + replace (_ && _) with false by lia. rewrite lookup_app_l by lia. rewrite lookup_take_lt by lia. rewrite slice_lookup by lia. by rewrite Z.add_0_l.
    + rewrite lookup_app_r by lia. rewrite Hlt. destruct (Z.ltb_spec (Z.of_nat j) (off + Z.of_nat n)) as [H2|H2].
      * replace (_ && _) with true by lia. rewrite lookup_app_l by (fold n; lia). rewrite nth_lookup. replace (Z.to_nat (Z.of_nat j - off)) with (j - Z.to_nat off)%nat by lia.
        destruct (lookup_lt_is_Some_2 src (j - Z.to_nat off)) as [x Hx]; [fold n; lia|]. by rewrite Hx.
      * replace (_ && _) with false by lia. rewrite lookup_app_r by (fold n; lia). fold n. rewrite lookup_drop.
        replace (Z.to_nat (off + Z.of_nat n) + (j - Z.to_nat off - n))%nat with j by lia. rewrite slice_lookup by lia. by rewrite Z.add_0_l.
  - rewrite !lookup_ge_None_2; [done| |rewrite slice_length; lia].
    rewrite !length_app, Hlt, length_drop, slice_length. fold n. lia.
Qed.

Lemma u32_overflows off n : 0 <= off < 2 ^ 32 -> 0 <= n < 2 ^ 32 -> (u32 (off + n) <? off) = (2 ^ 32 <=? off + n).
Proof.
  intros Ho Hn. destruct (Z.leb_spec (2 ^ 32) (off + n)) as [Hov|Hok].
  - apply Z.ltb_lt. unfold u32. rewrite <- (Z.mod_add (off + n) (-1)) by lia. rewrite Z.mod_small by lia. lia.
  - rewrite u32_small by lia. lia.
Qed.

Section Contents.
Context (devsw : Z -> dev_ops).

Lemma readi_tries s i off n :
  fs_ok s -> inode_ok s i -> i_type (ino s i) <> T_DEV -> 0 <= off < 2 ^ 32 -> 0 <= n < 2 ^ 32 ->
  tries no_space (readi devsw i off n) s (fun '(r, bs) s' => grown s i s' /\
    if (off >? i_size (ino s i)) || (2 ^ 32 <=? off + n) then r = -1 /\ bs = []
    else r = Z.min n (i_size (ino s i) - off) /\ bs = slice s i off r).
Proof.
  intros O I Ht Ho Hn. unfold readi. tsteps. rewrite (proj2 (Z.eqb_neq _ _) Ht). pose proof (io_size _ _ I) as Hs.
  unfold MAXFILE, NDIRECT, NINDIRECT in Hs. assert (HB : BSIZE = 512) by reflexivity.
  destruct (Z.gtb_spec off (i_size (ino s i))) as [|Hle]; cbn [orb]; [tsteps; split; [by apply grown_refl|done]|].
  rewrite u32_overflows by lia. destruct (Z.leb_spec (2 ^ 32) (off + n)) as [Hov|Hok]; [tsteps; split; [by apply grown_refl|done]|].
  rewrite u32_small by lia. set (n' := if off + n >? i_size (ino s i) then i_size (ino s i) - off else n).
  assert (En : n' = Z.min n (i_size (ino s i) - off)) by (unfold n'; destruct (Z.gtb_spec (off + n) (i_size (ino s i))); lia).
  tsteps. pose proof (Z.mod_pos_bound off BSIZE ltac:(lia)). pose proof (Z.div_mod n' BSIZE ltac:(lia)). pose proof (Z.mod_pos_bound n' BSIZE ltac:(lia)).
  pose proof (Z.div_pos n' BSIZE ltac:(lia) ltac:(lia)).
  eapply tries_mono; [apply (readi_loop_tries _ s i off n' [] O I); unfold MAXFILE, NDIRECT, NINDIRECT; try lia|].
  - intros bs s' [G ->]. tsteps. rewrite <- En. done.
Qed.

Lemma writei_tries s i src off :
  fs_ok s -> inode_ok s i -> i_type (ino s i) <> T_DEV -> 0 <= off < 2 ^ 32 -> Z.of_nat (length src) < 2 ^ 32 -> Forall byte_ok src ->
  tries no_space (writei devsw i src off) s (fun r s' =>
    if (off >? i_size (ino s i)) || (MAXFILE * BSIZE <? off + Z.of_nat (length src)) then r = -1 /\ s' = s
    else r = Z.of_nat (length src) /\ fs_ok s' /\ inode_ok s' i /\ keeps s i s' /\
      set_size 0 (set_addrs [] (ino s' i)) = set_size 0 (set_addrs [] (ino s i)) /\
      i_size (ino s' i) = Z.max (i_size (ino s i)) (off + Z.of_nat (length src)) /\
      contents s' i = take (Z.to_nat off) (contents s i) ++ src ++ drop (Z.to_nat (off + Z.of_nat (length src))) (contents s i)).
Proof.
  intros O I Ht Ho Hn Hby. unfold writei. set (n := Z.of_nat (length src)) in *. tsteps. rewrite (proj2 (Z.eqb_neq _ _) Ht). pose proof (io_size _ _ I) as Hs.
  assert (HM : MAXFILE * BSIZE = 71680) by reflexivity. assert (HB : BSIZE = 512) by reflexivity.
  destruct (Z.gtb_spec off (i_size (ino s i))) as [|Hle]; cbn [orb]; [by tsteps|].
  destruct (Z.ltb_spec (u32 (off + n)) off) as [Hov|Hov].
  { replace (MAXFILE * BSIZE <? off + n) with true; [by tsteps|]. destruct (Z.ltb_spec (MAXFILE * BSIZE) (off + n)); [done|]. rewrite u32_small in Hov; lia. }
  assert (Hsum : off + n < 2 ^ 32) by (destruct (Z.lt_ge_cases (off + n) (2 ^ 32)) as [|Hge]; [done|]; unfold u32 in Hov; rewrite <- (Z.mod_add (off + n) (-1)) in Hov by lia; rewrite Z.mod_small in Hov; lia).
  rewrite u32_small by lia. destruct (Z.gtb_spec (off + n) (MAXFILE * BSIZE)) as [Hbig|Hok].
  { replace (MAXFILE * BSIZE <? off + n) with true by lia. by tsteps. }
  replace (MAXFILE * BSIZE <? off + n) with false by lia. tsteps.
  pose proof (Z.mod_pos_bound off BSIZE ltac:(lia)). pose proof (Z.div_mod n BSIZE ltac:(lia)). pose proof (Z.mod_pos_bound n BSIZE ltac:(lia)). pose proof (Z.div_pos n BSIZE ltac:(lia) ltac:(lia)).
  eapply tries_mono; [apply (writei_loop_tries _ s i off src O I); try done; try lia|]. intros off' s1 [W ->]. fold n. tsteps.
  destruct W as [O1 I1 K1 E1 B1]. assert (Es : i_size (ino s1 i) = i_size (ino s i)) by (change (i_size (set_addrs [] (ino s1 i)) = i_size (ino s i)); by rewrite E1).
  rewrite Es. destruct (Z.gtb_spec (off + n) (i_size (ino s i))) as [Hgt|Hng].
  - replace (n >? 0) with true by lia. cbn [andb when]. tsteps.
    destruct (resized_ok s1 i (off + n) O1 I1 ltac:(lia)) as (O2 & I2 & K2 & Ei & B2). set (s2 := upd_ino i (set_size (off + n)) s1) in *.
    apply iupdate_tries; [done|apply (io_inum _ _ I2)|by right|]. tsteps. destruct (updated_ok s2 i O2 I2) as [G _]. pose proof G as [O3 I3 K3 E3 B3].
    assert (Esz : i_size (ino (updated i s2) i) = Z.max (i_size (ino s i)) (off + n)) by (change (ino (updated i s2) i) with (ino s2 i); rewrite Ei; cbn; lia).
    split_and!; try done.
    + apply (fs_keeps_trans s i s2); [done|done|by apply (fs_keeps_trans s i s1)|done].
    + change (ino (updated i s2) i) with (ino s2 i). rewrite Ei. change (set_size 0 (set_addrs [] (set_size (off + n) (ino s1 i)))) with (set_size 0 (set_addrs [] (ino s1 i))). by rewrite E1.
    + apply contents_written; [lia|done|lia|]. intros k Hk. rewrite (grown_byte s2 i _ k G Hk), B2. by apply B1.
  - rewrite andb_false_r. cbn [when]. tsteps. split_and!; try done; [by rewrite E1|lia|]. apply contents_written; [lia|lia|lia|exact B1].
Qed.

Lemma slice_contents s i off r :
  0 <= off -> 0 <= r -> off + r <= i_size (ino s i) -> slice s i off r = take (Z.to_nat r) (drop (Z.to_nat off) (contents s i)).
Proof.
  intros Ho Hr Hs. unfold contents. replace (i_size (ino s i)) with (off + (r + (i_size (ino s i) - off - r))) by lia.
  rewrite (slice_split s i 0 off), (slice_split s i (0 + off) r) by lia. rewrite Z.add_0_l.
  rewrite drop_app_length' by (by rewrite slice_length). by rewrite take_app_length' by (by rewrite slice_length).
Qed.

(** *** Files without holes *)

(** All but the open transaction that writing needs. *)
Definition disk_ok (s : fs) : Prop := fs_ok (mk_fs (f_sb s) (f_disksize s) (f_view s) (f_logged s) 1 (f_icache s)).
(** Every block up to the end of the file has been allocated. *)
Definition no_holes (s : fs) (i : nat) : Prop :=
  forall bn, 0 <= bn -> bn * BSIZE < i_size (ino s i) -> addr s i (fslot bn) <> 0.

Section NoHoles.
Context (s : fs) (i : nat).
Hypothesis (O : disk_ok s) (I : inode_ok s i) (Hh : no_holes s i).
Let s1 := mk_fs (f_sb s) (f_disksize s) (f_view s) (f_logged s) 1 (f_icache s).

Lemma inode_ok_tx : inode_ok s1 i.
Proof. destruct I. by constructor. Qed.

Lemma fs_bread_run b g : g_val g = s -> b < f_disksize s -> bread b g = Ret (f_view s b) g.
Proof. intros Hg Hb. unfold bread. munfold. cbn. rewrite Hg. by replace (b >=? f_disksize s) with false by lia. Qed.

Lemma bmap_run bn g : g_val g = s -> 0 <= bn < MAXFILE -> addr s i (fslot bn) <> 0 -> bmap i bn g = Ret (addr s i (fslot bn)) g.
Proof.
  intros Hg Hbn Ha. unfold bmap, fslot, MAXFILE, NDIRECT, NINDIRECT in *. rewrite (bind_eq g_get _ g (g_val g) g eq_refl), Hg.
  unfold addr, slot_addr in Ha |- *. destruct (Z.ltb_spec bn 12) as [Hlt|Hge].
  - replace (bn <=? 12) with true in * by lia. by rewrite (proj2 (Z.eqb_neq _ _) Ha).
  - replace (bn + 1 <=? 12) with false in * by lia. replace (bn - 12 <? 128) with true by lia.
    destruct (Z.eqb_spec (nth 12 (i_addrs (ino s i)) 0) 0) as [|H12]; [done|].
    assert (Hd : nth 12 (i_addrs (ino s i)) 0 < f_disksize s).
    { destruct (io_data _ _ I 12 ltac:(lia) H12) as [[_ Hd] _]. pose proof (fo_size _ O) as Hsz. cbn [f_sb f_disksize] in Hsz.
      change (nth 12 (i_addrs (ino s i)) 0) with (addr s i 12). lia. }
    rewrite (bind_eq (mret _) _ g _ g eq_refl). rewrite (bind_eq _ _ _ _ _ (fs_bread_run _ g Hg Hd)).
    replace (4 * Z.to_nat (bn + 1 - 13))%nat with (4 * Z.to_nat (bn - 12))%nat in * by lia. by rewrite (proj2 (Z.eqb_neq _ _) Ha).
Qed.

Lemma readi_loop_run fuel off n acc g :
  g_val g = s -> 0 <= off -> 0 <= n -> off + n <= i_size (ino s i) ->
  (0 < fuel)%nat -> (0 < n -> off mod BSIZE + n <= (Z.of_nat fuel - 1) * BSIZE) ->
  readi_loop fuel i off n acc g = Ret (acc ++ slice s i off n) g.
Proof.
  intros Hg. revert off n acc; induction fuel as [|fuel IH]; intros off n acc Ho Hn Hmax Hpos Hf; [lia|]. cbn [readi_loop].
  destruct (Z.ltb_spec 0 n) as [H0|H0]; cbn [negb].
  2:{ replace n with 0 by lia. unfold slice. by rewrite app_nil_r. }
  specialize (Hf H0). pose proof (io_size _ _ I) as Hs. pose proof (Z.mod_pos_bound off BSIZE ltac:(unfold BSIZE; lia)).
  pose proof (Z.div_mod off BSIZE ltac:(unfold BSIZE; lia)).
  assert (Hbn : 0 <= off / BSIZE < MAXFILE) by (unfold BSIZE in *; split; [apply Z.div_pos; lia|apply Z.div_lt_upper_bound; lia]).
  assert (Ha : addr s i (fslot (off / BSIZE)) <> 0) by (apply Hh; lia).
  rewrite (bind_eq _ _ _ _ _ (bmap_run _ g Hg Hbn Ha)).
  rewrite (bind_eq _ _ _ _ _ (fs_bread_run (addr s i (fslot (off / BSIZE))) g Hg (addr_on_disk s1 i _ O inode_ok_tx Hbn Ha))). rewrite fdata_view by done.
  pose proof (chunk_spec off n Ho H0) as (Hm1 & Hm2 & Hm3). set (m := min n (BSIZE - off mod BSIZE)) in *.
  rewrite (chunk_slice s i off m) by (try done; try lia; apply (fdata_ok s1 i _ O inode_ok_tx Hbn)).
  rewrite IH; try lia; [|unfold BSIZE in *; lia]. rewrite <- app_assoc, <- slice_split by lia. do 3 f_equal. lia.
Qed.
End NoHoles.

(** C38: [readi] of a file or directory without holes returns the piece of its contents
    from [off] on, [n] bytes or as many as there are, and fails just when [off] is beyond
    the end or [off + n] overflows; either way it changes nothing, and no transaction need
    be open. *)
Theorem readi_reads_contents s i off n g :
  disk_ok s -> inode_ok s i -> no_holes s i -> i_type (ino s i) <> T_DEV -> 0 <= off < 2 ^ 32 -> 0 <= n < 2 ^ 32 -> g_val g = s ->
  readi devsw i off n g = Ret (if (off >? i_size (ino s i)) || (2 ^ 32 <=? off + n) then (-1, [])
    else let r := Z.min n (i_size (ino s i) - off) in (r, take (Z.to_nat r) (drop (Z.to_nat off) (contents s i)))) g.
Proof.
  intros O I Hh Ht Ho Hn Hg. unfold readi. rewrite (bind_eq g_get _ g (g_val g) g eq_refl), Hg. rewrite (proj2 (Z.eqb_neq _ _) Ht).
  pose proof (io_size _ _ I) as Hs. unfold MAXFILE, NDIRECT, NINDIRECT in Hs. assert (HB : BSIZE = 512) by reflexivity.
  destruct (Z.gtb_spec off (i_size (ino s i))) as [|Hle]; cbn [orb]; [done|].
  rewrite u32_overflows by lia. destruct (Z.leb_spec (2 ^ 32) (off + n)) as [Hov|Hok]; [done|].
  rewrite u32_small by lia. set (n' := if off + n >? i_size (ino s i) then i_size (ino s i) - off else n).
  assert (En : n' = Z.min n (i_size (ino s i) - off)) by (unfold n'; destruct (Z.gtb_spec (off + n) (i_size (ino s i))); lia). cbv zeta. rewrite <- En.
  pose proof (Z.mod_pos_bound off BSIZE ltac:(lia)). pose proof (Z.div_mod n' BSIZE ltac:(lia)). pose proof (Z.mod_pos_bound n' BSIZE ltac:(lia)).
  pose proof (Z.div_pos n' BSIZE ltac:(lia) ltac:(lia)).
  rewrite (bind_eq _ _ _ _ _ (readi_loop_run s i O I Hh (Z.to_nat (n' / BSIZE + 3)) off n' [] g Hg (proj1 Ho) ltac:(lia) ltac:(lia) ltac:(lia) ltac:(lia))).
  by rewrite <- slice_contents by lia.
Qed.

(** C37: [writei] to a file or directory replaces, in its contents, the bytes from
    [off] on by [src], extending the file if need be, and updates the size; it fails,
    changing nothing, just when [off] is beyond the end of the file or the file would
    become larger than a file can be.  Nothing outside the file changes.  It can
    panic only for lack of free blocks or of room in the log. *)
Theorem writei_writes_contents s i src off :
  fs_ok s -> inode_ok s i -> i_type (ino s i) <> T_DEV -> 0 <= off < 2 ^ 32 -> Z.of_nat (length src) < 2 ^ 32 -> Forall byte_ok src ->
  tries no_space (writei devsw i src off) s (fun r s' =>
    if (off >? i_size (ino s i)) || (MAXFILE * BSIZE <? off + Z.of_nat (length src)) then r = -1 /\ s' = s
    else r = Z.of_nat (length src) /\ fs_ok s' /\ inode_ok s' i /\ keeps s i s' /\
      set_size 0 (set_addrs [] (ino s' i)) = set_size 0 (set_addrs [] (ino s i)) /\
      i_size (ino s' i) = Z.max (i_size (ino s i)) (off + Z.of_nat (length src)) /\
      contents s' i = take (Z.to_nat off) (contents s i) ++ src ++ drop (Z.to_nat (off + Z.of_nat (length src))) (contents s i)).
Proof. apply writei_tries. Qed.

(** *** Other files *)

(** The contents of the file with inode [p], and that its blocks are in use. *)
Definition pdata (v : Z -> block) (p : inode) (bn : Z) : block :=
  let a := slot_addr v p (fslot bn) in if a =? 0 then replicate 512 0 else v a.
Definition pcontents (v : Z -> block) (p : inode) : list Z :=
  map (fun k => byte_at (pdata v p (k / BSIZE)) (Z.to_nat (k mod BSIZE))) (seqZ 0 (i_size p)).
Record blocks_ok (s : fs) (p : inode) : Prop := mk_blocks_ok {
  bo_size : i_size p <= MAXFILE * BSIZE;
  bo_data : forall k, 0 <= k <= 140 -> slot_addr (f_view s) p k <> 0 ->
    data_block s (slot_addr (f_view s) p k) /\ usedb s (slot_addr (f_view s) p k) = true }.
(** File [i] and the one with inode [p] have no block in common. *)
Definition apart (s : fs) (i : nat) (p : inode) : Prop :=
  forall k k', 0 <= k <= 140 -> 0 <= k' <= 140 -> addr s i k <> 0 -> addr s i k <> slot_addr (f_view s) p k'.

Lemma keeps_other s i s' p :
  keeps s i s' -> blocks_ok s p -> apart s i p ->
  pcontents (f_view s') p = pcontents (f_view s) p /\ blocks_ok s' p /\ apart s' i p.
Proof.
  intros K [J1 J2] Hap. pose proof (kp_sb _ _ _ K) as K1.
  assert (Hown : forall k', 0 <= k' <= 140 -> slot_addr (f_view s) p k' <> 0 ->
    f_view s' (slot_addr (f_view s) p k') = f_view s (slot_addr (f_view s) p k') /\ usedb s' (slot_addr (f_view s) p k') = true).
  { intros k' Hk' H0. destruct (J2 k' Hk' H0) as [Hd Hu]. apply (kp_blocks _ _ _ K); [done|done|]. intros k Hk E.
    destruct (Z.eq_dec (addr s i k) 0) as [E0|E0]; [congruence|]. by apply (Hap k k' Hk Hk'). }
  assert (Haddr : forall k, slot_addr (f_view s') p k = slot_addr (f_view s) p k).
  { intros k. pose proof (Hown 12 ltac:(lia)) as H12. unfold slot_addr in H12 |- *. change (12 <=? 12) with true in H12. change (Z.to_nat 12) with 12%nat in H12.
    destruct (k <=? 12); [done|]. destruct (Z.eqb_spec (nth 12 (i_addrs p) 0) 0) as [|Hne]; [done|]. by destruct (H12 Hne) as [-> _]. }
  split_and!.
  - unfold pcontents. apply map_ext_in. intros x Hx%list_elem_of_In%elem_of_seqZ. f_equal. unfold pdata. rewrite Haddr.
    destruct (Z.eqb_spec (slot_addr (f_view s) p (fslot (x / BSIZE))) 0) as [|H0]; [done|].
    assert (0 <= x / BSIZE < MAXFILE) by (unfold BSIZE in *; split; [apply Z.div_pos; lia|apply Z.div_lt_upper_bound; lia]).
    destruct (Hown (fslot (x / BSIZE))) as [-> _]; [|done|done]. unfold fslot, MAXFILE, NDIRECT, NINDIRECT in *. destruct (x / BSIZE <? 12); lia.
  - constructor; [done|]. intros k Hk. rewrite Haddr. intros H0. destruct (J2 k Hk H0) as [Hd _]. rewrite (data_block_sb s) by done.
    split; [done|]. by apply Hown.
  - intros k k' Hk Hk' H0 E. rewrite Haddr in E. assert (Hj0 : slot_addr (f_view s) p k' <> 0) by congruence.
    destruct (kp_new _ _ _ K k Hk H0) as [(k1 & Hk1 & E1)|Hfree]; [apply (Hap k1 k' Hk1 Hk'); congruence|].
    destruct (J2 k' Hk' Hj0) as [_ Hu]. congruence.
Qed.

(** C39: Writing to one file, unless it panics for want of a free block or of room in
    the log, leaves every other file intact: all other inodes, in the
    cache and on disk, are as before, and a file that has no block in common with the one
    written to, whether its inode [p] is in the cache or only on disk, keeps its contents
    and its blocks, and still has none in common with it. *)
Theorem writei_isolated s i src off :
  fs_ok s -> inode_ok s i -> i_type (ino s i) <> T_DEV -> 0 <= off < 2 ^ 32 -> Z.of_nat (length src) < 2 ^ 32 -> Forall byte_ok src ->
  tries no_space (writei devsw i src off) s (fun r s' =>
    (forall j, j <> i -> ino s' j = ino s j) /\
    (forall inum, 0 <= inum < sb_ninodes (f_sb s) -> inum <> i_inum (ino s i) -> disk_inode s' inum = disk_inode s inum) /\
    forall p, blocks_ok s p -> apart s i p -> pcontents (f_view s') p = pcontents (f_view s) p /\ blocks_ok s' p /\ apart s' i p).
Proof.
  intros O I Ht Ho Hn Hby. eapply tries_mono; [by apply writei_tries|]. intros r s' H.
  assert (K : keeps s i s') by (destruct (_ || _); [destruct H as [_ ->]; apply fs_keeps_refl|apply H]).
  split_and!; [apply (kp_ino _ _ _ K)|apply (kp_inodes _ _ _ K)|]. intros p. by apply keeps_other.
Qed.

(** The inode [iupdate] writes is the one [ilock] reads back, whatever else is in
    the block. *)
Theorem dinode_roundtrip b inum p q :
  length b = 512%nat -> fits p -> length (i_addrs p) = 13%nat ->
  get_dinode (put_dinode b (di_off inum) p) (di_off inum) q =
  mk_inode (i_dev q) (i_inum q) (i_ref q) (i_lock q) true (i_type p) (i_major p) (i_minor p) (i_nlink p) (i_size p) (i_addrs p).
Proof. intros Hl Hf Ha. apply dinode_read_back; [done|apply di_off_range|done|done]. Qed.
End Contents.

Lemma demo_addr i k : (i < 2)%nat -> addr demo_fs i k = 0.
Proof.
  intros Hi. assert (Ha : i_addrs (ino demo_fs i) = replicate 13 0) by (destruct i as [|[|i]]; [done|done|lia]). unfold addr, slot_addr. rewrite Ha.
  assert (Hz : forall n, nth n (replicate 13 0) 0 = 0).
  { intros n. rewrite nth_lookup. destruct (replicate 13 0 !! n) as [x|] eqn:E; [|done]. by apply lookup_replicate in E as [-> _]. }
  rewrite !Hz. by destruct (k <=? 12).
Qed.
Lemma demo_inode i : (i < 2)%nat -> inode_ok demo_fs i.
Proof.
  intros Hi. constructor; try (by destruct i as [|[|i]]; [done|done|lia]).
  - intros k Hk H. by rewrite demo_addr in H.
  - intros k k' _ _ H. by rewrite demo_addr in H.
Qed.
(** The same disk with [d] in block 5, the one block of its first file. *)
Definition block_fs (tx type size : Z) (d : block) : fs :=
  mk_fs demo_sb 20 (fun b => if b =? 4 then 63 :: replicate 511 0 else if b =? 5 then d else replicate 512 0) [] tx
    [set_size size (set_addrs (5 :: replicate 12 0) (set_type type (demo_file 1))); demo_file 2].
Lemma block_fs_ok tx type size d : 1 <= tx -> block_ok d -> fs_ok (block_fs tx type size d).
Proof.
  intros Ht Hd. constructor; try done; cbn [block_fs f_view f_disksize].
  - intros b Hb. destruct (b =? 4); [|destruct (b =? 5); [done|apply zeros_ok]]. split; [done|].
    apply (bool_decide_unpack (Forall (fun x => 0 <= x < 256) _)). vm_compute. exact I.
  - intros b Hb. change (data_start _) with 5 in Hb. assert (Hc : b = 0 \/ b = 1 \/ b = 2 \/ b = 3 \/ b = 4) by lia.
    by repeat destruct Hc as [->|Hc]; try subst b.
Qed.
Lemma block_fs_addr tx type size d k : addr (block_fs tx type size d) 0 k = if k <=? 0 then 5 else 0.
Proof.
  unfold addr, slot_addr. cbn [block_fs f_view ino f_icache nth set_size set_addrs i_addrs].
  assert (Hz : forall n, nth n (replicate 12 0) 0 = 0).
  { intros n. rewrite nth_lookup. destruct (replicate 12 0 !! n) as [x|] eqn:E; [|done]. by apply lookup_replicate in E as [-> _]. }
  destruct (Z.leb_spec k 12), (Z.leb_spec k 0); try lia; [by replace (Z.to_nat k) with 0%nat by lia| |].
  - destruct (Z.to_nat k) eqn:E; [lia|]. apply Hz.
  - done.
Qed.
Lemma block_fs_inode tx type size d : 0 <= size <= 512 -> inode_ok (block_fs tx type size d) 0 /\ no_holes (block_fs tx type size d) 0.
Proof.
  intros Hs. split; [constructor; [cbn; lia|done| | |cbn; lia|change (0 <= size <= 71680); lia]|].
  - intros k Hk. rewrite block_fs_addr. destruct (k <=? 0); [|done]. by vm_compute.
  - intros k k' Hk Hk'. rewrite !block_fs_addr. destruct (Z.leb_spec k 0), (Z.leb_spec k' 0); try done. lia.
  - intros bn H1 H2. change (i_size _) with size in H2. replace bn with 0 by (unfold BSIZE in H2; lia). done.
Qed.
Definition hi_block : block := [104; 105] ++ replicate 510 0.
Definition hi_g : guarded fs := mk_g (mk_cpu 0 false true) Spinlock.initlock (block_fs 0 T_FILE 2 hi_block) [].

Lemma readi_reads_contents_witness : readi no_dev 0 0 10 hi_g = Ret (2, [104; 105]) hi_g.
Proof.
  destruct (block_fs_inode 0 T_FILE 2 hi_block ltac:(lia)) as [Hi Hh].
  rewrite (readi_reads_contents no_dev (block_fs 0 T_FILE 2 hi_block) 0 0 10 hi_g); [reflexivity| |exact Hi|exact Hh|discriminate|lia|lia|reflexivity].
  apply (block_fs_ok 1 T_FILE 2 hi_block); [lia|]. split; [done|].
  apply (bool_decide_unpack (Forall (fun x => 0 <= x < 256) _)). vm_compute. exact I.
Defined.

Lemma writei_writes_contents_witness :
  tries no_space (writei no_dev 0 [104; 105] 0) demo_fs (fun r s' => r = 2 /\ contents s' 0 = [104; 105]) /\
  value_of ((writei no_dev 0 [104; 105] 0 ;; readi no_dev 0 0 10) demo_g) = Some (2, [104; 105]).
Proof.
  split; [|by vm_compute]. eapply tries_mono.
  - apply (writei_writes_contents no_dev demo_fs 0 [104; 105] 0 demo_fs_ok (demo_inode 0 ltac:(lia)) ltac:(discriminate) ltac:(lia) ltac:(cbn; lia)).
    repeat constructor; discriminate.
  - intros r s' (-> & _ & _ & _ & _ & _ & ->). by split.
Defined.

Lemma writei_isolated_witness :
  tries no_space (writei no_dev 0 [104; 105] 0) demo_fs (fun r s' =>
    ino s' 1 = demo_file 2 /\ disk_inode s' 2 = disk_inode demo_fs 2 /\ pcontents (f_view s') (demo_file 2) = []).
Proof.
  eapply tries_mono.
  - apply (writei_isolated no_dev demo_fs 0 [104; 105] 0 demo_fs_ok (demo_inode 0 ltac:(lia)) ltac:(discriminate) ltac:(lia) ltac:(cbn; lia)).
    repeat constructor; discriminate.
  - intros r s' (H1 & H2 & H3). split; [apply (H1 1%nat); done|]. split; [apply H2; [vm_compute; split; congruence|discriminate]|].
    destruct (H3 (demo_file 2)) as [E _]; [|intros k k' _ _ H0; by rewrite demo_addr in H0 by lia|exact E].
    constructor; [vm_compute; discriminate|]. intros k Hk H0. exfalso. apply H0. exact (demo_addr 1 k ltac:(lia)).
Defined.

Lemma dinode_roundtrip_witness :
  get_dinode (put_dinode (replicate 512 7) (di_off 3) (demo_file 3)) (di_off 3) inode_zero =
  mk_inode 0 0 0 Sleeplock.initsleeplock true T_FILE 0 0 1 0 (replicate 13 0).
Proof.
  apply (dinode_roundtrip (replicate 512 7) 3 (demo_file 3) inode_zero); [done| |done].
  constructor; try (split; [discriminate|reflexivity]). apply Forall_replicate. split; [discriminate|reflexivity].
Defined.
