(* ===== verification/FsDir.v ===== *)
(** Directories and path names of [fs.c].

    A directory is a file of 16-byte entries.  [dir_find] looks a name up in its
    contents; [dirlookup] does just that, and [dirlink] adds an entry without
    disturbing the others.  [skipelem], applied again and again, cuts a path into its
    components. *)

From S2P Require Import Prelude CString Locks Guarded Bytes Fs FsBlocks FsInode.

(** ** Paths *)

(** The components of a path: what is between slashes, empty pieces left out. *)
Fixpoint split_slash (p : list Z) (cur : list Z) : list (list Z) :=
  match p with
  | [] => [cur]
  | c :: p' => if c =? 47 then cur :: split_slash p' [] else split_slash p' (cur ++ [c])
  end.
Definition components (p : list Z) : list (list Z) := filter (.≠ []) (split_slash p []).
(** The names [skipelem] delivers, one after the other. *)
Fixpoint elements (fuel : nat) (p : list Z) : option (list (list Z)) :=
  match fuel with
  | O => None
  | S f => match skipelem p with None => Some [] | Some (e, rest) => (e ::.) <$> elements f rest end
  end.

Lemma split_slash_cur p cur : split_slash p cur = match split_slash p [] with [] => [cur] | e :: l => (cur ++ e) :: l end.
Proof.
  revert cur; induction p as [|c p IH]; intros cur; cbn [split_slash]; [by rewrite app_nil_r|]. destruct (c =? 47); [by rewrite app_nil_r|].
  rewrite (IH (cur ++ [c])), (IH ([] ++ [c])). destruct (split_slash p []) as [|e l]; cbn; [done|by rewrite <- app_assoc].
Qed.
Lemma split_slash_element p e rest :
  element p = (e, rest) -> split_slash p [] = match rest with [] => [e] | _ :: r => e :: split_slash r [] end /\
  (rest = [] \/ exists r, rest = 47 :: r) /\ p = e ++ rest.
Proof.
  revert e rest; induction p as [|c p IH]; intros e rest; cbn [element split_slash]; [intros [= <- <-]; split; [done|]; split; [by left|done]|].
  destruct (Z.eqb_spec c 47) as [->|Hc].
  - intros [= <- <-]. split; [done|]. split; [right; by exists p|done].
  - destruct (element p) as [e' r'] eqn:E. intros [= <- <-]. destruct (IH e' r' eq_refl) as (H1 & H2 & ->). split; [|done].
    rewrite split_slash_cur, H1. by destruct r'.
Qed.
Lemma components_slash p : components (47 :: p) = components p.
Proof. unfold components. cbn [split_slash]. done. Qed.
Lemma components_skip p : components (skip_slashes p) = components p.
Proof. induction p as [|c p IH]; cbn [skip_slashes]; [done|]. destruct (Z.eqb_spec c 47) as [->|]; [by rewrite components_slash|done]. Qed.
Lemma skip_slashes_head p c r : skip_slashes p = c :: r -> c <> 47.
Proof. induction p as [|x p IH]; cbn [skip_slashes]; [done|]. destruct (Z.eqb_spec x 47); [done|]. by intros [= <- _]. Qed.
Lemma skip_slashes_length p : (length (skip_slashes p) <= length p)%nat.
Proof. induction p as [|c p IH]; cbn [skip_slashes]; [done|]. destruct (c =? 47); cbn; lia. Qed.

(** One step: the first component and a shorter path with the others. *)
Lemma skipelem_spec p :
  match skipelem p with
  | None => components p = []
  | Some (name, rest) => exists e, name = take DIRSIZ e /\ e <> [] /\ components p = e :: components rest /\ (length rest < length p)%nat /\
      hd 0 rest <> 47
  end.
Proof.
  unfold skipelem. pose proof (components_skip p) as Hc. pose proof (skip_slashes_length p) as Hl.
  destruct (skip_slashes p) as [|c q] eqn:Es; [by rewrite <- Hc|]. pose proof (skip_slashes_head p c q Es) as Hne.
  destruct (element (c :: q)) as [e rest] eqn:E. destruct (split_slash_element _ _ _ E) as (H1 & H2 & H3).
  assert (He : e <> []) by (cbn in E; rewrite (proj2 (Z.eqb_neq c 47) Hne) in E; destruct (element q); by injection E as <- <-).
  exists e. split; [done|]. split; [done|]. rewrite <- Hc, components_skip. split; [|split].
  - unfold components at 1. rewrite H1. destruct H2 as [->|[r ->]]; rewrite filter_cons, decide_True by done; [done|]. by rewrite components_slash.
  - pose proof (skip_slashes_length rest). apply (f_equal length) in H3. rewrite length_app in H3. destruct e; [done|]. cbn in *. lia.
  - destruct (skip_slashes rest) as [|x r] eqn:Er; [done|]. cbn. by apply (skip_slashes_head rest x r).
Qed.

(** Cutting a path up with [skipelem], as path lookup does, terminates and gives
    the path's components in order, each cut to fourteen bytes; slashes that are
    repeated, leading or trailing make no difference. *)
Theorem skipelem_components p :
  elements (S (length p)) p = Some (map (take DIRSIZ) (components p)).
Proof.
  assert (H : forall n p, (length p < n)%nat -> elements n p = Some (map (take DIRSIZ) (components p))); [|by apply H; lia].
  clear p. intros n; induction n as [|n IH]; intros p Hp; [lia|]. cbn [elements]. pose proof (skipelem_spec p) as Hs.
  destruct (skipelem p) as [[name rest]|]; [|by rewrite Hs]. destruct Hs as (e & -> & _ & -> & Hl & _). rewrite IH by lia. done.
Qed.

(** ** Directory contents *)

Definition entry_at (C : list Z) (k : nat) : list Z := take 16 (drop (16 * k) C).
Definition matches (name de : list Z) : bool := negb (de_inum de =? 0) && (namecmp name (de_name de) =? 0).
(** The inode number of the first entry for [name] among [n] from entry [k] on, and
    the entry's offset. *)
Fixpoint dir_find (n k : nat) (C name : list Z) : option (Z * Z) :=
  match n with
  | O => None
  | S n' => if matches name (entry_at C k) then Some (de_inum (entry_at C k), 16 * Z.of_nat k) else dir_find n' (S k) C name
  end.
Definition dir_lookup (C name : list Z) : option (Z * Z) := dir_find (length C / 16) 0 C name.

(** A directory inode: its size is a whole number of entries. *)
Record dir_ok (s : fs) (dp : nat) (n : nat) : Prop := mk_dir_ok {
  do_fs : fs_ok s;
  do_inode : inode_ok s dp;
  do_type : i_type (ino s dp) = T_DIR;
  do_size : i_size (ino s dp) = 16 * Z.of_nat n }.

Lemma fcontents_length s i : length (contents s i) = Z.to_nat (i_size (ino s i)).
Proof. apply slice_length. Qed.
Lemma dir_ok_length s dp n : dir_ok s dp n -> length (contents s dp) = (16 * n)%nat /\ (length (contents s dp) / 16 = n)%nat.
Proof.
  intros D. rewrite fcontents_length, (do_size _ _ _ D). replace (Z.to_nat (16 * Z.of_nat n)) with (16 * n)%nat by lia. split; [done|].
  rewrite Nat.mul_comm. by apply Nat.div_mul.
Qed.
Lemma grown_size s i s' : grown s i s' -> i_size (ino s' i) = i_size (ino s i) /\ i_type (ino s' i) = i_type (ino s i) /\ i_dev (ino s' i) = i_dev (ino s i).
Proof.
  intros G. pose proof (gw_ino _ _ _ G) as E. split_and!.
  - change (i_size (set_addrs [] (ino s' i)) = i_size (ino s i)). by rewrite E.
  - change (i_type (set_addrs [] (ino s' i)) = i_type (ino s i)). by rewrite E.
  - change (i_dev (set_addrs [] (ino s' i)) = i_dev (ino s i)). by rewrite E.
Qed.
Lemma grown_contents s i s' : inode_ok s i -> grown s i s' -> contents s' i = contents s i.
Proof.
  intros I G. unfold contents. destruct (grown_size s i s' G) as [-> _]. apply slice_ext. intros k Hk. apply (grown_byte s i s' k G).
  pose proof (io_size _ _ I). lia.
Qed.
Lemma grown_dir s dp s' n : dir_ok s dp n -> grown s dp s' -> dir_ok s' dp n.
Proof.
  intros [D1 D2 D3 D4] G. destruct (grown_size s dp s' G) as (E1 & E2 & _). constructor; [apply (gw_fs _ _ _ G)|apply (gw_inode _ _ _ G)|congruence|congruence].
Qed.

Section Dirs.
Context (me : nat) (mypid : Z) (devsw : Z -> dev_ops).

(** Reading entry [k]. *)
Lemma read_entry s dp n k :
  dir_ok s dp n -> (k < n)%nat ->
  tries no_space (readi devsw dp (16 * Z.of_nat k) 16) s (fun r s' => grown s dp s' /\ r = (16, entry_at (contents s dp) k)).
Proof.
  intros [D1 D2 D3 D4] Hk. pose proof (io_size _ _ D2) as Hs. assert (HM : MAXFILE * BSIZE = 71680) by reflexivity.
  eapply tries_mono; [apply (readi_tries devsw s dp (16 * Z.of_nat k) 16 D1 D2); [rewrite D3; discriminate|lia|lia]|].
  intros [r bs] s' [G H]. split; [done|]. replace (_ || _) with false in H by lia. destruct H as [-> ->].
  replace (Z.min 16 _) with 16 by lia. f_equal. rewrite slice_contents by lia. unfold entry_at. f_equal. f_equal. lia.
Qed.

(** [iget] finds the slot of a cached inode, or takes a free one. *)
Definition held (s : fs) (dev inum : Z) (i : nat) (s' : fs) : Prop :=
  (i < length (f_icache s))%nat /\
  ((0 < i_ref (ino s i) /\ i_dev (ino s i) = dev /\ i_inum (ino s i) = inum /\ s' = upd_ino i (fun p => set_ref (i32 (i_ref p + 1)) p) s) \/
   (i_ref (ino s i) = 0 /\ s' = upd_ino i (reuse dev inum) s)).
Definition no_inodes (msg : string) : Prop := msg = "iget: no inodes"%string.
Definition dir_error (msg : string) : Prop := no_space msg \/ no_inodes msg.

Lemma iget_scan_spec l k e dev inum :
  match iget_scan l k e dev inum with
  | inl j => exists p, (k <= j)%nat /\ l !! (j - k)%nat = Some p /\ 0 < i_ref p /\ i_dev p = dev /\ i_inum p = inum
  | inr (Some j) => e = Some j \/ exists p, (k <= j)%nat /\ l !! (j - k)%nat = Some p /\ i_ref p = 0
  | inr None => True
  end.
Proof.
  revert k e; induction l as [|p l IH]; intros k e; cbn [iget_scan]; [destruct e; [by left|done]|].
  destruct ((i_ref p >? 0) && (i_dev p =? dev) && (i_inum p =? inum)) eqn:E; [exists p; rewrite Nat.sub_diag; split_and!; (done || lia)|].
  specialize (IH (S k) (if bool_decide (e = None) && (i_ref p =? 0) then Some k else e)).
  assert (Hstep : forall j q, (S k <= j)%nat -> l !! (j - S k)%nat = Some q -> (p :: l) !! (j - k)%nat = Some q).
  { intros j q Hj Hq. by replace (j - k)%nat with (S (j - S k)) by lia. }
  destruct (iget_scan l (S k) _ dev inum) as [j|[j|]]; [| |done].
  - destruct IH as (q & Hj & Hq & H1 & H2 & H3). exists q. split_and!; try done; [lia|by apply Hstep].
  - destruct IH as [IH|(q & Hj & Hq & H1)]; [|right; exists q; split_and!; try done; [lia|by apply Hstep]].
    destruct (bool_decide_reflect (e = None)) as [->|]; cbn [andb] in IH; [|by left]. destruct (Z.eqb_spec (i_ref p) 0) as [E0|]; [|by left].
    injection IH as <-. right. exists p. rewrite Nat.sub_diag. done.
Qed.

Lemma iget_tries s dev inum : tries no_inodes (iget me dev inum) s (fun i s' => held s dev inum i s').
Proof.
  unfold iget. pose proof (iget_scan_spec (f_icache s) 0 None dev inum) as Hs.
  destruct (iget_scan (f_icache s) 0 None dev inum) as [i|[i|]] eqn:E.
  - destruct Hs as (p & _ & Hp & H1 & H2 & H3). rewrite Nat.sub_0_r in Hp. assert (Ei : ino s i = p) by (unfold ino; by rewrite nth_lookup, Hp).
    apply tries_runs. rsteps. rewrite E. rsteps. split; [by eapply lookup_lt_Some|]. left. by rewrite Ei.
  - destruct Hs as [Hs|(p & _ & Hp & H1)]; [done|]. rewrite Nat.sub_0_r in Hp. assert (Ei : ino s i = p) by (unfold ino; by rewrite nth_lookup, Hp).
    apply tries_runs. rsteps. rewrite E. rsteps. split; [by eapply lookup_lt_Some|]. right. by rewrite Ei.
  - intros g Hg Hv. right. eexists _, _. split; [|reflexivity]. rewrite (bind_eq _ _ _ _ _ (g_acquire_run me g Hg)).
    rewrite (bind_eq _ _ _ _ _ (g_get_run me g (g_val g) (g_wakes g))). rewrite Hv, E. reflexivity.
Qed.

Definition looked_up (s : fs) (dp : nat) (o : option (Z * Z)) (r : option (nat * Z)) (s' : fs) : Prop :=
  match o with
  | None => r = None /\ grown s dp s'
  | Some (inum, off) => exists ip s1, r = Some (ip, off) /\ grown s dp s1 /\ held s1 (i_dev (ino s dp)) inum ip s'
  end.

Lemma looked_up_grown s dp s1 o r s2 : fs_ok s -> grown s dp s1 -> looked_up s1 dp o r s2 -> looked_up s dp o r s2.
Proof.
  intros O G. destruct o as [[inum off]|]; cbn.
  - intros (ip & s3 & -> & G3 & H). destruct (grown_size s dp s1 G) as (_ & _ & E). rewrite E in H. exists ip, s3. split_and!; try done. by eapply grown_trans.
  - intros [-> G2]. split; [done|]. by eapply grown_trans.
Qed.

Lemma dirlookup_loop_tries n dp name s k fuel N :
  dir_ok s dp N -> (k + n = N)%nat -> (n < fuel)%nat ->
  tries dir_error (dirlookup_loop me devsw fuel dp name (16 * Z.of_nat k)) s (looked_up s dp (dir_find n k (contents s dp) name)).
Proof.
  revert s k fuel; induction n as [|n IH]; intros s k fuel D Hk Hf; (destruct fuel as [|fuel]; [lia|]); cbn [dirlookup_loop dir_find]; tsteps;
    rewrite (do_size _ _ _ D).
  { replace (_ <? _) with false by lia. cbn [negb]. tsteps. split; [done|]. apply grown_refl; [apply (do_fs _ _ _ D)|apply (do_inode _ _ _ D)]. }
  replace (_ <? _) with true by lia. cbn [negb]. tsteps.
  eapply tries_weaken; [eapply tries_mono; [apply (read_entry s dp N k D); lia|]|intros msg Hm; exact (or_introl Hm)].
  intros r s1 [G ->]. cbn [fst snd]. change (16 =? 16) with true. cbn [negb]. pose proof (grown_dir s dp s1 N D G) as D1.
  unfold matches. destruct (Z.eqb_spec (de_inum (entry_at (contents s dp) k)) 0) as [E0|E0]; cbn [negb andb].
  all: assert (Hrest : tries dir_error (dirlookup_loop me devsw fuel dp name (16 * Z.of_nat k + 16)) s1
        (looked_up s dp (dir_find n (S k) (contents s dp) name))); [|first [exact Hrest|idtac]].
  1,2: replace (16 * Z.of_nat k + 16) with (16 * Z.of_nat (S k)) by lia; rewrite <- (grown_contents s dp s1 (do_inode _ _ _ D) G);
    eapply tries_mono; [apply (IH s1 (S k) fuel D1); lia|]; intros r' s2; apply looked_up_grown; [apply (do_fs _ _ _ D)|done].
  destruct (Z.eqb_spec (namecmp name (de_name (entry_at (contents s dp) k))) 0) as [En|En]; [|exact Hrest]. tsteps.
  destruct (grown_size s dp s1 G) as (_ & _ & ->).
  eapply tries_weaken; [eapply tries_mono; [apply iget_tries|]|intros msg Hm; exact (or_intror Hm)].
  intros i s2 Hh. tsteps. by exists i, s1.
Qed.

Lemma dirlookup_tries dp name s n :
  dir_ok s dp n -> tries dir_error (dirlookup me devsw dp name) s (looked_up s dp (dir_lookup (contents s dp) name)).
Proof.
  intros D. unfold dirlookup, dir_lookup. tsteps. rewrite (do_type _ _ _ D), (do_size _ _ _ D). change (T_DIR =? T_DIR) with true. cbn [negb].
  destruct (dir_ok_length s dp n D) as [_ ->]. change 0 with (16 * Z.of_nat 0). apply (dirlookup_loop_tries n dp name s 0 _ n D); [lia|].
  rewrite Z.mul_comm, Z.div_mul by lia. lia.
Qed.

(** *** Adding an entry *)

Lemma dir_find_ext n k C C' name :
  (forall j, (k <= j < k + n)%nat -> entry_at C' j = entry_at C j \/ (matches name (entry_at C' j) = false /\ matches name (entry_at C j) = false)) ->
  dir_find n k C' name = dir_find n k C name.
Proof.
  revert k; induction n as [|n IH]; intros k H; cbn [dir_find]; [done|]. rewrite (IH (S k)) by (intros j Hj; apply H; lia).
  destruct (H k) as [->|[-> ->]]; [lia|done|done].
Qed.
Lemma dir_find_add n m k C name : dir_find (n + m) k C name = match dir_find n k C name with Some x => Some x | None => dir_find m (k + n) C name end.
Proof.
  revert k; induction n as [|n IH]; intros k; cbn [dir_find Nat.add]; [by rewrite Nat.add_0_r|]. destruct (matches _ _); [done|].
  rewrite IH. by replace (S k + n)%nat with (k + S n)%nat by lia.
Qed.
Lemma entry_lookup C j x : entry_at C j !! x = if decide (x < 16)%nat then C !! (16 * j + x)%nat else None.
Proof.
  unfold entry_at. case_decide; [by rewrite lookup_take_lt, lookup_drop|]. by rewrite lookup_take_ge by lia.
Qed.

(** [C] with entry [k] replaced, or added at the end. *)
Definition with_entry (C : list Z) (k : nat) (de : list Z) : list Z := take (16 * k) C ++ de ++ drop (16 * k + 16) C.
Section Entry.
Context (C : list Z) (n k : nat) (de : list Z).
Hypothesis (HC : length C = (16 * n)%nat) (Hk : (k <= n)%nat) (Hde : length de = 16%nat).
Lemma with_entry_length : length (with_entry C k de) = (16 * Nat.max n (k + 1))%nat.
Proof. unfold with_entry. rewrite !length_app, length_take, length_drop, Hde. lia. Qed.
Lemma with_entry_lookup y : with_entry C k de !! y = if decide (16 * k <= y < 16 * k + 16)%nat then de !! (y - 16 * k)%nat else C !! y.
Proof.
  unfold with_entry. assert (Hl : length (take (16 * k) C) = (16 * k)%nat) by (rewrite length_take; lia).
  destruct (decide (y < 16 * k)%nat) as [H1|H1].
  - rewrite lookup_app_l by lia. rewrite lookup_take_lt by lia. by rewrite decide_False by lia.
  - rewrite lookup_app_r by lia. rewrite Hl. destruct (decide (y < 16 * k + 16)%nat) as [H2|H2].
    + rewrite lookup_app_l by lia. by rewrite decide_True by lia.
    + rewrite lookup_app_r by lia. rewrite lookup_drop, decide_False by lia. f_equal. lia.
Qed.
Lemma entry_with_entry j : entry_at (with_entry C k de) j = if decide (j = k) then de else entry_at C j.
Proof.
  apply list_eq. intros x. rewrite entry_lookup. case_decide as Hx.
  - rewrite with_entry_lookup. destruct (decide (j = k)) as [->|Hj].
    + rewrite decide_True by lia. f_equal. lia.
    + rewrite decide_False by lia. rewrite entry_lookup. by rewrite decide_True.
  - case_decide as Hj; [|rewrite entry_lookup; by rewrite decide_False]. symmetry. apply lookup_ge_None_2. lia.
Qed.

(** The new entry is found, the others are where they were. *)
Lemma lookup_with_entry name :
  (k = n \/ de_inum (entry_at C k) = 0) -> matches name de = false -> dir_lookup (with_entry C k de) name = dir_lookup C name.
Proof.
  intros Hfree Hm. unfold dir_lookup. rewrite with_entry_length, HC. rewrite !(Nat.mul_comm 16), !Nat.div_mul by lia.
  assert (Hold : forall j, (0 <= j < 0 + n)%nat -> entry_at (with_entry C k de) j = entry_at C j \/
    (matches name (entry_at (with_entry C k de) j) = false /\ matches name (entry_at C j) = false)).
  { intros j Hj. rewrite entry_with_entry. case_decide as E; [right|by left]. subst j. split; [done|]. destruct Hfree as [->|Hz]; [lia|].
    unfold matches. by rewrite Hz. }
  replace (Nat.max n (k + 1)) with (n + (Nat.max n (k + 1) - n))%nat by lia. rewrite dir_find_add, (dir_find_ext n 0 C _ name Hold).
  destruct (dir_find n 0 C name); [done|]. destruct (Nat.max n (k + 1) - n)%nat as [|[|x]] eqn:Ex; [done| |lia]. cbn [dir_find].
  rewrite entry_with_entry. replace (0 + n)%nat with k by lia. rewrite decide_True by done. by rewrite Hm.
Qed.
Lemma lookup_new_entry name :
  (k = n \/ de_inum (entry_at C k) = 0) -> matches name de = true -> dir_lookup C name = None ->
  dir_lookup (with_entry C k de) name = Some (de_inum de, 16 * Z.of_nat k).
Proof.
  intros Hfree Hm Hno. unfold dir_lookup in *. rewrite with_entry_length. rewrite HC in Hno. rewrite (Nat.mul_comm 16), Nat.div_mul in Hno by lia. rewrite (Nat.mul_comm 16), Nat.div_mul by lia.
  replace n with (k + (n - k))%nat in Hno by lia. rewrite dir_find_add in Hno. destruct (dir_find k 0 C name) eqn:Ek; [done|].
  replace (Nat.max n (k + 1)) with (k + (Nat.max n (k + 1) - k))%nat by lia. rewrite dir_find_add.
  rewrite (dir_find_ext k 0 C) by (intros j Hj; left; rewrite entry_with_entry; by rewrite decide_False by lia). rewrite Ek.
  destruct (Nat.max n (k + 1) - k)%nat as [|x] eqn:Ex; [lia|]. cbn [dir_find Nat.add]. rewrite entry_with_entry, decide_True by done. by rewrite Hm.
Qed.
End Entry.

Lemma name_field_length name : length (name_field name) = 14%nat.
Proof. unfold name_field. rewrite length_take, length_app, length_replicate. unfold DIRSIZ. lia. Qed.
Lemma dirent_length inum name : length (dirent inum name) = 16%nat.
Proof. unfold dirent. rewrite length_app, name_field_length, put16_length. done. Qed.
Lemma dirent_inum inum name : de_inum (dirent inum name) = u16 inum.
Proof.
  unfold de_inum, dirent. transitivity (get16 (put16 (replicate 2 0) 0 (u16 inum)) 0).
  - apply get_le_ext. intros k Hk. unfold byte_at. apply app_nth1. rewrite put16_length. cbn. lia.
  - apply get16_put16; [cbn; lia|]. unfold u16. apply Z.mod_pos_bound. lia.
Qed.
Lemma dirent_name inum name : de_name (dirent inum name) = name_field name.
Proof. unfold de_name, dirent. apply drop_app_length'. by rewrite put16_length. Qed.
(** A name equals itself, padded or cut to fourteen bytes. *)
Lemma strncmp_padded n p q : (forall j, (j < n)%nat -> nth j p 0 = nth j q 0) -> strncmp_list n p q = 0.
Proof.
  revert p q; induction n as [|n IH]; intros p q H; cbn [strncmp_list]; [done|].
  assert (E : hd 0 p = hd 0 q) by (pose proof (H 0%nat ltac:(lia)) as H0; by destruct p, q). rewrite E, Z.eqb_refl. destruct (ctrue (hd 0 q)); cbn [andb]; [|lia].
  apply IH. intros j Hj. pose proof (H (S j) ltac:(lia)) as Hs. destruct p, q; cbn [nth tl] in *; try done; by destruct j.
Qed.
Lemma namecmp_self name : namecmp name (name_field name) = 0.
Proof.
  apply strncmp_padded. intros j Hj. unfold name_field. rewrite !nth_lookup, lookup_take_lt by done.
  destruct (decide (j < length name)%nat) as [Hl|Hl]; [by rewrite lookup_app_l|]. rewrite lookup_app_r by lia.
  rewrite (lookup_ge_None_2 name) by lia. destruct (replicate DIRSIZ 0 !! (j - length name)%nat) as [x|] eqn:E; [|done]. by apply lookup_replicate in E as [-> _].
Qed.
Lemma dirent_matches name' inum name : matches name' (dirent inum name) = negb (u16 inum =? 0) && (namecmp name' (name_field name) =? 0).
Proof. unfold matches. by rewrite dirent_inum, dirent_name. Qed.
Lemma dirent_bytes inum name : Forall byte_ok name -> Forall byte_ok (dirent inum name).
Proof.
  intros Hn. unfold dirent, name_field. apply Forall_app. split.
  - apply put_le_bytes, Forall_replicate. unfold byte_ok. lia.
  - apply Forall_take, Forall_app. split; [done|]. apply Forall_replicate. unfold byte_ok. lia.
Qed.

Lemma empty_slot_tries m dp s k fuel n :
  dir_ok s dp n -> (k + m = n)%nat -> (m < fuel)%nat ->
  tries no_space (empty_slot devsw fuel dp (16 * Z.of_nat k)) s (fun off s' => grown s dp s' /\
    exists k', (k' <= n)%nat /\ off = 16 * Z.of_nat k' /\ (k' = n \/ de_inum (entry_at (contents s dp) k') = 0) /\
      forall j, (k <= j < k')%nat -> de_inum (entry_at (contents s dp) j) <> 0).
Proof.
  revert s k fuel; induction m as [|m IH]; intros s k fuel D Hk Hf; (destruct fuel as [|fuel]; [lia|]); cbn [empty_slot]; tsteps; rewrite (do_size _ _ _ D).
  { replace (_ <? _) with false by lia. cbn [negb]. tsteps. split; [apply grown_refl; [apply (do_fs _ _ _ D)|apply (do_inode _ _ _ D)]|].
    exists k. split_and!; lia. }
  replace (_ <? _) with true by lia. cbn [negb]. tsteps. eapply tries_mono; [apply (read_entry s dp n k D); lia|].
  intros r s1 [G ->]. cbn [fst snd]. change (16 =? 16) with true. cbn [negb].
  destruct (Z.eqb_spec (de_inum (entry_at (contents s dp) k)) 0) as [E0|E0].
  - tsteps. split; [done|]. exists k. split_and!; try done; [lia|by right|lia].
  - replace (16 * Z.of_nat k + 16) with (16 * Z.of_nat (S k)) by lia. eapply tries_mono; [apply (IH s1 (S k) fuel (grown_dir s dp s1 n D G)); lia|].
    intros off s2 [G2 H2]. rewrite (grown_contents s dp s1 (do_inode _ _ _ D) G) in H2. split.
    2: { destruct H2 as (k' & H2 & H3 & H4 & H5). exists k'. split_and!; try done. intros j Hj. destruct (decide (j = k)) as [->|]; [done|]. apply H5. lia. }
    eapply grown_trans; [apply (do_fs _ _ _ D)|done|done].
Qed.

(** [dirlookup] returns the inode of the first entry of the directory that has
    the name, and the entry's offset, or 0 if there is none.  It changes neither the
    directory nor other files; it panics only when blocks, the log or the inode table
    run out. *)
Theorem dirlookup_finds dp name s n :
  dir_ok s dp n -> tries dir_error (dirlookup me devsw dp name) s (looked_up s dp (dir_lookup (contents s dp) name)).
Proof. apply dirlookup_tries. Qed.

(** C40: [dirlink] of a name the directory does not have puts an entry for it in the
    first free slot, or at the end if there is none, as long as the directory has not
    reached the largest size: the name is then found there with its inode number, every
    other name as before, and nothing outside the directory changes.  The one way to fail
    is a panic for want of a free block, of a free entry of the inode cache or of room in
    the log. *)
Theorem dirlink_adds_entry dp name inum s n :
  dir_ok s dp n -> 16 * (Z.of_nat n + 1) <= MAXFILE * BSIZE -> Forall byte_ok name -> 0 < inum < 2 ^ 16 ->
  dir_lookup (contents s dp) name = None ->
  tries dir_error (dirlink me mypid devsw dp name inum) s (fun r s' => r = 0 /\ (exists n', dir_ok s' dp n') /\ keeps s dp s' /\
    (exists k, (k <= n)%nat /\ (k = n \/ de_inum (entry_at (contents s dp) k) = 0) /\
       (forall j, (j < k)%nat -> de_inum (entry_at (contents s dp) j) <> 0) /\
       contents s' dp = with_entry (contents s dp) k (dirent inum name) /\
       dir_lookup (contents s' dp) name = Some (inum, 16 * Z.of_nat k)) /\
    forall name', namecmp name' (name_field name) <> 0 -> dir_lookup (contents s' dp) name' = dir_lookup (contents s dp) name').
Proof.
  intros D Hmax Hby Hin Hno. unfold dirlink. tsteps. eapply tries_mono; [apply (dirlookup_tries dp name s n D)|]. rewrite Hno.
  intros r s1 [-> G1]. pose proof (grown_dir s dp s1 n D G1) as D1. pose proof (grown_contents s dp s1 (do_inode _ _ _ D) G1) as C1. tsteps.
  rewrite (do_size _ _ _ D1). change 0 with (16 * Z.of_nat 0) at 2. eapply tries_weaken; [eapply tries_mono; [apply (empty_slot_tries n dp s1 0 _ n D1); [lia|]|]|intros msg Hm; exact (or_introl Hm)].
  { rewrite Z.mul_comm, Z.div_mul by lia. lia. }
  rewrite C1. intros off s2 (G2 & k & Hk & -> & Hfree & Hfirst). pose proof (grown_dir s1 dp s2 n D1 G2) as D2.
  pose proof (grown_contents s1 dp s2 (do_inode _ _ _ D1) G2) as C2. rewrite C1 in C2. pose proof (grown_trans s dp s1 s2 (do_fs _ _ _ D) G1 G2) as G.
  destruct D2 as [O2 I2 T2 S2]. assert (HM : MAXFILE * BSIZE = 71680) by reflexivity. tsteps.
  eapply tries_weaken; [eapply tries_mono; [apply (writei_tries devsw s2 dp (dirent inum name) (16 * Z.of_nat k) O2 I2)|]|intros msg Hm; exact (or_introl Hm)].
  - rewrite T2. discriminate.
  - lia.
  - rewrite dirent_length. lia.
  - by apply dirent_bytes.
  - rewrite dirent_length, S2. replace (_ || _) with false by lia. intros r s3 (-> & O3 & I3 & K3 & E3 & Sz & C3). change (Z.of_nat 16 =? 16) with true. cbn [negb]. tsteps.
    destruct (dir_ok_length s dp n D) as [HC _].
    assert (EC : contents s3 dp = with_entry (contents s dp) k (dirent inum name)).
    { rewrite C3, C2. unfold with_entry. do 2 f_equal; [lia|]. f_equal. f_equal. lia. }
    assert (Hm : matches name (dirent inum name) = true).
    { rewrite dirent_matches, namecmp_self. unfold u16. rewrite Z.mod_small by lia. by replace (inum =? 0) with false by lia. }
    split; [done|]. split; [|split; [|split]].
    + exists (Nat.max n (k + 1)). constructor; [done|done| |lia]. change (i_type (set_size 0 (set_addrs [] (ino s3 dp))) = T_DIR). by rewrite E3.
    + apply (fs_keeps_trans s dp s2); [apply (do_fs _ _ _ D)|done|apply (gw_keeps _ _ _ G)|done].
    + exists k. split_and!; try done; [intros j Hj; apply Hfirst; lia|]. rewrite EC, (lookup_new_entry _ n k _ HC Hk (dirent_length inum name) name Hfree Hm Hno), dirent_inum.
      unfold u16. by rewrite Z.mod_small by lia.
    + intros name' Hn'. rewrite EC. apply (lookup_with_entry _ n k _ HC Hk (dirent_length inum name) name' Hfree). rewrite dirent_matches.
      rewrite (proj2 (Z.eqb_neq _ _) Hn'). apply andb_false_r.
Qed.
End Dirs.

(** [demo_fs] with an empty directory as its first file. *)
Definition demo_dir : fs := set_icache [set_type T_DIR (demo_file 1); demo_file 2] demo_fs.
Lemma demo_dir_ok : dir_ok demo_dir 0 0.
Proof.
  assert (Ha : forall k, addr demo_dir 0 k = 0) by (intros k; exact (demo_addr 0 k ltac:(lia))).
  pose proof demo_fs_ok as [O1 O2 O3 O4 O5 O6 O7]. constructor; [by constructor| |done|done]. constructor; try done.
  - cbn. lia.
  - intros k Hk H. by rewrite Ha in H.
  - intros k k' _ _ H. by rewrite Ha in H.
Qed.
Definition demo_dir_g : guarded fs := mk_g (mk_cpu 0 false true) Spinlock.initlock demo_dir [].
Definition dot : list Z := [46].

Lemma dirlookup_finds_witness :
  tries dir_error (dirlookup 0 no_dev 0 dot) demo_dir (fun r _ => r = None).
Proof.
  eapply tries_mono; [apply (dirlookup_finds 0 no_dev 0 dot demo_dir 0 demo_dir_ok)|]. intros r s' H. exact (proj1 H).
Defined.

(** A directory of two entries, the first of them free. *)
Definition gap_dir : fs := block_fs 1 T_DIR 32 (replicate 16 0 ++ dirent 1 [46; 46] ++ replicate 480 0).
Lemma gap_dir_ok : dir_ok gap_dir 0 2.
Proof.
  constructor; [| |done|done].
  - apply block_fs_ok; [lia|]. split; [done|]. apply (bool_decide_unpack (Forall (fun x => 0 <= x < 256) _)). vm_compute. exact I.
  - apply block_fs_inode. lia.
Qed.
Lemma dirlink_adds_entry_witness :
  tries dir_error (dirlink 0 7 no_dev 0 dot 1) gap_dir (fun r s' => r = 0 /\ dir_lookup (contents s' 0) dot = Some (1, 0)).
Proof.
  eapply tries_mono.
  - apply (dirlink_adds_entry 0 7 no_dev 0 dot 1 gap_dir 2 gap_dir_ok ltac:(discriminate)); [|lia|by vm_compute].
    apply Forall_cons. split; [unfold byte_ok; lia|by apply Forall_nil].
  - intros r s' (-> & _ & _ & (k & Hk & _ & Hj & _ & H) & _). split; [done|]. destruct k as [|k]; [exact H|].
    exfalso. apply (Hj 0%nat); [lia|]. by vm_compute.
Defined.

(** [link] to a name that is "." in its directory, which [sys_link] does with the
    directory locked: [dirlink] finds the directory itself and [iput] waits for the
    lock its caller holds. *)
Lemma dirlink_dot_deadlocks :
  sleeps_on ((dirlink 0 7 no_dev 0 dot 1 ;; ilock 0 7 (Some 0%nat) ;; dirlink 0 7 no_dev 0 dot 2) demo_dir_g) = Some (CSleeplock (ichan 0)).
Proof. by vm_compute. Qed.
