(* ===== verification/Mkfs.v ===== *)
(** The program that makes the file-system image ([mkfs.c]).

    The image file is a list of sectors; the host's [lseek], [read] and [write] on it
    succeed, and reading past its end gives no bytes.  [host path] is what the host's
    [read]s of the file [path] return up to its end, [None] a file that cannot be
    opened.  The host is little-endian, as [xshort] and [xint] allow it to be.  [exit(1)]
    and a failed [assert] are [Panic]. *)

From S2P Require Import Prelude CString Locks Guarded Bytes Fs.

Definition FSSIZE : Z := 1000.
Definition NINODES : Z := 200.

(** The bytes of [y], in the order [a[0]], [a[1]], ..., read as an integer. *)
Definition xshort (x : Z) : Z := get16 [u8 x; u8 (Z.shiftr x 8)] 0.
Definition xint (x : Z) : Z := get32 [u8 x; u8 (Z.shiftr x 8); u8 (Z.shiftr x 16); u8 (Z.shiftr x 24)] 0.

Definition nbitmap : Z := FSSIZE / (BSIZE * 8) + 1.
Definition ninodeblocks : Z := NINODES / IPB + 1.
Definition nlog : Z := FS_LOGSIZE.
Definition nmeta : Z := 2 + nlog + ninodeblocks + nbitmap.
Definition nblocks : Z := FSSIZE - nmeta.
Definition sb : superblock :=
  mk_sb (xint FSSIZE) (xint nblocks) (xint NINODES) (xint nlog) (xint 2) (xint (2 + nlog)) (xint (2 + nlog + ninodeblocks)).
(** [memset] and [memmove] of [sb] to a sector. *)
Definition sb_sector : block :=
  put_words (replicate 512 0) 0
    [sb_size sb; sb_nblocks sb; sb_ninodes sb; sb_nlog sb; sb_logstart sb; sb_inodestart sb; sb_bmapstart sb].

Record image := mk_image {
  m_img : list block;
  m_freeinode : Z;
  m_freeblock : Z }.
Definition set_img (l : list block) (m : image) : image := mk_image l (m_freeinode m) (m_freeblock m).
Definition set_freeinode (v : Z) (m : image) : image := mk_image (m_img m) v (m_freeblock m).
Definition set_freeblock (v : Z) (m : image) : image := mk_image (m_img m) (m_freeinode m) v.

(** The sector at offset [sec * BSIZE], a product of unsigned integers. *)
Definition sector (sec : Z) : nat := Z.to_nat (u32 (sec * BSIZE) / BSIZE).
(** A [write] past the end leaves a gap of zeros. *)
Definition write_at (l : list block) (k : nat) (d : block) : list block :=
  if (k <? length l)%nat then <[k := d]> l else l ++ replicate (k - length l) (replicate 512 0) ++ [d].

Section Mkfs.
Notation I := (M image).

Definition wsect (sec : Z) (buf : block) : I unit := modify (fun m => set_img (write_at (m_img m) (sector sec) buf) m).
Definition rsect (sec : Z) : I block :=
  l ← gets m_img;
  match l !! sector sec with Some d => mret d | None => panic "read" end.

(** A [struct dinode] is its 64 bytes. *)
Definition rinode (inum : Z) : I (list Z) :=
  buf ← rsect (IBLOCK inum sb);
  mret (take 64 (drop (di_off inum) buf)).
Definition winode (inum : Z) (din : list Z) : I unit :=
  buf ← rsect (IBLOCK inum sb);
  wsect (IBLOCK inum sb) (splice buf (di_off inum) din).

Definition din_size (din : list Z) : Z := get32 din 8.
Definition din_addr (din : list Z) (k : Z) : Z := get32 din (12 + 4 * Z.to_nat k).
Definition set_din_size (v : Z) (din : list Z) : list Z := put32 din 8 v.
Definition set_din_addr (k v : Z) (din : list Z) : list Z := put32 din (12 + 4 * Z.to_nat k) v.

Definition new_dinode (type : Z) : list Z :=
  put32 (put16 (put16 (replicate 64 0) 0 (xshort type)) 6 (xshort 1)) 8 (xint 0).
Definition ialloc (type : Z) : I Z :=
  inum ← gets m_freeinode;
  modify (set_freeinode (u32 (inum + 1))) ;;
  winode inum (new_dinode type) ;;
  mret inum.

(** [freeblock++] *)
Definition take_block : I Z :=
  b ← gets m_freeblock;
  modify (set_freeblock (u32 (b + 1))) ;;
  mret b.

Fixpoint mark_used (n : nat) (i : Z) (buf : block) : block :=
  match n with
  | O => buf
  | S n' => mark_used n' (i + 1) (set_bit buf i)
  end.
(** The messages it prints are left out. *)
Definition balloc (used : Z) : I unit :=
  if negb (used <? BSIZE * 8) then panic "used < BSIZE*8"
  else wsect (sb_bmapstart sb) (mark_used (Z.to_nat used) 0 (replicate 512 0)).

(** The block of the file that holds block [fbn], allocated where there is none. *)
Definition file_block (din : list Z) (fbn : Z) : I (list Z * Z) :=
  if fbn <? NDIRECT then
    din ← (if xint (din_addr din fbn) =? 0 then b ← take_block; mret (set_din_addr fbn (xint b) din) else mret din);
    mret (din, xint (din_addr din fbn))
  else
    din ← (if xint (din_addr din NDIRECT) =? 0 then b ← take_block; mret (set_din_addr NDIRECT (xint b) din) else mret din);
    indirect ← rsect (xint (din_addr din NDIRECT));
    let o := (4 * Z.to_nat (fbn - NDIRECT))%nat in
    indirect ← (if get32 indirect o =? 0 then
                  b ← take_block;
                  wsect (xint (din_addr din NDIRECT)) (put32 indirect o (xint b)) ;;
                  mret (put32 indirect o (xint b))
                else mret indirect);
    mret (din, xint (get32 indirect o)).
(** The loop, [p] being the bytes left; every turn writes one of them at least. *)
Fixpoint iappend_loop (fuel : nat) (din : list Z) (off : Z) (p : list Z) : I (list Z * Z) :=
  match p, fuel with
  | [], _ => mret (din, off)
  | _, O => faults OutOfFuel
  | _, S f =>
      let fbn := off / BSIZE in
      if negb (fbn <? MAXFILE) then panic "fbn < MAXFILE"
      else
        r ← file_block din fbn;
        let '(din, x) := r in
        let n1 := Z.min (Z.of_nat (length p)) (u32 ((fbn + 1) * BSIZE - off)) in
        buf ← rsect x;
        wsect x (splice buf (Z.to_nat (off - fbn * BSIZE)) (take (Z.to_nat n1) p)) ;;
        iappend_loop f din (u32 (off + n1)) (drop (Z.to_nat n1) p)
  end.
Definition iappend (inum : Z) (p : list Z) : I unit :=
  din ← rinode inum;
  r ← iappend_loop (length p) din (xint (din_size din)) p;
  winode inum (set_din_size (xint (snd r)) (fst r)).

Fixpoint zero_sectors (n : nat) (i : Z) : I unit :=
  match n with
  | O => mret tt
  | S n' => wsect i (replicate 512 0) ;; zero_sectors n' (i + 1)
  end.
Fixpoint append_all (inum : Z) (reads : list (list Z)) : I unit :=
  match reads with
  | [] => mret tt
  | buf :: reads' => iappend inum buf ;; append_all inum reads'
  end.
(** [++argv[i]] over a leading underscore. *)
Definition strip_underscore (name : list Z) : list Z :=
  match name with
  | [] => []
  | c :: name' => if c =? 95 then name' else name
  end.

Context (host : list Z -> option (list (list Z))).
Fixpoint add_files (rootino : Z) (argv : list (list Z)) : I unit :=
  match argv with
  | [] => mret tt
  | a :: argv' =>
      if bool_decide (47 ∈ a) then panic "index(argv[i], '/') == 0"
      else
        match host a with
        | None => panic "open"
        | Some reads =>
            inum ← ialloc T_FILE;
            iappend rootino (dirent (xshort inum) (strip_underscore a)) ;;
            append_all inum reads ;;
            add_files rootino argv'
        end
  end.
(** The image file [argv[1]] can be opened. *)
Definition main (argv : list (list Z)) : I unit :=
  match argv with
  | _ :: _ :: files =>
      modify (fun m => set_freeblock nmeta (set_img [] m)) ;;
      zero_sectors (Z.to_nat FSSIZE) 0 ;;
      wsect 1 sb_sector ;;
      rootino ← ialloc T_DIR;
      if negb (rootino =? ROOTINO) then panic "rootino == ROOTINO"
      else
        iappend rootino (dirent (xshort rootino) [46]) ;;
        iappend rootino (dirent (xshort rootino) [46; 46]) ;;
        add_files rootino files ;;
        din ← rinode rootino;
        let off := xint (din_size din) in
        let off := u32 ((off / BSIZE + 1) * BSIZE) in
        winode rootino (set_din_size (xint off) din) ;;
        used ← gets m_freeblock;
        balloc used
  | _ => panic "Usage: mkfs fs.img files..."
  end.
(** The variables as they are initialized. *)
Definition initial : image := mk_image [] 1 0.
End Mkfs.
