(* ===== verification/MkfsImage.v ===== *)
(** What [mkfs.c] makes: an image that the kernel finds to be a file system with the
    given files.

    [slots D v n k] is the block number in slot [k] of inode [n + 1], for the inodes
    whose bytes are [D] and the sectors [v].  [built m F] describes the image between
    two steps: [F] lists type and contents of the inodes made so far.  [mounted] and
    [loads] say that a kernel has the image as its disk, and an inode of it in memory. *)

From S2P Require Import Prelude CString Locks Guarded Bytes Fs FsBlocks FsInode FsDir Mkfs.

(** ** Words and sectors *)

Lemma xint_id x : in_u32 x -> xint x = x.
Proof.
  unfold in_u32, xint, get32, u8. intros Hx. cbn. rewrite !Z.shiftr_div_pow2 by lia. change (2 ^ 8) with 256. change (2 ^ 16) with (256 * 256).
  change (2 ^ 24) with (256 * 256 * 256). rewrite <- !Z.div_div by lia. change (2 ^ 32) with 4294967296 in Hx.
  pose proof (Z.div_mod x 256). pose proof (Z.div_mod (x / 256) 256). pose proof (Z.div_mod (x / 256 / 256) 256).
  assert (0 <= x / 256 / 256 / 256 < 256) by (split; [repeat apply Z.div_pos; lia|repeat (apply Z.div_lt_upper_bound; [lia|]); lia]).
  rewrite (Z.mod_small (x / 256 / 256 / 256)) by lia. lia.
Qed.
Lemma xshort_id x : 0 <= x < 2 ^ 16 -> xshort x = x.
Proof.
  unfold xshort, get16, u8. intros Hx. cbn. rewrite Z.shiftr_div_pow2 by lia. change (2 ^ 8) with 256. change (2 ^ 16) with 65536 in Hx.
  pose proof (Z.div_mod x 256). assert (0 <= x / 256 < 256) by (split; [apply Z.div_pos; lia|apply Z.div_lt_upper_bound; lia]).
  rewrite (Z.mod_small (x / 256)) by lia. lia.
Qed.
Lemma get32_u32 b o : Forall byte_ok b -> in_u32 (get32 b o).
Proof. apply (get_le_range 4). Qed.
Lemma sector_id b : 0 <= b < FSSIZE -> sector b = Z.to_nat b.
Proof. unfold FSSIZE, sector, BSIZE. intros Hb. rewrite u32_small by (unfold in_u32; lia). by rewrite Z.div_mul. Qed.

Definition vw (m : image) (b : Z) : block := nth (Z.to_nat b) (m_img m) [].
Lemma rsect_run m b : length (m_img m) = Z.to_nat FSSIZE -> 0 <= b < FSSIZE -> rsect b m = Ret (vw m b) m.
Proof.
  intros Hl Hb. unfold rsect, vw. munfold. rewrite sector_id by done.
  destruct (lookup_lt_is_Some_2 (m_img m) (Z.to_nat b)) as [d Hd]; [lia|]. rewrite Hd. by rewrite (nth_lookup_Some _ _ _ _ Hd).
Qed.
Definition put_sector (b : Z) (d : block) (m : image) : image := set_img (<[Z.to_nat b := d]> (m_img m)) m.
Lemma wsect_run m b d : length (m_img m) = Z.to_nat FSSIZE -> 0 <= b < FSSIZE -> wsect b d m = Ret tt (put_sector b d m).
Proof.
  intros Hl Hb. unfold wsect, write_at, put_sector. munfold. rewrite sector_id by done. by rewrite (proj2 (Nat.ltb_lt _ _)) by lia.
Qed.
Lemma vw_put b d m x : length (m_img m) = Z.to_nat FSSIZE -> 0 <= b < FSSIZE -> 0 <= x -> vw (put_sector b d m) x = fupd b d (vw m) x.
Proof.
  intros Hl Hb Hx. unfold vw, put_sector, fupd, set_img. cbn. rewrite !nth_lookup. destruct (Z.eqb_spec x b) as [->|].
  - by rewrite list_lookup_insert_eq by lia.
  - by rewrite list_lookup_insert_ne by lia.
Qed.
Lemma put_sector_length b d m : length (m_img (put_sector b d m)) = length (m_img m).
Proof. apply length_insert. Qed.

(** ** Block numbers *)

Definition dnode (d : list Z) : inode := get_dinode d 0 inode_zero.
Definition slots (D : list (list Z)) (v : Z -> block) (n : nat) (k : Z) : Z :=
  match D !! n with Some d => slot_addr v (dnode d) k | None => 0 end.
(** Block [bn] of the file, as [fdata]. *)
Definition fd (D : list (list Z)) (v : Z -> block) (n : nat) (bn : Z) : block :=
  let a := slots D v n (fslot bn) in if a =? 0 then replicate 512 0 else v a.
Definition din_ok (d : list Z) : Prop := length d = 64%nat /\ Forall byte_ok d.
Definition is_slot (k : Z) : Prop := 0 <= k <= 140.

Lemma dnode_addr d k : 0 <= k <= 12 -> nth (Z.to_nat k) (i_addrs (dnode d)) 0 = din_addr d k.
Proof.
  intros Hk. unfold dnode, get_dinode, din_addr. cbn [i_addrs]. rewrite nth_lookup, list_lookup_fmap, lookup_seq_lt by lia. done.
Qed.
Lemma slots_din D v n d k : D !! n = Some d -> 0 <= k ->
  slots D v n k = if k <=? 12 then din_addr d k else if din_addr d 12 =? 0 then 0 else get32 (v (din_addr d 12)) (4 * Z.to_nat (k - 13)).
Proof.
  intros Hn Hk. unfold slots. rewrite Hn. unfold slot_addr. change 12%nat with (Z.to_nat 12). rewrite (dnode_addr d 12) by lia.
  destruct (Z.leb_spec k 12); [by rewrite dnode_addr by lia|done].
Qed.
Lemma slots_low D v n d k : D !! n = Some d -> 0 <= k <= 12 -> slots D v n k = din_addr d k.
Proof. intros Hn Hk. rewrite (slots_din _ _ _ _ _ Hn) by lia. by replace (k <=? 12) with true by lia. Qed.
Lemma din_addr_set d k k' b : length d = 64%nat -> in_u32 b -> 0 <= k <= 12 -> 0 <= k' <= 12 ->
  din_addr (set_din_addr k b d) k' = if k' =? k then b else din_addr d k'.
Proof.
  intros Hl Hb Hk Hk'. unfold din_addr, set_din_addr. destruct (Z.eqb_spec k' k) as [->|]; [apply get32_put32; [lia|done]|apply get32_put32_ne; lia].
Qed.
Lemma put32_ok d o b : din_ok d -> din_ok (put32 d o b).
Proof. intros [Hl Hf]. split; [by rewrite put32_length|by apply put_le_bytes]. Qed.

Record laid (fb : Z) (v : Z -> block) (D : list (list Z)) : Prop := mk_laid {
  la_range : nmeta <= fb <= FSSIZE;
  la_din : forall n d, D !! n = Some d -> din_ok d;
  la_block : forall b, 0 <= b < FSSIZE -> block_ok (v b);
  la_free : forall b, fb <= b < FSSIZE -> v b = replicate 512 0;
  la_slots : forall n k, is_slot k -> slots D v n k <> 0 -> nmeta <= slots D v n k < fb;
  la_inj : forall n k n' k', is_slot k -> is_slot k' -> slots D v n k <> 0 -> slots D v n k = slots D v n' k' -> n = n' /\ k = k' }.
(** Block [fb] becomes the one of slot [k] of inode [n]. *)
Definition installs (fb : Z) (v : Z -> block) (D : list (list Z)) (n : nat) (k : Z) (v' : Z -> block) (D' : list (list Z)) : Prop :=
  forall n' k', is_slot k' -> slots D' v' n' k' = if decide (n' = n /\ k' = k) then fb else slots D v n' k'.

Lemma nmeta_val : nmeta = 59.
Proof. done. Qed.
Ltac sizes := unfold FSSIZE, is_slot, MAXFILE, NDIRECT, NINDIRECT, BSIZE in *; rewrite ?nmeta_val in *.

Lemma installs_laid fb v D n k v' D' :
  laid fb v D -> fb < FSSIZE -> installs fb v D n k v' D' -> (forall n d, D' !! n = Some d -> din_ok d) ->
  (forall b, 0 <= b < FSSIZE -> block_ok (v' b)) -> (forall b, fb <= b < FSSIZE -> v' b = v b) -> laid (fb + 1) v' D'.
Proof.
  intros L Hfb HI Hd Hb Hv. pose proof (la_range _ _ _ L). constructor; [lia|done|done| | |].
  - intros b Hb'. rewrite Hv by lia. apply (la_free _ _ _ L). lia.
  - intros n' k' Hk'. rewrite HI by done. case_decide; [lia|]. intros Ha. pose proof (la_slots _ _ _ L n' k' Hk' Ha). lia.
  - intros n1 k1 n2 k2 H1 H2. rewrite !HI by done. repeat case_decide; intros Ha E.
    + naive_solver.
    + exfalso. pose proof (la_slots _ _ _ L n2 k2 H2 ltac:(congruence)). lia.
    + exfalso. pose proof (la_slots _ _ _ L n1 k1 H1 Ha). lia.
    + by apply (la_inj _ _ _ L).
Qed.

Lemma zero_word o : get32 (replicate 512 0) o = 0.
Proof. apply get_zeros. Qed.

Lemma din_install fb v D n d k :
  laid fb v D -> fb < FSSIZE -> D !! n = Some d -> 0 <= k <= 12 -> din_addr d k = 0 ->
  let D' := <[n := set_din_addr k fb d]> D in installs fb v D n k v D' /\ laid (fb + 1) v D'.
Proof.
  intros L Hfb Hn Hk Hz D'. pose proof (lookup_lt_Some _ _ _ Hn) as Hlt. destruct (la_din _ _ _ L n d Hn) as [Hl Hf].
  pose proof (la_range _ _ _ L) as Hr. assert (Hn' : D' !! n = Some (set_din_addr k fb d)) by (by apply list_lookup_insert_eq).
  assert (HI : installs fb v D n k v D').
  { intros n' k' Hk'. destruct (decide (n' = n)) as [->|Hne].
    - rewrite (slots_din _ _ _ _ _ Hn') , (slots_din _ _ _ _ _ Hn) by (unfold is_slot in *; lia). rewrite !(din_addr_set d k 12) by (done || sizes; unfold in_u32; lia).
      destruct (Z.leb_spec k' 12).
      + rewrite din_addr_set by (done || sizes; unfold in_u32; lia). destruct (Z.eqb_spec k' k) as [->|]; [by rewrite decide_True|by rewrite decide_False by naive_solver].
      + rewrite decide_False by lia. destruct (Z.eqb_spec 12 k) as [<-|]; [|done]. rewrite Hz. change (0 =? 0) with true. cbv iota. rewrite (la_free _ _ _ L fb) by lia.
        rewrite zero_word. by destruct (fb =? 0).
    - rewrite decide_False by naive_solver. unfold slots, D'. by rewrite list_lookup_insert_ne. }
  split; [done|]. apply (installs_laid fb v D n k); try done; [|apply (la_block _ _ _ L)].
  intros n' d'. destruct (decide (n' = n)) as [->|]; [rewrite Hn'; intros [= <-]; by apply put32_ok|].
  unfold D'. rewrite list_lookup_insert_ne by done. apply (la_din _ _ _ L).
Qed.

(** A sector [x] of one inode, its indirect block or a data block, is rewritten. *)
Lemma slots_other fb v D n k x d n' k' :
  laid fb v D -> is_slot k -> x = slots D v n k -> x <> 0 -> is_slot k' -> (k' <= 12 \/ k <> 12 \/ n' <> n) ->
  slots D (fupd x d v) n' k' = slots D v n' k'.
Proof.
  intros L Hk -> Hx Hk' Hne. destruct (D !! n') as [d'|] eqn:Hn'; [|unfold slots; by rewrite Hn'].
  rewrite !(slots_din _ _ _ _ _ Hn') by (unfold is_slot in *; lia). destruct (Z.leb_spec k' 12); [done|].
  destruct (Z.eqb_spec (din_addr d' 12) 0) as [|Ha]; [done|]. unfold fupd. destruct (Z.eqb_spec (din_addr d' 12) (slots D v n k)) as [E|]; [|done].
  exfalso. assert (E' : slots D v n' 12 = din_addr d' 12) by (by apply slots_low).
  destruct (la_inj _ _ _ L n k n' 12) as [-> ->]; (done || sizes; lia || congruence).
Qed.
Lemma ind_install fb v D n d k :
  laid fb v D -> fb < FSSIZE -> D !! n = Some d -> 12 < k <= 140 -> din_addr d 12 <> 0 -> slots D v n k = 0 ->
  let x := din_addr d 12 in
  let v' := fupd x (put32 (v x) (4 * Z.to_nat (k - 13)) fb) v in installs fb v D n k v' D /\ laid (fb + 1) v' D.
Proof.
  intros L Hfb Hn Hk Ha Hz x v'. pose proof (la_range _ _ _ L) as Hr.
  assert (Ex : x = slots D v n 12) by (symmetry; by apply slots_low).
  assert (Hx : nmeta <= x < fb) by (rewrite Ex; apply (la_slots _ _ _ L); [unfold is_slot; lia|by rewrite <- Ex]).
  assert (Bx : block_ok (v x)) by (apply (la_block _ _ _ L); sizes; lia).
  assert (HI : installs fb v D n k v' D).
  { intros n' k' Hk'. destruct (decide (n' = n /\ 12 < k')) as [[-> H12]|Hne].
    - rewrite !(slots_din _ _ _ _ _ Hn) by lia. replace (k' <=? 12) with false by lia. rewrite (proj2 (Z.eqb_neq _ _) Ha). fold x.
      unfold v' at 1, fupd. rewrite Z.eqb_refl. destruct Bx as [Bl _]. unfold is_slot in *. destruct (decide (k' = k)) as [->|].
      + rewrite decide_True by done. apply get32_put32; [lia|sizes; unfold in_u32; lia].
      + rewrite decide_False by naive_solver. apply get32_put32_ne. lia.
    - rewrite decide_False by naive_solver. apply (slots_other fb v D n 12); (done || unfold is_slot; lia). }
  split; [done|]. apply (installs_laid fb v D n k); try done; [apply (la_din _ _ _ L)| |].
  - intros b Hb. unfold v', fupd. destruct (Z.eqb_spec b x) as [->|]; [|by apply (la_block _ _ _ L)].
    destruct Bx as [Bl Bf]. split; [by rewrite put32_length|by apply put_le_bytes].
  - intros b Hb. unfold v', fupd. by rewrite (proj2 (Z.eqb_neq _ _)) by lia.
Qed.

Lemma is_slot_fslot bn : 0 <= bn < MAXFILE -> is_slot (fslot bn) /\ fslot bn <> 12.
Proof. unfold fslot. sizes. destruct (Z.ltb_spec bn 12); lia. Qed.
Lemma fslot_inj bn bn' : fslot bn = fslot bn' -> bn = bn'.
Proof. unfold fslot, NDIRECT. destruct (Z.ltb_spec bn 12), (Z.ltb_spec bn' 12); lia. Qed.

(** The data is as it was: a fresh block is zero, and nobody's data block is written. *)
Lemma installs_fd fb v D n k v' D' n' bn :
  laid fb v D -> fb < FSSIZE -> installs fb v D n k v' D' -> slots D v n k = 0 -> v' fb = v fb ->
  (forall n0 bn0, 0 <= bn0 < MAXFILE -> slots D v n0 (fslot bn0) <> 0 -> v' (slots D v n0 (fslot bn0)) = v (slots D v n0 (fslot bn0))) ->
  0 <= bn < MAXFILE -> fd D' v' n' bn = fd D v n' bn.
Proof.
  intros L Hfb HI Hz Hv Hother Hbn. destruct (is_slot_fslot bn Hbn) as [Hs _]. unfold fd. cbv zeta. rewrite !HI by done. case_decide as Hd.
  - destruct Hd as [-> Hd]. rewrite Hd, Hz. cbv iota. change (0 =? 0) with true. cbv iota.
    rewrite (proj2 (Z.eqb_neq fb 0)) by (pose proof (la_range _ _ _ L); sizes; lia). rewrite Hv. apply (la_free _ _ _ L). pose proof (la_range _ _ _ L). lia.
  - destruct (Z.eqb_spec (slots D v n' (fslot bn)) 0) as [|Ha]; [done|]. by apply Hother.
Qed.

(** Blocks have been added to the slots [K] of inode [n]. *)
Record grows (n : nat) (fb : Z) (v : Z -> block) (D : list (list Z)) (K : list Z) (fb' : Z) (v' : Z -> block) (D' : list (list Z)) : Prop := mk_grows {
  gr_laid : laid fb' v' D';
  gr_fb : fb' = fb + Z.of_nat (length K);
  gr_slots : forall n' k', is_slot k' -> slots D' v' n' k' <> 0 <-> slots D v n' k' <> 0 \/ (n' = n /\ k' ∈ K);
  gr_fd : forall n' bn, 0 <= bn < MAXFILE -> fd D' v' n' bn = fd D v n' bn;
  gr_meta : forall b, 0 <= b < nmeta -> v' b = v b;
  gr_din : forall d, D !! n = Some d -> exists d', D' = <[n := d']> D /\ take 12 d' = take 12 d }.

Lemma image_grows_refl n fb v D : laid fb v D -> grows n fb v D [] fb v D.
Proof.
  intros L. constructor; try done; [cbn; lia| |].
  - intros n' k' _. rewrite elem_of_nil. naive_solver.
  - intros d Hd. exists d. by rewrite list_insert_id.
Qed.
Lemma image_grows_trans n fb v D K fb1 v1 D1 K1 fb2 v2 D2 :
  (n < length D)%nat -> grows n fb v D K fb1 v1 D1 -> grows n fb1 v1 D1 K1 fb2 v2 D2 -> grows n fb v D (K ++ K1) fb2 v2 D2.
Proof.
  intros Hn [L1 F1 S1 E1 M1 G1] [L2 F2 S2 E2 M2 G2]. constructor; [done|rewrite length_app; lia| | | |].
  - intros n' k' Hk. rewrite S2, S1, elem_of_app by done. naive_solver.
  - intros n' bn Hbn. by rewrite E2, E1.
  - intros b Hb. by rewrite M2, M1.
  - intros d Hd. destruct (G1 d Hd) as (d1 & -> & T1). destruct (G2 d1) as (d2 & -> & T2); [by apply list_lookup_insert_eq|].
    exists d2. split; [apply list_insert_insert_eq|congruence].
Qed.
Lemma installs_nonzero fb v D n k v' D' : laid fb v D -> installs fb v D n k v' D' -> forall n' k', is_slot k' ->
  slots D' v' n' k' <> 0 <-> slots D v n' k' <> 0 \/ (n' = n /\ k' ∈ [k]).
Proof.
  intros L HI n' k' Hk. rewrite HI by done. rewrite list_elem_of_singleton. pose proof (la_range _ _ _ L). case_decide; sizes; naive_solver lia.
Qed.
Lemma din_grows fb v D n d k :
  laid fb v D -> fb < FSSIZE -> D !! n = Some d -> 0 <= k <= 12 -> din_addr d k = 0 ->
  grows n fb v D [k] (fb + 1) v (<[n := set_din_addr k fb d]> D).
Proof.
  intros L Hfb Hn Hk Hz. destruct (din_install fb v D n d k L Hfb Hn Hk Hz) as [HI L']. constructor; try done.
  - by apply (installs_nonzero fb v D n k).
  - intros n' bn Hbn. apply (installs_fd fb v D n k); try done. by rewrite (slots_low _ _ _ _ _ Hn).
  - intros d0. rewrite Hn. intros [= <-]. eexists. split; [done|]. unfold set_din_addr, put32.
    destruct (la_din _ _ _ L n d Hn) as [Hl _]. apply list_eq. intros j. destruct (decide (j < 12)%nat); [|by rewrite !lookup_take_ge by lia].
    rewrite !lookup_take_lt by done. clear -l Hl Hk. revert l. cut (forall w e o x, (12 <= o)%nat -> (j < 12)%nat -> put_le w e o x !! j = e !! j); [intros H ?; by apply H; lia|].
    clear. induction w as [|w IH]; intros e o x Ho Hj; cbn [put_le]; [done|]. rewrite IH by lia. by rewrite list_lookup_insert_ne by lia.
Qed.
Lemma ind_grows fb v D n d k :
  laid fb v D -> fb < FSSIZE -> D !! n = Some d -> 12 < k <= 140 -> din_addr d 12 <> 0 -> slots D v n k = 0 ->
  let x := din_addr d 12 in
  grows n fb v D [k] (fb + 1) (fupd x (put32 (v x) (4 * Z.to_nat (k - 13)) fb) v) D.
Proof.
  intros L Hfb Hn Hk Ha Hz x. destruct (ind_install fb v D n d k L Hfb Hn Hk Ha Hz) as [HI L']. fold x in HI, L'.
  assert (Ex : x = slots D v n 12) by (symmetry; by apply slots_low).
  assert (Hx : nmeta <= x < fb) by (rewrite Ex; apply (la_slots _ _ _ L); [unfold is_slot; lia|by rewrite <- Ex]).
  constructor; try done.
  - by apply (installs_nonzero fb v D n k).
  - intros n' bn Hbn. apply (installs_fd fb v D n k); try done; [unfold fupd; by rewrite (proj2 (Z.eqb_neq fb x)) by lia|].
    intros n0 bn0 Hbn0 H0. destruct (is_slot_fslot bn0 Hbn0) as [Hs0 H12]. unfold fupd. destruct (Z.eqb_spec (slots D v n0 (fslot bn0)) x) as [E|]; [|done].
    exfalso. apply H12. rewrite Ex in E. apply (la_inj _ _ _ L n0 (fslot bn0) n 12); (done || unfold is_slot; lia).
  - intros b Hb. unfold fupd. by rewrite (proj2 (Z.eqb_neq b x)) by lia.
  - intros d0 Hd. exists d0. by rewrite list_insert_id.
Qed.

(** ** Running the program *)

(** What is known of the image: the next free inode and block, and the sectors. *)
Record mview := mk_mview { mv_fi : Z; mv_fb : Z; mv_v : Z -> block }.
Record shows (m : image) (w : mview) : Prop := mk_shows {
  sh_length : length (m_img m) = Z.to_nat FSSIZE;
  sh_fi : m_freeinode m = mv_fi w;
  sh_fb : m_freeblock m = mv_fb w;
  sh_v : forall b, 0 <= b < FSSIZE -> vw m b = mv_v w b }.
Definition mruns {A} (c : M image A) (w : mview) (Q : A -> mview -> Prop) : Prop :=
  forall m, shows m w -> exists a m' w', c m = Ret a m' /\ shows m' w' /\ Q a w'.

Lemma mruns_ret {A} (a : A) w (Q : A -> mview -> Prop) : Q a w -> mruns (mret a) w Q.
Proof. intros HQ m Hm. by exists a, m, w. Qed.
Lemma mruns_bind {A B} (c : M image A) (f : A -> M image B) w Q : mruns c w (fun a w' => mruns (f a) w' Q) -> mruns (c ≫= f) w Q.
Proof. intros H m Hm. destruct (H m Hm) as (a & m' & w' & E & Hm' & H'). rewrite (bind_eq _ _ _ _ _ E). by apply H'. Qed.
Lemma mruns_mono {A} (c : M image A) w (Q Q' : A -> mview -> Prop) : mruns c w Q -> (forall a w', Q a w' -> Q' a w') -> mruns c w Q'.
Proof. intros H HQ m Hm. destruct (H m Hm) as (a & m' & w' & ? & ? & ?). exists a, m', w'. auto. Qed.
Lemma mruns_rsect b w (Q : block -> mview -> Prop) : 0 <= b < FSSIZE -> Q (mv_v w b) w -> mruns (rsect b) w Q.
Proof. intros Hb HQ m Hm. exists (mv_v w b), m, w. split_and!; [|done..]. rewrite rsect_run by (done || apply Hm). by rewrite (sh_v _ _ Hm). Qed.
Lemma mruns_wsect b d w (Q : unit -> mview -> Prop) :
  0 <= b < FSSIZE -> Q tt (mk_mview (mv_fi w) (mv_fb w) (fupd b d (mv_v w))) -> mruns (wsect b d) w Q.
Proof.
  intros Hb HQ m [Hl Hi Hf Hv]. eexists _, _, _. split; [by apply wsect_run|]. split; [|exact HQ]. constructor; cbn [mv_fi mv_fb mv_v]; [by rewrite put_sector_length|done|done|].
  intros x Hx. rewrite vw_put by (done || lia). unfold fupd. destruct (x =? b); [done|by apply Hv].
Qed.
Lemma mruns_take_block w (Q : Z -> mview -> Prop) : nmeta <= mv_fb w < FSSIZE ->
  Q (mv_fb w) (mk_mview (mv_fi w) (mv_fb w + 1) (mv_v w)) -> mruns take_block w Q.
Proof.
  intros Hb HQ m [Hl Hi Hf Hv]. eexists _, (set_freeblock (mv_fb w + 1) m), _. split; [|split; [|exact HQ]]; [|by constructor].
  unfold take_block. munfold. rewrite Hf. rewrite u32_small by (sizes; unfold in_u32; lia). done.
Qed.
Lemma mruns_next_inode w (Q : Z -> mview -> Prop) : Q (mv_fi w) w -> mruns (gets m_freeinode) w Q.
Proof. intros HQ m Hm. exists (mv_fi w), m, w. split_and!; [|done..]. munfold. by rewrite (sh_fi _ _ Hm). Qed.
Lemma mruns_next_block w (Q : Z -> mview -> Prop) : Q (mv_fb w) w -> mruns (gets m_freeblock) w Q.
Proof. intros HQ m Hm. exists (mv_fb w), m, w. split_and!; [|done..]. munfold. by rewrite (sh_fb _ _ Hm). Qed.
Lemma mruns_set_inode x w (Q : unit -> mview -> Prop) : Q tt (mk_mview x (mv_fb w) (mv_v w)) -> mruns (modify (set_freeinode x)) w Q.
Proof. intros HQ m [Hl Hi Hf Hv]. eexists _, _, _. split; [done|]. split; [|exact HQ]. by constructor. Qed.
Ltac mstep :=
  lazymatch goal with
  | |- mruns (_ ≫= _) _ _ => apply mruns_bind
  | |- mruns (mret _) _ _ => apply mruns_ret
  | |- mruns (gets m_freeinode) _ _ => apply mruns_next_inode
  | |- mruns (gets m_freeblock) _ _ => apply mruns_next_block
  | |- mruns (modify (set_freeinode _)) _ _ => apply mruns_set_inode
  end.
Ltac msteps := repeat (mstep; cbv beta).

Lemma slots_u32 fb v D n k : laid fb v D -> is_slot k -> in_u32 (slots D v n k).
Proof.
  intros L Hk. pose proof (la_slots _ _ _ L n k Hk). pose proof (la_range _ _ _ L). destruct (decide (slots D v n k = 0)) as [->|]; unfold in_u32; sizes; lia.
Qed.
Definition fill (D : list (list Z)) (v : Z -> block) (n : nat) (k : Z) : list Z := if slots D v n k =? 0 then [k] else [].
Lemma ensure_runs w D n d k :
  laid (mv_fb w) (mv_v w) D -> D !! n = Some d -> 0 <= k <= 12 -> mv_fb w + Z.of_nat (length (fill D (mv_v w) n k)) <= FSSIZE ->
  mruns (if xint (din_addr d k) =? 0 then b ← take_block; mret (set_din_addr k (xint b) d) else mret d) w
    (fun d' w' => exists D', mv_fi w' = mv_fi w /\ grows n (mv_fb w) (mv_v w) D (fill D (mv_v w) n k) (mv_fb w') (mv_v w') D' /\
      D' !! n = Some d' /\ din_addr d' k <> 0).
Proof.
  intros L Hn Hk Hroom. pose proof (la_range _ _ _ L) as Hr. assert (Es : slots D (mv_v w) n k = din_addr d k) by (apply slots_low; [done|lia]).
  pose proof (slots_u32 _ _ _ n k L ltac:(unfold is_slot; lia)) as Hu. unfold fill in *.
  rewrite Es in *. rewrite xint_id by done. destruct (Z.eqb_spec (din_addr d k) 0) as [Hz|Hnz].
  - cbn [length] in Hroom. msteps. apply mruns_take_block; [lia|]. msteps. rewrite xint_id by (unfold in_u32; sizes; lia).
    pose proof (din_grows _ _ _ n d k L ltac:(lia) Hn ltac:(lia) Hz) as G. eexists. cbn [mv_fi mv_fb mv_v]. split; [done|]. split; [exact G|].
    pose proof (lookup_lt_Some _ _ _ Hn) as Hlt. rewrite list_lookup_insert_eq by done. split; [done|].
    destruct (la_din _ _ _ L n d Hn) as [Hl _]. rewrite din_addr_set, Z.eqb_refl by (lia || done || unfold in_u32; sizes; lia). sizes; lia.
  - msteps. exists D. split_and!; try done. by apply image_grows_refl.
Qed.

(** The slots that [file_block] fills. *)
Definition new_slots (D : list (list Z)) (v : Z -> block) (n : nat) (fbn : Z) : list Z :=
  (if 12 <=? fbn then fill D v n 12 else []) ++ fill D v n (fslot fbn).
Definition got_block (w : mview) (D : list (list Z)) (n : nat) (fbn : Z) (r : list Z * Z) (w' : mview) : Prop :=
  exists D', mv_fi w' = mv_fi w /\ grows n (mv_fb w) (mv_v w) D (new_slots D (mv_v w) n fbn) (mv_fb w') (mv_v w') D' /\
    D' !! n = Some (fst r) /\ snd r = slots D' (mv_v w') n (fslot fbn) /\ snd r <> 0.

Lemma indirect_runs w D n d fbn :
  laid (mv_fb w) (mv_v w) D -> D !! n = Some d -> 12 <= fbn < MAXFILE -> din_addr d 12 <> 0 ->
  mv_fb w + Z.of_nat (length (fill D (mv_v w) n (fslot fbn))) <= FSSIZE ->
  let o := (4 * Z.to_nat (fbn - NDIRECT))%nat in
  mruns (indirect ← rsect (xint (din_addr d NDIRECT));
         indirect ← (if get32 indirect o =? 0 then
                       b ← take_block;
                       wsect (xint (din_addr d NDIRECT)) (put32 indirect o (xint b)) ;;
                       mret (put32 indirect o (xint b))
                     else mret indirect);
         mret (d, xint (get32 indirect o))) w
    (fun r w' => mv_fi w' = mv_fi w /\ fst r = d /\ grows n (mv_fb w) (mv_v w) D (fill D (mv_v w) n (fslot fbn)) (mv_fb w') (mv_v w') D /\
      snd r = slots D (mv_v w') n (fslot fbn) /\ snd r <> 0).
Proof.
  intros L Hn Hfbn Ha Hroom o. pose proof (la_range _ _ _ L) as Hr. unfold NDIRECT in *. set (x := din_addr d 12) in *.
  assert (Ex : slots D (mv_v w) n 12 = x) by (by apply slots_low).
  assert (Hx : nmeta <= x < mv_fb w) by (rewrite <- Ex; apply (la_slots _ _ _ L); [unfold is_slot; lia|by rewrite Ex]).
  assert (Ef : fslot fbn = fbn + 1) by (unfold fslot, NDIRECT; by replace (fbn <? 12) with false by lia).
  assert (Hs : is_slot (fslot fbn)) by (rewrite Ef; sizes; lia).
  assert (Eg : forall v, slots D v n (fslot fbn) = get32 (v x) o).
  { intros v. rewrite (slots_din _ _ _ _ _ Hn), Ef by (unfold is_slot in Hs; lia). replace (fbn + 1 <=? 12) with false by lia. fold x.
    rewrite (proj2 (Z.eqb_neq x 0)) by done. unfold o. by replace (fbn + 1 - 13) with (fbn - 12) by lia. }
  rewrite xint_id by (unfold in_u32; sizes; lia). msteps. apply mruns_rsect; [sizes; lia|]. msteps. unfold fill in *.
  pose proof (slots_u32 _ _ _ n _ L Hs) as Hu. rewrite Eg in *. destruct (Z.eqb_spec (get32 (mv_v w x) o) 0) as [Hz|Hnz].
  - cbn [length] in Hroom. msteps. apply mruns_take_block; [lia|]. msteps. apply mruns_wsect; [sizes; lia|]. msteps. cbn [mv_fi mv_fb mv_v fst snd].
    rewrite xint_id by (unfold in_u32; sizes; lia). pose proof (ind_grows _ _ _ n d (fslot fbn) L ltac:(lia) Hn ltac:(rewrite Ef; sizes; lia) Ha) as G.
    specialize (G ltac:(by rewrite Eg)). cbv zeta in G. fold x in G. replace (4 * Z.to_nat (fslot fbn - 13))%nat with o in G by (rewrite Ef; unfold o; lia).
    split; [done|]. split; [done|]. split; [exact G|]. rewrite Eg. unfold fupd at 1. rewrite Z.eqb_refl.
    destruct (la_block _ _ _ L x ltac:(sizes; lia)) as [Bl _]. rewrite get32_put32 by (rewrite ?Bl; unfold o, in_u32; sizes; lia).
    rewrite xint_id by (unfold in_u32; sizes; lia). split; [done|sizes; lia].
  - msteps. cbn [fst snd]. rewrite Eg, xint_id by done. split_and!; try done. by apply image_grows_refl.
Qed.
Lemma file_block_runs w D n d fbn :
  laid (mv_fb w) (mv_v w) D -> D !! n = Some d -> 0 <= fbn < MAXFILE -> mv_fb w + Z.of_nat (length (new_slots D (mv_v w) n fbn)) <= FSSIZE ->
  mruns (file_block d fbn) w (got_block w D n fbn).
Proof.
  intros L Hn Hfbn Hroom. unfold file_block, NDIRECT. pose proof (lookup_lt_Some _ _ _ Hn) as Hlt. unfold got_block, new_slots, fslot, NDIRECT in *.
  destruct (Z.ltb_spec fbn 12).
  - replace (12 <=? fbn) with false in * by lia. apply mruns_bind. eapply mruns_mono; [by apply ensure_runs; (lia || done)|].
    intros d1 w1 (D1 & Hfi & G & Hn1 & Ha). msteps. exists D1. cbn [fst snd app]. split_and!; try done.
    + rewrite (slots_low _ _ _ _ _ Hn1) by lia. apply xint_id. rewrite <- (slots_low D1 (mv_v w1) n) by (done || lia).
      apply (slots_u32 _ _ _ _ _ (gr_laid _ _ _ _ _ _ _ _ G)). unfold is_slot; lia.
    + rewrite xint_id; [done|]. rewrite <- (slots_low D1 (mv_v w1) n) by (done || lia). apply (slots_u32 _ _ _ _ _ (gr_laid _ _ _ _ _ _ _ _ G)). unfold is_slot; lia.
  - replace (12 <=? fbn) with true in * by lia. rewrite length_app in Hroom. apply mruns_bind. eapply mruns_mono; [apply (ensure_runs w D n d 12); (lia || done)|].
    intros d1 w1 (D1 & Hfi & G & Hn1 & Ha). pose proof (gr_fb _ _ _ _ _ _ _ _ G) as Efb.
    assert (EK : fill D1 (mv_v w1) n (fslot fbn) = fill D (mv_v w) n (fbn + 1)).
    { unfold fill, fslot, NDIRECT. replace (fbn <? 12) with false by lia. pose proof (gr_slots _ _ _ _ _ _ _ _ G n (fbn + 1) ltac:(sizes; lia)) as Hs.
      assert (fbn + 1 ∉ fill D (mv_v w) n 12) by (unfold fill; destruct (_ =? 0); rewrite ?list_elem_of_singleton, ?elem_of_nil; lia || tauto).
      destruct (Z.eqb_spec (slots D1 (mv_v w1) n (fbn + 1)) 0), (Z.eqb_spec (slots D (mv_v w) n (fbn + 1)) 0); tauto. }
    eapply mruns_mono; [apply (indirect_runs w1 D1 n d1 fbn); [apply G|done|lia|done|rewrite EK; lia]|].
    intros [d2 x] w2 (Hfi2 & E2 & G2 & Ex & Hx). cbn [fst snd] in *. subst d2. exists D1. rewrite Hfi2. rewrite EK in G2.
    assert (Ef : fslot fbn = fbn + 1) by (unfold fslot, NDIRECT; by replace (fbn <? 12) with false by lia). rewrite Ef in Ex.
    split_and!; try done. by apply (image_grows_trans n _ _ _ _ (mv_fb w1) (mv_v w1) D1).
Qed.

(** ** The bytes of the files *)

Lemma data_write fb v D n bn d :
  laid fb v D -> 0 <= bn < MAXFILE -> slots D v n (fslot bn) <> 0 -> block_ok d ->
  let v' := fupd (slots D v n (fslot bn)) d v in
  laid fb v' D /\ (forall n' k', is_slot k' -> slots D v' n' k' = slots D v n' k') /\
  (forall n' bn', 0 <= bn' < MAXFILE -> fd D v' n' bn' = if decide (n' = n /\ bn' = bn) then d else fd D v n' bn') /\
  (forall b, 0 <= b < nmeta -> v' b = v b).
Proof.
  intros L Hbn Hx Hd v'. destruct (is_slot_fslot bn Hbn) as [Hs H12]. pose proof (la_slots _ _ _ L n _ Hs Hx) as Hr. pose proof (la_range _ _ _ L) as Hfb.
  assert (ES : forall n' k', is_slot k' -> slots D v' n' k' = slots D v n' k').
  { intros n' k' Hk'. apply (slots_other fb v D n (fslot bn)); auto. }
  split_and!; [|done| |].
  - destruct L as [L1 L2 L3 L4 L5 L6]. constructor; [done|done| | | |].
    + intros b Hb. unfold v', fupd. destruct (_ =? _); [done|by apply L3].
    + intros b Hb. unfold v', fupd. rewrite (proj2 (Z.eqb_neq b _)) by lia. by apply L4.
    + intros n' k' Hk'. rewrite ES by done. by apply L5.
    + intros n1 k1 n2 k2 H1 H2. rewrite !ES by done. by apply L6.
  - intros n' bn' Hbn'. destruct (is_slot_fslot bn' Hbn') as [Hs' _]. unfold fd. cbv zeta. rewrite ES by done. case_decide as Hc.
    + destruct Hc as [-> ->]. rewrite (proj2 (Z.eqb_neq _ 0)) by done. unfold v', fupd. by rewrite Z.eqb_refl.
    + destruct (Z.eqb_spec (slots D v n' (fslot bn')) 0) as [|H0]; [done|]. unfold v', fupd. destruct (Z.eqb_spec (slots D v n' (fslot bn')) (slots D v n (fslot bn))) as [E|]; [|done].
      exfalso. apply Hc. destruct (la_inj _ _ _ L n' (fslot bn') n (fslot bn)) as [-> Hf]; [done..|]. split; [done|by apply fslot_inj].
  - intros b Hb. unfold v', fupd. by rewrite (proj2 (Z.eqb_neq b _)) by lia.
Qed.

Record file_is (D : list (list Z)) (v : Z -> block) (n : nat) (C : list Z) : Prop := mk_file_is {
  fi_used : forall bn, 0 <= bn < MAXFILE -> slots D v n (fslot bn) <> 0 <-> bn * BSIZE < Z.of_nat (length C);
  fi_ind : slots D v n 12 <> 0 <-> NDIRECT * BSIZE < Z.of_nat (length C);
  fi_byte : forall j, 0 <= j < MAXFILE * BSIZE -> byte_at (fd D v n (j / BSIZE)) (Z.to_nat (j mod BSIZE)) = nth (Z.to_nat j) C 0;
  fi_size : Z.of_nat (length C) <= MAXFILE * BSIZE }.
(** The blocks a file of [len] bytes takes, its indirect block included. *)
Definition nblk (len : Z) : Z := (len + 511) / 512 + (if NDIRECT * BSIZE <? len then 1 else 0).

Lemma div_within off k : 0 <= off -> 0 <= k <= 512 - off mod 512 -> (off + k + 511) / 512 = off / 512 + (if (off mod 512 =? 0) && (k =? 0) then 0 else 1).
Proof.
  intros Ho Hk. pose proof (Z.div_mod off 512 ltac:(lia)). pose proof (Z.mod_pos_bound off 512 ltac:(lia)).
  destruct (Z.eqb_spec (off mod 512) 0), (Z.eqb_spec k 0); cbn [andb]; symmetry;
    [apply (Z.div_unique _ _ _ 511)|apply (Z.div_unique _ _ _ (k - 1))|apply (Z.div_unique _ _ _ (off mod 512 + k - 1))|apply (Z.div_unique _ _ _ (off mod 512 + k - 1))]; lia.
Qed.
Lemma new_slots_count D v n C c :
  file_is D v n C -> let off := Z.of_nat (length C) in off < MAXFILE * BSIZE -> 0 < c <= BSIZE - off mod BSIZE ->
  Z.of_nat (length (new_slots D v n (off / BSIZE))) = nblk (off + c) - nblk off.
Proof.
  intros [FU FI _ _] off Hoff Hc. unfold nblk, new_slots, fill. sizes. pose proof (Z.div_mod off 512 ltac:(lia)). pose proof (Z.mod_pos_bound off 512 ltac:(lia)).
  assert (Hbn : 0 <= off / 512 < 140) by (split; [apply Z.div_pos; lia|apply Z.div_lt_upper_bound; lia]). specialize (FU (off / 512) Hbn).
  rewrite div_within by lia. pose proof (div_within off 0 ltac:(lia) ltac:(lia)) as E0. rewrite Z.add_0_r in E0. rewrite E0, length_app.
  fold off in FU, FI. destruct (Z.leb_spec 12 (off / 512)), (Z.eqb_spec (slots D v n 12) 0), (Z.eqb_spec (slots D v n (fslot (off / 512))) 0),
    (Z.eqb_spec (off mod 512) 0), (Z.eqb_spec c 0), (Z.ltb_spec (12 * 512) (off + c)), (Z.ltb_spec (12 * 512) off); cbn [andb length app Z.eqb]; lia.
Qed.

Definition files_are (w : mview) (D Cs : list (list Z)) : Prop :=
  laid (mv_fb w) (mv_v w) D /\ forall n C, Cs !! n = Some C -> file_is D (mv_v w) n C.
Record appended (w : mview) (D Cs : list (list Z)) (n : nat) (C c : list Z) (w' : mview) (d' : list Z) : Prop := mk_appended {
  ap_files : files_are w' (<[n := d']> D) (<[n := C ++ c]> Cs);
  ap_fi : mv_fi w' = mv_fi w;
  ap_fb : mv_fb w' = mv_fb w + nblk (Z.of_nat (length C + length c)) - nblk (Z.of_nat (length C));
  ap_meta : forall b, 0 <= b < nmeta -> mv_v w' b = mv_v w b;
  ap_din : forall d, D !! n = Some d -> take 12 d' = take 12 d }.

Lemma file_is_ext D v D' v' n C :
  (forall k, is_slot k -> slots D' v' n k <> 0 <-> slots D v n k <> 0) -> (forall bn, 0 <= bn < MAXFILE -> fd D' v' n bn = fd D v n bn) ->
  file_is D v n C -> file_is D' v' n C.
Proof.
  intros HS HF [FU FI FB FS]. constructor; [| | |done].
  - intros bn Hbn. rewrite HS by (by apply is_slot_fslot). by apply FU.
  - rewrite HS by (unfold is_slot; lia). done.
  - intros j Hj. rewrite HF; [by apply FB|]. sizes. split; [apply Z.div_pos; lia|apply Z.div_lt_upper_bound; lia].
Qed.
Lemma new_slots_elem D v n bn k : 0 <= bn < MAXFILE ->
  k ∈ new_slots D v n bn <-> (k = 12 /\ 12 <= bn /\ slots D v n 12 = 0) \/ (k = fslot bn /\ slots D v n (fslot bn) = 0).
Proof.
  intros Hbn. unfold new_slots, fill. rewrite elem_of_app.
  destruct (Z.leb_spec 12 bn), (Z.eqb_spec (slots D v n 12) 0), (Z.eqb_spec (slots D v n (fslot bn)) 0); rewrite ?list_elem_of_singleton, ?elem_of_nil; naive_solver lia.
Qed.
Lemma file_is_append D v D' v' n C c :
  let off := Z.of_nat (length C) in
  file_is D v n C -> off + Z.of_nat (length c) <= MAXFILE * BSIZE -> 0 < Z.of_nat (length c) <= BSIZE - off mod BSIZE ->
  (forall k, is_slot k -> slots D' v' n k <> 0 <-> slots D v n k <> 0 \/ k ∈ new_slots D v n (off / BSIZE)) ->
  length (fd D v n (off / BSIZE)) = 512%nat ->
  (forall bn, 0 <= bn < MAXFILE -> fd D' v' n bn = if decide (bn = off / BSIZE) then splice (fd D v n bn) (Z.to_nat (off mod BSIZE)) c else fd D v n bn) ->
  file_is D' v' n (C ++ c).
Proof.
  intros off [FU FI FB FS] Hmax Hlen HS Hl HF. fold off in FU, FI, FS. pose proof (Z.div_mod off 512 ltac:(lia)) as Hdm. pose proof (Z.mod_pos_bound off 512 ltac:(lia)) as Hmod.
  assert (Hbn : 0 <= off / BSIZE < MAXFILE) by (sizes; split; [apply Z.div_pos; lia|apply Z.div_lt_upper_bound; lia]).
  assert (Eoff : Z.of_nat (length (C ++ c)) = off + Z.of_nat (length c)) by (rewrite length_app; lia).
  constructor; rewrite ?Eoff; [| | |done].
  - intros bn Hb. destruct (is_slot_fslot bn Hb) as [Hs H12]. rewrite HS, new_slots_elem by done.
    assert (Hf : fslot bn = fslot (off / BSIZE) <-> bn = off / BSIZE) by (split; [apply fslot_inj|congruence]).
    rewrite Hf. pose proof (FU bn Hb) as H1. pose proof (FU (off / BSIZE) Hbn) as H2. sizes.
    destruct (Z.eq_dec (slots D v n (fslot bn)) 0), (Z.eq_dec (slots D v n (fslot (off / 512))) 0); lia.
  - rewrite HS, new_slots_elem by (done || unfold is_slot; lia). pose proof (proj2 (is_slot_fslot _ Hbn)) as H12. pose proof (FU (off / BSIZE) Hbn) as H2. sizes.
    destruct (Z.eq_dec (slots D v n 12) 0); lia.
  - intros j Hj. assert (Hjb : 0 <= j / BSIZE < MAXFILE) by (sizes; split; [apply Z.div_pos; lia|apply Z.div_lt_upper_bound; lia]).
    pose proof (Z.div_mod j 512 ltac:(lia)). pose proof (Z.mod_pos_bound j 512 ltac:(lia)). pose proof (FB j Hj) as FBj. rewrite HF by done. sizes. rewrite nth_lookup. case_decide as E.
    + rewrite splice_at by (rewrite E, Hl; lia). case_decide as E2.
      * rewrite lookup_app_r by lia. rewrite nth_lookup. do 2 f_equal. lia.
      * rewrite FBj, nth_lookup. destruct (decide (j < off)); [by rewrite lookup_app_l by lia|].
        rewrite !(lookup_ge_None_2 _ (Z.to_nat j)); [done|rewrite length_app; lia|lia].
    + rewrite FBj, nth_lookup. destruct (decide (j < off)); [by rewrite lookup_app_l by lia|].
      rewrite !(lookup_ge_None_2 _ (Z.to_nat j)); [done|rewrite length_app; lia|lia].
Qed.

(** The sectors after a chunk [c] is copied to the end of the file. *)
Lemma chunk_written w D Cs n C c w1 r D1 :
  files_are w D Cs -> Cs !! n = Some C -> (n < length D)%nat -> Forall byte_ok c ->
  let off := Z.of_nat (length C) in
  off + Z.of_nat (length c) <= MAXFILE * BSIZE -> 0 < Z.of_nat (length c) <= BSIZE - off mod BSIZE ->
  mv_fi w1 = mv_fi w -> grows n (mv_fb w) (mv_v w) D (new_slots D (mv_v w) n (off / BSIZE)) (mv_fb w1) (mv_v w1) D1 -> D1 !! n = Some (fst r) ->
  snd r = slots D1 (mv_v w1) n (fslot (off / BSIZE)) -> snd r <> 0 ->
  appended w D Cs n C c (mk_mview (mv_fi w1) (mv_fb w1) (fupd (snd r) (splice (mv_v w1 (snd r)) (Z.to_nat (off mod BSIZE)) c) (mv_v w1))) (fst r).
Proof.
  intros [L HF] HC Hn Hc off Hmax Hlen Hfi G Hd Ex Hx. pose proof (HF n C HC) as FC. pose proof (gr_laid _ _ _ _ _ _ _ _ G) as L1.
  assert (Hbn : 0 <= off / BSIZE < MAXFILE) by (sizes; split; [apply Z.div_pos; lia|apply Z.div_lt_upper_bound; lia]).
  assert (Hr : 0 <= off mod BSIZE < BSIZE) by (apply Z.mod_pos_bound; unfold BSIZE; lia).
  assert (E1 : mv_v w1 (snd r) = fd D (mv_v w) n (off / BSIZE)).
  { rewrite <- (gr_fd _ _ _ _ _ _ _ _ G) by done. unfold fd. cbv zeta. rewrite <- Ex. by rewrite (proj2 (Z.eqb_neq _ _)). }
  assert (B1 : block_ok (mv_v w1 (snd r))).
  { apply (la_block _ _ _ L1). rewrite Ex. pose proof (la_slots _ _ _ L1 n _ (proj1 (is_slot_fslot _ Hbn)) ltac:(by rewrite <- Ex)). pose proof (la_range _ _ _ L1). sizes. lia. }
  set (blk := splice _ _ c). assert (B2 : block_ok blk) by (by apply splice_ok).
  destruct (data_write (mv_fb w1) (mv_v w1) D1 n (off / BSIZE) blk L1 Hbn ltac:(by rewrite <- Ex) B2) as (L2 & S2 & F2 & M2). rewrite <- Ex in *.
  destruct (lookup_lt_is_Some_2 D n Hn) as [d Hdn]. destruct (gr_din _ _ _ _ _ _ _ _ G d Hdn) as (d' & -> & T).
  rewrite list_lookup_insert_eq in Hd by done. injection Hd as ->. constructor; cbn [mv_fi mv_fb mv_v]; [|done| | |].
  - split; [done|]. cbn [mv_v]. intros n' C' HC'. destruct (decide (n' = n)) as [->|Hne].
    + rewrite list_lookup_insert_eq in HC' by (by eapply lookup_lt_Some). injection HC' as <-.
      apply (file_is_append D (mv_v w)); [done|done|done| |fold off; rewrite <- E1; apply B1|].
      * intros k Hk. rewrite S2, (gr_slots _ _ _ _ _ _ _ _ G) by done. naive_solver.
      * intros bn Hb. rewrite F2 by done. fold off. unfold blk. rewrite E1. rewrite (gr_fd _ _ _ _ _ _ _ _ G n bn) by done.
        destruct (decide (bn = off / BSIZE)) as [->|]; [by rewrite decide_True|by rewrite decide_False by naive_solver].
    + rewrite list_lookup_insert_ne in HC' by done. apply (file_is_ext D (mv_v w)); [| |by apply HF].
      * intros k Hk. rewrite S2, (gr_slots _ _ _ _ _ _ _ _ G) by done. naive_solver.
      * intros bn Hb. rewrite F2, decide_False by naive_solver. by apply (gr_fd _ _ _ _ _ _ _ _ G).
  - pose proof (new_slots_count D (mv_v w) n C (Z.of_nat (length c)) FC ltac:(fold off; sizes; lia) Hlen) as EN. fold off in EN.
    rewrite (gr_fb _ _ _ _ _ _ _ _ G), EN, Nat2Z.inj_add. fold off. lia.
  - intros b Hb. rewrite M2 by done. by apply (gr_meta _ _ _ _ _ _ _ _ G).
  - intros d0. rewrite Hdn. by intros [= <-].
Qed.

Lemma nblk_mono a b : a <= b -> nblk a <= nblk b.
Proof. intros H. unfold nblk. pose proof (Z.div_le_mono (a + 511) (b + 511) 512 ltac:(lia) ltac:(lia)). destruct (Z.ltb_spec (NDIRECT * BSIZE) a), (Z.ltb_spec (NDIRECT * BSIZE) b); lia. Qed.
Lemma appended_nil w D Cs n C d : files_are w D Cs -> Cs !! n = Some C -> D !! n = Some d -> appended w D Cs n C [] w d.
Proof.
  intros HF HC Hd. constructor; [|done| |done|].
  - by rewrite app_nil_r, !list_insert_id.
  - rewrite Nat.add_0_r. lia.
  - intros d0. rewrite Hd. by intros [= <-].
Qed.
Lemma appended_trans w D Cs n C c w1 d1 c2 w2 d2 : (n < length D)%nat ->
  appended w D Cs n C c w1 d1 -> appended w1 (<[n := d1]> D) (<[n := C ++ c]> Cs) n (C ++ c) c2 w2 d2 -> appended w D Cs n C (c ++ c2) w2 d2.
Proof.
  intros Hn [A1 A2 A3 A4 A5] [B1 B2 B3 B4 B5]. constructor.
  - by rewrite !list_insert_insert_eq, <- app_assoc in B1.
  - congruence.
  - rewrite B3, A3, !length_app, Nat.add_assoc. lia.
  - intros b Hb. by rewrite B4, A4.
  - intros d Hd. rewrite (B5 d1); [by apply A5|]. by apply list_lookup_insert_eq.
Qed.

Lemma iappend_loop_runs fuel : forall w D Cs n C d p,
  files_are w D Cs -> Cs !! n = Some C -> D !! n = Some d -> Forall byte_ok p -> (length p <= fuel)%nat ->
  Z.of_nat (length C + length p) <= MAXFILE * BSIZE -> mv_fb w + nblk (Z.of_nat (length C + length p)) - nblk (Z.of_nat (length C)) <= FSSIZE ->
  mruns (iappend_loop fuel d (Z.of_nat (length C)) p) w
    (fun r w' => appended w D Cs n C p w' (fst r) /\ snd r = Z.of_nat (length C + length p)).
Proof.
  induction fuel as [|f IH]; intros w D Cs n C d p HF HC Hd Hp Hfuel Hmax Hroom.
  { destruct p; [|cbn in Hfuel; lia]. cbn [iappend_loop]. msteps. split; [by apply appended_nil|cbn; lia]. }
  destruct p as [|a p']; [cbn [iappend_loop]; msteps; split; [by apply appended_nil|cbn; lia]|]. set (p := a :: p') in *.
  assert (Hp0 : (0 < length p)%nat) by (cbn; lia). cbn [iappend_loop]. fold p. change (a :: p') with p. set (off := Z.of_nat (length C)).
  pose proof (lookup_lt_Some _ _ _ Hd) as Hn. pose proof (Z.div_mod off 512 ltac:(lia)) as Hdm. pose proof (Z.mod_pos_bound off 512 ltac:(lia)) as Hmod.
  assert (Hbn : 0 <= off / BSIZE < MAXFILE) by (sizes; split; [apply Z.div_pos; lia|apply Z.div_lt_upper_bound; lia]).
  rewrite (proj2 (Z.ltb_lt _ _)) by lia. cbn [negb]. rewrite (u32_small ((off / BSIZE + 1) * BSIZE - off)) by (unfold in_u32; sizes; lia).
  replace ((off / BSIZE + 1) * BSIZE - off) with (BSIZE - off mod BSIZE) by (sizes; lia). set (n1 := Z.min _ _).
  assert (Hn1 : 0 < n1 <= BSIZE - off mod BSIZE /\ n1 <= Z.of_nat (length p)) by (unfold n1; sizes; lia).
  set (c := take (Z.to_nat n1) p). assert (Lc : Z.of_nat (length c) = n1) by (unfold c; rewrite length_take; lia).
  destruct HF as [L HF]. pose proof (new_slots_count D (mv_v w) n C n1 (HF n C HC) ltac:(fold off; sizes; lia) ltac:(fold off; lia)) as EN. fold off in EN.
  pose proof (nblk_mono (off + n1) (Z.of_nat (length C + length p)) ltac:(lia)) as Hmono. fold off in Hroom.
  apply mruns_bind. eapply mruns_mono; [apply (file_block_runs w D n d (off / BSIZE)); (done || lia)|].
  intros r w1 (D1 & Hfi & G & Hd1 & Ex & Hx). rewrite (surjective_pairing r) at 1. cbv iota beta. msteps.
  pose proof (gr_laid _ _ _ _ _ _ _ _ G) as L1. pose proof (la_slots _ _ _ L1 n _ (proj1 (is_slot_fslot _ Hbn)) ltac:(by rewrite <- Ex)) as Hxr. rewrite <- Ex in Hxr.
  pose proof (la_range _ _ _ L1) as Hr1. assert (Hxs : 0 <= snd r < FSSIZE) by (sizes; lia).
  apply mruns_rsect; [done|]. msteps. apply mruns_wsect; [done|]. replace (off - off / BSIZE * BSIZE) with (off mod BSIZE) by (sizes; lia).
  pose proof (chunk_written w D Cs n C c w1 r D1 (conj L HF) HC Hn (Forall_take _ _ _ Hp)) as A. fold off in A. rewrite Lc in A.
  specialize (A ltac:(lia) ltac:(lia) Hfi G Hd1 Ex Hx). fold c. set (w2 := mk_mview _ _ _) in *.
  replace (u32 (off + n1)) with (Z.of_nat (length (C ++ c))) by (rewrite length_app, u32_small by (unfold in_u32; sizes; lia); lia).
  assert (Lr : length p = (length c + length (drop (Z.to_nat n1) p))%nat) by (rewrite <- (take_drop (Z.to_nat n1) p) at 1; by rewrite length_app).
  eapply mruns_mono; [apply (IH w2 (<[n := fst r]> D) (<[n := C ++ c]> Cs) n (C ++ c)); [apply A|by apply list_lookup_insert_eq; eapply lookup_lt_Some|by apply list_lookup_insert_eq|by apply Forall_drop|lia| |]|].
  - rewrite length_app. lia.
  - rewrite (ap_fb _ _ _ _ _ _ _ _ A), length_app. fold off. replace (length C + length c + length (drop (Z.to_nat n1) p))%nat with (length C + length p)%nat by lia. lia.
  - intros r2 w3 [A2 E2]. split; [|rewrite E2, length_app; lia]. rewrite <- (take_drop (Z.to_nat n1) p). by apply (appended_trans _ _ _ _ _ _ w2 (fst r)).
Qed.

(** ** Inodes *)

Lemma lookup_nth_Some (l : list Z) k : (k < length l)%nat -> l !! k = Some (nth k l 0).
Proof. intros Hk. destruct (lookup_lt_is_Some_2 l k Hk) as [x Hx]. by rewrite (nth_lookup_Some _ _ _ _ Hx). Qed.
Lemma splice_field b o o' src :
  (o + 64 <= length b)%nat -> (o' + 64 <= length b)%nat -> length src = 64%nat ->
  (o' = o -> take 64 (drop o' (splice b o src)) = src) /\
  ((o' + 64 <= o \/ o + 64 <= o')%nat -> take 64 (drop o' (splice b o src)) = take 64 (drop o' b)).
Proof.
  intros Ho Ho' Hs.
  assert (H : forall j, (j < 64)%nat -> take 64 (drop o' (splice b o src)) !! j = Some (byte_at (splice b o src) (o' + j)) /\ take 64 (drop o' b) !! j = Some (byte_at b (o' + j))).
  { intros j Hj. rewrite !lookup_take_lt, !lookup_drop by done. unfold byte_at.
    split; apply lookup_nth_Some; rewrite ?splice_length; lia. }
  split; intros E; apply list_eq; intros j; (destruct (decide (j < 64)%nat) as [Hj|Hj]; [|rewrite (lookup_take_ge _ 64 j) by lia]).
  - rewrite (proj1 (H j Hj)), splice_at, decide_True by lia. subst o'. replace (o + j - o)%nat with j by lia.
    symmetry. apply lookup_nth_Some. lia.
  - symmetry. apply lookup_ge_None_2. lia.
  - rewrite (proj1 (H j Hj)), (proj2 (H j Hj)), splice_at, decide_False by lia. done.
  - rewrite (lookup_take_ge _ 64 j) by lia. done.
Qed.

(** A sector of metadata is rewritten. *)
Lemma meta_write fb v D b d :
  laid fb v D -> 0 <= b < nmeta -> block_ok d ->
  laid fb (fupd b d v) D /\ (forall n k, is_slot k -> slots D (fupd b d v) n k = slots D v n k) /\
  (forall n bn, 0 <= bn < MAXFILE -> fd D (fupd b d v) n bn = fd D v n bn).
Proof.
  intros L Hb Hd. pose proof (la_range _ _ _ L) as Hr. assert (Hne : forall n k, is_slot k -> slots D v n k <> 0 -> slots D v n k <> b).
  { intros n k Hk Ha. pose proof (la_slots _ _ _ L n k Hk Ha). lia. }
  assert (ES : forall n k, is_slot k -> slots D (fupd b d v) n k = slots D v n k).
  { intros n k Hk. destruct (D !! n) as [d'|] eqn:Hn; [|unfold slots; by rewrite Hn]. rewrite !(slots_din _ _ _ _ _ Hn) by (unfold is_slot in Hk; lia).
    destruct (Z.leb_spec k 12); [done|]. destruct (Z.eqb_spec (din_addr d' 12) 0) as [|Ha]; [done|].
    unfold fupd. rewrite (proj2 (Z.eqb_neq _ b)); [done|]. rewrite <- (slots_low D v n d' 12 Hn) in Ha |- * by lia. apply Hne; [unfold is_slot; lia|done]. }
  split_and!; [|done|].
  - destruct L as [L1 L2 L3 L4 L5 L6]. constructor; [done|done| | | |].
    + intros x Hx. unfold fupd. destruct (x =? b); [done|by apply L3].
    + intros x Hx. unfold fupd. rewrite (proj2 (Z.eqb_neq x b)) by lia. by apply L4.
    + intros n k Hk. rewrite ES by done. by apply L5.
    + intros n k n' k' Hk Hk'. rewrite !ES by done. by apply L6.
  - intros n bn Hbn. destruct (is_slot_fslot bn Hbn) as [Hs _]. unfold fd. cbv zeta. rewrite ES by done.
    destruct (Z.eqb_spec (slots D v n (fslot bn)) 0) as [|Ha]; [done|]. unfold fupd. by rewrite (proj2 (Z.eqb_neq _ b)) by (by apply Hne).
Qed.
Lemma meta_files fi fb v D Cs b d : files_are (mk_mview fi fb v) D Cs -> 0 <= b < nmeta -> block_ok d -> files_are (mk_mview fi fb (fupd b d v)) D Cs.
Proof.
  intros [L HF] Hb Hd. destruct (meta_write fb v D b d L Hb Hd) as (L' & ES & EF). split; [done|]. intros n C HC. apply (file_is_ext D v); [|by intros bn; apply EF|by apply HF].
  intros k Hk. cbn [mv_v]. by rewrite ES.
Qed.

Definition stored (v : Z -> block) (n : nat) : list Z := take 64 (drop (di_off (Z.of_nat n + 1)) (v (IBLOCK (Z.of_nat n + 1) sb))).
(** The fields of an inode but its block numbers. *)
Definition head_is (d : list Z) (t len : Z) : Prop :=
  get16 d 0 = t /\ get16 d 2 = 0 /\ get16 d 4 = 0 /\ get16 d 6 = 1 /\ din_size d = len.
Definition total (F : list (Z * list Z)) : Z := foldr (fun f z => nblk (Z.of_nat (length (snd f))) + z) 0 F.
Record built_with (w : mview) (F : list (Z * list Z)) (D : list (list Z)) : Prop := mk_built {
  bu_files : files_are w D (map snd F);
  bu_length : length D = length F;
  bu_fi : mv_fi w = 1 + Z.of_nat (length F);
  bu_inodes : 1 + Z.of_nat (length F) <= NINODES;
  bu_stored : forall n d, D !! n = Some d -> stored (mv_v w) n = d;
  bu_head : forall n d t C, D !! n = Some d -> F !! n = Some (t, C) -> head_is d t (Z.of_nat (length C));
  bu_fb : mv_fb w = nmeta + total F;
  bu_sb : mv_v w 1 = sb_sector }.

Lemma iblock_meta n : Z.of_nat n + 1 < NINODES + 8 -> 32 <= IBLOCK (Z.of_nat n + 1) sb < nmeta - 1.
Proof.
  intros Hn. unfold IBLOCK. change (sb_inodestart sb) with 32. unfold IPB, NINODES in *. rewrite nmeta_val.
  assert (0 <= (Z.of_nat n + 1) / 8 < 26) by (split; [apply Z.div_pos; lia|apply Z.div_lt_upper_bound; lia]). lia.
Qed.
Lemma stored_winode v n d n' : Z.of_nat n + 1 < NINODES + 8 -> length (v (IBLOCK (Z.of_nat n + 1) sb)) = 512%nat -> length d = 64%nat ->
  let b := IBLOCK (Z.of_nat n + 1) sb in
  stored (fupd b (splice (v b) (di_off (Z.of_nat n + 1)) d) v) n' = if decide (n' = n) then d else stored v n'.
Proof.
  intros Hn Hl Hd b. unfold stored, fupd. pose proof (di_off_range (Z.of_nat n + 1)). pose proof (di_off_range (Z.of_nat n' + 1)).
  destruct (splice_field (v b) (di_off (Z.of_nat n + 1)) (di_off (Z.of_nat n' + 1)) d) as [H1 H2]; [unfold b; lia..|].
  case_decide as E; [subst n'; fold b; rewrite Z.eqb_refl; by apply H1|]. destruct (Z.eqb_spec (IBLOCK (Z.of_nat n' + 1) sb) b) as [Eb|]; [|done].
  rewrite H2, Eb; [done|]. unfold b, IBLOCK, di_off, IPB in *. pose proof (Z.div_mod (Z.of_nat n + 1) 8). pose proof (Z.div_mod (Z.of_nat n' + 1) 8).
  pose proof (Z.mod_pos_bound (Z.of_nat n + 1) 8). pose proof (Z.mod_pos_bound (Z.of_nat n' + 1) 8). lia.
Qed.

Lemma head_take d d' t len : take 12 d' = take 12 d -> head_is d t len -> head_is d' t len.
Proof.
  intros E H. assert (Hg : forall n o, (o + n <= 12)%nat -> get_le n d' o = get_le n d o).
  { intros n o Ho. apply get_le_ext. intros k Hk. unfold byte_at. rewrite !nth_lookup. f_equal.
    rewrite <- (lookup_take_lt d 12), <- (lookup_take_lt d' 12) by lia. by rewrite E. }
  unfold head_is, din_size, get16, get32 in *. rewrite !Hg by lia. done.
Qed.
Lemma head_size d t len len' : length d = 64%nat -> in_u32 len' -> head_is d t len -> head_is (set_din_size (xint len') d) t len'.
Proof.
  intros Hl Hu (H1 & H2 & H3 & H4 & _). rewrite xint_id by done. unfold head_is, set_din_size, din_size. rewrite !get16_put32_ne by lia. rewrite get32_put32 by (done || lia). done.
Qed.
Lemma new_head t : t = T_DIR \/ t = T_FILE -> head_is (new_dinode t) t 0.
Proof. by intros [-> | ->]. Qed.

Lemma image_total_app F G : total (F ++ G) = total F + total G.
Proof. induction F as [|f F IH]; [done|]. cbn [app]. unfold total in *. cbn [foldr]. lia. Qed.
Lemma total_insert F n t C t' C' : F !! n = Some (t, C) ->
  total (<[n := (t', C')]> F) = total F - nblk (Z.of_nat (length C)) + nblk (Z.of_nat (length C')).
Proof.
  intros Hn. rewrite insert_take_drop by (by eapply lookup_lt_Some). rewrite <- (take_drop_middle F n _ Hn) at 3.
  rewrite !image_total_app. unfold total. cbn [foldr snd]. lia.
Qed.

(** Only the block numbers matter for the files. *)
Lemma files_are_din w D Cs n d x : files_are w D Cs -> D !! n = Some d -> files_are w (<[n := set_din_size x d]> D) Cs.
Proof.
  intros [L HF] Hd. pose proof (lookup_lt_Some _ _ _ Hd) as Hn. destruct (la_din _ _ _ L n d Hd) as [Hl Hb]. set (D' := <[n := _]> D).
  assert (Hd' : D' !! n = Some (set_din_size x d)) by (by apply list_lookup_insert_eq).
  assert (ES : forall n' k, is_slot k -> slots D' (mv_v w) n' k = slots D (mv_v w) n' k).
  { intros n' k Hk. destruct (decide (n' = n)) as [->|]; [|unfold slots, D'; by rewrite list_lookup_insert_ne].
    rewrite (slots_din _ _ _ _ _ Hd'), (slots_din _ _ _ _ _ Hd) by (unfold is_slot in Hk; lia).
    assert (Ea : forall i, din_addr (set_din_size x d) i = din_addr d i) by (intros i; unfold din_addr, set_din_size; apply get32_put32_ne; lia). by rewrite !Ea. }
  split.
  - destruct L as [L1 L2 L3 L4 L5 L6]. constructor; [done| |done|done| |].
    + intros n' e. destruct (decide (n' = n)) as [->|]; [rewrite Hd'; intros [= <-]; by apply put32_ok|]. unfold D'. rewrite list_lookup_insert_ne by done. apply L2.
    + intros n' k Hk. rewrite ES by done. by apply L5.
    + intros n1 k1 n2 k2 H1 H2. rewrite !ES by done. by apply L6.
  - intros n' C HC. apply (file_is_ext D (mv_v w)); [intros k Hk; by rewrite ES| |by apply HF].
    intros bn Hbn. unfold fd. cbv zeta. by rewrite ES by (by apply is_slot_fslot).
Qed.

Lemma winode_runs w D n d (Q : unit -> mview -> Prop) :
  laid (mv_fb w) (mv_v w) D -> Z.of_nat n + 1 < NINODES + 8 ->
  (let b := IBLOCK (Z.of_nat n + 1) sb in Q tt (mk_mview (mv_fi w) (mv_fb w) (fupd b (splice (mv_v w b) (di_off (Z.of_nat n + 1)) d) (mv_v w)))) ->
  mruns (winode (Z.of_nat n + 1) d) w Q.
Proof.
  intros L Hn HQ. pose proof (iblock_meta n Hn). unfold winode. msteps. apply mruns_rsect; [sizes; lia|]. msteps. apply mruns_wsect; [sizes; lia|]. exact HQ.
Qed.
(** The inode written back has new contents; the state is described again. *)
Lemma store_inode w F D n d d' t C C' w1 :
  built_with w F D -> F !! n = Some (t, C) -> D !! n = Some d ->
  files_are w1 (<[n := d']> D) (<[n := C']> (map snd F)) -> mv_fi w1 = mv_fi w -> (forall b, 0 <= b < nmeta -> mv_v w1 b = mv_v w b) ->
  mv_fb w1 = mv_fb w + nblk (Z.of_nat (length C')) - nblk (Z.of_nat (length C)) -> length d' = 64%nat -> head_is d' t (Z.of_nat (length C')) ->
  let b := IBLOCK (Z.of_nat n + 1) sb in
  Forall byte_ok d' ->
  built_with (mk_mview (mv_fi w1) (mv_fb w1) (fupd b (splice (mv_v w1 b) (di_off (Z.of_nat n + 1)) d') (mv_v w1))) (<[n := (t, C')]> F) (<[n := d']> D).
Proof.
  intros [B1 B2 B3 B4 B5 B6 B7 B8] HF Hd FA Efi Em Efb Hl Hh b Hby. pose proof (lookup_lt_Some _ _ _ HF) as Hlt.
  assert (Hb : 32 <= b < nmeta - 1) by (apply iblock_meta; lia). destruct FA as [L1 HF1]. pose proof (la_block _ _ _ L1 b ltac:(sizes; lia)) as Bb.
  constructor; cbn [mv_fi mv_fb mv_v]; rewrite ?length_insert; [|done|congruence|done| | | |].
  - rewrite list_fmap_insert. apply (meta_files (mv_fi w1) (mv_fb w1) (mv_v w1)); [by split|lia|by apply splice_ok].
  - intros n' e He. unfold b. rewrite stored_winode by (lia || done || apply Bb). case_decide as E; [subst n'; rewrite list_lookup_insert_eq in He by lia; by injection He|].
    rewrite list_lookup_insert_ne in He by done. rewrite <- (B5 n' e He). unfold stored. rewrite Em; [done|].
    pose proof (lookup_lt_Some _ _ _ He). pose proof (iblock_meta n' ltac:(lia)). lia.
  - intros n' e t' C1 He HF'. destruct (decide (n' = n)) as [->|].
    + rewrite list_lookup_insert_eq in He by lia. rewrite list_lookup_insert_eq in HF' by lia. injection He as <-. injection HF' as <- <-. done.
    + rewrite list_lookup_insert_ne in He by done. rewrite list_lookup_insert_ne in HF' by done. by apply (B6 n').
  - rewrite (total_insert _ _ _ _ _ _ HF). lia.
  - unfold fupd. rewrite (proj2 (Z.eqb_neq 1 b)) by lia. rewrite Em; [done|]. rewrite nmeta_val. lia.
Qed.

Lemma fmap_snd_lookup {A B} (F : list (A * B)) n t C : F !! n = Some (t, C) -> map snd F !! n = Some C.
Proof. intros H. rewrite list_lookup_fmap, H. done. Qed.
Definition built (w : mview) (F : list (Z * list Z)) : Prop := exists D, built_with w F D.

Lemma iappend_runs w F n t C p :
  built w F -> F !! n = Some (t, C) -> Forall byte_ok p -> Z.of_nat (length C + length p) <= MAXFILE * BSIZE ->
  nmeta + total (<[n := (t, C ++ p)]> F) <= FSSIZE ->
  mruns (iappend (Z.of_nat n + 1) p) w (fun _ w' => built w' (<[n := (t, C ++ p)]> F)).
Proof.
  intros [D B] HF Hp Hmax Hroom. pose proof (lookup_lt_Some _ _ _ HF) as Hlt. pose proof (bu_files _ _ _ B) as [L HFs].
  destruct (lookup_lt_is_Some_2 D n) as [d Hd]; [by rewrite (bu_length _ _ _ B)|]. pose proof (bu_inodes _ _ _ B). pose proof (iblock_meta n ltac:(lia)) as Hib.
  unfold iappend, rinode. msteps. apply mruns_rsect; [sizes; lia|]. msteps. change (take 64 _) with (stored (mv_v w) n). rewrite (bu_stored _ _ _ B n d Hd).
  pose proof (bu_head _ _ _ B n d t C Hd HF) as Hh. replace (din_size d) with (Z.of_nat (length C)) by (symmetry; apply Hh).
  rewrite xint_id by (unfold in_u32; sizes; lia). rewrite (total_insert _ _ _ _ _ _ HF), length_app in Hroom.
  eapply mruns_mono; [apply (iappend_loop_runs _ w D (map snd F) n C d p); [by split|by eapply fmap_snd_lookup|done|done|done|done|]|].
  { rewrite (bu_fb _ _ _ B). lia. }
  intros r w1 [A Er]. destruct (ap_files _ _ _ _ _ _ _ _ A) as [L1 _]. rewrite Er. apply (winode_runs w1 (<[n := fst r]> D)); [done|lia|].
  eexists. destruct (la_din _ _ _ L1 n (fst r)) as [Hl1 Hb1]; [apply list_lookup_insert_eq; by eapply lookup_lt_Some|].
  eapply (store_inode w F D n d _ t C (C ++ p) w1); try done.
  - rewrite <- (list_insert_insert_eq D n _ (fst r)). apply files_are_din; [apply A|]. apply list_lookup_insert_eq. by eapply lookup_lt_Some.
  - apply A.
  - apply A.
  - rewrite (ap_fb _ _ _ _ _ _ _ _ A), length_app. lia.
  - unfold set_din_size. by rewrite put32_length.
  - rewrite length_app. apply (head_size _ _ (Z.of_nat (length C))); [done|unfold in_u32; sizes; lia|]. apply (head_take d); [|done]. by apply (ap_din _ _ _ _ _ _ _ _ A).
  - by apply put_le_bytes.
Qed.

Lemma get_replicate w n o : get_le w (replicate n 0) o = 0.
Proof.
  revert o; induction w as [|w IH]; intros o; cbn [get_le]; [done|]. rewrite IH. unfold byte_at. rewrite nth_lookup.
  destruct (replicate n 0 !! o) eqn:E; [|done]. apply lookup_replicate in E as [-> _]. done.
Qed.
Lemma new_dinode_addr t k : 0 <= k -> din_addr (new_dinode t) k = 0.
Proof.
  intros Hk. unfold din_addr, new_dinode. rewrite get32_put32_ne, !get32_put16_ne by lia. apply get_replicate.
Qed.
Lemma new_dinode_ok t : din_ok (new_dinode t).
Proof.
  unfold new_dinode. apply put32_ok. split; [by rewrite !put16_length|]. do 2 apply put_le_bytes. apply Forall_replicate. unfold byte_ok. lia.
Qed.
Lemma slots_snoc D v e n k : is_slot k -> (forall i, 0 <= i -> din_addr e i = 0) -> slots (D ++ [e]) v n k = slots D v n k.
Proof.
  intros Hk He. destruct (decide (n = length D)) as [->|Hne].
  - rewrite (slots_din _ _ _ e) by (unfold is_slot in Hk; (lia || by apply list_lookup_middle)). unfold slots. rewrite (lookup_ge_None_2 D) by lia.
    unfold is_slot in Hk. rewrite !He by lia. by destruct (k <=? 12).
  - unfold slots. destruct (decide (n < length D)%nat); [by rewrite lookup_app_l|]. by rewrite !lookup_ge_None_2 by (rewrite ?length_app; cbn; lia).
Qed.
Lemma laid_snoc fb v D e : laid fb v D -> din_ok e -> (forall i, 0 <= i -> din_addr e i = 0) -> laid fb v (D ++ [e]).
Proof.
  intros [L1 L2 L3 L4 L5 L6] Ho He. constructor; [done| |done|done| |].
  - intros n d [Hd|[_ Hd]]%lookup_app_Some; [by apply (L2 n)|]. by apply list_lookup_singleton_Some in Hd as [_ <-].
  - intros n k Hk. rewrite slots_snoc by done. by apply L5.
  - intros n k n' k' Hk Hk'. rewrite !slots_snoc by done. by apply L6.
Qed.
Lemma empty_file D v n : D !! n = None -> file_is D v n [].
Proof.
  intros Hn. assert (Es : forall k, slots D v n k = 0) by (intros k; unfold slots; by rewrite Hn). constructor; cbn [length].
  - intros bn Hbn. rewrite Es. sizes. lia.
  - rewrite Es. sizes. lia.
  - intros j Hj. unfold fd. rewrite Es. cbn [Z.eqb]. unfold byte_at. rewrite nth_lookup, (nth_lookup []).
    destruct (replicate 512 0 !! _) eqn:E; [|done]. apply lookup_replicate in E as [-> _]. done.
  - sizes. cbn. lia.
Qed.
Lemma ialloc_runs w F t : built w F -> 2 + Z.of_nat (length F) <= NINODES -> t = T_DIR \/ t = T_FILE ->
  mruns (ialloc t) w (fun inum w' => inum = Z.of_nat (length F) + 1 /\ built w' (F ++ [(t, [])])).
Proof.
  intros [D B] Hroom Ht. unfold ialloc. msteps. rewrite (bu_fi _ _ _ B). pose proof (bu_length _ _ _ B) as EL. unfold NINODES in Hroom. rewrite u32_small by (unfold in_u32; lia).
  set (n := length F). replace (1 + Z.of_nat n) with (Z.of_nat n + 1) by lia. pose proof (bu_files _ _ _ B) as [L HF].
  apply (winode_runs _ D); [done|unfold NINODES; lia|]. cbv zeta beta. msteps. split; [done|]. cbn [mv_fi mv_fb mv_v]. set (b := IBLOCK _ sb).
  assert (Hb : 32 <= b < nmeta - 1) by (apply iblock_meta; unfold NINODES; lia). pose proof (la_block _ _ _ L b ltac:(sizes; lia)) as Bb.
  destruct (new_dinode_ok t) as [Nl Nb]. set (e := new_dinode t). assert (He : forall i, 0 <= i -> din_addr e i = 0) by (intros; by apply new_dinode_addr).
  exists (D ++ [e]). constructor; cbn [mv_fi mv_fb mv_v].
  - rewrite map_app. apply (meta_files _ _ (mv_v w)); [|lia|by apply splice_ok]. split; cbn [mv_fb mv_v]; [by apply laid_snoc|].
    intros n' C HC. apply (file_is_ext D (mv_v w)); [intros k Hk; by rewrite slots_snoc|intros bn Hbn; unfold fd; cbv zeta; by rewrite slots_snoc by (done || by apply is_slot_fslot)|].
    apply lookup_app_Some in HC as [HC|[Hn' HC]]; [by apply HF|]. apply list_lookup_singleton_Some in HC as [Hz <-].
    apply empty_file. apply lookup_ge_None_2. rewrite length_map in Hn'. lia.
  - rewrite !length_app. cbn. lia.
  - rewrite length_app. cbn. lia.
  - rewrite length_app. cbn. unfold NINODES. lia.
  - intros n' d Hd. unfold b. rewrite stored_winode by (unfold NINODES; lia || done || apply Bb). case_decide as E.
    + rewrite E in Hd. rewrite (list_lookup_middle D [] e n) in Hd by (unfold n; lia). by injection Hd.
    + apply (bu_stored _ _ _ B). apply lookup_app_Some in Hd as [Hd|[Hn' Hd]]; [done|]. apply list_lookup_singleton_Some in Hd as [Hz _]. unfold n in E. lia.
  - intros n' d t' C Hd HC. apply lookup_app_Some in Hd as [Hd|[Hn' Hd]].
    + rewrite lookup_app_l in HC by (rewrite <- EL; by eapply lookup_lt_Some). by apply (bu_head _ _ _ B n').
    + apply list_lookup_singleton_Some in Hd as [Hz <-]. rewrite lookup_app_r in HC by lia. apply list_lookup_singleton_Some in HC as [_ [= <- <-]]. by apply new_head.
  - rewrite image_total_app, (bu_fb _ _ _ B). change (total [(t, [])]) with 0. lia.
  - unfold fupd. rewrite (proj2 (Z.eqb_neq 1 b)) by lia. apply B.
Qed.

(** ** The whole run *)

Fixpoint entries (inum : Z) (names : list (list Z)) : list Z :=
  match names with
  | [] => []
  | a :: names' => dirent inum a ++ entries (inum + 1) names'
  end.
Definition root_entries (names : list (list Z)) : list Z := dirent 1 [46] ++ dirent 1 [46; 46] ++ entries 2 names.
(** The inodes of an image with the given names and contents. *)
Definition tree (files : list (list Z * list Z)) : list (Z * list Z) :=
  (T_DIR, root_entries (map fst files)) :: map (fun f => (T_FILE, snd f)) files.
Definition data_blocks (files : list (list Z * list Z)) : Z := foldr (fun f z => nblk (Z.of_nat (length (snd f))) + z) 0 files.

Lemma entries_snoc names a : forall inum, entries inum (names ++ [a]) = entries inum names ++ dirent (inum + Z.of_nat (length names)) a.
Proof.
  induction names as [|b names IH]; intros inum; cbn [app entries length].
  - by rewrite app_nil_r, Z.add_0_r.
  - rewrite IH, <- app_assoc. do 3 f_equal. lia.
Qed.
Lemma entries_length names inum : length (entries inum names) = (16 * length names)%nat.
Proof. revert inum; induction names as [|a names IH]; intros inum; [done|]. cbn [entries length]. rewrite length_app, IH, dirent_length. lia. Qed.
Lemma root_length names : length (root_entries names) = (16 * (2 + length names))%nat.
Proof. unfold root_entries. rewrite !length_app, entries_length, !dirent_length. lia. Qed.
Lemma tree_length files : length (tree files) = (1 + length files)%nat.
Proof. cbn. by rewrite length_map. Qed.
Lemma total_tree files : total (tree files) = nblk (16 * (2 + Z.of_nat (length files))) + data_blocks files.
Proof.
  unfold tree, total, data_blocks. cbn [foldr snd]. rewrite root_length, length_map. f_equal; [f_equal; lia|].
  induction files as [|f files IH]; cbn [map foldr snd]; [done|]. by rewrite IH.
Qed.
Lemma nblk_nonneg a : 0 <= a -> 0 <= nblk a.
Proof. intros H. unfold nblk. pose proof (Z.div_pos (a + 511) 512 ltac:(lia) ltac:(lia)). destruct (_ <? _); lia. Qed.
Lemma data_blocks_app a b : data_blocks (a ++ b) = data_blocks a + data_blocks b.
Proof. induction a as [|f a IH]; [done|]. cbn [app]. unfold data_blocks in *. cbn [foldr]. lia. Qed.
Lemma data_blocks_nonneg a : 0 <= data_blocks a.
Proof. induction a as [|f a IH]; [done|]. unfold data_blocks in *. cbn [foldr]. pose proof (nblk_nonneg (Z.of_nat (length (snd f)))). lia. Qed.
Lemma total_tree_mono a b : total (tree a) <= total (tree (a ++ b)).
Proof.
  rewrite !total_tree, data_blocks_app, length_app. pose proof (data_blocks_nonneg b). pose proof (nblk_mono (16 * (2 + Z.of_nat (length a))) (16 * (2 + Z.of_nat (length a + length b)))). lia.
Qed.

Lemma append_all_runs reads : forall w F n t C,
  built w F -> F !! n = Some (t, C) -> Forall byte_ok (concat reads) -> Z.of_nat (length C + length (concat reads)) <= MAXFILE * BSIZE ->
  nmeta + total (<[n := (t, C ++ concat reads)]> F) <= FSSIZE ->
  mruns (append_all (Z.of_nat n + 1) reads) w (fun _ w' => built w' (<[n := (t, C ++ concat reads)]> F)).
Proof.
  induction reads as [|p reads IH]; intros w F n t C B HF Hb Hmax Hroom; cbn [append_all concat] in *.
  { msteps. by rewrite app_nil_r, list_insert_id. }
  apply Forall_app in Hb as [Hb1 Hb2]. rewrite length_app in Hmax. rewrite (total_insert _ _ _ _ _ _ HF), !length_app in Hroom.
  pose proof (nblk_mono (Z.of_nat (length C + length p)) (Z.of_nat (length C + (length p + length (concat reads)))) ltac:(lia)) as Hm.
  apply mruns_bind. eapply mruns_mono; [apply (iappend_runs w F n t C p B HF Hb1 ltac:(lia))|].
  { rewrite (total_insert _ _ _ _ _ _ HF), length_app. lia. }
  intros [] w1 B1. cbv beta in B1. pose proof (lookup_lt_Some _ _ _ HF) as Hn. assert (HF1 : <[n := (t, C ++ p)]> F !! n = Some (t, C ++ p)) by (by apply list_lookup_insert_eq).
  eapply mruns_mono; [apply (IH w1 _ n t (C ++ p) B1 HF1 Hb2); [rewrite length_app; lia|]|].
  - rewrite (total_insert _ _ _ _ _ _ HF1), (total_insert _ _ _ _ _ _ HF), !length_app, <- Nat.add_assoc. lia.
  - intros [] w2. by rewrite list_insert_insert_eq, <- app_assoc.
Qed.

Definition hosted (host : list Z -> option (list (list Z))) (a : list Z) (f : list Z * list Z) : Prop :=
  exists reads, host a = Some reads /\ 47 ∉ a /\ f = (strip_underscore a, concat reads) /\
    Forall byte_ok a /\ Forall byte_ok (concat reads) /\ Z.of_nat (length (concat reads)) <= MAXFILE * BSIZE.

Lemma strip_bytes a : Forall byte_ok a -> Forall byte_ok (strip_underscore a).
Proof.
  intros H. unfold strip_underscore. destruct a as [|z a]; [done|]. destruct (z =? 95); [|done]. by apply Forall_cons in H as [_ H].
Qed.

Lemma tree_snoc files f : tree (files ++ [f]) =
  (T_DIR, root_entries (map fst files) ++ dirent (2 + Z.of_nat (length files)) (fst f)) :: map (fun f => (T_FILE, snd f)) files ++ [(T_FILE, snd f)].
Proof.
  unfold tree, root_entries. rewrite !map_app. cbn [map]. rewrite entries_snoc, length_map, <- !app_assoc. done.
Qed.
Lemma add_files_runs host argv : forall w before files,
  built w (tree before) -> Forall2 (hosted host) argv files -> 1 + Z.of_nat (1 + length before + length files) <= NINODES ->
  nmeta + total (tree (before ++ files)) <= FSSIZE ->
  mruns (add_files host 1 argv) w (fun _ w' => built w' (tree (before ++ files))).
Proof.
  induction argv as [|a argv IH]; intros w before files B HH Hn Hroom.
  { apply Forall2_nil_inv_l in HH as ->. cbn [add_files]. msteps. by rewrite app_nil_r. }
  apply Forall2_cons_inv_l in HH as (f & files' & (reads & Ha & Hs & -> & Hba & Hbr & Hlen) & HH & ->). cbn [length] in Hn.
  set (f := (strip_underscore a, concat reads)) in *. rewrite cons_middle, app_assoc in Hroom |- *. pose proof (total_tree_mono (before ++ [f]) files') as Hm.
  cbn [add_files]. rewrite bool_decide_eq_false_2 by done. rewrite Ha. apply mruns_bind.
  eapply mruns_mono; [apply (ialloc_runs w _ T_FILE B); [rewrite tree_length; lia|by right]|].
  intros inum w1 [Ei B1]. cbv beta in *. rewrite tree_length in Ei. unfold NINODES in Hn. rewrite xshort_id by lia. msteps. change 1 with (Z.of_nat 0 + 1) at 1.
  set (R := root_entries (map fst before)) in *. set (G := map (fun f => (T_FILE, snd f)) before).
  assert (Ede : dirent inum (strip_underscore a) = dirent (2 + Z.of_nat (length before)) (fst f)) by (f_equal; lia). rewrite Ede.
  set (R' := R ++ dirent (2 + Z.of_nat (length before)) (fst f)). set (F1 := (T_DIR, R') :: G ++ [(T_FILE, [])]).
  assert (LG : length G = length before) by (unfold G; by rewrite length_map).
  assert (Hlast : F1 !! (1 + length before)%nat = Some (T_FILE, [])) by (unfold F1; cbn; by apply list_lookup_middle).
  assert (E2 : <[(1 + length before)%nat := (T_FILE, concat reads)]> F1 = tree (before ++ [f])).
  { rewrite tree_snoc. unfold F1. trans ((T_DIR, R') :: <[length before := (T_FILE, concat reads)]> (G ++ [(T_FILE, [])])); [done|]. f_equal.
    rewrite <- LG. by rewrite insert_app_r_alt, Nat.sub_diag by lia. }
  pose proof (total_insert F1 _ _ _ T_FILE (concat reads) Hlast) as E3. rewrite E2 in E3. change (nblk (Z.of_nat (length []))) with 0 in E3.
  pose proof (nblk_nonneg (Z.of_nat (length (concat reads))) ltac:(lia)) as H0. eapply mruns_mono; [apply (iappend_runs w1 (tree before ++ [(T_FILE, [])]) 0 T_DIR R); [exact B1|done| | |]|].
  - apply dirent_bytes, strip_bytes, Hba.
  - unfold R. rewrite root_length, dirent_length, length_map. sizes. lia.
  - enough (nmeta + total F1 <= FSSIZE) as H by exact H. lia.
  - intros [] w2 B2. cbv beta in B2. change (<[0%nat := (T_DIR, R')]> _) with F1 in B2. replace inum with (Z.of_nat (1 + length before) + 1) by lia. apply mruns_bind.
    eapply mruns_mono; [apply (append_all_runs reads w2 F1 _ T_FILE []); [done|done|done|cbn [length]; lia|]|].
    + cbn [app]. rewrite E2. lia.
    + intros [] w3 B3. cbn [app] in B3. rewrite E2 in B3. apply IH; [done|done|rewrite length_app; cbn; unfold NINODES; lia|done].
Qed.

Lemma zero_sectors_run n : forall i m, length (m_img m) = Z.to_nat i -> 0 <= i -> i + Z.of_nat n <= FSSIZE ->
  zero_sectors n i m = Ret tt (set_img (m_img m ++ replicate n (replicate 512 0)) m).
Proof.
  induction n as [|n IH]; intros i m Hl Hi Hn; cbn [zero_sectors].
  { rewrite app_nil_r. by destruct m. }
  unfold wsect, write_at. munfold. rewrite sector_id, Hl, Nat.ltb_irrefl, Nat.sub_diag by lia. cbn [replicate app].
  rewrite IH by (cbn [set_img m_img]; (rewrite length_app; cbn; lia) || lia). unfold set_img. cbn. by rewrite <- app_assoc.
Qed.
Lemma zero_block_ok : block_ok (replicate 512 0).
Proof. split; [done|]. apply Forall_replicate. unfold byte_ok. lia. Qed.
Lemma sb_sector_ok : block_ok sb_sector.
Proof. apply put_words_ok, zero_block_ok. Qed.
Lemma first_view : built (mk_mview 1 nmeta (fupd 1 sb_sector (fun _ => replicate 512 0))) [].
Proof.
  exists []. assert (Es : forall v n k, slots [] v n k = 0) by done. constructor; cbn [mv_fi mv_fb mv_v]; try done. split; [|done]. constructor; cbn [mv_fb mv_v]; try done.
  - intros b Hb. unfold fupd. destruct (b =? 1); [apply sb_sector_ok|apply zero_block_ok].
  - intros b Hb. unfold fupd. by rewrite (proj2 (Z.eqb_neq b 1)) by (sizes; lia).
Qed.

Definition root_size (len : Z) : Z := (len / BSIZE + 1) * BSIZE.
Record finished (w : mview) (F : list (Z * list Z)) (D : list (list Z)) : Prop := mk_finished {
  fn_files : files_are w D (map snd F);
  fn_length : length D = length F;
  fn_inodes : 1 + Z.of_nat (length F) <= NINODES;
  fn_stored : forall n d, D !! n = Some d -> stored (mv_v w) n = d;
  fn_head : forall n d t C, D !! n = Some d -> F !! n = Some (t, C) ->
    head_is d t (if decide (n = 0%nat) then root_size (Z.of_nat (length C)) else Z.of_nat (length C));
  fn_fb : mv_fb w = nmeta + total F;
  fn_bitmap : mv_v w (sb_bmapstart sb) = mark_used (Z.to_nat (mv_fb w)) 0 (replicate 512 0);
  fn_sb : mv_v w 1 = sb_sector }.

Lemma mark_used_ok n : forall i buf, 0 <= i -> i + Z.of_nat n <= BPB -> block_ok buf ->
  block_ok (mark_used n i buf) /\
  forall j, 0 <= j < BPB -> bitb (mark_used n i buf) j = (i <=? j) && (j <? i + Z.of_nat n) || bitb buf j.
Proof.
  induction n as [|n IH]; intros i buf Hi Hn Hb; cbn [mark_used].
  { split; [done|]. intros j Hj. destruct (Z.leb_spec i j), (Z.ltb_spec j (i + Z.of_nat 0)); try done. lia. }
  pose proof (set_bit_ok buf i Hb) as Hb'.
  destruct (IH (i + 1) (set_bit buf i) ltac:(lia) ltac:(lia) Hb') as [H1 H2]. split; [done|]. intros j Hj. rewrite H2 by done.
  rewrite bitb_set by (done || lia || apply Hb). destruct (Z.eqb_spec j i), (Z.leb_spec i j), (Z.ltb_spec j (i + Z.of_nat (S n))), (Z.leb_spec (i + 1) j), (Z.ltb_spec j (i + 1 + Z.of_nat n)); (done || lia).
Qed.

(** The last steps: the size of the root directory, and the bitmap. *)
Lemma finish_runs w F : built w F -> (0 < length F)%nat ->
  mruns (din ← rinode (Z.of_nat 0 + 1);
         let off := xint (din_size din) in
         let off := u32 ((off / BSIZE + 1) * BSIZE) in
         winode (Z.of_nat 0 + 1) (set_din_size (xint off) din) ;;
         used ← gets m_freeblock;
         balloc used) w (fun _ w' => exists D, finished w' F D).
Proof.
  intros [D B] Hlen. pose proof (bu_files _ _ _ B) as [L HF]. pose proof (bu_length _ _ _ B) as EL. pose proof (la_range _ _ _ L) as Hr.
  destruct (lookup_lt_is_Some_2 D 0) as [d Hd]; [lia|]. destruct (lookup_lt_is_Some_2 F 0 Hlen) as [[t C] HFC].
  pose proof (bu_inodes _ _ _ B) as Hni. pose proof (iblock_meta 0 ltac:(unfold NINODES; lia)) as Hib.
  unfold rinode. msteps. apply mruns_rsect; [sizes; lia|]. msteps. change (take 64 _) with (stored (mv_v w) 0). rewrite (bu_stored _ _ _ B _ _ Hd). cbv zeta.
  pose proof (bu_head _ _ _ B 0 d t C Hd HFC) as Hh. replace (din_size d) with (Z.of_nat (length C)) by (symmetry; apply Hh).
  pose proof (fi_size _ _ _ _ (HF 0%nat C (fmap_snd_lookup _ _ _ _ HFC))) as HC. rewrite (xint_id (Z.of_nat (length C))) by (unfold in_u32; sizes; lia).
  fold (root_size (Z.of_nat (length C))).
  assert (Hrs : 0 <= root_size (Z.of_nat (length C)) < 2 ^ 31).
  { unfold root_size. sizes. pose proof (Z.div_pos (Z.of_nat (length C)) 512). assert (Z.of_nat (length C) / 512 <= 140) by (apply Z.div_le_upper_bound; lia). lia. }
  rewrite (u32_small (root_size (Z.of_nat (length C)))) by (unfold in_u32; lia). set (d' := set_din_size _ d). destruct (la_din _ _ _ L _ _ Hd) as [Hl Hb].
  assert (Hl' : length d' = 64%nat) by (unfold d', set_din_size; by rewrite put32_length). assert (Hb' : Forall byte_ok d') by (by apply put_le_bytes).
  apply (winode_runs w D); [done|unfold NINODES; lia|]. cbv zeta beta. msteps. cbn [mv_fi mv_fb mv_v]. set (b := IBLOCK _ sb) in *. unfold balloc.
  rewrite (proj2 (Z.ltb_lt _ _)) by (sizes; lia). cbn [negb]. apply mruns_wsect; [done|]. change (sb_bmapstart sb) with 58. cbn [mv_fi mv_fb mv_v]. exists (<[0%nat := d']> D).
  destruct (mark_used_ok (Z.to_nat (mv_fb w)) 0 (replicate 512 0) ltac:(lia) ltac:(unfold BPB; sizes; lia) zero_block_ok) as [Bm _].
  constructor; cbn [mv_fi mv_fb mv_v]; rewrite ?length_insert; [|done|done| | | | |].
  - apply meta_files; [|rewrite nmeta_val; lia|done]. apply meta_files; [|lia|apply splice_ok; [apply (la_block _ _ _ L); sizes; lia|done]].
    apply (files_are_din (mk_mview _ _ _)); [by split|done].
  - intros n e He. pose proof (lookup_lt_Some _ _ _ He) as Hn. rewrite length_insert in Hn. unfold stored at 1. unfold fupd at 1.
    pose proof (iblock_meta n ltac:(unfold NINODES in *; lia)) as Hn58. rewrite nmeta_val in Hn58. rewrite (proj2 (Z.eqb_neq _ 58)) by lia. fold (stored (fupd b (splice (mv_v w b) (di_off (Z.of_nat 0 + 1)) d') (mv_v w)) n).
    unfold b. rewrite stored_winode by (unfold NINODES; lia || done || apply (la_block _ _ _ L); sizes; lia). case_decide as E.
    + rewrite E in He. rewrite list_lookup_insert_eq in He by lia. by injection He.
    + rewrite list_lookup_insert_ne in He by done. by apply (bu_stored _ _ _ B).
  - intros n e t' C' He HF'. case_decide as E.
    + subst n. rewrite list_lookup_insert_eq in He by lia. injection He as <-. rewrite HFC in HF'. injection HF' as <- <-. by apply (head_size _ _ (Z.of_nat (length C))); [|unfold in_u32; lia|].
    + rewrite list_lookup_insert_ne in He by done. by apply (bu_head _ _ _ B n).
  - apply B.
  - done.
  - unfold fupd. rewrite (proj2 (Z.eqb_neq 1 b)) by lia. apply B.
Qed.

Lemma mruns_exists (c : M image unit) m w (Q : mview -> list (list Z) -> Prop) : shows m w -> mruns c w (fun _ w' => exists D, Q w' D) ->
  exists m' w' D, c m = Ret tt m' /\ shows m' w' /\ Q w' D.
Proof. intros S H. destruct (H m S) as ([] & m' & w' & E & S' & D & HQ). by exists m', w', D. Qed.
Lemma main_builds host a0 a1 argv files :
  Forall2 (hosted host) argv files -> 1 + Z.of_nat (1 + length files) <= NINODES -> nmeta + total (tree files) <= FSSIZE ->
  exists m w D, main host (a0 :: a1 :: argv) initial = Ret tt m /\ shows m w /\ finished w (tree files) D.
Proof.
  intros HH Hn Hroom. unfold main. set (m1 := mk_image (replicate 1000 (replicate 512 0)) 1 nmeta).
  rewrite (bind_eq _ _ _ tt (mk_image [] 1 nmeta)) by done. rewrite (bind_eq _ _ _ tt m1) by (rewrite zero_sectors_run; [done|done|lia|done]).
  assert (L1 : length (m_img m1) = Z.to_nat FSSIZE) by (unfold m1; cbn [m_img]; by rewrite length_replicate).
  rewrite (bind_eq _ _ _ _ _ (wsect_run m1 1 sb_sector L1 ltac:(sizes; lia))).
  assert (S1 : shows (put_sector 1 sb_sector m1) (mk_mview 1 nmeta (fupd 1 sb_sector (fun _ => replicate 512 0)))).
  { constructor; cbn [mv_fi mv_fb mv_v]; [by rewrite put_sector_length|done|done|]. intros b Hb. rewrite vw_put by (done || sizes; lia). unfold fupd.
    destruct (b =? 1); [done|]. unfold vw, m1. cbn [m_img]. rewrite nth_lookup, lookup_replicate_2; [done|]. sizes. lia. }
  apply (mruns_exists _ _ _ _ S1).
  apply mruns_bind. eapply mruns_mono; [apply (ialloc_runs _ [] T_DIR first_view); [done|by left]|]. intros inum w1 [-> B1]. cbv beta in B1.
  change (negb (Z.of_nat (length []) + 1 =? ROOTINO)) with false. cbv iota. change (xshort (Z.of_nat (length []) + 1)) with 1. change (length []) with 0%nat.
  assert (Hdot : forall l, Forall byte_ok l -> Forall byte_ok (dirent 1 l)) by (intros l; apply dirent_bytes). cbn [app] in B1.
  apply mruns_bind. eapply mruns_mono; [apply (iappend_runs w1 _ 0 T_DIR [] (dirent 1 [46]) B1); [done|apply Hdot; repeat constructor; unfold byte_ok; lia|done|done]|].
  intros [] w2 B2. cbv beta in B2. apply mruns_bind.
  eapply mruns_mono; [apply (iappend_runs w2 _ 0 T_DIR (dirent 1 [46]) (dirent 1 [46; 46]) B2); [done|apply Hdot; repeat constructor; unfold byte_ok; lia|done|done]|].
  intros [] w3 B3. cbv beta in B3. apply mruns_bind. eapply mruns_mono; [apply (add_files_runs host argv w3 [] files); [exact B3|done|cbn [length]; lia|done]|].
  intros [] w4 B4. cbv beta in B4. apply finish_runs; [done|]. rewrite tree_length. lia.
Qed.
