(* ===== verification/MkfsMount.v ===== *)
(** The image of [mkfs.c] as the kernel finds it.

    [mounted m s]: the disk of the kernel state [s] holds the image [m], and the
    superblock has been read from it.  [loads s i inum]: slot [i] of the inode table
    holds inode [inum] as [ilock] reads it from the disk. *)

From S2P Require Import Prelude CString Locks Guarded Bytes Fs FsBlocks FsInode FsDir Mkfs MkfsImage.

Record mounted (m : image) (s : fs) : Prop := mk_mounted {
  mo_view : forall b, 0 <= b < FSSIZE -> f_view s b = vw m b;
  mo_sb : f_sb s = read_sb (f_view s 1);
  mo_disk : f_disksize s = FSSIZE;
  mo_tx : 1 <= f_outstanding s }.
Definition loads (s : fs) (i : nat) (inum : Z) : Prop :=
  (i < length (f_icache s))%nat /\
  exists p, i_inum p = inum /\ ino s i = get_dinode (f_view s (IBLOCK inum (f_sb s))) (di_off inum) p.

Lemma get_field b o w off : (o + 64 <= length b)%nat -> (off + w <= 64)%nat -> get_le w (take 64 (drop o b)) off = get_le w b (o + off).
Proof.
  intros Ho. revert off; induction w as [|w IH]; intros off Hw; cbn [get_le]; [done|]. rewrite IH, Nat.add_succ_r by lia. f_equal.
  unfold byte_at. rewrite !nth_lookup, lookup_take_lt, lookup_drop by lia. done.
Qed.

Section Mounted.
Context (m : image) (w : mview) (F : list (Z * list Z)) (D : list (list Z)) (s : fs).
Context (Hm : shows m w) (Hf : finished w F D) (Hs : mounted m s).
Notation v := (mv_v w).

Lemma view_is b : 0 <= b < FSSIZE -> f_view s b = v b.
Proof. intros Hb. rewrite (mo_view _ _ Hs b Hb). by apply (sh_v _ _ Hm). Qed.
Lemma mounted_sb : f_sb s = sb.
Proof. rewrite (mo_sb _ _ Hs), view_is by (sizes; lia). rewrite (fn_sb _ _ _ Hf). by vm_compute. Qed.
Lemma mounted_laid : laid (mv_fb w) v D.
Proof. apply (fn_files _ _ _ Hf). Qed.
Lemma mounted_used b : 0 <= b < FSSIZE -> usedb s b = (b <? mv_fb w).
Proof.
  intros Hb. pose proof (la_range _ _ _ mounted_laid) as Hr. unfold usedb. rewrite mounted_sb. unfold BBLOCK.
  replace (b / BPB) with 0 by (symmetry; apply Z.div_small; unfold BPB; sizes; lia). rewrite Z.add_0_l, view_is by done. rewrite (fn_bitmap _ _ _ Hf).
  rewrite Z.mod_small by (unfold BPB; sizes; lia).
  destruct (mark_used_ok (Z.to_nat (mv_fb w)) 0 (replicate 512 0) ltac:(lia) ltac:(unfold BPB; sizes; lia) zero_block_ok) as [_ H].
  rewrite H by (unfold BPB; sizes; lia). assert (E : bitb (replicate 512 0) b = false).
  { unfold bitb, byte_at. rewrite nth_lookup. destruct (replicate 512 0 !! _) eqn:E; cbn; [|apply Z.bits_0]. apply lookup_replicate in E as [-> _]. apply Z.bits_0. }
  rewrite E, orb_false_r. sizes. destruct (Z.leb_spec 0 b), (Z.ltb_spec b (0 + Z.of_nat (Z.to_nat (mv_fb w)))), (Z.ltb_spec b (mv_fb w)); (done || lia).
Qed.
Lemma mounted_data_start : data_start s = nmeta.
Proof. unfold data_start. by rewrite mounted_sb. Qed.
Lemma mounted_ok : fs_ok s.
Proof.
  pose proof (la_range _ _ _ mounted_laid) as Hr. pose proof (mo_disk _ _ Hs) as Hd. constructor; rewrite ?mounted_sb, ?Hd, ?mounted_data_start.
  - done.
  - done.
  - done.
  - done.
  - intros b Hb. rewrite view_is by done. by apply (la_block _ _ _ mounted_laid).
  - intros b Hb. rewrite mounted_used by (sizes; lia). lia.
  - apply Hs.
Qed.

Section Loaded.
Context (i n : nat) (d : list Z) (t : Z) (C : list Z).
Context (Hl : loads s i (Z.of_nat n + 1)) (Hd : D !! n = Some d) (HC : F !! n = Some (t, C)).
Lemma inode_block : 0 <= IBLOCK (Z.of_nat n + 1) sb < FSSIZE.
Proof.
  pose proof (fn_inodes _ _ _ Hf). pose proof (lookup_lt_Some _ _ _ HC). pose proof (iblock_meta n ltac:(lia)). sizes. lia.
Qed.
Lemma inode_field k off : (off + k <= 64)%nat ->
  get_le k (f_view s (IBLOCK (Z.of_nat n + 1) (f_sb s))) (di_off (Z.of_nat n + 1) + off) = get_le k d off.
Proof.
  intros Hk. rewrite mounted_sb, view_is by apply inode_block. rewrite <- (fn_stored _ _ _ Hf n d Hd). unfold stored. symmetry. apply get_field; [|done].
  destruct (la_block _ _ _ mounted_laid _ inode_block) as [-> _]. apply di_off_range.
Qed.
Lemma loaded_addrs : i_addrs (ino s i) = i_addrs (dnode d).
Proof.
  destruct Hl as (_ & p & _ & ->). unfold dnode, get_dinode. cbn [i_addrs]. apply map_ext_in. intros k Hk%in_seq. unfold get32.
  rewrite <- Nat.add_assoc, inode_field by lia. done.
Qed.
Lemma loaded_slot k : is_slot k -> addr s i k = slots D v n k.
Proof.
  intros Hk. unfold addr. assert (E : slots D v n k = slot_addr v (dnode d) k) by (unfold slots; by rewrite Hd). rewrite E.
  unfold slot_addr. rewrite loaded_addrs. destruct (k <=? 12) eqn:Ek; [done|]. change 12%nat with (Z.to_nat 12). rewrite dnode_addr by lia.
  destruct (Z.eqb_spec (din_addr d 12) 0) as [|Ha]; [done|]. rewrite view_is; [done|]. rewrite <- (slots_low D v n d 12 Hd) in Ha |- * by lia.
  pose proof (la_slots _ _ _ mounted_laid n 12 ltac:(unfold is_slot; lia) Ha). pose proof (la_range _ _ _ mounted_laid). sizes. lia.
Qed.
Lemma loaded_data bn : 0 <= bn < MAXFILE -> fdata s i bn = fd D v n bn.
Proof.
  intros Hbn. destruct (is_slot_fslot bn Hbn) as [Hk _]. unfold fdata, fd. cbv zeta. rewrite loaded_slot by done.
  destruct (Z.eqb_spec (slots D v n (fslot bn)) 0) as [|Ha]; [done|]. apply view_is. pose proof (la_slots _ _ _ mounted_laid n _ Hk Ha). pose proof (la_range _ _ _ mounted_laid). sizes. lia.
Qed.
Definition disk_size : Z := if decide (n = 0%nat) then root_size (Z.of_nat (length C)) else Z.of_nat (length C).
Lemma loaded_fields : t = T_DIR \/ t = T_FILE ->
  i_inum (ino s i) = Z.of_nat n + 1 /\ i_type (ino s i) = t /\ i_nlink (ino s i) = 1 /\ i_size (ino s i) = disk_size.
Proof.
  intros Ht. destruct Hl as (_ & p & Ep & ->). unfold get_dinode. cbn [i_inum i_type i_nlink i_size]. split; [done|].
  destruct (fn_head _ _ _ Hf n d t C Hd HC) as (H1 & _ & _ & H4 & H5). rewrite <- (Nat.add_0_r (di_off _)) at 1. unfold get16, get32.
  rewrite !inode_field by lia. unfold get16, din_size, get32 in *. rewrite H1, H4, H5. destruct Ht as [-> | ->]; done.
Qed.
Lemma loaded_ok : t = T_DIR \/ t = T_FILE -> disk_size <= MAXFILE * BSIZE -> inode_ok s i.
Proof.
  intros Ht Hsz. destruct (loaded_fields Ht) as (E1 & _ & _ & E4). pose proof (la_range _ _ _ mounted_laid) as Hr. constructor.
  - apply Hl.
  - by rewrite loaded_addrs.
  - intros k Hk. rewrite loaded_slot by done. intros Ha. pose proof (la_slots _ _ _ mounted_laid n k Hk Ha) as H.
    rewrite mounted_used by (sizes; lia). unfold data_block. rewrite mounted_data_start, mounted_sb. change (sb_size sb) with FSSIZE. split; lia.
  - intros k k' Hk Hk'. rewrite !loaded_slot by done. intros Ha E. by apply (la_inj _ _ _ mounted_laid n k n k').
  - rewrite E1, mounted_sb. change (sb_ninodes sb) with NINODES. pose proof (fn_inodes _ _ _ Hf). pose proof (lookup_lt_Some _ _ _ HC). lia.
  - rewrite E4. split; [|done]. unfold disk_size, root_size. sizes. pose proof (Z.div_pos (Z.of_nat (length C)) 512). case_decide; lia.
Qed.
Lemma loaded_contents : t = T_DIR \/ t = T_FILE -> Z.of_nat (length C) <= disk_size <= MAXFILE * BSIZE ->
  contents s i = C ++ replicate (Z.to_nat disk_size - length C) 0.
Proof.
  intros Ht Hsz. destruct (loaded_fields Ht) as (_ & _ & _ & E4). unfold contents. rewrite E4. destruct (fn_files _ _ _ Hf) as [_ HF].
  specialize (HF n C (fmap_snd_lookup _ _ _ _ HC)). apply list_eq. intros j. destruct (decide (j < Z.to_nat disk_size)%nat) as [Hj|Hj].
  - rewrite slice_lookup by done. unfold file_byte. rewrite Z.add_0_l. assert (Hjm : 0 <= Z.of_nat j < MAXFILE * BSIZE) by lia.
    rewrite loaded_data by (sizes; split; [apply Z.div_pos; lia|apply Z.div_lt_upper_bound; lia]). rewrite (fi_byte _ _ _ _ HF) by done. rewrite Nat2Z.id.
    destruct (decide (j < length C)%nat); [rewrite lookup_app_l by done; symmetry; by apply lookup_nth_Some|].
    rewrite lookup_app_r, nth_overflow by lia. symmetry. apply lookup_replicate_2. lia.
  - rewrite !lookup_ge_None_2; [done|rewrite length_app, length_replicate; lia|rewrite slice_length; lia].
Qed.
End Loaded.
End Mounted.

(** ** The root directory *)

Definition dents (N : list (Z * list Z)) : list Z := N ≫= (fun x => dirent (fst x) (snd x)).
Fixpoint numbered (inum : Z) (names : list (list Z)) : list (Z * list Z) :=
  match names with
  | [] => []
  | a :: names' => (inum, a) :: numbered (inum + 1) names'
  end.
Definition root_list (names : list (list Z)) : list (Z * list Z) := (1, [46]) :: (1, [46; 46]) :: numbered 2 names.
Lemma root_dents names : root_entries names = dents (root_list names).
Proof.
  unfold root_entries, root_list, dents. rewrite !bind_cons. cbn [fst snd]. do 2 f_equal. generalize 2.
  induction names as [|a names IH]; intros z; [done|]. cbn [entries numbered]. by rewrite bind_cons, IH.
Qed.
Lemma numbered_lookup names : forall inum k a, names !! k = Some a -> numbered inum names !! k = Some (inum + Z.of_nat k, a).
Proof.
  induction names as [|b names IH]; intros inum [|k] a H; try done; cbn [numbered].
  - injection H as <-. rewrite Z.add_0_r. done.
  - change (numbered (inum + 1) names !! k = Some (inum + Z.of_nat (S k), a)). rewrite (IH (inum + 1) k a H). do 2 f_equal. lia.
Qed.
Lemma numbered_names inum names : map snd (numbered inum names) = names.
Proof. revert inum; induction names as [|a names IH]; intros inum; [done|]. cbn. by rewrite IH. Qed.
Lemma entry_dents N rest : forall j inum a, N !! j = Some (inum, a) -> entry_at (dents N ++ rest) j = dirent inum a.
Proof.
  induction N as [|[i b] N IH]; intros j inum a H; [done|]. unfold dents. rewrite bind_cons, <- app_assoc. cbn [fst snd]. fold (dents N). pose proof (dirent_length i b) as Hl.
  destruct j as [|j]; cbn in H; unfold entry_at.
  - injection H as -> ->. rewrite Nat.mul_0_r, drop_0. by apply take_app_length'.
  - rewrite drop_app_ge by lia. replace (16 * S j - length (dirent i b))%nat with (16 * j)%nat by lia. by apply IH.
Qed.
Lemma dir_find_dents N rest n k inum a :
  N !! k = Some (inum, a) -> 0 < inum < 2 ^ 16 -> (forall j i b, (j < k)%nat -> N !! j = Some (i, b) -> namecmp a (name_field b) <> 0) ->
  forall j, (j <= k < j + n)%nat -> dir_find n j (dents N ++ rest) a = Some (inum, 16 * Z.of_nat k).
Proof.
  intros Hk Hi Hne. induction n as [|n IH]; intros j Hj; [lia|]. cbn [dir_find]. destruct (decide (j = k)) as [->|].
  - rewrite (entry_dents N rest k inum a Hk), dirent_matches, namecmp_self, dirent_inum. unfold u16. rewrite Z.mod_small by lia. by replace (inum =? 0) with false by lia.
  - destruct (lookup_lt_is_Some_2 N j) as [[i b] Hb]; [apply lookup_lt_Some in Hk; lia|]. rewrite (entry_dents N rest j i b Hb), dirent_matches.
    rewrite (proj2 (Z.eqb_neq (namecmp a (name_field b)) 0)) by (apply (Hne j i b); [lia|done]). rewrite andb_false_r. apply IH. lia.
Qed.
(** No two names are the same to [namecmp]. *)
Definition distinct (names : list (list Z)) : Prop :=
  forall j k a b, names !! j = Some b -> names !! k = Some a -> (j < k)%nat -> namecmp a (name_field b) <> 0.
Lemma root_lookup names k inum a rest :
  root_list names !! k = Some (inum, a) -> 0 < inum < 2 ^ 16 -> distinct ([46] :: [46; 46] :: names) ->
  dir_lookup (root_entries names ++ rest) a = Some (inum, 16 * Z.of_nat k).
Proof.
  intros Hk Hi Hd. unfold dir_lookup. rewrite root_dents. assert (EN : map snd (root_list names) = [46] :: [46; 46] :: names) by (cbn; by rewrite numbered_names).
  apply (dir_find_dents _ _ _ k); [done|done| |].
  - intros j i b Hj Hb. apply (Hd j k); [rewrite <- EN; by eapply fmap_snd_lookup|rewrite <- EN; by eapply fmap_snd_lookup|done].
  - split; [lia|]. rewrite <- root_dents, length_app, root_length. apply lookup_lt_Some in Hk. rewrite <- (length_map snd), EN in Hk. cbn [length] in Hk.
    apply Nat.div_le_lower_bound; lia.
Qed.

(** ** The files of the image *)

(** Two files without a block in common. *)
Definition apart_files (s : fs) (i j : nat) : Prop :=
  i <> j /\ forall k k', 0 <= k <= 140 -> 0 <= k' <= 140 -> addr s i k <> 0 -> addr s i k <> addr s j k'.

Record file_image (files : list (list Z * list Z)) (s : fs) : Prop := mk_file_image {
  im_ok : fs_ok s;
  im_free : forall b, 0 <= b < FSSIZE -> usedb s b = (b <? nmeta + total (tree files));
  im_root : forall i, loads s i ROOTINO ->
    dir_ok s i (32 * ((2 + length files) / 32 + 1)) /\
    dir_lookup (contents s i) [46] = Some (ROOTINO, 0) /\ dir_lookup (contents s i) [46; 46] = Some (ROOTINO, 16) /\
    forall k f, files !! k = Some f -> dir_lookup (contents s i) (fst f) = Some (Z.of_nat k + 2, 16 * (Z.of_nat k + 2));
  im_file : forall i k f, files !! k = Some f -> loads s i (Z.of_nat k + 2) ->
    inode_ok s i /\ i_type (ino s i) = T_FILE /\ i_nlink (ino s i) = 1 /\ contents s i = snd f /\
    forall bn, 0 <= bn -> bn * BSIZE < i_size (ino s i) -> addr s i (fslot bn) <> 0;
  im_apart : forall i j x y, loads s i x -> loads s j y -> 1 <= x < 2 + Z.of_nat (length files) -> 1 <= y < 2 + Z.of_nat (length files) -> x <> y ->
    apart_files s i j }.

Lemma tree_root files : tree files !! 0%nat = Some (T_DIR, root_entries (map fst files)).
Proof. done. Qed.
Lemma tree_file files k f : files !! k = Some f -> tree files !! (S k) = Some (T_FILE, snd f).
Proof. intros H. change (map (fun f => (T_FILE, snd f)) files !! k = Some (T_FILE, snd f)). by rewrite list_lookup_fmap, H. Qed.
Lemma finished_din w F D n : finished w F D -> (n < length F)%nat -> exists d, D !! n = Some d.
Proof. intros Hf Hn. apply lookup_lt_is_Some_2. by rewrite (fn_length _ _ _ Hf). Qed.

Section Image.
Context (m : image) (w : mview) (files : list (list Z * list Z)) (D : list (list Z)) (s : fs).
Context (Hm : shows m w) (Hf : finished w (tree files) D) (Hs : mounted m s).
Context (Hn : 2 + Z.of_nat (length files) <= NINODES).

Lemma root_disk_size : disk_size 0 (root_entries (map fst files)) = 16 * Z.of_nat (32 * ((2 + length files) / 32 + 1)).
Proof.
  unfold disk_size. rewrite decide_True by done. unfold root_size. rewrite root_length, length_map. unfold BSIZE.
  replace (Z.of_nat (16 * (2 + length files))) with (16 * Z.of_nat (2 + length files)) by lia.
  replace 512 with (16 * 32) at 1 by lia. rewrite Z.div_mul_cancel_l by lia. rewrite Nat2Z.inj_mul, (Nat2Z.inj_add (_ / _) 1), Nat2Z.inj_div. lia.
Qed.
Lemma root_is i : distinct ([46] :: [46; 46] :: map fst files) -> loads s i ROOTINO ->
  dir_ok s i (32 * ((2 + length files) / 32 + 1)) /\
  dir_lookup (contents s i) [46] = Some (ROOTINO, 0) /\ dir_lookup (contents s i) [46; 46] = Some (ROOTINO, 16) /\
  forall k f, files !! k = Some f -> dir_lookup (contents s i) (fst f) = Some (Z.of_nat k + 2, 16 * (Z.of_nat k + 2)).
Proof.
  intros Hd Hl. destruct (finished_din _ _ _ 0 Hf) as [d Hdin]; [rewrite tree_length; lia|]. pose proof root_disk_size as Esz. unfold NINODES in Hn.
  set (R := root_entries (map fst files)) in *. assert (HR : Z.of_nat (length R) <= disk_size 0 R <= MAXFILE * BSIZE).
  { rewrite Esz. unfold R. rewrite root_length, length_map. pose proof (Nat.div_mod (2 + length files) 32 ltac:(lia)). pose proof (Nat.mod_upper_bound (2 + length files) 32 ltac:(lia)).
    sizes. lia. }
  assert (Ht : T_DIR = T_DIR \/ T_DIR = T_FILE) by (by left). pose proof (tree_root files) as HF0.
  destruct (loaded_fields m w (tree files) D s Hm Hf Hs i 0 d T_DIR R Hl Hdin HF0 Ht) as (_ & E2 & _ & E4).
  pose proof (loaded_contents m w (tree files) D s Hm Hf Hs i 0 d T_DIR R Hl Hdin HF0 Ht HR) as Ec. rewrite Ec. unfold NINODES in *. split.
  - constructor; [by apply (mounted_ok m w (tree files) D)|by apply (loaded_ok m w (tree files) D s Hm Hf Hs i 0 d T_DIR R); [..|lia]|done|by rewrite E4].
  - split_and!.
    + apply (root_lookup _ 0 1); [done|lia|done].
    + apply (root_lookup _ 1 1); [done|lia|done].
    + intros k f Hk. pose proof (lookup_lt_Some _ _ _ Hk). replace (Z.of_nat k + 2) with (Z.of_nat (S (S k))) by lia. apply root_lookup; [|lia|done].
      change (numbered 2 (map fst files) !! k = Some (Z.of_nat (S (S k)), fst f)). rewrite (numbered_lookup _ 2 k (fst f)) by (by rewrite list_lookup_fmap, Hk). do 2 f_equal. lia.
Qed.
Lemma file_in_image i k f : files !! k = Some f -> loads s i (Z.of_nat k + 2) ->
  inode_ok s i /\ i_type (ino s i) = T_FILE /\ i_nlink (ino s i) = 1 /\ contents s i = snd f /\
  forall bn, 0 <= bn -> bn * BSIZE < i_size (ino s i) -> addr s i (fslot bn) <> 0.
Proof.
  intros Hk Hl. pose proof (tree_file files k f Hk) as HF. replace (Z.of_nat k + 2) with (Z.of_nat (S k) + 1) in Hl by lia.
  destruct (finished_din _ _ _ (S k) Hf) as [d Hdin]; [by eapply lookup_lt_Some|]. destruct (fn_files _ _ _ Hf) as [_ HFs].
  specialize (HFs (S k) (snd f) (fmap_snd_lookup _ _ _ _ HF)). pose proof (fi_size _ _ _ _ HFs) as Hsz. assert (Ht : T_FILE = T_DIR \/ T_FILE = T_FILE) by (by right).
  destruct (loaded_fields m w (tree files) D s Hm Hf Hs i (S k) d T_FILE (snd f) Hl Hdin HF Ht) as (_ & E2 & E3 & E4).
  assert (Esz : disk_size (S k) (snd f) = Z.of_nat (length (snd f))) by done. rewrite Esz in E4. split_and!; try done.
  - by apply (loaded_ok m w (tree files) D s Hm Hf Hs i (S k) d T_FILE (snd f)).
  - rewrite (loaded_contents m w (tree files) D s Hm Hf Hs i (S k) d T_FILE (snd f) Hl Hdin HF Ht) by lia. rewrite Esz, Nat2Z.id, Nat.sub_diag. apply app_nil_r.
  - intros bn Hbn. rewrite E4. intros Hlt. assert (Hb : 0 <= bn < MAXFILE) by (sizes; lia).
    rewrite (loaded_slot m w (tree files) D s Hm Hf Hs i (S k) d T_FILE (snd f) Hl Hdin HF) by (by apply is_slot_fslot). by apply (fi_used _ _ _ _ HFs).
Qed.
Lemma image_apart i j x y : loads s i x -> loads s j y -> 1 <= x < 2 + Z.of_nat (length files) -> 1 <= y < 2 + Z.of_nat (length files) -> x <> y -> apart_files s i j.
Proof.
  intros Hi Hj Hx Hy Hne.
  assert (HL : forall i x, loads s i x -> 1 <= x < 2 + Z.of_nat (length files) -> i_inum (ino s i) = x /\ exists n, x = Z.of_nat n + 1 /\ forall k, is_slot k -> addr s i k = slots D (mv_v w) n k).
  { clear -Hm Hf Hs. intros i x Hl Hx. assert (Hn : (Z.to_nat (x - 1) < length (tree files))%nat) by (rewrite tree_length; lia).
    destruct (lookup_lt_is_Some_2 (tree files) _ Hn) as [[t C] HC]. destruct (finished_din _ _ _ _ Hf Hn) as [d Hd].
    split; [by destruct Hl as (_ & p & <- & ->)|]. exists (Z.to_nat (x - 1)). split; [lia|]. intros k Hk.
    apply (loaded_slot m w (tree files) D s Hm Hf Hs i _ d t C); try done. by replace (Z.of_nat (Z.to_nat (x - 1)) + 1) with x by lia. }
  destruct (HL i x Hi Hx) as (Ei & n & En & Sn), (HL j y Hj Hy) as (Ej & n' & En' & Sn'). split; [congruence|].
  intros k k' Hk Hk' Ha E. rewrite Sn in Ha, E by done. rewrite Sn' in E by done. destruct (la_inj _ _ _ (mounted_laid _ _ _ Hf) n k n' k' Hk Hk' Ha E). lia.
Qed.
(** A root directory that fills its blocks is given another block's size, and no block. *)
Lemma root_hole i : ((2 + length files) mod 32 = 0)%nat -> loads s i ROOTINO ->
  let bn := Z.of_nat ((2 + length files) / 32) in bn * BSIZE < i_size (ino s i) /\ addr s i (fslot bn) = 0.
Proof.
  intros Hmod Hl bn. destruct (finished_din _ _ _ 0 Hf) as [d Hdin]; [rewrite tree_length; lia|]. pose proof root_disk_size as Esz. unfold NINODES in Hn.
  set (R := root_entries (map fst files)) in *. pose proof (Nat.div_mod (2 + length files) 32 ltac:(lia)) as Hdm.
  destruct (loaded_fields m w (tree files) D s Hm Hf Hs i 0 d T_DIR R Hl Hdin (tree_root files) ltac:(by left)) as (_ & _ & _ & E4). rewrite E4, Esz.
  assert (Hb : 0 <= bn < MAXFILE) by (unfold bn; sizes; lia). split; [unfold bn; sizes; lia|].
  rewrite (loaded_slot m w (tree files) D s Hm Hf Hs i 0 d T_DIR R Hl Hdin (tree_root files)) by (by apply is_slot_fslot).
  destruct (fn_files _ _ _ Hf) as [_ HFs]. specialize (HFs 0%nat R (fmap_snd_lookup _ _ _ _ (tree_root files))).
  destruct (Z.eq_dec (slots D (mv_v w) 0 (fslot bn)) 0) as [|Ha]; [done|]. apply (fi_used _ _ _ _ HFs bn Hb) in Ha. unfold R in Ha. rewrite root_length, length_map in Ha. unfold bn in Ha. sizes. lia.
Qed.
End Image.

(** C13: for files that the host can read, whose names have no slash and differ to
    [namecmp], that are few enough for the inodes and fit the disk, [mkfs] makes an image
    that the kernel takes for a file system: [fs_ok] holds, the blocks in use are those
    up to the last one allocated, the root directory has dot, dot-dot and every name
    (without its underscore) with the number of its inode, and that inode is a file
    with the host file's bytes; no two inodes share a block. *)
Theorem mkfs_makes_file_system host a0 a1 argv files :
  Forall2 (hosted host) argv files -> distinct ([46] :: [46; 46] :: map fst files) ->
  2 + Z.of_nat (length files) <= NINODES -> nmeta + total (tree files) <= FSSIZE ->
  exists m, main host (a0 :: a1 :: argv) initial = Ret tt m /\ forall s, mounted m s -> file_image files s.
Proof.
  intros HH Hd Hn Hroom. destruct (main_builds host a0 a1 argv files HH ltac:(lia) Hroom) as (m & w & D & E & Hm & Hf). exists m. split; [exact E|].
  intros s Hs. constructor.
  - by apply (mounted_ok m w (tree files) D).
  - intros b Hb. rewrite (mounted_used m w (tree files) D s Hm Hf Hs b Hb). by rewrite (fn_fb _ _ _ Hf).
  - intros i. by apply (root_is m w files D s Hm Hf Hs Hn).
  - intros i k f. by apply (file_in_image m w files D s Hm Hf Hs).
  - intros i j x y. by apply (image_apart m w files D s Hm Hf Hs).
Qed.
Definition hi_host (a : list Z) : option (list (list Z)) := if bool_decide (a = [95; 97]) then Some [[104]; [105]] else None.
Lemma mkfs_makes_file_system_witness :
  exists m, main hi_host [[]; []; [95; 97]] initial = Ret tt m /\ forall s, mounted m s -> file_image [([97], [104; 105])] s.
Proof.
  apply (mkfs_makes_file_system hi_host [] [] [[95; 97]] [([97], [104; 105])]).
  - constructor; [|done]. exists [[104]; [105]]. split; [done|]. split; [by apply (bool_decide_unpack (47 ∉ [95; 97]))|]. do 3 (split; [repeat constructor; unfold byte_ok; lia|]). done.
  - intros [|[|[|j]]] [|[|[|k]]] a b; cbn; intros [= <-] [= <-] H; (done || lia).
  - done.
  - by vm_compute.
Defined.
