(* ===== verification/File.v ===== *)
(** Open files and the file-system calls: [file.c], [sysfile.c] and [pipealloc] of
    [pipe.c].

    The state has the file system, the table of open files with its lock, and for every
    process its descriptors and current directory.  Open files and inodes are indices into
    their tables, and so is the process, [cur], that makes a call.  Arguments come as the
    result of [argint] and [argstr] ([Syscall] has those), [None] being a failure; a path
    is the bytes before its NUL.  What a call copies to the caller's memory is part of its
    result.  Error messages are left out. *)

From S2P Require Import Prelude CString Locks Guarded Bytes Fs.

Definition NFILE : nat := 100.
Definition NOFILE : nat := 16.
Definition MAXOPBLOCKS : Z := 10.
Definition O_RDONLY : Z := 0.
Definition O_WRONLY : Z := 1.
Definition O_RDWR : Z := 2.
Definition O_CREATE : Z := 512.

Inductive fdtype := FD_NONE | FD_PIPE | FD_INODE.
Record file := mk_file {
  fl_type : fdtype;
  fl_ref : Z;
  fl_readable : bool;
  fl_writable : bool;
  fl_pipe : nat;
  fl_ip : nat;
  fl_off : Z }.
Definition set_fref (v : Z) (f : file) : file :=
  mk_file (fl_type f) v (fl_readable f) (fl_writable f) (fl_pipe f) (fl_ip f) (fl_off f).
Definition set_off (v : Z) (f : file) : file :=
  mk_file (fl_type f) (fl_ref f) (fl_readable f) (fl_writable f) (fl_pipe f) (fl_ip f) v.
(** [f->ref = 0; f->type = FD_NONE]. *)
Definition set_free (f : file) : file :=
  mk_file FD_NONE 0 (fl_readable f) (fl_writable f) (fl_pipe f) (fl_ip f) (fl_off f).
Definition set_inode (ip : nat) (r w : bool) (f : file) : file := mk_file FD_INODE (fl_ref f) r w (fl_pipe f) ip 0.
Definition set_pipe (p : nat) (r w : bool) (f : file) : file := mk_file FD_PIPE (fl_ref f) r w p (fl_ip f) (fl_off f).

(** What [file.c] calls of [pipe.c] and [kalloc.c]: a pipe for the page [kalloc] gives, and
    the three operations of [Pipe].  A pipe is known by a number. *)
Class PipeEnv (E : Type) := {
  env_newpipe : M E (option nat);
  env_pipeclose : nat -> bool -> M E unit;
  env_piperead : nat -> Z -> M E (Z * list Z);
  env_pipewrite : nat -> list Z -> M E Z }.

Record fstate (E : Type) := mk_fstate {
  x_fs : guarded fs;
  x_flk : spinlock;
  x_ft : list file;
  x_fds : list (list (option nat));
  x_cwd : list nat;
  x_env : E }.
Arguments mk_fstate {E} x_fs x_flk x_ft x_fds x_cwd x_env.
Arguments x_fs {E} f.
Arguments x_flk {E} f.
Arguments x_ft {E} f.
Arguments x_fds {E} f.
Arguments x_cwd {E} f.
Arguments x_env {E} f.

(** ** The log, as the file system sees it

    [begin_op] waits until the log has room for another operation; the last [end_op]
    commits, after which the log is empty.  ([Log] has the code.) *)
Definition begin_op : M (guarded fs) unit :=
  s ← g_get;
  if Z.of_nat (length (f_logged s)) + (f_outstanding s + 1) * MAXOPBLOCKS >? FS_LOGSIZE then sleep_on CLog 0
  else g_mod (fun s => mk_fs (f_sb s) (f_disksize s) (f_view s) (f_logged s) (f_outstanding s + 1) (f_icache s)).
Definition end_op : M (guarded fs) unit :=
  g_mod (fun s => mk_fs (f_sb s) (f_disksize s) (f_view s)
    (if f_outstanding s - 1 =? 0 then [] else f_logged s) (f_outstanding s - 1) (f_icache s)) ;;
  g_wakeup CLog.

Definition set_nlink (v : Z) (p : inode) : inode :=
  mk_inode (i_dev p) (i_inum p) (i_ref p) (i_lock p) (i_valid p) (i_type p) (i_major p) (i_minor p) v (i_size p) (i_addrs p).
Definition set_dev (major minor : Z) (p : inode) : inode :=
  mk_inode (i_dev p) (i_inum p) (i_ref p) (i_lock p) (i_valid p) (i_type p) major minor (i_nlink p) (i_size p) (i_addrs p).
Definition add_nlink (d : Z) (i : nat) : M (guarded fs) unit :=
  g_mod (upd_ino i (fun p => set_nlink (i16 (i_nlink p + d)) p)).

Section File.
Context {E : Type} `{PipeEnv E} (me : nat) (mypid : Z) (devsw : Z -> dev_ops) (cur : nat).
Notation F := (M (guarded fs)).
Notation X := (M (fstate E)).

Definition FS {A} (m : F A) : X A :=
  zoom x_fs (fun g x => mk_fstate g (x_flk x) (x_ft x) (x_fds x) (x_cwd x) (x_env x)) m.
Definition EV {A} (m : M E A) : X A :=
  zoom x_env (fun e x => mk_fstate (x_fs x) (x_flk x) (x_ft x) (x_fds x) (x_cwd x) e) m.
(** The table under [ftable.lock]; the CPU is the one the file system runs on. *)
Definition FT {A} (m : M (guarded (list file)) A) : X A :=
  zoom (fun x => mk_g (g_cpu (x_fs x)) (x_flk x) (x_ft x) (g_wakes (x_fs x)))
    (fun g x => mk_fstate (mk_g (g_cpu g) (g_lk (x_fs x)) (g_val (x_fs x)) (g_wakes g)) (g_lk g) (g_val g) (x_fds x) (x_cwd x) (x_env x)) m.
Definition get_file (f : nat) : X file := x ← get; of_option OutOfBounds (x_ft x !! f).
Definition upd_file (f : nat) (h : file -> file) : X unit :=
  modify (fun x => mk_fstate (x_fs x) (x_flk x) (alter h f (x_ft x)) (x_fds x) (x_cwd x) (x_env x)).

(** ** [file.c] *)

Definition fileinit : X unit :=
  modify (fun x => mk_fstate (x_fs x) Spinlock.initlock (x_ft x) (x_fds x) (x_cwd x) (x_env x)).

(** The first entry that is not in use. *)
Fixpoint free_file (l : list file) (k : nat) : option nat :=
  match l with
  | [] => None
  | f :: l' => if fl_ref f =? 0 then Some k else free_file l' (S k)
  end.
Definition filealloc : X (option nat) :=
  FT (g_acquire me ;;
      ft ← g_get;
      match free_file ft 0 with
      | Some f => g_mod (alter (set_fref 1) f) ;; g_release me ;; mret (Some f)
      | None => g_release me ;; mret None
      end).

Definition filedup (f : nat) : X nat :=
  FT (g_acquire me ;;
      ft ← g_get;
      fl ← of_option OutOfBounds (ft !! f);
      if fl_ref fl <? 1 then panic "filedup"
      else if fl_ref fl =? INT_MAX then faults Overflow
      else g_mod (alter (set_fref (fl_ref fl + 1)) f) ;; g_release me ;; mret f).

(** The part of [fileclose] under the lock: what the entry was, if that was its last
    reference. *)
Definition drop_ref (f : nat) : X (option file) :=
  FT (g_acquire me ;;
      ft ← g_get;
      fl ← of_option OutOfBounds (ft !! f);
      if fl_ref fl <? 1 then panic "fileclose"
      else if fl_ref fl - 1 >? 0 then
        g_mod (alter (set_fref (fl_ref fl - 1)) f) ;; g_release me ;; mret None
      else
        g_mod (alter set_free f) ;; g_release me ;; mret (Some fl)).
Definition fileclose (f : nat) : X unit :=
  o ← drop_ref f;
  match o with
  | None => mret tt
  | Some ff =>
      match fl_type ff with
      | FD_PIPE => EV (env_pipeclose (fl_pipe ff) (fl_writable ff))
      | FD_INODE => FS (begin_op ;; iput me mypid (fl_ip ff) ;; end_op)
      | FD_NONE => mret tt
      end
  end.

Definition filestat (f : nat) : X (option stat) :=
  fl ← get_file f;
  match fl_type fl with
  | FD_INODE =>
      FS (ilock me mypid (Some (fl_ip fl))) ;;
      st ← FS (stati (fl_ip fl));
      FS (iunlock me mypid (Some (fl_ip fl))) ;;
      mret (Some st)
  | _ => mret None
  end.

(** The result and the bytes read. *)
Definition fileread (f : nat) (n : Z) : X (Z * list Z) :=
  fl ← get_file f;
  if negb (fl_readable fl) then mret (-1, [])
  else
    match fl_type fl with
    | FD_PIPE => EV (env_piperead (fl_pipe fl) n)
    | FD_INODE =>
        FS (ilock me mypid (Some (fl_ip fl))) ;;
        r ← FS (readi devsw (fl_ip fl) (fl_off fl) (u32 n));
        when (fst r >? 0) (upd_file f (set_off (u32 (fl_off fl + fst r)))) ;;
        FS (iunlock me mypid (Some (fl_ip fl))) ;;
        mret r
    | FD_NONE => panic "fileread"
    end.

Definition max_write : Z := Z.quot (MAXOPBLOCKS - 1 - 1 - 2) 2 * 512.
(** One turn of [filewrite]'s loop: a transaction. *)
Definition write_some (f : nat) (fl : file) (src : list Z) : X Z :=
  FS begin_op ;;
  FS (ilock me mypid (Some (fl_ip fl))) ;;
  fl ← get_file f;
  r ← FS (writei devsw (fl_ip fl) src (fl_off fl));
  when (r >? 0) (upd_file f (set_off (u32 (fl_off fl + r)))) ;;
  FS (iunlock me mypid (Some (fl_ip fl))) ;;
  FS end_op ;;
  mret r.
(** [i] bytes have been written and [src] is to be. *)
Fixpoint filewrite_loop (fuel : nat) (f : nat) (fl : file) (i : Z) (src : list Z) : X Z :=
  match fuel with
  | O => faults OutOfFuel
  | S fuel' =>
      match src with
      | [] => mret i
      | _ =>
          let n1 := if Z.of_nat (length src) >? max_write then max_write else Z.of_nat (length src) in
          r ← write_some f fl (take (Z.to_nat n1) src);
          if r <? 0 then mret i
          else if negb (r =? n1) then panic "short filewrite"
          else filewrite_loop fuel' f fl (i + r) (drop (Z.to_nat n1) src)
      end
  end.
(** [src] is the [n] bytes at [addr]; each turn but the last writes [max_write] of them. *)
Definition filewrite (f : nat) (src : list Z) : X Z :=
  fl ← get_file f;
  if negb (fl_writable fl) then mret (-1)
  else
    match fl_type fl with
    | FD_PIPE => EV (env_pipewrite (fl_pipe fl) src)
    | FD_INODE =>
        i ← filewrite_loop (S (length src)) f fl 0 src;
        mret (if i =? Z.of_nat (length src) then Z.of_nat (length src) else -1)
    | FD_NONE => panic "filewrite"
    end.

(** ** Descriptors *)

Definition descriptors : X (list (option nat)) := x ← get; of_option OutOfBounds (x_fds x !! cur).
Definition set_fd_of (p fd : nat) (o : option nat) : X unit :=
  modify (fun x => mk_fstate (x_fs x) (x_flk x) (x_ft x) (alter (fun l => <[fd := o]> l) p (x_fds x)) (x_cwd x) (x_env x)).
Definition set_fd := set_fd_of cur.

(** The descriptor and the open file. *)
Definition argfd (fd : option Z) : X (option (nat * nat)) :=
  match fd with
  | None => mret None
  | Some fd =>
      if (fd <? 0) || (fd >=? Z.of_nat NOFILE) then mret None
      else
        l ← descriptors;
        o ← of_option OutOfBounds (l !! Z.to_nat fd);
        mret ((fun f => (Z.to_nat fd, f)) <$> o)
  end.

Fixpoint free_fd (l : list (option nat)) (k : nat) : option nat :=
  match l with
  | [] => None
  | None :: _ => Some k
  | Some _ :: l' => free_fd l' (S k)
  end.
Definition fdalloc (f : nat) : X (option nat) :=
  l ← descriptors;
  match free_fd l 0 with
  | Some fd => set_fd fd (Some f) ;; mret (Some fd)
  | None => mret None
  end.

Definition sys_dup (fd : option Z) : X Z :=
  o ← argfd fd;
  match o with
  | None => mret (-1)
  | Some (_, f) =>
      fd ← fdalloc f;
      match fd with
      | None => mret (-1)
      | Some fd => filedup f ;; mret (Z.of_nat fd)
      end
  end.

(** [n] is the length and [p] tells whether [argptr] accepts the buffer. *)
Definition sys_read (fd n : option Z) (p : bool) : X (Z * list Z) :=
  o ← argfd fd;
  match o, n, p with
  | Some (_, f), Some n, true => fileread f n
  | _, _, _ => mret (-1, [])
  end.
(** [src] is the buffer, if the arguments are right. *)
Definition sys_write (fd : option Z) (src : option (list Z)) : X Z :=
  o ← argfd fd;
  match o, src with
  | Some (_, f), Some src => filewrite f src
  | _, _ => mret (-1)
  end.
Definition sys_close (fd : option Z) : X Z :=
  o ← argfd fd;
  match o with
  | None => mret (-1)
  | Some (fd, f) => set_fd fd None ;; fileclose f ;; mret 0
  end.
Definition sys_fstat (fd : option Z) (p : bool) : X (option stat) :=
  o ← argfd fd;
  match o, p with
  | Some (_, f), true => filestat f
  | _, _ => mret None
  end.

(** ** Names *)

Definition cwd : X nat := x ← get; of_option OutOfBounds (x_cwd x !! cur).

(** From the label [bad] of [sys_link]. *)
Definition link_bad (ip : nat) : F Z :=
  ilock me mypid (Some ip) ;;
  add_nlink (-1) ip ;;
  iupdate ip ;;
  iunlockput me mypid ip ;;
  end_op ;;
  mret (-1).
Definition link (d : nat) (old new : list Z) : F Z :=
  begin_op ;;
  o ← namei me mypid devsw d old;
  match o with
  | None => end_op ;; mret (-1)
  | Some ip =>
      ilock me mypid (Some ip) ;;
      s ← g_get;
      if i_type (ino s ip) =? T_DIR then iunlockput me mypid ip ;; end_op ;; mret (-1)
      else
        add_nlink 1 ip ;;
        iupdate ip ;;
        iunlock me mypid (Some ip) ;;
        p ← nameiparent me mypid devsw d new;
        match p with
        | None => link_bad ip
        | Some (dp, name) =>
            ilock me mypid (Some dp) ;;
            s ← g_get;
            r ← (if negb (i_dev (ino s dp) =? i_dev (ino s ip)) then mret (-1)
                 else dirlink me mypid devsw dp name (i_inum (ino s ip)));
            if r <? 0 then iunlockput me mypid dp ;; link_bad ip
            else
              iunlockput me mypid dp ;;
              iput me mypid ip ;;
              end_op ;;
              mret 0
        end
  end.
Definition sys_link (old new : option (list Z)) : X Z :=
  match old, new with
  | Some old, Some new => d ← cwd; FS (link d old new)
  | _, _ => mret (-1)
  end.

Fixpoint isdirempty_loop (fuel : nat) (dp : nat) (off : Z) : F bool :=
  match fuel with
  | O => faults OutOfFuel
  | S f =>
      s ← g_get;
      if negb (off <? i_size (ino s dp)) then mret true
      else
        r ← readi devsw dp off 16;
        if negb (fst r =? 16) then panic "isdirempty: readi"
        else if negb (de_inum (snd r) =? 0) then mret false
        else isdirempty_loop f dp (off + 16)
  end.
Definition isdirempty (dp : nat) : F bool :=
  s ← g_get; isdirempty_loop (Z.to_nat (i_size (ino s dp) / 16 + 2)) dp 32.

(** The body of [sys_unlink] once the parent directory is known; [sys_move_file] ends with
    the same statements. *)
Definition unlink_from (dp : nat) (name : list Z) : F Z :=
  ilock me mypid (Some dp) ;;
  if (namecmp name [46] =? 0) || (namecmp name [46; 46] =? 0) then iunlockput me mypid dp ;; end_op ;; mret (-1)
  else
    o ← dirlookup me devsw dp name;
    match o with
    | None => iunlockput me mypid dp ;; end_op ;; mret (-1)
    | Some (ip, off) =>
        ilock me mypid (Some ip) ;;
        s ← g_get;
        if i_nlink (ino s ip) <? 1 then panic "unlink: nlink < 1"
        else
          empty ← (if i_type (ino s ip) =? T_DIR then isdirempty ip else mret true);
          if negb empty then
            iunlockput me mypid ip ;; iunlockput me mypid dp ;; end_op ;; mret (-1)
          else
            r ← writei devsw dp (replicate 16 0) off;
            if negb (r =? 16) then panic "unlink: writei"
            else
              when (i_type (ino s ip) =? T_DIR) (add_nlink (-1) dp ;; iupdate dp) ;;
              iunlockput me mypid dp ;;
              add_nlink (-1) ip ;;
              iupdate ip ;;
              iunlockput me mypid ip ;;
              end_op ;;
              mret 0
    end.
Definition sys_unlink (path : option (list Z)) : X Z :=
  match path with
  | None => mret (-1)
  | Some path =>
      d ← cwd;
      FS (begin_op ;;
          p ← nameiparent me mypid devsw d path;
          match p with
          | None => end_op ;; mret (-1)
          | Some (dp, name) => unlink_from dp name
          end)
  end.

Definition create (d : nat) (path : list Z) (type major minor : Z) : F (option nat) :=
  p ← nameiparent me mypid devsw d path;
  match p with
  | None => mret None
  | Some (dp, name) =>
      ilock me mypid (Some dp) ;;
      o ← dirlookup me devsw dp name;
      match o with
      | Some (ip, _) =>
          iunlockput me mypid dp ;;
          ilock me mypid (Some ip) ;;
          s ← g_get;
          if (type =? T_FILE) && (i_type (ino s ip) =? T_FILE) then mret (Some ip)
          else iunlockput me mypid ip ;; mret None
      | None =>
          s ← g_get;
          ip ← ialloc me (i_dev (ino s dp)) type;
          ilock me mypid (Some ip) ;;
          g_mod (upd_ino ip (fun p => set_nlink 1 (set_dev major minor p))) ;;
          iupdate ip ;;
          s ← g_get;
          when (type =? T_DIR)
            (add_nlink 1 dp ;;
             iupdate dp ;;
             r ← dirlink me mypid devsw ip [46] (i_inum (ino s ip));
             r ← (if r <? 0 then mret r else dirlink me mypid devsw ip [46; 46] (i_inum (ino s dp)));
             if r <? 0 then panic "create dots" else mret tt) ;;
          r ← dirlink me mypid devsw dp name (i_inum (ino s ip));
          if r <? 0 then panic "create: dirlink"
          else iunlockput me mypid dp ;; mret (Some ip)
      end
  end.

(** The inode to be opened, locked. *)
Definition open_inode (d : nat) (path : list Z) (omode : Z) : F (option nat) :=
  if ctrue (Z.land omode O_CREATE) then create d path T_FILE 0 0
  else
    o ← namei me mypid devsw d path;
    match o with
    | None => mret None
    | Some ip =>
        ilock me mypid (Some ip) ;;
        s ← g_get;
        if (i_type (ino s ip) =? T_DIR) && negb (omode =? O_RDONLY) then iunlockput me mypid ip ;; mret None
        else mret (Some ip)
    end.
(** [(f = filealloc()) == 0 || (fd = fdalloc(f)) < 0], and what is done about it. *)
Definition new_fd : X (option (nat * nat)) :=
  f ← filealloc;
  match f with
  | None => mret None
  | Some f =>
      fd ← fdalloc f;
      match fd with
      | None => fileclose f ;; mret None
      | Some fd => mret (Some (f, fd))
      end
  end.
Definition sys_open (path : option (list Z)) (omode : option Z) : X Z :=
  match path, omode with
  | Some path, Some omode =>
      d ← cwd;
      FS begin_op ;;
      ip ← FS (open_inode d path omode);
      match ip with
      | None => FS end_op ;; mret (-1)
      | Some ip =>
          o ← new_fd;
          match o with
          | None => FS (iunlockput me mypid ip) ;; FS end_op ;; mret (-1)
          | Some (f, fd) =>
              FS (iunlock me mypid (Some ip)) ;;
              FS end_op ;;
              upd_file f (set_inode ip (negb (ctrue (Z.land omode O_WRONLY)))
                (ctrue (Z.land omode O_WRONLY) || ctrue (Z.land omode O_RDWR))) ;;
              mret (Z.of_nat fd)
          end
      end
  | _, _ => mret (-1)
  end.

Definition sys_mkdir (path : option (list Z)) : X Z :=
  d ← cwd;
  FS (begin_op ;;
      ip ← match path with None => mret None | Some path => create d path T_DIR 0 0 end;
      match ip with
      | None => end_op ;; mret (-1)
      | Some ip => iunlockput me mypid ip ;; end_op ;; mret 0
      end).
Definition sys_mknod (path : option (list Z)) (major minor : option Z) : X Z :=
  d ← cwd;
  FS (begin_op ;;
      ip ← match path, major, minor with
           | Some path, Some major, Some minor => create d path T_DEV (i16 major) (i16 minor)
           | _, _, _ => mret None
           end;
      match ip with
      | None => end_op ;; mret (-1)
      | Some ip => iunlockput me mypid ip ;; end_op ;; mret 0
      end).

Definition sys_chdir (path : option (list Z)) : X Z :=
  d ← cwd;
  r ← FS (begin_op ;;
          o ← match path with None => mret None | Some path => namei me mypid devsw d path end;
          match o with
          | None => end_op ;; mret None
          | Some ip =>
              ilock me mypid (Some ip) ;;
              s ← g_get;
              if negb (i_type (ino s ip) =? T_DIR) then iunlockput me mypid ip ;; end_op ;; mret None
              else iunlock me mypid (Some ip) ;; iput me mypid d ;; end_op ;; mret (Some ip)
          end);
  match r with
  | None => mret (-1)
  | Some ip =>
      modify (fun x => mk_fstate (x_fs x) (x_flk x) (x_ft x) (x_fds x) (<[cur := ip]> (x_cwd x)) (x_env x)) ;;
      mret 0
  end.

(** ** Pipes *)

(** The two ends. *)
Definition pipealloc : X (option (nat * nat)) :=
  f0 ← filealloc;
  match f0 with
  | None => mret None
  | Some f0 =>
      f1 ← filealloc;
      match f1 with
      | None => fileclose f0 ;; mret None
      | Some f1 =>
          p ← EV env_newpipe;
          match p with
          | None => fileclose f0 ;; fileclose f1 ;; mret None
          | Some p =>
              upd_file f0 (set_pipe p true false) ;;
              upd_file f1 (set_pipe p false true) ;;
              mret (Some (f0, f1))
          end
      end
  end.
(** The two descriptors, stored in the caller's array if it can be. *)
Definition sys_pipe (p : bool) : X (option (nat * nat)) :=
  if negb p then mret None
  else
    o ← pipealloc;
    match o with
    | None => mret None
    | Some (rf, wf) =>
        fd0 ← fdalloc rf;
        match fd0 with
        | None => fileclose rf ;; fileclose wf ;; mret None
        | Some fd0 =>
            fd1 ← fdalloc wf;
            match fd1 with
            | None => set_fd fd0 None ;; fileclose rf ;; fileclose wf ;; mret None
            | Some fd1 => mret (Some (fd0, fd1))
            end
        end
    end.

(** ** [sys_move_file]

    The file is copied and the old one unlinked, all between one [begin_op] and its
    [end_op].  [fuel] bounds the turns of the copying loop. *)
Fixpoint move_copy (fuel : nat) (src_f dest_f : nat) : X bool :=
  match fuel with
  | O => faults OutOfFuel
  | S fuel' =>
      r ← fileread src_f 1024;
      if fst r >? 0 then
        w ← filewrite dest_f (snd r);
        if negb (w =? fst r) then mret false else move_copy fuel' src_f dest_f
      else mret true
  end.
(** From [OPEN DEST] on. *)
Definition move_to (fuel : nat) (d : nat) (src dest : list Z) (src_f src_fd : nat) : X Z :=
  o ← FS (create d dest T_FILE 0 0);
  match o with
  | None => FS end_op ;; mret (-1)
  | Some dest_ip =>
      o ← new_fd;
      match o with
      | None => fileclose src_f ;; FS (iunlockput me mypid dest_ip) ;; FS end_op ;; mret (-1)
      | Some (dest_f, dest_fd) =>
          FS (iunlock me mypid (Some dest_ip)) ;;
          upd_file dest_f (set_inode dest_ip false true) ;;
          ok ← move_copy fuel src_f dest_f;
          if negb ok then fileclose src_f ;; fileclose dest_f ;; FS end_op ;; mret (-1)
          else
            set_fd src_fd None ;;
            fileclose src_f ;;
            set_fd dest_fd None ;;
            fileclose dest_f ;;
            p ← FS (nameiparent me mypid devsw d src);
            match p with
            | None => FS end_op ;; mret (-1)
            | Some (dp, name) => FS (unlink_from dp name)
            end
      end
  end.
Definition sys_move_file (fuel : nat) (src dest : option (list Z)) : X Z :=
  match src, dest with
  | Some src, Some dest =>
      d ← cwd;
      FS begin_op ;;
      o ← FS (namei me mypid devsw d src);
      match o with
      | None => FS end_op ;; mret (-1)
      | Some src_ip =>
          FS (ilock me mypid (Some src_ip)) ;;
          o ← new_fd;
          match o with
          | None => FS (iunlockput me mypid src_ip) ;; FS end_op ;; mret (-1)
          | Some (src_f, src_fd) =>
              FS (iunlock me mypid (Some src_ip)) ;;
              upd_file src_f (set_inode src_ip true false) ;;
              move_to fuel d src dest src_f src_fd
          end
      end
  | _, _ => mret (-1)
  end.

(** ** Descriptors over [fork] and [exit]

    The loops of [fork] and [exit] in [proc.c] over the open files. *)
Fixpoint fork_files (np n fd : nat) : X unit :=
  match n with
  | O => mret tt
  | S n' =>
      l ← descriptors;
      o ← of_option OutOfBounds (l !! fd);
      match o with
      | None => mret tt
      | Some f => f ← filedup f; set_fd_of np fd (Some f)
      end ;;
      fork_files np n' (S fd)
  end.
Definition fork_fds (np : nat) : X unit := fork_files np NOFILE 0.
Fixpoint exit_files (n fd : nat) : X unit :=
  match n with
  | O => mret tt
  | S n' =>
      l ← descriptors;
      o ← of_option OutOfBounds (l !! fd);
      match o with
      | None => mret tt
      | Some f => fileclose f ;; set_fd fd None
      end ;;
      exit_files n' (S fd)
  end.
Definition exit_fds : X unit := exit_files NOFILE 0.
End File.
