(* ===== verification/FileRefs.v ===== *)
(** The table of open files ([File]): the reference counts.

    However processes open, duplicate, pass on and close descriptors, the count of every
    entry of the table is the number of descriptors that refer to it, and an entry has a
    type just when it is in use: no entry is freed while somebody can still name it, and
    none is kept when nobody can. *)

From S2P Require Import Prelude CString Locks Guarded Bytes Fs FsBlocks File.

(** ** Counting references *)

Definition is_ref (f : nat) (o : option nat) : Z := if decide (o = Some f) then 1 else 0.
Fixpoint refs_in (f : nat) (l : list (option nat)) : Z := match l with [] => 0 | o :: l' => is_ref f o + refs_in f l' end.
Fixpoint refs (fds : list (list (option nat))) (f : nat) : Z := match fds with [] => 0 | l :: fds' => refs_in f l + refs fds' f end.
(** References held by running code. *)
Fixpoint occ (f : nat) (ex : list nat) : Z := match ex with [] => 0 | g :: ex' => (if decide (g = f) then 1 else 0) + occ f ex' end.

Lemma refs_in_insert f l i o o' : l !! i = Some o -> refs_in f (<[i := o']> l) = refs_in f l - is_ref f o + is_ref f o'.
Proof.
  revert i. induction l as [|x l IH]; intros [|i]; cbn; [done..| |].
  - intros [= ->]. lia.
  - intros H. rewrite IH by done. lia.
Qed.
Lemma refs_insert f fds p l l' : fds !! p = Some l -> refs (<[p := l']> fds) f = refs fds f - refs_in f l + refs_in f l'.
Proof.
  revert p. induction fds as [|x fds IH]; intros [|p]; cbn; [done..| |].
  - intros [= ->]. lia.
  - intros H. rewrite IH by done. lia.
Qed.
Lemma is_ref_bounds f o : 0 <= is_ref f o <= 1.
Proof. unfold is_ref. destruct (decide _); lia. Qed.
Lemma refs_in_nonneg f l : 0 <= refs_in f l.
Proof. induction l as [|o l IH]; cbn; [lia|]. pose proof (is_ref_bounds f o). lia. Qed.
Lemma refs_nonneg f fds : 0 <= refs fds f.
Proof. induction fds as [|l fds IH]; cbn; [lia|]. pose proof (refs_in_nonneg f l). lia. Qed.
Lemma refs_in_pos f l i : l !! i = Some (Some f) -> 0 < refs_in f l.
Proof.
  revert i. induction l as [|o l IH]; intros [|i]; cbn; [done..| |].
  - intros [= ->]. unfold is_ref. rewrite decide_True by done. pose proof (refs_in_nonneg f l). lia.
  - intros H. specialize (IH _ H). pose proof (is_ref_bounds f o). lia.
Qed.
Lemma refs_pos f fds p l i : fds !! p = Some l -> l !! i = Some (Some f) -> 0 < refs fds f.
Proof.
  intros Hp Hi. revert p Hp. induction fds as [|x fds IH]; intros [|p]; cbn; [done..| |].
  - intros [= ->]. pose proof (refs_in_pos f l i Hi). pose proof (refs_nonneg f fds). lia.
  - intros H. specialize (IH _ H). pose proof (refs_in_nonneg f x). lia.
Qed.
Lemma refs_in_none f n : refs_in f (replicate n None) = 0.
Proof. induction n as [|n IH]; cbn; [done|]. unfold is_ref. rewrite decide_False by done. lia. Qed.
Lemma occ_cons f g ex : occ f (g :: ex) = (if decide (g = f) then 1 else 0) + occ f ex.
Proof. done. Qed.
Lemma occ_nonneg f ex : 0 <= occ f ex.
Proof. induction ex as [|g ex IH]; cbn; [lia|]. destruct (decide _); lia. Qed.

(** ** The table

    [ex] are the references that running code holds beside the descriptors, [raw] the
    entries it has taken but not yet given a type. *)
Record table_ok (ft : list file) (fds : list (list (option nat))) (ex raw : list nat) : Prop := mk_table_ok {
  tb_len : length ft = NFILE;
  tb_rows : Forall (fun l => length l = NOFILE) fds;
  tb_refs : forall f fl, ft !! f = Some fl -> fl_ref fl = refs fds f + occ f ex;
  tb_type : forall f fl, ft !! f = Some fl -> (fl_type fl = FD_NONE <-> fl_ref fl = 0 \/ f ∈ raw);
  tb_raw : forall f, f ∈ raw -> exists fl, ft !! f = Some fl /\ 0 < fl_ref fl }.

Section Table.
Context (ft : list file) (fds : list (list (option nat))) (ex raw : list nat) (T : table_ok ft fds ex raw).

(** Every change is to the entry of one file and to the references to it. *)
Lemma table_alter f fl fl' fds' ex' raw' :
  ft !! f = Some fl -> Forall (fun l => length l = NOFILE) fds' ->
  fl_ref fl' = refs fds' f + occ f ex' -> (forall g, g <> f -> refs fds' g + occ g ex' = refs fds g + occ g ex) ->
  (fl_type fl' = FD_NONE <-> fl_ref fl' = 0 \/ f ∈ raw') -> (forall g, g <> f -> g ∈ raw' <-> g ∈ raw) -> (f ∈ raw' -> 0 < fl_ref fl') ->
  table_ok (<[f := fl']> ft) fds' ex' raw'.
Proof.
  intros Hf Hrows Hr Ho Ht Hraw Hpos. pose proof (lookup_lt_Some _ _ _ Hf) as Hlt. constructor; [by rewrite length_insert, (tb_len _ _ _ _ T)|done| | |].
  - intros g gl. destruct (decide (g = f)) as [->|Hg].
    + rewrite list_lookup_insert_eq by done. by intros [= <-].
    + rewrite list_lookup_insert_ne by done. intros Hgl. rewrite (tb_refs _ _ _ _ T g gl Hgl). symmetry. auto.
  - intros g gl. destruct (decide (g = f)) as [->|Hg].
    + rewrite list_lookup_insert_eq by done. by intros [= <-].
    + rewrite list_lookup_insert_ne by done. intros Hgl. rewrite Hraw by done. by apply (tb_type _ _ _ _ T).
  - intros g Hg. destruct (decide (g = f)) as [->|Hne].
    + exists fl'. rewrite list_lookup_insert_eq by done. auto.
    + rewrite list_lookup_insert_ne by done. apply (tb_raw _ _ _ _ T). by apply Hraw.
Qed.

Lemma table_alloc f fl : ft !! f = Some fl -> fl_ref fl = 0 -> table_ok (<[f := set_fref 1 fl]> ft) fds (f :: ex) (f :: raw).
Proof.
  intros Hf H0. pose proof (tb_refs _ _ _ _ T f fl Hf) as Hr. apply (table_alter f fl); try done.
  - apply T.
  - cbn. rewrite decide_True by done. lia.
  - intros g Hg. rewrite occ_cons, decide_False by congruence. lia.
  - cbn. split; [intros _; right; by left|]. intros _. by apply (tb_type _ _ _ _ T f fl Hf); left.
  - intros g Hg. rewrite elem_of_cons. naive_solver.
Qed.

(** A descriptor is given to [f], or taken from it; running code gets or loses the
    reference. *)
Lemma table_fd p l fd o o' ex' :
  fds !! p = Some l -> l !! fd = Some o ->
  (forall g, is_ref g o' - is_ref g o = occ g ex - occ g ex') -> table_ok ft (<[p := <[fd := o']> l]> fds) ex' raw.
Proof.
  intros Hp Hfd Heq. constructor; try apply T.
  - apply Forall_insert; [apply T|]. rewrite length_insert. by apply (proj1 (Forall_lookup _ _) (tb_rows _ _ _ _ T) p).
  - intros g gl Hg. rewrite (tb_refs _ _ _ _ T g gl Hg), (refs_insert g fds p l) by done. rewrite (refs_in_insert g l fd o) by done.
    specialize (Heq g). lia.
Qed.

Lemma table_typed f fl fl' : ft !! f = Some fl -> fl_ref fl' = fl_ref fl -> fl_type fl' <> FD_NONE -> 0 < fl_ref fl ->
  forall raw', (forall g, g <> f -> g ∈ raw' <-> g ∈ raw) -> f ∉ raw' -> table_ok (<[f := fl']> ft) fds ex raw'.
Proof.
  intros Hf Er Ht Hpos raw' Hraw Hf'. apply (table_alter f fl); try done.
  - apply T.
  - rewrite Er. by apply (tb_refs _ _ _ _ T).
  - split; [done|]. intros [|]; [lia|done].
Qed.
End Table.

(** The entry once a reference has been dropped. *)
Definition closed (fl : file) : file := if fl_ref fl - 1 >? 0 then set_fref (fl_ref fl - 1) fl else set_free fl.
Lemma closed_ref fl : 1 <= fl_ref fl -> fl_ref (closed fl) = fl_ref fl - 1.
Proof. intros H. unfold closed. destruct (Z.gtb_spec (fl_ref fl - 1) 0); cbn; lia. Qed.

Lemma table_close ft fds ex raw f fl fds' ex' raw' : table_ok ft fds ex raw ->
  ft !! f = Some fl -> 1 <= fl_ref fl -> Forall (fun l => length l = NOFILE) fds' ->
  (forall g, refs fds' g + occ g ex' = refs fds g + occ g ex - if decide (g = f) then 1 else 0) ->
  (forall g, g <> f -> g ∈ raw' <-> g ∈ raw) -> f ∉ raw' -> (f ∈ raw -> fl_ref fl = 1) ->
  table_ok (<[f := closed fl]> ft) fds' ex' raw'.
Proof.
  intros T Hf Hpos Hrows Hr Hraw Hf' H1. pose proof (tb_refs _ _ _ _ T f fl Hf) as Href. apply (table_alter _ _ _ _ T f fl); try done.
  - rewrite closed_ref, Hr, decide_True by done. lia.
  - intros g Hg. rewrite Hr, decide_False by done. lia.
  - rewrite closed_ref by done. pose proof (tb_type _ _ _ _ T f fl Hf) as Ht. unfold closed.
    destruct (Z.gtb_spec (fl_ref fl - 1) 0); cbn; [|split; [left; lia|done]]. rewrite Ht. split; [intros [|?%H1]; lia|intros [|]; [lia|done]].
Qed.
Lemma table_dup ft fds ex raw f fl fds' ex' : table_ok ft fds ex raw ->
  ft !! f = Some fl -> 1 <= fl_ref fl -> Forall (fun l => length l = NOFILE) fds' ->
  (forall g, refs fds' g + occ g ex' = refs fds g + occ g ex + if decide (g = f) then 1 else 0) ->
  table_ok (<[f := set_fref (fl_ref fl + 1) fl]> ft) fds' ex' raw.
Proof.
  intros T Hf Hpos Hrows Hr. pose proof (tb_refs _ _ _ _ T f fl Hf) as Href. apply (table_alter _ _ _ _ T f fl); try done.
  - cbn. rewrite Hr, decide_True by done. lia.
  - intros g Hg. rewrite Hr, decide_False by done. lia.
  - cbn. rewrite (tb_type _ _ _ _ T f fl Hf). split; intros [|]; (by right) || lia.
  - cbn. lia.
Qed.

(** ** The operations *)

Section Ops.
Context {E : Type} `{PipeEnv E} (me : nat) (mypid : Z) (devsw : Z -> dev_ops) (cur : nat).
Notation X := (M (fstate E)).
Implicit Types x : fstate E.
Definition ok x (ex raw : list nat) : Prop := table_ok (x_ft x) (x_fds x) ex raw.
Definition row x (p : nat) (l : list (option nat)) : Prop := x_fds x !! p = Some l.

Lemma wlp_FS {A} (m : M (guarded fs) A) (Q : A -> fstate E -> Prop) x :
  (forall a g, Q a (mk_fstate g (x_flk x) (x_ft x) (x_fds x) (x_cwd x) (x_env x))) -> wlp (FS m) Q x.
Proof. intros HQ. unfold wlp, FS, zoom. destruct (m (x_fs x)); auto. Qed.
Lemma wlp_EV {A} (m : M E A) (Q : A -> fstate E -> Prop) x :
  (forall a e, Q a (mk_fstate (x_fs x) (x_flk x) (x_ft x) (x_fds x) (x_cwd x) e)) -> wlp (EV m) Q x.
Proof. intros HQ. unfold wlp, EV, zoom. destruct (m (x_env x)); auto. Qed.
Lemma wlp_FT {A} (m : M (guarded (list file)) A) (Q : A -> fstate E -> Prop) x :
  (forall g, g_val g = x_ft x -> wlp m (fun a g' => forall fs lk, Q a (mk_fstate fs lk (g_val g') (x_fds x) (x_cwd x) (x_env x))) g) -> wlp (FT m) Q x.
Proof. intros HQ. unfold FT. apply wlp_zoom. eapply wlp_mono; [by apply HQ|]. cbn. auto. Qed.
Lemma wlp_gacquire {A} (Q : unit -> guarded A -> Prop) g : (forall g', g_val g' = g_val g -> Q tt g') -> wlp (g_acquire me) Q g.
Proof.
  intros HQ. unfold g_acquire. wl. apply wlp_zoom. unfold wlp. destruct (Spinlock.acquire _ _ _); cbn; auto.
Qed.
Lemma wlp_grelease {A} (Q : unit -> guarded A -> Prop) g : (forall g', g_val g' = g_val g -> Q tt g') -> wlp (g_release me) Q g.
Proof.
  intros HQ. unfold g_release. wl. apply wlp_zoom. unfold wlp. destruct (Spinlock.release _ _ _); cbn; auto.
Qed.

Lemma free_file_spec l k f : free_file l k = Some f -> exists fl, (k <= f)%nat /\ l !! (f - k)%nat = Some fl /\ fl_ref fl = 0.
Proof.
  revert k. induction l as [|a l IH]; intros k; cbn; [done|]. destruct (Z.eqb_spec (fl_ref a) 0).
  - intros [= ->]. rewrite Nat.sub_diag. by exists a.
  - intros H1%IH. destruct H1 as (fl & Hk & Hl & H0). exists fl. split; [lia|]. replace (f - k)%nat with (S (f - S k)) by lia. done.
Qed.
Lemma free_fd_spec l k fd : free_fd l k = Some fd -> (k <= fd)%nat /\ l !! (fd - k)%nat = Some None.
Proof.
  revert k. induction l as [|[a|] l IH]; intros k; cbn; [done| |].
  - intros [Hk Hl]%IH. split; [lia|]. by replace (fd - k)%nat with (S (fd - S k)) by lia.
  - intros [= ->]. by rewrite Nat.sub_diag.
Qed.

Lemma filealloc_ok ex raw x : ok x ex raw ->
  wlp (filealloc me) (fun o x' => x_fds x' = x_fds x /\
    match o with
    | None => ok x' ex raw
    | Some f => ok x' (f :: ex) (f :: raw) /\ f ∉ raw /\ refs (x_fds x) f = 0 /\ occ f ex = 0
    end) x.
Proof.
  intros T. unfold filealloc. apply wlp_FT. intros g Hg. wl. apply wlp_gacquire. intros g1 Hg1. wl. unfold g_get. wl.
  destruct (free_file (g_val g1) 0) as [f|] eqn:Ef; wl.
  - apply free_file_spec in Ef as (fl & _ & Hf & H0). rewrite Nat.sub_0_r, Hg1, Hg in Hf. unfold g_mod. wl. apply wlp_grelease. intros g2 Hg2. wl.
    intros fs lk. split; [done|]. unfold ok. cbn. rewrite Hg2. cbn. rewrite Hg1, Hg. rewrite (list_alter_insert _ _ _ _ Hf).
    split_and!; [by apply table_alloc| | |]; pose proof (tb_refs _ _ _ _ T f fl Hf) as Hr; pose proof (refs_nonneg f (x_fds x)); pose proof (occ_nonneg f ex); try lia.
    intros Hin. destruct (tb_raw _ _ _ _ T f Hin) as (fl' & E' & Hp). rewrite Hf in E'. injection E' as <-. lia.
  - apply wlp_grelease. intros g2 Hg2. wl. intros fs lk. split; [done|]. unfold ok. cbn. by rewrite Hg2, Hg1, Hg.
Qed.

Lemma filedup_run f x :
  wlp (filedup me f) (fun r x' => r = f /\ exists fl, x_ft x !! f = Some fl /\ 1 <= fl_ref fl /\
    x_ft x' = <[f := set_fref (fl_ref fl + 1) fl]> (x_ft x) /\ x_fds x' = x_fds x) x.
Proof.
  unfold filedup. apply wlp_FT. intros g Hg. wl. apply wlp_gacquire. intros g1 Hg1. wl. unfold g_get. wl. rewrite Hg1, Hg in *.
  destruct (Z.ltb_spec (fl_ref a) 1); wl. destruct (fl_ref a =? INT_MAX); wl. unfold g_mod. wl. apply wlp_grelease. intros g2 Hg2. wl.
  intros fs lk. split; [done|]. exists a. split_and!; try done. cbn. rewrite Hg2. cbn. rewrite Hg1. by apply list_alter_insert.
Qed.
Lemma fileclose_run f x :
  wlp (fileclose me mypid f) (fun _ x' => exists fl, x_ft x !! f = Some fl /\ 1 <= fl_ref fl /\
    x_ft x' = <[f := closed fl]> (x_ft x) /\ x_fds x' = x_fds x) x.
Proof.
  unfold fileclose. wl. eapply wlp_mono with (Q := fun _ x' => exists fl, x_ft x !! f = Some fl /\ 1 <= fl_ref fl /\
    x_ft x' = <[f := closed fl]> (x_ft x) /\ x_fds x' = x_fds x).
  - unfold drop_ref. apply wlp_FT. intros g Hg. wl. apply wlp_gacquire. intros g1 Hg1. wl. unfold g_get. wl. rewrite Hg1, Hg in *.
    destruct (Z.ltb_spec (fl_ref a) 1); wl.
    assert (Ec : closed a = if fl_ref a - 1 >? 0 then set_fref (fl_ref a - 1) a else set_free a) by done.
    destruct (fl_ref a - 1 >? 0); wl; unfold g_mod; wl; apply wlp_grelease; intros g2 Hg2; wl;
      intros fs lk; exists a; (split_and!; [done|done| |done]); cbn; rewrite Hg2; cbn; rewrite Hg1, Ec; by apply list_alter_insert.
  - intros [ff|] x' Hx'; wl; [|done]. destruct (fl_type ff); [by wl|apply wlp_EV; done|apply wlp_FS; done].
Qed.
Lemma fdalloc_run f x :
  wlp (fdalloc cur f) (fun o x' => match o with
    | None => x' = x
    | Some fd => x_ft x' = x_ft x /\ exists l, row x cur l /\ l !! fd = Some None /\ x_fds x' = <[cur := <[fd := Some f]> l]> (x_fds x)
    end) x.
Proof.
  unfold fdalloc, descriptors. wl. destruct (free_fd a 0) as [fd|] eqn:Efd; [|by wl].
  apply free_fd_spec in Efd as [_ Hfd]. rewrite Nat.sub_0_r in Hfd. unfold set_fd, set_fd_of. wl. split; [done|].
  exists a. split_and!; try done. cbn. by rewrite (list_alter_insert _ _ _ _ H0).
Qed.
Lemma argfd_run fd x (Q : option (nat * nat) -> fstate E -> Prop) :
  Q None x -> (forall l k f, row x cur l -> l !! k = Some (Some f) -> Q (Some (k, f)) x) -> wlp (argfd cur fd) Q x.
Proof.
  intros HN HS. unfold argfd. destruct fd as [fd|]; [|by wl]. destruct (_ || _); [by wl|]. unfold descriptors. wl.
  destruct a0 as [f|]; cbn; [by apply (HS a)|done].
Qed.

Lemma is_ref_some g f : is_ref g (Some f) = if decide (g = f) then 1 else 0.
Proof. unfold is_ref. destruct (decide (g = f)) as [->|]; [by rewrite decide_True|by rewrite decide_False by congruence]. Qed.
Lemma is_ref_none g : is_ref g None = 0.
Proof. unfold is_ref. by rewrite decide_False. Qed.
Lemma rows_insert (fds : list (list (option nat))) p l fd o : Forall (fun l => length l = NOFILE) fds -> fds !! p = Some l -> Forall (fun l => length l = NOFILE) (<[p := <[fd := o]> l]> fds).
Proof. intros HF Hp. apply Forall_insert; [done|]. rewrite length_insert. by apply (proj1 (Forall_lookup _ _) HF p). Qed.
Lemma refs_set fds p l fd o o' g : fds !! p = Some l -> l !! fd = Some o ->
  refs (<[p := <[fd := o']> l]> fds) g = refs fds g - is_ref g o + is_ref g o'.
Proof. intros Hp Hf. rewrite (refs_insert g fds p l) by done. rewrite (refs_in_insert g l fd o) by done. lia. Qed.

Lemma sys_dup_ok fd x : ok x [] [] -> wlp (sys_dup me cur fd) (fun _ x' => ok x' [] []) x.
Proof.
  intros T. unfold sys_dup. wl. apply argfd_run; [by wl|]. intros l k f Hl Hk. wl. eapply wlp_mono; [apply fdalloc_run|].
  intros [nfd|] x'; [|by intros ->; wl]. intros (Eft & l1 & Hl1 & Hn & Efds). wl. eapply wlp_mono; [apply filedup_run|].
  intros r x'' (-> & fl & Hf & Hpos & Eft' & Efds'). wl. unfold ok. rewrite Eft', Efds', Efds, Eft in *. unfold row in *.
  assert (l1 = l) as -> by congruence. apply (table_dup _ _ _ _ f fl _ _ T); try done.
  - apply rows_insert; [apply T|done].
  - intros g. rewrite (refs_set _ _ _ _ None) by done. rewrite is_ref_none, is_ref_some. cbn. lia.
Qed.
(** [ofile[fd] = 0; fileclose(f)]. *)
Lemma close_fd_ok fd f l x : ok x [] [] -> row x cur l -> l !! fd = Some (Some f) ->
  wlp (set_fd cur fd None ;; fileclose me mypid f) (fun _ x' => ok x' [] [] /\ row x' cur (<[fd := None]> l)) x.
Proof.
  intros T Hl Hk. unfold set_fd, set_fd_of. wl.
  eapply wlp_mono; [apply fileclose_run|]. cbn. intros _ x' (fl & Hf & Hpos & Eft & Efds). unfold ok, row. rewrite Eft, Efds.
  rewrite (list_alter_insert _ _ _ _ Hl). split; [|apply list_lookup_insert_eq; by eapply lookup_lt_Some].
  apply (table_close _ _ _ _ f fl _ _ _ T); try done.
  - apply rows_insert; [apply T|done].
  - intros g. rewrite (refs_set _ _ _ _ (Some f)) by done. rewrite is_ref_none, is_ref_some. cbn. lia.
  - apply not_elem_of_nil.
  - by intros ?%elem_of_nil.
Qed.

Lemma sys_close_ok fd x : ok x [] [] -> wlp (sys_close me mypid cur fd) (fun _ x' => ok x' [] []) x.
Proof.
  intros T. unfold sys_close. wl. apply argfd_run; [by wl|]. intros l k f Hl Hk.
  pose proof (close_fd_ok k f l x T Hl Hk) as Hc. rewrite wlp_bind in Hc. wl. eapply wlp_mono; [exact Hc|]. cbv beta. intros _ x1 H1. wl.
  eapply wlp_mono; [exact H1|]. cbv beta. intros _ x2 [H2 _]. by wl.
Qed.

(** Running code gives up a reference. *)
Lemma close_ok f x ex1 ex raw raw' : ok x ex1 raw -> (forall g, occ g ex1 = (if decide (f = g) then 1 else 0) + occ g ex) ->
  (forall g, g <> f -> g ∈ raw' <-> g ∈ raw) -> f ∉ raw' -> (f ∈ raw -> refs (x_fds x) f = 0 /\ occ f ex = 0) ->
  wlp (fileclose me mypid f) (fun _ x' => ok x' ex raw' /\ x_fds x' = x_fds x) x.
Proof.
  intros T Hex Hraw Hf' H1. eapply wlp_mono; [apply fileclose_run|]. intros _ x' (fl & Hf & Hpos & Eft & Efds). split; [|done]. unfold ok. rewrite Eft, Efds.
  pose proof (tb_refs _ _ _ _ T f fl Hf) as Hr. apply (table_close _ _ _ _ f fl _ _ _ T); try done.
  - apply T.
  - intros g. rewrite Hex. destruct (decide (f = g)), (decide (g = f)); subst; done || lia.
  - intros [H0 H2]%H1. rewrite Hr, Hex, H0, H2. by rewrite decide_True.
Qed.
Lemma raw_one (f g : nat) : g <> f -> g ∈ @nil nat <-> g ∈ [f].
Proof. intros Hg. rewrite list_elem_of_singleton, elem_of_nil. done. Qed.

(** A new descriptor for a new entry, or neither. *)
Lemma new_fd_ok x : ok x [] [] ->
  wlp (new_fd me mypid cur) (fun o x' => match o with
    | None => ok x' [] []
    | Some (f, fd) => ok x' [] [f] /\ exists l, row x cur l /\ l !! fd = Some None /\ row x' cur (<[fd := Some f]> l)
    end) x.
Proof.
  intros T. unfold new_fd. wl. eapply wlp_mono; [by apply (filealloc_ok [] [])|]. intros [f|] x1 (Efds & T1); [|by wl].
  destruct T1 as (T1 & _ & Hr0 & _). wl. eapply wlp_mono; [apply fdalloc_run|]. intros [fd|] x2.
  - intros (Eft & l & Hl & Hn & Efds2). wl. unfold ok, row in *. rewrite Eft, Efds2. split.
    2: { exists l. rewrite <- Efds. split_and!; try done. apply list_lookup_insert_eq. by eapply lookup_lt_Some. }
    apply (table_fd _ _ _ _ T1 _ _ _ None); try done.
    intros g. rewrite is_ref_none, is_ref_some. cbn. destruct (decide (g = f)) as [->|]; [by rewrite decide_True|by rewrite decide_False by congruence].
  - intros ->. wl. eapply wlp_mono; [apply (close_ok f x1 [f] [] [f] [] T1); [done|apply raw_one|apply not_elem_of_nil|by rewrite Efds]|].
    intros _ x' [T' _]. by wl.
Qed.
Lemma upd_typed f h x ex raw raw' : ok x ex raw -> f ∈ raw -> (forall fl, fl_ref (h fl) = fl_ref fl /\ fl_type (h fl) <> FD_NONE) ->
  (forall g, g <> f -> g ∈ raw' <-> g ∈ raw) -> f ∉ raw' -> wlp (upd_file f h) (fun _ x' => ok x' ex raw' /\ x_fds x' = x_fds x) x.
Proof.
  intros T Hf Hh Hraw Hf'. unfold upd_file. wl. split; [|done]. destruct (tb_raw _ _ _ _ T f Hf) as (fl & Hl & Hp). unfold ok. cbn.
  rewrite (list_alter_insert _ _ _ _ Hl). by apply (table_typed _ _ _ _ T f fl); try apply Hh.
Qed.

Lemma sys_open_ok path omode x : ok x [] [] -> wlp (sys_open me mypid devsw cur path omode) (fun _ x' => ok x' [] []) x.
Proof.
  intros T. unfold sys_open. destruct path as [path|], omode as [omode|]; try by wl. unfold cwd. wl.
  apply wlp_FS. intros _ g1. wl. apply wlp_FS. intros [ip|] g2; wl; [|apply wlp_FS; intros _ g3; by wl].
  cbn. eapply wlp_mono; [by apply new_fd_ok|]. intros [[f fd]|] x1 T1; wl.
  - apply wlp_FS. intros _ g3. wl. apply wlp_FS. intros _ g4. wl. destruct T1 as [T1 _].
    eapply wlp_mono; [eapply (upd_typed f _ _ [] [f] []); [exact T1|by apply list_elem_of_singleton|done| |apply not_elem_of_nil]|].
    + apply raw_one.
    + intros _ x2 [T2 _]. by wl.
  - apply wlp_FS. intros _ g3. wl. apply wlp_FS. intros _ g4. by wl.
Qed.

Lemma list_alter_none {A} (h : A -> A) i (l : list A) : l !! i = None -> alter h i l = l.
Proof. revert i. induction l as [|b l IH]; intros [|i]; cbn; try done. intros H1. unfold alter in *. cbn. by rewrite IH. Qed.
Lemma upd_same f h x ex raw : ok x ex raw -> (forall fl, fl_ref (h fl) = fl_ref fl /\ fl_type (h fl) = fl_type fl) ->
  wlp (upd_file f h) (fun _ x' => ok x' ex raw /\ x_fds x' = x_fds x) x.
Proof.
  intros T Hh. unfold upd_file. wl. split; [|done]. unfold ok. cbn. destruct (x_ft x !! f) as [fl|] eqn:Ef; [|by rewrite list_alter_none].
  rewrite (list_alter_insert _ _ _ _ Ef). destruct (Hh fl) as [E1 E2]. apply (table_alter _ _ _ _ T f fl); try done.
  - apply T.
  - rewrite E1. by apply (tb_refs _ _ _ _ T).
  - rewrite E1, E2. by apply (tb_type _ _ _ _ T).
  - intros Hr. rewrite E1. destruct (tb_raw _ _ _ _ T f Hr) as (fl' & El & Hp). rewrite Ef in El. by injection El as <-.
Qed.
Definition kept x x' : Prop := ok x' [] [] /\ x_fds x' = x_fds x.
Lemma fileread_ok f n x : ok x [] [] -> wlp (fileread me mypid devsw f n) (fun _ => kept x) x.
Proof.
  intros T. unfold fileread, get_file. wl. destruct (negb _); [by wl|]. destruct (fl_type a); [by wl|by apply wlp_EV|].
  wl. apply wlp_FS. intros _ g1. wl. apply wlp_FS. intros r g2. wl. destruct (fst r >? 0).
  - eapply wlp_mono; [eapply (upd_same _ _ _ [] []); [exact T|done]|]. cbv beta. intros _ x' T'. wl. apply wlp_FS. intros _ g3. by wl.
  - wl. apply wlp_FS. intros _ g3. by wl.
Qed.
Lemma write_some_ok f fl src x : ok x [] [] -> wlp (write_some me mypid devsw f fl src) (fun _ => kept x) x.
Proof.
  intros T. unfold write_some, get_file. wl. apply wlp_FS. intros _ g1. wl. apply wlp_FS. intros _ g2. wl. apply wlp_FS. intros r g3. wl.
  destruct (r >? 0).
  - eapply wlp_mono; [eapply (upd_same _ _ _ [] []); [exact T|done]|]. cbv beta. intros _ x' T'. wl. apply wlp_FS. intros _ g4. wl. apply wlp_FS. intros _ g5. by wl.
  - wl. apply wlp_FS. intros _ g4. wl. apply wlp_FS. intros _ g5. by wl.
Qed.
Lemma filewrite_ok f src x : ok x [] [] -> wlp (filewrite me mypid devsw f src) (fun _ => kept x) x.
Proof.
  intros T. unfold filewrite, get_file. wl. destruct (negb _); [by wl|]. destruct (fl_type a); [by wl|by apply wlp_EV|]. wl.
  eapply wlp_mono with (Q := fun _ => kept x); [|intros i x' T'; by wl].
  generalize (S (length src)) 0. intros fuel. clear H0. revert src x T. induction fuel as [|fuel IH]; intros src x T i; cbn [filewrite_loop]; [by wl|].
  destruct src as [|c src]; [by wl|]. wl. eapply wlp_mono; [by apply write_some_ok|]. intros r x' [T' Ex]. destruct (r <? 0); [by wl|].
  destruct (negb _); [by wl|]. eapply wlp_mono; [by apply (IH _ x')|]. intros j x2 [T2 E2]. split; [done|]. congruence.
Qed.

Lemma pipealloc_ok x : ok x [] [] ->
  wlp (pipealloc me mypid) (fun o x' => match o with None => ok x' [] [] | Some (f0, f1) => ok x' [f1; f0] [] end) x.
Proof.
  intros T. unfold pipealloc. wl. eapply wlp_mono; [by apply (filealloc_ok [] [])|]. intros [f0|] x1 (Ef1 & T1); [|by wl].
  destruct T1 as (T1 & _ & R0 & _). wl. eapply wlp_mono; [by apply (filealloc_ok [f0] [f0] x1)|]. intros [f1|] x2 (Ef2 & T2); wl.
  - destruct T2 as (T2 & N1 & R1 & O1). apply not_elem_of_cons in N1 as [N1 _]. apply wlp_EV. intros [p|] e; wl.
    + eapply wlp_mono; [eapply (upd_typed f0 _ _ [f1; f0] [f1; f0] [f1]); [exact T2|by right; left|done| |]|].
      * intros g Hg. rewrite !elem_of_cons, elem_of_nil. naive_solver.
      * by intros ->%list_elem_of_singleton.
      * intros _ x3 [T3 _]. wl. eapply wlp_mono; [eapply (upd_typed f1 _ _ [f1; f0] [f1] []); [exact T3|by left|done| |apply not_elem_of_nil]|].
        -- apply raw_one.
        -- intros _ x4 [T4 _]. by wl.
    + eapply wlp_mono; [eapply (close_ok f0 _ [f1; f0] [f1] [f1; f0] [f1]); [exact T2|..]|].
      * intros g. cbn. destruct (decide (f1 = g)), (decide (f0 = g)); subst; done || lia.
      * intros g Hg. rewrite !elem_of_cons, elem_of_nil. naive_solver.
      * by intros ->%list_elem_of_singleton.
      * intros _. cbn. rewrite Ef2, Ef1, R0. by rewrite decide_False.
      * intros _ x3 [T3 E3]. wl. eapply wlp_mono; [apply (close_ok f1 x3 [f1] [] [f1] [] T3); [done|apply raw_one|apply not_elem_of_nil|]|].
        -- intros _. rewrite E3. cbn. by rewrite Ef2, R1.
        -- intros _ x4 [T4 _]. by wl.
  - eapply wlp_mono; [apply (close_ok f0 x2 [f0] [] [f0] [] T2); [done|apply raw_one|apply not_elem_of_nil|by rewrite Ef2, Ef1, R0]|].
    intros _ x3 [T3 _]. by wl.
Qed.

(** A reference that running code holds goes into a descriptor. *)
Lemma fdalloc_ok f x ex raw : ok x (f :: ex) raw ->
  wlp (fdalloc cur f) (fun o x' => match o with
    | None => x' = x
    | Some fd => ok x' ex raw /\ exists l, row x' cur l /\ l !! fd = Some (Some f)
    end) x.
Proof.
  intros T. eapply wlp_mono; [apply fdalloc_run|]. intros [fd|] x'; [|done]. intros (Eft & l & Hl & Hn & Efds). unfold ok, row. rewrite Eft, Efds. split.
  - apply (table_fd _ _ _ _ T _ _ _ None); try done. intros g. rewrite is_ref_none, is_ref_some. cbn.
    destruct (decide (f = g)), (decide (g = f)); subst; done || lia.
  - eexists. split; [apply list_lookup_insert_eq; by eapply lookup_lt_Some|]. apply list_lookup_insert_eq. by eapply lookup_lt_Some.
Qed.
Lemma sys_pipe_ok p x : ok x [] [] -> wlp (sys_pipe me mypid cur p) (fun _ x' => ok x' [] []) x.
Proof.
  intros T. unfold sys_pipe. destruct (negb p); [by wl|]. wl. eapply wlp_mono; [by apply pipealloc_ok|]. intros [[rf wf]|] x1 T1; [|by wl].
  assert (T1' : ok x1 [rf; wf] []).
  { destruct T1 as [A1 A2 A3 A4 A5]. constructor; try done. intros f fl Hf. rewrite (A3 f fl Hf). cbn. lia. }
  assert (Hboth : forall x2, ok x2 [rf; wf] [] -> wlp (fileclose me mypid rf ≫= fun _ => fileclose me mypid wf ≫= fun _ => mret (@None (nat * nat))) (fun _ x' => ok x' [] []) x2).
  { intros x2 T2. wl. eapply wlp_mono; [apply (close_ok rf x2 [rf; wf] [wf] [] [] T2); [done|done|apply not_elem_of_nil|by intros ?%elem_of_nil]|].
    intros _ x3 [T3 _]. wl. eapply wlp_mono; [apply (close_ok wf x3 [wf] [] [] [] T3); [done|done|apply not_elem_of_nil|by intros ?%elem_of_nil]|].
    intros _ x4 [T4 _]. by wl. }
  wl. eapply wlp_mono; [by apply (fdalloc_ok rf x1 [wf] [])|]. intros [fd0|] x2; [|intros ->; by apply Hboth].
  intros (T2 & l & Hl & Hfd). wl. eapply wlp_mono; [by apply (fdalloc_ok wf x2 [] [])|]. intros [fd1|] x3; [intros [T3 _]; by wl|].
  intros ->. unfold set_fd, set_fd_of. wl. apply (proj1 (wlp_bind _ _ _ _)), Hboth. unfold ok. cbn. rewrite (list_alter_insert _ _ _ _ Hl).
  apply (table_fd _ _ _ _ T2 _ _ _ (Some rf)); try done. intros g. rewrite is_ref_none, is_ref_some. cbn.
  destruct (decide (rf = g)), (decide (g = rf)); subst; done || lia.
Qed.

Lemma fork_files_ok np n fd lc x : ok x [] [] -> np <> cur -> row x np lc ->
  (forall k, (fd <= k < NOFILE)%nat -> lc !! k = Some None) -> wlp (fork_files me cur np n fd) (fun _ x' => ok x' [] []) x.
Proof.
  revert fd lc x. induction n as [|n IH]; intros fd lc x T Hne Hc Hnone; cbn [fork_files]; [by wl|]. unfold descriptors. wl. rename H0 into Hl, H1 into Ho.
  assert (Hfd : (fd < NOFILE)%nat).
  { rewrite <- (proj1 (Forall_lookup _ _) (tb_rows _ _ _ _ T) cur _ Hl). by eapply lookup_lt_Some. }
  destruct a0 as [f|]; wl; [|by apply (IH _ lc); [done..|intros k Hk; apply Hnone; lia]].
  eapply wlp_mono; [apply filedup_run|]. intros r x1 (-> & fl & Hf & Hpos & Eft & Efds). unfold set_fd_of. wl.
  apply (IH _ (<[fd := Some f]> lc)); cbn; try done.
  - unfold ok. cbn. rewrite Eft, Efds, (list_alter_insert _ _ _ _ Hc). apply (table_dup _ _ _ _ f fl _ _ T); try done.
    + apply rows_insert; [apply T|done].
    + intros g. rewrite (refs_set _ _ _ _ None) by (done || apply Hnone; lia). rewrite is_ref_none, is_ref_some. cbn. lia.
  - unfold row. cbn. rewrite Efds, (list_alter_insert _ _ _ _ Hc). apply list_lookup_insert_eq. by eapply lookup_lt_Some.
  - intros k Hk. rewrite list_lookup_insert_ne by lia. apply Hnone. lia.
Qed.
Lemma exit_files_ok n fd x : ok x [] [] -> wlp (exit_files me mypid cur n fd) (fun _ x' => ok x' [] []) x.
Proof.
  revert fd x. induction n as [|n IH]; intros fd x T; cbn [exit_files]; [by wl|]. unfold descriptors. wl. rename H0 into Hl, H1 into Ho.
  destruct a0 as [f|]; wl; [|by apply IH]. eapply wlp_mono; [apply fileclose_run|]. intros _ x1 (fl & Hf & Hpos & Eft & Efds).
  unfold set_fd, set_fd_of. wl. apply IH. unfold ok. cbn. rewrite Eft, Efds, (list_alter_insert _ _ _ _ Hl).
  apply (table_close _ _ _ _ f fl _ _ _ T); try done.
  - apply rows_insert; [apply T|done].
  - intros g. rewrite (refs_set _ _ _ _ (Some f)) by done. rewrite is_ref_none, is_ref_some. cbn. lia.
  - apply not_elem_of_nil.
  - by intros ?%elem_of_nil.
Qed.

(** [sys_move_file] that does not fail. *)
Lemma move_copy_ok fuel sf df x : ok x [] [] -> wlp (move_copy me mypid devsw fuel sf df) (fun _ => kept x) x.
Proof.
  revert x. induction fuel as [|fuel IH]; intros x T; cbn [move_copy]; [by wl|]. wl. eapply wlp_mono; [by apply fileread_ok|].
  intros r x1 [T1 E1]. destruct (fst r >? 0); [|by wl]. wl. eapply wlp_mono; [by apply filewrite_ok|]. intros w x2 [T2 E2].
  destruct (negb _); [wl; split; [done|congruence]|]. eapply wlp_mono; [by apply (IH x2)|]. intros b x3 [T3 E3]. split; [done|congruence].
Qed.
Lemma move_to_ok fuel d src dest sf sfd l x : ok x [] [] -> row x cur l -> l !! sfd = Some (Some sf) ->
  wlp (move_to me mypid devsw cur fuel d src dest sf sfd) (fun r x' => r = 0 -> ok x' [] []) x.
Proof.
  intros T Hl Hs. unfold move_to. wl. apply wlp_FS. intros [dip|] g1; wl; [|by apply wlp_FS; intros _ g2; wl].
  eapply wlp_mono; [by apply new_fd_ok|]. intros [[df dfd]|] x1.
  2: { intros T1. wl. apply wlp_true. intros _ x2. wl. apply wlp_FS. intros _ g3. wl. apply wlp_FS. intros _ g4. by wl. }
  intros (T1 & l' & Hl' & Hnone & Hrow). assert (l' = l) as -> by (unfold row in *; cbn in Hl'; congruence).
  wl. apply wlp_FS. intros _ g2. wl.
  eapply wlp_mono; [eapply (upd_typed df _ _ [] [df] []); [exact T1|by apply list_elem_of_singleton|done|apply raw_one|apply not_elem_of_nil]|].
  cbv beta. intros _ x2 [T2 E2]. wl. eapply wlp_mono; [by apply move_copy_ok|]. intros ok' x3 [T3 E3].
  destruct ok'; cbn [negb]; [|wl; apply wlp_true; intros _ x4; wl; apply wlp_true; intros _ x5; wl; by apply wlp_FS; intros _ g5; wl].
  assert (Hrow3 : row x3 cur (<[dfd := Some df]> l)) by (unfold row in *; rewrite E3, E2; exact Hrow).
  assert (Hne : dfd <> sfd) by (intros ->; congruence).
  pose proof (close_fd_ok sfd sf _ x3 T3 Hrow3 ltac:(by rewrite list_lookup_insert_ne)) as Hc. rewrite wlp_bind in Hc.
  wl. eapply wlp_mono; [exact Hc|]. cbv beta. intros _ x4 H4. wl. eapply wlp_mono; [exact H4|]. cbv beta. intros _ x5 [T5 R5].
  pose proof (close_fd_ok dfd df _ x5 T5 R5) as Hd. rewrite wlp_bind in Hd. wl. eapply wlp_mono; [apply Hd|].
  { rewrite list_lookup_insert_ne by done. apply list_lookup_insert_eq. by eapply lookup_lt_Some. }
  cbv beta. intros _ x6 H6. wl. eapply wlp_mono; [exact H6|]. cbv beta. intros _ x7 [T7 _]. wl.
  apply wlp_FS. intros [[dp name]|] g8; [by apply wlp_FS|]. wl. apply wlp_FS. intros _ g9. by wl.
Qed.
Lemma sys_move_file_ok fuel src dest x : ok x [] [] ->
  wlp (sys_move_file me mypid devsw cur fuel src dest) (fun r x' => r = 0 -> ok x' [] []) x.
Proof.
  intros T. unfold sys_move_file. destruct src as [src|], dest as [dest|]; try by wl. unfold cwd. wl.
  apply wlp_FS. intros _ g1. wl. apply wlp_FS. intros [ip|] g2; wl; [|by apply wlp_FS; intros _ g3; wl].
  apply wlp_FS. intros _ g3. wl. eapply wlp_mono; [by apply new_fd_ok|]. intros [[sf sfd]|] x1.
  2: { intros T1. wl. apply wlp_FS. intros _ g4. wl. apply wlp_FS. intros _ g5. by wl. }
  intros (T1 & l & Hl & Hn & Hr). wl. apply wlp_FS. intros _ g4. wl.
  eapply wlp_mono; [eapply (upd_typed sf _ _ [] [sf] []); [exact T1|by apply list_elem_of_singleton|done|apply raw_one|apply not_elem_of_nil]|].
  cbv beta. intros _ x2 [T2 E2]. apply (move_to_ok _ _ _ _ _ _ (<[sfd := Some sf]> l)); [done|unfold row in *; by rewrite E2|].
  apply list_lookup_insert_eq. by eapply lookup_lt_Some.
Qed.

(** ** Any sequence of calls *)

Inductive fcall :=
  | Dup (fd : option Z)
  | Close (fd : option Z)
  | Read (fd n : option Z) (p : bool)
  | Write (fd : option Z) (src : option (list Z))
  | Fstat (fd : option Z) (p : bool)
  | Open (path : option (list Z)) (omode : option Z)
  | Pipe (p : bool)
  | Link (old new : option (list Z))
  | Unlink (path : option (list Z))
  | Mkdir (path : option (list Z))
  | Mknod (path : option (list Z)) (major minor : option Z)
  | Chdir (path : option (list Z))
  | MoveFile (fuel : nat) (src dest : option (list Z))
  | Fork (np : nat)
  | Exit.
(** [Fork np] is to a process slot that has no files open; [fuel] bounds the turns of
    the copying loop of [MoveFile].  The result is [false] for a [move_file] that fails. *)
Definition do_call (c : fcall) : X bool :=
  match c with
  | Dup fd => sys_dup me cur fd ;; mret true
  | Close fd => sys_close me mypid cur fd ;; mret true
  | Read fd n p => sys_read me mypid devsw cur fd n p ;; mret true
  | Write fd src => sys_write me mypid devsw cur fd src ;; mret true
  | Fstat fd p => sys_fstat me mypid cur fd p ;; mret true
  | Open path omode => sys_open me mypid devsw cur path omode ;; mret true
  | Pipe p => sys_pipe me mypid cur p ;; mret true
  | Link old new => sys_link me mypid devsw cur old new ;; mret true
  | Unlink path => sys_unlink me mypid devsw cur path ;; mret true
  | Mkdir path => sys_mkdir me mypid devsw cur path ;; mret true
  | Mknod path major minor => sys_mknod me mypid devsw cur path major minor ;; mret true
  | Chdir path => sys_chdir me mypid devsw cur path ;; mret true
  | MoveFile fuel src dest => r ← sys_move_file me mypid devsw cur fuel src dest; mret (r =? 0)
  | Fork np =>
      x ← get;
      if bool_decide (np <> cur /\ x_fds x !! np = Some (replicate NOFILE None)) then fork_fds me cur np ;; mret true else mret true
  | Exit => exit_fds me mypid cur ;; mret true
  end.

Lemma call_ok c x : ok x [] [] -> wlp (do_call c) (fun b x' => b = true -> ok x' [] []) x.
Proof.
  intros T. destruct c; cbn [do_call]; try wlp_step.
  - eapply wlp_mono; [by apply sys_dup_ok|]. intros; by wl.
  - eapply wlp_mono; [by apply sys_close_ok|]. intros; by wl.
  - unfold sys_read. wl. apply argfd_run; [by wl|]. intros l k f Hl Hk. destruct n, p; try by wl.
    eapply wlp_mono; [by apply fileread_ok|]. intros r x' [T' _]; by wl.
  - unfold sys_write. wl. apply argfd_run; [by wl|]. intros l k f Hl Hk. destruct src; [|by wl].
    eapply wlp_mono; [by apply filewrite_ok|]. intros r x' [T' _]; by wl.
  - unfold sys_fstat. wl. apply argfd_run; [by wl|]. intros l k f Hl Hk. destruct p; [|by wl]. unfold filestat, get_file. wl.
    destruct (fl_type a); [by wl..|]. wl. apply wlp_FS. intros _ g1. wl. apply wlp_FS. intros st g2. wl. apply wlp_FS. intros _ g3. by wl.
  - eapply wlp_mono; [by apply sys_open_ok|]. intros; by wl.
  - eapply wlp_mono; [by apply sys_pipe_ok|]. intros; by wl.
  - unfold sys_link, cwd. destruct old, new; wl; try done. apply wlp_FS. intros r g. by wl.
  - unfold sys_unlink, cwd. destruct path; wl; try done. apply wlp_FS. intros r g. by wl.
  - unfold sys_mkdir, cwd. wl. apply wlp_FS. intros r g. by wl.
  - unfold sys_mknod, cwd. wl. apply wlp_FS. intros r g. by wl.
  - unfold sys_chdir, cwd. wl. apply wlp_FS. intros [ip|] g; by wl.
  - eapply wlp_mono; [by apply sys_move_file_ok|]. intros r x' Hr. wl. intros Er. apply Hr. lia.
  - apply wlp_get. case_bool_decide as Hb; [|by wl]. destruct Hb as [Hne Hrow]. wl.
    eapply wlp_mono; [apply (fork_files_ok _ _ _ _ _ T Hne Hrow); intros k [_ Hk]; by apply lookup_replicate_2|]. intros; by wl.
  - eapply wlp_mono; [by apply exit_files_ok|]. intros; by wl.
Qed.
End Ops.

(** A call by process [c_cur], whose pid is [c_pid], on CPU [c_me]. *)
Record made := mk_made { c_me : nat; c_pid : Z; c_cur : nat; c_call : fcall }.
(** All of them; [true] if no [move_file] has failed. *)
Fixpoint run_calls {E} `{PipeEnv E} (devsw : Z -> dev_ops) (cs : list made) : M (fstate E) bool :=
  match cs with
  | [] => mret true
  | c :: cs' =>
      b ← do_call (c_me c) (c_pid c) devsw (c_cur c) (c_call c);
      bs ← run_calls devsw cs';
      mret (b && bs)
  end.
Lemma run_calls_ok {E} `{PipeEnv E} devsw cs : forall x, ok x [] [] -> wlp (run_calls devsw cs) (fun b x' => b = true -> ok x' [] []) x.
Proof.
  induction cs as [|c cs IH]; intros x T; cbn [run_calls]; [by wl|]. wl. eapply wlp_mono; [by apply call_ok|]. intros [] x' Hx; wl.
  - eapply wlp_mono; [by apply IH, Hx|]. intros bs x2 H2. by wl.
  - unfold wlp. by destruct (run_calls devsw cs x').
Qed.

Definition NPROC : nat := 64.
Definition file_zero : file := mk_file FD_NONE 0 false false 0 0 0.
(** No file is open. *)
Definition no_files {E} (x : fstate E) : Prop :=
  x_ft x = replicate NFILE file_zero /\ x_fds x = replicate NPROC (replicate NOFILE None).
Lemma no_files_ok {E} (x : fstate E) : no_files x -> ok x [] [].
Proof.
  intros [E1 E2]. unfold ok. rewrite E1, E2. constructor.
  - apply length_replicate.
  - by repeat constructor.
  - intros f fl [-> _]%lookup_replicate_1. unfold NPROC. cbn [repeat replicate refs]. rewrite !refs_in_none. done.
  - intros f fl [-> _]%lookup_replicate_1. cbn. split; [by left|done].
  - by intros f ?%elem_of_nil.
Qed.

(** C16: Whatever calls processes have made, in any order, as long as no [move_file] has
    failed, the reference count of every entry of the file table is the number of
    descriptors, of all processes, that refer to it, and the entry has a type just when
    that number is not 0.  A [move_file] that fails may leave a descriptor that refers to
    a free entry ([move_file_dangling]). *)
Theorem file_refs_exact {E} `{PipeEnv E} devsw cs (x x' : fstate E) :
  no_files x -> run_calls devsw cs x = Ret true x' ->
  forall f fl, x_ft x' !! f = Some fl -> fl_ref fl = refs (x_fds x') f /\ (fl_type fl = FD_NONE <-> refs (x_fds x') f = 0).
Proof.
  intros T%no_files_ok Er f fl Hf. pose proof (wlp_elim _ _ _ _ _ (run_calls_ok devsw cs x T) Er eq_refl) as T'.
  pose proof (tb_refs _ _ _ _ T' f fl Hf) as Hr. rewrite Z.add_0_r in Hr. split; [done|]. rewrite <- Hr, (tb_type _ _ _ _ T' f fl Hf).
  split; [intros [|?%elem_of_nil]; done|by left].
Qed.

(** ** A program that runs *)

(** Pipes that are never empty and never full, numbered as they come. *)
#[local] Instance demo_pipes : PipeEnv nat := {|
  env_newpipe := fun n => Ret (Some n) (S n);
  env_pipeclose := fun _ _ => mret tt;
  env_piperead := fun _ n => mret (n, replicate (Z.to_nat n) 0);
  env_pipewrite := fun _ src => mret (Z.of_nat (length src)) |}.
(** ** [sys_move_file]

    A disk with a root directory (inode 1, block 5) and in it a file [a] (inode 2) of [n]
    blocks, from block 6 on. *)
Definition move_sb : superblock := mk_sb 60 55 8 31 2 2 4.
Definition move_inode (type size first n : Z) : inode :=
  mk_inode 1 0 0 Sleeplock.initsleeplock true type 0 0 1 size (take 13 (seqZ first n ++ replicate 13 0)).
Definition move_view (n : Z) (b : Z) : block :=
  if b =? 2 then put_dinode (put_dinode (replicate 512 0) 64 (move_inode T_DIR 48 5 1)) 128 (move_inode T_FILE (512 * n) 6 n)
  else if b =? 4 then foldl set_bit (replicate 512 0) (seqZ 0 (6 + n))
  else if b =? 5 then dirent 1 [46] ++ dirent 1 [46; 46] ++ dirent 2 [97] ++ replicate 464 0
  else replicate 512 b.
Definition move_fs (n : Z) : fs := mk_fs move_sb 60 (move_view n) [] 0 (replicate NINODE inode_zero).
(** Process 3 has its first [k] descriptors on one pipe. *)
Definition move_files (n : Z) (k : nat) : fstate nat :=
  mk_fstate (mk_g (mk_cpu 0 false true) Spinlock.initlock (move_fs n) []) Spinlock.initlock
    (<[99%nat := mk_file FD_PIPE (Z.of_nat k) true false 0 0 0]> (replicate NFILE file_zero))
    (<[3%nat := replicate k (Some 99%nat) ++ replicate (NOFILE - k) None]> (replicate NPROC (replicate NOFILE None))) (replicate NPROC 0%nat) 0%nat.
Definition move_a_b (n : Z) (k : nat) : res (fstate nat) Z :=
  sys_move_file 0 7 no_dev 3 100 (Some [47; 97]) (Some [47; 98]) (move_files n k).

(** Descriptors made, copied, passed on and closed, and a file moved. *)
Definition demo_files : fstate nat :=
  mk_fstate (mk_g (mk_cpu 0 false true) Spinlock.initlock (move_fs 2) []) Spinlock.initlock
    (replicate NFILE file_zero) (replicate NPROC (replicate NOFILE None)) (replicate NPROC 0%nat) 0%nat.
Definition demo_calls : list made :=
  [mk_made 0 7 3 (Pipe true); mk_made 0 7 3 (Dup (Some 1)); mk_made 0 7 3 (Fork 4);
   mk_made 0 8 4 (Close (Some 0)); mk_made 0 7 3 (MoveFile 100 (Some [47; 97]) (Some [47; 98]));
   mk_made 0 7 3 (Close (Some 1)); mk_made 0 8 4 Exit].
Lemma file_refs_exact_witness :
  exists x', run_calls no_dev demo_calls demo_files = Ret true x' /\
    forall f fl, x_ft x' !! f = Some fl -> fl_ref fl = refs (x_fds x') f /\ (fl_type fl = FD_NONE <-> refs (x_fds x') f = 0).
Proof.
  assert (E : value_of (run_calls no_dev demo_calls demo_files) = Some true) by (vm_compute; reflexivity).
  destruct (run_calls no_dev demo_calls demo_files) as [b x'| | |] eqn:Er; try discriminate E. injection E as ->.
  exists x'. split; [reflexivity|]. apply (file_refs_exact no_dev demo_calls demo_files x' (conj eq_refl eq_refl) Er).
Defined.

(** A small file is moved: the old name is gone, the new one has the contents. *)
Lemma move_file_small : value_of (move_a_b 2 0) = Some 0 /\
  let g := x_fs (result_state (move_a_b 2 0)) in
  value_of (namei 0 7 no_dev 0 [47; 97] g) = Some None /\
  value_of ((o ← namei 0 7 no_dev 0 [47; 98]; ilock 0 7 o ;; readi no_dev (default 0%nat o) 0 2000) g)
    = Some (1024, replicate 512 6 ++ replicate 512 7).
Proof. vm_compute. done. Qed.

(** A file of more than four kilobytes is not: the call waits for the end of its own
    transaction. *)
Theorem move_file_deadlocks : sleeps_on (move_a_b 9 0) = Some CLog /\ f_outstanding (g_val (x_fs (result_state (move_a_b 9 0)))) = 1.
Proof. vm_compute. done. Qed.

(** If the second descriptor cannot be had, the first one is left behind, referring to an
    entry of the table that is free. *)
Theorem move_file_dangling : value_of (move_a_b 2 15) = Some (-1) /\
  let x' := result_state (move_a_b 2 15) in
  exists l f fl, x_fds x' !! 3%nat = Some l /\ l !! 15%nat = Some (Some f) /\ x_ft x' !! f = Some fl /\ fl_ref fl = 0.
Proof. vm_compute. split; [reflexivity|]. do 3 eexists. split_and!; reflexivity. Qed.

(** Moved onto itself, a file is lost. *)
Theorem move_file_onto_itself : 
  let r := sys_move_file 0 7 no_dev 3 100 (Some [47; 97]) (Some [47; 97]) (move_files 2 0) in
  value_of r = Some 0 /\ value_of (namei 0 7 no_dev 0 [47; 97] (x_fs (result_state r))) = Some None.
Proof. vm_compute. done. Qed.
