(* ===== verification/FileIO.v ===== *)
(** Writing open files ([filewrite] of [file.c]): the transactions and their size.

    [filewrite] writes a few blocks at a time, each in a transaction of its own.  No
    transaction puts more blocks into the log than [begin_op] has reserved for it, and
    together they write all the bytes. *)

From S2P Require Import Prelude CString Locks Guarded Bytes Fs FsBlocks FsInode File.

Definition nlogged (g : guarded fs) : Z := Z.of_nat (length (f_logged (g_val g))).

(** ** How many blocks [writei] logs *)

(** The number of blocks that [n] bytes from [off] on lie in. *)
Definition spans (off n : Z) : Z := if n <=? 0 then 0 else (off mod BSIZE + n - 1) / BSIZE + 1.
Lemma spans_step off n : 0 <= off -> 0 < n -> let m := min n (BSIZE - off mod BSIZE) in
  0 < m <= n /\ spans off n = 1 + spans (off + m) (n - m).
Proof.
  intros Ho Hn m. assert (HB : BSIZE = 512) by reflexivity. pose proof (Z.mod_pos_bound off BSIZE ltac:(lia)) as Hm. unfold min in m.
  destruct (Z.ltb_spec n (BSIZE - off mod BSIZE)) as [Hlt|Hge]; subst m; (split; [lia|]); unfold spans.
  - rewrite (proj2 (Z.leb_gt n 0)) by lia. replace (n - n <=? 0) with true by lia. rewrite Z.div_small by lia. lia.
  - rewrite (proj2 (Z.leb_gt n 0)) by lia. destruct (Z.leb_spec (n - (BSIZE - off mod BSIZE)) 0).
    + replace n with (BSIZE - off mod BSIZE) by lia. rewrite Z.div_small by lia. lia.
    + assert (E : (off + (BSIZE - off mod BSIZE)) mod BSIZE = 0).
      { pose proof (Z.div_mod off BSIZE ltac:(lia)). replace (off + (BSIZE - off mod BSIZE)) with ((off / BSIZE + 1) * BSIZE) by lia. apply Z.mod_mul. lia. }
      rewrite E. replace (off mod BSIZE + n - 1) with (0 + (n - (BSIZE - off mod BSIZE)) - 1 + 1 * BSIZE) by lia. rewrite Z.div_add by lia. lia.
Qed.
Lemma spans_nonneg off n : 0 <= off -> 0 <= spans off n.
Proof.
  intros Ho. unfold spans. destruct (Z.leb_spec n 0); [lia|]. pose proof (Z.mod_pos_bound off BSIZE eq_refl).
  pose proof (Z.div_pos (off mod BSIZE + n - 1) BSIZE ltac:(lia) eq_refl). lia.
Qed.
Lemma spans_max off n : 0 <= off -> n <= max_write -> 0 <= spans off n <= 4.
Proof.
  intros Ho Hn. assert (HM : max_write = 1536) by reflexivity. assert (HB : BSIZE = 512) by reflexivity. unfold spans. destruct (Z.leb_spec n 0); [lia|].
  pose proof (Z.mod_pos_bound off BSIZE ltac:(lia)). assert ((off mod BSIZE + n - 1) / BSIZE < 4) by (apply Z.div_lt_upper_bound; lia).
  pose proof (Z.div_pos (off mod BSIZE + n - 1) BSIZE ltac:(lia) ltac:(lia)). lia.
Qed.

(** [within k m]: [m] calls [log_write] at most [k] times, so the log can be too small for
    it only if it has less than [k] blocks left. *)
Definition room (s : fs) : Z := Z.min FS_LOGSIZE (sb_nlog (f_sb s) - 1).
Definition within {A} (k : Z) (m : M (guarded fs) A) : Prop := forall g,
  match m g with
  | Ret _ g' => f_sb (g_val g') = f_sb (g_val g) /\ nlogged g' <= nlogged g + k
  | Panic msg _ => too_big msg -> room (g_val g) < nlogged g + k
  | _ => True
  end.
Lemma within_ret {A} (a : A) : within 0 (mret a).
Proof. intros g. cbn. split; [done|lia]. Qed.
Lemma within_get : within 0 g_get.
Proof. intros g. cbn. split; [done|lia]. Qed.
Lemma within_mod f : (forall s, f_sb (f s) = f_sb s /\ f_logged (f s) = f_logged s) -> within 0 (g_mod f).
Proof. intros Hf g. cbn. unfold nlogged. cbn. destruct (Hf (g_val g)) as [-> ->]. split; [done|lia]. Qed.
Lemma within_panic {A} msg : ~ too_big msg -> within (A := A) 0 (panic msg).
Proof. intros H g. cbn. done. Qed.
Lemma within_faults {A} e : within (A := A) 0 (faults e).
Proof. intros g. exact I. Qed.
Lemma within_bind {A B} k1 k2 (m : M (guarded fs) A) (f : A -> M (guarded fs) B) :
  within k1 m -> (forall a, within k2 (f a)) -> 0 <= k2 -> within (k1 + k2) (m ≫= f).
Proof.
  intros Hm Hf H2 g. specialize (Hm g). unfold mbind, M_MBind, M_bind. destruct (m g) as [a g'|msg g'|ch z g'|e g']; try done.
  - specialize (Hf a g'). destruct Hm as [Es El]. destruct (f a g') as [b g''|msg g''|ch z g''|e g'']; try done.
    + destruct Hf as [Es' El']. split; [congruence|lia].
    + intros Ht. specialize (Hf Ht). unfold room in *. rewrite Es in Hf. lia.
  - intros Ht. specialize (Hm Ht). lia.
Qed.
Lemma within_mono {A} k k' (m : M (guarded fs) A) : within k m -> k <= k' -> within k' m.
Proof. intros Hm Hk g. specialize (Hm g). destruct (m g); try done; [destruct Hm; split; [done|lia]|]. intros Ht. specialize (Hm Ht). lia. Qed.
Lemma within_when k b m : within k m -> 0 <= k -> within k (when b m).
Proof. intros Hm Hk. destruct b; [done|]. eapply within_mono; [apply within_ret|done]. Qed.

Lemma bread_within b : within 0 (bread b).
Proof. intros g. unfold bread. munfold. cbn. destruct (_ >=? _); cbn; [done|split; [done|lia]]. Qed.
Lemma log_write_within b d : within 1 (log_write b d).
Proof.
  intros g. unfold log_write. munfold. cbn. destruct (_ || _) eqn:Er; [intros _; unfold room, nlogged, FS_LOGSIZE in *; lia|].
  destruct (_ <? 1); [discriminate|]. cbn. split; [done|]. unfold nlogged. cbn. destruct (bool_decide _); [lia|]. rewrite length_app. cbn. lia.
Qed.
Lemma balloc_loop_within n b : within 2 (balloc_loop n b).
Proof.
  revert b. induction n as [|n IH]; intros b; cbn [balloc_loop]; [eapply within_mono; [apply within_faults|lia]|].
  change 2 with (0 + 2). apply within_bind; [apply within_get|intros s|lia]. destruct (negb _); [eapply within_mono; [by apply within_panic|lia]|].
  change 2 with (0 + 2). apply within_bind; [apply bread_within|intros data|lia]. destruct (scan_bits _ _ _ _ _); [|apply IH].
  change 2 with (1 + (1 + 0)). apply within_bind; [apply log_write_within|intros _|lia]. apply within_bind; [|intros _; apply within_ret|lia].
  unfold bzero. change 1 with (0 + 1). apply within_bind; [apply bread_within|intros _; apply log_write_within|lia].
Qed.
Lemma balloc_within : within 2 balloc.
Proof. unfold balloc. change 2 with (0 + 2). apply within_bind; [apply within_get|intros s; apply balloc_loop_within|lia]. Qed.
Lemma alloc_within i k : within 2 (addr ← balloc; g_mod (upd_ino i (fun p => set_addrs (<[k := addr]> (i_addrs p)) p)) ;; mret addr).
Proof.
  change 2 with (2 + (0 + 0)). apply within_bind; [apply balloc_within|intros a|lia]. apply within_bind; [by apply within_mod|intros _; apply within_ret|lia].
Qed.
Lemma bmap_within i bn : within 5 (bmap i bn).
Proof.
  unfold bmap. change 5 with (0 + 5). apply within_bind; [apply within_get|intros s|lia]. destruct (bn <? NDIRECT).
  { destruct (_ =? 0); [|eapply within_mono; [apply within_ret|lia]]. eapply within_mono; [apply alloc_within|lia]. }
  destruct (_ <? NINDIRECT); [|eapply within_mono; [by apply within_panic|lia]].
  change 5 with (2 + (0 + 3)). apply within_bind; [|intros a|lia].
  - destruct (_ =? 0); [apply alloc_within|eapply within_mono; [apply within_ret|lia]].
  - apply within_bind; [apply bread_within|intros data|lia]. destruct (_ =? 0); [|eapply within_mono; [apply within_ret|lia]].
    change 3 with (2 + (1 + 0)). apply within_bind; [apply balloc_within|intros x|lia]. apply within_bind; [apply log_write_within|intros _; apply within_ret|lia].
Qed.
Lemma writei_loop_within fuel i : forall off src, 0 <= off -> within (6 * spans off (Z.of_nat (length src))) (writei_loop fuel i off src).
Proof.
  induction fuel as [|fuel IH]; intros off src Ho; cbn [writei_loop].
  { eapply within_mono; [apply within_faults|]. pose proof (spans_nonneg off (Z.of_nat (length src)) Ho). lia. }
  destruct src as [|c src]; [eapply within_mono; [apply within_ret|by vm_compute]|]. set (l := c :: src).
  destruct (spans_step off (Z.of_nat (length l)) Ho ltac:(unfold l; cbn; lia)) as [Hm Hs]. set (m := min _ _) in *.
  pose proof (spans_nonneg (off + m) (Z.of_nat (length l) - m) ltac:(lia)) as Hnn.
  rewrite Hs. replace (6 * (1 + spans (off + m) (Z.of_nat (length l) - m))) with (5 + (0 + (1 + 6 * spans (off + m) (Z.of_nat (length l) - m)))) by lia.
  apply within_bind; [apply bmap_within|intros a|lia]. apply within_bind; [apply bread_within|intros data|lia].
  apply within_bind; [apply log_write_within|intros _|lia].
  replace (Z.of_nat (length l) - m) with (Z.of_nat (length (drop (Z.to_nat m) l))) by (rewrite length_drop; lia). apply IH. lia.
Qed.
Lemma iupdate_within i : within 1 (iupdate i).
Proof.
  unfold iupdate. change 1 with (0 + (0 + 1)). apply within_bind; [apply within_get|intros s|lia].
  apply within_bind; [apply bread_within|intros d; apply log_write_within|lia].
Qed.
(** A regular file. *)
Lemma writei_within devsw i src off g : 0 <= off -> Z.of_nat (length src) <= max_write -> i_type (ino (g_val g) i) <> T_DEV ->
  match writei devsw i src off g with Panic msg _ => too_big msg -> room (g_val g) < nlogged g + 25 | _ => True end.
Proof.
  intros Ho Hn Ht. pose proof (spans_max off _ Ho Hn) as Hs.
  assert (W : within 25 (off' ← writei_loop (Z.to_nat (Z.of_nat (length src) / BSIZE + 3)) i off src; s ← g_get;
    when ((Z.of_nat (length src) >? 0) && (off' >? i_size (ino s i))) (g_mod (upd_ino i (set_size off')) ;; iupdate i) ;; mret (Z.of_nat (length src)))).
  { change 25 with (24 + (0 + (1 + 0))). apply within_bind; [eapply within_mono; [by apply writei_loop_within|lia]|intros off'|lia].
    apply within_bind; [apply within_get|intros s|lia]. apply within_bind; [|intros _; apply within_ret|lia]. apply within_when; [|lia].
    change 1 with (0 + 1). apply within_bind; [by apply within_mod|intros _; apply iupdate_within|lia]. }
  specialize (W g). unfold writei. rewrite (bind_eq g_get _ g (g_val g) g) by done. rewrite (proj2 (Z.eqb_neq _ _) Ht).
  destruct (_ || _); [done|]. destruct (_ >? MAXFILE * BSIZE); [done|].
  match type of W with match ?r with _ => _ end => change (match r with Panic msg _ => too_big msg -> room (g_val g) < nlogged g + 25 | _ => True end); by destruct r end.
Qed.

(** ** Which blocks [writei] logs

    On a disk with one block of bitmap: that block, the file's indirect block, and those in
    [T].  (Block 0 stands for an indirect block that is not there.) *)
Definition a12 (s : fs) (i : nat) : Z := nth 12 (i_addrs (ino s i)) 0.
Record touches (i : nat) (s : fs) (T : list Z) (s' : fs) : Prop := mk_touches {
  th_sb : f_sb s' = f_sb s;
  th_out : f_outstanding s' = f_outstanding s;
  th_len : length (f_icache s') = length (f_icache s);
  th_inum : i_inum (ino s' i) = i_inum (ino s i);
  th_addrs : length (i_addrs (ino s' i)) = length (i_addrs (ino s i));
  th_a12 : a12 s i <> 0 -> a12 s' i = a12 s i;
  th_nodup : NoDup (f_logged s) -> NoDup (f_logged s');
  th_in : forall b, b ∈ f_logged s' -> b ∈ f_logged s \/ b ∈ T \/ b = sb_bmapstart (f_sb s) \/ b = 0 \/ b = a12 s' i }.
Lemma touches_refl i s T : touches i s T s.
Proof. constructor; try done. auto. Qed.
Lemma touches_trans i s T1 s1 T2 s2 : touches i s T1 s1 -> touches i s1 T2 s2 -> touches i s (T1 ++ T2) s2.
Proof.
  intros [A1 A7 A2 A3 A0 A4 A5 A6] [B1 B7 B2 B3 B0 B4 B5 B6]. constructor; try congruence; [|auto|].
  - intros Hne. rewrite B4; [auto|]. by rewrite A4.
  - intros b Hb. rewrite elem_of_app. destruct (B6 b Hb) as [H|[H|[H|[H|H]]]]; [|rewrite ?A1 in H; auto 6..].
    destruct (A6 b H) as [|[|[|[|H']]]]; [auto 6..|]. destruct (Z.eq_dec (a12 s1 i) 0) as [E0|Hne]; [rewrite E0 in H'; auto|].
    rewrite <- (B4 Hne) in H'. auto 6.
Qed.
Lemma touches_weaken i s T T' s' : touches i s T s' -> (forall b, b ∈ T -> b ∈ T' \/ b = sb_bmapstart (f_sb s) \/ b = 0 \/ b = a12 s' i) -> touches i s T' s'.
Proof.
  intros [A1 A7 A2 A3 A0 A4 A5 A6] HT. constructor; try done. intros b Hb. destruct (A6 b Hb) as [|[H|]]; [by left| |by auto]. auto.
Qed.
Lemma touches_logged i s b d : touches i s [b] (logged b d s).
Proof.
  constructor; try done.
  - intros H. cbn. case_bool_decide; [done|]. apply NoDup_app. split_and!; [done|by intros x Hx ->%list_elem_of_singleton|apply NoDup_singleton].
  - intros x. cbn. case_bool_decide; [by left|]. rewrite elem_of_app. intros [|]; auto.
Qed.

Section Touches.
Context (i : nat).
Definition post {A} (g : guarded fs) (T : A -> list Z) (a : A) (g' : guarded fs) : Prop := touches i (g_val g) (T a) (g_val g').

Lemma wlp_bread b (Q : block -> guarded fs -> Prop) g : Q (f_view (g_val g) b) g -> wlp (bread b) Q g.
Proof. intros HQ. unfold bread, g_get. wl. destruct (_ >=? _); by wl. Qed.
Lemma wlp_log_write b d (Q : unit -> guarded fs -> Prop) g :
  Q tt (mk_g (g_cpu g) (g_lk g) (logged b d (g_val g)) (g_wakes g)) -> wlp (log_write b d) Q g.
Proof. intros HQ. unfold log_write, g_get. wl. destruct (_ || _); [by wl|]. destruct (_ <? 1); by wl. Qed.
Lemma log_write_touches b d g : wlp (log_write b d) (post g (fun _ => [b])) g.
Proof. apply wlp_log_write. apply touches_logged. Qed.

Lemma balloc_touches g : sb_size (f_sb (g_val g)) <= BPB ->
  wlp balloc (fun a g' => touches i (g_val g) [a] (g_val g') /\ f_icache (g_val g') = f_icache (g_val g)) g.
Proof.
  intros Hsz. unfold balloc, g_get. wl. generalize (Z.to_nat (sb_size (f_sb (g_val g)) / BPB + 2)). intros [|n]; cbn [balloc_loop]; [by wl|]. unfold g_get at 1. wl.
  destruct (negb _); [by wl|]. wl. apply wlp_bread. generalize (Z.to_nat BPB). intros nb. destruct (scan_bits nb _ _ _ _) as [bi|].
  - wl. apply wlp_log_write. wl. unfold bzero. wl. apply wlp_bread. apply wlp_log_write. wl. cbn [g_val]. split; [|done].
    change (BBLOCK 0 (f_sb (g_val g))) with (sb_bmapstart (f_sb (g_val g))). set (s1 := logged (sb_bmapstart _) _ _).
    eapply touches_weaken; [eapply (touches_trans i _ _ s1); apply touches_logged|]. intros b. rewrite elem_of_app, !list_elem_of_singleton. intros [|]; auto.
  - destruct n as [|n]; cbn [balloc_loop]; [by wl|]. unfold g_get. wl. replace (negb _) with true by lia. by wl.
Qed.
(** A new block in slot [k] of the inode. *)
Lemma set_addr_touches s k a : (i < length (f_icache s))%nat -> (k <> 12%nat \/ a12 s i = 0) ->
  touches i s [] (upd_ino i (fun p => set_addrs (<[k := a]> (i_addrs p)) p) s).
Proof.
  intros Hi Hk. constructor; try done.
  - cbn. by rewrite length_alter.
  - rewrite ino_upd by done. by rewrite decide_True.
  - rewrite ino_upd, decide_True by done. cbn. by rewrite length_insert.
  - intros Hne. destruct Hk as [Hk|]; [|done]. unfold a12. rewrite ino_upd, decide_True by done. cbn [i_addrs set_addrs].
    rewrite !nth_lookup. by rewrite list_lookup_insert_ne.
  - intros b Hb. by left.
Qed.
Definition shaped (s : fs) : Prop := (i < length (f_icache s))%nat /\ length (i_addrs (ino s i)) = 13%nat.
Lemma touches_shaped s T s' : touches i s T s' -> shaped s -> shaped s'.
Proof. intros T1 [H1 H2]. split; [by rewrite (th_len _ _ _ _ T1)|by rewrite (th_addrs _ _ _ _ T1)]. Qed.
Lemma alloc_touches k g : sb_size (f_sb (g_val g)) <= BPB -> shaped (g_val g) -> (k < 13)%nat -> (k <> 12%nat \/ a12 (g_val g) i = 0) ->
  wlp (addr ← balloc; g_mod (upd_ino i (fun p => set_addrs (<[k := addr]> (i_addrs p)) p)) ;; mret addr)
    (fun a g' => touches i (g_val g) [a] (g_val g') /\ nth k (i_addrs (ino (g_val g') i)) 0 = a) g.
Proof.
  intros Hsz [Hi Hl] Hk H12. wl. eapply wlp_mono; [by apply balloc_touches|]. intros a g1 [T1 Ec]. unfold g_mod. wl. cbn [g_val].
  assert (Eino : ino (g_val g1) i = ino (g_val g) i) by (unfold ino; by rewrite Ec). split.
  - rewrite <- (app_nil_r [a]). eapply touches_trans; [exact T1|]. apply set_addr_touches; [by rewrite Ec|]. unfold a12. by rewrite Eino.
  - rewrite ino_upd, decide_True by (done || by rewrite Ec). cbn [i_addrs set_addrs]. rewrite nth_lookup, Eino.
    by rewrite list_lookup_insert_eq by (rewrite Hl; lia).
Qed.
Lemma bmap_touches bn g : sb_size (f_sb (g_val g)) <= BPB -> 0 <= bn -> shaped (g_val g) -> wlp (bmap i bn) (fun a g' => touches i (g_val g) [a] (g_val g')) g.
Proof.
  intros Hsz Hbn I. unfold bmap, g_get. wl. destruct (Z.ltb_spec bn NDIRECT) as [Hd|Hd].
  - destruct (_ =? 0); [|wl; apply touches_refl]. eapply wlp_mono; [apply alloc_touches; try done; unfold NDIRECT in *; lia|]. by intros a g1 [T1 _].
  - destruct (_ <? NINDIRECT); [|by wl]. wl.
    eapply wlp_mono with (Q := fun a g1 => touches i (g_val g) [] (g_val g1) /\ a12 (g_val g1) i = a).
    + destruct (Z.eqb_spec (nth 12 (i_addrs (ino (g_val g) i)) 0) 0) as [E0|E0]; [|wl; split; [apply touches_refl|done]].
      eapply wlp_mono; [apply alloc_touches; try done; [lia|by right]|]. intros a g1 [T1 E1]. split; [|done].
      eapply touches_weaken; [exact T1|]. intros b ->%list_elem_of_singleton. unfold a12. auto.
    + intros a g1 [T1 Ea]. wl. apply wlp_bread. destruct (_ =? 0); wl.
      * eapply wlp_mono; [apply balloc_touches; by rewrite (th_sb _ _ _ _ T1)|]. intros x g2 [T2 Ec]. wl. apply wlp_log_write. wl. cbn [g_val].
        assert (Ea2 : a12 (g_val g2) i = a) by (unfold a12, ino; rewrite Ec; exact Ea).
        eapply touches_weaken; [eapply touches_trans; [exact T1|eapply touches_trans; [exact T2|apply touches_logged]]|].
        intros b. rewrite !elem_of_app, !list_elem_of_singleton, elem_of_nil. intros [ |[-> | ->]]; [done|auto|]. do 3 right. rewrite <- Ea2. done.
      * eapply touches_weaken; [exact T1|]. by intros b ?%elem_of_nil.
Qed.
Lemma writei_loop_touches fuel : forall off src g, sb_size (f_sb (g_val g)) <= BPB -> 0 <= off -> shaped (g_val g) ->
  wlp (writei_loop fuel i off src) (fun _ g' => exists T, Z.of_nat (length T) <= spans off (Z.of_nat (length src)) /\ touches i (g_val g) T (g_val g')) g.
Proof.
  induction fuel as [|fuel IH]; intros off src g Hsz Ho Hsh; cbn [writei_loop]; [by wl|]. destruct src as [|c src].
  { wl. exists []. split; [by vm_compute|apply touches_refl]. }
  set (l := c :: src). destruct (spans_step off (Z.of_nat (length l)) Ho ltac:(unfold l; cbn; lia)) as [Hm Hs]. set (m := min _ _) in *. wl.
  eapply wlp_mono; [apply bmap_touches; try done; apply Z.div_pos; [done|by vm_compute]|]. intros a g1 T1. wl. apply wlp_bread. wl. apply wlp_log_write.
  assert (T2 : touches i (g_val g) [a] (logged a (splice (f_view (g_val g1) a) (Z.to_nat (off mod BSIZE)) (take (Z.to_nat m) l)) (g_val g1))).
  { eapply touches_weaken; [eapply touches_trans; [exact T1|apply touches_logged]|]. intros b. rewrite elem_of_app, !list_elem_of_singleton. intros [|]; auto. }
  eapply wlp_mono; [apply IH; cbn [g_val]; [by rewrite (th_sb _ _ _ _ T2)|lia|by eapply touches_shaped]|].
  cbn [g_val]. intros _ g2 (T & HT & T3). exists ([a] ++ T). split; [|by eapply touches_trans].
  rewrite Hs. rewrite length_drop in HT. cbn [app length]. replace (Z.of_nat (length l - Z.to_nat m)) with (Z.of_nat (length l) - m) in HT by lia. lia.
Qed.
Lemma writei_touches devsw src off g : sb_size (f_sb (g_val g)) <= BPB -> 0 <= off -> shaped (g_val g) -> i_type (ino (g_val g) i) <> T_DEV ->
  wlp (writei devsw i src off) (fun _ g' => exists T, Z.of_nat (length T) <= spans off (Z.of_nat (length src)) + 1 /\ touches i (g_val g) T (g_val g')) g.
Proof.
  intros Hsz Ho Hsh Ht. pose proof (spans_nonneg off (Z.of_nat (length src)) Ho) as Hs. unfold writei, g_get. wl. rewrite (proj2 (Z.eqb_neq _ _) Ht).
  assert (Hno : exists T, Z.of_nat (length T) <= spans off (Z.of_nat (length src)) + 1 /\ touches i (g_val g) T (g_val g)) by (exists []; split; [cbn; lia|apply touches_refl]).
  destruct (_ || _); [by wl|]. destruct (_ >? MAXFILE * BSIZE); [by wl|]. wl. eapply wlp_mono; [by apply writei_loop_touches|].
  intros off' g1 (T & HT & T1). wl. destruct (_ && _); wl; [|exists T; split; [lia|done]]. unfold g_mod. wl. unfold iupdate, g_get. wl. apply wlp_bread.
  apply wlp_log_write. wl. cbn [g_val]. destruct (touches_shaped _ _ _ T1 Hsh) as [Hi _]. exists (T ++ [IBLOCK (i_inum (ino (upd_ino i (set_size off') (g_val g1)) i)) (f_sb (g_val g1))]).
  split; [rewrite length_app; cbn; lia|]. eapply touches_trans; [exact T1|].
  eapply (touches_weaken _ _ ([] ++ [_])); [eapply (touches_trans i _ [] (upd_ino i (set_size off') (g_val g1))); [|apply touches_logged]|auto].
  constructor; try done; [cbn; by rewrite length_alter|rewrite ino_upd, decide_True by done; done..| |intros b; by left].
  intros _. unfold a12. by rewrite ino_upd, decide_True.
Qed.
End Touches.

Lemma NoDup_within (l l' T : list Z) : NoDup l' -> (forall b, b ∈ l' -> b ∈ l \/ b ∈ T) -> (length l' <= length l + length T)%nat.
Proof.
  intros Hn H. rewrite <- length_app. apply submseteq_length, NoDup_submseteq; [done|]. intros b Hb. rewrite elem_of_app. auto.
Qed.

(** C18: A [writei] of no more bytes than [filewrite] writes at once adds at most
    MAXOPBLOCKS blocks to the log, as many as [begin_op] has reserved, on a file of any
    size, at any offset. *)
Theorem writei_log_bound devsw i src off g r g' :
  sb_size (f_sb (g_val g)) <= BPB -> inode_ok (g_val g) i -> i_type (ino (g_val g) i) <> T_DEV -> NoDup (f_logged (g_val g)) ->
  0 <= off -> Z.of_nat (length src) <= max_write -> writei devsw i src off g = Ret r g' ->
  nlogged g' <= nlogged g + MAXOPBLOCKS.
Proof.
  intros Hsz I Ht Hn Ho Hl E. pose proof (spans_max off _ Ho Hl) as Hs.
  destruct (wlp_elim _ _ _ _ _ (writei_touches i devsw src off g Hsz Ho (conj (io_idx _ _ I) (io_len _ _ I)) Ht) E) as (T & HT & T1).
  pose proof (NoDup_within (f_logged (g_val g)) (f_logged (g_val g')) (T ++ [sb_bmapstart (f_sb (g_val g)); 0; a12 (g_val g') i]) (th_nodup _ _ _ _ T1 Hn)) as Hb.
  rewrite length_app in Hb. unfold nlogged, MAXOPBLOCKS. cbn [length] in Hb. specialize (Hb ltac:(intros b Hin; destruct (th_in _ _ _ _ T1 b Hin) as [|H]; [by left|right; rewrite elem_of_app, !elem_of_cons; intuition])). lia.
Qed.

(** ** One transaction *)

(** Nothing that the contents of file [i] depend on differs. *)
Record same_file (s : fs) (i : nat) (s' : fs) : Prop := mk_same_file {
  sf_sb : f_sb s' = f_sb s;
  sf_disk : f_disksize s' = f_disksize s;
  sf_view : f_view s' = f_view s;
  sf_len : length (f_icache s') = length (f_icache s);
  sf_addrs : i_addrs (ino s' i) = i_addrs (ino s i);
  sf_inum : i_inum (ino s' i) = i_inum (ino s i);
  sf_size : i_size (ino s' i) = i_size (ino s i) }.
Section SameFile.
Context (s : fs) (i : nat) (s' : fs) (H : same_file s i s').
Lemma same_used b : usedb s' b = usedb s b.
Proof. unfold usedb. by rewrite (sf_view _ _ _ H), (sf_sb _ _ _ H). Qed.
Lemma same_addr k : addr s' i k = addr s i k.
Proof. unfold addr, slot_addr. by rewrite (sf_view _ _ _ H), (sf_addrs _ _ _ H). Qed.
Lemma same_data b : data_block s' b <-> data_block s b.
Proof. unfold data_block, data_start. by rewrite (sf_sb _ _ _ H). Qed.
Lemma same_fs_ok : fs_ok s -> 1 <= f_outstanding s' -> fs_ok s'.
Proof.
  intros [O1 O2 O3 O4 O5 O6 _] Ho. constructor; unfold data_start in *; rewrite ?(sf_sb _ _ _ H), ?(sf_disk _ _ _ H), ?(sf_view _ _ _ H); try done.
  intros b Hb. rewrite same_used. auto.
Qed.
Lemma same_inode_ok : inode_ok s i -> inode_ok s' i.
Proof.
  intros [I1 I2 I3 I4 I5 I6]. constructor; rewrite ?(sf_len _ _ _ H), ?(sf_addrs _ _ _ H), ?(sf_inum _ _ _ H), ?(sf_size _ _ _ H), ?(sf_sb _ _ _ H); try done.
  - intros k Hk. rewrite same_addr, same_used, same_data. by apply I3.
  - intros k k' Hk Hk'. rewrite !same_addr. by apply I4.
Qed.
Lemma same_contents : contents s' i = contents s i.
Proof.
  unfold contents. rewrite (sf_size _ _ _ H). apply slice_ext. intros k Hk. unfold file_byte, fdata. by rewrite same_addr, (sf_view _ _ _ H).
Qed.
End SameFile.

Definition begun (s : fs) : fs := mk_fs (f_sb s) (f_disksize s) (f_view s) (f_logged s) (f_outstanding s + 1) (f_icache s).
Definition ended (s : fs) : fs :=
  mk_fs (f_sb s) (f_disksize s) (f_view s) (if f_outstanding s - 1 =? 0 then [] else f_logged s) (f_outstanding s - 1) (f_icache s).
Definition with_ilock (i : nat) (lk : sleeplock) (s : fs) : fs := upd_ino i (set_ilock lk) s.
Lemma same_begun s i : same_file s i (begun s).
Proof. by constructor. Qed.
Lemma same_ended s i : same_file s i (ended s).
Proof. by constructor. Qed.
Lemma same_ilock s i lk : (i < length (f_icache s))%nat -> same_file s i (with_ilock i lk s).
Proof. intros Hi. unfold with_ilock. constructor; try done; [cbn; by rewrite length_alter|rewrite ino_upd, decide_True by done; done..]. Qed.
Lemma same_file_trans s i s1 s2 : same_file s i s1 -> same_file s1 i s2 -> same_file s i s2.
Proof. intros [A1 A2 A3 A4 A5 A6 A7] [B1 B2 B3 B4 B5 B6 B7]. constructor; congruence. Qed.

(** Inode [i] is in memory and nobody has it locked, no transaction is under way, the log
    has room for one, and the bitmap is one block, as [mkfs] makes it. *)
Record at_rest (s : fs) (i : nat) : Prop := mk_at_rest {
  ar_fs : fs_ok (begun s);
  ar_ino : inode_ok s i;
  ar_ref : 1 <= i_ref (ino s i);
  ar_valid : i_valid (ino s i) = true;
  ar_lock : i_lock (ino s i) = Sleeplock.initsleeplock;
  ar_type : i_type (ino s i) <> T_DEV;
  ar_out : f_outstanding s = 0;
  ar_log : f_logged s = [];
  ar_room : 25 <= room s;
  ar_bitmap : sb_size (f_sb s) <= BPB }.

Section Transaction.
Context (me : nat) (mypid : Z) (devsw : Z -> dev_ops) (i : nat).
Definition mine : sleeplock := mk_sleeplock 1 Spinlock.initlock mypid.

Lemma begin_tx_run g : f_outstanding (g_val g) = 0 -> f_logged (g_val g) = [] ->
  begin_op g = Ret tt (mk_g (g_cpu g) (g_lk g) (begun (g_val g)) (g_wakes g)).
Proof. intros E1 E2. unfold begin_op. munfold. unfold g_get. munfold. by rewrite E1, E2. Qed.
Lemma on_ilock_run {A} (f : M slctx A) g a x : f (mk_slctx (g_cpu g) (i_lock (ino (g_val g) i)) (g_wakes g)) = Ret a x ->
  on_ilock i f g = Ret a (mk_g (sl_cpu x) (g_lk g) (with_ilock i (sl x) (g_val g)) (sl_wakeups x)).
Proof. intros E. unfold on_ilock, zoom. by rewrite E. Qed.
Lemma ino_ilock lk s : (i < length (f_icache s))%nat -> ino (with_ilock i lk s) i = set_ilock lk (ino s i).
Proof. intros Hi. unfold with_ilock. by rewrite ino_upd, decide_True. Qed.

Lemma ilock_run g : g_quiet g -> i_lock (ino (g_val g) i) = Sleeplock.initsleeplock -> 1 <= i_ref (ino (g_val g) i) -> i_valid (ino (g_val g) i) = true ->
  (i < length (f_icache (g_val g)))%nat ->
  exists g', ilock me mypid (Some i) g = Ret tt g' /\ g_quiet g' /\ g_val g' = with_ilock i mine (g_val g).
Proof.
  intros [Hlk Hcpu] El Hr Hv Hi. unfold ilock. rewrite (bind_eq g_get _ g (g_val g) g) by done. rewrite (proj2 (Z.ltb_ge _ _)) by lia.
  erewrite bind_eq; [|apply on_ilock_run; rewrite Sleeplock.acquiresleep_run by (split; [cbn; by rewrite El|done]); rewrite El; reflexivity].
  cbn [sl sl_cpu sl_wakeups]. rewrite (bind_eq g_get _ _ _ _ eq_refl). cbn [g_val]. rewrite ino_ilock by done. cbn [i_valid set_ilock]. rewrite Hv.
  eexists. split; [reflexivity|]. done.
Qed.
Lemma iunlock_run g : g_quiet g -> i_lock (ino (g_val g) i) = mine -> 1 <= i_ref (ino (g_val g) i) -> (i < length (f_icache (g_val g)))%nat ->
  exists g', iunlock me mypid (Some i) g = Ret tt g' /\ g_quiet g' /\ g_val g' = with_ilock i Sleeplock.initsleeplock (with_ilock i mine (g_val g)).
Proof.
  intros [Hlk Hcpu] El Hr Hi. unfold iunlock.
  erewrite bind_eq; [|apply on_ilock_run; rewrite Sleeplock.holdingsleep_run by (split; [cbn; by rewrite El|done]); reflexivity].
  cbn [sl sl_cpu sl_wakeups]. rewrite El. rewrite bool_decide_eq_true_2 by done. rewrite (bind_eq g_get _ _ _ _ eq_refl). cbn [g_val negb orb].
  rewrite ino_ilock by done. cbn [i_ref set_ilock]. rewrite (proj2 (Z.ltb_ge _ _)) by lia.
  erewrite on_ilock_run; [|rewrite Sleeplock.releasesleep_run; [reflexivity|]].
  - eexists. split; [reflexivity|]. split; [split; [done|exact Hcpu]|done].
  - cbn [g_val]. rewrite ino_ilock by done. split; [done|exact Hcpu].
Qed.
End Transaction.

(** [src] put over the bytes of [C] from [off] on. *)
Definition patch (C : list Z) (off : Z) (src : list Z) : list Z :=
  take (Z.to_nat off) C ++ src ++ drop (Z.to_nat (off + Z.of_nat (length src))) C.
Lemma patch_app C off a b : 0 <= off <= Z.of_nat (length C) -> patch (patch C off a) (off + Z.of_nat (length a)) b = patch C off (a ++ b).
Proof.
  intros Ho. unfold patch. set (k := Z.to_nat off). assert (Hk : (k <= length C)%nat) by lia.
  assert (El : length (take k C) = k) by (rewrite length_take; lia).
  replace (Z.to_nat (off + Z.of_nat (length a))) with (k + length a)%nat by lia.
  replace (Z.to_nat (off + Z.of_nat (length a) + Z.of_nat (length b))) with (k + length a + length b)%nat by lia.
  replace (Z.to_nat (off + Z.of_nat (length (a ++ b)))) with (k + length a + length b)%nat by (rewrite length_app; lia).
  rewrite (assoc_L (++) (take k C) a). rewrite take_app_length' by (rewrite length_app; lia).
  rewrite <- !(assoc_L (++)). do 3 f_equal. rewrite (assoc_L (++) (take k C) a), drop_app_ge by (rewrite length_app; lia).
  rewrite drop_drop, length_app, El. f_equal. lia.
Qed.
Lemma patch_nil C off : 0 <= off -> patch C off [] = C.
Proof. intros Ho. unfold patch. cbn. rewrite Z.add_0_r. apply take_drop. Qed.

Section Filewrite.
Context {E : Type} `{PipeEnv E} (me : nat) (mypid : Z) (devsw : Z -> dev_ops) (f i : nat).
Implicit Types x : fstate E.
Definition with_fs (g : guarded fs) x : fstate E := mk_fstate g (x_flk x) (x_ft x) (x_fds x) (x_cwd x) (x_env x).
Lemma FS_run {A} (m : M (guarded fs) A) x a g : m (x_fs x) = Ret a g -> FS m x = Ret a (with_fs g x).
Proof. intros Em. unfold FS, zoom. by rewrite Em. Qed.
Lemma FS_panic {A} (m : M (guarded fs) A) x msg g : m (x_fs x) = Panic msg g -> FS m x = Panic msg (with_fs g x).
Proof. intros Em. unfold FS, zoom. by rewrite Em. Qed.

Definition fsof x : fs := g_val (x_fs x).
(** The file is written, and all is at rest again. *)
Record wrote x (fl : file) (src : list Z) x' : Prop := mk_wrote {
  wr_quiet : g_quiet (x_fs x');
  wr_rest : at_rest (fsof x') i;
  wr_file : x_ft x' = <[f := set_off (fl_off fl + Z.of_nat (length src)) fl]> (x_ft x);
  wr_fds : x_fds x' = x_fds x;
  wr_size : i_size (ino (fsof x') i) = Z.max (i_size (ino (fsof x) i)) (fl_off fl + Z.of_nat (length src));
  wr_data : contents (fsof x') i = patch (contents (fsof x) i) (fl_off fl) src }.
Definition no_blocks : string := "balloc: out of blocks".

(** The inode after [ilock] and [writei], unlocked again. *)
Lemma at_rest_after s s3 : at_rest s i -> fs_ok s3 -> inode_ok s3 i -> f_sb s3 = f_sb s -> f_outstanding s3 = 1 ->
  set_size 0 (set_addrs [] (ino s3 i)) = set_size 0 (set_addrs [] (set_ilock (mine mypid) (ino s i))) ->
  at_rest (ended (with_ilock i Sleeplock.initsleeplock (with_ilock i (mine mypid) s3))) i.
Proof.
  intros R O I Esb Eo Ei. pose proof (io_idx _ _ I) as Hi. set (s4 := with_ilock i _ (with_ilock i _ s3)).
  assert (S : same_file s3 i s4) by (eapply same_file_trans; apply same_ilock; [done|cbn; by rewrite length_alter]).
  assert (E4 : ino s4 i = set_ilock Sleeplock.initsleeplock (ino s3 i)).
  { unfold s4. rewrite ino_ilock by (cbn; by rewrite length_alter). rewrite ino_ilock by done. done. }
  assert (Eo4 : f_outstanding s4 = 1) by exact Eo.
  assert (Hfield : forall (A : Type) (h : inode -> A), (forall p, h (set_size 0 (set_addrs [] p)) = h p) -> h (ino s3 i) = h (set_ilock (mine mypid) (ino s i))).
  { intros A h Hh. rewrite <- (Hh (ino s3 i)), Ei. apply Hh. }
  constructor; cbn [ended f_outstanding f_logged].
  - apply (same_fs_ok s3 i); [|done|cbn; lia]. eapply same_file_trans; [exact S|]. by constructor.
  - apply (same_inode_ok s3 i); [|done]. eapply same_file_trans; [exact S|apply same_ended].
  - change (ino (ended s4) i) with (ino s4 i). rewrite E4. cbn. rewrite (Hfield Z i_ref) by done. apply R.
  - change (ino (ended s4) i) with (ino s4 i). rewrite E4. cbn. rewrite (Hfield bool i_valid) by done. apply R.
  - change (ino (ended s4) i) with (ino s4 i). by rewrite E4.
  - change (ino (ended s4) i) with (ino s4 i). rewrite E4. cbn. rewrite (Hfield Z i_type) by done. apply R.
  - rewrite Eo4. lia.
  - by rewrite Eo4.
  - pose proof (ar_room _ _ R) as Hr. unfold room in *. change (f_sb (ended s4)) with (f_sb s3). by rewrite Esb.
  - change (f_sb (ended s4)) with (f_sb s3). rewrite Esb. apply R.
Qed.
(** [writei] in its transaction: enough room in the log is no longer a condition. *)
Lemma writei_in_tx src off g :
  g_quiet g -> fs_ok (g_val g) -> inode_ok (g_val g) i -> i_type (ino (g_val g) i) <> T_DEV -> sb_size (f_sb (g_val g)) <= BPB ->
  f_logged (g_val g) = [] -> 25 <= room (g_val g) -> 0 <= off <= i_size (ino (g_val g) i) ->
  Z.of_nat (length src) <= max_write -> off + Z.of_nat (length src) <= MAXFILE * BSIZE -> Forall byte_ok src ->
  (exists g', writei devsw i src off g = Panic no_blocks g') \/
  exists g', writei devsw i src off g = Ret (Z.of_nat (length src)) g' /\ g_quiet g' /\ fs_ok (g_val g') /\ inode_ok (g_val g') i /\
    f_sb (g_val g') = f_sb (g_val g) /\ f_outstanding (g_val g') = f_outstanding (g_val g) /\
    set_size 0 (set_addrs [] (ino (g_val g') i)) = set_size 0 (set_addrs [] (ino (g_val g) i)) /\
    i_size (ino (g_val g') i) = Z.max (i_size (ino (g_val g) i)) (off + Z.of_nat (length src)) /\
    contents (g_val g') i = patch (contents (g_val g) i) off src.
Proof.
  intros Hq O I Ht Hsz Hl Hr Ho Hm Hmax Hby. assert (HM : MAXFILE * BSIZE = 71680) by reflexivity.
  pose proof (writei_tries devsw (g_val g) i src off O I Ht ltac:(lia) ltac:(lia) Hby g Hq eq_refl) as W.
  pose proof (writei_within devsw i src off g (proj1 Ho) Hm Ht) as B.
  pose proof (writei_touches i devsw src off g Hsz (proj1 Ho) (conj (io_idx _ _ I) (io_len _ _ I)) Ht) as T.
  destruct W as [(r & g' & Ew & Hq' & W)|(msg & g' & Ew & W)].
  - right. destruct (wlp_elim _ _ _ _ _ T Ew) as (T0 & _ & T1).
    replace ((off >? _) || _) with false in W by lia. destruct W as (-> & O' & I' & _ & Es & Ez & Ec).
    exists g'. split_and!; try done; apply T1.
  - left. exists g'. rewrite Ew in B. destruct W as [->|Hb]; [done|]. specialize (B Hb). unfold nlogged in B. rewrite Hl in B. cbn in B. lia.
Qed.

Lemma get_file_run x fl : x_ft x !! f = Some fl -> get_file f x = Ret fl x.
Proof. intros Ef. unfold get_file. munfold. by rewrite Ef. Qed.
Lemma write_some_run fl fl0 src x :
  x_ft x !! f = Some fl -> fl_ip fl = i -> fl_ip fl0 = i -> g_quiet (x_fs x) -> at_rest (fsof x) i ->
  0 <= fl_off fl <= i_size (ino (fsof x) i) -> 0 < Z.of_nat (length src) <= max_write ->
  fl_off fl + Z.of_nat (length src) <= MAXFILE * BSIZE -> Forall byte_ok src ->
  (exists x', write_some me mypid devsw f fl0 src x = Panic no_blocks x') \/
  exists x', write_some me mypid devsw f fl0 src x = Ret (Z.of_nat (length src)) x' /\ wrote x fl src x'.
Proof.
  intros Hf Hip Hip0 Hq R Ho Hn Hmax Hby. pose proof (io_idx _ _ (ar_ino _ _ R)) as Hi. unfold write_some. rewrite Hip0.
  erewrite bind_eq by (apply FS_run, begin_tx_run; [apply (ar_out _ _ R)|apply (ar_log _ _ R)]). set (g1 := mk_g _ _ _ _).
  destruct (ilock_run me mypid i g1 Hq (ar_lock _ _ R) (ar_ref _ _ R) (ar_valid _ _ R) Hi) as (g2 & E2 & Hq2 & V2).
  erewrite bind_eq by (by apply FS_run). set (x2 := with_fs g2 _).
  rewrite (bind_eq (get_file f) _ x2 fl x2) by (by apply get_file_run). rewrite Hip.
  assert (S2 : same_file (fsof x) i (g_val g2)) by (rewrite V2; eapply same_file_trans; [apply same_begun|by apply same_ilock]).
  assert (Ei2 : ino (g_val g2) i = set_ilock (mine mypid) (ino (fsof x) i)) by (rewrite V2; by rewrite (ino_ilock i (mine mypid) (g_val g1) Hi)).
  assert (Eo2 : f_outstanding (g_val g2) = 1) by (rewrite V2; pose proof (ar_out _ _ R) as E0; unfold fsof in E0; cbn; lia).
  destruct (writei_in_tx src (fl_off fl) g2) as [[g' Ew]|(g3 & Ew & Hq3 & O3 & I3 & Esb & Eo & Es & Ez & Ec)].
  1-11: try done.
  - apply (same_fs_ok (begun (fsof x)) i); [|apply R|by rewrite Eo2]. rewrite V2. by apply same_ilock.
  - apply (same_inode_ok _ _ _ S2), R.
  - rewrite Ei2. apply R.
  - rewrite (sf_sb _ _ _ S2). apply R.
  - rewrite V2. apply (ar_log _ _ R).
  - unfold room. rewrite (sf_sb _ _ _ S2). apply R.
  - by rewrite (sf_size _ _ _ S2).
  - lia.
  - left. eexists. apply bind_panic, FS_panic, Ew.
  - right. erewrite bind_eq by (apply FS_run, Ew). rewrite (proj2 (Z.gtb_lt _ _)) by lia. cbn [when].
    erewrite bind_eq by reflexivity.
    assert (Ei3 : i_lock (ino (g_val g3) i) = mine mypid) by (change (i_lock (set_size 0 (set_addrs [] (ino (g_val g3) i))) = mine mypid); by rewrite Es, Ei2).
    assert (Er3 : 1 <= i_ref (ino (g_val g3) i)) by (change (1 <= i_ref (set_size 0 (set_addrs [] (ino (g_val g3) i)))); rewrite Es, Ei2; apply R).
    destruct (iunlock_run me mypid i g3 Hq3 Ei3 Er3 (io_idx _ _ I3)) as (g4 & E4 & Hq4 & V4).
    erewrite bind_eq by (apply FS_run, E4). erewrite bind_eq by (apply FS_run; reflexivity). eexists. split; [reflexivity|].
    assert (S4 : same_file (g_val g3) i (ended (g_val g4))).
    { rewrite V4. eapply same_file_trans; [|apply same_ended]. eapply same_file_trans; apply same_ilock; [apply I3|cbn; rewrite length_alter; apply I3]. }
    assert (HM : MAXFILE * BSIZE = 71680) by reflexivity.
    constructor; unfold fsof; try done; cbn [x_fs x_ft with_fs g_val]; fold (ended (g_val g4)).
    + rewrite V4. eapply at_rest_after; [exact R|done|done|by rewrite Esb, (sf_sb _ _ _ S2)|by rewrite Eo|by rewrite Es, Ei2].
    + rewrite u32_small by lia. apply list_alter_insert. by rewrite Hf.
    + by rewrite (sf_size _ _ _ S4), Ez, (sf_size _ _ _ S2).
    + by rewrite (same_contents _ _ _ S4), Ec, (same_contents _ _ _ S2).
Qed.

Lemma wrote_nil fl x : x_ft x !! f = Some fl -> g_quiet (x_fs x) -> at_rest (fsof x) i -> 0 <= fl_off fl <= i_size (ino (fsof x) i) -> wrote x fl [] x.
Proof.
  intros Hf Hq R Ho. constructor; try done; cbn [length]; rewrite ?Z.add_0_r; [|lia|].
  - symmetry. apply list_insert_id. rewrite Hf. by destruct fl.
  - symmetry. apply patch_nil. lia.
Qed.
Lemma wrote_app fl a b x x1 x2 : 0 <= fl_off fl <= i_size (ino (fsof x) i) ->
  wrote x fl a x1 -> wrote x1 (set_off (fl_off fl + Z.of_nat (length a)) fl) b x2 -> wrote x fl (a ++ b) x2.
Proof.
  intros Ho [A1 A2 A3 A4 A5 A6] [B1 B2 B3 B4 B5 B6]. cbn [fl_off set_off] in *.
  constructor; try done; rewrite ?length_app, ?Nat2Z.inj_add, ?Z.add_assoc; try congruence.
  - rewrite B3, A3. by rewrite list_insert_insert_eq.
  - rewrite B5, A5. lia.
  - rewrite B6, A6. apply patch_app. unfold contents. rewrite slice_length. lia.
Qed.

Lemma filewrite_loop_run fuel : forall fl fl0 k src x,
  x_ft x !! f = Some fl -> fl_ip fl = i -> fl_ip fl0 = i -> g_quiet (x_fs x) -> at_rest (fsof x) i ->
  0 <= fl_off fl <= i_size (ino (fsof x) i) -> fl_off fl + Z.of_nat (length src) <= MAXFILE * BSIZE -> Forall byte_ok src -> (length src < fuel)%nat ->
  (exists x', filewrite_loop me mypid devsw fuel f fl0 k src x = Panic no_blocks x') \/
  exists x', filewrite_loop me mypid devsw fuel f fl0 k src x = Ret (k + Z.of_nat (length src)) x' /\ wrote x fl src x'.
Proof.
  induction fuel as [|fuel IH]; intros fl fl0 k src x Hf Hip Hip0 Hq R Ho Hmax Hby Hfu; [lia|]. cbn [filewrite_loop].
  destruct src as [|c src]; [right; exists x; split; [cbn; by rewrite Z.add_0_r|by apply wrote_nil]|]. set (l := c :: src) in *.
  set (n1 := if _ >? max_write then _ else _). assert (HM : max_write = 1536) by reflexivity. assert (Hl : (0 < length l)%nat) by (cbn; lia).
  assert (Hn1 : 0 < n1 <= max_write /\ n1 <= Z.of_nat (length l)) by (unfold n1; destruct (Z.gtb_spec (Z.of_nat (length l)) max_write); lia).
  clearbody n1. assert (Ea : Z.of_nat (length (take (Z.to_nat n1) l)) = n1) by (rewrite length_take; lia).
  destruct (write_some_run fl fl0 (take (Z.to_nat n1) l) x) as [[x' Ew]|(x1 & Ew & W)]; [done..|lia|lia|by apply Forall_take|left; eexists; by apply bind_panic|].
  rewrite (bind_eq _ _ _ _ _ Ew), Ea. rewrite (proj2 (Z.ltb_ge _ _)) by lia. rewrite Z.eqb_refl. cbn [negb].
  assert (Ed : Z.of_nat (length (drop (Z.to_nat n1) l)) = Z.of_nat (length l) - n1) by (rewrite length_drop; lia).
  pose proof W as [W1 W2 W3 W4 W5 W6]. rewrite Ea in W3, W5.
  destruct (IH (set_off (fl_off fl + n1) fl) fl0 (k + n1) (drop (Z.to_nat n1) l) x1) as [Hp|(x2 & E2 & W')]; try done; cbn [fl_off set_off]; try lia.
  - rewrite W3. apply list_lookup_insert_eq. by eapply lookup_lt_Some.
  - by apply Forall_drop.
  - by left.
  - right. exists x2. rewrite E2, Ed. split; [f_equal; lia|]. rewrite <- (take_drop (Z.to_nat n1) l). apply (wrote_app fl _ _ x x1 x2 Ho W). by rewrite Ea.
Qed.

(** C17: [write] to an open file that is at rest - no transaction is open and nobody has
    the inode locked - writes all of the bytes, if they end within the largest size a file
    can have ([MAXFILE * BSIZE]), at the file's offset, in as many transactions as it takes, none of them too big for the log: the file
    then holds them there and is otherwise as it was, its size and the offset are what they
    should be, the inode is unlocked again and no transaction is open.  The one way for
    such a write to fail is a disk without a free block, at which [balloc] panics. *)
Theorem filewrite_writes fl src x :
  x_ft x !! f = Some fl -> fl_type fl = FD_INODE -> fl_writable fl = true -> fl_ip fl = i -> g_quiet (x_fs x) -> at_rest (fsof x) i ->
  0 <= fl_off fl <= i_size (ino (fsof x) i) -> fl_off fl + Z.of_nat (length src) <= MAXFILE * BSIZE -> Forall byte_ok src ->
  (exists x', filewrite me mypid devsw f src x = Panic no_blocks x') \/
  exists x', filewrite me mypid devsw f src x = Ret (Z.of_nat (length src)) x' /\ wrote x fl src x'.
Proof.
  intros Hf Ht Hw Hip Hq R Ho Hmax Hby. unfold filewrite. rewrite (bind_eq _ _ _ _ _ (get_file_run x fl Hf)), Hw, Ht. cbn [negb].
  destruct (filewrite_loop_run (S (length src)) fl fl 0 src x) as [[x' Ew]|(x' & Ew & W)]; [done..|lia|left; eexists; by apply bind_panic|].
  right. exists x'. rewrite (bind_eq _ _ _ _ _ Ew), Z.add_0_l, Z.eqb_refl. done.
Qed.
End Filewrite.

(** [demo_fs] between transactions, with its first file open. *)
Definition rest_fs : fs := mk_fs demo_sb 20 (f_view demo_fs) [] 0 (f_icache demo_fs).
Lemma demo_at_rest : at_rest rest_fs 0.
Proof.
  constructor; try done; [exact demo_fs_ok|]. apply (same_inode_ok demo_fs 0); [by constructor|]. apply demo_inode. lia.
Qed.
#[local] Instance no_pipes : PipeEnv unit := {|
  env_newpipe := mret None;
  env_pipeclose := fun _ _ => mret tt;
  env_piperead := fun _ _ => mret (-1, []);
  env_pipewrite := fun _ _ => mret (-1) |}.
Definition demo_open : file := mk_file FD_INODE 1 false true 0 0 0.
Definition demo_io : fstate unit :=
  mk_fstate (mk_g (mk_cpu 0 false true) Spinlock.initlock rest_fs []) Spinlock.initlock [demo_open] [[Some 0%nat]] [0%nat] tt.

(** Sixteen hundred bytes: two transactions. *)
Lemma filewrite_writes_witness :
  exists x', filewrite 0 7 no_dev 0 (replicate 1600 65) demo_io = Ret 1600 x' /\ wrote 0 0 demo_io demo_open (replicate 1600 65) x'.
Proof.
  destruct (filewrite_writes 0 7 no_dev 0 0 demo_open (replicate 1600 65) demo_io) as [[x' Ew]|H];
    [done|done|done|done|done|exact demo_at_rest|cbn; lia|vm_compute; discriminate|apply Forall_replicate; unfold byte_ok; lia| |exact H].
  exfalso. assert (P : panic_of (filewrite 0 7 no_dev 0 (replicate 1600 65) demo_io) = None) by (vm_compute; reflexivity). by rewrite Ew in P.
Defined.
Lemma ret_of {S A} (r : res S A) v : value_of r = Some v -> r = Ret v (result_state r).
Proof. destruct r; cbn; congruence. Qed.
Lemma writei_log_bound_witness : nlogged (result_state (writei no_dev 0 (replicate 1500 65) 0 demo_g)) <= nlogged demo_g + MAXOPBLOCKS /\
  nlogged (result_state (writei no_dev 0 (replicate 1500 65) 0 demo_g)) = 5.
Proof.
  split; [|by vm_compute]. apply (writei_log_bound no_dev 0 (replicate 1500 65) 0 demo_g 1500);
    [done|apply demo_inode; lia|done|constructor|lia|vm_compute; discriminate|].
  apply ret_of. vm_compute. reflexivity.
Defined.
