(* ===== verification/Exec.v ===== *)
(** Running a program: [exec] ([exec.c], with the formats of [elf.h]), [loaduvm] and
    the switches of address space ([vm.c]), and [sys_exec] ([sysfile.c]).

    The state joins those of the file system, of the page allocator and of the process
    table; the CPU and the wake-ups are those of the file system's part.  A string is its
    bytes before the NUL.  [exec]'s message is left out. *)

From S2P Require Import Prelude CString Locks Guarded Bytes ProcDefs Kalloc Vm Fs File.

Definition MAXARG : Z := 32.
Definition KSTACKSIZE : Z := 4096.
Definition ELF_MAGIC : Z := 1179403647. (* 0x464C457F *)
Definition ELF_PROG_LOAD : Z := 1.

(** The fields of the headers that the kernel reads. *)
Record elfhdr := mk_elfhdr { eh_magic : Z; eh_entry : Z; eh_phoff : Z; eh_phnum : Z }.
Record proghdr := mk_proghdr { ph_type : Z; ph_off : Z; ph_vaddr : Z; ph_filesz : Z; ph_memsz : Z }.
Definition sizeof_elfhdr : Z := 52.
Definition sizeof_proghdr : Z := 32.
Definition get_elfhdr (b : block) : elfhdr := mk_elfhdr (get32 b 0) (get32 b 24) (get32 b 28) (get16 b 44).
Definition get_proghdr (b : block) : proghdr := mk_proghdr (get32 b 0) (get32 b 4) (get32 b 8) (get32 b 16) (get32 b 20).

(** [e_cr3] is the page-directory register, and [e_esp0] the kernel stack in the task
    state segment. *)
Record xstate := mk_xstate {
  e_fs : guarded fs;
  e_klk : spinlock;
  e_km : kmem;
  e_pt : list proc;
  e_cr3 : Z;
  e_esp0 : Z }.

Definition set_exec_tf (eip esp : Z) (t : trapframe) : trapframe :=
  mk_trapframe (tf_edi t) (tf_esi t) (tf_ebp t) (tf_oesp t) (tf_ebx t) (tf_edx t) (tf_ecx t) (tf_eax t)
    (tf_gs t) (tf_fs t) (tf_es t) (tf_ds t) (tf_trapno t) (tf_err t) eip (tf_cs t)
    (tf_eflags t) esp (tf_ss t).

(** What follows the last slash. *)
Fixpoint last_elem (last s : list Z) : list Z :=
  match s with
  | [] => last
  | c :: s' => last_elem (if c =? 47 then s' else last) s'
  end.

(** A word as it lies in memory. *)
Definition le_bytes (w : Z) : list Z := [w mod 256; w / 256 mod 256; w / 65536 mod 256; w / 16777216 mod 256].

Section Exec.
(** As in [Vm]; [cur] is the process. *)
Context (kend data : Z) (me : nat) (devsw : Z -> dev_ops) (cur : nat).
Notation X := (M xstate).

Definition km_view (x : xstate) : guarded kmem := mk_g (g_cpu (e_fs x)) (e_klk x) (e_km x) (g_wakes (e_fs x)).
Definition with_km (g : guarded kmem) (x : xstate) : xstate :=
  mk_xstate (mk_g (g_cpu g) (g_lk (e_fs x)) (g_val (e_fs x)) (g_wakes g)) (g_lk g) (g_val g) (e_pt x) (e_cr3 x) (e_esp0 x).
Definition with_efs (g : guarded fs) (x : xstate) : xstate := mk_xstate g (e_klk x) (e_km x) (e_pt x) (e_cr3 x) (e_esp0 x).
Definition EF {A} (m : M (guarded fs) A) : X A := zoom e_fs with_efs m.
Definition KM {A} (m : M (guarded kmem) A) : X A := zoom km_view with_km m.
Definition CPU {A} (m : M cpu A) : X A :=
  zoom (fun x => g_cpu (e_fs x)) (fun c x => with_efs (mk_g c (g_lk (e_fs x)) (g_val (e_fs x)) (g_wakes (e_fs x))) x) m.
Definition xgetp (i : nat) : X proc := x ← get; of_option OutOfBounds (e_pt x !! i).
Definition xupdp (i : nat) (f : proc -> proc) : X unit :=
  modify (fun x => mk_xstate (e_fs x) (e_klk x) (e_km x) (alter f i (e_pt x)) (e_cr3 x) (e_esp0 x)).

(** [readi] to the kernel address [dst]: the result, the bytes in place. *)
Definition readi_to (ip : nat) (dst off n : Z) : X Z :=
  r ← EF (readi devsw ip off n);
  KM (g_mod (put_cells dst (snd r))) ;;
  mret (fst r).

Fixpoint loaduvm_loop (fuel : nat) (pgdir addr : Z) (ip : nat) (offset sz i : Z) : X Z :=
  match fuel with
  | O => faults OutOfFuel
  | S f =>
      if negb (i <? sz) then mret 0
      else
        pte ← KM (walkpgdir me pgdir (u32 (addr + i)) false);
        if pte =? 0 then panic "loaduvm: address should exist"
        else
          e ← KM (rd pte);
          let n := if sz - i <? PGSIZE then sz - i else PGSIZE in
          r ← readi_to ip (P2V (PTE_ADDR e)) (u32 (offset + i)) n;
          if negb (r =? n) then mret (-1)
          else loaduvm_loop f pgdir addr ip offset sz (u32 (i + PGSIZE))
  end.
Definition loaduvm (pgdir addr : Z) (ip : nat) (offset sz : Z) : X Z :=
  if ctrue (addr mod PGSIZE) then panic "loaduvm: addr must be page aligned"
  else loaduvm_loop (Z.to_nat (sz / PGSIZE + 2)) pgdir addr ip offset sz 0.

Definition switchuvm (p : proc) : X unit :=
  if p_kstack p =? 0 then panic "switchuvm: no kstack"
  else if p_pgdir p =? 0 then panic "switchuvm: no pgdir"
  else
    CPU Spinlock.pushcli ;;
    modify (fun x => mk_xstate (e_fs x) (e_klk x) (e_km x) (e_pt x) (V2P (p_pgdir p)) (u32 (p_kstack p + KSTACKSIZE))) ;;
    CPU Spinlock.popcli.

Definition switchkvm (kpgdir : Z) : X unit :=
  modify (fun x => mk_xstate (e_fs x) (e_klk x) (e_km x) (e_pt x) (V2P kpgdir) (e_esp0 x)).
(** [kpgdir]. *)
Definition kvmalloc : X Z :=
  kpgdir ← KM (setupkvm kend data me);
  switchkvm kpgdir ;;
  mret kpgdir.

(** The label [bad]; 0 and [None] are the null pointers. *)
Definition exec_bad (mypid pgdir : Z) (ip : option nat) : X Z :=
  when (ctrue pgdir) (KM (freevm kend me pgdir)) ;;
  match ip with
  | None => mret tt
  | Some i => EF (iunlockput me mypid i) ;; EF end_op
  end ;;
  mret (-1).

(** The loop over [n] program headers, the next one at [off]: the size of the image, or
    [None] to go to [bad]. *)
Fixpoint load_segments (n : nat) (ip : nat) (pgdir off sz : Z) : X (option Z) :=
  match n with
  | O => mret (Some sz)
  | S n' =>
      r ← EF (readi devsw ip off sizeof_proghdr);
      if negb (fst r =? sizeof_proghdr) then mret None
      else
        let ph := get_proghdr (snd r) in
        if negb (ph_type ph =? ELF_PROG_LOAD) then load_segments n' ip pgdir (u32 (off + sizeof_proghdr)) sz
        else if ph_memsz ph <? ph_filesz ph then mret None
        else if u32 (ph_vaddr ph + ph_memsz ph) <? ph_vaddr ph then mret None
        else
          sz ← KM (allocuvm kend me pgdir sz (u32 (ph_vaddr ph + ph_memsz ph)));
          if sz =? 0 then mret None
          else if ctrue (ph_vaddr ph mod PGSIZE) then mret None
          else
            r ← loaduvm pgdir (ph_vaddr ph) ip (ph_off ph) (ph_filesz ph);
            if r <? 0 then mret None
            else load_segments n' ip pgdir (u32 (off + sizeof_proghdr)) sz
  end.

(** The argument strings, the last one pushed at [sp]; [ustack] has the addresses of
    [argc] of them. *)
Fixpoint push_args (pgdir : Z) (argv : list (list Z)) (argc sp : Z) (ustack : list Z) : X (option (Z * Z * list Z)) :=
  match argv with
  | [] => mret (Some (argc, sp, ustack))
  | s :: argv' =>
      if argc >=? MAXARG then mret None
      else
        let sp := Z.land (u32 (sp - (Z.of_nat (length s) + 1))) 4294967292 in (* ~3 *)
        r ← KM (copyout me pgdir sp (s ++ [0]));
        if r <? 0 then mret None else push_args pgdir argv' (argc + 1) sp (ustack ++ [sp])
  end.

(** [curproc] becomes the program. *)
Definition exec_commit (path : list Z) (pgdir sz entry sp : Z) : X Z :=
  xupdp cur (set_name (take 15 (last_elem path path))) ;;
  p ← xgetp cur;
  let oldpgdir := p_pgdir p in
  xupdp cur (fun p => set_tf (set_exec_tf entry sp (p_tf p)) (set_sz sz (set_pgdir pgdir p))) ;;
  p ← xgetp cur;
  switchuvm p ;;
  KM (freevm kend me oldpgdir) ;;
  mret 0.

(** From the allocation of the stack on; the inode has been put. *)
Definition exec_stack (mypid : Z) (path : list Z) (argv : list (list Z)) (pgdir sz entry : Z) : X Z :=
  let sz := PGROUNDUP sz in
  sz ← KM (allocuvm kend me pgdir sz (u32 (sz + 2 * PGSIZE)));
  if sz =? 0 then exec_bad mypid pgdir None
  else
    KM (clearpteu me pgdir (u32 (sz - 2 * PGSIZE))) ;;
    o ← push_args pgdir argv 0 sz [];
    match o with
    | None => exec_bad mypid pgdir None
    | Some (argc, sp, ustack) =>
        let ustack := [4294967295; argc; u32 (sp - (argc + 1) * 4)] ++ ustack ++ [0] in
        let sp := u32 (sp - (3 + argc + 1) * 4) in
        r ← KM (copyout me pgdir sp (ustack ≫= le_bytes));
        if r <? 0 then exec_bad mypid pgdir None
        else exec_commit path pgdir sz entry sp
    end.

(** From [ilock] on. *)
Definition exec_inode (mypid : Z) (path : list Z) (argv : list (list Z)) (ip : nat) : X Z :=
  EF (ilock me mypid (Some ip)) ;;
  r ← EF (readi devsw ip 0 sizeof_elfhdr);
  if negb (fst r =? sizeof_elfhdr) then exec_bad mypid 0 (Some ip)
  else
    let elf := get_elfhdr (snd r) in
    if negb (eh_magic elf =? ELF_MAGIC) then exec_bad mypid 0 (Some ip)
    else
      pgdir ← KM (setupkvm kend data me);
      if pgdir =? 0 then exec_bad mypid 0 (Some ip)
      else
        o ← load_segments (Z.to_nat (eh_phnum elf)) ip pgdir (eh_phoff elf) 0;
        match o with
        | None => exec_bad mypid pgdir (Some ip)
        | Some sz =>
            EF (iunlockput me mypid ip) ;;
            EF end_op ;;
            exec_stack mypid path argv pgdir sz (eh_entry elf)
        end.

(** [namei] looks at the current directory only for a path that does not start with a
    slash. *)
Definition exec (path : list Z) (argv : list (list Z)) : X Z :=
  p ← xgetp cur;
  j ← of_option NullDeref (p_parent p);
  pp ← xgetp j;
  when (p_pid pp =? 2) (xupdp cur (set_queue 2)) ;;
  EF begin_op ;;
  cwd ← (if bool_decide (head path = Some 47) then mret (default 0%nat (p_cwd p)) else of_option NullDeref (p_cwd p));
  o ← EF (namei me (p_pid p) devsw cwd path);
  match o with
  | None => EF end_op ;; mret (-1)
  | Some ip => exec_inode (p_pid p) path argv ip
  end.

(** [fetchint] and [fetchstr] of the caller's memory, [None] being a failure. *)
Context (fetchint : Z -> option Z) (fetchstr : Z -> option (list Z)).
(** The loop, with [n] entries of [argv] left. *)
Fixpoint exec_args (n : nat) (uargv i : Z) : option (list (list Z)) :=
  match n with
  | O => None
  | S n' =>
      match fetchint (u32 (uargv + 4 * i)) with
      | None => None
      | Some uarg =>
          if uarg =? 0 then Some []
          else match fetchstr (u32 uarg) with
               | None => None
               | Some s => (fun l => s :: l) <$> exec_args n' uargv (i + 1)
               end
      end
  end.
Definition sys_exec (path : option (list Z)) (uargv : option Z) : X Z :=
  match path, uargv with
  | Some path, Some uargv =>
      match exec_args (Z.to_nat MAXARG) uargv 0 with None => mret (-1) | Some argv => exec path argv end
  | _, _ => mret (-1)
  end.
End Exec.
