(* ===== verification/ExecMem.v ===== *)
(** The memory of a program under construction: what [exec] does to the page directory it
    has made, as a picture of the bytes the program will see.  On top of [VmSpace]. *)

From S2P Require Import Prelude Locks Guarded Kalloc Vm VmSpace.

(** The byte at user address [va]. *)
Definition ucell (k : kmem) (pgdir va : Z) : Z := k_mem k (upage k pgdir (va / 4096) + va mod 4096).

(** [bs] laid over a picture at [va]. *)
Definition overlay (img : Z -> Z) (va : Z) (bs : list Z) : Z -> Z :=
  fun a => if (va <=? a) && (a <? va + Z.of_nat (length bs)) then nth (Z.to_nat (a - va)) bs 0 else img a.
Lemma overlay_nil img va a : overlay img va [] a = img a.
Proof. unfold overlay. cbn. by replace (_ && _) with false by lia. Qed.
Lemma overlay_out img va bs a : a < va \/ va + Z.of_nat (length bs) <= a -> overlay img va bs a = img a.
Proof. intros H. unfold overlay. by replace (_ && _) with false by lia. Qed.
Lemma overlay_in img va bs j c : bs !! j = Some c -> overlay img va bs (va + Z.of_nat j) = c.
Proof.
  intros H. pose proof (lookup_lt_Some _ _ _ H). unfold overlay. replace (_ && _) with true by lia.
  replace (Z.to_nat (va + Z.of_nat j - va)) with j by lia. rewrite nth_lookup, H. done.
Qed.
Lemma overlay_app img va bs cs a : overlay (overlay img va bs) (va + Z.of_nat (length bs)) cs a = overlay img va (bs ++ cs) a.
Proof.
  unfold overlay. rewrite length_app. destruct (Z.lt_ge_cases a (va + Z.of_nat (length bs))).
  - replace ((va + Z.of_nat (length bs) <=? a) && _) with false by lia. destruct (Z.le_gt_cases va a).
    + replace ((va <=? a) && _) with true by lia. replace ((va <=? a) && _) with true by lia. rewrite app_nth1 by lia. done.
    + replace ((va <=? a) && _) with false by lia. by replace ((va <=? a) && _) with false by lia.
  - replace ((va <=? a) && (a <? va + Z.of_nat (length bs))) with false by lia.
    destruct (Z.lt_ge_cases a (va + Z.of_nat (length bs + length cs))).
    + replace ((va + Z.of_nat (length bs) <=? a) && _) with true by lia. replace ((va <=? a) && _) with true by lia.
      rewrite app_nth2 by lia. f_equal. lia.
    + replace ((va + Z.of_nat (length bs) <=? a) && _) with false by lia. by replace ((va <=? a) && _) with false by lia.
Qed.

Section Image.
Context (kend : Z) (me : nat).
Hypothesis Hkend : KERNBASE < kend.
Context (data : Z).
Hypothesis Hdata : KERNLINK < data < KERNBASE + PHYSTOP.
Hypothesis Hdata_page : data mod 4096 = 0.

(** The address space [d] has user pages 0 to [b]; they, its tables and [l] are the pages
    that were free, [l0], and no other page has been written. *)
Record owned (l0 : list Z) (k0 : kmem) (b : Z) (l : list Z) (d : Z) (k : kmem) : Prop := mk_owned {
  ow_space : space kend (fun m => m < b) l d k;
  ow_parts : forall v, v ∈ l0 <-> v ∈ l \/ table_page k d v \/ exists m, 0 <= m < b /\ v = upage k d m;
  ow_frame : frame kend l0 k0 k }.

(** The user pages show the picture [img]; they are the user's but for page [g], and the
    kernel's half is as in every address space. *)
Record building (l0 : list Z) (k0 : kmem) (b g : Z) (img : Z -> Z) (l : list Z) (d : Z) (k : kmem) : Prop := mk_building {
  bd_owned : owned l0 k0 b l d k;
  bd_flags : forall m, 0 <= m < b -> entry k d m = V2P (upage k d m) + (if m =? g then 3 else 7);
  bd_cells : forall va, 0 <= va < b * 4096 -> ucell k d va = img va;
  bd_zero : forall va, b * 4096 <= va -> img va = 0;
  bd_kernel : forall m, 2 ^ 19 <= m < 2 ^ 20 -> entry k d m = kernel_entry data m }.

Lemma building_ext l0 k0 b g img img' l d k : (forall a, img a = img' a) -> building l0 k0 b g img l d k -> building l0 k0 b g img' l d k.
Proof. intros H [O F C Z0 K]. constructor; try done; intros va Hva; rewrite <- H; auto. Qed.

Lemma page_of va b : 0 <= va < b * 4096 -> 0 <= va / 4096 < b /\ 0 <= va mod 4096 < 4096 /\ va = va / 4096 * 4096 + va mod 4096.
Proof. intros H. pose proof (Z.div_mod va 4096 ltac:(lia)). pose proof (Z.mod_pos_bound va 4096 ltac:(lia)). lia. Qed.

Lemma building_start l k d k' l' :
  umem kend 0 l' d k' -> made_of kend l l' k d k' -> (forall m, 2 ^ 19 <= m < 2 ^ 20 -> entry k' d m = kernel_entry data m) ->
  building l k 0 (-1) (fun _ => 0) l' d k'.
Proof.
  intros S [P F] E. constructor; try done; try lia. constructor; [exact S| |done]. intros v. rewrite P.
  split; [intros [?|?]; [by left|by right; left]|intros [?|[?|(m & ? & _)]]; [by left|by right|lia]].
Qed.

(** *** Growing *)

(** A page is added, or could not be. *)
Lemma owned_step l0 k0 b u l d k l' k' :
  owned l0 k0 b (u :: l) d k -> 0 <= b < 2 ^ 19 -> adding kend u l d k b l' k' -> space kend (fun m => m < b + 1) l' d k' -> upage k' d b = u ->
  owned l0 k0 (b + 1) l' d k'.
Proof.
  intros [S P F] Hb A S' Eu.
  assert (Hup : forall m, 0 <= m < b -> upage k' d m = upage k d m).
  { intros m Hm. unfold upage. by destruct (ad_keeps _ _ _ _ _ _ _ _ A m Hm) as [-> _]. }
  constructor; [done| |].
  - intros v. rewrite P, elem_of_cons. split.
    + intros [[->|Hv]|[Hv|(m & Hm & ->)]].
      * right. right. exists b. split; [lia|done].
      * destruct (ad_used _ _ _ _ _ _ _ _ A v) as [?|?]; [by left|by left|by right; left].
      * destruct (ad_used _ _ _ _ _ _ _ _ A v) as [?|?]; [by right|by left|by right; left].
      * right. right. exists m. split; [lia|]. by rewrite Hup.
    + intros [Hv|[Hv|(m & Hm & ->)]].
      * left. right. by apply (ad_sub _ _ _ _ _ _ _ _ A).
      * destruct (ad_new _ _ _ _ _ _ _ _ A v Hv); [by right; left|by left; right].
      * destruct (Z.eq_dec m b) as [->|]; [rewrite Eu; by left; left|]. right. right. exists m. split; [lia|]. apply Hup. lia.
  - eapply frame_trans; [exact F|]. intros v x Hv Hvl Hx'. apply (ad_frame _ _ _ _ _ _ _ _ A); try done; intros H; apply Hvl; rewrite P; [by left|by right; left].
Qed.
Lemma owned_released l0 k0 b l d k n l' k' :
  owned l0 k0 b l d k -> 0 <= n <= b -> b <= 2 ^ 19 -> space kend (fun m => m < n) l' d k' -> keeps_user n d k k' -> released kend n b d l k l' k' ->
  owned l0 k0 n l' d k'.
Proof.
  intros [S P F] Hn Hb S' K (R1 & R2 & R3).
  assert (Hup : forall m, 0 <= m < n -> upage k' d m = upage k d m) by (intros m Hm; unfold upage; by destruct (K m Hm) as [-> _]).
  constructor; [done| |].
  - intros v. rewrite P, R1, R2. split.
    + intros [?|[?|(m & Hm & ->)]]; [by left; left|by right; left|]. destruct (Z.lt_ge_cases m n).
      * right. right. exists m. split; [lia|]. by rewrite Hup by lia.
      * left. right. exists m. split_and!; (done || lia).
    + intros [[?|(m & ? & ? & ->)]|[?|(m & Hm & ->)]]; [by left| |by right; left|]; right; right; exists m; [split; [lia|done]|]. split; [lia|]. apply Hup. lia.
  - eapply frame_trans; [exact F|]. intros v x Hv Hvl Hx. apply R3; try done; intros H; apply Hvl; rewrite P; [by right; left|].
    apply R1 in H as [?|(m & ? & ? & ->)]; [by left|]. right. right. exists m. split; [lia|done].
Qed.

Lemma building_step l0 k0 b g img u l d k l' k' :
  building l0 k0 b g img (u :: l) d k -> 0 <= b < 2 ^ 19 -> g < b -> adding kend u l d k b l' k' -> space kend (fun m => m < b + 1) l' d k' ->
  entry k' d b = V2P u + 7 -> upage k' d b = u -> (forall x, 0 <= x < 4096 -> k_mem k' (u + x) = 0) ->
  building l0 k0 (b + 1) g img l' d k'.
Proof.
  intros [O F C Z0 K] Hb Hg A S' En Eu Hz.
  assert (Hup : forall m, 0 <= m < b -> entry k' d m = entry k d m /\ upage k' d m = upage k d m).
  { intros m Hm. unfold upage. by destruct (ad_keeps _ _ _ _ _ _ _ _ A m Hm) as [-> _]. }
  constructor; [by eapply owned_step| | |intros va Hva; apply Z0; lia|].
  - intros m Hm. destruct (Z.eq_dec m b) as [->|]; [rewrite Eu, (proj2 (Z.eqb_neq b g)) by lia; done|].
    destruct (Hup m) as [-> ->]; [lia|]. apply F. lia.
  - intros va Hva. destruct (page_of va _ Hva) as (Hm & Hx & Ev). unfold ucell. destruct (Z.eq_dec (va / 4096) b) as [E|].
    + rewrite E, Eu, Hz by done. symmetry. apply Z0. lia.
    + assert (Hm' : 0 <= va / 4096 < b) by lia. destruct (Hup _ Hm') as [_ ->]. destruct (ad_keeps _ _ _ _ _ _ _ _ A _ Hm') as [_ ->]; [|done]. apply C. lia.
  - intros m Hm. rewrite (ad_entry _ _ _ _ _ _ _ _ A) by lia. by apply K.
Qed.
(** The way back when memory runs out. *)
Lemma owned_back l0 k0 b l d k oldsz newsz :
  owned l0 k0 b l d k -> 0 <= oldsz < newsz -> newsz < 2 ^ 31 -> npages oldsz <= b <= npages newsz ->
  runs (deallocuvm kend me d newsz oldsz) k (fun _ k' => exists l', owned l0 k0 (npages oldsz) l' d k' /\
    (forall v, table_page k' d v <-> table_page k d v) /\ (forall m, 0 <= m < npages oldsz -> upage k' d m = upage k d m) /\
    forall v, v ∈ l' <-> v ∈ l \/ exists m, 0 <= m < 2 ^ 19 /\ npages oldsz <= m < b /\ v = upage k d m).
Proof.
  intros O Hsz Hns Hb. pose proof (npages_range oldsz ltac:(lia)). pose proof (npages_range newsz ltac:(lia)).
  eapply runs_mono; [apply (dealloc_runs kend me Hkend l d k newsz oldsz b (ow_space _ _ _ _ _ _ O)); lia|].
  intros _ k' (_ & l' & S' & K' & R'). exists l'. split; [eapply owned_released; try done; lia|].
  split; [apply R'|]. split; [|apply R']. intros m Hm. unfold upage. by destruct (K' m Hm) as [-> _].
Qed.
(** ... and the page just taken goes back too. *)
Lemma owned_back_free l0 k0 b u d k k' oldsz newsz :
  owned l0 k0 b [u] d k -> adding kend u [] d k b [] k' -> space kend (fun m => m < b) [] d k' -> ~ table_page k' d u ->
  (forall m, 0 <= m < 2 ^ 19 -> m < b -> upage k' d m <> u) -> page kend u ->
  0 <= oldsz < newsz -> newsz < 2 ^ 31 -> npages oldsz <= b <= npages newsz -> b < 2 ^ 19 ->
  runs (deallocuvm kend me d newsz oldsz ;; kfree kend me u ;; mret 0) k' (fun r k2 => r = 0 /\ exists l', owned l0 k0 (npages oldsz) l' d k2).
Proof.
  intros [S P F] A S' Hut Hne Hu Hsz Hns Hb Hb19. pose proof (npages_range oldsz ltac:(lia)).
  assert (Hup : forall m, 0 <= m < b -> upage k' d m = upage k d m).
  { intros m Hm. unfold upage. by destruct (ad_keeps _ _ _ _ _ _ _ _ A m Hm) as [-> _]. }
  assert (Ht : forall v, table_page k' d v <-> table_page k d v).
  { intros v. split; intros H'; [by destruct (ad_new _ _ _ _ _ _ _ _ A v H') as [?|?%not_elem_of_nil]|].
    by destruct (ad_used _ _ _ _ _ _ _ _ A v (or_intror H')) as [?%not_elem_of_nil|?]. }
  assert (Hul : u ∈ l0) by (apply P; left; by left).
  (* the pages without [u] *)
  set (l1 := filter (fun v => v <> u) l0).
  assert (Hl1 : forall v, v ∈ l1 <-> v ∈ l0 /\ v <> u) by (intros v; unfold l1; rewrite list_elem_of_filter; tauto).
  assert (O' : forall v, v ∈ l1 <-> v ∈ [] \/ table_page k' d v \/ exists m, 0 <= m < b /\ v = upage k' d m).
  { intros v. rewrite Hl1, P, Ht, list_elem_of_singleton. split.
    - intros [[?|[?|(m & Hm & ->)]] Hvu]; [done|by right; left|]. right. right. exists m. by rewrite Hup.
    - intros [?%not_elem_of_nil|[Hv|(m & Hm & ->)]]; [done| |].
      + split; [by right; left|]. intros ->. by apply Hut, Ht.
      + split; [right; right; exists m; by rewrite Hup|]. apply Hne; lia. }
  apply runs_bind. eapply runs_mono; [apply (owned_back l1 k' b [] d k' oldsz newsz); [by constructor|lia|lia|lia]|].
  intros _ k2 (l2 & O2 & T2 & U2 & L2). apply runs_bind, runs_kfree; [done|]. rsteps. split; [done|]. pose proof O2 as [S2 P2 F2].
  destruct (free_other kend Hkend _ l2 d k2 u S2 Hu) as (S3 & E3 & T3 & C3).
  { intros Hin. assert (u ∈ l1) as [_ ?]%Hl1; [apply P2; by left|done]. }
  { by rewrite T2. }
  { intros m Hm Hmo. rewrite U2 by lia. apply Hne; lia. }
  exists (u :: l2). constructor; [done| |].
  - intros v. rewrite elem_of_cons, T3. destruct (decide (v = u)) as [->|Hvu]; [split; [by left; left|done]|].
    assert (Hv0 : v ∈ l0 <-> v ∈ l1) by (rewrite Hl1; tauto). rewrite Hv0, P2.
    split; (intros [?|[?|(m & Hm & ->)]]; [tauto|tauto|right; right; exists m; split; [done|]]); unfold upage; by rewrite E3 by lia.
  - eapply frame_trans; [exact F|]. apply (frame_trans _ _ _ k'); [|apply (frame_trans _ _ _ k2); [|by apply frame_push]].
    + intros v x Hv Hvl Hx. apply (ad_frame _ _ _ _ _ _ _ _ A); try done; intros H'; apply Hvl; rewrite P; [by left|by right; left].
    + eapply frame_weaken; [|exact F2]. intros v [? _]%Hl1. done.
Qed.
Lemma alloc_loop_builds fuel l0 k0 b g img l d k oldsz newsz :
  building l0 k0 b g img l d k -> g < npages oldsz -> 0 <= oldsz <= newsz -> newsz < 2 ^ 31 -> npages oldsz <= b <= npages newsz ->
  newsz < b * 4096 + (Z.of_nat fuel - 1) * 4096 + 1 ->
  runs (allocuvm_loop kend me fuel d (b * 4096) oldsz newsz) k (fun r k' =>
    (r = newsz /\ exists l', building l0 k0 (npages newsz) g img l' d k') \/
    (r = 0 /\ Z.of_nat (length l) < 2 * (npages newsz - b) /\ exists l', owned l0 k0 (npages oldsz) l' d k')).
Proof.
  intros B Hg Hsz Hns Hb Hf. pose proof (npages_range oldsz ltac:(lia)). pose proof (npages_range newsz ltac:(lia)).
  revert l k b B Hb Hf; induction fuel as [|fuel IH]; intros l k b B Hb Hf.
  { pose proof (npages_spec newsz (npages newsz - 1)). lia. }
  cbn [allocuvm_loop]. destruct (Z.ltb_spec (b * 4096) newsz) as [Hlt|Hge]; cbn [negb].
  2:{ rsteps. left. pose proof (npages_spec newsz b). assert (b = npages newsz) as <- by lia. split; [done|]. by exists l. }
  assert (Hbn : b < npages newsz) by (by apply npages_spec). assert (Hold : oldsz < newsz).
  { pose proof (npages_spec oldsz b). pose proof (npages_spec oldsz (npages oldsz)). lia. }
  pose proof (bd_owned _ _ _ _ _ _ _ _ B) as O. pose proof (ow_space _ _ _ _ _ _ O) as S.
  pose proof (tb_pool _ _ _ _ (sp_tables _ _ _ _ _ S)) as Hp. apply runs_bind. eapply (runs_kalloc kend); [exact Hp|].
  destruct l as [|u l]; cbn [hd].
  { change (0 =? 0) with true. rewrite (pop_nil kend k Hp). apply runs_bind. eapply runs_mono; [apply (owned_back l0 k0 b [] d k oldsz newsz O); lia|].
    intros _ k' (l' & O' & _). rsteps. right. split; [done|]. split; [cbn; lia|]. by exists l'. }
  assert (Hu : page kend u) by (destruct Hp as (_ & _ & Hpf); by apply Forall_cons in Hpf as [? _]).
  replace (u =? 0) with false by (destruct Hu as (_ & _ & _ & ?); lia). rsteps.
  eapply runs_mono; [apply (add_page kend me Hkend u l d k _ b (Z.lor PTE_W PTE_U) S); try done; [|lia]|].
  { intros v x Hv Hvu Hx. by apply (outside_page kend u (fun _ => 0)). }
  intros r k' (l' & A & [(-> & S' & En & Eu & Hz)|(-> & -> & -> & S' & Hut & Hne)]).
  - change (0 <? 0) with false. cbv iota. unfold PGSIZE. rewrite u32_small by lia.
    replace (b * 4096 + 4096) with ((b + 1) * 4096) by lia. eapply runs_mono; [apply (IH l' k' (b + 1)); [|lia|lia]|].
    + eapply building_step; try done; [lia|lia|]. intros x Hx. rewrite Hz by done. cbn. by replace (_ && _) with true by (unfold PGSIZE; lia).
    + pose proof (ad_len _ _ _ _ _ _ _ _ A). cbn [length]. intros r k2 [?|(-> & Hl & H2)]; [by left|right]. split_and!; [done|lia|done].
  - change (-1 <? 0) with true. cbv iota. eapply runs_mono; [apply (owned_back_free l0 k0 b u d k k' oldsz newsz O A S' Hut Hne Hu); lia|].
    intros r k2 (-> & H2). right. split; [done|]. split; [cbn; lia|done].
Qed.
(** Below the kernel's half. *)
Lemma allocuvm_builds l0 k0 sz g img l d k newsz :
  building l0 k0 (npages sz) g img l d k -> g < npages sz -> 0 <= sz <= newsz -> newsz < KERNBASE ->
  runs (allocuvm kend me d sz newsz) k (fun r k' =>
    (r = newsz /\ exists l', building l0 k0 (npages newsz) g img l' d k') \/
    (r = 0 /\ Z.of_nat (length l) < 2 * (npages newsz - npages sz) /\ exists l', owned l0 k0 (npages sz) l' d k')).
Proof.
  intros B Hg Hsz Hns. unfold allocuvm. replace (newsz >=? KERNBASE) with false by lia. replace (newsz <? sz) with false by lia.
  unfold KERNBASE in Hns. rewrite PGROUNDUP_is by lia. fold (npages sz).
  assert (npages sz <= npages newsz) by (apply Z.div_le_mono; lia). apply alloc_loop_builds; try done; try lia.
  unfold PGSIZE. pose proof (npages_spec sz (npages sz - 1)).
  assert (-1 <= (newsz - npages sz * 4096) / 4096) by (apply Z.div_le_lower_bound; lia).
  pose proof (Z.div_mod (newsz - npages sz * 4096) 4096 ltac:(lia)). pose proof (Z.mod_pos_bound (newsz - npages sz * 4096) 4096 ltac:(lia)).
  rewrite Z2Nat.id by lia. lia.
Qed.

(** *** Filling *)

Lemma space_upage b l d k m : space kend (fun m => m < b) l d k -> b <= 2 ^ 19 -> 0 <= m < b ->
  page kend (upage k d m) /\ upage k d m ∉ l /\ ~ table_page k d (upage k d m).
Proof. intros S Hb Hm. assert (0 <= m < 2 ^ 19) by lia. by destruct (upage_is kend Hkend _ _ _ _ m S ltac:(done) (proj2 Hm)) as (? & ? & ? & _). Qed.
(** Bytes are written into page [m]. *)
Lemma building_write l0 k0 b g img l d k m o bs :
  building l0 k0 b g img l d k -> 0 <= m < b -> b <= 2 ^ 19 -> 0 <= o -> o + Z.of_nat (length bs) <= 4096 ->
  building l0 k0 b g (overlay img (m * 4096 + o) bs) l d (put_cells (upage k d m + o) bs k).
Proof.
  intros [[S P F] Fl C Z0 K] Hm Hb Ho Hlen. set (u := upage k d m). set (k' := put_cells (u + o) bs k).
  destruct (space_upage _ _ _ _ m S Hb Hm) as (Hu & Hul & Hut). fold u in Hu, Hul, Hut.
  pose proof (sp_tables _ _ _ _ _ S) as T.
  assert (Hc : forall v x, page kend v -> v <> u -> 0 <= x < 4096 -> k_mem k' (v + x) = k_mem k (v + x)).
  { intros v x Hv Hvu Hx. unfold k'. cbn. destruct ((u + o <=? v + x) && _) eqn:E; [|done]. exfalso.
    apply (cells_apart kend v u x (v + x - u)); try done; lia. }
  assert (Hp : pool kend l k').
  { destruct (tb_pool _ _ _ _ T) as (H1 & H2 & H3). split; [|done]. eapply chain_ext; [|exact H1]. intros v Hv. rewrite Forall_forall in H3.
    rewrite <- (Z.add_0_r v). apply Hc; [by apply H3|by intros ->|lia]. }
  assert (Htp : forall v, table_page k d v -> page kend v /\ v ∉ l /\ v <> u).
  { intros v Hv. destruct (table_page_used kend Hkend _ _ _ _ T Hv). split; [done|]. split; [done|]. intros ->. by apply Hut. }
  destruct (tables_same kend Hkend l l d k k' T Hp) as (T' & Hpde & He).
  { intros v Hv. by apply Htp. }
  { intros v x Hv Hx. destruct (Htp v Hv) as (? & _ & ?). by apply Hc. }
  assert (Hup : forall n, 0 <= n < 2 ^ 20 -> upage k' d n = upage k d n) by (intros n Hn; unfold upage; by rewrite He).
  assert (Htk : forall v, table_page k' d v <-> table_page k d v) by (intros v; by apply table_page_same).
  constructor; [constructor| | | |].
  - constructor; [done| | |].
    + intros n Hn HU. rewrite He by lia. destruct (sp_in _ _ _ _ _ S n Hn HU) as (Pn & w & f & Ew & Hw & Hf & Hwl & Hwt).
      split; [done|]. exists w, f. do 4 (split; [done|]). by rewrite Htk.
    + intros n Hn HU. rewrite He by lia. by apply (sp_out _ _ _ _ _ S).
    + intros n n' Hn Hn' HU HU'. rewrite !Hup by lia. by apply (sp_inj _ _ _ _ _ S).
  - intros v. rewrite P, Htk. split; (intros [?|[?|(n & Hn & ->)]]; [by left|by right; left|right; right; exists n]); by rewrite Hup by lia.
  - eapply frame_trans; [exact F|]. intros v x Hv Hvl Hx. apply Hc; [done| |done]. intros ->. apply Hvl, P. right. right. by exists m.
  - intros n Hn. rewrite He, Hup by lia. by apply Fl.
  - intros va Hva. destruct (page_of va _ Hva) as (Hn & Hx & Ev). unfold ucell. rewrite Hup by lia. destruct (Z.eq_dec (va / 4096) m) as [E|Hne].
    + rewrite E. fold u. unfold k', overlay. cbn. destruct ((u + o <=? u + va mod 4096) && _) eqn:E1.
      * replace ((m * 4096 + o <=? va) && _) with true by lia. f_equal. lia.
      * replace ((m * 4096 + o <=? va) && _) with false by lia. rewrite <- C by done. unfold ucell. by rewrite E.
    + rewrite overlay_out by lia. destruct (space_upage _ _ _ _ (va / 4096) S Hb Hn) as (Hw & _).
      rewrite Hc; [by apply C|done| |done]. intros E. apply Hne. by apply (sp_inj _ _ _ _ _ S); [lia|lia|lia|lia|].
  - intros va Hva. rewrite overlay_out by lia. by apply Z0.
  - intros n Hn. rewrite He by lia. by apply K.
Qed.
(** *** Looking up *)

Lemma walk_present l d k va :
  tables kend l d k -> 0 <= va < 2 ^ 32 -> present (entry k d (vpn va)) = true ->
  runs (walkpgdir me d va false) k (fun r k' => k' = k /\ r <> 0 /\ r = table k d (vpn va / 1024) + 4 * (vpn va mod 1024) /\
    present (pde k d (vpn va / 1024)) = true /\ k_mem k r = entry k d (vpn va)).
Proof.
  intros T Hva Hp. eapply runs_mono; [by apply (walkpgdir_runs kend me Hkend l d va false k T)|].
  intros r k1 [(_ & _ & Hpde & _)|(-> & Hr0 & Hpde & Hk & _)]; [unfold entry in Hp; by rewrite Hpde in Hp|].
  rewrite (Hk eq_refl) in *. split_and!; try done. unfold entry. by rewrite Hpde.
Qed.
Lemma low_flag a f : a mod 4096 = 0 -> 0 <= f < 8 -> Z.land (a + f) 4 = Z.land f 4.
Proof.
  intros Hm Hf. rewrite <- (lor_aligned a f) by (done || lia). rewrite Z.land_lor_distr_l. replace (Z.land a 4) with 0; [done|].
  rewrite <- (Z.land_0_l 4), <- Hm, <- land_low, <- Z.land_assoc. done.
Qed.
Lemma flag_bits v f : page kend v -> 0 <= f < 8 -> Z.land (V2P v + f) 4 = Z.land f 4 /\ present (V2P v + f) = Z.odd f.
Proof.
  intros Hv Hf. destruct (page_V2P kend Hkend v Hv) as (-> & Hm & _). split; [by apply low_flag|]. rewrite present_odd. by apply odd_aligned.
Qed.

Lemma user_entry l0 k0 b g img l d k m : building l0 k0 b g img l d k -> 0 <= m < b -> b <= 2 ^ 19 ->
  page kend (upage k d m) /\ present (entry k d m) = true /\ Z.land (entry k d m) PTE_U = (if m =? g then 0 else 4) /\ PTE_ADDR (entry k d m) = V2P (upage k d m).
Proof.
  intros [O F _ _ _] Hm Hb. destruct (space_upage _ _ _ _ m (ow_space _ _ _ _ _ _ O) Hb Hm) as (Hu & _). rewrite (F m Hm).
  destruct (flag_bits (upage k d m) (if m =? g then 3 else 7) Hu) as [E1 E2]; [by destruct (m =? g)|]. unfold PTE_U. rewrite E1, E2.
  split; [done|]. split; [by destruct (m =? g)|]. split; [by destruct (m =? g)|].
  destruct (page_entry kend Hkend (upage k d m) (if m =? g then 3 else 7) Hu) as (_ & _ & _ & ->); [by destruct (m =? g)|done].
Qed.
(** The user may have the page, it is the guard page, or it is the kernel's. *)
Lemma uva2ka_user l0 k0 b g img l d k m : building l0 k0 b g img l d k -> 0 <= m < b -> b <= 2 ^ 19 ->
  runs (uva2ka me d (m * 4096)) k (fun r k' => k' = k /\ r = if m =? g then 0 else upage k d m).
Proof.
  intros B Hm Hb. destruct (user_entry _ _ _ _ _ _ _ _ m B Hm Hb) as (Hu & Hp & Hf & Ha). unfold uva2ka. apply runs_bind.
  eapply runs_mono; [apply (walk_present l d k (m * 4096)); [apply (bd_owned _ _ _ _ _ _ _ _ B)|lia|by rewrite vpn_mul]|].
  rewrite vpn_mul. intros r k1 (-> & Hr & _ & _ & Er). rewrite (proj2 (Z.eqb_neq _ _) Hr). unfold rd. rsteps. rewrite Er, Hp, Hf. cbn [negb].
  destruct (m =? g); [change (0 =? 0) with true|change (4 =? 0) with false]; cbv iota; rsteps; [done|]. split; [done|]. by rewrite Ha, (P2V_V2P kend Hkend).
Qed.
Lemma uva2ka_device l0 k0 b g img l d k m : building l0 k0 b g img l d k -> vpn DEVSPACE <= m < 2 ^ 20 ->
  runs (uva2ka me d (m * 4096)) k (fun r k' => k' = k /\ r = 0).
Proof.
  intros B Hm. change (vpn DEVSPACE) with 1040384 in Hm. assert (Ee : entry k d m = m * 4096 + 3).
  { rewrite (bd_kernel _ _ _ _ _ _ _ _ B) by lia. destruct (data_pages data Hdata Hdata_page) as (_ & _ & ?). unfold kernel_entry.
    change (vpn KERNBASE) with 524288. change (vpn KERNLINK) with 524544. change (vpn (KERNBASE + PHYSTOP)) with 581632. change (vpn DEVSPACE) with 1040384.
    rewrite !decide_False by lia. by rewrite decide_True by lia. }
  assert (Hm0 : (m * 4096) mod 4096 = 0) by (apply Z.mod_mul; lia).
  assert (Hp : present (entry k d m) = true) by (rewrite Ee, present_odd, odd_aligned; done). unfold uva2ka. apply runs_bind.
  eapply runs_mono; [apply (walk_present l d k (m * 4096)); [apply (bd_owned _ _ _ _ _ _ _ _ B)|lia|by rewrite vpn_mul]|].
  rewrite vpn_mul. intros r k1 (-> & Hr & _ & _ & Er). rewrite (proj2 (Z.eqb_neq _ _) Hr). unfold rd. rsteps. rewrite Er, Hp. cbn [negb].
  rewrite Ee. unfold PTE_U. rewrite low_flag by (done || lia). change (Z.land 3 4 =? 0) with true. cbv iota. by rsteps.
Qed.

Lemma clearpteu_builds l0 k0 b img l d k m : building l0 k0 b (-1) img l d k -> 0 <= m < b -> b <= 2 ^ 19 ->
  runs (clearpteu me d (m * 4096)) k (fun _ k' => building l0 k0 b m img l d k').
Proof.
  intros B Hm Hb. destruct (user_entry _ _ _ _ _ _ _ _ m B Hm Hb) as (Hu & Hp & _). pose proof B as [[S P F] Fl C Z0 K].
  pose proof (sp_tables _ _ _ _ _ S) as T. unfold clearpteu. apply runs_bind.
  eapply runs_mono; [apply (walk_present l d k (m * 4096) T); [lia|by rewrite vpn_mul]|].
  rewrite vpn_mul. intros r k1 (-> & Hr & -> & Hpde & Er). rewrite (proj2 (Z.eqb_neq _ _) Hr). unfold rd, wr. rsteps. rewrite Er, (Fl m Hm).
  rewrite (proj2 (Z.eqb_neq m (-1))) by lia. set (u := upage k d m) in *.
  assert (Ew : Z.land (V2P u + 7) (u32 (Z.lnot PTE_U)) = V2P u + 3).
  { destruct (page_V2P kend Hkend u Hu) as (-> & Hm0 & Hr0). unfold PHYSTOP in Hr0. set (a := u - KERNBASE) in *. change (u32 (Z.lnot PTE_U)) with 4294967291.
    rewrite <- !(lor_aligned a) by (done || lia). rewrite Z.land_lor_distr_l. f_equal.
    assert (Ea : a = Z.land a 4294963200) by (rewrite land_page by lia; lia). rewrite Ea, <- Z.land_assoc. done. }
  rewrite Ew. destruct (set_entry_grows kend Hkend l d k m (V2P u + 3) T) as [G He]; [lia|done|].
  destruct (write_entry kend Hkend l d k m (V2P u + 3) T) as (_ & Hpd & _); [lia|done|].
  set (k' := set_word _ _ k) in *. assert (Htk : forall v, table_page k' d v <-> table_page k d v) by (intros v; by apply table_page_same).
  assert (Hup : forall n, 0 <= n < 2 ^ 20 -> upage k' d n = upage k d n).
  { intros n Hn. unfold upage. rewrite He by done. destruct (Z.eqb_spec n m) as [->|]; [|done].
    destruct (page_entry kend Hkend u 3 Hu) as (-> & _); [lia|done]. }
  constructor; [constructor| | |done|].
  - constructor; [apply (gr_tables _ _ _ _ _ _ G)| | |].
    + intros n Hn HU. destruct (sp_in _ _ _ _ _ S n Hn HU) as (Pn & w & f & Ew' & Hw & Hf & Hwl & Hwt). rewrite He by lia.
      destruct (Z.eqb_spec n m) as [->|]; [|split; [done|]; exists w, f; do 4 (split; [done|]); by rewrite Htk].
      destruct (space_upage _ _ _ _ m S Hb Hm) as (_ & Hul & Hut). split; [by destruct (flag_bits u 3 Hu)|].
      exists u, 3. do 4 (split; [done|]). by rewrite Htk.
    + intros n Hn HU. rewrite He by lia. rewrite (proj2 (Z.eqb_neq n m)) by (intros ->; apply HU; cbv beta; lia). by apply (sp_out _ _ _ _ _ S).
    + intros n n' Hn Hn' HU HU'. rewrite !Hup by lia. by apply (sp_inj _ _ _ _ _ S).
  - intros v. rewrite P, Htk. split; (intros [?|[?|(n & Hn & ->)]]; [by left|by right; left|right; right; exists n]); by rewrite Hup by lia.
  - eapply frame_trans; [exact F|]. intros v x Hv Hvl Hx. apply (gr_frame _ _ _ _ _ _ G); try done; intros H; apply Hvl; rewrite P; [by left|by right; left].
  - intros n Hn. rewrite Hup, He by lia. destruct (Z.eqb_spec n m) as [->|]; [done|]. rewrite (Fl n Hn). by rewrite (proj2 (Z.eqb_neq n (-1))) by lia.
  - intros va Hva. destruct (page_of va _ Hva) as (Hn & Hx & _). unfold ucell. rewrite Hup by lia. rewrite <- C by done.
    destruct (space_upage _ _ _ _ (va / 4096) S Hb Hn) as (Hw & Hwl & Hwt). by apply (gr_frame _ _ _ _ _ _ G).
  - intros n Hn. rewrite He by lia. rewrite (proj2 (Z.eqb_neq n m)) by lia. by apply K.
Qed.
(** *** [copyout] *)

Lemma rounddown_page va m : 0 <= m < 2 ^ 20 -> m * 4096 <= va < m * 4096 + 4096 -> PGROUNDDOWN va = m * 4096.
Proof.
  intros Hm Hva. unfold PGROUNDDOWN. rewrite land_page by lia. pose proof (Z.div_mod va 4096 ltac:(lia)).
  assert (va / 4096 = m) by (symmetry; apply (Z.div_unique _ _ _ (va - m * 4096)); lia). lia.
Qed.

(** Inside one page that is the user's. *)
Lemma copyout_page l0 k0 b g img l d k m va bs : building l0 k0 b g img l d k -> 0 <= m < b -> b <= 2 ^ 19 -> m <> g ->
  m * 4096 <= va -> va + Z.of_nat (length bs) <= m * 4096 + 4096 ->
  runs (copyout me d va bs) k (fun r k' => r = 0 /\ building l0 k0 b g (overlay img va bs) l d k').
Proof.
  intros B Hm Hb Hg Hva Hl. unfold copyout. assert (Hf : exists f, Z.to_nat (Z.of_nat (length bs) / PGSIZE + 3) = S (S f)).
  { unfold PGSIZE. pose proof (Z.div_pos (Z.of_nat (length bs)) 4096). exists (Z.to_nat (Z.of_nat (length bs) / 4096 + 1)). lia. }
  destruct Hf as [f ->]. cbn [copyout_loop]. destruct (Z.eqb_spec (Z.of_nat (length bs)) 0) as [E|Hne].
  { rsteps. split; [done|]. destruct bs; [|done]. eapply building_ext; [|exact B]. intros a. by rewrite overlay_nil. }
  rewrite (rounddown_page va m) by lia. apply runs_bind. eapply runs_mono; [by apply (uva2ka_user _ _ _ _ _ _ _ _ m B)|].
  intros r k1 [-> ->]. rewrite (proj2 (Z.eqb_neq m g) Hg). destruct (user_entry _ _ _ _ _ _ _ _ m B Hm Hb) as (Hu & _).
  rewrite (proj2 (Z.eqb_neq (upage k d m) 0)) by (destruct Hu as (_ & _ & _ & ?); lia). unfold PGSIZE.
  replace (if _ >? _ then _ else _) with (Z.of_nat (length bs)) by (destruct (Z.gtb_spec (4096 - (va - m * 4096)) (Z.of_nat (length bs))); lia).
  rewrite Nat2Z.id, firstn_all, drop_all. apply runs_bind, runs_mod. cbn [copyout_loop length]. change (Z.of_nat 0 =? 0) with true. cbv iota. rsteps.
  split; [done|]. replace va with (m * 4096 + (va - m * 4096)) at 1 by lia. apply building_write; (done || lia).
Qed.

(** Upwards into the guard page: bytes below it may be overwritten. *)
Lemma copyout_guard fuel : forall l0 k0 b img l d k va bs, building l0 k0 b (b - 2) img l d k -> 2 <= b <= 2 ^ 19 ->
  0 <= va < (b - 1) * 4096 -> (b - 2) * 4096 < va + Z.of_nat (length bs) -> va + Z.of_nat (length bs) <= (va / 4096 + Z.of_nat fuel - 1) * 4096 -> (0 < length bs)%nat ->
  runs (copyout_loop me fuel d va bs) k (fun r k' => r = -1 /\ exists img', building l0 k0 b (b - 2) img' l d k').
Proof.
  induction fuel as [|fuel IH]; intros l0 k0 b img l d k va bs B Hb Hva Hl Hf Hne; [pose proof (Z.div_mod va 4096); pose proof (Z.mod_pos_bound va 4096); lia|]. cbn [copyout_loop].
  rewrite (proj2 (Z.eqb_neq _ _)) by lia. destruct (page_of va (b - 1) ltac:(lia)) as (Hm & Hx & Ev). set (m := va / 4096) in *.
  rewrite (rounddown_page va m) by lia. apply runs_bind. eapply runs_mono; [apply (uva2ka_user _ _ _ _ _ _ _ _ m B); lia|].
  intros r k1 [-> ->]. destruct (Z.eqb_spec m (b - 2)) as [Eg|Hg]; [change (0 =? 0) with true; cbv iota; rsteps; split; [done|]; by exists img|].
  destruct (user_entry _ _ _ _ _ _ _ _ m B ltac:(lia) ltac:(lia)) as (Hu & _).
  rewrite (proj2 (Z.eqb_neq (upage k d m) 0)) by (destruct Hu as (_ & _ & _ & ?); lia). unfold PGSIZE.
  replace (if _ >? _ then _ else _) with (4096 - (va - m * 4096)) by (destruct (Z.gtb_spec (4096 - (va - m * 4096)) (Z.of_nat (length bs))); lia).
  apply runs_bind, runs_mod. rewrite u32_small by lia.
  pose proof (building_write _ _ _ _ _ _ _ _ m (va - m * 4096) (take (Z.to_nat (4096 - (va - m * 4096))) bs) B) as B'. rewrite length_take in B'.
  eapply IH; [apply B'; lia|lia|lia|rewrite length_drop; lia| |rewrite length_drop; lia].
  replace (m * 4096 + 4096) with ((m + 1) * 4096) by lia. rewrite Z.div_mul, length_drop by lia. lia.
Qed.
Lemma copyout_short l0 k0 b img l d k va bs : building l0 k0 b (b - 2) img l d k -> 2 <= b <= 2 ^ 19 ->
  0 <= va < (b - 1) * 4096 \/ DEVSPACE <= va < 2 ^ 32 -> (0 < length bs)%nat -> (va < DEVSPACE -> (b - 2) * 4096 < va + Z.of_nat (length bs)) ->
  runs (copyout me d va bs) k (fun r k' => r = -1 /\ exists img', building l0 k0 b (b - 2) img' l d k').
Proof.
  intros B Hb Hva Hne Hl. unfold copyout, PGSIZE. pose proof (Z.div_mod (Z.of_nat (length bs)) 4096 ltac:(lia)).
  pose proof (Z.mod_pos_bound (Z.of_nat (length bs)) 4096 ltac:(lia)). pose proof (Z.div_pos (Z.of_nat (length bs)) 4096 ltac:(lia) ltac:(lia)).
  destruct Hva as [Hva|Hva].
  { apply (copyout_guard _ l0 k0 b img l d k va bs B); try lia; [apply Hl; unfold DEVSPACE; lia|].
    pose proof (Z.div_mod va 4096 ltac:(lia)). pose proof (Z.mod_pos_bound va 4096 ltac:(lia)). lia. }
  replace (Z.to_nat (Z.of_nat (length bs) / 4096 + 3)) with (S (Z.to_nat (Z.of_nat (length bs) / 4096 + 2))) by lia. cbn [copyout_loop].
  rewrite (proj2 (Z.eqb_neq _ _)) by lia. unfold DEVSPACE in Hva. destruct (page_of va (2 ^ 20) ltac:(lia)) as (Hm & Hx & Ev). set (m := va / 4096) in *.
  rewrite (rounddown_page va m) by lia. apply runs_bind.
  eapply runs_mono; [apply (uva2ka_device _ _ _ _ _ _ _ _ m B); change (vpn DEVSPACE) with 1040384; lia|].
  intros r k1 [-> ->]. change (0 =? 0) with true. cbv iota. rsteps. split; [done|]. by exists img.
Qed.
(** *** Giving up, and going over *)

Lemma owned_freed l0 k0 b l d k : owned l0 k0 b l d k -> 0 <= b <= 2 ^ 19 ->
  runs (freevm kend me d) k (fun _ k' => exists l', pool kend l' k' /\ frame kend l0 k0 k' /\ forall v, v ∈ l' <-> v ∈ l0).
Proof.
  intros [S P F] Hb. eapply runs_mono; [apply (freevm_runs kend me Hkend b l d k S Hb)|]. intros _ k' (l' & Hp & F' & G).
  assert (El : forall v, v ∈ l' <-> v ∈ l0).
  { intros v. rewrite (G v), P. split; (intros [?|[?|(m & Hm)]]; [by left|by right; left|right; right; exists m]); [tauto|].
    destruct Hm. split_and!; (done || lia). }
  exists l'. split; [done|]. split; [|done]. eapply frame_trans; [exact F|]. eapply frame_weaken; [|exact F']. intros v. by rewrite El.
Qed.

(** Pages that an address space does not use are freed. *)
Lemma space_moved U l d k l' k' : space kend U l d k -> pool kend l' k' -> (forall v, table_page k d v -> v ∉ l') ->
  (forall m, 0 <= m < 2 ^ 19 -> U m -> upage k d m ∉ l') -> frame kend l' k k' ->
  space kend U l' d k' /\ (forall m, 0 <= m < 2 ^ 20 -> entry k' d m = entry k d m) /\
  (forall m x, 0 <= m < 2 ^ 19 -> U m -> 0 <= x < 4096 -> k_mem k' (upage k d m + x) = k_mem k (upage k d m + x)).
Proof.
  intros S Hp Ht Hu F. pose proof (sp_tables _ _ _ _ _ S) as T.
  destruct (tables_same kend Hkend l l' d k k' T Hp Ht) as (T' & Hpde & He).
  { intros v x Hv Hx. apply F; [by destruct (table_page_used kend Hkend _ _ _ _ T Hv)|by apply Ht|done]. }
  split; [|split; [done|]].
  - constructor; [done| | |].
    + intros m Hm HU. rewrite He by lia. destruct (sp_in _ _ _ _ _ S m Hm HU) as (Pm & w & f & Ew & Hw & Hf & Hwl & Hwt).
      split; [done|]. exists w, f. do 3 (split; [done|]). split; [|by rewrite (table_page_same d k k')].
      specialize (Hu m Hm HU). unfold upage in Hu. rewrite Ew in Hu. by destruct (page_entry kend Hkend w f Hw Hf) as (<- & _).
    + intros m Hm HU. rewrite He by lia. by apply (sp_out _ _ _ _ _ S).
    + intros m m' Hm Hm' HU HU'. unfold upage. rewrite !He by lia. by apply (sp_inj _ _ _ _ _ S).
  - intros m x Hm HU Hx. destruct (upage_is kend Hkend _ _ _ _ m S Hm HU) as (? & _). apply F; [done|by apply Hu|done].
Qed.

(** A finished program: [b] pages that show [img], all the user's but page [g]. *)
Record program (b g : Z) (img : Z -> Z) (l : list Z) (d : Z) (k : kmem) : Prop := mk_program {
  pg_space : space kend (fun m => m < b) l d k;
  pg_flags : forall m, 0 <= m < b -> entry k d m = V2P (upage k d m) + (if m =? g then 3 else 7);
  pg_cells : forall va, 0 <= va < b * 4096 -> ucell k d va = img va;
  pg_kernel : forall m, 2 ^ 19 <= m < 2 ^ 20 -> entry k d m = kernel_entry data m }.

(** The program replaces the one of [sz] bytes in [old], whose pages are all freed. *)
Lemma program_replaces l0 k0 b g img l d k sz old : building l0 k0 b g img l d k -> 0 <= b <= 2 ^ 19 ->
  umem kend sz l0 old k0 -> 0 <= sz < 2 ^ 31 ->
  runs (freevm kend me old) k (fun _ k' => exists l', program b g img l' d k' /\
    forall v, (v ∈ l0 \/ table_page k0 old v \/ exists m, 0 <= m < npages sz /\ v = upage k0 old m) <->
      (v ∈ l' \/ table_page k' d v \/ exists m, 0 <= m < b /\ v = upage k' d m)).
Proof.
  intros [[S P F] Fl C Z0 K] Hb S0 Hsz. pose proof (npages_range sz ltac:(lia)) as Hn.
  pose proof (tb_pool _ _ _ _ (sp_tables _ _ _ _ _ S)) as Hp. assert (Hsub : forall v, v ∈ l -> v ∈ l0) by (intros v Hv; apply P; by left).
  destruct (space_kept kend Hkend _ l0 old k0 l k S0 Hp Hsub F) as (So & Eo & Co).
  eapply runs_mono; [apply (freevm_runs kend me Hkend (npages sz) l old k So); lia|]. intros _ k' (l' & Hp' & F' & G).
  pose proof (sp_tables _ _ _ _ _ S0) as T0.
  assert (Hto : forall v, table_page k old v <-> table_page k0 old v).
  { intros v. apply table_page_same. intros i Hi. apply F; [apply T0|apply T0|lia]. }
  assert (Huo : forall m, 0 <= m < 2 ^ 19 -> upage k old m = upage k0 old m) by (intros m Hm; unfold upage; by rewrite Eo by lia).
  assert (Hnew : forall v, v ∈ l0 -> v ∉ l -> v ∉ l').
  { intros v Hv0 Hvl Hv. apply G in Hv as [?|[Ht%Hto|(m & Hm & Hmn & ->)]]; [done| |].
    - by destruct (table_page_used kend Hkend _ _ _ _ T0 Ht).
    - rewrite Huo in Hv0 by done. by destruct (upage_is kend Hkend _ _ _ _ m S0 Hm Hmn) as (_ & ? & _). }
  destruct (space_moved _ l d k l' k' S Hp') as (S' & E' & C').
  { intros v Hv. apply Hnew; [apply P; by right; left|by destruct (table_page_used kend Hkend _ _ _ _ (sp_tables _ _ _ _ _ S) Hv)]. }
  { intros m Hm HU. destruct (space_upage b l d k m S ltac:(lia) (conj (proj1 Hm) HU)) as (_ & ? & _). apply Hnew; [|done].
    apply P. right. right. exists m. split; [|done]. split; [lia|exact HU]. }
  { done. }
  assert (Hup : forall m, 0 <= m < 2 ^ 20 -> upage k' d m = upage k d m) by (intros m Hm; unfold upage; by rewrite E').
  exists l'. split.
  - constructor; [done| | |].
    + intros m Hm. rewrite E', Hup by lia. by apply Fl.
    + intros va Hva. destruct (page_of va _ Hva) as (Hm & Hx & _). unfold ucell. rewrite Hup by lia. rewrite C' by lia. by apply C.
    + intros m Hm. rewrite E' by lia. by apply K.
  - assert (Htn : forall v, table_page k' d v <-> table_page k d v).
    { intros v. apply table_page_same. intros i Hi. pose proof (sp_tables _ _ _ _ _ S) as T. apply F'; [apply T| |lia]. apply Hnew; [apply P; right; left; by left|apply T]. }
    intros v. rewrite P, (G v), Htn, Hto. split.
    + intros [[?|[?|(m & Hm & ->)]]|[?|(m & Hm & ->)]]; [tauto|tauto|right; right; exists m; by rewrite Hup by lia|tauto|].
      left. right. right. exists m. rewrite Huo by lia. split_and!; (done || lia).
    + intros [[?|[?|(m & Hm & Hmn & ->)]]|[?|(m & Hm & ->)]]; [tauto|tauto| |tauto|].
      * right. right. exists m. rewrite Huo by done. split; [lia|done].
      * left. right. right. exists m. rewrite Hup by lia. done.
Qed.
(** [copyout] to an address that has no page table reads an entry through a null pointer.
    [exec] comes to it with an argument longer than the distance from [DEVSPACE] to the end
    of the address space, 32 megabytes: the stack pointer wraps around to between the
    physical memory and the devices. *)
Theorem copyout_no_table g d va bs : 0 <= va < 2 ^ 32 -> bs <> [] -> present (pde (g_val g) d (PDX (PGROUNDDOWN va))) = false ->
  fault_of (copyout me d va bs g) = Some NullDeref.
Proof.
  intros Hva Hbs Hp. unfold copyout. replace (Z.to_nat (Z.of_nat (length bs) / PGSIZE + 3)) with (S (Z.to_nat (Z.of_nat (length bs) / PGSIZE + 2))).
  2:{ unfold PGSIZE. pose proof (Z.div_pos (Z.of_nat (length bs)) 4096). lia. }
  cbn [copyout_loop]. rewrite (proj2 (Z.eqb_neq _ _)) by (destruct bs; [done|cbn; lia]).
  unfold uva2ka, walkpgdir, rd, g_get. munfold. unfold pde in Hp. by rewrite Hp.
Qed.
End Image.
