(* ===== verification/ExecLoad.v ===== *)
(** What [exec] does: the program it makes of an ELF file and the arguments, and that it
    leaves everything as it was when it fails. *)

From S2P Require Import Prelude CString Locks Guarded Bytes ProcDefs Kalloc Vm VmSpace Fs FsBlocks FsInode File FileIO Exec ExecMem.

(** ** Reading a file without holes *)

Definition solid (s : fs) (i : nat) : Prop := forall bn, 0 <= bn -> bn * BSIZE < i_size (ino s i) -> addr s i (fslot bn) <> 0.

Lemma bread_runs s b (Q : block -> fs -> Prop) : b < f_disksize s -> Q (f_view s b) s -> runs (bread b) s Q.
Proof. intros Hb HQ. unfold bread. rsteps. replace (_ >=? _) with false by lia. by rsteps. Qed.
Lemma bmap_solid s i bn : fs_ok s -> inode_ok s i -> 0 <= bn < MAXFILE -> addr s i (fslot bn) <> 0 ->
  runs (bmap i bn) s (fun a s' => s' = s /\ a = addr s i (fslot bn)).
Proof.
  intros O I Hbn Ha. unfold MAXFILE, NDIRECT, NINDIRECT in Hbn. unfold bmap, fslot, NDIRECT, NINDIRECT in *. rsteps. destruct (Z.ltb_spec bn 12) as [Hlt|Hge].
  - assert (Ea : addr s i bn = nth (Z.to_nat bn) (i_addrs (ino s i)) 0) by (unfold addr, slot_addr; by replace (bn <=? 12) with true by lia).
    rewrite Ea in *. rewrite (proj2 (Z.eqb_neq _ _) Ha). by rsteps.
  - replace (bn - 12 <? 128) with true by lia. assert (H12 : addr s i 12 <> 0).
    { intros E. apply Ha. unfold addr, slot_addr in E |- *. change (12 <=? 12) with true in E. cbv iota in E. replace (bn + 1 <=? 12) with false by lia.
      change (Z.to_nat 12) with 12%nat in E. by rewrite E. }
    assert (E12 : nth 12 (i_addrs (ino s i)) 0 = addr s i 12) by done. rewrite E12, (proj2 (Z.eqb_neq _ _) H12). rsteps.
    destruct (io_data _ _ I 12 ltac:(lia) H12) as [Hd _]. pose proof (fo_size _ O). apply bread_runs; [unfold data_block in Hd; lia|].
    assert (Eg : get32 (f_view s (addr s i 12)) (4 * Z.to_nat (bn - 12)) = addr s i (bn + 1)).
    { unfold addr at 2, slot_addr. replace (bn + 1 <=? 12) with false by lia. change (nth 12 (i_addrs (ino s i)) 0) with (addr s i 12).
      rewrite (proj2 (Z.eqb_neq _ _) H12). do 3 f_equal. lia. }
    rewrite Eg, (proj2 (Z.eqb_neq _ _) Ha). by rsteps.
Qed.
Lemma readi_loop_solid fuel s i : fs_ok s -> inode_ok s i -> solid s i -> forall off n acc,
  0 <= off -> 0 <= n -> off + n <= i_size (ino s i) -> (0 < fuel)%nat -> (0 < n -> off mod BSIZE + n <= (Z.of_nat fuel - 1) * BSIZE) ->
  runs (readi_loop fuel i off n acc) s (fun bs s' => s' = s /\ bs = acc ++ slice s i off n).
Proof.
  intros O I So. induction fuel as [|fuel IH]; intros off n acc Ho Hn Hs Hpos Hf; [lia|]. cbn [readi_loop].
  destruct (Z.ltb_spec 0 n) as [H0|H0]; cbn [negb].
  2:{ rsteps. split; [done|]. replace n with 0 by lia. unfold slice. by rewrite app_nil_r. }
  specialize (Hf H0). pose proof (io_size _ _ I) as Hsz. pose proof (Z.mod_pos_bound off BSIZE ltac:(unfold BSIZE; lia)).
  pose proof (Z.div_mod off BSIZE ltac:(unfold BSIZE; lia)). assert (Hbn : 0 <= off / BSIZE < MAXFILE).
  { unfold BSIZE in *. split; [apply Z.div_pos; lia|apply Z.div_lt_upper_bound; lia]. }
  assert (Ha : addr s i (fslot (off / BSIZE)) <> 0) by (apply So; lia).
  rsteps. eapply runs_mono; [by apply bmap_solid|]. intros a s1 [-> ->]. rsteps. apply bread_runs; [by apply addr_on_disk|]. rewrite fdata_view by done.
  pose proof (chunk_spec off n Ho H0) as (Hm1 & Hm2 & Hm3). set (m := min n (BSIZE - off mod BSIZE)) in *.
  rewrite (chunk_slice s i off m) by (try done; try lia; apply (fdata_ok s i _ O I Hbn)).
  eapply runs_mono; [apply (IH (off + m) (n - m)); try done; try lia; unfold BSIZE in *; lia|].
  intros bs s2 [-> ->]. split; [done|]. rewrite <- app_assoc. f_equal. rewrite <- slice_split by lia. f_equal. lia.
Qed.

(** What a reader of [n] bytes at [off] wants. *)
Definition read_at (C : list Z) (off n : Z) : option (list Z) :=
  if off + n <=? Z.of_nat (length C) then Some (take (Z.to_nat n) (drop (Z.to_nat off) C)) else None.

Lemma contents_len s i : length (contents s i) = Z.to_nat (i_size (ino s i)).
Proof. apply slice_length. Qed.
Lemma readi_solid devsw s i off n :
  fs_ok s -> inode_ok s i -> i_type (ino s i) <> T_DEV -> solid s i -> 0 <= off < 2 ^ 32 -> 0 < n < 2 ^ 31 ->
  runs (readi devsw i off n) s (fun r s' => s' = s /\ (fst r =? n) = bool_decide (is_Some (read_at (contents s i) off n)) /\
    (length (snd r) <= Z.to_nat n)%nat /\ forall bs, read_at (contents s i) off n = Some bs -> r = (n, bs)).
Proof.
  intros O I Ht So Ho Hn. unfold readi. rsteps. rewrite (proj2 (Z.eqb_neq _ _) Ht). pose proof (io_size _ _ I) as Hs.
  assert (HM : MAXFILE * BSIZE = 71680) by reflexivity. assert (HB : BSIZE = 512) by reflexivity. unfold read_at. rewrite contents_len.
  assert (Hno : forall r bs, r <> n -> (length bs <= Z.to_nat n)%nat -> i_size (ino s i) < off + n -> s = s /\
    (fst (r, bs) =? n) = bool_decide (is_Some (if off + n <=? Z.of_nat (Z.to_nat (i_size (ino s i))) then
      Some (take (Z.to_nat n) (drop (Z.to_nat off) (contents s i))) else None)) /\ (length (snd (r, bs)) <= Z.to_nat n)%nat /\
    forall bs', (if off + n <=? Z.of_nat (Z.to_nat (i_size (ino s i))) then Some (take (Z.to_nat n) (drop (Z.to_nat off) (contents s i))) else None) = Some bs' -> (r, bs) = (n, bs')).
  { intros r bs Hr Hl Hb. replace (off + n <=? _) with false by lia. split; [done|]. cbn [fst snd]. rewrite (proj2 (Z.eqb_neq _ _) Hr).
    rewrite bool_decide_eq_false_2 by (intros [? ?]; done). split_and!; (done || lia). }
  destruct (Z.gtb_spec off (i_size (ino s i))) as [|Hle]; cbn [orb]; [rsteps; apply Hno; cbn; lia|].
  rewrite u32_small by lia. replace (off + n <? off) with false by lia. set (n' := if off + n >? i_size (ino s i) then i_size (ino s i) - off else n).
  assert (En : n' = Z.min n (i_size (ino s i) - off)) by (unfold n'; destruct (Z.gtb_spec (off + n) (i_size (ino s i))); lia).
  rsteps. pose proof (Z.mod_pos_bound off BSIZE ltac:(lia)). pose proof (Z.div_mod n' BSIZE ltac:(lia)). pose proof (Z.mod_pos_bound n' BSIZE ltac:(lia)).
  pose proof (Z.div_pos n' BSIZE ltac:(lia) ltac:(lia)).
  eapply runs_mono; [apply (readi_loop_solid _ s i O I So off n' []); lia|]. intros bs s' [-> ->]. rsteps. rewrite app_nil_l.
  destruct (Z.lt_ge_cases (i_size (ino s i)) (off + n)); [apply Hno; rewrite ?slice_length; lia|].
  replace n' with n by lia. replace (off + n <=? _) with true by lia. cbn [fst snd]. rewrite Z.eqb_refl, bool_decide_eq_true_2 by done.
  rewrite slice_length. split_and!; [done|done|lia|]. intros bs [= <-]. f_equal. apply slice_contents; lia.
Qed.

(** ** Putting an inode *)

Lemma alter_twice {A} (f h : A -> A) i (l : list A) : alter f i (alter h i l) = alter (fun a => f (h a)) i l.
Proof. revert i. induction l as [|a l IH]; intros [|i]; cbn; [done..|]. f_equal. apply IH. Qed.
Lemma upd_ino_twice i f h s : upd_ino i f (upd_ino i h s) = upd_ino i (fun p => f (h p)) s.
Proof. unfold upd_ino, set_icache. cbn. by rewrite alter_twice. Qed.
Lemma upd_ino_ext i f h s : (i < length (f_icache s))%nat -> f (ino s i) = h (ino s i) -> upd_ino i f s = upd_ino i h s.
Proof.
  intros Hi E. unfold upd_ino. f_equal. apply list_eq. intros j. destruct (decide (i = j)) as [->|Hne]; [|by rewrite !list_lookup_alter_ne].
  rewrite !list_lookup_alter_eq. unfold ino in E. rewrite nth_lookup in E. by destruct (lookup_lt_is_Some_2 (f_icache s) j Hi) as [p Hp]; rewrite Hp in *; cbn in *; f_equal.
Qed.

Section Inode.
Context (me : nat) (mypid : Z) (i : nat).
Lemma runs_on_ilock {A} (f : M slctx A) s (Q : A -> fs -> Prop) :
  (forall c w, Spinlock.cpu_ok c -> exists a c' lk w', f (mk_slctx c (i_lock (ino s i)) w) = Ret a (mk_slctx c' lk w') /\ Spinlock.cpu_ok c' /\ Q a (with_ilock i lk s)) ->
  runs (on_ilock i f) s Q.
Proof.
  intros H g [Hl Hc] <-. destruct (H (g_cpu g) (g_wakes g) Hc) as (a & c' & lk & w' & E & Hc' & HQ).
  exists a. rewrite (on_ilock_run i f g a _ E). eexists. split; [reflexivity|]. done.
Qed.
Lemma settle_ok c : Spinlock.cpu_ok c -> Spinlock.cpu_ok (Sleeplock.settle c).
Proof. by destruct c. Qed.
Lemma runs_acquiresleep s (Q : unit -> fs -> Prop) : i_lock (ino s i) = Sleeplock.initsleeplock -> Q tt (with_ilock i (mine mypid) s) ->
  runs (on_ilock i (Sleeplock.acquiresleep me (ichan i) mypid)) s Q.
Proof.
  intros El HQ. apply runs_on_ilock. intros c w Hc. rewrite El, Sleeplock.acquiresleep_run by done. do 4 eexists.
  split; [reflexivity|]. split; [by apply settle_ok|done].
Qed.
Lemma runs_releasesleep s (Q : unit -> fs -> Prop) : i_lock (ino s i) = mine mypid -> Q tt (with_ilock i Sleeplock.initsleeplock s) ->
  runs (on_ilock i (Sleeplock.releasesleep me (ichan i))) s Q.
Proof.
  intros El HQ. apply runs_on_ilock. intros c w Hc. rewrite El, Sleeplock.releasesleep_run by done. do 4 eexists.
  split; [reflexivity|]. split; [by apply settle_ok|done].
Qed.
Lemma runs_holdingsleep s (Q : bool -> fs -> Prop) : i_lock (ino s i) = mine mypid -> Q true (with_ilock i (mine mypid) s) ->
  runs (on_ilock i (Sleeplock.holdingsleep me mypid)) s Q.
Proof.
  intros El HQ. apply runs_on_ilock. intros c w Hc. rewrite El, Sleeplock.holdingsleep_run by done. cbn. rewrite bool_decide_eq_true_2 by done. do 4 eexists.
  split; [reflexivity|]. split; [by apply settle_ok|done].
Qed.

Lemma leaves_end {A} (v : A) (Q : unit -> A -> Prop) : Q tt v -> leaves me (g_release me) v Q.
Proof. intros HQ g w Hg. exists tt. rewrite (g_release_run me g v w Hg). eexists. split; [reflexivity|]. split; [by apply out_cs_quiet|done]. Qed.
(** The inode after [iunlockput], when the file has a name. *)
Definition put_down (p : inode) : inode := set_ref (i32 (i_ref p - 1)) (set_ilock Sleeplock.initsleeplock p).
Lemma iunlockput_runs s : (i < length (f_icache s))%nat -> i_lock (ino s i) = mine mypid -> 1 <= i_ref (ino s i) -> i_nlink (ino s i) <> 0 ->
  runs (iunlockput me mypid i) s (fun _ s' => s' = upd_ino i put_down s).
Proof.
  intros Hi El Hr Hn. assert (Hlen : forall f s0, length (f_icache (upd_ino i f s0)) = length (f_icache s0)) by (intros; cbn; apply length_alter).
  assert (Hino : forall f s0, (i < length (f_icache s0))%nat -> ino (upd_ino i f s0) i = f (ino s0 i)) by (intros; by rewrite ino_upd, decide_True).
  unfold iunlockput, iunlock, iput. apply runs_bind, runs_bind, runs_holdingsleep; [done|]. apply runs_bind, runs_get.
  unfold with_ilock. rewrite Hino by done. cbn [negb orb i_ref set_ilock]. rewrite (proj2 (Z.ltb_ge _ _)) by lia.
  apply runs_releasesleep; [by rewrite Hino|]. unfold with_ilock. rewrite !upd_ino_twice.
  apply runs_bind, runs_acquiresleep; [by rewrite Hino|]. unfold with_ilock. rewrite !upd_ino_twice. apply runs_bind, runs_get. rewrite Hino by done.
  cbn [i_valid i_nlink set_ilock]. rewrite (proj2 (Z.eqb_neq _ _) Hn), andb_false_r. cbn [when]. apply runs_bind, runs_ret.
  apply runs_bind, runs_releasesleep; [by rewrite Hino|]. unfold with_ilock. rewrite !upd_ino_twice.
  apply runs_acquire, leaves_mod, leaves_end. rewrite upd_ino_twice. by apply upd_ino_ext.
Qed.
End Inode.

(** ** What [exec] makes of a file *)

Fixpoint plan_segments (n : nat) (C : list Z) (off sz : Z) (img : Z -> Z) : option (Z * (Z -> Z)) :=
  match n with
  | O => Some (sz, img)
  | S n' =>
      match read_at C off sizeof_proghdr with
      | None => None
      | Some b =>
          let ph := get_proghdr b in
          let fin := ph_vaddr ph + ph_memsz ph in
          if negb (ph_type ph =? ELF_PROG_LOAD) then plan_segments n' C (u32 (off + sizeof_proghdr)) sz img
          else if (ph_memsz ph <? ph_filesz ph) || (KERNBASE <=? fin) || (Z.max sz fin =? 0) || negb (ph_vaddr ph mod 4096 =? 0) then None
          else
            match (if ph_filesz ph =? 0 then Some [] else read_at C (ph_off ph) (ph_filesz ph)) with
            | None => None
            | Some bs => plan_segments n' C (u32 (off + sizeof_proghdr)) (Z.max sz fin) (overlay img (ph_vaddr ph) bs)
            end
      end
  end.

(** The strings are put below [sp], none below [floor]; the last one comes lowest. *)
Fixpoint plan_args (argv : list (list Z)) (argc sp : Z) (ust : list Z) (img : Z -> Z) (floor : Z) : option (Z * Z * list Z * (Z -> Z)) :=
  match argv with
  | [] => Some (argc, sp, ust, img)
  | s :: argv' =>
      let sp := (sp - (Z.of_nat (length s) + 1)) / 4 * 4 in
      if (argc >=? MAXARG) || (sp <? floor) then None
      else plan_args argv' (argc + 1) sp (ust ++ [sp]) (overlay img sp (s ++ [0])) floor
  end.

Record image := mk_image { im_sz : Z; im_bytes : Z -> Z; im_entry : Z; im_sp : Z }.
Definition plan_stack (argv : list (list Z)) (sz : Z) (img : Z -> Z) (entry : Z) : option image :=
  let top := npages sz * 4096 + 8192 in
  if KERNBASE <=? top then None
  else
    match plan_args argv 0 top [] img (top - 4096) with
    | None => None
    | Some (argc, sp, ust, img) =>
        let ustack := [4294967295; argc; sp - (argc + 1) * 4] ++ ust ++ [0] in
        let sp := sp - (3 + argc + 1) * 4 in
        if sp <? top - 4096 then None else Some (mk_image top (overlay img sp (ustack ≫= le_bytes)) entry sp)
    end.
Definition plan (C : list Z) (argv : list (list Z)) : option image :=
  match read_at C 0 sizeof_elfhdr with
  | None => None
  | Some b =>
      let eh := get_elfhdr b in
      if negb (eh_magic eh =? ELF_MAGIC) then None
      else
        match plan_segments (Z.to_nat (eh_phnum eh)) C (eh_phoff eh) 0 (fun _ => 0) with
        | None => None
        | Some (sz, img) => plan_stack argv sz img (eh_entry eh)
        end
  end.

Lemma plan_segments_le n C : forall off sz img sz' img', plan_segments n C off sz img = Some (sz', img') -> sz <= sz'.
Proof.
  induction n as [|n IH]; intros off sz img sz' img'; cbn [plan_segments]; [intros [= <- _]; lia|].
  destruct (read_at C off sizeof_proghdr) as [b|]; [|done]. destruct (negb _); [apply IH|]. destruct (_ || _); [done|].
  destruct (if _ =? 0 then _ else _); [|done]. intros E%IH. lia.
Qed.

Lemma plan_stack_sz argv sz img entry im : plan_stack argv sz img entry = Some im -> im_sz im = npages sz * 4096 + 8192.
Proof.
  unfold plan_stack. destruct (_ <=? _); [done|]. destruct (plan_args _ _ _ _ _ _) as [[[[? ?] ?] ?]|]; [|done]. destruct (_ <? _); [done|]. by intros [= <-].
Qed.
Lemma npages_pos sz : 0 <= sz -> 0 <= npages sz.
Proof. intros. apply Z.div_pos; lia. Qed.
Lemma plan_args_count argv : forall argc sp ust img floor argc' sp' ust' img',
  plan_args argv argc sp ust img floor = Some (argc', sp', ust', img') -> 0 <= argc <= MAXARG ->
  argc <= argc' <= MAXARG /\ Z.of_nat (length ust') = Z.of_nat (length ust) + (argc' - argc).
Proof.
  induction argv as [|s argv IH]; intros argc sp ust img floor argc' sp' ust' img'; cbn [plan_args]; [intros [= <- <- <- <-]; lia|].
  destruct (Z.geb_spec argc MAXARG); cbn [orb]; [done|]. destruct (_ <? _); [done|]. intros E Ha. destruct (IH _ _ _ _ _ _ _ _ _ E) as [H1 H2]; [lia|]. rewrite length_app in H2. cbn in H2. lia.
Qed.
Lemma words_length ws : Z.of_nat (length (ws ≫= le_bytes)) = 4 * Z.of_nat (length ws).
Proof. induction ws as [|w ws IH]; [done|]. rewrite bind_cons, length_app. change (length (le_bytes w)) with 4%nat. cbn [length]. lia. Qed.

(** ** Triples over the joint state *)

Record vst := mk_vst { v_fs : fs; v_km : kmem; v_pt : list proc; v_cr3 : Z; v_esp0 : Z }.
Definition view (x : xstate) : vst := mk_vst (g_val (e_fs x)) (e_km x) (e_pt x) (e_cr3 x) (e_esp0 x).
Definition put_km (k : kmem) (v : vst) : vst := mk_vst (v_fs v) k (v_pt v) (v_cr3 v) (v_esp0 v).
Definition put_fs (s : fs) (v : vst) : vst := mk_vst s (v_km v) (v_pt v) (v_cr3 v) (v_esp0 v).
Definition xquiet (x : xstate) : Prop := g_quiet (e_fs x) /\ e_klk x = Spinlock.initlock.

Definition xruns {B} (m : M xstate B) (v : vst) (Q : B -> vst -> Prop) : Prop :=
  forall x, xquiet x -> view x = v -> exists b x', m x = Ret b x' /\ xquiet x' /\ Q b (view x').
Lemma xruns_ret {B} (b : B) v (Q : B -> vst -> Prop) : Q b v -> xruns (mret b) v Q.
Proof. intros H x Hx <-. by exists b, x. Qed.
Lemma xruns_bind {B C} (m : M xstate B) (f : B -> M xstate C) v Q : xruns m v (fun b v' => xruns (f b) v' Q) -> xruns (m ≫= f) v Q.
Proof. intros H x Hx Hv. destruct (H x Hx Hv) as (b & x' & E & Hx' & H'). rewrite (bind_eq _ _ _ _ _ E). by apply (H' x'). Qed.
Lemma xruns_mono {B} (m : M xstate B) v (Q Q' : B -> vst -> Prop) : xruns m v Q -> (forall b v', Q b v' -> Q' b v') -> xruns m v Q'.
Proof. intros H HQ x Hx Hv. destruct (H x Hx Hv) as (b & x' & E & Hx' & H'). exists b, x'. auto. Qed.
Lemma xruns_EF {B} (m : M (guarded fs) B) v (Q : B -> vst -> Prop) : runs m (v_fs v) (fun b s => Q b (put_fs s v)) -> xruns (EF m) v Q.
Proof.
  intros H x [Hx Hk] <-. destruct (H (e_fs x) Hx eq_refl) as (b & g & E & Hg & HQ). exists b, (with_efs g x). unfold EF, zoom. by rewrite E.
Qed.
Lemma xruns_KM {B} (m : M (guarded kmem) B) v (Q : B -> vst -> Prop) : runs m (v_km v) (fun b k => Q b (put_km k v)) -> xruns (KM m) v Q.
Proof.
  intros H x [[Hx Hc] Hk] <-. destruct (H (km_view x) (conj Hk Hc) eq_refl) as (b & g & E & [Hg Hg'] & HQ). exists b, (with_km g x).
  unfold KM, zoom. by rewrite E.
Qed.
Ltac xstep :=
  match goal with
  | |- xruns (_ ≫= _) _ _ => apply xruns_bind
  | |- xruns (mret _) _ _ => apply xruns_ret
  | |- xruns (M_ret _) _ _ => apply xruns_ret
  | |- xruns (EF _) _ _ => apply xruns_EF
  | |- xruns (KM _) _ _ => apply xruns_KM
  | |- xruns (when true _) _ _ => cbn [when]
  | |- xruns (when false _) _ _ => cbn [when]
  end.
Ltac xsteps := repeat (xstep; cbv beta).
Lemma put_km_twice k k' v : put_km k (put_km k' v) = put_km k v.
Proof. done. Qed.
Lemma put_km_same v : put_km (v_km v) v = v.
Proof. by destruct v. Qed.

Section Load.
Context (kend : Z) (me : nat).
Hypothesis Hkend : KERNBASE < kend.
Context (data : Z).
Hypothesis Hdata : KERNLINK < data < KERNBASE + PHYSTOP.
Hypothesis Hdata_page : data mod 4096 = 0.
Context (devsw : Z -> dev_ops) (cur : nat).
(** The free pages and the memory when [exec] begins, and the page directory it makes. *)
Context (l0 : list Z) (k0 : kmem) (d : Z).
Hypothesis Hpool : pool kend l0 k0.

(** The file that is read. *)
Record readable (s : fs) (i : nat) : Prop := mk_readable {
  rb_fs : fs_ok s;
  rb_ino : inode_ok s i;
  rb_type : i_type (ino s i) <> T_DEV;
  rb_solid : solid s i }.

Section Segment.
Context (v : vst) (i : nat).
Hypothesis Hrb : readable (v_fs v) i.
Let C := contents (v_fs v) i.

Lemma file_size : Z.of_nat (length C) <= 71680.
Proof. unfold C. rewrite contents_len. pose proof (io_size _ _ (rb_ino _ _ Hrb)) as Hs. change (MAXFILE * BSIZE) with 71680 in Hs. lia. Qed.

(** The part of the segment that is there after [n] bytes. *)
Definition loaded (img : Z -> Z) (va off n : Z) : Z -> Z := overlay img va (take (Z.to_nat n) (drop (Z.to_nat off) C)).
Lemma loaded_more img va off n m a : 0 <= off -> 0 <= n -> 0 <= m -> off + n <= Z.of_nat (length C) ->
  overlay (loaded img va off n) (va + n) (take (Z.to_nat m) (drop (Z.to_nat (off + n)) C)) a = loaded img va off (n + m) a.
Proof.
  intros Ho Hn Hm Hl. unfold loaded. assert (En : length (take (Z.to_nat n) (drop (Z.to_nat off) C)) = Z.to_nat n) by (rewrite length_take, length_drop; lia).
  replace (va + n) with (va + Z.of_nat (length (take (Z.to_nat n) (drop (Z.to_nat off) C)))) by lia. rewrite overlay_app. f_equal.
  replace (Z.to_nat (off + n)) with (Z.to_nat off + Z.to_nat n)%nat by lia. rewrite <- drop_drop.
  replace (Z.to_nat (n + m)) with (Z.to_nat n + Z.to_nat m)%nat by lia. apply take_take_drop.
Qed.

Lemma loaduvm_loop_runs fuel : forall k l b img va off sz j,
  building kend data l0 k0 b (-1) (loaded img va off (Z.min (j * 4096) sz)) l d k -> 0 <= b <= 2 ^ 19 -> va mod 4096 = 0 -> 0 <= va -> va + sz <= b * 4096 ->
  0 <= off < 2 ^ 32 -> 0 <= sz -> 0 <= j -> (0 < j -> 0 < sz -> off + Z.min (j * 4096) sz <= Z.of_nat (length C)) -> sz < (j + Z.of_nat fuel - 1) * 4096 + 1 -> j * 4096 < sz + 4096 ->
  xruns (loaduvm_loop me devsw fuel d va i off sz (j * 4096)) (put_km k v) (fun r v' => exists k', v' = put_km k' v /\
    if bool_decide (sz = 0 \/ off + sz <= Z.of_nat (length C)) then r = 0 /\ building kend data l0 k0 b (-1) (loaded img va off sz) l d k'
    else r = -1 /\ exists img', building kend data l0 k0 b (-1) img' l d k').
Proof.
  induction fuel as [|fuel IH]; intros k l b img va off sz j B Hb Hva Hva0 Hend Ho Hsz Hj Hl Hf Hjs; [lia|]. cbn [loaduvm_loop].
  destruct (Z.ltb_spec (j * 4096) sz) as [Hlt|Hge]; cbn [negb].
  2:{ apply xruns_ret. exists k. split; [done|]. rewrite Z.min_r in * by lia. rewrite bool_decide_eq_true_2; [done|].
      destruct (Z.eq_dec sz 0); [by left|right]. apply Hl; lia. }
  rewrite Z.min_l in * by lia. pose proof file_size as HC. set (p := va / 4096 + j).
  assert (Ep : va + j * 4096 = p * 4096) by (unfold p; pose proof (Z.div_mod va 4096 ltac:(lia)); lia).
  assert (Hp : 0 <= p < b) by lia. rewrite (u32_small (va + j * 4096)), Ep by lia.
  destruct (user_entry kend Hkend data _ _ _ _ _ _ _ _ p B Hp ltac:(lia)) as (Hu & Hpr & _ & Ha).
  xsteps. eapply runs_mono; [apply (walk_present kend me Hkend l d k (p * 4096)); [apply (ow_space _ _ _ _ _ _ _ (bd_owned _ _ _ _ _ _ _ _ _ _ B))|lia|by rewrite vpn_mul]|].
  rewrite vpn_mul. intros pte k1 (-> & Hpte & _ & _ & Er). rewrite (proj2 (Z.eqb_neq _ _) Hpte). rewrite put_km_twice. unfold rd. xsteps. rsteps. cbn [v_km put_km].
  rewrite Er, Ha, (P2V_V2P kend Hkend) by done. rewrite put_km_twice. set (n := if _ <? PGSIZE then _ else _).
  assert (Hn : n = Z.min 4096 (sz - j * 4096)) by (unfold n, PGSIZE; destruct (Z.ltb_spec (sz - j * 4096) 4096); lia). clearbody n.
  assert (Eo : u32 (off + j * 4096) = off + j * 4096).
  { apply u32_small. destruct (Z.eq_dec j 0) as [->|]; [lia|]. specialize (Hl ltac:(lia) ltac:(lia)). lia. }
  rewrite Eo. assert (Ho' : 0 <= off + j * 4096 < 2 ^ 32) by (destruct (Z.eq_dec j 0) as [->|]; [lia|]; specialize (Hl ltac:(lia) ltac:(lia)); lia).
  unfold readi_to. xsteps. cbn [v_fs put_km].
  eapply runs_mono; [apply (readi_solid devsw (v_fs v) i (off + j * 4096) n); [apply Hrb|apply Hrb|apply Hrb|apply Hrb|done|lia]|]. fold C.
  intros [r bs] s' (-> & Ern & Hbl & Ebs). cbn [fst snd] in *. xsteps. rsteps. cbn [v_km put_km put_fs]. xsteps. rewrite Ern.
  set (k' := put_cells (upage k d p) bs k). change (put_km k' _) with (put_km k' v).
  assert (B' : building kend data l0 k0 b (-1) (overlay (loaded img va off (j * 4096)) (p * 4096 + 0) bs) l d k').
  { unfold k'. rewrite <- (Z.add_0_r (upage k d p)). apply building_write; (done || lia). }
  unfold read_at in Ebs |- *. destruct (Z.leb_spec (off + j * 4096 + n) (Z.of_nat (length C))) as [Hin|Hout].
  - rewrite bool_decide_eq_true_2 by done. cbn [negb]. specialize (Ebs _ eq_refl) as [= -> ->]. unfold PGSIZE. rewrite u32_small by lia.
    replace (j * 4096 + 4096) with ((j + 1) * 4096) by lia. apply IH; try done; try lia. rewrite Z.add_0_r in B'.
    eapply building_ext; [|exact B']. intros a. rewrite <- Ep, loaded_more by lia. f_equal. lia.
  - rewrite bool_decide_eq_false_2 by (intros [? ?]; done). cbn [negb]. apply xruns_ret. exists k'. split; [done|].
    rewrite bool_decide_eq_false_2 by lia. split; [done|]. by eexists.
Qed.

Definition segment (off sz : Z) : option (list Z) := if sz =? 0 then Some [] else read_at C off sz.
Lemma loaduvm_runs k l b img va off sz :
  building kend data l0 k0 b (-1) img l d k -> 0 <= b <= 2 ^ 19 -> va mod 4096 = 0 -> 0 <= va -> va + sz <= b * 4096 -> 0 <= off < 2 ^ 32 -> 0 <= sz ->
  xruns (loaduvm me devsw d va i off sz) (put_km k v) (fun r v' => exists k', v' = put_km k' v /\
    match segment off sz with
    | Some bs => r = 0 /\ building kend data l0 k0 b (-1) (overlay img va bs) l d k'
    | None => r = -1 /\ exists img', building kend data l0 k0 b (-1) img' l d k'
    end).
Proof.
  intros B Hb Hva Hva0 Hend Ho Hsz. unfold loaduvm, PGSIZE. unfold ctrue. rewrite Hva. cbn [Z.eqb negb]. change 0 with (0 * 4096) at 1.
  pose proof (Z.div_mod sz 4096 ltac:(lia)). pose proof (Z.mod_pos_bound sz 4096 ltac:(lia)). pose proof (Z.div_pos sz 4096 ltac:(lia) ltac:(lia)).
  eapply xruns_mono; [apply (loaduvm_loop_runs _ k l b img va off sz 0); try done; try lia|].
  - eapply building_ext; [|exact B]. intros a. unfold loaded. rewrite Z.min_l by lia. cbn [Z.mul Z.to_nat take]. by rewrite overlay_nil.
  - cbv beta. intros r v' (k' & -> & Hr). exists k'. split; [done|]. unfold segment, read_at. destruct (Z.eqb_spec sz 0) as [->|Hne].
    + rewrite bool_decide_eq_true_2 in Hr by (by left). destruct Hr as [-> B']. split; [done|]. eapply building_ext; [|exact B']. done.
    + destruct (Z.leb_spec (off + sz) (Z.of_nat (length C))).
      * by rewrite bool_decide_eq_true_2 in Hr by (by right).
      * by rewrite bool_decide_eq_false_2 in Hr by lia.
Qed.

Lemma file_bytes : Forall (fun x => 0 <= x < 256) C.
Proof.
  apply Forall_lookup. intros j x Hx. unfold C, contents, slice in Hx. apply list_lookup_fmap_Some in Hx as (y & -> & Hy%lookup_seqZ). destruct Hy as [-> Hj].
  pose proof (io_size _ _ (rb_ino _ _ Hrb)) as Hs. change (MAXFILE * BSIZE) with 71680 in Hs. unfold file_byte, BSIZE. set (q := 0 + Z.of_nat j) in *.
  destruct (fdata_ok (v_fs v) i (q / 512) (rb_fs _ _ Hrb) (rb_ino _ _ Hrb)) as [Hl Hf].
  { change MAXFILE with 140. split; [apply Z.div_pos; lia|apply Z.div_lt_upper_bound; lia]. }
  pose proof (Z.mod_pos_bound q 512 ltac:(lia)). unfold byte_at. rewrite nth_lookup.
  destruct (lookup_lt_is_Some_2 (fdata (v_fs v) i (q / 512)) (Z.to_nat (q mod 512))) as [y Hy]; [lia|]. rewrite Hy. rewrite Forall_lookup in Hf. by apply (Hf _ _ Hy).
Qed.
Lemma read_bytes off n bs : read_at C off n = Some bs -> Forall (fun x => 0 <= x < 256) bs.
Proof. unfold read_at. destruct (_ <=? _); [|done]. intros [= <-]. apply Forall_take, Forall_drop, file_bytes. Qed.

(** A page allocation failed because too few pages were free. *)
Definition short (o : option (Z * (Z -> Z))) : Prop := forall sz img, o = Some (sz, img) -> Z.of_nat (length l0) <= 1025 + 2 * npages sz.
Definition gone (k : kmem) : Prop := exists b l, owned kend l0 k0 b l d k /\ 0 <= b <= 2 ^ 19.
Lemma building_gone b g img l k : building kend data l0 k0 b g img l d k -> 0 <= b <= 2 ^ 19 -> gone k.
Proof. intros B Hb. exists b, l. split; [apply B|done]. Qed.
Lemma too_few b g img l k newb : building kend data l0 k0 b g img l d k -> 0 <= b -> Z.of_nat (length l) < 2 * (newb - b) -> Z.of_nat (length l0) <= 1025 + 2 * newb.
Proof.
  intros [[S P F] _ _ _ _] Hb Hl. destruct Hpool as (_ & Hnd & _).
  pose proof (space_size l0 d k b l Hb Hnd (fun x Hx => proj1 (P x) Hx)). lia.
Qed.

Lemma grow_to k l g img sz fin : building kend data l0 k0 (npages sz) g img l d k -> g < npages sz -> 0 <= sz <= KERNBASE -> 0 <= fin < 2 ^ 32 ->
  runs (allocuvm kend me d sz fin) k (fun r k' =>
    (fin < KERNBASE /\ r = Z.max sz fin /\ exists l', building kend data l0 k0 (npages (Z.max sz fin)) g img l' d k') \/
    (r = 0 /\ gone k' /\ (KERNBASE <= fin \/ Z.of_nat (length l0) <= 1025 + 2 * npages fin))).
Proof.
  intros B Hg Hsz Hfin. pose proof (npages_range sz ltac:(unfold KERNBASE in Hsz; lia)) as Hnp. destruct (Z.le_gt_cases KERNBASE fin) as [Hk|Hk].
  { unfold allocuvm. replace (fin >=? KERNBASE) with true by lia. rsteps. right. split; [done|]. split; [by eapply building_gone|by left]. }
  destruct (Z.lt_ge_cases fin sz) as [Hlt|Hge].
  { unfold allocuvm. replace (fin >=? KERNBASE) with false by lia. replace (fin <? sz) with true by lia. rsteps. left. rewrite Z.max_l by lia. split_and!; [done..|by exists l]. }
  rewrite Z.max_r by lia. eapply runs_mono; [apply (allocuvm_builds kend me Hkend data Hdata l0 k0 sz g img l d k fin B); lia|].
  intros r k' [[-> B']|(-> & Hl & l' & O')]; [by left|right]. split; [done|]. split; [by exists (npages sz), l'|]. right. eapply too_few; [exact B|lia|done].
Qed.

Lemma load_segments_runs n : forall k l img off sz,
  building kend data l0 k0 (npages sz) (-1) img l d k -> 0 <= sz < KERNBASE -> 0 <= off < 2 ^ 32 ->
  xruns (load_segments kend me devsw n i d off sz) (put_km k v) (fun r v' => exists k', v' = put_km k' v /\
    match r with
    | Some sz' => 0 <= sz' < KERNBASE /\ exists img' l', plan_segments n C off sz img = Some (sz', img') /\ building kend data l0 k0 (npages sz') (-1) img' l' d k'
    | None => gone k' /\ short (plan_segments n C off sz img)
    end).
Proof.
  induction n as [|n IH]; intros k l img off sz B Hsz Ho; cbn [load_segments plan_segments].
  { apply xruns_ret. exists k. split; [done|]. split; [done|]. by exists img, l. }
  pose proof (npages_range sz ltac:(unfold KERNBASE in Hsz; lia)) as Hnp. pose proof (building_gone _ _ _ _ _ B Hnp) as G0.
  xsteps. eapply runs_mono; [apply (readi_solid devsw (v_fs v) i off sizeof_proghdr); [apply Hrb|apply Hrb|apply Hrb|apply Hrb|done|by vm_compute]|]. fold C.
  intros [r bs] s' (-> & Er & _ & Ebs). cbn [fst snd] in *. rewrite Er. destruct (read_at C off sizeof_proghdr) as [hb|] eqn:Eh.
  2:{ rewrite bool_decide_eq_false_2 by (by intros [? ?]). cbn [negb]. apply xruns_ret. exists k. split; [done|]. split; [done|]. by intros sz' img'. }
  rewrite bool_decide_eq_true_2 by done. cbn [negb]. specialize (Ebs _ eq_refl) as [= -> ->]. set (ph := get_proghdr hb).
  change (put_fs (v_fs v) (put_km k v)) with (put_km k v).
  assert (Ho' : 0 <= u32 (off + sizeof_proghdr) < 2 ^ 32) by (apply Z.mod_pos_bound; lia).
  assert (Hf : forall o, 0 <= get32 hb o < 2 ^ 32) by (intros o; exact (get_le_range 4 hb o (read_bytes _ _ _ Eh))).
  pose proof (Hf 4%nat : 0 <= ph_off ph < _) as F1. pose proof (Hf 8%nat : 0 <= ph_vaddr ph < _) as F2.
  pose proof (Hf 16%nat : 0 <= ph_filesz ph < _) as F3. pose proof (Hf 20%nat : 0 <= ph_memsz ph < _) as F4. clearbody ph.
  destruct (negb (ph_type ph =? ELF_PROG_LOAD)); [by apply (IH k l)|].
  assert (Hno : forall k', gone k' -> exists k1, put_km k' v = put_km k1 v /\ gone k1 /\ short None) by (intros k' G'; exists k'; split_and!; [done..|by intros sz' img']).
  destruct (Z.ltb_spec (ph_memsz ph) (ph_filesz ph)) as [|Hms]; cbn [orb]; [apply xruns_ret; by apply Hno|].
  set (fin := ph_vaddr ph + ph_memsz ph). destruct (Z.lt_ge_cases fin (2 ^ 32)) as [Hfin|Hfin].
  2:{ replace (u32 fin <? ph_vaddr ph) with true; [replace (KERNBASE <=? fin) with true by (unfold KERNBASE; lia); apply xruns_ret; by apply Hno|].
      symmetry. apply Z.ltb_lt. unfold u32. rewrite <- (Z.mod_add fin (-1)) by lia. rewrite Z.mod_small by lia. lia. }
  rewrite (u32_small fin) by lia. rewrite (proj2 (Z.ltb_ge fin (ph_vaddr ph))) by lia. xsteps. cbn [v_km put_km].
  eapply runs_mono; [apply (grow_to k l (-1) img sz fin B); lia|]. intros r k1 Hr. rewrite put_km_twice. destruct Hr as [(Hk & -> & l1 & B1)|(-> & G1 & Hs)].
  2:{ change (0 =? 0) with true. cbv iota. apply xruns_ret. exists k1. split; [done|]. split; [done|]. destruct Hs as [Hk|Hs].
      - replace (KERNBASE <=? fin) with true by lia. by intros sz' img'.
      - intros sz' img'. destruct (_ || _); [done|]. destruct (if _ =? 0 then _ else _); [|done]. intros E%plan_segments_le.
        assert (npages fin <= npages sz') by (apply Z.div_le_mono; lia). lia. }
  replace (KERNBASE <=? fin) with false by lia. cbn [orb]. assert (Hnp1 : 0 <= npages (Z.max sz fin) <= 2 ^ 19) by (apply npages_range; unfold KERNBASE in *; lia).
  destruct (Z.eqb_spec (Z.max sz fin) 0) as [|Hnz]; cbn [orb]; [apply xruns_ret; apply Hno; by eapply building_gone|]. unfold ctrue, PGSIZE.
  destruct (Z.eqb_spec (ph_vaddr ph mod 4096) 0) as [Hal|]; cbn [negb]; [|apply xruns_ret; apply Hno; by eapply building_gone].
  xsteps. eapply xruns_mono; [apply (loaduvm_runs k1 l1 _ img (ph_vaddr ph) (ph_off ph) (ph_filesz ph) B1); try lia|].
  { pose proof (npages_spec (Z.max sz fin) (npages (Z.max sz fin))). lia. }
  cbv beta. intros r v' (k2 & -> & Hr). fold (segment (ph_off ph) (ph_filesz ph)). destruct (segment (ph_off ph) (ph_filesz ph)) as [bs|].
  - destruct Hr as [-> B2]. change (0 <? 0) with false. cbv iota. apply (IH k2 l1); [done|lia|done].
  - destruct Hr as [-> [img' B2]]. change (-1 <? 0) with true. cbv iota. apply xruns_ret, Hno. by eapply building_gone.
Qed.
End Segment.

(** ** The stack *)

Lemma land_word z : 0 <= z < 2 ^ 32 -> Z.land z 4294967292 = z / 4 * 4.
Proof.
  intros Hz. change 4294967292 with (Z.land (Z.ones 32) (Z.lnot (Z.ones 2))).
  rewrite Z.land_assoc, Z.land_ones, Z.mod_small, <- Z.ldiff_land, Z.ldiff_ones_r by lia.
  rewrite Z.shiftr_div_pow2, Z.shiftl_mul_pow2 by lia. done.
Qed.
(** The address the code computes, in 32 bits. *)
Lemma word_below sp n : 0 <= sp < 2 ^ 31 -> 0 <= n <= 2 ^ 24 -> let q := (sp - n) / 4 * 4 in
  Z.land (u32 (sp - n)) 4294967292 = (if q <? 0 then 2 ^ 32 + q else q) /\ sp - n - 4 < q <= sp - n.
Proof.
  intros Hsp Hn q. assert (Hq : sp - n - 4 < q <= sp - n) by (unfold q; pose proof (Z.div_mod (sp - n) 4 ltac:(lia)); pose proof (Z.mod_pos_bound (sp - n) 4 ltac:(lia)); lia).
  split; [|done]. destruct (Z.lt_ge_cases (sp - n) 0) as [Hneg|Hpos].
  - assert (Eu : u32 (sp - n) = sp - n + 1 * 2 ^ 32) by (unfold u32; rewrite <- (Z.mod_add (sp - n) 1) by lia; rewrite Z.mod_small by lia; lia).
    rewrite Eu, land_word by lia. change (1 * 2 ^ 32) with (1073741824 * 4). rewrite Z.div_add by lia. fold q. replace (q <? 0) with true by lia. unfold q. lia.
  - rewrite u32_small, land_word by lia. fold q. by replace (q <? 0) with false by (unfold q; pose proof (Z.div_pos (sp - n) 4 ltac:(lia) ltac:(lia)); lia).
Qed.

Lemma push_args_runs v argv : forall k l img argc sp ust b,
  building kend data l0 k0 b (b - 2) img l d k -> 2 <= b < 2 ^ 19 -> (b - 1) * 4096 <= sp <= b * 4096 ->
  Forall (fun s => Z.of_nat (length s) + 1 <= 2 ^ 24) argv ->
  xruns (push_args me d argv argc sp ust) (put_km k v) (fun r v' => exists k', v' = put_km k' v /\
    match r with
    | Some (argc', sp', ust') => (b - 1) * 4096 <= sp' <= b * 4096 /\ exists img',
        plan_args argv argc sp ust img ((b - 1) * 4096) = Some (argc', sp', ust', img') /\ building kend data l0 k0 b (b - 2) img' l d k'
    | None => plan_args argv argc sp ust img ((b - 1) * 4096) = None /\ gone k'
    end).
Proof.
  induction argv as [|s argv IH]; intros k l img argc sp ust b B Hb Hsp Hlen; cbn [push_args plan_args].
  { apply xruns_ret. exists k. split; [done|]. split; [done|]. by exists img. }
  apply Forall_cons in Hlen as [Hs Hlen]. destruct (argc >=? MAXARG); cbn [orb].
  { apply xruns_ret. exists k. split_and!; [done..|]. eapply building_gone; [exact B|lia]. }
  set (n := Z.of_nat (length s) + 1) in *. destruct (word_below sp n ltac:(lia) ltac:(lia)) as [-> Hq]. set (q := (sp - n) / 4 * 4) in *.
  assert (Hl : Z.of_nat (length (s ++ [0])) = n) by (rewrite length_app; cbn; lia). assert (Hl0 : (0 < length (s ++ [0%Z]))%nat) by lia.
  xsteps. cbn [v_km put_km]. destruct (Z.ltb_spec q ((b - 1) * 4096)) as [Hlow|Hfit].
  - eapply runs_mono; [apply (copyout_short kend me Hkend data Hdata Hdata_page l0 k0 b img l d k _ _ B); [lia| |done|]|].
    + destruct (Z.ltb_spec q 0); [right; unfold DEVSPACE|left]; lia.
    + destruct (Z.ltb_spec q 0); [unfold DEVSPACE|]; lia.
    + intros r k' [-> [img' B']]. change (-1 <? 0) with true. cbv iota. apply xruns_ret. exists k'. split_and!; [done..|]. eapply building_gone; [exact B'|lia].
  - replace (q <? 0) with false by lia. eapply runs_mono; [apply (copyout_page kend me Hkend data l0 k0 b _ img l d k (b - 1) q _ B); lia|].
    intros r k' [-> B']. change (0 <? 0) with false. cbv iota. rewrite put_km_twice. apply IH; (done || lia).
Qed.

(** ** Going over to the program *)

Lemma switchuvm_runs p v (Q : unit -> vst -> Prop) : p_kstack p <> 0 -> p_pgdir p <> 0 ->
  Q tt (mk_vst (v_fs v) (v_km v) (v_pt v) (V2P (p_pgdir p)) (u32 (p_kstack p + KSTACKSIZE))) -> xruns (switchuvm p) v Q.
Proof.
  intros Hs Hd HQ x [[Hl [Hn Hi]] Hk] <-. unfold switchuvm. rewrite (proj2 (Z.eqb_neq _ _) Hs), (proj2 (Z.eqb_neq _ _) Hd).
  erewrite bind_eq by (unfold CPU, zoom; rewrite Spinlock.pushcli_run; reflexivity). erewrite bind_eq by reflexivity.
  unfold CPU, zoom. cbn [e_fs with_efs g_cpu]. rewrite Spinlock.popcli_run by done. eexists tt, _. split; [reflexivity|].
  split; [|exact HQ]. split; [|done]. split; [done|]. split; cbn; [done|]. intros H0. by replace (ncli (g_cpu (e_fs x)) =? 0) with false by lia.
Qed.
Lemma xruns_getp i p v (Q : proc -> vst -> Prop) : v_pt v !! i = Some p -> Q p v -> xruns (xgetp i) v Q.
Proof. intros Hp HQ x Hx <-. exists p, x. unfold xgetp. munfold. cbn in Hp. by rewrite Hp. Qed.
Lemma xruns_updp i f v (Q : unit -> vst -> Prop) : Q tt (mk_vst (v_fs v) (v_km v) (alter f i (v_pt v)) (v_cr3 v) (v_esp0 v)) -> xruns (xupdp i f) v Q.
Proof. intros HQ x Hx <-. eexists tt, _. split; [reflexivity|]. done. Qed.

(** The process running the program. *)
Definition runs_program (path : list Z) (sz entry sp : Z) (p : proc) : proc :=
  set_tf (set_exec_tf entry sp (p_tf p)) (set_sz sz (set_pgdir d (set_name (take 15 (last_elem path path)) p))).

(** The pages that were free or the old program's are free or the new one's. *)
Definition recycled (b : Z) (p : proc) (l : list Z) (k : kmem) : Prop := forall x,
  (x ∈ l0 \/ table_page k0 (p_pgdir p) x \/ exists m, 0 <= m < npages (p_sz p) /\ x = upage k0 (p_pgdir p) m) <->
  (x ∈ l \/ table_page k d x \/ exists m, 0 <= m < b /\ x = upage k d m).

Lemma exec_commit_runs v k l b g img path sz entry sp p :
  building kend data l0 k0 b g img l d k -> 0 <= b <= 2 ^ 19 -> v_pt v !! cur = Some p -> p_kstack p <> 0 ->
  umem kend (p_sz p) l0 (p_pgdir p) k0 -> 0 <= p_sz p < 2 ^ 31 ->
  xruns (exec_commit kend me cur path d sz entry sp) (put_km k v) (fun r v' => r = 0 /\ exists k' l',
    v' = mk_vst (v_fs v) k' (<[cur := runs_program path sz entry sp p]> (v_pt v)) (V2P d) (u32 (p_kstack p + KSTACKSIZE)) /\
    program kend data b g img l' d k' /\
    recycled b p l' k').
Proof.
  intros B Hb Hp Hks S0 Hsz. assert (Hd : d <> 0) by (destruct (tb_dir _ _ _ _ (sp_tables _ _ _ _ _ (ow_space _ _ _ _ _ _ _ (bd_owned _ _ _ _ _ _ _ _ _ _ B)))) as (_ & _ & _ & ?); lia).
  assert (Hcur : (cur < length (v_pt v))%nat) by (by eapply lookup_lt_Some).
  unfold exec_commit. apply xruns_bind, xruns_updp. cbn [v_pt put_km v_fs v_km v_cr3 v_esp0]. rewrite (list_alter_insert _ _ _ _ Hp).
  apply xruns_bind. eapply xruns_getp; [by apply list_lookup_insert_eq|]. apply xruns_bind, xruns_updp. cbn [v_pt v_fs v_km v_cr3 v_esp0].
  rewrite (list_alter_insert _ _ _ _ (list_lookup_insert_eq _ _ _ Hcur)), list_insert_insert_eq.
  apply xruns_bind. eapply xruns_getp; [by apply list_lookup_insert_eq|]. apply xruns_bind. apply switchuvm_runs; [done|done|].
  cbn [v_pt v_fs v_km v_cr3 v_esp0]. xsteps. cbn [v_km]. eapply runs_mono; [by apply (program_replaces kend me Hkend data Hdata l0 k0 b g img l d k (p_sz p) (p_pgdir p) B)|].
  intros _ k' (l' & P' & L'). xsteps. split; [done|]. by exists k', l'.
Qed.

(** Everything is free again that was. *)
Definition untouched (k : kmem) : Prop := exists l, pool kend l k /\ frame kend l0 k0 k /\ forall x, x ∈ l <-> x ∈ l0.
Lemma bad_runs v k pid : gone k -> d <> 0 ->
  xruns (exec_bad kend me pid d None) (put_km k v) (fun r v' => r = -1 /\ exists k', v' = put_km k' v /\ untouched k').
Proof.
  intros (b & l & O & Hb) Hd. unfold exec_bad, ctrue. rewrite (proj2 (Z.eqb_neq _ _) Hd). cbn [negb when]. xsteps. cbn [v_km put_km].
  eapply runs_mono; [apply (owned_freed kend me Hkend data Hdata l0 k0 b l d k O Hb)|]. intros [] k' H'. cbv beta in H'. xsteps. split; [done|]. exists k'. split; [done|exact H'].
Qed.

(** What comes of [o], the program there should be. *)
Definition ran (v : vst) (path : list Z) (p : proc) (o : option image) (r : Z) (v' : vst) : Prop :=
  (r = 0 /\ exists im k' l', o = Some im /\
     v' = mk_vst (v_fs v) k' (<[cur := runs_program path (im_sz im) (im_entry im) (im_sp im) p]> (v_pt v)) (V2P d) (u32 (p_kstack p + KSTACKSIZE)) /\
     program kend data (npages (im_sz im)) (npages (im_sz im) - 2) (im_bytes im) l' d k' /\ recycled (npages (im_sz im)) p l' k') \/
  (r = -1 /\ (forall im, o = Some im -> Z.of_nat (length l0) <= 1025 + 2 * npages (im_sz im)) /\ exists k', v' = put_km k' v /\ untouched k').

Lemma exec_stack_runs v k l img pid path argv sz entry p :
  building kend data l0 k0 (npages sz) (-1) img l d k -> 0 <= sz < KERNBASE -> Forall (fun s => Z.of_nat (length s) + 1 <= 2 ^ 24) argv ->
  v_pt v !! cur = Some p -> p_kstack p <> 0 -> umem kend (p_sz p) l0 (p_pgdir p) k0 -> 0 <= p_sz p < 2 ^ 31 ->
  xruns (exec_stack kend me cur pid path argv d sz entry) (put_km k v) (ran v path p (plan_stack argv sz img entry)).
Proof.
  intros B Hsz Hargs Hp Hks S0 Hosz. pose proof (npages_range sz ltac:(unfold KERNBASE in Hsz; lia)) as Hnp.
  assert (Hd : d <> 0) by (destruct (tb_dir _ _ _ _ (sp_tables _ _ _ _ _ (ow_space _ _ _ _ _ _ _ (bd_owned _ _ _ _ _ _ _ _ _ _ B)))) as (_ & _ & _ & ?); lia).
  assert (HK : KERNBASE = 2147483648) by reflexivity. unfold exec_stack, plan_stack. rewrite PGROUNDUP_is by lia. fold (npages sz). set (n := npages sz) in *. change (2 * PGSIZE) with 8192.
  assert (En : forall m, npages (m * 4096) = m) by (intros m; unfold npages; symmetry; apply (Z.div_unique _ _ _ 4095); lia). rewrite <- (En n) in B at 1.
  rewrite u32_small by lia. replace (n * 4096 + 8192) with ((n + 2) * 4096) by lia. set (b := n + 2) in *.
  assert (Hbad : forall k1 o, gone k1 -> (forall im, o = Some im -> Z.of_nat (length l0) <= 1025 + 2 * npages (im_sz im)) ->
    xruns (exec_bad kend me pid d None) (put_km k1 v) (ran v path p o)).
  { intros k1 o G1 H1. eapply xruns_mono; [by apply bad_runs|]. intros r v' [-> H2]. by right. }
  xsteps. cbn [v_km put_km]. eapply runs_mono; [apply (grow_to k l (-1) img (n * 4096) (b * 4096) B); rewrite ?En; lia|].
  intros r k1 Hr. rewrite put_km_twice. rewrite Z.max_r in Hr by lia. rewrite En in Hr. destruct Hr as [(Hk & -> & l1 & B1)|(-> & G1 & Hs)].
  2:{ change (0 =? 0) with true. cbv iota. apply Hbad; [done|]. intros im. destruct (Z.leb_spec KERNBASE (b * 4096)); [done|]. destruct Hs as [?|Hs]; [lia|].
      destruct (plan_args _ _ _ _ _ _) as [[[[argc sp] ust] img']|]; [|done]. destruct (_ <? _); [done|]. intros [= <-]. cbn [im_sz]. by rewrite En. }
  replace (KERNBASE <=? b * 4096) with false by lia. rewrite (proj2 (Z.eqb_neq _ _)) by lia. rewrite u32_small by lia. replace (b * 4096 - 8192) with (n * 4096) by lia.
  replace (b * 4096 - 4096) with ((b - 1) * 4096) by lia. xsteps. cbn [v_km put_km].
  eapply runs_mono; [apply (clearpteu_builds kend me Hkend data l0 k0 b img l1 d k1 n B1); lia|]. intros [] k2 B2. cbv beta in B2. rewrite put_km_twice. replace n with (b - 2) in B2 by lia.
  apply xruns_bind. eapply xruns_mono; [apply (push_args_runs v argv k2 l1 img 0 (b * 4096) [] b B2); (done || lia)|]. cbv beta. intros o v' (k3 & -> & Ho).
  destruct o as [[[argc sp] ust]|]; [|destruct Ho as [-> G3]; by apply Hbad].
  destruct Ho as (Hsp & img3 & Epl & B3). rewrite Epl. destruct (plan_args_count _ _ _ _ _ _ _ _ _ _ Epl) as [Hc Hu]; [by vm_compute|]. unfold MAXARG in Hc. cbn [length] in Hu.
  rewrite !u32_small by lia. set (ws := [4294967295; argc; sp - (argc + 1) * 4] ++ ust ++ [0]).
  assert (Hw : Z.of_nat (length (ws ≫= le_bytes)) = (3 + argc + 1) * 4) by (rewrite words_length; unfold ws; rewrite !length_app; cbn [length]; lia).
  set (sp' := sp - (3 + argc + 1) * 4) in *. xsteps. cbn [v_km put_km]. destruct (Z.ltb_spec sp' ((b - 1) * 4096)) as [Hlow|Hfit].
  - eapply runs_mono; [apply (copyout_short kend me Hkend data Hdata Hdata_page l0 k0 b img3 l1 d k3 sp' _ B3); lia|].
    intros r k4 [-> [img4 B4]]. change (-1 <? 0) with true. cbv iota. rewrite put_km_twice. apply Hbad; [eapply building_gone; [exact B4|lia]|done].
  - eapply runs_mono; [apply (copyout_page kend me Hkend data l0 k0 b _ img3 l1 d k3 (b - 1) sp' _ B3); lia|].
    intros r k4 [-> B4]. change (0 <? 0) with false. cbv iota. rewrite put_km_twice.
    eapply xruns_mono; [eapply exec_commit_runs; [exact B4|lia|done..]|]. intros r v' (-> & k' & l' & Hv & P' & R'). left. split; [done|].
    eexists _, k', l'. split; [reflexivity|]. cbn [im_sz im_entry im_sp im_bytes]. rewrite En. done.
Qed.
End Load.

(** ** What the program finds on its stack *)

Definition word (img : Z -> Z) (a : Z) : Z := img a + 256 * img (a + 1) + 65536 * img (a + 2) + 16777216 * img (a + 3).
(** The string [s] with its NUL at [a]. *)
Definition string_at (img : Z -> Z) (a : Z) (s : list Z) : Prop := forall t c, (s ++ [0]) !! t = Some c -> img (a + Z.of_nat t) = c.
(** The return address, [argc], [argv] and what [argv] points to. *)
Record passes (argv : list (list Z)) (im : image) : Prop := mk_passes {
  ps_return : word (im_bytes im) (im_sp im) = 4294967295;
  ps_argc : word (im_bytes im) (im_sp im + 4) = Z.of_nat (length argv);
  ps_argv : word (im_bytes im) (im_sp im + 8) = im_sp im + 12;
  ps_strings : forall j s, argv !! j = Some s -> string_at (im_bytes im) (word (im_bytes im) (im_sp im + 12 + 4 * Z.of_nat j)) s;
  ps_end : word (im_bytes im) (im_sp im + 12 + 4 * Z.of_nat (length argv)) = 0 }.

Lemma word_of w : 0 <= w < 2 ^ 32 -> w mod 256 + 256 * (w / 256 mod 256) + 65536 * (w / 65536 mod 256) + 16777216 * (w / 16777216 mod 256) = w.
Proof.
  intros Hw. change 65536 with (256 * 256). change 16777216 with (256 * 256 * 256). rewrite <- !Z.div_div by lia.
  pose proof (Z.div_mod w 256 ltac:(lia)). pose proof (Z.div_mod (w / 256) 256 ltac:(lia)). pose proof (Z.div_mod (w / 256 / 256) 256 ltac:(lia)).
  assert (0 <= w / 256 / 256 / 256 < 256) by (rewrite !Z.div_div by lia; split; [apply Z.div_pos; lia|apply Z.div_lt_upper_bound; lia]).
  rewrite (Z.mod_small (w / 256 / 256 / 256)) by lia. lia.
Qed.
Lemma word_overlay img a ws j w : ws !! j = Some w -> 0 <= w < 2 ^ 32 -> word (overlay img a (ws ≫= le_bytes)) (a + 4 * Z.of_nat j) = w.
Proof.
  intros Hj Hw. assert (Hb : forall t c, le_bytes w !! t = Some c -> (t < 4)%nat -> overlay img a (ws ≫= le_bytes) (a + 4 * Z.of_nat j + Z.of_nat t) = c).
  { intros t c Ht Hlt. replace (a + 4 * Z.of_nat j + Z.of_nat t) with (a + Z.of_nat (4 * j + t)) by lia. apply overlay_in.
    clear Hw. revert j Hj. induction ws as [|u ws IH]; intros j Hj; [done|]. rewrite bind_cons. destruct j as [|j].
    - injection Hj as ->. rewrite lookup_app_l; [done|]. cbn. lia.
    - rewrite lookup_app_r by (cbn; lia). cbn [length le_bytes]. replace (4 * S j + t - 4)%nat with (4 * j + t)%nat by lia. by apply IH. }
  unfold word. pose proof (Hb 0%nat _ eq_refl ltac:(lia)) as H0. rewrite Z.add_0_r in H0. rewrite H0.
  pose proof (Hb 1%nat _ eq_refl ltac:(lia)) as H1. pose proof (Hb 2%nat _ eq_refl ltac:(lia)) as H2. pose proof (Hb 3%nat _ eq_refl ltac:(lia)) as H3.
  change (Z.of_nat 1) with 1 in H1. change (Z.of_nat 2) with 2 in H2. change (Z.of_nat 3) with 3 in H3. rewrite H1, H2, H3. by apply word_of.
Qed.

(** Where each argument went. *)
Lemma plan_args_strings argv : forall argc sp ust img floor argc' sp' ust' img',
  plan_args argv argc sp ust img floor = Some (argc', sp', ust', img') -> floor <= sp ->
  floor <= sp' <= sp /\ argc' = argc + Z.of_nat (length argv) /\ (forall a, sp <= a -> img' a = img a) /\
  exists new, ust' = ust ++ new /\ length new = length argv /\ forall j s a, argv !! j = Some s -> new !! j = Some a -> sp' <= a <= sp /\ string_at img' a s.
Proof.
  induction argv as [|s argv IH]; intros argc sp ust img floor argc' sp' ust' img'; cbn [plan_args].
  { intros [= <- <- <- <-] Hsp. cbn. split; [lia|]. split; [lia|]. split; [done|]. exists []. by rewrite app_nil_r. }
  destruct (argc >=? MAXARG); cbn [orb]; [done|]. set (n := Z.of_nat (length s) + 1). set (q := (sp - n) / 4 * 4). destruct (Z.ltb_spec q floor) as [|Hq]; [done|].
  assert (Hqs : q <= sp - n) by (unfold q; pose proof (Z.div_mod (sp - n) 4 ltac:(lia)); pose proof (Z.mod_pos_bound (sp - n) 4 ltac:(lia)); lia).
  intros E Hsp. destruct (IH _ _ _ _ _ _ _ _ _ E ltac:(lia)) as (H1 & H2 & H3 & new & -> & H4 & H5). assert (Hl : Z.of_nat (length (s ++ [0])) = n) by (rewrite length_app; cbn; lia).
  split; [lia|]. split; [cbn; lia|]. split; [intros a Ha; rewrite H3, overlay_out by lia; done|]. exists (q :: new). rewrite <- app_assoc. split; [done|]. split; [cbn; lia|].
  intros [|j] s' a Hs Ha; cbn in Hs, Ha; [|destruct (H5 j s' a Hs Ha); split; [lia|done]]. injection Hs as <-. injection Ha as <-. split; [lia|].
  intros t c Ht. rewrite H3 by lia. by apply overlay_in.
Qed.

Lemma plan_passes argv sz img entry im : plan_stack argv sz img entry = Some im -> 0 <= sz -> passes argv im.
Proof.
  unfold plan_stack. intros Hpl Hsz. assert (Hn : 0 <= npages sz) by (apply Z.div_pos; lia). destruct (Z.leb_spec KERNBASE (npages sz * 4096 + 8192)) as [|Htop]; [done|].
  set (top := npages sz * 4096 + 8192) in *. unfold KERNBASE in Htop.
  destruct (plan_args argv 0 top [] img (top - 4096)) as [[[[argc sp] ust] img']|] eqn:E; [|done]. destruct (Z.ltb_spec (sp - (3 + argc + 1) * 4) (top - 4096)) as [|Hsp]; [done|].
  injection Hpl as <-. destruct (plan_args_strings _ _ _ _ _ _ _ _ _ _ E ltac:(lia)) as (H1 & -> & _ & new & -> & Hnew & H5). cbn [app] in *. rewrite Z.add_0_l in *.
  set (n := Z.of_nat (length argv)) in *. set (sp' := sp - (3 + n + 1) * 4) in *. set (ws := 4294967295 :: n :: sp - (n + 1) * 4 :: new ++ [0]).
  assert (Hw : forall j w a, ws !! j = Some w -> 0 <= w < 2 ^ 32 -> a = sp' + 4 * Z.of_nat j -> word (overlay img' sp' (ws ≫= le_bytes)) a = w).
  { intros j w a Hj Hr ->. by apply word_overlay. }
  assert (Hlw : Z.of_nat (length (ws ≫= le_bytes)) = (3 + n + 1) * 4) by (rewrite words_length; unfold ws; cbn [length]; rewrite length_app; cbn [length]; lia).
  constructor; cbn [im_bytes im_sp]; change (overlay img' sp' _) with (overlay img' sp' (ws ≫= le_bytes)).
  - apply (Hw 0%nat); [done|lia|lia].
  - apply (Hw 1%nat); [done|lia|lia].
  - rewrite (Hw 2%nat (sp - (n + 1) * 4)); [lia|done|lia|lia].
  - intros j s Hj. pose proof (lookup_lt_Some _ _ _ Hj). destruct (lookup_lt_is_Some_2 new j) as [a Ha]; [lia|]. destruct (H5 j s a Hj Ha) as [Hra Hst].
    rewrite (Hw (3 + j)%nat a); [|unfold ws; cbn; by apply lookup_app_l_Some|lia|lia]. intros t c Ht. rewrite overlay_out; [by apply Hst|lia].
  - rewrite (Hw (3 + length argv)%nat 0); [done| |lia|lia]. change ((new ++ [0]) !! length argv = Some 0). rewrite <- Hnew. by rewrite lookup_app_r, Nat.sub_diag by lia.
Qed.

(** ** The whole of [exec] *)

(** The inode as [ilock] leaves it: locked, and read from the disk if it was not there. *)
Definition opened (pid : Z) (i : nat) (s : fs) : fs :=
  let s' := with_ilock i (mine pid) s in
  if i_valid (ino s i) then s' else upd_ino i (get_dinode (f_view s (IBLOCK (i_inum (ino s i)) (f_sb s))) (di_off (i_inum (ino s i)))) s'.
(** A file that can be run: nobody has it locked, it has a name, and no holes. *)
Record executable (pid : Z) (s : fs) (i : nat) : Prop := mk_executable {
  ex_idx : (i < length (f_icache s))%nat;
  ex_lock : i_lock (ino s i) = Sleeplock.initsleeplock;
  ex_ref : 1 <= i_ref (ino s i);
  ex_block : IBLOCK (i_inum (ino s i)) (f_sb s) < f_disksize s;
  ex_type : i_type (ino (opened pid i s) i) <> 0;
  ex_nlink : i_nlink (ino (opened pid i s) i) <> 0;
  ex_read : readable (opened pid i s) i }.

Lemma ilock_runs me pid i s : executable pid s i -> runs (ilock me pid (Some i)) s (fun _ s' => s' = opened pid i s).
Proof.
  intros [Hi Hl Hr Hb Ht _ _]. unfold ilock. rsteps. rewrite (proj2 (Z.ltb_ge _ _)) by lia. apply runs_bind, runs_acquiresleep; [done|]. rsteps.
  rewrite ino_ilock by done. cbn [i_valid set_ilock]. unfold opened in *. destruct (i_valid (ino s i)); cbn [negb when]; rsteps; [done|].
  apply bread_runs; [done|]. rsteps. cbn [i_inum set_ilock].
  change (f_view (with_ilock i (mine pid) s)) with (f_view s). change (f_sb (with_ilock i (mine pid) s)) with (f_sb s).
  rewrite (proj2 (Z.eqb_neq _ _) Ht). by rsteps.
Qed.
Lemma opened_ino pid i s : executable pid s i -> (i < length (f_icache (opened pid i s)))%nat /\
  i_lock (ino (opened pid i s) i) = mine pid /\ i_ref (ino (opened pid i s) i) = i_ref (ino s i).
Proof.
  intros [Hi _ _ _ _ _ _]. unfold opened. destruct (i_valid (ino s i)).
  - rewrite ino_ilock by done. split; [cbn; by rewrite length_alter|done].
  - rewrite ino_upd, decide_True, ino_ilock by (done || (cbn; by rewrite length_alter)). split; [cbn; by rewrite !length_alter|done].
Qed.
Lemma end_op_runs s (Q : unit -> fs -> Prop) : Q tt (ended s) -> runs end_op s Q.
Proof. intros HQ g Hg <-. unfold end_op. erewrite bind_eq by reflexivity. eexists tt, _. split; [reflexivity|]. done. Qed.

Section Whole.
Context (kend : Z) (me : nat).
Hypothesis Hkend : KERNBASE < kend.
Context (data : Z).
Hypothesis Hdata : KERNLINK < data < KERNBASE + PHYSTOP.
Hypothesis Hdata_page : data mod 4096 = 0.
Context (devsw : Z -> dev_ops) (cur : nat).

(** The file put away, and the transaction over. *)
Definition closed (pid : Z) (i : nat) (s : fs) : fs := ended (upd_ino i put_down (opened pid i s)).

Lemma put_away v i s pid (Q : unit -> vst -> Prop) : executable pid s i -> v_fs v = opened pid i s -> Q tt (put_fs (closed pid i s) v) ->
  xruns (EF (iunlockput me pid i) ;; EF end_op) v Q.
Proof.
  intros X Es HQ. destruct (opened_ino pid i s X) as (Hi & Hl & Hr). xsteps. rewrite Es.
  eapply runs_mono; [apply iunlockput_runs; [done|done|rewrite Hr; apply X|apply X]|]. intros _ s' ->. apply xruns_EF. by apply end_op_runs.
Qed.
Lemma bad_file v i s pid l0 k0 d k :
  (d = 0 /\ k = v_km v /\ untouched kend l0 k0 k) \/ (d <> 0 /\ gone kend l0 k0 d k) -> executable pid s i -> v_fs v = opened pid i s ->
  xruns (exec_bad kend me pid d (Some i)) (put_km k v) (fun r v' => r = -1 /\ exists k', v' = put_km k' (put_fs (closed pid i s) v) /\ untouched kend l0 k0 k').
Proof.
  intros Hd X Es. unfold exec_bad. apply xruns_bind. eapply (xruns_mono _ _ (fun _ v' => exists k', v' = put_km k' v /\ untouched kend l0 k0 k')).
  - destruct Hd as [(-> & -> & U)|[Hd (b & l & O & Hb)]]; unfold ctrue; [cbn [Z.eqb negb when]; apply xruns_ret; by eexists|].
    rewrite (proj2 (Z.eqb_neq _ _) Hd). cbn [negb when]. xsteps. cbn [v_km put_km].
    eapply runs_mono; [apply (owned_freed kend me Hkend data Hdata l0 k0 b l d k O Hb)|]. intros [] k' H'. cbv beta in H'. exists k'. split; [done|exact H'].
  - intros [] v' (k' & -> & U). apply xruns_bind. eapply put_away; [exact X|done|]. xsteps. split; [done|]. by exists k'.
Qed.

Lemma failed_ran l0 k0 v path p o r v' : (forall im, o = Some im -> Z.of_nat (length l0) <= 1025 + 2 * npages (im_sz im)) ->
  (r = -1 /\ exists k', v' = put_km k' v /\ untouched kend l0 k0 k') -> exists d, ran kend data cur l0 k0 d v path p o r v'.
Proof. intros Ho [-> H]. exists 0. by right. Qed.

Lemma exec_inode_runs v i pid path argv p l0 :
  executable pid (v_fs v) i -> umem kend (p_sz p) l0 (p_pgdir p) (v_km v) -> 0 <= p_sz p < 2 ^ 31 -> v_pt v !! cur = Some p -> p_kstack p <> 0 ->
  Forall (fun s => Z.of_nat (length s) + 1 <= 2 ^ 24) argv ->
  xruns (exec_inode kend data me devsw cur pid path argv i) v (fun r v' => exists d,
    ran kend data cur l0 (v_km v) d (put_fs (closed pid i (v_fs v)) v) path p (plan (contents (opened pid i (v_fs v)) i) argv) r v').
Proof.
  intros X S0 Hosz Hp Hks Hargs. pose proof (tb_pool _ _ _ _ (sp_tables _ _ _ _ _ S0)) as Hpool. pose proof (ex_read _ _ _ X) as Hrb.
  set (s := v_fs v) in *. set (k0 := v_km v) in *. set (s1 := opened pid i s) in *. set (v1 := put_fs s1 v). set (C := contents s1 i).
  set (v2 := put_fs (closed pid i s) v). assert (U0 : untouched kend l0 k0 k0) by (exists l0; split_and!; done).
  assert (Hbad0 : forall o, (forall im, o = Some im -> Z.of_nat (length l0) <= 1025 + 2 * npages (im_sz im)) -> forall k, untouched kend l0 k0 k ->
    xruns (exec_bad kend me pid 0 (Some i)) (put_km k v1) (fun r v' => exists d, ran kend data cur l0 k0 d v2 path p o r v')).
  { intros o Ho k U. eapply xruns_mono; [apply (bad_file (put_km k v1) i s pid l0 k0 0 k); [by left|done|done]|]. intros r v' H. by apply failed_ran. }
  unfold exec_inode, plan. apply xruns_bind, xruns_EF. eapply runs_mono; [by apply ilock_runs|]. intros _ s' ->. change (put_fs _ v) with v1.
  apply xruns_bind, xruns_EF. eapply runs_mono; [apply (readi_solid devsw s1 i 0 sizeof_elfhdr); [apply Hrb|apply Hrb|apply Hrb|apply Hrb|lia|by vm_compute]|].
  fold C. intros [r bs] s' (-> & Er & _ & Ebs). cbn [fst snd] in *. rewrite Er. change (put_fs s1 v1) with (put_km k0 v1).
  destruct (read_at C 0 sizeof_elfhdr) as [hb|] eqn:Eh; [|by rewrite bool_decide_eq_false_2 by (by intros [? ?]); apply Hbad0].
  rewrite bool_decide_eq_true_2 by done. cbn [negb]. specialize (Ebs _ eq_refl) as [= -> ->]. set (eh := get_elfhdr hb).
  destruct (negb (eh_magic eh =? ELF_MAGIC)); [by apply Hbad0|]. xsteps. cbn [v_km put_km].
  eapply runs_mono; [apply (setupkvm_runs kend me Hkend data Hdata Hdata_page l0 k0 Hpool)|]. intros d k1 [(Hd & l1 & S1 & M1 & E1)|(-> & Hlen & l1 & P1 & F1 & El)].
  2:{ change (0 =? 0) with true. cbv iota. apply (Hbad0 _ ); [|by exists l1]. intros im. destruct (plan_segments _ _ _ _ _) as [[sz img]|] eqn:E; [|done].
      intros ->%plan_stack_sz. apply plan_segments_le in E. pose proof (npages_pos sz E). pose proof (npages_pos (npages sz * 4096 + 8192)). lia. }
  rewrite (proj2 (Z.eqb_neq _ _) Hd). rewrite put_km_twice. apply xruns_bind.
  eapply xruns_mono; [apply (load_segments_runs kend me Hkend data Hdata devsw l0 k0 d Hpool v1 i Hrb _ k1 l1 (fun _ => 0)); [by apply (building_start kend data l0)|unfold KERNBASE; lia|]|].
  { exact (get_le_range 4 hb 28 (read_bytes v1 i Hrb _ _ _ Eh)). }
  cbv beta. change (contents (v_fs v1) i) with C. intros o v' (k2 & -> & Ho). destruct o as [sz|].
  - destruct Ho as (Hsz & img & l2 & -> & B2). destruct (opened_ino pid i s X) as (Hi & Hl & Hr). fold s1 in Hi, Hl, Hr.
    apply xruns_bind, xruns_EF. change (v_fs (put_km k2 v1)) with s1. eapply runs_mono; [apply iunlockput_runs; [done|done|rewrite Hr; apply X|apply X]|]. intros _ s' ->.
    apply xruns_bind, xruns_EF, end_op_runs. change (put_fs _ _) with (put_km k2 v2).
    eapply xruns_mono; [by apply (exec_stack_runs kend me Hkend data Hdata Hdata_page cur l0 k0 d Hpool v2 k2 l2 img pid path argv sz (eh_entry eh) p)|].
    intros r v' H. by exists d.
  - destruct Ho as [G2 Hs]. eapply xruns_mono; [apply (bad_file v1 i s pid l0 k0 d k2); [by right|done|done]|]. intros r v' H. apply failed_ran; [|exact H].
    intros im. destruct (plan_segments _ _ _ _ _) as [[sz img]|] eqn:E; [|done]. intros ->%plan_stack_sz. specialize (Hs _ _ eq_refl).
    apply plan_segments_le in E. assert (npages sz <= npages (npages sz * 4096 + 8192)); [|lia]. apply Z.div_le_mono; [lia|]. pose proof (npages_spec sz (npages sz)). lia.
Qed.

(** A process calls [exec]: nothing is locked, the log has room for a transaction, and
    [namei] finds the file, inode [i], leaving the file system as in [g]. *)
Record exec_call (x : xstate) (path : list Z) (p pp : proc) (l : list Z) (i : nat) (g : guarded fs) : Prop := mk_exec_call {
  xc_quiet : xquiet x;
  xc_proc : e_pt x !! cur = Some p;
  xc_parent : exists j, p_parent p = Some j /\ e_pt x !! j = Some pp;
  xc_room : Z.of_nat (length (f_logged (g_val (e_fs x)))) + (f_outstanding (g_val (e_fs x)) + 1) * MAXOPBLOCKS <= FS_LOGSIZE;
  xc_name : exists cwd, p_cwd p = Some cwd /\
    namei me (p_pid p) devsw cwd path (mk_g (g_cpu (e_fs x)) (g_lk (e_fs x)) (begun (g_val (e_fs x))) (g_wakes (e_fs x))) = Ret (Some i) g;
  xc_found : g_quiet g;
  xc_file : executable (p_pid p) (g_val g) i;
  xc_space : umem kend (p_sz p) l (p_pgdir p) (e_km x);
  xc_size : 0 <= p_sz p < 2 ^ 31;
  xc_kstack : p_kstack p <> 0 }.

(** Children of the shell, process 2, go to queue 2, whether [exec] succeeds or not. *)
Definition queued (pp p : proc) : proc := if p_pid pp =? 2 then set_queue 2 p else p.

Lemma exec_runs x path argv p pp l i g : exec_call x path p pp l i g -> Forall (fun s => Z.of_nat (length s) + 1 <= 2 ^ 24) argv ->
  exists r x' d, exec kend data me devsw cur path argv x = Ret r x' /\ xquiet x' /\
    ran kend data cur l (e_km x) d (mk_vst (closed (p_pid p) i (g_val g)) (e_km x) (<[cur := queued pp p]> (e_pt x)) (e_cr3 x) (e_esp0 x))
      path (queued pp p) (plan (contents (opened (p_pid p) i (g_val g)) i) argv) r (view x').
Proof.
  intros [Hq Hp (j & Hj & Hpp) Hroom (cwd & Hcwd & Hn) Hg X S0 Hsz Hks] Hargs. unfold exec.
  rewrite (bind_eq (xgetp cur) _ x p x) by (unfold xgetp; munfold; by rewrite Hp). rewrite Hj.
  rewrite (bind_eq (of_option NullDeref (Some j)) _ x j x) by done. rewrite (bind_eq (xgetp j) _ x pp x) by (unfold xgetp; munfold; by rewrite Hpp).
  set (x1 := mk_xstate (e_fs x) (e_klk x) (e_km x) (<[cur := queued pp p]> (e_pt x)) (e_cr3 x) (e_esp0 x)).
  assert (E1 : when (p_pid pp =? 2) (xupdp cur (set_queue 2)) x = Ret tt x1).
  { unfold x1, queued. destruct (p_pid pp =? 2); [unfold xupdp; munfold; by rewrite (list_alter_insert _ _ _ _ Hp)|].
    rewrite list_insert_id by done. by destruct x. }
  rewrite (bind_eq _ _ _ _ _ E1). set (g1 := mk_g _ _ (begun _) _) in Hn.
  assert (Eb : EF begin_op x1 = Ret tt (with_efs g1 x1)).
  { unfold EF, zoom, begin_op. munfold. unfold g_get. munfold. cbn [e_fs x1]. by replace (_ >? FS_LOGSIZE) with false by lia. }
  rewrite (bind_eq _ _ _ _ _ Eb), Hcwd. erewrite (bind_eq (if bool_decide _ then _ else _) _ _ cwd) by (by destruct (bool_decide _)).
  assert (En : EF (namei me (p_pid p) devsw cwd path) (with_efs g1 x1) = Ret (Some i) (with_efs g x1)) by (unfold EF, zoom; cbn [e_fs with_efs]; by rewrite Hn).
  rewrite (bind_eq _ _ _ _ _ En). set (x2 := with_efs g x1). assert (Hq2 : xquiet x2) by (split; [done|apply Hq]).
  assert (Hpq : p_sz (queued pp p) = p_sz p /\ p_pgdir (queued pp p) = p_pgdir p /\ p_kstack (queued pp p) = p_kstack p) by (unfold queued; by destruct (p_pid pp =? 2)).
  destruct Hpq as (Q1 & Q2 & Q3). destruct (exec_inode_runs (view x2) i (p_pid p) path argv (queued pp p) l) with (x := x2) as (r & x' & E & Hq' & d & R);
    [done|by rewrite Q1, Q2|by rewrite Q1|cbn; apply list_lookup_insert_eq; by eapply lookup_lt_Some|by rewrite Q3|done|done|done|].
  exists r, x', d. split; [exact E|]. split; [done|exact R].
Qed.

(** C11: [exec] of a file that is a program, with enough free memory for it, makes the
    process run it: it returns 0 to a page directory of the program's own that shows the
    segments of the file, zeroes elsewhere and the arguments on the stack, above a page the
    program cannot reach; all pages of the old program are free again, the processor is on
    the new page directory, the trap frame has the entry point and the stack pointer, and
    the file is closed and the transaction over. *)
Theorem exec_runs_program x path argv p pp l i g im :
  exec_call x path p pp l i g -> Forall (fun s => Z.of_nat (length s) + 1 <= 2 ^ 24) argv ->
  plan (contents (opened (p_pid p) i (g_val g)) i) argv = Some im -> 1025 + 2 * npages (im_sz im) < Z.of_nat (length l) ->
  exists x' d l', exec kend data me devsw cur path argv x = Ret 0 x' /\ xquiet x' /\
    e_pt x' = <[cur := runs_program d path (im_sz im) (im_entry im) (im_sp im) (queued pp p)]> (e_pt x) /\ e_cr3 x' = V2P d /\
    program kend data (npages (im_sz im)) (npages (im_sz im) - 2) (im_bytes im) l' d (e_km x') /\ passes argv im /\
    recycled l (e_km x) d (npages (im_sz im)) p l' (e_km x') /\ g_val (e_fs x') = closed (p_pid p) i (g_val g).
Proof.
  intros X Hargs Hpl Hmem. destruct (exec_runs x path argv p pp l i g X Hargs) as (r & x' & d & E & Hq & [(-> & im' & k' & l' & Eo & Hv & P & R)|(_ & Hs & _)]).
  2:{ specialize (Hs _ Hpl). lia. }
  rewrite Hpl in Eo. injection Eo as <-. exists x', d, l'. injection Hv as Hv1 Hv2 Hv3 Hv4 Hv5. subst k'. split; [done|]. split; [done|].
  split; [by rewrite Hv3; cbn; rewrite list_insert_insert_eq|]. split; [done|]. split; [done|]. split; [|split; [|done]].
  - unfold plan in Hpl. destruct (read_at _ _ _) as [hb|]; [|done]. destruct (negb _); [done|]. destruct (plan_segments _ _ _ _ _) as [[sz img]|] eqn:Es; [|done].
    apply plan_segments_le in Es. by eapply plan_passes.
  - unfold recycled, queued in *. by destruct (p_pid pp =? 2).
Qed.

End Whole.

(** ** A program that is run *)

(** Four bytes of code at address 0, in sixteen bytes of memory. *)
Definition demo_elf : list Z :=
  [127; 69; 76; 70] ++ replicate 20 0 ++ [0; 0; 0; 0] ++ [52; 0; 0; 0] ++ replicate 12 0 ++ [1; 0] ++ replicate 6 0 ++
  ([1; 84; 0; 0; 4; 16; 7; 0] ≫= le_bytes) ++ [235; 254; 144; 144].
(** A directory with one file, the program. *)
Definition demo_root : list Z := dirent 2 [112].
Definition exec_view (b : Z) : list Z :=
  if b =? 4 then 127 :: replicate 511 0 else if b =? 5 then demo_root ++ replicate 496 0 else if b =? 6 then demo_elf ++ replicate 424 0 else replicate 512 0.
Definition exec_ino (inum type size ref a : Z) : inode := mk_inode 1 inum ref Sleeplock.initsleeplock true type 0 0 1 size (a :: replicate 12 0).
Definition exec_fs (out ref : Z) : fs := mk_fs demo_sb 20 exec_view [] out [exec_ino 1 T_DIR 16 1 5; exec_ino 2 T_FILE 88 ref 6].
Definition demo_shell : proc := set_pid 2 proc_zero.
Definition demo_child : proc := set_kstack 4096 (set_pgdir demo_kend (set_parent (Some 0%nat) (set_cwd (Some 0%nat) (set_pid 3 proc_zero)))).
Definition demo_exec : xstate :=
  mk_xstate (mk_g (mk_cpu 0 false true) Spinlock.initlock (exec_fs 0 1) []) Spinlock.initlock many_vm [demo_shell; demo_child] (V2P demo_kend) 8192.
Lemma demo_found_is : exists g,
  namei 0 (p_pid demo_child) no_dev 0 [112] (mk_g (g_cpu (e_fs demo_exec)) (g_lk (e_fs demo_exec)) (begun (g_val (e_fs demo_exec))) (g_wakes (e_fs demo_exec))) =
    Ret (Some 1%nat) g /\ g_quiet g /\ g_val g = exec_fs 1 2.
Proof.
  eexists (result_state _). split; [apply ret_of; vm_compute; reflexivity|]. split; [|vm_compute; reflexivity].
  split; [vm_compute; reflexivity|split; vm_compute; discriminate].
Qed.

Lemma exec_fs_ok r : fs_ok (exec_fs 1 r).
Proof.
  assert (Hz : forall n, Forall byte_ok (replicate n 0)) by (intros n; apply Forall_replicate; unfold byte_ok; lia).
  assert (Hd : forall l, forallb (fun x => (0 <=? x) && (x <? 256)) l = true -> Forall byte_ok l).
  { intros l H. apply Forall_forall. intros x Hx. rewrite forallb_forall in H. specialize (H x (proj1 (list_elem_of_In _ _) Hx)). unfold byte_ok. lia. }
  constructor; try done.
  - intros b _. cbn [exec_fs f_view]. unfold exec_view. destruct (b =? 4); [split; [done|]; apply Hd; vm_compute; done|].
    destruct (b =? 5); [split; [done|]; apply Hd; vm_compute; done|]. destruct (b =? 6); [split; [done|]; apply Hd; vm_compute; done|]. apply zeros_ok.
  - intros b Hb. change (data_start (exec_fs 1 r)) with 5 in Hb. assert (Hc : b = 0 \/ b = 1 \/ b = 2 \/ b = 3 \/ b = 4) by lia.
    by repeat destruct Hc as [->|Hc]; try subst b.
Qed.
Lemma exec_addr k : 0 <= k <= 140 -> addr (exec_fs 1 2) 1 k = if k =? 0 then 6 else 0.
Proof.
  intros Hk. assert (H : forallb (fun k => addr (exec_fs 1 2) 1 k =? (if k =? 0 then 6 else 0)) (seqZ 0 141) = true) by (vm_compute; reflexivity).
  rewrite forallb_forall in H. apply Z.eqb_eq, H, list_elem_of_In, elem_of_seqZ. lia.
Qed.
Lemma exec_inode_ok : inode_ok (exec_fs 1 2) 1.
Proof.
  constructor; try done.
  - cbn. lia.
  - intros k Hk. rewrite exec_addr by done. destruct (k =? 0); [|done]. intros _. split; [split; by vm_compute|by vm_compute].
  - intros k k' Hk Hk'. rewrite !exec_addr by done. destruct (Z.eqb_spec k 0), (Z.eqb_spec k' 0); try done; lia.
Qed.
Lemma demo_executable : executable 3 (exec_fs 1 2) 1.
Proof.
  assert (S : same_file (exec_fs 1 2) 1 (opened 3 1 (exec_fs 1 2))) by (apply same_ilock; cbn; lia).
  constructor; try done; [cbn; lia|]. constructor; [|apply (same_inode_ok _ _ _ S), exec_inode_ok|done|].
  - apply (same_fs_ok _ _ _ S); [apply exec_fs_ok|done].
  - intros bn Hbn Hs. rewrite (same_addr _ _ _ S). rewrite (sf_size _ _ _ S) in Hs. change (i_size (ino (exec_fs 1 2) 1)) with 88 in Hs. unfold BSIZE in Hs.
    assert (bn = 0) as -> by lia. done.
Qed.
Lemma demo_call : exists g, exec_call demo_kend 0 no_dev 1 demo_exec [112] demo_child demo_shell many_free 1 g /\ g_val g = exec_fs 1 2.
Proof.
  destruct demo_found_is as (g & E & Hg & Ev). exists g. split; [|done]. constructor.
  - split; [split; [reflexivity|]; split; cbn; lia|reflexivity].
  - reflexivity.
  - exists 0%nat. split; reflexivity.
  - cbn. unfold MAXOPBLOCKS, FS_LOGSIZE. lia.
  - exists 0%nat. split; [reflexivity|exact E].
  - exact Hg.
  - rewrite Ev. exact demo_executable.
  - exact many_space.
  - cbn. lia.
  - discriminate.
Qed.
(** The program has the name [p] and gets two arguments. *)
Definition demo_args : list (list Z) := [[112]; [104; 105]].

Lemma exec_runs_program_witness :
  exists x' d l' im, exec demo_kend 2148552704 0 no_dev 1 [112] demo_args demo_exec = Ret 0 x' /\
    program demo_kend 2148552704 3 1 (im_bytes im) l' d (e_km x') /\ passes demo_args im /\ e_cr3 x' = V2P d.
Proof.
  destruct demo_call as (g & X & Ev). assert (Hpl : im_sz <$> plan (contents (opened 3 1 (exec_fs 1 2)) 1) demo_args = Some 12288) by (vm_compute; reflexivity).
  destruct (plan (contents (opened 3 1 (exec_fs 1 2)) 1) demo_args) as [im|] eqn:E; [|done]. injection Hpl as Hsz.
  destruct (exec_runs_program demo_kend 0 ltac:(reflexivity) 2148552704 ltac:(split; reflexivity) eq_refl no_dev 1 demo_exec [112] demo_args demo_child demo_shell many_free 1 g im X)
    as (x' & d & l' & Ex & _ & _ & Hc & P & Pa & _).
  - repeat constructor; cbn; lia.
  - rewrite Ev. exact E.
  - rewrite Hsz. change (npages 12288) with 3. unfold many_free. rewrite length_map, length_seqZ. lia.
  - exists x', d, l', im. rewrite Hsz in P. split_and!; done.
Defined.


(** The first process has no parent, and its [exec] of [/init] follows the null pointer. *)
Theorem exec_no_parent kend data me devsw cur path argv x p : e_pt x !! cur = Some p -> p_parent p = None ->
  fault_of (exec kend data me devsw cur path argv x) = Some NullDeref.
Proof. intros Hp Hn. unfold exec, xgetp. munfold. rewrite Hp. cbn. by rewrite Hn. Qed.
