(* ===== verification/Syscall.v ===== *)
(** System calls: fetching their arguments from user memory and dispatching them
    ([syscall.c]), and the calls on processes ([sysproc.c]).

    User memory is an interface ([Class UserMem]): a load at a user address goes through
    the page directory and faults if the page is not there; [Vm]'s page tables implement
    it.  The calls on files, shared memory and the Fibonacci table act on the rest of the
    state and are an interface too ([Class SysEnv]).  A system call gives [Some] the value
    it returns, or [None] when the process has gone to sleep in it, or has exited. *)

From S2P Require Import Prelude CString Printf Locks ProcDefs Sched ProcLife ProcInfo Numeric Guarded Kalloc Vm VmSpace.

Class UserMem (E : Type) := {
  mapped : E -> Z -> Z -> Prop;
  ubyte : E -> Z -> Z -> Z;
  uload : Z -> Z -> M E Z;
  uload_mapped : forall e pgdir va, mapped e pgdir va -> uload pgdir va e = Ret (ubyte e pgdir va) e }.

(** [tickslock], and the calls of the other components. *)
Class SysEnv (E : Type) := {
  env_tickslock : E -> spinlock;
  env_set_tickslock : spinlock -> E -> E;
  env_fibonacci_number : Z -> M E Z;
  env_open_sharedmem : nat -> Z -> M (kst E) Z;
  env_close_sharedmem : nat -> Z -> M (kst E) Z;
  env_calculate_factorial : nat -> Z -> Z -> M (kst E) unit;
  env_sysfile : nat -> Z -> option (M (kst E) (option Z)) }.

Section Syscall.
Context {E : Type} `{UserMem E}.
Notation K := (M (kst E)).

(** ** Arguments *)

Definition curproc (me : nat) : K proc := i ← P (myproc me); P (getp i).

(** [*(int * )addr] of the process with page directory [pgdir]. *)
Definition load_int (pgdir addr : Z) : K Z :=
  b0 ← X (uload pgdir addr);
  b1 ← X (uload pgdir (addr + 1));
  b2 ← X (uload pgdir (addr + 2));
  b3 ← X (uload pgdir (addr + 3));
  mret (i32 (b0 + 256 * b1 + 65536 * b2 + 16777216 * b3)).

Definition fetchint (me : nat) (addr : Z) : K (option Z) :=
  p ← curproc me;
  if (addr >=? p_sz p) || (u32 (addr + 4) >? p_sz p) then mret None
  else v ← load_int (p_pgdir p) addr; mret (Some v).

(** The loop from [s] on; [n] is [ep - s]. *)
Fixpoint fetchstr_loop (n : nat) (pgdir s : Z) (len : Z) : K (option Z) :=
  match n with
  | O => mret None
  | S n' =>
      c ← X (uload pgdir s);
      if c =? 0 then mret (Some len) else fetchstr_loop n' pgdir (s + 1) (len + 1)
  end.
(** [*pp] and the length. *)
Definition fetchstr (me : nat) (addr : Z) : K (option (Z * Z)) :=
  p ← curproc me;
  if addr >=? p_sz p then mret None
  else
    r ← fetchstr_loop (Z.to_nat (p_sz p - addr)) (p_pgdir p) addr 0;
    mret ((fun len => (addr, len)) <$> r).

Definition argint (me : nat) (n : Z) : K (option Z) :=
  p ← curproc me;
  fetchint me (u32 (tf_esp (p_tf p) + 4 + 4 * n)).

Definition argptr (me : nat) (n size : Z) : K (option Z) :=
  p ← curproc me;
  r ← argint me n;
  match r with
  | None => mret None
  | Some i =>
      if (size <? 0) || (u32 i >=? p_sz p) || (u32 (u32 i + size) >? p_sz p) then mret None
      else mret (Some (u32 i))
  end.

Definition argstr (me : nat) (n : Z) : K (option (Z * Z)) :=
  r ← argint me n;
  match r with
  | None => mret None
  | Some addr => fetchstr me (u32 addr)
  end.

(** ** [sysproc.c] *)

Context `{!ProcEnv E} `{!SysEnv E}.

(** A call that takes one [int]. *)
Definition with_int (me : nat) (n : Z) (f : Z -> K (option Z)) : K (option Z) :=
  r ← argint me n;
  match r with None => mret (Some (-1)) | Some v => f v end.
Definition returns (m : K Z) : K (option Z) := v ← m; mret (Some v).

Definition sys_fork (me : nat) : K (option Z) := returns (fork me).
Definition sys_exit (me : nat) : K (option Z) := exit me ;; mret None.
Definition sys_wait (me : nat) : K (option Z) := wait me.
Definition sys_kill (me : nat) : K (option Z) := with_int me 0 (fun pid => returns (P (kill me pid))).
Definition sys_getpid (me : nat) : K (option Z) := p ← curproc me; mret (Some (p_pid p)).
Definition sys_sbrk (me : nat) : K (option Z) :=
  with_int me 0 (fun n =>
    p ← curproc me;
    let addr := i32 (p_sz p) in
    r ← growproc me n;
    if r <? 0 then mret (Some (-1)) else mret (Some addr)).

Definition tk_acquire (me : nat) : K unit :=
  k ← get;
  l ← P (on_cpu me (Spinlock.acquire me (env_tickslock (snd k))));
  X (modify (env_set_tickslock l)).
Definition tk_release (me : nat) : K unit :=
  k ← get;
  l ← P (on_cpu me (Spinlock.release me (env_tickslock (snd k))));
  X (modify (env_set_tickslock l)).
(** The [while] loop of [sys_sleep], with tickslock held; it goes on at its head when the
    process has been woken and has the lock again.  [sleep] takes ptable.lock before it
    lets go of tickslock. *)
Definition sleep_turn (me : nat) (n ticks0 : Z) : K (option Z) :=
  k ← get;
  if negb (u32 (ticks (fst k) - ticks0) <? u32 n) then tk_release me ;; mret (Some 0)
  else
    p ← curproc me;
    if ctrue (p_killed p) then tk_release me ;; mret (Some (-1))
    else
      i ← P (myproc me);
      P (pt_acquire me) ;;
      tk_release me ;;
      P (updp i (set_chan CTicks)) ;;
      P (updp i (set_state SLEEPING)) ;;
      P (sched me) ;;
      mret None.
Definition sys_sleep (me : nat) : K (option Z) :=
  with_int me 0 (fun n =>
    tk_acquire me ;;
    k ← get;
    sleep_turn me n (ticks (fst k))).
Definition sys_uptime (me : nat) : K (option Z) :=
  tk_acquire me ;;
  k ← get;
  tk_release me ;;
  mret (Some (i32 (ticks (fst k)))).

Definition sys_create_palindrome (me : nat) : K (option Z) :=
  p ← curproc me;
  r ← of_option OutOfFuel (Palindrome.create_palindrome (i32 (tf_ecx (p_tf p))));
  P (modify (fun s => set_out (out s ++ snd r) s)) ;;
  mret (Some 0).
Definition sys_sort_syscalls (me : nat) : K (option Z) := with_int me 0 (fun pid => returns (P (Info.sort_syscalls me pid))).
Definition sys_get_most_invoked (me : nat) : K (option Z) := with_int me 0 (fun pid => returns (P (Info.get_most_invoked me pid))).
Definition sys_list_all_processes (me : nat) : K (option Z) := returns (P (Info.list_all_processes me)).
Definition sys_set_sjf_info (me : nat) : K (option Z) :=
  with_int me 0 (fun pid => with_int me 1 (fun burst => with_int me 2 (fun confidence =>
    returns (P (Info.set_sjf_info me pid burst confidence))))).
Definition sys_set_queue (me : nat) : K (option Z) :=
  with_int me 0 (fun pid => with_int me 1 (fun queue => returns (P (Info.set_queue me pid queue)))).
Definition sys_report_all_processes (me : nat) : K (option Z) := returns (P (Info.report_all_processes me)).
Definition sys_report_syscalls_count (me : nat) : K (option Z) := returns (P Info.report_syscalls_count).
Definition sys_fibonacci_number (me : nat) : K (option Z) := with_int me 0 (fun num => returns (X (env_fibonacci_number num))).
Definition sys_open_sharedmem (me : nat) : K (option Z) := with_int me 0 (fun id => returns (env_open_sharedmem me id)).
Definition sys_close_sharedmem (me : nat) : K (option Z) := with_int me 0 (fun id => returns (env_close_sharedmem me id)).
Definition sys_calculate_factorial (me : nat) : K (option Z) :=
  with_int me 0 (fun n => with_int me 1 (fun mem => env_calculate_factorial me n mem ;; mret (Some 0))).

(** ** Dispatch *)

(** The table [syscalls], indexed from 1. *)
Definition syscalls (me : nat) (num : Z) : option (K (option Z)) :=
  match num with
  | 1 => Some (sys_fork me)
  | 2 => Some (sys_exit me)
  | 3 => Some (sys_wait me)
  | 6 => Some (sys_kill me)
  | 11 => Some (sys_getpid me)
  | 12 => Some (sys_sbrk me)
  | 13 => Some (sys_sleep me)
  | 14 => Some (sys_uptime me)
  | 22 => Some (sys_create_palindrome me)
  | 24 => Some (sys_sort_syscalls me)
  | 25 => Some (sys_get_most_invoked me)
  | 26 => Some (sys_list_all_processes me)
  | 27 => Some (sys_set_sjf_info me)
  | 28 => Some (sys_set_queue me)
  | 29 => Some (sys_report_all_processes me)
  | 30 => Some (sys_report_syscalls_count me)
  | 31 => Some (sys_fibonacci_number me)
  | 32 => Some (sys_open_sharedmem me)
  | 33 => Some (sys_close_sharedmem me)
  | 34 => Some (sys_calculate_factorial me)
  | _ => env_sysfile me num
  end.

Definition set_result (cur : nat) (v : Z) : K unit := P (updp cur (fun p => set_tf (set_eax (u32 v) (p_tf p)) p)).
(** [None] if the process is asleep in the call, or gone. *)
Definition syscall (me : nat) : K (option unit) :=
  cur ← P (myproc me);
  p ← P (getp cur);
  let num := i32 (tf_eax (p_tf p)) in
  P (Info._log_syscall me num) ;;
  match (if (num >? 0) && (num <? 35) then syscalls me num else None) with
  | Some f =>
      r ← f;
      match r with
      | Some v => set_result cur v ;; mret (Some tt)
      | None => mret None
      end
  | None =>
      P (print (str "%d %s: unknown sys call %d" ++ NL) [AInt (p_pid p); AStr (p_name p); AInt num]) ;;
      set_result cur (-1) ;;
      mret (Some tt)
  end.
End Syscall.

(** ** The page tables implement user memory *)

Definition page_load (pgdir va : Z) : M (guarded kmem) Z :=
  k ← g_get;
  if (0 <=? va) && (va <? 2 ^ 32) && present (entry k pgdir (vpn va))
  then mret (k_mem k (upage k pgdir (vpn va) + va mod PGSIZE)) else faults OutOfBounds.
#[global] Program Instance kmem_user : UserMem (guarded kmem) := {
  mapped := fun g pgdir va => 0 <= va < 2 ^ 32 /\ present (entry (g_val g) pgdir (vpn va)) = true;
  ubyte := fun g pgdir va => k_mem (g_val g) (upage (g_val g) pgdir (vpn va) + va mod PGSIZE);
  uload := page_load }.
Next Obligation.
  intros g pgdir va [Hva Hp]. unfold page_load, g_get. munfold. rewrite Hp.
  destruct (Z.leb_spec 0 va), (Z.ltb_spec va (2 ^ 32)); [done|lia..].
Qed.

(** A process's memory is mapped up to its size. *)
Lemma umem_mapped kend sz l pgdir (g : guarded kmem) va :
  umem kend sz l pgdir (g_val g) -> 0 <= va < sz -> sz <= KERNBASE -> mapped g pgdir va.
Proof.
  intros U Hva Hsz. change KERNBASE with (2 ^ 31) in Hsz. split; [lia|].
  apply (sp_in _ _ _ _ _ U); unfold vpn.
  - split; [apply Z.div_pos; lia|apply Z.div_lt_upper_bound; lia].
  - apply npages_spec. pose proof (Z.mul_div_le va 4096). lia.
Qed.

(** ** Arguments stay inside the process *)

Section Bounds.
Context {E : Type} `{UserMem E}.

(** Process [p] is running on CPU [me], its size is below KERNBASE and its memory is
    there. *)
Record running (me : nat) (k : kst E) (p : proc) : Prop := mk_running {
  ru_proc : exists i, c_proc (this me (fst k)) = Some i /\ ptable (fst k) !! i = Some p;
  ru_sz : 0 <= p_sz p <= KERNBASE;
  ru_mem : forall va, 0 <= va < p_sz p -> mapped (snd k) (p_pgdir p) va }.

Definition word (e : E) (pgdir a : Z) : Z :=
  i32 (ubyte e pgdir a + 256 * ubyte e pgdir (a + 1) + 65536 * ubyte e pgdir (a + 2) + 16777216 * ubyte e pgdir (a + 3)).

Lemma curproc_run me k p : running me k p -> curproc me k = Ret p k.
Proof.
  intros [(i & E1 & E2) _ _]. destruct k as [s e]. cbn in *. unfold curproc, P, zoom, myproc, getp. munfold. cbn.
  rewrite E1. cbn. by rewrite E2.
Qed.
Lemma X_uload k pgdir va : mapped (snd k) pgdir va -> X (uload pgdir va) k = Ret (ubyte (snd k) pgdir va) k.
Proof. intros Hm. destruct k as [s e]. unfold X, zoom. cbn in *. by rewrite uload_mapped. Qed.

Lemma load_int_run me k p a : running me k p -> 0 <= a -> a + 4 <= p_sz p -> load_int (p_pgdir p) a k = Ret (word (snd k) (p_pgdir p) a) k.
Proof.
  intros R H0 H4. pose proof (ru_mem _ _ _ R) as Hm. unfold load_int, word.
  rewrite (bind_eq _ _ _ _ _ (X_uload k _ _ (Hm a ltac:(lia)))).
  rewrite (bind_eq _ _ _ _ _ (X_uload k _ _ (Hm (a + 1) ltac:(lia)))).
  rewrite (bind_eq _ _ _ _ _ (X_uload k _ _ (Hm (a + 2) ltac:(lia)))).
  rewrite (bind_eq _ _ _ _ _ (X_uload k _ _ (Hm (a + 3) ltac:(lia)))). done.
Qed.

(** Where argument [n] is. *)
Definition arg_addr (p : proc) (n : Z) : Z := u32 (tf_esp (p_tf p) + 4 + 4 * n).
Definition arg (e : E) (p : proc) (n : Z) : option Z :=
  if arg_addr p n + 4 <=? p_sz p then Some (word e (p_pgdir p) (arg_addr p n)) else None.

Lemma argint_run me k p n : running me k p -> argint me n k = Ret (arg (snd k) p n) k.
Proof.
  intros R. unfold argint. rewrite (bind_eq _ _ _ _ _ (curproc_run me k p R)). fold (arg_addr p n).
  unfold fetchint. rewrite (bind_eq _ _ _ _ _ (curproc_run me k p R)).
  pose proof (ru_sz _ _ _ R) as Hsz. change KERNBASE with (2 ^ 31) in Hsz.
  assert (Ha : 0 <= arg_addr p n < 2 ^ 32) by apply u32_range. unfold arg.
  destruct (Z.leb_spec (arg_addr p n + 4) (p_sz p)) as [Hin|Hin].
  - rewrite u32_small by lia. destruct (Z.geb_spec (arg_addr p n) (p_sz p)); [lia|].
    rewrite Z.gtb_ltb. destruct (Z.ltb_spec (p_sz p) (arg_addr p n + 4)); [lia|]. cbn [orb].
    by rewrite (bind_eq _ _ _ _ _ (load_int_run me k p (arg_addr p n) R ltac:(lia) Hin)).
  - destruct (Z.geb_spec (arg_addr p n) (p_sz p)); [done|]. rewrite u32_small by lia.
    rewrite Z.gtb_ltb. destruct (Z.ltb_spec (p_sz p) (arg_addr p n + 4)); [done|lia].
Qed.

Lemma fetchstr_loop_run k pgdir s len n :
  (forall va, s <= va < s + Z.of_nat n -> mapped (snd k) pgdir va) ->
  exists r, fetchstr_loop n pgdir s len k = Ret r k /\
  match r with
  | Some l => len <= l < len + Z.of_nat n /\ ubyte (snd k) pgdir (s + (l - len)) = 0 /\
      forall j, 0 <= j < l - len -> ubyte (snd k) pgdir (s + j) <> 0
  | None => forall j, 0 <= j < Z.of_nat n -> ubyte (snd k) pgdir (s + j) <> 0
  end.
Proof.
  revert s len. induction n as [|n IH]; intros s len Hm; cbn [fetchstr_loop].
  { eexists. split; [reflexivity|]. intros j Hj; cbn in Hj; lia. }
  rewrite (bind_eq _ _ _ _ _ (X_uload k _ _ (Hm s ltac:(lia)))).
  destruct (Z.eqb_spec (ubyte (snd k) pgdir s) 0) as [E0|E0].
  { exists (Some len). split; [done|]. rewrite Z.sub_diag, Z.add_0_r. split; [lia|]. split; [done|]. intros; lia. }
  destruct (IH (s + 1) (len + 1)) as (r & Er & Hr); [intros; apply Hm; lia|]. exists r. split; [done|].
  assert (Hj : forall j m, (forall j, 0 <= j < m -> ubyte (snd k) pgdir (s + 1 + j) <> 0) -> 0 <= j < m + 1 -> ubyte (snd k) pgdir (s + j) <> 0).
  { intros j m Hall Hj. destruct (decide (j = 0)) as [->|]; [by rewrite Z.add_0_r|].
    replace (s + j) with (s + 1 + (j - 1)) by lia. apply Hall. lia. }
  destruct r as [l|].
  - destruct Hr as (H1 & H2 & H3). split; [lia|]. split; [by replace (s + (l - len)) with (s + 1 + (l - (len + 1))) by lia|].
    intros j Hjl. apply (Hj j (l - (len + 1)) H3). lia.
  - intros j Hjl. apply (Hj j (Z.of_nat n) Hr). lia.
Qed.

(** What the three routines give. *)
Definition ptr_arg (e : E) (p : proc) (n size : Z) (r : option Z) : Prop :=
  match r with
  | Some a => exists v, arg e p n = Some v /\ a = u32 v /\ 0 <= size /\ 0 <= a < p_sz p /\ a + size <= p_sz p
  | None => forall v, arg e p n = Some v -> size < 0 \/ p_sz p <= u32 v \/ p_sz p < u32 v + size
  end.
Definition str_arg (e : E) (p : proc) (n : Z) (r : option (Z * Z)) : Prop :=
  match r with
  | Some (a, len) => exists v, arg e p n = Some v /\ a = u32 v /\ 0 <= a /\ 0 <= len /\ a + len < p_sz p /\
      ubyte e (p_pgdir p) (a + len) = 0 /\ forall j, 0 <= j < len -> ubyte e (p_pgdir p) (a + j) <> 0
  | None => forall v, arg e p n = Some v -> forall a, u32 v <= a < p_sz p -> ubyte e (p_pgdir p) a <> 0
  end.

Lemma argptr_run me k p n size : running me k p -> size < 2 ^ 31 -> exists r, argptr me n size k = Ret r k /\ ptr_arg (snd k) p n size r.
Proof.
  intros R Hs. unfold argptr. rewrite (bind_eq _ _ _ _ _ (curproc_run me k p R)), (bind_eq _ _ _ _ _ (argint_run me k p n R)).
  pose proof (ru_sz _ _ _ R) as Hsz. change KERNBASE with (2 ^ 31) in Hsz.
  destruct (arg (snd k) p n) as [v|] eqn:Ea; [|eexists; split; [reflexivity|unfold ptr_arg; by rewrite Ea]].
  pose proof (u32_range v) as Hv. destruct (Z.ltb_spec size 0) as [|H0]; cbn [orb].
  { eexists. split; [reflexivity|]. unfold ptr_arg. rewrite Ea. intros w [= <-]. lia. }
  destruct (Z.geb_spec (u32 v) (p_sz p)) as [|H1]; cbn [orb].
  { eexists. split; [reflexivity|]. unfold ptr_arg. rewrite Ea. intros w [= <-]. lia. }
  rewrite u32_small by lia. rewrite Z.gtb_ltb. destruct (Z.ltb_spec (p_sz p) (u32 v + size)).
  - eexists. split; [reflexivity|]. unfold ptr_arg. rewrite Ea. intros w [= <-]. lia.
  - eexists. split; [reflexivity|]. unfold ptr_arg. rewrite Ea. exists v. split_and!; try done; lia.
Qed.

Lemma argstr_run me k p n : running me k p -> exists r, argstr me n k = Ret r k /\ str_arg (snd k) p n r.
Proof.
  intros R. unfold argstr. rewrite (bind_eq _ _ _ _ _ (argint_run me k p n R)).
  destruct (arg (snd k) p n) as [v|] eqn:Ea; [|eexists; split; [reflexivity|unfold str_arg; by rewrite Ea]].
  unfold fetchstr. rewrite (bind_eq _ _ _ _ _ (curproc_run me k p R)). pose proof (u32_range v) as Hv.
  destruct (Z.geb_spec (u32 v) (p_sz p)) as [|H1].
  { eexists. split; [reflexivity|]. unfold str_arg. rewrite Ea. intros w [= <-] a Ha. lia. }
  destruct (fetchstr_loop_run k (p_pgdir p) (u32 v) 0 (Z.to_nat (p_sz p - u32 v))) as (r & Er & Hr).
  { intros va Hva. apply (ru_mem _ _ _ R). lia. }
  rewrite (bind_eq _ _ _ _ _ Er). eexists. split; [reflexivity|]. destruct r as [l|]; cbn [fmap option_fmap option_map]; unfold str_arg; rewrite Ea.
  - destruct Hr as (H2 & H3 & H4). rewrite Z.sub_0_r in *. exists v. split_and!; try done; lia.
  - intros w [= <-] a Ha. replace a with (u32 v + (a - u32 v)) by lia. apply Hr. lia.
Qed.

(** C22: Fetching the arguments of a system call never touches memory outside the process:
    none of the three routines faults, whatever the process has put in its stack pointer
    and arguments.  [argptr] accepts just the buffers that lie inside the process, and
    [argstr] the strings that end inside it. *)
Theorem syscall_args_in_bounds me k p n size :
  running me k p -> size < 2 ^ 31 ->
  argint me n k = Ret (arg (snd k) p n) k /\
  (exists r, argptr me n size k = Ret r k /\ ptr_arg (snd k) p n size r) /\
  (exists r, argstr me n k = Ret r k /\ str_arg (snd k) p n r).
Proof. intros R Hs. split; [by apply argint_run|]. split; [by apply argptr_run|by apply argstr_run]. Qed.
End Bounds.

(** Flat memory, with every address mapped. *)
#[global] Instance flat_user : UserMem (Z -> Z) := {|
  mapped := fun _ _ _ => True;
  ubyte := fun m _ va => m va;
  uload := fun _ va m => Ret (m va) m;
  uload_mapped := fun _ _ _ _ => eq_refl |}.

(** A process of one page, with its stack pointer at 100, whose first argument is the
    address of the string "ls". *)
Definition demo_tf : trapframe := mk_trapframe 0 0 0 0 0 0 0 35 0 0 0 0 0 0 0 0 0 100 0.
Definition demo_proc : proc := set_tf demo_tf (set_sz 4096 (set_pid 5 proc_zero)).
Definition demo_mem (a : Z) : Z := if a =? 104 then 200 else if a =? 200 then 108 else if a =? 201 then 115 else 0.
Definition demo_kst : kst (Z -> Z) :=
  (mk_pstate [mk_kcpu 0 (mk_cpu 0 false true) (Some 0%nat) 0 0 0] Spinlock.initlock (demo_proc :: replicate 63 proc_zero)
     6 None 0 0 1 Spinlock.initlock 0 [], demo_mem).

Lemma syscall_args_in_bounds_witness :
  exists r, argstr 0 0 demo_kst = Ret r demo_kst /\ r = Some (200, 2) /\ str_arg demo_mem demo_proc 0 r.
Proof.
  assert (R : running 0 demo_kst demo_proc).
  { constructor; [by exists 0%nat|cbn; vm_compute; split; discriminate|done]. }
  destruct (syscall_args_in_bounds 0 demo_kst demo_proc 0 0 R ltac:(lia)) as (_ & _ & r & Er & Hr).
  exists r. split; [done|]. split; [|done]. vm_compute in Er. congruence.
Defined.

(** [_log_syscall] counts the call before its number has been checked: for a number above
    34 it writes past the end of [p->sc]. *)
Theorem unknown_syscall_out_of_bounds : fault_of (Info._log_syscall 0 35 (fst demo_kst)) = Some OutOfBounds.
Proof. vm_compute. reflexivity. Qed.
