(* ===== verification/Trap.v ===== *)
(** Traps ([trap.c]): system calls, device interrupts and exceptions.

    The interrupt handlers of the devices and the local APIC are an interface ([Class
    TrapEnv]).  [trap] comes back to the code it interrupted ([Back]), or the process has
    left the CPU: for good ([Gone]), or in [yield] or asleep in a system call ([Away]);
    [trap_resume] is what remains of [trap] after a [yield]. *)

From S2P Require Import Prelude CString Printf Locks ProcDefs Sched ProcLife ProcInfo Syscall.

Definition T_SYSCALL : Z := 64.
Definition T_IRQ0 : Z := 32.
Definition IRQ_TIMER : Z := 0.
Definition IRQ_KBD : Z := 1.
Definition IRQ_COM1 : Z := 4.
Definition IRQ_IDE : Z := 14.
Definition IRQ_SPURIOUS : Z := 31.

Class TrapEnv (E : Type) := {
  env_ideintr : M (kst E) unit;
  env_kbdintr : M (kst E) unit;
  env_uartintr : M (kst E) unit;
  env_lapiceoi : M (kst E) unit;
  env_rcr2 : E -> Z }.

Inductive after := Back | Gone | Away.

Section Trap.
Context {E : Type} `{UserMem E} `{!ProcEnv E} `{!SysEnv E} `{!TrapEnv E}.
Notation K := (M (kst E)).

(** [me] is the CPU and [apicid] the number its local APIC gives. *)
Context (me : nat) (apicid : Z).

(** [myproc()], which may be null here. *)
Definition current : K (option nat) := k ← get; mret (c_proc (this me (fst k))).

(** [if(myproc() && myproc()->killed && (tf->cs&3) == DPL_USER) exit()]; true if it exits. *)
Definition exit_if_killed (tf : trapframe) : K bool :=
  o ← current;
  match o with
  | None => mret false
  | Some i =>
      p ← P (getp i);
      if ctrue (p_killed p) && (Z.land (tf_cs tf) 3 =? DPL_USER) then exit me ;; mret true else mret false
  end.

Definition timer : K unit :=
  id ← P (Info.cpuid me apicid);
  when (id =? 0)
    (tk_acquire me ;;
     P (modify (fun s => set_ticks (u32 (ticks s + 1)) s)) ;;
     P (_aging me) ;;
     P (wakeup me CTicks) ;;
     tk_release me) ;;
  env_lapiceoi.

(** The [default] case. *)
Definition unexpected (tf : trapframe) : K unit :=
  o ← current;
  k ← get;
  let cr2 := env_rcr2 (snd k) in
  match (if Z.land (tf_cs tf) 3 =? 0 then None else o) with
  | None =>
      id ← P (Info.cpuid me apicid);
      P (print (str "unexpected trap %d from cpu %d eip %x (cr2=0x%x)" ++ NL) [AInt (tf_trapno tf); AInt id; AInt (tf_eip tf); AInt cr2]) ;;
      panic "trap"
  | Some i =>
      p ← P (getp i);
      id ← P (Info.cpuid me apicid);
      P (print (str "pid %d %s: trap %d err %d on cpu %d eip 0x%x addr 0x%x--kill proc" ++ NL)
           [AInt (p_pid p); AStr (p_name p); AInt (tf_trapno tf); AInt (tf_err tf); AInt id; AInt (tf_eip tf); AInt cr2]) ;;
      P (updp i (set_killed 1))
  end.

Definition handle (tf : trapframe) : K unit :=
  let n := tf_trapno tf in
  if n =? T_IRQ0 + IRQ_TIMER then timer
  else if n =? T_IRQ0 + IRQ_IDE then env_ideintr ;; env_lapiceoi
  else if n =? T_IRQ0 + IRQ_IDE + 1 then mret tt
  else if n =? T_IRQ0 + IRQ_KBD then env_kbdintr ;; env_lapiceoi
  else if n =? T_IRQ0 + IRQ_COM1 then env_uartintr ;; env_lapiceoi
  else if (n =? T_IRQ0 + 7) || (n =? T_IRQ0 + IRQ_SPURIOUS) then
    id ← P (Info.cpuid me apicid);
    P (print (str "cpu%d: spurious interrupt at %x:%x" ++ NL) [AInt id; AInt (tf_cs tf); AInt (tf_eip tf)]) ;;
    env_lapiceoi
  else unexpected tf.

Definition trap_resume (tf : trapframe) : K after :=
  x ← exit_if_killed tf;
  if (x : bool) then mret Gone else mret Back.

Definition trap (tf : trapframe) : K after :=
  if tf_trapno tf =? T_SYSCALL then
    i ← P (myproc me);
    p ← P (getp i);
    if ctrue (p_killed p) then exit me ;; mret Gone
    else
      P (updp i (set_tf tf)) ;;
      r ← syscall me;
      match r with
      | None => mret Away
      | Some _ =>
          p ← curproc me;
          if ctrue (p_killed p) then exit me ;; mret Gone else mret Back
      end
  else
    handle tf ;;
    x ← exit_if_killed tf;
    if (x : bool) then mret Gone
    else
      o ← current;
      y ← match o with
          | None => mret false
          | Some i =>
              p ← P (getp i);
              if bool_decide (p_state p = RUNNING) && (tf_trapno tf =? T_IRQ0 + IRQ_TIMER) then P (yield me) else mret false
          end;
      if (y : bool) then mret Away else trap_resume tf.

(** ** Killed processes do not get back to user space *)

(** The process running on this CPU, if any, has not been killed. *)
Definition not_killed (k : kst E) : Prop :=
  forall i p, c_proc (this me (fst k)) = Some i -> ptable (fst k) !! i = Some p -> p_killed p = 0.
Definition to_user (tf : trapframe) : Prop := Z.land (tf_cs tf) 3 = DPL_USER.
Definition safe_return (r : after) (k : kst E) : Prop := r = Back -> not_killed k.

Lemma wlp_kproc {A} (m : M pstate A) (Q : A -> kst E -> Prop) k :
  wlp m (fun a s => Q a (s, snd k)) (fst k) -> wlp (P m) Q k.
Proof. intros Hm. apply wlp_zoom. exact Hm. Qed.

Lemma wlp_curp i (Q : proc -> kst E -> Prop) k :
  (forall p, ptable (fst k) !! i = Some p -> Q p k) -> wlp (P (getp i)) Q k.
Proof. intros HQ. apply wlp_kproc. unfold getp. wl. destruct k. by apply HQ. Qed.

Lemma trap_resume_safe tf k : to_user tf -> wlp (trap_resume tf) safe_return k.
Proof.
  intros Hu. unfold trap_resume, exit_if_killed, current. wl. destruct (c_proc (this me (fst k))) as [i|] eqn:Ei.
  - wl. apply wlp_curp. intros p Hp. rewrite Hu, Z.eqb_refl, andb_true_r. destruct (ctrue (p_killed p)) eqn:Ek; wl.
    + apply wlp_true. intros _ s'. wl. by intros ?.
    + intros _ j q Ej Hq. assert (j = i) as -> by congruence. assert (q = p) as -> by congruence. unfold ctrue in Ek. lia.
  - wl. intros _ j q Ej. congruence.
Qed.

Lemma trap_safe tf k : to_user tf -> wlp (trap tf) safe_return k.
Proof.
  intros Hu. unfold trap. destruct (tf_trapno tf =? T_SYSCALL).
  - wl. apply wlp_kproc. unfold myproc. wl. apply wlp_curp. intros p Hp. destruct (ctrue (p_killed p)); wl.
    { apply wlp_true. intros _ s'. wl. by intros ?. }
    apply wlp_true. intros _ k1. wl. apply wlp_true. intros [[]|] k2; [|wl; by intros ?]. unfold curproc. wl.
    apply wlp_kproc. unfold myproc. wl. apply wlp_curp. intros q Hq. destruct k2 as [s2 e2]. cbn in *.
    destruct (ctrue (p_killed q)) eqn:Ek; wl.
    { apply wlp_true. intros _ s'. wl. by intros ?. }
    intros _ j r Ej Hr. cbn in *. assert (r = q) as -> by congruence. unfold ctrue in Ek. lia.
  - wl. apply wlp_true. intros _ k1. wl. apply wlp_true. intros [|] k2; wl; [by intros ?|]. unfold current. wl.
    apply wlp_true. intros [|] k3; wl; [by intros ?|]. by apply trap_resume_safe.
Qed.

(** *** Exceptions *)

(** A trap that is neither a system call nor a device interrupt. *)
Definition exception (n : Z) : Prop := n ∉ [64; 32; 46; 47; 33; 36; 39; 63].

Lemma cpuid_keeps (Q : Z -> kst E -> Prop) k : (forall id, Q id k) -> wlp (P (Info.cpuid me apicid)) Q k.
Proof.
  intros HQ. apply wlp_kproc. destruct k as [s e]. unfold Info.cpuid, Info.mycpu. wl. destruct (intr _); [done|].
  destruct (list_find _ _) as [[]|]; [|done]. wl. apply HQ.
Qed.
Lemma print_keeps fmt args (Q : unit -> kst E -> Prop) k :
  (forall s', ptable s' = ptable (fst k) -> cpus s' = cpus (fst k) -> Q tt (s', snd k)) -> wlp (P (print fmt args)) Q k.
Proof. intros HQ. apply wlp_kproc. unfold print. wl. by apply HQ. Qed.

Lemma unexpected_kills tf k :
  wlp (unexpected tf) (fun _ k' => Z.land (tf_cs tf) 3 <> 0 /\
    exists i p, c_proc (this me (fst k)) = Some i /\ c_proc (this me (fst k')) = Some i /\ ptable (fst k') !! i = Some p /\ p_killed p = 1) k.
Proof.
  unfold unexpected, current. wl. destruct (Z.eqb_spec (Z.land (tf_cs tf) 3) 0) as [E0|E0].
  { wl. apply wlp_true. intros id k1. wl. by apply wlp_true. }
  destruct (c_proc (this me (fst k))) as [i|] eqn:Ei.
  2: { wl. apply wlp_true. intros id k1. wl. by apply wlp_true. }
  wl. apply wlp_curp. intros p Hp. wl. apply cpuid_keeps. intros id. wl. apply print_keeps. intros s' Et Ec.
  apply wlp_kproc. unfold updp. wl. split; [done|]. exists i, (set_killed 1 p). cbn. unfold this in *. rewrite Ec, Et. split_and!; try done.
  rewrite list_lookup_alter, Hp. by rewrite decide_True.
Qed.

Lemma exception_gone tf k :
  exception (tf_trapno tf) -> wlp (trap tf) (fun r _ => Z.land (tf_cs tf) 3 <> 0 /\ (to_user tf -> r = Gone)) k.
Proof.
  intros He. unfold exception in He. rewrite !not_elem_of_cons in He. destruct He as (H0 & H1 & H2 & H3 & H4 & H5 & H6 & H7 & _).
  unfold trap, handle, T_SYSCALL, T_IRQ0, IRQ_TIMER, IRQ_IDE, IRQ_KBD, IRQ_COM1, IRQ_SPURIOUS.
  repeat (rewrite (proj2 (Z.eqb_neq (tf_trapno tf) _)) by lia). cbn [orb]. wl. eapply wlp_mono; [apply unexpected_kills|].
  cbv beta. intros _ k' (Hcs & i & p & _ & Ei & Hp & Hk). wl. unfold exit_if_killed, current. wl. rewrite Ei. wl. apply wlp_curp.
  intros q Hq. assert (q = p) as -> by congruence. rewrite Hk. change (ctrue 1) with true. cbn [andb].
  destruct (Z.eqb_spec (Z.land (tf_cs tf) 3) DPL_USER) as [Eu|Eu]; wl.
  - apply wlp_true. intros _ k1. wl. done.
  - unfold current. wl. apply wlp_true. intros [|] k2; wl; [by split|]. apply wlp_true. intros r k3. by split.
Qed.

(** C23: A trap from user space comes back there only if the process has not been killed, also
    after it has given up the CPU in between.  An exception never comes back: raised in
    the kernel it ends in a panic, raised by a process it ends that process. *)
Theorem trap_contains_faults tf k r k' :
  trap tf k = Ret r k' ->
  (to_user tf -> r = Back -> not_killed k') /\
  (exception (tf_trapno tf) -> Z.land (tf_cs tf) 3 <> 0 /\ (to_user tf -> r = Gone)) /\
  (to_user tf -> forall k1 r2 k2, trap_resume tf k1 = Ret r2 k2 -> r2 = Back -> not_killed k2).
Proof.
  intros Et. split_and!.
  - intros Hu. exact (wlp_elim _ _ _ _ _ (trap_safe tf k Hu) Et).
  - intros He. exact (wlp_elim _ _ _ _ _ (exception_gone tf k He) Et).
  - intros Hu k1 r2 k2 E2. exact (wlp_elim _ _ _ _ _ (trap_resume_safe tf k1 Hu) E2).
Qed.
End Trap.

(** An environment in which every call returns at once. *)
#[local] Instance demo_procenv : ProcEnv (Z -> Z) := {|
  env_kalloc := mret 0; env_kfree := fun _ => mret tt; env_setupkvm := mret 0; env_inituvm := fun _ => mret tt;
  env_allocuvm := fun _ _ n => mret n; env_deallocuvm := fun _ _ n => mret n; env_copyuvm := fun _ _ => mret 0;
  env_freevm := fun _ => mret tt; env_filedup := fun f => mret f; env_fileclose := fun _ => mret tt; env_idup := fun i => mret i;
  env_iput := fun _ => mret tt; env_namei_root := mret None |}.
#[local] Instance demo_sysenv : SysEnv (Z -> Z) := {|
  env_tickslock := fun _ => Spinlock.initlock; env_set_tickslock := fun _ e => e; env_fibonacci_number := fun _ => mret 0;
  env_open_sharedmem := fun _ _ => mret 0; env_close_sharedmem := fun _ _ => mret 0; env_calculate_factorial := fun _ _ _ => mret tt;
  env_sysfile := fun _ _ => None |}.
#[local] Instance demo_trapenv : TrapEnv (Z -> Z) := {|
  env_ideintr := mret tt; env_kbdintr := mret tt; env_uartintr := mret tt; env_lapiceoi := mret tt; env_rcr2 := fun _ => 0 |}.

(** A page fault of a running process. *)
Definition fault_tf : trapframe := mk_trapframe 0 0 0 0 0 0 0 0 0 0 0 0 14 0 0 27 0 0 0.
Definition fault_kst : kst (Z -> Z) :=
  (mk_pstate [mk_kcpu 0 (mk_cpu 0 false false) (Some 0%nat) 0 0 0] Spinlock.initlock (set_state RUNNING demo_proc :: replicate 63 proc_zero)
     6 None 0 0 1 Spinlock.initlock 0 [], demo_mem).

Lemma trap_contains_faults_witness : value_of (trap 0 0 fault_tf fault_kst) = Some Gone.
Proof.
  destruct (trap 0 0 fault_tf fault_kst) as [r k'|m k'|c j k'|f k'] eqn:Et; [|vm_compute in Et; discriminate..].
  destruct (trap_contains_faults 0 0 fault_tf fault_kst r k' Et) as (_ & H & _). cbn. f_equal. apply H; [|reflexivity].
  apply (bool_decide_unpack _). vm_compute. exact I.
Defined.
