(* ===== verification/ProcInv.v ===== *)
(** The process table's invariant and the steps that keep it.

    [kstep] has a rule for every piece of code that writes to the table: the calls of
    [ProcLife] and [Sched], cut where a process switches away and comes back, those of
    [ProcInfo], [exec], and the assignments of [trap], [syscall], the shared-memory calls
    and the file calls to fields of the running process.
    [inv] says what every reachable state satisfies: process ids are unique, a
    process is RUNNING exactly while one CPU has it as its current process, and
    every process that can run has a kernel stack and a page table. *)

From S2P Require Import Exec Syscall Trap.
From S2P Require Import Prelude CString Printf Locks ProcDefs Sched ProcLife ProcInfo.

Definition live (p : proc) : Prop := p_state p <> UNUSED /\ p_state p <> EMBRYO.

Record slot_ok (next : Z) (p : proc) : Prop := mk_slot_ok {
  sl_pid : 0 <= p_pid p < next;
  sl_ofile : length (p_ofile p) = NOFILE;
  sl_sc : length (p_sc p) = NSYSCALLS;
  sl_live : live p -> p_pid p <> 0 /\ p_kstack p <> 0 /\ p_pgdir p <> 0 }.

(** CPU [c] has process [i] as its current process. *)
Definition runs (s : pstate) (c i : nat) : Prop :=
  (c < length (cpus s))%nat /\ c_proc (this c s) = Some i.

(** [o] is a CPU in the middle of a switch, whose process has already given up
    RUNNING. *)
Record inv (o : option nat) (s : pstate) : Prop := mk_inv {
  i_len : length (ptable s) = NPROC;
  i_next : 1 <= nextpid s;
  i_slot : forall i p, ptable s !! i = Some p -> slot_ok (nextpid s) p;
  i_pid : forall i j p q, ptable s !! i = Some p -> ptable s !! j = Some q ->
    p_pid p = p_pid q -> p_pid p <> 0 -> i = j;
  i_run : forall i p, ptable s !! i = Some p -> p_state p = RUNNING -> exists c, runs s c i;
  i_one : forall c d i, runs s c i -> runs s d i -> c = d;
  i_cpu : forall c i, runs s c i -> o <> Some c ->
    exists p, ptable s !! i = Some p /\ p_state p = RUNNING }.

(** A change of a slot that the rest of the invariant does not see. *)
Record slot_step (next : Z) (p p' : proc) : Prop := mk_slot_step {
  ss_pid : p_pid p' = p_pid p \/ p_pid p' = 0;
  ss_run : p_state p' = RUNNING <-> p_state p = RUNNING;
  ss_ok : slot_ok next p' }.

(** States that differ only where the invariant does not look. *)
Definition same_procs (s s' : pstate) : Prop :=
  ptable s' = ptable s /\ nextpid s' = nextpid s /\ length (cpus s') = length (cpus s) /\
  forall c, c_proc (this c s') = c_proc (this c s).

Lemma inv_same o s s' : same_procs s s' -> inv o s -> inv o s'.
Proof.
  intros (Ht & Hn & Hl & Hc) [H1 H2 H3 H4 H5 H6 H7].
  assert (Hr : forall c i, runs s' c i <-> runs s c i) by (intros; unfold runs; by rewrite Hl, Hc).
  constructor; rewrite ?Ht, ?Hn; try done.
  - intros i p Hp Hs. destruct (H5 i p Hp Hs) as [c ?]. exists c. by apply Hr.
  - intros c d i. rewrite !Hr. apply H6.
  - intros c i. rewrite Hr. apply H7.
Qed.

Lemma runs_ptable t s c i : runs (set_ptable t s) c i <-> runs s c i.
Proof. done. Qed.

Lemma inv_upd o s i f :
  inv o s -> (forall p, ptable s !! i = Some p -> slot_step (nextpid s) p (f p)) ->
  inv o (set_ptable (alter f i (ptable s)) s).
Proof.
  intros [H1 H2 H3 H4 H5 H6 H7] Hf.
  assert (Hl : forall j p', alter f i (ptable s) !! j = Some p' ->
    exists p, ptable s !! j = Some p /\ (p_pid p' = p_pid p \/ p_pid p' = 0) /\
      (p_state p' = RUNNING <-> p_state p = RUNNING) /\ slot_ok (nextpid s) p').
  { intros j p' Hj. destruct (decide (j = i)) as [->|Hne].
    - rewrite list_lookup_alter_eq in Hj. destruct (ptable s !! i) as [p|] eqn:E; [|done].
      injection Hj as <-. exists p. destruct (Hf p eq_refl). done.
    - rewrite list_lookup_alter_ne in Hj by done. exists p'. split_and!; try done; [by left|by apply (H3 j)]. }
  constructor; cbn; try done.
  - by rewrite length_alter.
  - intros j p' Hj. by destruct (Hl j p' Hj) as (p & _ & _ & _ & ?).
  - intros j k p' q' Hj Hk. destruct (Hl j p' Hj) as (p & Hp & E1 & _), (Hl k q' Hk) as (q & Hq & E2 & _).
    intros E3 E4. apply (H4 j k p q Hp Hq); destruct E1, E2; congruence.
  - intros j p' Hj Hs. destruct (Hl j p' Hj) as (p & Hp & _ & Hr & _). apply (H5 j p); [done|tauto].
  - intros c j Hr Ho. destruct (H7 c j Hr Ho) as (p & Hp & Hs). destruct (decide (j = i)) as [->|Hne].
    + exists (f p). rewrite list_lookup_alter_eq, Hp. split; [done|]. by apply (Hf p Hp).
    + exists p. by rewrite list_lookup_alter_ne by done.
Qed.

Lemma inv_fmap o s f :
  inv o s -> (forall i p, ptable s !! i = Some p -> slot_step (nextpid s) p (f p)) ->
  inv o (set_ptable (f <$> ptable s) s).
Proof.
  intros [H1 H2 H3 H4 H5 H6 H7] Hf.
  assert (Hl : forall j p', (f <$> ptable s) !! j = Some p' ->
    exists p, ptable s !! j = Some p /\ p' = f p /\ slot_step (nextpid s) p p').
  { intros j p' Hj. rewrite list_lookup_fmap in Hj. destruct (ptable s !! j) as [p|] eqn:E; [|done].
    injection Hj as <-. exists p. split_and!; try done. by apply (Hf j). }
  constructor; cbn; try done.
  - by rewrite length_fmap.
  - intros j p' Hj. destruct (Hl j p' Hj) as (p & _ & _ & []). done.
  - intros j k p' q' Hj Hk. destruct (Hl j p' Hj) as (p & Hp & _ & [E1 _ _]), (Hl k q' Hk) as (q & Hq & _ & [E2 _ _]).
    intros E3 E4. apply (H4 j k p q Hp Hq); destruct E1, E2; congruence.
  - intros j p' Hj Hs. destruct (Hl j p' Hj) as (p & Hp & _ & [_ Hr _]). apply (H5 j p); [done|tauto].
  - intros c j Hr Ho. destruct (H7 c j Hr Ho) as (p & Hp & Hs). exists (f p).
    rewrite list_lookup_fmap, Hp. split; [done|]. by apply (Hf j p Hp).
Qed.

Lemma slot_step_live next p p' :
  slot_ok next p -> p_pid p' = p_pid p -> (p_state p' = RUNNING <-> p_state p = RUNNING) ->
  length (p_ofile p') = length (p_ofile p) -> length (p_sc p') = length (p_sc p) ->
  p_kstack p' = p_kstack p -> p_pgdir p' = p_pgdir p -> (live p' -> live p) ->
  slot_step next p p'.
Proof.
  intros [H1 H2 H3 H4] E1 Hr E2 E3 E4 E5 Hl. constructor; [by left|done|].
  constructor; rewrite ?E1, ?E2, ?E3, ?E4, ?E5; auto.
Qed.

(** An update of fields the invariant is not about. *)
Ltac benign := apply slot_step_live; [auto|done..|unfold live; cbn; try tauto].

Lemma same_refl s : same_procs s s.
Proof. done. Qed.

Lemma same_trans s1 s2 s3 : same_procs s1 s2 -> same_procs s2 s3 -> same_procs s1 s3.
Proof.
  intros (H1 & H2 & H3 & H4) (K1 & K2 & K3 & K4). split_and!; congruence.
Qed.

Lemma this_ne me c v s : me <> c -> this c (set_cpus (<[me := v]> (cpus s)) s) = this c s.
Proof. intros Hne. unfold this. cbn. by rewrite !nth_lookup, list_lookup_insert_ne. Qed.

(** A change to a CPU that keeps its current process. *)
Lemma same_cpu me v s : c_proc v = c_proc (this me s) -> same_procs s (set_cpus (<[me := v]> (cpus s)) s).
Proof.
  intros Hv. split_and!; try done; [cbn; by rewrite length_insert|].
  intros c. destruct (decide (me = c)) as [<-|Hne]; [|by rewrite this_ne].
  destruct (decide (me < length (cpus s))%nat).
  - by rewrite this_set.
  - unfold this. cbn. by rewrite list_insert_ge by lia.
Qed.

Lemma wlp_on_cpu {A} me (m : M cpu A) (Q : A -> pstate -> Prop) s :
  (forall a s', same_procs s s' -> Q a s') -> wlp (on_cpu me m) Q s.
Proof.
  intros HQ. unfold on_cpu. apply wlp_zoom. unfold wlp. destruct (m _); try exact I.
  apply HQ. by apply same_cpu.
Qed.

Lemma wlp_acquire me (Q : unit -> pstate -> Prop) s :
  (forall s', same_procs s s' -> Q tt s') -> wlp (pt_acquire me) Q s.
Proof. intros HQ. unfold pt_acquire. wl. apply wlp_on_cpu. intros l s' Hs. wl. by apply HQ. Qed.

Lemma wlp_release me (Q : unit -> pstate -> Prop) s :
  (forall s', same_procs s s' -> Q tt s') -> wlp (pt_release me) Q s.
Proof. intros HQ. unfold pt_release. wl. apply wlp_on_cpu. intros l s' Hs. wl. by apply HQ. Qed.

Lemma wlp_getp i (Q : proc -> pstate -> Prop) s :
  (forall p, ptable s !! i = Some p -> Q p s) -> wlp (getp i) Q s.
Proof. intros HQ. unfold getp. wl. by apply HQ. Qed.

Lemma wlp_myproc me (Q : nat -> pstate -> Prop) s :
  (forall i, c_proc (this me s) = Some i -> Q i s) -> wlp (myproc me) Q s.
Proof. intros HQ. unfold myproc. wl. by apply HQ. Qed.

Lemma wlp_updp i f (Q : unit -> pstate -> Prop) s :
  Q tt (set_ptable (alter f i (ptable s)) s) -> wlp (updp i f) Q s.
Proof. done. Qed.

(** *** Entering and leaving RUNNING *)

(** The process of CPU [me] gives up RUNNING. *)
Lemma inv_give_up me i f s p :
  inv None s -> runs s me i -> ptable s !! i = Some p ->
  p_pid (f p) = p_pid p -> p_state (f p) <> RUNNING -> slot_ok (nextpid s) (f p) ->
  inv (Some me) (set_ptable (alter f i (ptable s)) s).
Proof.
  intros [H1 H2 H3 H4 H5 H6 H7] Hme Hp Hpid Hst Hok.
  assert (Hl : forall j q', alter f i (ptable s) !! j = Some q' ->
    exists q, ptable s !! j = Some q /\ p_pid q' = p_pid q /\ slot_ok (nextpid s) q' /\
      (p_state q' = RUNNING -> p_state q = RUNNING)).
  { intros j q' Hj. destruct (decide (j = i)) as [->|Hne].
    - rewrite list_lookup_alter_eq, Hp in Hj. injection Hj as <-. exists p. by split_and!.
    - rewrite list_lookup_alter_ne in Hj by done. exists q'. split_and!; try done. by apply (H3 j). }
  constructor; cbn; try done.
  - by rewrite length_alter.
  - intros j q' Hj. by destruct (Hl j q' Hj) as (q & _ & _ & ? & _).
  - intros j k q' r' Hj Hk. destruct (Hl j q' Hj) as (q & Hq & -> & _), (Hl k r' Hk) as (r & Hr & -> & _).
    by apply H4.
  - intros j q' Hj Hs. destruct (Hl j q' Hj) as (q & Hq & _ & _ & Hr). apply (H5 j q); auto.
  - intros c j Hr Ho. destruct (H7 c j Hr) as (q & Hq & Hs); [done|].
    destruct (decide (j = i)) as [->|Hne].
    + exfalso. apply Ho. f_equal. by apply (H6 me c i).
    + exists q. by rewrite list_lookup_alter_ne by done.
Qed.

Lemma runs_set me o v s c i :
  (me < length (cpus s))%nat -> c_proc v = o ->
  runs (set_cpus (<[me := v]> (cpus s)) s) c i <->
  if decide (c = me) then o = Some i else runs s c i.
Proof.
  intros Hme Hv. unfold runs.
  assert (length (cpus (set_cpus (<[me := v]> (cpus s)) s)) = length (cpus s)) as -> by apply length_insert.
  destruct (decide (c = me)) as [->|Hne].
  - rewrite this_set by done. rewrite Hv. tauto.
  - by rewrite this_ne by done.
Qed.

(** Back in the scheduler the CPU has no process. *)
Lemma inv_back me s :
  inv (Some me) s -> (forall i p, runs s me i -> ptable s !! i = Some p -> p_state p <> RUNNING) ->
  (me < length (cpus s))%nat ->
  inv None (set_cpus (<[me := set_c_proc None (this me s)]> (cpus s)) s).
Proof.
  intros [H1 H2 H3 H4 H5 H6 H7] Hno Hme.
  assert (Hr : forall c i, runs (set_cpus (<[me := set_c_proc None (this me s)]> (cpus s)) s) c i <->
    c <> me /\ runs s c i).
  { intros c i. rewrite (runs_set me None) by done. destruct (decide (c = me)); naive_solver. }
  constructor; try done.
  - intros i p Hp Hs. destruct (H5 i p Hp Hs) as [c Hc]. exists c. apply Hr. split; [|done].
    intros ->. by apply (Hno i p).
  - intros c d i [_ Hc]%Hr [_ Hd]%Hr. by apply (H6 c d i).
  - intros c i [Hne Hc]%Hr _. apply (H7 c i Hc). congruence.
Qed.

(** The scheduler makes a runnable process the current one, and then RUNNING. *)
Lemma inv_dispatch me i p s :
  inv None s -> c_proc (this me s) = None -> (me < length (cpus s))%nat ->
  ptable s !! i = Some p -> p_state p <> RUNNING ->
  inv (Some me) (set_cpus (<[me := set_c_proc (Some i) (this me s)]> (cpus s)) s).
Proof.
  intros [H1 H2 H3 H4 H5 H6 H7] Hn Hme Hp Hst.
  assert (Hnot : forall c, ~ runs s c i).
  { intros c Hc. destruct (H7 c i Hc) as (q & Hq & ?); [done|]. congruence. }
  assert (Hr : forall c j, runs (set_cpus (<[me := set_c_proc (Some i) (this me s)]> (cpus s)) s) c j <->
    if decide (c = me) then i = j else runs s c j).
  { intros c j. rewrite (runs_set me (Some i)) by done. destruct (decide (c = me)); naive_solver. }
  constructor; try done.
  - intros j q Hq Hs. destruct (H5 j q Hq Hs) as [c Hc]. exists c. apply Hr.
    destruct (decide (c = me)) as [->|]; [|done]. exfalso. destruct Hc as [_ Hc]. congruence.
  - intros c d j Hc Hd. apply Hr in Hc. apply Hr in Hd.
    destruct (decide (c = me)) as [->|], (decide (d = me)) as [->|]; try done; subst.
    + by destruct (Hnot d).
    + by destruct (Hnot c).
    + by apply (H6 c d j).
  - intros c j Hc Ho. apply Hr in Hc. destruct (decide (c = me)) as [->|]; [done|]. by apply (H7 c).
Qed.

Lemma inv_settle me i p f s :
  inv (Some me) s -> runs s me i -> ptable s !! i = Some p -> live p ->
  f p = set_state RUNNING p ->
  inv None (set_ptable (alter f i (ptable s)) s).
Proof.
  intros [H1 H2 H3 H4 H5 H6 H7] Hme Hp Hlive Hf.
  assert (Hl : forall j q', alter f i (ptable s) !! j = Some q' ->
    exists q, ptable s !! j = Some q /\ p_pid q' = p_pid q /\ slot_ok (nextpid s) q' /\
      (j <> i -> q' = q)).
  { intros j q' Hj. destruct (decide (j = i)) as [->|Hne].
    - rewrite list_lookup_alter_eq, Hp in Hj. injection Hj as <-. exists p. rewrite Hf.
      split_and!; try done. destruct (H3 i p Hp). constructor; auto.
    - rewrite list_lookup_alter_ne in Hj by done. exists q'. split_and!; try done. by apply (H3 j). }
  constructor; cbn; try done.
  - by rewrite length_alter.
  - intros j q' Hj. by destruct (Hl j q' Hj) as (q & _ & _ & ? & _).
  - intros j k q' r' Hj Hk. destruct (Hl j q' Hj) as (q & Hq & -> & _), (Hl k r' Hk) as (r & Hr & -> & _).
    by apply H4.
  - intros j q' Hj Hs. destruct (decide (j = i)) as [->|Hne]; [by exists me|].
    destruct (Hl j q' Hj) as (q & Hq & _ & _ & Hr). rewrite (Hr Hne) in Hs. by apply (H5 j q).
  - intros c j Hr%runs_ptable _. destruct (decide (j = i)) as [->|Hne].
    + exists (f p). rewrite list_lookup_alter_eq, Hp. split; [done|by rewrite Hf].
    + destruct (H7 c j Hr) as (q & Hq & Hs).
      * intros [= <-]. destruct Hme as [_ Hme], Hr as [_ Hr]. congruence.
      * exists q. by rewrite list_lookup_alter_ne by done.
Qed.

(** The process of CPU [me] is no longer RUNNING. *)
Definition gave_up (me : nat) (s : pstate) : Prop :=
  (me < length (cpus s))%nat /\
  forall i p, runs s me i -> ptable s !! i = Some p -> p_state p <> RUNNING.

Definition switching (me : nat) (s : pstate) : Prop := inv (Some me) s /\ gave_up me s.

Lemma runs_same s s' c i : same_procs s s' -> runs s' c i <-> runs s c i.
Proof. intros (_ & _ & Hl & Hc). unfold runs. by rewrite Hl, Hc. Qed.

Lemma switching_same me s s' : same_procs s s' -> switching me s -> switching me s'.
Proof.
  intros Hs [Hi [Hl Hg]]. split; [by eapply inv_same|]. split; [by destruct Hs as (_ & _ & -> & _)|].
  intros i p Hr%(runs_same _ _ _ _ Hs) Hp. apply (Hg i p Hr). by destruct Hs as (<- & _).
Qed.

Lemma switching_upd me i f s :
  switching me s -> (forall p, ptable s !! i = Some p -> slot_step (nextpid s) p (f p)) ->
  switching me (set_ptable (alter f i (ptable s)) s).
Proof.
  intros [Hi [Hl Hg]] Hf. split; [by apply inv_upd|]. split; [done|].
  intros j p Hr%runs_ptable Hp. destruct (decide (j = i)) as [->|Hne].
  - cbn in Hp. rewrite list_lookup_alter_eq in Hp. destruct (ptable s !! i) as [q|] eqn:E; [|done].
    injection Hp as <-. rewrite (ss_run _ _ _ (Hf q eq_refl)). by apply (Hg i q).
  - cbn in Hp. rewrite list_lookup_alter_ne in Hp by done. by apply (Hg j p).
Qed.

Lemma sched_keeps me s :
  switching me s -> wlp (sched me) (fun _ s' => switching me s') s.
Proof.
  intros Hsw. unfold sched. wl. apply wlp_myproc. intros i Hi. wl. apply wlp_on_cpu.
  intros h s1 Hs1. pose proof (switching_same _ _ _ Hs1 Hsw) as Hsw1.
  destruct h; cbn [negb]; wl. case_match; wl. apply wlp_getp. intros p Hp.
  case_bool_decide; wl. case_match; wl. apply wlp_updp. wl.
  apply switching_upd; [done|]. intros q Hq. pose proof (i_slot _ _ (proj1 Hsw1) i q Hq). benign.
Qed.

Lemma scheduler_back_keeps me s :
  switching me s ->
  wlp (scheduler_back me) (fun _ s' => inv None s' /\ c_proc (this me s') = None) s.
Proof.
  intros [Hi [Hl Hg]]. unfold scheduler_back. wl. unfold upd_cpu. wl.
  set (s1 := set_cpus _ s). assert (inv None s1) as H1 by (by apply inv_back).
  assert (c_proc (this me s1) = None) as H2 by (unfold s1; by rewrite this_set).
  case_match; wl; [done|]. apply wlp_release. intros s2 Hs2. wl.
  split; [by eapply inv_same|]. destruct Hs2 as (_ & _ & _ & ->). done.
Qed.

(** The process running on [me]. *)
Lemma runs_running s me i :
  inv None s -> runs s me i -> exists p, ptable s !! i = Some p /\ p_state p = RUNNING.
Proof. intros Hi Hr. by apply (i_cpu _ _ Hi me i Hr). Qed.

Lemma runs_me s me i j : runs s me i -> c_proc (this me s) = Some j -> j = i.
Proof. intros [_ H] H'. congruence. Qed.

Lemma same_lookup s s' i : same_procs s s' -> ptable s' !! i = ptable s !! i.
Proof. by intros (-> & _). Qed.

(** The running process of [me] moves to a state other than RUNNING. *)
Lemma give_up_state me i f s p :
  inv None s -> runs s me i -> ptable s !! i = Some p ->
  p_pid (f p) = p_pid p -> p_state (f p) <> RUNNING -> slot_ok (nextpid s) (f p) ->
  switching me (set_ptable (alter f i (ptable s)) s).
Proof.
  intros Hinv Hr Hp H1 H2 H3. split; [by eapply inv_give_up|]. split; [apply Hr|].
  intros j q Hj%runs_ptable Hq. assert (j = i) as -> by (eapply runs_me; [done|apply Hj]).
  cbn in Hq. rewrite list_lookup_alter_eq, Hp in Hq. by injection Hq as <-.
Qed.

Lemma running_slot_ok next st p :
  slot_ok next p -> p_state p = RUNNING -> slot_ok next (set_state st p).
Proof.
  intros [H1 H2 H3 H4] Hs. constructor; cbn; try done. intros _. apply H4. split; congruence.
Qed.

Lemma yield_keeps me i s :
  inv None s -> runs s me i ->
  wlp (yield me) (fun y s' => if (y : bool) then switching me s' else inv None s') s.
Proof.
  intros Hinv Hr. unfold yield. wl. apply wlp_acquire. intros s1 Hs1. wl.
  pose proof (inv_same _ _ _ Hs1 Hinv) as Hinv1. apply (runs_same _ _ _ _ Hs1) in Hr.
  apply wlp_myproc. intros j Hj. assert (j = i) as -> by (by eapply runs_me).
  wl. apply wlp_updp. set (s2 := set_ptable _ s1).
  assert (Hinv2 : inv None s2).
  { apply inv_upd; [done|]. intros p Hp. pose proof (i_slot _ _ Hinv1 i p Hp). benign. }
  assert (Hsy : wlp (_should_yield me) (fun _ s' => same_procs s2 s') s2).
  { unfold _should_yield. wl. apply wlp_myproc. intros j Hj'. wl. apply wlp_getp. intros p Hp. wl.
    case_match; wl. unfold upd_cpu at 1. wl. set (s3 := set_cpus _ s2).
    assert (same_procs s2 s3) as Hs3 by (by apply same_cpu).
    case_match; unfold upd_cpu; wl; [|done].
    eapply same_trans; [apply Hs3|by apply same_cpu]. }
  wl. eapply wlp_mono; [exact Hsy|]. intros [] s3 Hs3; cbv beta.
  - pose proof (inv_same _ _ _ Hs3 Hinv2) as Hinv3. wl. apply wlp_updp. set (s4 := set_ptable _ s3).
    assert (Hinv4 : inv None s4).
    { apply inv_upd; [done|]. intros p Hp. pose proof (i_slot _ _ Hinv3 i p Hp). benign. }
    assert (Hr4 : runs s4 me i) by (by apply runs_ptable, (runs_same _ _ _ _ Hs3), runs_ptable).
    destruct (runs_running _ _ _ Hinv4 Hr4) as (p & Hp & Hst). wl. apply wlp_updp. wl.
    eapply wlp_mono; [apply sched_keeps, (give_up_state me i (set_state RUNNABLE) s4 p); try done|].
    + apply running_slot_ok; [by apply (i_slot _ _ Hinv4 i)|done].
    + intros ? s5 H5. by wl.
  - wl. apply wlp_release. intros s4 Hs4. wl. eapply inv_same, inv_same, Hinv2; done.
Qed.

Lemma sleep_keeps me i ch other s :
  inv None s -> runs s me i -> wlp (sleep me ch other) (fun _ s' => switching me s') s.
Proof.
  intros Hinv Hr. unfold sleep. wl. destruct (c_proc (this me s)) as [j|] eqn:Ej; [|exact I].
  assert (j = i) as -> by (by eapply runs_me). wl.
  assert (H : forall s1, same_procs s s1 ->
    wlp (updp i (set_chan ch) ;; updp i (set_state SLEEPING) ;; sched me) (fun _ => switching me) s1).
  { intros s1 Hs1. pose proof (inv_same _ _ _ Hs1 Hinv) as Hinv1. apply (runs_same _ _ _ _ Hs1) in Hr.
    wl. apply wlp_updp. wl. set (s2 := set_ptable _ s1).
    assert (Hinv2 : inv None s2).
    { apply inv_upd; [done|]. intros p Hp. pose proof (i_slot _ _ Hinv1 i p Hp). benign. }
    destruct (runs_running s2 me i Hinv2) as (p & Hp & Hst); [by apply runs_ptable|].
    apply wlp_updp. eapply wlp_mono; [apply sched_keeps, (give_up_state me i (set_state SLEEPING) s2 p)|]; try done.
    apply running_slot_ok; [by apply (i_slot _ _ Hinv2 i)|done]. }
  destruct other; [apply wlp_acquire; intros s1 Hs1|]; apply H; [done|apply same_refl].
Qed.

Lemma wakeup1_step ch next p : slot_ok next p -> slot_step next p (wakeup1_one ch p).
Proof.
  intros Hok. unfold wakeup1_one.
  destruct (bool_decide_reflect (p_state p = SLEEPING)) as [Hs|Hs]; cbn; [|benign].
  case_bool_decide; [|benign]. apply slot_step_live; cbn; try done; [rewrite Hs; done|].
  intros _. split; congruence.
Qed.

Lemma wakeup_keeps me ch s : inv None s -> wlp (wakeup me ch) (fun _ => inv None) s.
Proof.
  intros Hinv. unfold wakeup, wakeup1. wl. apply wlp_acquire. intros s1 Hs1. wl. apply wlp_release.
  intros s2 Hs2. apply (inv_same _ _ _ Hs2). pose proof (inv_same _ _ _ Hs1 Hinv) as Hinv1.
  apply inv_fmap; [done|]. intros i p Hp. apply wakeup1_step. by apply (i_slot _ _ Hinv1 i).
Qed.

(** *** The scheduler *)

Definition runnable_at (tbl : list proc) (r : Z) : Prop :=
  exists p, tbl !! Z.to_nat r = Some p /\ p_state p = RUNNABLE.

Lemma ready_runnable q p : ready q p = true -> p_state p = RUNNABLE.
Proof. unfold ready. intros [H _]%andb_true_iff. by apply bool_decide_eq_true in H. Qed.

Lemma rr_loop_runnable n tbl index :
  snd (rr_loop n tbl index) = -1 \/ runnable_at tbl (snd (rr_loop n tbl index)).
Proof.
  revert index; induction n as [|n IH]; intros index; cbn [rr_loop]; [by left|].
  destruct (tbl !! Z.to_nat _) as [p|] eqn:Ep; [|apply IH].
  destruct (ready 0 p) eqn:Er; cbn [negb]; [|apply IH]. right. exists p. split; [done|].
  by eapply ready_runnable.
Qed.

Lemma sjf_collect_runnable fuel tbl v px l :
  (forall j, j ∈ px -> runnable_at tbl (Z.of_nat j)) ->
  sjf_collect fuel tbl v px = SjfList l -> forall j, j ∈ l -> runnable_at tbl (Z.of_nat j).
Proof.
  revert v px; induction fuel as [|f IH]; intros v px Hpx; cbn [sjf_collect];
    (destruct (_ <? _)%nat; [|by intros [= <-]]); [done|].
  rewrite sjf_scan_eq. case_match; [done|].
  assert (H' : forall j, j ∈ px ++ jobs v 0 tbl -> runnable_at tbl (Z.of_nat j)).
  { intros j [Hj|Hj]%elem_of_app; [by apply Hpx|]. apply jobs_elem in Hj as (_ & p & Hp & Hr & _).
    rewrite Nat.sub_0_r in Hp. exists p. rewrite Nat2Z.id. split; [done|]. by eapply ready_runnable. }
  case_match; [by intros [= <-]|]. by apply IH.
Qed.

Lemma pick_keeps q s :
  wlp (if q =? 0 then _RR_scheduler else if q =? 1 then _SJF_scheduler
       else if q =? 2 then _FCFS_scheduler else _RR_scheduler)
    (fun r s' => same_procs s s' /\ (r = -1 \/ runnable_at (ptable s) r)) s.
Proof.
  assert (Hrr : wlp _RR_scheduler (fun r s' => same_procs s s' /\ (r = -1 \/ runnable_at (ptable s) r)) s).
  { unfold _RR_scheduler. wl. pose proof (rr_loop_runnable NPROC (ptable s) (rr_index s)) as H.
    destruct (rr_loop _ _ _) as [x r]. wl. done. }
  destruct (q =? 0); [done|]. destruct (q =? 1); [|destruct (q =? 2); [|done]].
  - unfold _SJF_scheduler. wl. destruct (sjf_collect _ _ _ _) as [l| |] eqn:El; [|exact I..].
    assert (Hl := sjf_collect_runnable _ _ _ _ _ (fun j Hj => match not_elem_of_nil j Hj with end) El).
    pose proof (sjf_draw_spec (ticks s) (ptable s) l (sjf_seed s)) as Hd.
    destruct (sjf_draw _ _ _ _) as [[i|] seed]; wl; (split; [done|]).
    + right. destruct Hd as (pre & post & -> & _). apply Hl, elem_of_app. right. by left.
    + destruct (last l) as [i|] eqn:E; [right|by left].
      apply last_Some in E as [l' ->]. apply Hl, elem_of_app. right. by left.
  - unfold _FCFS_scheduler. wl. split; [done|].
    destruct (fcfs_loop_spec 0 (ptable s) BIG (-1)) as [[-> _]|(j & p & -> & Hp & Hr & _)]; [by left|right].
    exists p. rewrite Nat2Z.id. split; [done|]. by eapply ready_runnable.
Qed.

Lemma wlp_turn {A} me (f : unit -> M pstate A) Q s :
  (me < length (cpus s))%nat -> wlp (f tt) Q (turn me s) ->
  wlp (when (c_runs (this me s) =? 0)
    (upd_cpu me (fun c => set_c_queue (Z.rem (c_queue c + 1) 3) c)) ≫= f) Q s.
Proof. intros Hme H. unfold wlp. by rewrite turn_run. Qed.

Lemma scheduler_loop_keeps fuel me s :
  inv None s -> c_proc (this me s) = None -> (me < length (cpus s))%nat ->
  wlp (scheduler_loop fuel me) (fun r s' => inv None s' /\
    match r with Some i => runs s' me i | None => c_proc (this me s') = None end) s.
Proof.
  revert s; induction fuel as [|fuel IH]; intros s Hinv Hn Hme; cbn [scheduler_loop]; [exact I|].
  wlp_step. wlp_step. apply wlp_turn; [done|].
  assert (Hs1 : same_procs s (turn me s)) by (by apply same_cpu).
  wl. eapply wlp_mono; [apply pick_keeps|]. cbv beta.
  intros r s2 [Hs2 Hr]. pose proof (same_trans _ _ _ Hs1 Hs2) as Hs. clear Hs1.
  assert (Hinv2 := inv_same _ _ _ Hs Hinv).
  assert (Hn2 : c_proc (this me s2) = None) by (destruct Hs as (_ & _ & _ & ->); done).
  assert (Hme2 : (me < length (cpus s2))%nat) by (destruct Hs as (_ & _ & -> & _); done).
  destruct (Z.eqb_spec r (-1)).
  - unfold upd_cpu. wl. set (s3 := set_cpus _ s2).
    assert (Hs3 : same_procs s2 s3) by (by apply same_cpu). pose proof (inv_same _ _ _ Hs3 Hinv2) as Hinv3.
    assert (Hn3 : c_proc (this me s3) = None) by (destruct Hs3 as (_ & _ & _ & ->); done).
    case_match; wl; [done|]. apply IH; [done|done|]. by destruct Hs3 as (_ & _ & -> & _).
  - destruct Hr as [|(p & Hp & Hst)]; [done|].
    assert (Hp2 : ptable s2 !! Z.to_nat r = Some p) by (by rewrite (same_lookup _ _ _ Hs2)).
    set (i := Z.to_nat r) in *. wl. apply wlp_updp. wl. unfold upd_cpu. wl. set (s3 := set_ptable _ s2).
    assert (Hinv3 : inv None s3).
    { apply inv_upd; [done|]. intros q Hq. pose proof (i_slot _ _ Hinv2 i q Hq). benign. }
    assert (Hp3 : ptable s3 !! i = Some (set_wait_time 0 p)) by (cbn; by rewrite list_lookup_alter_eq, Hp2).
    set (s4 := set_cpus _ s3). assert (Hinv4 : inv (Some me) s4).
    { apply (inv_dispatch me i (set_wait_time 0 p)); try done. cbn. congruence. }
    assert (Hr4 : runs s4 me i) by (apply (runs_set me (Some i)); [done..|]; by rewrite decide_True).
    unfold switchuvm. wl. apply wlp_getp. intros q Hq. case_match; wl. case_match; wl.
    apply wlp_updp. wl. split; [|done]. apply (inv_settle me i (set_wait_time 0 p)); try done.
    split; cbn; congruence.
Qed.

Lemma scheduler_enter_keeps me s :
  inv None s -> c_proc (this me s) = None -> (me < length (cpus s))%nat ->
  wlp (scheduler_enter me) (fun _ s' => inv None s') s.
Proof.
  intros Hinv Hn Hme. unfold scheduler_enter. wl. apply wlp_on_cpu. intros _ s1 Hs1. wl.
  apply wlp_acquire. intros s2 Hs2. pose proof (same_trans _ _ _ Hs1 Hs2) as Hs. wl.
  eapply wlp_mono; [apply scheduler_loop_keeps|].
  - by eapply inv_same.
  - destruct Hs as (_ & _ & _ & ->). done.
  - destruct Hs as (_ & _ & -> & _). done.
  - intros [i|] s3 [Hinv3 _]; wl; [done|]. apply wlp_release. intros s4 Hs4. wl. by eapply inv_same.
Qed.

(** *** Calls that change fields the invariant is not about *)

Lemma aging_step next now p : slot_ok next p -> slot_step next p (aged now p).
Proof.
  intros Hp. unfold aged, aging_one. case_bool_decide; [|benign]. cbv zeta.
  destruct (_ && _); [|benign]. destruct (Cprintf.cprintf _ _); benign.
Qed.

Lemma _aging_keeps me s : inv None s -> wlp (_aging me) (fun _ => inv None) s.
Proof.
  intros Hinv. unfold _aging. wl. apply wlp_acquire. intros s1 Hs1. wl.
  pose proof (inv_same _ _ _ Hs1 Hinv) as Hinv1.
  match goal with H : mapM _ _ = Some _ |- _ => rename H into Hm end.
  destruct (mapM_aging (ticks s1) (ptable s1)) as (r & E & Er). rewrite E in Hm. injection Hm as <-.
  rewrite Er. apply wlp_release. intros s2 Hs2. apply (inv_same _ _ _ Hs2).
  apply (inv_fmap None (set_out _ s1)); [by apply (inv_same None s1)|].
  intros i p Hp. apply aging_step. by apply (i_slot _ _ Hinv1 i).
Qed.

Lemma wlp_print fmt args (Q : unit -> pstate -> Prop) s :
  (forall s', same_procs s s' -> Q tt s') -> wlp (print fmt args) Q s.
Proof. intros HQ. unfold print. wl. by apply HQ. Qed.

Lemma kill_keeps me pid s : inv None s -> wlp (kill me pid) (fun _ => inv None) s.
Proof.
  intros Hinv. unfold kill. wl. apply wlp_acquire. intros s1 Hs1. wl.
  pose proof (inv_same _ _ _ Hs1 Hinv) as Hinv1.
  destruct (find_slot _ _) as [i|]; wl; [|apply wlp_release; intros s2 Hs2; wl; by eapply inv_same].
  apply wlp_updp. wl. set (s2 := set_ptable _ s1).
  assert (Hinv2 : inv None s2).
  { apply inv_upd; [done|]. intros p Hp. pose proof (i_slot _ _ Hinv1 i p Hp). benign. }
  apply wlp_getp. intros p Hp. wl. case_bool_decide as Hs.
  - apply wlp_updp. wl. apply wlp_release. intros s3 Hs3. wl. apply (inv_same _ _ _ Hs3).
    apply inv_upd; [done|]. intros q Hq. assert (q = p) as -> by congruence.
    apply slot_step_live; cbn; try done; [by apply (i_slot _ _ Hinv2 i)|by rewrite Hs|].
    intros _. split; congruence.
  - wl. apply wlp_release. intros s3 Hs3. wl. by eapply inv_same.
Qed.

Lemma set_queue_keeps me pid q s : inv None s -> wlp (Info.set_queue me pid q) (fun _ => inv None) s.
Proof.
  intros Hinv. unfold Info.set_queue.
  case_match; [wl; apply wlp_print; intros s1 Hs1; wl; by eapply inv_same|].
  case_match; [wl; apply wlp_print; intros s1 Hs1; wl; by eapply inv_same|].
  wl. apply wlp_acquire. intros s1 Hs1. wl. pose proof (inv_same _ _ _ Hs1 Hinv) as Hinv1.
  destruct (find_slot _ _) as [i|]; wl; [|apply wlp_release; intros s2 Hs2; wl; by eapply inv_same].
  apply wlp_getp. intros p Hp. case_match; wl.
  - apply wlp_print. intros s2 Hs2. wl. apply wlp_release. intros s3 Hs3. wl.
    by eapply inv_same, inv_same.
  - apply wlp_updp. wl. apply wlp_updp. wl. apply wlp_release. intros s3 Hs3. wl.
    apply (inv_same _ _ _ Hs3). apply inv_upd; [apply inv_upd; [done|]|].
    + intros q' Hq. pose proof (i_slot _ _ Hinv1 i q' Hq). benign.
    + intros q' Hq. cbn in Hq. rewrite list_lookup_alter_eq, Hp in Hq. injection Hq as <-.
      pose proof (i_slot _ _ Hinv1 i p Hp) as []. benign. by constructor.
Qed.

Lemma set_sjf_info_keeps me pid b c s :
  inv None s -> wlp (Info.set_sjf_info me pid b c) (fun _ => inv None) s.
Proof.
  intros Hinv. unfold Info.set_sjf_info. wl. apply wlp_acquire. intros s1 Hs1. wl.
  pose proof (inv_same _ _ _ Hs1 Hinv) as Hinv1.
  case_match; [wl; apply wlp_print; intros s2 Hs2; wl; by eapply inv_same|]. wl.
  destruct (find_slot _ _) as [i|]; wl; [|apply wlp_release; intros s2 Hs2; wl; by eapply inv_same].
  apply wlp_updp. wl. apply wlp_updp. wl. apply wlp_release. intros s3 Hs3. wl.
  apply (inv_same _ _ _ Hs3). apply inv_upd; [apply inv_upd; [done|]|].
  - intros q' Hq. pose proof (i_slot _ _ Hinv1 i q' Hq). benign.
  - intros q' Hq. cbn in Hq. rewrite list_lookup_alter_eq in Hq.
    destruct (ptable s1 !! i) as [p|] eqn:Hp; [|done]. injection Hq as <-.
    pose proof (i_slot _ _ Hinv1 i p Hp) as []. benign. by constructor.
Qed.

(** *** Birth and death *)

Lemma inv_alloc s i p :
  inv None s -> ptable s !! i = Some p -> p_state p = UNUSED ->
  inv None (set_nextpid (nextpid s + 1) (set_ptable
    (alter (set_pid (nextpid s)) i (alter (set_state EMBRYO) i (ptable s))) s)).
Proof.
  intros [H1 H2 H3 H4 H5 H6 H7] Hp Hst. set (n := nextpid s) in *.
  assert (Hl : forall j q', alter (set_pid n) i (alter (set_state EMBRYO) i (ptable s)) !! j = Some q' ->
    (j = i /\ q' = set_pid n (set_state EMBRYO p)) \/ (j <> i /\ ptable s !! j = Some q')).
  { intros j q' Hj. destruct (decide (j = i)) as [->|Hne].
    - rewrite !list_lookup_alter_eq, Hp in Hj. injection Hj as <-. by left.
    - rewrite !list_lookup_alter_ne in Hj by done. by right. }
  constructor; cbn; try done.
  - by rewrite !length_alter.
  - lia.
  - intros j q' Hj. destruct (Hl j q' Hj) as [[-> ->]|[Hne Hq]].
    + destruct (H3 i p Hp). constructor; cbn; try done; [lia|]. intros [_ []]. done.
    + destruct (H3 j q' Hq). constructor; try done. lia.
  - intros j k q' r' Hj Hk. pose proof (fun q j Hq => sl_pid _ _ (H3 j q Hq)) as Hlt.
    destruct (Hl j q' Hj) as [[-> ->]|[Hne Hq]], (Hl k r' Hk) as [[-> ->]|[Hne' Hr]]; cbn; try done.
    + intros E. specialize (Hlt r' k Hr). lia.
    + intros E. specialize (Hlt q' j Hq). lia.
    + by apply H4.
  - intros j q' Hj Hs. destruct (Hl j q' Hj) as [[-> ->]|[Hne Hq]]; [done|]. by apply (H5 j q').
  - intros c j Hr _. destruct (H7 c j Hr) as (q & Hq & Hs); [done|].
    assert (j <> i) by (intros ->; congruence). exists q. by rewrite !list_lookup_alter_ne by done.
Qed.

Section LifeInv.
Context {E : Type} `{ProcEnv E}.

Lemma wlp_P {A} (m : M pstate A) (Q : A -> kst E -> Prop) s e :
  wlp m (fun a s' => Q a (s', e)) s -> wlp (P m) Q (s, e).
Proof. intros Hm. unfold P. by apply wlp_zoom. Qed.

Lemma wlp_X {A} (m : M E A) (Q : A -> kst E -> Prop) s e :
  (forall a e', Q a (s, e')) -> wlp (X m) Q (s, e).
Proof. intros HQ. unfold X. apply wlp_zoom. unfold wlp. by destruct (m _). Qed.

(** Updates of a slot that is not that of a running process. *)
Definition embryo (s : pstate) (i : nat) : Prop :=
  exists p, ptable s !! i = Some p /\ p_state p = EMBRYO.

Lemma inv_embryo i f s :
  inv None s -> embryo s i ->
  (forall p, p_state p = EMBRYO -> slot_ok (nextpid s) p ->
     p_pid (f p) = p_pid p /\ p_state (f p) <> RUNNING /\ slot_ok (nextpid s) (f p)) ->
  inv None (set_ptable (alter f i (ptable s)) s).
Proof.
  intros Hinv (p & Hp & Hs) Hf. apply inv_upd; [done|]. intros q Hq.
  assert (q = p) as -> by congruence.
  destruct (Hf p Hs (i_slot _ _ Hinv i p Hp)) as (H1 & H2 & H3). constructor; [by left| |done].
  split; [done|congruence].
Qed.

Lemma embryo_upd i f s :
  embryo s i -> (forall p, p_state (f p) = p_state p) ->
  embryo (set_ptable (alter f i (ptable s)) s) i.
Proof.
  intros (p & Hp & Hs) Hf. exists (f p). cbn. rewrite list_lookup_alter_eq, Hp. split; [done|].
  by rewrite Hf.
Qed.

Lemma embryo_same i s s' : same_procs s s' -> embryo s i -> embryo s' i.
Proof. intros Hs (p & Hp & ?). exists p. by rewrite (same_lookup _ _ _ Hs). Qed.

Lemma slot_ok_embryo next p p' :
  p_state p = EMBRYO -> slot_ok next p -> p_pid p' = p_pid p -> p_state p' = p_state p ->
  length (p_ofile p') = length (p_ofile p) -> length (p_sc p') = length (p_sc p) ->
  p_pid p' = p_pid p /\ p_state p' <> RUNNING /\ slot_ok next p'.
Proof.
  intros Hs [H1 H2 H3 H4] E1 E2 E3 E4. split_and!; [done|congruence|].
  constructor; rewrite ?E1, ?E3, ?E4; try done. intros [_ Hl]. congruence.
Qed.

Lemma allocproc_keeps me s e :
  inv None s ->
  wlp (allocproc me) (fun r k => inv None (fst k) /\
    (forall c i, runs (fst k) c i <-> runs s c i) /\
    match r with
    | Some i => exists p, ptable (fst k) !! i = Some p /\ p_state p = EMBRYO /\
        p_pid p <> 0 /\ p_kstack p <> 0
    | None => True
    end) (s, e).
Proof.
  intros Hinv. unfold allocproc. wl. apply wlp_P, wlp_acquire. intros s1 Hs1. wl. cbn [fst].
  pose proof (inv_same _ _ _ Hs1 Hinv) as Hinv1.
  assert (Hr1 : forall c i, runs s1 c i <-> runs s c i) by (intros; by apply runs_same).
  destruct (find_slot _ _) as [i|] eqn:Ei; wl.
  - apply find_slot_Some in Ei as [(p & Hp & Hst%bool_decide_eq_true) _].
    apply wlp_P, wlp_updp. wl. apply wlp_P, wlp_updp. wl. case_match; [exact I|].
    apply wlp_P. wl. pose proof (inv_alloc s1 i p Hinv1 Hp Hst) as Hinv2. cbn [ptable set_ptable].
    change (inv None (set_nextpid (nextpid s1 + 1) (set_ptable (alter (set_pid (nextpid s1)) i
      (alter (set_state EMBRYO) i (ptable s1))) (set_ptable (alter (set_state EMBRYO) i (ptable s1)) s1))))
      in Hinv2.
    set (s2 := set_nextpid _ _) in *.
    assert (Hp2 : ptable s2 !! i = Some (set_pid (nextpid s1) (set_state EMBRYO p))).
    { cbn. by rewrite !list_lookup_alter_eq, Hp. }
    wl. apply wlp_P, wlp_release. intros s3 Hs3. wl. apply wlp_X. intros stk e'. wl.
    apply wlp_P, wlp_updp. pose proof (inv_same _ _ _ Hs3 Hinv2) as Hinv3. set (s4 := set_ptable _ s3).
    assert (Hp3 : ptable s3 !! i = Some (set_pid (nextpid s1) (set_state EMBRYO p)))
      by (by rewrite (same_lookup _ _ _ Hs3)).
    assert (He3 : embryo s3 i) by (by eexists).
    assert (Hinv4 : inv None s4).
    { apply inv_embryo; try done. intros q Hq1 Hq2. by apply slot_ok_embryo. }
    assert (Hr4 : forall c j, runs s4 c j <-> runs s c j).
    { intros c j. unfold s4. rewrite runs_ptable, (runs_same _ _ _ _ Hs3). apply Hr1. }
    assert (He4 : embryo s4 i) by (by apply embryo_upd).
    destruct (Z.eqb_spec stk 0) as [E0|E0]; wl.
    + apply wlp_P, wlp_updp. wl. split; [|done]. apply inv_embryo; try done.
      intros q Hq1 [K1 K2 K3 K4]. split_and!; try done. constructor; try done. by intros [[] _].
    + apply wlp_P, wlp_updp. wl. cbn [fst]. split_and!.
      * apply inv_embryo; try done. intros q Hq1 Hq2. apply slot_ok_embryo; try done.
        transitivity NSYSCALLS; [reflexivity|symmetry; apply Hq2].
      * done.
      * eexists. cbn. rewrite !list_lookup_alter_eq, Hp3. split; [done|]. cbn. split_and!; try done.
        pose proof (i_next _ _ Hinv1). lia.
  - apply wlp_P, wlp_release. intros s2 Hs2. wl. cbn [fst]. split; [by eapply inv_same|].
    split; [|done]. intros c i. by rewrite (runs_same _ _ _ _ Hs2).
Qed.

(** *** fork *)

(** Slot [np] is an embryo of which [F] holds. *)
Definition emb (F : proc -> Prop) (s : pstate) (np : nat) : Prop :=
  exists p, ptable s !! np = Some p /\ p_state p = EMBRYO /\ F p.

Lemma wlp_emb (F G : proc -> Prop) f np (Q : unit -> kst E -> Prop) s e :
  inv None s -> emb F s np ->
  (forall p, p_pid (f p) = p_pid p /\ p_state (f p) = p_state p /\
     length (p_ofile (f p)) = length (p_ofile p) /\ length (p_sc (f p)) = length (p_sc p)) ->
  (forall p, F p -> G (f p)) ->
  (forall s', inv None s' -> emb G s' np -> Q tt (s', e)) ->
  wlp (P (updp np f)) Q (s, e).
Proof.
  intros Hinv (p & Hp & Hs & HF) Hf HG HQ. apply wlp_P, wlp_updp, HQ.
  - apply inv_embryo; [done|by exists p|]. intros q Hq1 Hq2.
    destruct (Hf q) as (? & ? & ? & ?). by apply slot_ok_embryo.
  - exists (f p). cbn. rewrite list_lookup_alter_eq, Hp. destruct (Hf p) as (_ & -> & _).
    split_and!; auto.
Qed.

Lemma emb_same F s s' np : same_procs s s' -> emb F s np -> emb F s' np.
Proof. intros Hs (p & Hp & ?). exists p. by rewrite (same_lookup _ _ _ Hs). Qed.

(** Ready but for its memory, and ready. *)
Definition has_stack (p : proc) : Prop := p_pid p <> 0 /\ p_kstack p <> 0.
Definition has_mem (p : proc) : Prop := has_stack p /\ p_pgdir p <> 0.

Lemma dup_files_keeps fs fd np (Q : unit -> kst E -> Prop) s e :
  inv None s -> emb has_mem s np ->
  (forall s' e', inv None s' -> emb has_mem s' np -> Q tt (s', e')) ->
  wlp (dup_files fs fd np) Q (s, e).
Proof.
  revert fd s e; induction fs as [|[f|] fs IH]; intros fd s e Hinv Hemb HQ; cbn [dup_files]; wl.
  - by apply HQ.
  - apply wlp_X. intros f' e'. eapply (wlp_emb has_mem has_mem); [done..| | |].
    + intros p. cbn. by rewrite length_insert.
    + intros p Hp. exact Hp.
    + intros s' Hinv' Hemb'. by apply IH.
  - by apply IH.
Qed.

(** The end of [fork_copy] and of [userinit]. *)
Lemma make_runnable_keeps np s :
  inv None s -> emb has_mem s np -> inv None (set_ptable (alter (set_state RUNNABLE) np (ptable s)) s).
Proof.
  intros Hinv (r & Hr & Hrs & [[Hr1 Hr2] Hr3]). apply inv_upd; [done|]. intros r' Hr'.
  assert (r' = r) as -> by congruence. destruct (i_slot _ _ Hinv np r Hr).
  constructor; [by left|split; cbn; congruence|by constructor].
Qed.

Lemma fork_copy_keeps me cur np s e :
  inv None s -> emb has_stack s np ->
  wlp (fork_copy me cur np) (fun _ k => inv None (fst k)) (s, e).
Proof.
  intros Hinv Hemb. unfold fork_copy. wl. apply wlp_P, wlp_getp. intros p Hp. wl.
  apply wlp_X. intros d e1. wl. destruct (Z.eqb_spec d 0) as [->|Hd].
  - eapply (wlp_emb has_stack has_stack); [done..|intros; split_and!; done|done|]. intros s1 Hinv1 Hemb1. wl.
    apply wlp_P, wlp_getp. intros q Hq. wl. apply wlp_X. intros _ e2. wl.
    eapply (wlp_emb _ (fun _ => True)); [done..|intros; split_and!; done|done|]. intros s2 Hinv2 Hemb2. wl.
    apply wlp_P, wlp_updp. wl. destruct Hemb2 as (q' & Hq' & Hs' & _).
    apply inv_embryo; [done|by exists q'|]. intros r Hr1 [K1 K2 K3 K4].
    split_and!; try done. constructor; try done. by intros [[] _].
  - eapply (wlp_emb has_stack has_mem); [done..|intros; split_and!; done|done|]. intros s1 Hinv1 Hemb1. wl.
    do 4 (eapply (wlp_emb has_mem has_mem); [done..|intros; split_and!; done|done|];
      clear dependent s1; intros s1 Hinv1 Hemb1; wl).
    eapply dup_files_keeps; [done..|]. clear dependent s1. intros s1 e2 Hinv1 Hemb1. wl.
    apply wlp_X. intros c e3. wl.
    do 2 (eapply (wlp_emb has_mem has_mem); [done..|intros; split_and!; done|done|];
      clear dependent s1; intros s1 Hinv1 Hemb1; wl).
    apply wlp_P, wlp_getp. intros q Hq. wl. apply wlp_P, wlp_acquire. intros s2 Hs2. wl.
    pose proof (inv_same _ _ _ Hs2 Hinv1) as Hinv2. pose proof (emb_same _ _ _ _ Hs2 Hemb1) as Hemb2.
    assert (Hend : forall s3, inv None s3 -> emb has_mem s3 np ->
      wlp (P (updp np (set_state RUNNABLE)) ;; P (pt_release me) ;; mret (p_pid q))
        (fun _ k => inv None (fst k)) (s3, e3)).
    { intros s3 Hinv3 Hemb3. wl. apply wlp_P, wlp_updp. wl. apply wlp_P, wlp_release.
      intros s4 Hs4. wl. by apply (inv_same _ _ _ Hs4), make_runnable_keeps. }
    case_match; [|wl; by apply Hend].
    eapply (wlp_emb has_mem has_mem); [done..|intros; split_and!; done|done|].
    intros s3 Hinv3 Hemb3. by apply Hend.
Qed.

Lemma userinit_keeps me s e :
  inv None s -> wlp (userinit me) (fun _ k => inv None (fst k)) (s, e).
Proof.
  intros Hinv. unfold userinit. wl. eapply wlp_mono; [by apply allocproc_keeps|]. cbv beta.
  intros r [s1 e1] (Hinv1 & _ & Hr). wl. apply wlp_P. wl. subst r.
  destruct Hr as (p & Hp & Hs & Hpid & Hk). cbn [fst] in *.
  apply wlp_X. intros d e2. wl. set (s2 := set_initproc _ s1).
  assert (Hinv2 : inv None s2) by (by apply (inv_same None s1)).
  assert (He2 : emb has_stack s2 a) by (by exists p).
  destruct (Z.eqb_spec d 0) as [->|Hd]; [apply wlp_P, wlp_updp; exact I|].
  eapply (wlp_emb has_stack has_mem); [done..|intros; split_and!; done|done|].
  clear dependent s2. intros s2 Hinv2 Hemb2. wl. apply wlp_X. intros _ e3. wl.
  do 3 (eapply (wlp_emb has_mem has_mem); [done..|intros; split_and!; done|done|];
    clear dependent s2; intros s2 Hinv2 Hemb2; wl).
  apply wlp_X. intros c e4. wl.
  eapply (wlp_emb has_mem has_mem); [done..|intros; split_and!; done|done|];
    clear dependent s2; intros s2 Hinv2 Hemb2; wl.
  apply wlp_P, wlp_acquire. intros s3 Hs3. wl. apply wlp_P, wlp_updp. wl.
  apply wlp_P, wlp_release. intros s4 Hs4. apply (inv_same _ _ _ Hs4), make_runnable_keeps.
  - by eapply inv_same.
  - by eapply emb_same.
Qed.

(** *** exit and wait *)

(** The invariant holds again and the CPUs run what they ran. *)
Definition keeps (s s' : pstate) : Prop :=
  inv None s' /\ forall c i, runs s' c i <-> runs s c i.

Lemma keeps_refl s : inv None s -> keeps s s.
Proof. done. Qed.

Lemma keeps_trans s1 s2 s3 : keeps s1 s2 -> keeps s2 s3 -> keeps s1 s3.
Proof. intros [_ H1] [H2 H3]. split; [done|]. intros c i. by rewrite H3, H1. Qed.

Lemma keeps_same s s1 s2 : keeps s s1 -> same_procs s1 s2 -> keeps s s2.
Proof.
  intros [H1 H2] Hs. split; [by eapply inv_same|]. intros c i. by rewrite (runs_same _ _ _ _ Hs), H2.
Qed.

Lemma keeps_upd s s1 i f :
  keeps s s1 -> (forall next p, slot_ok next p -> slot_step next p (f p)) ->
  keeps s (set_ptable (alter f i (ptable s1)) s1).
Proof.
  intros [H1 H2] Hf. split; [|done]. apply inv_upd; [done|]. intros p Hp. apply Hf.
  by apply (i_slot _ _ H1 i).
Qed.

Lemma wakeup1_keeps' ch s s1 :
  keeps s s1 -> keeps s (set_ptable (wakeup1_one ch <$> ptable s1) s1).
Proof.
  intros [H1 H2]. split; [|done]. apply inv_fmap; [done|]. intros i p Hp.
  apply wakeup1_step. by apply (i_slot _ _ H1 i).
Qed.

Lemma exit_loop_keeps n j cur s s1 :
  keeps s s1 -> wlp (exit_loop n j cur) (fun _ => keeps s) s1.
Proof.
  revert j s1; induction n as [|n IH]; intros j s1 Hk; cbn [exit_loop]; wl; [done|].
  apply wlp_getp. intros p Hp. wl. case_bool_decide; wl; [|by apply IH].
  apply wlp_updp. assert (Hk2 : keeps s (set_ptable (alter (set_parent (initproc s1)) j (ptable s1)) s1)).
  { apply keeps_upd; [done|]. intros. benign. }
  wl. case_bool_decide; [|by apply IH]. unfold wakeup1. wl. by apply IH, wakeup1_keeps'.
Qed.

Lemma close_files_keeps fs fd cur s s1 e :
  keeps s s1 -> wlp (close_files fs fd cur) (fun _ k => keeps s (fst k)) (s1, e).
Proof.
  revert fd s1 e; induction fs as [|[f|] fs IH]; intros fd s1 e Hk; cbn [close_files]; wl; [done| |by apply IH].
  apply wlp_X. intros _ e'. wl. apply wlp_P, wlp_updp. apply IH, keeps_upd; [done|].
  intros next p Hp. apply slot_step_live; try done. cbn. by rewrite length_insert.
Qed.

Lemma exit_keeps me i s e :
  inv None s -> runs s me i -> wlp (exit me) (fun _ k => switching me (fst k)) (s, e).
Proof.
  intros Hinv Hr. unfold exit. wl. apply wlp_P, wlp_myproc. intros j Hj.
  assert (j = i) as -> by (by eapply runs_me). wl. case_bool_decide; [exact I|]. wl.
  apply wlp_P, wlp_getp. intros p Hp. wl.
  eapply wlp_mono; [apply close_files_keeps, keeps_refl, Hinv|]. cbv beta. intros _ [s1 e1] Hk1. cbn [fst] in Hk1.
  wl. apply wlp_X. intros _ e2. wl. apply wlp_P, wlp_updp.
  assert (Hk2 : keeps s (set_ptable (alter (set_cwd None) i (ptable s1)) s1)).
  { apply keeps_upd; [done|]. intros. benign. }
  wl. apply wlp_P, wlp_acquire. intros s3 Hs3. pose proof (keeps_same _ _ _ Hk2 Hs3) as Hk3.
  apply wlp_P. unfold exit_locked. wl. apply wlp_getp. intros q Hq. wl. unfold wakeup1 at 1. wl.
  eapply wlp_mono; [by apply exit_loop_keeps, wakeup1_keeps'|]. cbv beta. intros _ s4 [Hinv4 Hr4].
  apply Hr4 in Hr. destruct (runs_running _ _ _ Hinv4 Hr) as (r & Hrp & Hrs). wl. apply wlp_updp. wl.
  eapply wlp_mono; [apply sched_keeps, (give_up_state me i (set_state ZOMBIE) s4 r); try done|].
  - apply running_slot_ok; [by apply (i_slot _ _ Hinv4 i)|done].
  - intros ? s5 Hs5. by wl.
Qed.

Lemma reaped_step now next p :
  slot_ok next p -> p_state p = ZOMBIE -> slot_step next p (reaped now p).
Proof.
  intros [H1 H2 H3 H4] Hs. constructor; [by right|split; cbn; congruence|].
  constructor; try done; [cbn; lia|]. by intros [[] _].
Qed.

Lemma wait_turn_keeps me i s e :
  inv None s -> runs s me i ->
  wlp (wait_turn me i) (fun r k =>
    match r with Some _ => inv None (fst k) | None => switching me (fst k) end) (s, e).
Proof.
  intros Hinv Hr. unfold wait_turn. wl. cbn [fst].
  destruct (find_slot _ _) as [j|] eqn:Ej; wl; [|apply wlp_P, wlp_getp; intros p Hp; case_match; wl].
  - apply find_slot_Some in Ej as [(p & Hp & [_ Hs%bool_decide_eq_true]%andb_true_iff) _].
    apply wlp_P, wlp_getp. intros p' Hp'. assert (p' = p) as -> by congruence. wl.
    apply wlp_X. intros _ e1. wl. apply wlp_X. intros _ e2. wl. apply wlp_P, wlp_updp. wl.
    apply wlp_P, wlp_release. intros s2 Hs2. wl. apply (inv_same _ _ _ Hs2), inv_upd; [done|].
    intros q Hq. assert (q = p) as -> by congruence. apply reaped_step; [|done].
    by apply (i_slot _ _ Hinv j).
  - apply wlp_P, wlp_release. intros s2 Hs2. wl. by eapply inv_same.
  - apply wlp_P. eapply wlp_mono; [by eapply sleep_keeps|]. intros ? s2 Hs2. by wl.
Qed.

Lemma wait_keeps me i s e :
  inv None s -> runs s me i ->
  wlp (wait me) (fun r k =>
    match r with Some _ => inv None (fst k) | None => switching me (fst k) end) (s, e).
Proof.
  intros Hinv Hr. unfold wait. wl. apply wlp_P, wlp_myproc. intros j Hj.
  assert (j = i) as -> by (by eapply runs_me). wl. apply wlp_P, wlp_acquire. intros s1 Hs1.
  apply wait_turn_keeps; [by eapply inv_same|by apply (runs_same _ _ _ _ Hs1)].
Qed.

Lemma wait_resume_keeps me i s e :
  inv None s -> runs s me i ->
  wlp (wait_resume me) (fun r k =>
    match r with Some _ => inv None (fst k) | None => switching me (fst k) end) (s, e).
Proof.
  intros Hinv Hr. unfold wait_resume. wl. apply wlp_P, wlp_myproc. intros j Hj.
  assert (j = i) as -> by (by eapply runs_me). wl. apply wlp_P. unfold sleep_resume. wl.
  apply wlp_updp. wl. cbn. apply wait_turn_keeps; [|done]. apply (keeps_upd s s); [done|].
  intros. benign.
Qed.

Lemma growproc_keeps me n s e :
  inv None s -> wlp (growproc me n) (fun _ k => inv None (fst k)) (s, e).
Proof.
  intros Hinv. unfold growproc. wl. apply wlp_P, wlp_myproc. intros i Hi. wl.
  apply wlp_P, wlp_getp. intros p Hp. wl.
  assert (Hend : forall sz (e1 : E), wlp (if ctrue n && (sz =? 0) then mret (-1)
    else P (updp i (set_sz sz)) ;; P (switchuvm i) ;; mret 0) (fun (_ : Z) (k : kst E) => inv None (fst k)) (s, e1)).
  { intros sz e1. case_match; wl; [done|]. apply wlp_P, wlp_updp. wl. apply wlp_P. unfold switchuvm. wl.
    apply wlp_getp. intros q Hq. case_match; [exact I|]. case_match; [exact I|]. wl.
    apply (keeps_upd s s); [done|]. intros. benign. }
  case_match; [apply wlp_X; intros; apply Hend|]. case_match; [apply wlp_X; intros; apply Hend|].
  wl. apply Hend.
Qed.

(** *** exec *)

(** Changes of slot [i] only, that the rest of the invariant does not see. *)
Definition own_change (i : nat) (t t' : list proc) : Prop :=
  exists f, (forall next p, slot_ok next p -> slot_step next p (f p)) /\ t' = alter f i t.

Lemma own_refl i t : own_change i t t.
Proof.
  exists id. split; [intros; by benign|]. apply list_eq. intros j. destruct (decide (j = i)) as [->|Hne].
  - rewrite list_lookup_alter_eq. by destruct (t !! i).
  - by rewrite list_lookup_alter_ne.
Qed.

Lemma own_trans i t1 t2 t3 : own_change i t1 t2 -> own_change i t2 t3 -> own_change i t1 t3.
Proof.
  intros (f & Hf & ->) (g & Hg & ->). exists (g ∘ f). split.
  2: { apply list_eq. intros j. destruct (decide (j = i)) as [->|Hne].
    - rewrite !list_lookup_alter_eq. by destruct (t1 !! i).
    - by rewrite !list_lookup_alter_ne. }
  intros next p Hp. destruct (Hf next p Hp) as [A1 R1 O1]. destruct (Hg next (f p) O1) as [A2 R2 O2].
  constructor; [|by rewrite R2|done]. cbn. destruct A2 as [E2|E2]; rewrite E2; [done|by right].
Qed.

Lemma own_keeps i s t : inv None s -> own_change i (ptable s) t -> inv None (set_ptable t s).
Proof. intros Hinv (f & Hf & ->). by apply (keeps_upd s s). Qed.

(** Whatever [m] comes to - it returns, sleeps, panics or faults - the table has changed
    only in that way. *)
Definition own_only {A} (i : nat) (m : M xstate A) : Prop :=
  forall x, own_change i (e_pt x) (e_pt (result_state (m x))).

Lemma own_bind {A B} i (m : M xstate A) (f : A -> M xstate B) :
  own_only i m -> (forall a, own_only i (f a)) -> own_only i (m ≫= f).
Proof.
  intros Hm Hf x. specialize (Hm x). unfold mbind, M_MBind, M_bind.
  destruct (m x) as [a x'|msg x'|ch k x'|e x']; try exact Hm. eapply own_trans; [exact Hm|]. apply Hf.
Qed.
Lemma own_ret {A} i (a : A) : own_only i (mret a).
Proof. intros x. apply own_refl. Qed.
Lemma own_option {A} i e (o : option A) : own_only i (of_option e o).
Proof. intros x. destruct o; apply own_refl. Qed.
Lemma own_EF {A} i (m : M _ A) : own_only i (EF m).
Proof. intros x. unfold EF, zoom. destruct (m _); apply own_refl. Qed.
Lemma own_KM {A} i (m : M _ A) : own_only i (KM m).
Proof. intros x. unfold KM, zoom. destruct (m _); apply own_refl. Qed.
Lemma own_CPU {A} i (m : M _ A) : own_only i (CPU m).
Proof. intros x. unfold CPU, zoom. destruct (m _); apply own_refl. Qed.
Lemma own_getp i j : own_only i (xgetp j).
Proof. intros x. unfold xgetp, of_option. munfold. destruct (e_pt x !! j); apply own_refl. Qed.
Lemma own_updp i f :
  (forall next p, slot_ok next p -> slot_step next p (f p)) -> own_only i (xupdp i f).
Proof. intros Hf x. by exists f. Qed.
Lemma own_panic {A} i msg : own_only i (panic msg : M xstate A).
Proof. intros x. apply own_refl. Qed.
Lemma own_fault {A} i e : own_only i (faults e : M xstate A).
Proof. intros x. apply own_refl. Qed.
Lemma own_when i b (m : M xstate unit) : own_only i m -> own_only i (when b m).
Proof. intros Hm. destruct b; [done|apply own_ret]. Qed.

Ltac own := repeat first
  [ progress cbn beta zeta | apply own_ret | apply own_EF | apply own_KM | apply own_CPU
  | apply own_getp | apply own_option | apply own_panic | apply own_fault | apply own_when
  | lazymatch goal with |- own_only _ (mbind _ _) => apply own_bind; [|intros ?] end | case_match ].

Section ExecTable.
Context (kend data : Z) (me : nat) (devsw : Z -> Fs.dev_ops) (i : nat).

Lemma exec_bad_own mypid pgdir ip : own_only i (exec_bad kend me mypid pgdir ip).
Proof. unfold exec_bad. own. Qed.

Lemma loaduvm_loop_own fuel pgdir addr ip off sz k :
  own_only i (loaduvm_loop me devsw fuel pgdir addr ip off sz k).
Proof. revert k; induction fuel as [|n IH]; intros k; cbn [loaduvm_loop]; unfold readi_to; own; apply IH. Qed.

Lemma load_segments_own n ip pgdir off sz : own_only i (load_segments kend me devsw n ip pgdir off sz).
Proof.
  revert off sz. induction n as [|n IH]; intros off sz; cbn [load_segments]; own; try apply IH;
    unfold loaduvm; own; apply loaduvm_loop_own.
Qed.

Lemma push_args_own pgdir argv argc sp us : own_only i (push_args me pgdir argv argc sp us).
Proof. revert argc sp us; induction argv as [|a argv IH]; intros argc sp us; cbn [push_args]; own; apply IH. Qed.

Lemma exec_switchuvm_own p : own_only i (Exec.switchuvm p).
Proof. unfold Exec.switchuvm. own. intros x. apply own_refl. Qed.

(** The new page directory is never null. *)
Lemma exec_commit_own path pgdir sz entry sp :
  pgdir <> 0 -> own_only i (exec_commit kend me i path pgdir sz entry sp).
Proof.
  intros Hpg. unfold exec_commit. own; [| |apply exec_switchuvm_own].
  - apply own_updp. intros. benign.
  - apply own_updp. intros next p [H1 H2 H3 H4]. constructor; cbn; [by left|done|].
    constructor; cbn; try done. intros Hl. by destruct (H4 Hl) as (? & ? & _).
Qed.

Lemma exec_stack_own mypid path argv pgdir sz entry :
  pgdir <> 0 -> own_only i (exec_stack kend me i mypid path argv pgdir sz entry).
Proof.
  intros Hpg. unfold exec_stack. own; try apply exec_bad_own; try apply push_args_own.
  by apply exec_commit_own.
Qed.

Lemma exec_inode_own mypid path argv ip :
  own_only i (exec_inode kend data me devsw i mypid path argv ip).
Proof.
  unfold exec_inode. own; try apply exec_bad_own; try apply load_segments_own; apply exec_stack_own; lia.
Qed.

Lemma exec_own path argv : own_only i (Exec.exec kend data me devsw i path argv).
Proof. unfold Exec.exec. own; try apply exec_inode_own; apply own_updp; intros; benign. Qed.
End ExecTable.

(** ** The kernel's steps *)

Context `{!TrapEnv E}.

(** After a routine that has called [sched], the CPU goes back to its scheduler. *)
Definition back (me : nat) (s s' : pstate) : Prop := exists b, scheduler_back me s = Ret b s'.

(** [me] is the CPU that takes the step; the process it runs, if the step is one
    of a process, is [i].  The steps named [_back] end in the scheduler.

    [exec] runs in a state of its own ([xstate]), of which the table is shared; it
    may stop anywhere, asleep on the disk for instance, and [st_exec_inode] is what
    remains of it once it has the inode, run on the table as it is by then.
    [st_tf] is [trap]'s [myproc()->tf = tf], [st_sz] the change of size of
    [open_sharedmem] and [close_sharedmem], [st_ofile] and [st_cwd] what the calls of
    [sysfile.c] do to the process, with whatever values; [st_elsewhere] is code that
    does not write to the table. *)
Inductive kstep : kst E -> kst E -> Prop :=
  | st_userinit me k k' : userinit me k = Ret tt k' -> kstep k k'
  | st_alloc me i k r k' : runs (fst k) me i -> allocproc me k = Ret r k' -> kstep k k'
  | st_fork me i np k r k' : runs (fst k) me i -> emb has_stack (fst k) np ->
      fork_copy me i np k = Ret r k' -> kstep k k'
  | st_exit_back me i k k' s' : runs (fst k) me i -> exit me k = Ret tt k' ->
      back me (fst k') s' -> kstep k (s', snd k')
  | st_wait me i k r k' : runs (fst k) me i -> wait me k = Ret (Some r) k' -> kstep k k'
  | st_wait_back me i k k' s' : runs (fst k) me i -> wait me k = Ret None k' ->
      back me (fst k') s' -> kstep k (s', snd k')
  | st_rewait me i k r k' : runs (fst k) me i -> wait_resume me k = Ret (Some r) k' -> kstep k k'
  | st_rewait_back me i k k' s' : runs (fst k) me i -> wait_resume me k = Ret None k' ->
      back me (fst k') s' -> kstep k (s', snd k')
  | st_grow me i n k r k' : runs (fst k) me i -> growproc me n k = Ret r k' -> kstep k k'
  | st_yield me i s e s' : runs s me i -> yield me s = Ret false s' -> kstep (s, e) (s', e)
  | st_yield_back me i s e s1 s' : runs s me i -> yield me s = Ret true s1 -> back me s1 s' ->
      kstep (s, e) (s', e)
  | st_sleep_back me i ch other s e b s1 s' : runs s me i -> sleep me ch other s = Ret b s1 ->
      back me s1 s' -> kstep (s, e) (s', e)
  | st_resume me i other s e s' : runs s me i -> sleep_resume me i other s = Ret tt s' ->
      kstep (s, e) (s', e)
  | st_forkret me i first s e b s' : runs s me i -> forkret me first s = Ret b s' -> kstep (s, e) (s', e)
  | st_wakeup me ch s e s' : wakeup me ch s = Ret tt s' -> kstep (s, e) (s', e)
  | st_kill me pid s e r s' : kill me pid s = Ret r s' -> kstep (s, e) (s', e)
  | st_set_queue me pid q s e r s' : Info.set_queue me pid q s = Ret r s' -> kstep (s, e) (s', e)
  | st_set_sjf me pid b c s e r s' : Info.set_sjf_info me pid b c s = Ret r s' -> kstep (s, e) (s', e)
  | st_aging me s e s' : _aging me s = Ret tt s' -> kstep (s, e) (s', e)
  | st_schedule me s e r s' : (me < length (cpus s))%nat -> c_proc (this me s) = None ->
      scheduler_enter me s = Ret r s' -> kstep (s, e) (s', e)
  | st_reschedule me fuel s e r s' : (me < length (cpus s))%nat -> c_proc (this me s) = None ->
      scheduler_loop fuel me s = Ret r s' -> kstep (s, e) (s', e)
  | st_exec kend data me devsw i path argv x s e : runs s me i -> e_pt x = ptable s ->
      kstep (s, e) (set_ptable (e_pt (result_state (Exec.exec kend data me devsw i path argv x))) s, e)
  | st_exec_inode kend data me devsw i mypid path argv ip x s e : runs s me i -> e_pt x = ptable s ->
      kstep (s, e) (set_ptable (e_pt (result_state (exec_inode kend data me devsw i mypid path argv ip x))) s, e)
  | st_unexpected me apicid tf k k' : unexpected me apicid tf k = Ret tt k' -> kstep k k'
  | st_log_syscall me num s e s' : Info._log_syscall me num s = Ret tt s' -> kstep (s, e) (s', e)
  | st_set_result me i v k k' : runs (fst k) me i -> set_result i v k = Ret tt k' -> kstep k k'
  | st_tf me i tf s e s' : runs s me i -> updp i (set_tf tf) s = Ret tt s' -> kstep (s, e) (s', e)
  | st_sz me i sz s e s' : runs s me i -> updp i (set_sz sz) s = Ret tt s' -> kstep (s, e) (s', e)
  | st_ofile me i fd o s e s' : runs s me i ->
      updp i (fun p => set_ofile (<[fd := o]> (p_ofile p)) p) s = Ret tt s' -> kstep (s, e) (s', e)
  | st_cwd me i o s e s' : runs s me i -> updp i (set_cwd o) s = Ret tt s' -> kstep (s, e) (s', e)
  | st_elsewhere s s' e e' : same_procs s s' -> kstep (s, e) (s', e').

Inductive reachable (k0 : kst E) : kst E -> Prop :=
  | reach_refl : reachable k0 k0
  | reach_step k k' : reachable k0 k -> kstep k k' -> reachable k0 k'.

Lemma back_keeps me s s' : switching me s -> back me s s' -> inv None s'.
Proof. intros Hs [b Hb]. by apply (wlp_elim _ _ _ _ _ (scheduler_back_keeps me s Hs) Hb). Qed.

Lemma resume_keeps me i other s s' :
  inv None s -> sleep_resume me i other s = Ret tt s' -> inv None s'.
Proof.
  intros Hinv. apply (wlp_elim _ (fun _ => inv None)). unfold sleep_resume. wl. apply wlp_updp. wl.
  assert (Hk : inv None (set_ptable (alter (set_chan CNull) i (ptable s)) s)).
  { apply (keeps_upd s s); [done|]. intros. benign. }
  destruct other; [|done]. apply wlp_release. intros s2 Hs2. by eapply inv_same.
Qed.

Lemma updp_keeps i f s s' :
  inv None s -> (forall next p, slot_ok next p -> slot_step next p (f p)) -> updp i f s = Ret tt s' -> inv None s'.
Proof. intros Hinv Hf [= <-]. by apply (keeps_upd s s). Qed.

Lemma _log_syscall_keeps me num s : inv None s -> wlp (Info._log_syscall me num) (fun _ => inv None) s.
Proof.
  intros Hinv. unfold Info._log_syscall, Info.tot_acquire, Info.tot_release. wl. apply wlp_on_cpu.
  intros l s1 H1. wl. unfold upd_cpu. wl. apply wlp_on_cpu. intros l2 s2 H2. wl. apply wlp_myproc. intros i Hi. wl.
  apply wlp_getp. intros p Hp. wl. apply wlp_updp.
  match goal with Hc : Info.count_call _ _ = Some _ |- _ => rename Hc into Hsc end.
  assert (Hs2 : same_procs s s2).
  { eapply same_trans; [exact H1|]. eapply same_trans; [|exact H2]. eapply same_trans; [|by apply same_cpu].
    done. }
  apply inv_upd; [by apply (inv_same _ s2), (inv_same _ s)|]. intros q Hq. assert (q = p) as -> by congruence.
  apply slot_step_live; try done; [apply (i_slot _ _ (inv_same _ _ _ Hs2 Hinv) i), Hp|]. cbn. unfold Info.count_call in Hsc.
  case_match; [done|]. destruct (p_sc p !! _); [|done]. injection Hsc as <-. by rewrite length_insert.
Qed.

Lemma unexpected_keeps me apicid tf s e :
  inv None s -> wlp (unexpected me apicid tf) (fun _ k => inv None (fst k)) (s, e).
Proof.
  intros Hinv. unfold unexpected, current. wl. case_match.
  - wl. apply wlp_curp. intros p Hp. wl. apply cpuid_keeps. intros id. wl. apply wlp_P. unfold print. wl.
    apply wlp_P, wlp_updp. apply (keeps_upd s); [by eapply keeps_same; [apply keeps_refl|]|]. intros. benign.
  - wl. apply wlp_true. intros id k1. wl. by apply wlp_true.
Qed.

Lemma kstep_keeps k k' : inv None (fst k) -> kstep k k' -> inv None (fst k').
Proof.
  intros Hinv Hstep.
  destruct Hstep as [me [s e] k' Hm|me i [s e] r k' Hr Hm|me i np [s e] r k' Hr He Hm
    |me i [s e] k' s' Hr Hm Hb|me i [s e] r k' Hr Hm|me i [s e] k' s' Hr Hm Hb|me i [s e] r k' Hr Hm
    |me i [s e] k' s' Hr Hm Hb|me i n [s e] r k' Hr Hm|me i s e s' Hr Hm|me i s e s1 s' Hr Hm Hb
    |me i ch other s e b s1 s' Hr Hm Hb|me i other s e s' Hr Hm|me i first s e b s' Hr Hm
    |me ch s e s' Hm|me pid s e r s' Hm|me pid q s e r s' Hm|me pid b c s e r s' Hm|me s e s' Hm
    |me s e r s' Hl Hn Hm|me fuel s e r s' Hl Hn Hm|kend data me devsw i path argv x s e Hr Hx
    |kend data me devsw i mypid path argv ip x s e Hr Hx|me apicid tf [s e] k' Hm|me num s e s' Hm
    |me i v [s e] k' Hr Hm|me i tf s e s' Hr Hm|me i sz s e s' Hr Hm|me i fd o s e s' Hr Hm|me i o s e s' Hr Hm
    |s s' e e' Hs]; cbn [fst snd] in *.
  - by apply (wlp_elim _ _ _ _ _ (userinit_keeps me s e Hinv) Hm).
  - by apply (wlp_elim _ _ _ _ _ (allocproc_keeps me s e Hinv) Hm).
  - by apply (wlp_elim _ _ _ _ _ (fork_copy_keeps me i np s e Hinv He) Hm).
  - by apply (back_keeps _ _ _ (wlp_elim _ _ _ _ _ (exit_keeps me i s e Hinv Hr) Hm) Hb).
  - by apply (wlp_elim _ _ _ _ _ (wait_keeps me i s e Hinv Hr) Hm).
  - by apply (back_keeps _ _ _ (wlp_elim _ _ _ _ _ (wait_keeps me i s e Hinv Hr) Hm) Hb).
  - by apply (wlp_elim _ _ _ _ _ (wait_resume_keeps me i s e Hinv Hr) Hm).
  - by apply (back_keeps _ _ _ (wlp_elim _ _ _ _ _ (wait_resume_keeps me i s e Hinv Hr) Hm) Hb).
  - by apply (wlp_elim _ _ _ _ _ (growproc_keeps me n s e Hinv) Hm).
  - by apply (wlp_elim _ _ _ _ _ (yield_keeps me i s Hinv Hr) Hm).
  - by apply (back_keeps _ _ _ (wlp_elim _ _ _ _ _ (yield_keeps me i s Hinv Hr) Hm) Hb).
  - by apply (back_keeps _ _ _ (wlp_elim _ _ _ _ _ (sleep_keeps me i ch other s Hinv Hr) Hm) Hb).
  - by eapply resume_keeps.
  - revert Hm. apply (wlp_elim _ (fun _ => inv None)). unfold forkret. wl. apply wlp_release.
    intros s2 Hs2. wl. by eapply inv_same.
  - by apply (wlp_elim _ _ _ _ _ (wakeup_keeps me ch s Hinv) Hm).
  - by apply (wlp_elim _ _ _ _ _ (kill_keeps me pid s Hinv) Hm).
  - by apply (wlp_elim _ _ _ _ _ (set_queue_keeps me pid q s Hinv) Hm).
  - by apply (wlp_elim _ _ _ _ _ (set_sjf_info_keeps me pid b c s Hinv) Hm).
  - by apply (wlp_elim _ _ _ _ _ (_aging_keeps me s Hinv) Hm).
  - by apply (wlp_elim _ _ _ _ _ (scheduler_enter_keeps me s Hinv Hn Hl) Hm).
  - by apply (wlp_elim _ _ _ _ _ (scheduler_loop_keeps fuel me s Hinv Hn Hl) Hm).
  - apply (own_keeps i s); [done|]. rewrite <- Hx. apply exec_own.
  - apply (own_keeps i s); [done|]. rewrite <- Hx. apply exec_inode_own.
  - by apply (wlp_elim _ _ _ _ _ (unexpected_keeps me apicid tf s e Hinv) Hm).
  - by apply (wlp_elim _ _ _ _ _ (_log_syscall_keeps me num s Hinv) Hm).
  - injection Hm as <-. apply (keeps_upd s s); [done|]. intros. benign.
  - revert Hm. apply updp_keeps; [done|]. intros. benign.
  - revert Hm. apply updp_keeps; [done|]. intros. benign.
  - revert Hm. apply updp_keeps; [done|]. intros next p Hp. apply slot_step_live; try done. cbn. by rewrite length_insert.
  - revert Hm. apply updp_keeps; [done|]. intros. benign.
  - by eapply inv_same.
Qed.

(** C2: whatever the kernel has done since it was booted - processes created,
    scheduled, put to sleep, woken, killed, reaped, programs executed, exceptions
    taken, in any order on any number of CPUs and with any answers from the memory
    and file-system code, each atomic step being one of [kstep] - process ids
    are unique and were handed out by [nextpid], a process is RUNNING exactly
    when one CPU, and no second one, has it as its current process, and every
    process past creation has its id, kernel stack and page table. *)
Theorem process_table_invariant k0 k :
  inv None (fst k0) -> reachable k0 k -> inv None (fst k).
Proof. intros H0 Hr. induction Hr as [|k k' Hr IH Hs]; [done|]. by eapply kstep_keeps. Qed.
End LifeInv.

(** The table at boot: [n] CPUs, every slot unused. *)
Definition boot (n : nat) : pstate :=
  mk_pstate (replicate n cpu_zero) Spinlock.initlock (replicate NPROC proc_zero) 1 None 0 0 1
    Spinlock.initlock 0 [].

Lemma boot_proc n i p : ptable (boot n) !! i = Some p -> p = proc_zero.
Proof. intros [-> _]%lookup_replicate. done. Qed.

Lemma boot_cpu n c i : ~ runs (boot n) c i.
Proof.
  intros [_ Hc]. unfold this in Hc. cbn in Hc. rewrite nth_lookup in Hc.
  destruct (replicate n cpu_zero !! c) as [x|] eqn:E; [|done]. apply lookup_replicate in E as [-> _]. done.
Qed.

Lemma boot_inv n : inv None (boot n).
Proof.
  constructor; try done.
  - intros i p Hp%boot_proc. subst p. constructor; try done. by intros [[] _].
  - intros i j p q Hp%boot_proc _ _ Hn. by subst p.
  - intros i p Hp%boot_proc Hs. by subst p.
  - intros c d i Hc _. by apply boot_cpu in Hc.
  - intros c i Hc. by apply boot_cpu in Hc.
Qed.

(** A memory and file system whose pages are numbered from 4096 up. *)
#[export] Instance demo_env : ProcEnv Z := {|
  env_kalloc := fun e => Ret (e + 4096) (e + 4096);
  env_kfree := fun _ => mret tt;
  env_setupkvm := fun e => Ret (e + 4096) (e + 4096);
  env_inituvm := fun _ => mret tt;
  env_allocuvm := fun _ _ n => mret n;
  env_deallocuvm := fun _ _ n => mret n;
  env_copyuvm := fun _ _ e => Ret (e + 4096) (e + 4096);
  env_freevm := fun _ => mret tt;
  env_filedup := fun f => mret f;
  env_fileclose := fun _ => mret tt;
  env_idup := fun o => mret o;
  env_iput := fun _ => mret tt;
  env_namei_root := mret (Some 0%nat) |}.

(** Boot, [userinit], and two entries into the scheduler: the first looks at queues
    1 and 2 only. *)
Definition demo_k0 : kst Z := (boot 2, 4096).
Definition demo_k1 : kst Z := Eval vm_compute in result_state (userinit 0 demo_k0).
Definition demo_s2 : pstate := Eval vm_compute in result_state (scheduler_enter 1 (fst demo_k1)).
Definition demo_s3 : pstate := Eval vm_compute in result_state (scheduler_enter 1 demo_s2).

#[export] Instance demo_trap_env : TrapEnv Z := {|
  env_ideintr := mret tt; env_kbdintr := mret tt; env_uartintr := mret tt; env_lapiceoi := mret tt;
  env_rcr2 := fun _ => 0 |}.
(** The first process divides by zero. *)
Definition div_tf : trapframe := mk_trapframe 0 0 0 0 0 0 0 0 0 0 0 0 0 0 0 27 0 0 0.
Definition demo_k4 : kst Z := Eval vm_compute in result_state (unexpected 1 0 div_tf (demo_s3, snd demo_k1)).

Lemma process_table_invariant_witness :
  reachable demo_k0 demo_k4 /\ inv None (fst demo_k4) /\ runs (fst demo_k4) 1 0 /\
  p_killed <$> (ptable (fst demo_k4) !! 0%nat) = Some 1.
Proof.
  assert (Hr : reachable demo_k0 demo_k4).
  { apply reach_step with (demo_s3, snd demo_k1); [apply reach_step with (demo_s2, snd demo_k1); [apply reach_step with demo_k1|]|].
    - apply reach_step with demo_k0; [apply reach_refl|].
      apply (st_userinit 0). vm_compute. reflexivity.
    - apply (st_schedule 1 (fst demo_k1) (snd demo_k1) None); [vm_compute; lia|reflexivity..].
    - apply (st_schedule 1 demo_s2 (snd demo_k1) (Some 0%nat)); [vm_compute; lia|reflexivity..].
    - apply (st_unexpected 1 0 div_tf). vm_compute. reflexivity. }
  split; [exact Hr|]. split; [|split].
  - apply (process_table_invariant demo_k0 demo_k4 (boot_inv 2) Hr).
  - split; [vm_compute; lia|reflexivity].
  - reflexivity.
Defined.
