(* ===== verification/Kbd.v ===== *)
(** The keyboard driver ([kbd.c], [kbd.h]): from scan codes to characters.

    [kbdgetc] keeps its static [shift] as state and reads the controller's status and data
    ports, here the next byte of the scan codes that are waiting, if there is one. *)

From S2P Require Import Prelude CString.

Definition NO : Z := 0.
Definition SHIFT : Z := 1.
Definition CTL : Z := 2.
Definition ALT : Z := 4.
Definition CAPSLOCK : Z := 8.
Definition NUMLOCK : Z := 16.
Definition SCROLLLOCK : Z := 32.
Definition E0ESC : Z := 64.
Definition KEY_HOME : Z := 224.
Definition KEY_END : Z := 225.
Definition KEY_UP : Z := 226.
Definition KEY_DN : Z := 227.
Definition KEY_LF : Z := 228.
Definition KEY_RT : Z := 229.
Definition KEY_PGUP : Z := 230.
Definition KEY_PGDN : Z := 231.
Definition KEY_INS : Z := 232.
Definition KEY_DEL : Z := 233.
(** [C(x)], for the character [x]. *)
Definition C (x : Z) : Z := x - 64.

(** An array of 256 from its leading elements and its designated ones. *)
Definition array (first : list Z) (named : list (Z * Z)) : list Z :=
  foldl (fun a '(i, v) => <[Z.to_nat i := v]> a) (first ++ replicate (256 - length first) 0) named.
Definition at_code (a : list Z) (i : Z) : Z := nth (Z.to_nat i) a 0.

Definition shiftcode : list Z :=
  array [] [(29, CTL); (42, SHIFT); (54, SHIFT); (56, ALT); (157, CTL); (184, ALT)].
Definition togglecode : list Z := array [] [(58, CAPSLOCK); (69, NUMLOCK); (70, SCROLLLOCK)].

(** The keys of the numeric pad and the extended keys, the same in the three maps but for
    Enter and the division key. *)
Definition extended (enter div : Z) : list (Z * Z) :=
  [(156, enter); (181, div); (200, KEY_UP); (208, KEY_DN); (201, KEY_PGUP); (209, KEY_PGDN);
   (203, KEY_LF); (205, KEY_RT); (151, KEY_HOME); (207, KEY_END); (210, KEY_INS); (211, KEY_DEL)].
Definition b (s : string) : list Z := bytes_of_string s.
Definition keypad : list Z := b "789-456+1230." ++ [NO; NO; NO; NO].
Definition normalmap : list Z :=
  array ([NO; 27] ++ b "1234567890-=" ++ [8; 9] ++ b "qwertyuiop[]" ++ [10; NO] ++ b "asdfghjkl;'`" ++ [NO; 92] ++
         b "zxcvbnm,./" ++ [NO; 42; NO; 32] ++ replicate 13 NO ++ keypad) (extended 10 47).
Definition shiftmap : list Z :=
  array ([NO; 27] ++ b "!@#$%^&*()_+" ++ [8; 9] ++ b "QWERTYUIOP{}" ++ [10; NO] ++ b "ASDFGHJKL:" ++ [34; 126] ++ [NO; 124] ++
         b "ZXCVBNM<>?" ++ [NO; 42; NO; 32] ++ replicate 13 NO ++ keypad) (extended 10 47).
Definition ctlmap : list Z :=
  array (replicate 16 NO ++ map C (b "QWERTYUIOP") ++ [NO; NO; 13; NO] ++ map C (b "ASDFGHJKL") ++ [NO; NO; NO; NO; C 92] ++
         map C (b "ZXCVBNM") ++ [NO; NO; u8 (C 47); NO; NO]) (extended 13 (u8 (C 47))).
(** [charcode[i]]. *)
Definition charcode (i : Z) : list Z := if i =? 0 then normalmap else if i =? 1 then shiftmap else ctlmap.

(** The result and [shift] afterwards; [byte] is the data port, [None] when the status port
    shows no data. *)
Definition kbdgetc (byte : option Z) (shift : Z) : Z * Z :=
  match byte with
  | None => (-1, shift)
  | Some data =>
      if data =? 224 then (0, Z.lor shift E0ESC)
      else if ctrue (Z.land data 128) then
        let data := if ctrue (Z.land shift E0ESC) then data else Z.land data 127 in
        (0, Z.land shift (u32 (Z.lnot (Z.lor (at_code shiftcode data) E0ESC))))
      else
        let '(data, shift) :=
          if ctrue (Z.land shift E0ESC) then (Z.lor data 128, Z.land shift (u32 (Z.lnot E0ESC))) else (data, shift) in
        let shift := Z.lor shift (at_code shiftcode data) in
        let shift := Z.lxor shift (at_code togglecode data) in
        let c := at_code (charcode (Z.land shift (Z.lor CTL SHIFT))) data in
        let c :=
          if ctrue (Z.land shift CAPSLOCK) then
            if (97 <=? c) && (c <=? 122) then u32 (c + (65 - 97))
            else if (65 <=? c) && (c <=? 90) then u32 (c + (97 - 65))
            else c
          else c in
        (c, shift)
  end.

(** What [consoleintr(kbdgetc)] gets before the controller has no more data. *)
Fixpoint kbd_keys (codes : list Z) (shift : Z) : list Z * Z :=
  match codes with
  | [] => ([], shift)
  | d :: codes' =>
      let '(c, shift) := kbdgetc (Some d) shift in
      let '(cs, shift) := kbd_keys codes' shift in
      (c :: cs, shift)
  end.

(** ** What the keys give *)

Definition all_shifts : list Z := seqZ 0 128.

(** The states and codes on which a property is checked by computation. *)
Definition on_all (f : Z -> Z -> bool) : bool := forallb (fun s => forallb (f s) (seqZ 0 256)) all_shifts.

Lemma on_all_spec f s d : on_all f = true -> 0 <= s < 128 -> 0 <= d < 256 -> f s d = true.
Proof.
  intros H Hs Hd. unfold on_all in H. rewrite forallb_forall in H. assert (Hin : In s all_shifts).
  { apply list_elem_of_In, elem_of_seqZ. lia. }
  specialize (H s Hin). rewrite forallb_forall in H. apply H, list_elem_of_In, elem_of_seqZ. lia.
Qed.

Definition typed (shift d : Z) : bool :=
  let '(c, s') := kbdgetc (Some d) shift in (0 <=? c) && (c <? 256) && (0 <=? s') && (s' <? 128).
Lemma typed_all : on_all typed = true.
Proof. vm_compute. reflexivity. Qed.

(** Whatever bytes the controller sends, [kbdgetc] gives characters between 0 and 255 and
    keeps [shift] in seven bits. *)
Theorem kbd_well_typed codes shift :
  0 <= shift < 128 -> Forall (fun d => 0 <= d < 256) codes ->
  let '(cs, shift') := kbd_keys codes shift in Forall (fun c => 0 <= c < 256) cs /\ 0 <= shift' < 128 /\ length cs = length codes.
Proof.
  revert shift. induction codes as [|d codes IH]; intros shift Hs Hc; cbn [kbd_keys]; [done|].
  apply Forall_cons in Hc as [Hd Hc]. pose proof (on_all_spec typed shift d typed_all Hs Hd) as Ht. unfold typed in Ht.
  destruct (kbdgetc (Some d) shift) as [c s']. specialize (IH s' ltac:(lia) Hc). destruct (kbd_keys codes s') as [cs s''].
  destruct IH as (H1 & H2 & H3). split; [constructor; [lia|done]|]. split; [done|]. cbn. lia.
Qed.

Lemma kbd_well_typed_witness :
  fst (kbd_keys [42; 30; 170; 31; 224; 72] 0) = [0; 65; 0; 115; 0; KEY_UP] /\ 0 <= snd (kbd_keys [42; 30; 170; 31; 224; 72] 0) < 128.
Proof.
  pose proof (kbd_well_typed [42; 30; 170; 31; 224; 72] 0 ltac:(lia) ltac:(repeat constructor; lia)) as H.
  destruct (kbd_keys [42; 30; 170; 31; 224; 72] 0) as [cs s'] eqn:E. vm_compute in E. injection E as <- <-. destruct H as (_ & H & _). done.
Defined.

(** ** A keyboard *)

(** A key: its scan code, whether that follows an escape (0xE0), and what the key does.
    [Char] has the characters of the key alone, with Shift and with Ctrl, 0 for none. *)
Inductive cap := Char (lo up ctl : Z) | Shift | Ctrl | Alt | CapsLock | NumLock | ScrollLock.
Record pkey := mk_pkey { k_code : Z; k_esc : bool; k_cap : cap }.

#[export] Instance cap_eq_dec : EqDecision cap.
Proof. solve_decision. Defined.
#[export] Instance pkey_eq_dec : EqDecision pkey.
Proof. solve_decision. Defined.

Definition row (code : Z) (lo up ctl : list Z) : list pkey :=
  (fun '(i, (l, u, c)) => mk_pkey (code + Z.of_nat i) false (Char l u c)) <$> zip (seq 0 (length lo)) (zip (zip lo up) ctl).
(** Keys of letters, of other characters, and of the numeric pad. *)
Definition letters (code : Z) (l : list Z) : list pkey :=
  row code l ((fun c => c - 32) <$> l) ((fun c => c - 96) <$> l).
Definition others (code : Z) (lo up : list Z) : list pkey := row code lo up ((fun _ => 0) <$> lo).
Definition pad (code : Z) (l : list Z) : list pkey := others code l l.
Definition special (code : Z) (c : Z) : pkey := mk_pkey code true (Char c c c).

(** The US keyboard. *)
Definition us_keyboard : list pkey :=
  pad 1 [27] ++ others 2 (b "1234567890-=") (b "!@#$%^&*()_+") ++ pad 14 [8; 9] ++
  letters 16 (b "qwertyuiop") ++ others 26 (b "[]") (b "{}") ++ row 28 [10] [10] [13] ++
  letters 30 (b "asdfghjkl") ++ others 39 (b ";'`") [58; 34; 126] ++ row 43 [92] [124] [28] ++
  letters 44 (b "zxcvbnm") ++ others 51 (b ",.") (b "<>") ++ row 53 [47] [63] [239] ++ pad 57 [32] ++
  pad 55 (b "*") ++ pad 71 (b "789-456+1230.") ++
  [mk_pkey 28 true (Char 10 10 13); mk_pkey 53 true (Char 47 47 239);
   special 72 KEY_UP; special 80 KEY_DN; special 73 KEY_PGUP; special 81 KEY_PGDN; special 75 KEY_LF; special 77 KEY_RT;
   special 79 KEY_END; special 82 KEY_INS; special 83 KEY_DEL;
   mk_pkey 42 false Shift; mk_pkey 54 false Shift; mk_pkey 29 false Ctrl; mk_pkey 29 true Ctrl;
   mk_pkey 56 false Alt; mk_pkey 56 true Alt;
   mk_pkey 58 false CapsLock; mk_pkey 69 false NumLock; mk_pkey 70 false ScrollLock].

(** What is on: a modifier from when one of its keys is pressed until one is released, a
    lock from one press of its key to the next. *)
Record mods := mk_mods { m_shift : bool; m_ctl : bool; m_alt : bool; m_caps : bool; m_num : bool; m_scroll : bool }.
#[export] Instance mods_eq_dec : EqDecision mods.
Proof. solve_decision. Defined.

Definition swap_case (c : Z) : Z :=
  if (97 <=? c) && (c <=? 122) then c - 32 else if (65 <=? c) && (c <=? 90) then c + 32 else c.
Definition strike (m : mods) (lo up ctl : Z) : Z :=
  if m_ctl m then ctl
  else let c := if m_shift m then up else lo in if m_caps m then swap_case c else c.

(** A key goes down or up: the character typed, 0 for none, and what is on afterwards. *)
Inductive stroke := Down (k : pkey) | Up (k : pkey).
Definition stroke_key (e : stroke) : pkey := match e with Down k | Up k => k end.
Definition hold (c : cap) (on : bool) (m : mods) : mods :=
  match c with
  | Shift => mk_mods on (m_ctl m) (m_alt m) (m_caps m) (m_num m) (m_scroll m)
  | Ctrl => mk_mods (m_shift m) on (m_alt m) (m_caps m) (m_num m) (m_scroll m)
  | Alt => mk_mods (m_shift m) (m_ctl m) on (m_caps m) (m_num m) (m_scroll m)
  | _ => m
  end.
Definition toggle (c : cap) (m : mods) : mods :=
  match c with
  | CapsLock => mk_mods (m_shift m) (m_ctl m) (m_alt m) (negb (m_caps m)) (m_num m) (m_scroll m)
  | NumLock => mk_mods (m_shift m) (m_ctl m) (m_alt m) (m_caps m) (negb (m_num m)) (m_scroll m)
  | ScrollLock => mk_mods (m_shift m) (m_ctl m) (m_alt m) (m_caps m) (m_num m) (negb (m_scroll m))
  | _ => m
  end.
Definition type_one (e : stroke) (m : mods) : Z * mods :=
  match e with
  | Down k => (match k_cap k with Char lo up ctl => strike m lo up ctl | _ => 0 end, toggle (k_cap k) (hold (k_cap k) true m))
  | Up k => (0, hold (k_cap k) false m)
  end.
Fixpoint type_all (es : list stroke) (m : mods) : list Z * mods :=
  match es with
  | [] => ([], m)
  | e :: es' => let '(c, m) := type_one e m in let '(cs, m) := type_all es' m in (c :: cs, m)
  end.

(** The bytes the controller sends, and [shift] between two strokes. *)
Definition scan (e : stroke) : list Z :=
  let k := stroke_key e in
  (if k_esc k then [224] else []) ++ [match e with Down _ => k_code k | Up _ => k_code k + 128 end].
Definition shift_of (m : mods) : Z :=
  Z.b2z (m_shift m) + 2 * Z.b2z (m_ctl m) + 4 * Z.b2z (m_alt m) + 8 * Z.b2z (m_caps m) + 16 * Z.b2z (m_num m) + 32 * Z.b2z (m_scroll m).

(** The characters, without the zeros that the console ignores. *)
Definition chars (cs : list Z) : list Z := filter (fun c => c <> 0) cs.

Definition bools : list bool := [false; true].
Definition all_mods : list mods :=
  bools ≫= fun a => bools ≫= fun b => bools ≫= fun c => bools ≫= fun d => bools ≫= fun e => mk_mods a b c d e <$> bools.
Lemma all_mods_spec m : In m all_mods.
Proof. destruct m as [[] [] [] [] [] []]; apply list_elem_of_In, (bool_decide_unpack _); vm_compute; exact I. Qed.

Definition stroke_ok (m : mods) (e : stroke) : bool :=
  let '(cs, s) := kbd_keys (scan e) (shift_of m) in
  let '(c, m') := type_one e m in
  bool_decide (chars cs = chars [c]) && (s =? shift_of m').
Lemma strokes_ok : forallb (fun m => forallb (fun k => stroke_ok m (Down k) && stroke_ok m (Up k)) us_keyboard) all_mods = true.
Proof. vm_compute. reflexivity. Qed.

Lemma stroke_run e m :
  stroke_key e ∈ us_keyboard ->
  let '(cs, s) := kbd_keys (scan e) (shift_of m) in let '(c, m') := type_one e m in chars cs = chars [c] /\ s = shift_of m'.
Proof.
  intros Hk. pose proof strokes_ok as H. rewrite forallb_forall in H. specialize (H m (all_mods_spec m)).
  rewrite forallb_forall in H. specialize (H _ (proj1 (list_elem_of_In _ _) Hk)). apply andb_true_iff in H as [H1 H2].
  assert (H : stroke_ok m e = true) by (by destruct e). unfold stroke_ok in H.
  destruct (kbd_keys _ _) as [cs s], (type_one e m) as [c m']. apply andb_true_iff in H as [H%bool_decide_eq_true H']. split; [done|lia].
Qed.

Lemma kbd_keys_app l1 l2 s :
  kbd_keys (l1 ++ l2) s = let '(c1, s1) := kbd_keys l1 s in let '(c2, s2) := kbd_keys l2 s1 in (c1 ++ c2, s2).
Proof.
  revert s; induction l1 as [|d l1 IH]; intros s; cbn [app kbd_keys]; [by destruct (kbd_keys l2 s)|].
  destruct (kbdgetc (Some d) s) as [c s1]. rewrite IH. destruct (kbd_keys l1 s1) as [c1 s2]. by destruct (kbd_keys l2 s2).
Qed.

(** C36: Whatever keys of a US keyboard (Home apart) are pressed and released, in any order,
    also held down together, [kbdgetc] gives the characters that are typed: a key's plain
    character, the one above it with Shift, its control character with Ctrl, letters in
    the other case with Caps Lock, and the codes of the special keys after their escape;
    and [shift] always says which modifiers and locks are on. *)
Theorem kbd_types es m :
  Forall (fun e => stroke_key e ∈ us_keyboard) es ->
  let '(cs, s) := kbd_keys (es ≫= scan) (shift_of m) in let '(ds, m') := type_all es m in
  chars cs = chars ds /\ s = shift_of m'.
Proof.
  intros Hes. revert m; induction Hes as [|e es He Hes IH]; intros m; cbn [type_all mbind list_bind]; [done|].
  rewrite kbd_keys_app. pose proof (stroke_run e m He) as H1. destruct (kbd_keys (scan e) (shift_of m)) as [cs s], (type_one e m) as [c m'].
  destruct H1 as [H1 ->]. specialize (IH m'). destruct (kbd_keys _ (shift_of m')) as [cs' s'], (type_all es m') as [ds m''].
  destruct IH as [H2 ->]. split; [|done]. unfold chars in *. change (c :: ds) with ([c] ++ ds). by rewrite !filter_app, H1, H2.
Qed.

(** Shift, [a], its release, [s], and the up arrow. *)
Lemma kbd_types_witness :
  chars (fst (kbd_keys [42; 30; 170; 31; 224; 72] 0)) = [65; 115; KEY_UP].
Proof.
  pose (es := [Down (mk_pkey 42 false Shift); Down (mk_pkey 30 false (Char 97 65 1)); Up (mk_pkey 42 false Shift);
    Down (mk_pkey 31 false (Char 115 83 19)); Down (special 72 KEY_UP)]).
  assert (Hk : Forall (fun e => stroke_key e ∈ us_keyboard) es).
  { repeat constructor; apply (bool_decide_unpack _); vm_compute; exact I. }
  pose proof (kbd_types es (mk_mods false false false false false false) Hk) as H.
  change (es ≫= scan) with [42; 30; 170; 31; 224; 72] in H. change (shift_of _) with 0 in H at 1.
  destruct (kbd_keys [42; 30; 170; 31; 224; 72] 0) as [cs s']. destruct H as [H _]. exact H.
Defined.

(** The Home key sends 0x47 after the escape; the maps have [KEY_HOME] at 0x97, the code of
    no key, and the key gives nothing. *)
Theorem home_key_ignored : kbd_keys [224; 71; 224; 199] 0 = ([0; 0; 0; 0], 0) /\ at_code normalmap 151 = KEY_HOME.
Proof. split; reflexivity. Qed.
