(* ===== verification/Umalloc.v ===== *)
(** The user library's memory allocator ([umalloc.c]), the one of Kernighan and Ritchie:
    a circular list of free blocks in address order, first fit from a roving pointer.

    Memory is a map from addresses to words: the header at [p] has its [ptr] at [p] and its
    [size], in units of eight bytes, at [p + 4].  [base] is the address of the static
    header; the program's memory ends at [h_brk], and [sbrk] can move that up to [limit]. *)

From S2P Require Import Prelude.

Record heap := mk_heap { h_mem : Z -> Z; h_freep : Z; h_brk : Z }.

Section Umalloc.
Context (base limit : Z) (fuel : nat).
Notation H := (M heap).

Definition rdw (a : Z) : H Z := h ← get; mret (h_mem h a).
Definition wrw (a v : Z) : H unit :=
  modify (fun h => mk_heap (fun x => if x =? a then v else h_mem h x) (h_freep h) (h_brk h)).
Definition ptr (p : Z) : H Z := rdw p.
Definition size (p : Z) : H Z := rdw (p + 4).
Definition set_ptr (p v : Z) : H unit := wrw p v.
Definition set_size (p v : Z) : H unit := wrw (p + 4) v.
Definition set_freep (v : Z) : H unit := modify (fun h => mk_heap (h_mem h) v (h_brk h)).

(** The system call: the old end of memory, or -1. *)
Definition sbrk (n : Z) : H Z :=
  h ← get;
  if h_brk h + n >? limit then mret (-1)
  else modify (fun h => mk_heap (h_mem h) (h_freep h) (h_brk h + n)) ;; mret (h_brk h).

(** The [for] loop of [free]: where [bp] belongs. *)
Fixpoint free_find (f : nat) (bp p : Z) : H Z :=
  match f with
  | O => faults OutOfFuel
  | S f' =>
      q ← ptr p;
      if (bp >? p) && (bp <? q) then mret p
      else if (p >=? q) && ((bp >? p) || (bp <? q)) then mret p
      else free_find f' bp q
  end.

(** What [free] does once it has found [p]. *)
Definition free_link (bp p : Z) : H unit :=
  q ← ptr p;
  n ← size bp;
  (if bp + 8 * n =? q then
     m ← size q;
     set_size bp (u32 (n + m)) ;;
     r ← ptr q;
     set_ptr bp r
   else set_ptr bp q) ;;
  k ← size p;
  (if p + 8 * k =? bp then
     n ← size bp;
     set_size p (u32 (k + n)) ;;
     r ← ptr bp;
     set_ptr p r
   else set_ptr p bp) ;;
  set_freep p.
Definition free (ap : Z) : H unit :=
  let bp := ap - 8 in
  h ← get;
  p ← free_find fuel bp (h_freep h);
  free_link bp p.

Definition morecore (nu : Z) : H Z :=
  let nu := if nu <? 4096 then 4096 else nu in
  p ← sbrk (i32 (u32 (nu * 8)));
  if p =? -1 then mret 0
  else
    set_size p nu ;;
    free (p + 8) ;;
    h ← get;
    mret (h_freep h).

(** A block of [n] units at [p] that is large enough is taken, or its upper part. *)
Definition malloc_take (nunits prevp p n : Z) : H Z :=
  if n =? nunits then
    r ← ptr p; set_ptr prevp r ;; set_freep prevp ;; mret (p + 8)
  else
    set_size p (n - nunits) ;;
    let p := p + 8 * (n - nunits) in
    set_size p nunits ;;
    set_freep prevp ;;
    mret (p + 8).
(** The [for] loop of [malloc]. *)
Fixpoint malloc_loop (f : nat) (nunits prevp p : Z) : H Z :=
  match f with
  | O => faults OutOfFuel
  | S f' =>
      n ← size p;
      if n >=? nunits then malloc_take nunits prevp p n
      else
        h ← get;
        if p =? h_freep h then
          p ← morecore nunits;
          if p =? 0 then mret 0 else q ← ptr p; malloc_loop f' nunits p q
        else q ← ptr p; malloc_loop f' nunits p q
  end.

Definition malloc (nbytes : Z) : H Z :=
  let nunits := u32 (nbytes + 8 - 1) / 8 + 1 in
  h ← get;
  when (h_freep h =? 0) (set_ptr base base ;; set_freep base ;; set_size base 0) ;;
  h ← get;
  let prevp := h_freep h in
  p ← ptr prevp;
  malloc_loop fuel nunits prevp p.
End Umalloc.

(** A program's use of the allocator.  Beside the heap it has the blocks it holds: where
    each is, how many bytes it asked for, and what it has in them.  [Write i off v] stores
    [v] at offset [off] of the [i]th block, [Free i] gives the block back. *)
Inductive op := Malloc (nbytes : Z) | Write (i : nat) (off v : Z) | Free (i : nat).
Record block := mk_block { b_addr : Z; b_len : Z; b_data : Z -> Z }.
Definition do_op (base limit : Z) (fuel : nat) (o : op) (held : list block) : M heap (list block) :=
  match o with
  | Malloc n =>
      p ← malloc base limit fuel n;
      h ← get;
      mret (if p =? 0 then held else mk_block p n (fun off => h_mem h (p + off)) :: held)
  | Write i off v =>
      match held !! i with
      | Some b =>
          if (0 <=? off) && (off <? b_len b) then
            wrw (b_addr b + off) v ;;
            mret (<[i := mk_block (b_addr b) (b_len b) (fun x => if x =? off then v else b_data b x)]> held)
          else mret held
      | None => mret held
      end
  | Free i =>
      match held !! i with
      | Some b => free fuel (b_addr b) ;; mret (delete i held)
      | None => mret held
      end
  end.
Fixpoint run_ops (base limit : Z) (fuel : nat) (os : list op) (held : list block) : M heap (list block) :=
  match os with
  | [] => mret held
  | o :: os' => held ← do_op base limit fuel o held; run_ops base limit fuel os' held
  end.

(** ** The ring of free blocks *)

Notation blk := (Z * Z)%type.
Definition bend (b : blk) : Z := fst b + 8 * snd b.
Definition apart (x y : blk) : Prop := bend x <= fst y \/ bend y <= fst x.

(** The headers of [L] are in memory, each pointing to the next and the last to [last]. *)
Fixpoint chain (m : Z -> Z) (L : list blk) (last : Z) : Prop :=
  match L with
  | [] => True
  | (a, s) :: L' => m (a + 4) = s /\ m a = match L' with [] => last | (b, _) :: _ => b end /\ chain m L' last
  end.
(** Blocks in address order, no two adjacent. *)
Fixpoint sorted (L : list blk) : Prop :=
  match L with
  | [] => True
  | x :: L' => Forall (fun y => bend x < fst y) L' /\ sorted L'
  end.
Definition total (L : list blk) : Z := foldr (fun b n => snd b + n) 0 L.

Lemma chain_app m l1 l2 last :
  chain m (l1 ++ l2) last <-> chain m l1 (match l2 with [] => last | (b, _) :: _ => b end) /\ chain m l2 last.
Proof.
  induction l1 as [|[a s] l1 IH]; cbn [chain app]; [tauto|]. rewrite IH. destruct l1 as [|[b t] l1]; cbn; tauto.
Qed.
Lemma chain_frame m m' L last :
  chain m L last -> Forall (fun b => m' (fst b) = m (fst b) /\ m' (fst b + 4) = m (fst b + 4)) L -> chain m' L last.
Proof.
  induction L as [|[a s] L IH]; cbn; [done|]. intros (H1 & H2 & H3) [[E1 E2] HF]%Forall_cons. cbn in *. rewrite E1, E2. auto.
Qed.
Lemma sorted_app l1 l2 : sorted (l1 ++ l2) <-> sorted l1 /\ sorted l2 /\ Forall (fun x => Forall (fun y => bend x < fst y) l2) l1.
Proof.
  induction l1 as [|x l1 IH]; cbn; [split; [intros; split_and!; try done|tauto]|].
  rewrite Forall_app, IH, Forall_cons. tauto.
Qed.
Lemma total_cons x l : total (x :: l) = snd x + total l.
Proof. done. Qed.
Lemma total_app l1 l2 : total (l1 ++ l2) = total l1 + total l2.
Proof. unfold total. induction l1 as [|x l1 IH]; cbn in *; [lia|]. rewrite IH. lia. Qed.

(** The element after index [i] in the ring. *)
Definition next_ix (len i : nat) : nat := if bool_decide (S i < len)%nat then S i else 0%nat.
(** The steps from [i] to [j]. *)
Definition dist (len i j : nat) : nat := if bool_decide (i <= j)%nat then (j - i)%nat else (len - i + j)%nat.

Lemma dist_zero len i j : (i < len)%nat -> (j < len)%nat -> dist len i j = 0%nat <-> i = j.
Proof. intros. unfold dist. case_bool_decide; lia. Qed.
Lemma dist_next len i j : (i < len)%nat -> (j < len)%nat -> i <> j -> dist len i j = S (dist len (next_ix len i) j).
Proof. intros. unfold dist, next_ix. repeat case_bool_decide; lia. Qed.
Lemma dist_lt len i j : (i < len)%nat -> (j < len)%nat -> (dist len i j < len)%nat.
Proof. intros. unfold dist. case_bool_decide; lia. Qed.
Lemma next_ix_lt len i : (i < len)%nat -> (next_ix len i < len)%nat.
Proof. intros. unfold next_ix. case_bool_decide; lia. Qed.
Lemma dist_all len f k : (f < len)%nat -> (k < len)%nat -> (dist len (next_ix len f) k <= dist len (next_ix len f) f)%nat.
Proof. intros. unfold dist, next_ix. repeat case_bool_decide; lia. Qed.

Section Ring.
Context (base limit : Z).

(** [L] are the free blocks, [A] the allocated ones. *)
Record heap_ok (L A : list blk) (h : heap) : Prop := mk_heap_ok {
  ho_base : head L = Some (base, 0);
  ho_chain : chain (h_mem h) L base;
  ho_sorted : sorted L;
  ho_free : Forall (fun b => b = (base, 0) \/ (0 < snd b /\ base + 8 <= fst b /\ bend b <= h_brk h)) L;
  ho_held : Forall (fun b => 0 < snd b /\ base + 8 <= fst b /\ bend b <= h_brk h /\ h_mem h (fst b + 4) = snd b) A;
  ho_apart : Forall (fun x => Forall (apart x) A) L;
  ho_distinct : forall i j x y, i <> j -> A !! i = Some x -> A !! j = Some y -> apart x y;
  ho_freep : exists f s, L !! f = Some (h_freep h, s);
  ho_limit : 0 < base /\ base + 8 <= h_brk h <= limit /\ limit < 2 ^ 31 }.

(** Memory of the held blocks, from the size field of the header on. *)
Definition frame (A : list blk) (h h' : heap) : Prop :=
  forall b x, b ∈ A -> fst b + 4 <= x < bend b -> h_mem h' x = h_mem h x.

Lemma ring_next L A h i a s : heap_ok L A h -> L !! i = Some (a, s) ->
  h_mem h (a + 4) = s /\ exists t, L !! next_ix (length L) i = Some (h_mem h a, t).
Proof.
  intros Ok Hi. pose proof (ho_base _ _ _ Ok) as E0. pose proof (ho_chain _ _ _ Ok) as Hc.
  rewrite <- (take_drop_middle L i (a, s) Hi) in Hc. apply chain_app in Hc as [_ (H1 & H2 & _)]. split; [done|].
  pose proof (lookup_lt_Some _ _ _ Hi) as Hlt. unfold next_ix. case_bool_decide as Hn.
  - destruct (lookup_lt_is_Some_2 L (S i) Hn) as [[b t] Hb]. exists t. rewrite Hb. do 2 f_equal.
    rewrite (drop_S _ _ _ Hb) in H2. done.
  - rewrite drop_ge in H2 by lia. rewrite H2. exists 0. by destruct L.
Qed.

Lemma sorted_lookup L i j x y : sorted L -> (i < j)%nat -> L !! i = Some x -> L !! j = Some y -> bend x < fst y.
Proof.
  revert i j. induction L as [|z L IH]; intros i j; cbn; [done|]. intros [HF Hs] Hij. destruct j as [|j]; [lia|]. destruct i as [|i]; cbn.
  - intros [= ->] Hj. rewrite Forall_lookup in HF. eauto.
  - intros Hi Hj. apply (IH i j); try done. lia.
Qed.

Lemma sizes_nonneg L A h : heap_ok L A h -> Forall (fun b => 0 <= snd b) L.
Proof.
  intros Ok. eapply Forall_impl; [exact (ho_free _ _ _ Ok)|]. cbn. intros b [->|]; cbn; lia.
Qed.

(** Where a block that is not in the ring belongs. *)
Lemma place L bp x : sorted (x :: L) -> fst x < bp -> Forall (fun b => fst b <> bp) L -> Forall (fun b => 0 <= snd b) L ->
  exists l1 p s l2, x :: L = l1 ++ (p, s) :: l2 /\ p < bp /\ Forall (fun b => fst b < bp) l1 /\ Forall (fun b => bp < fst b) l2.
Proof.
  revert x. induction L as [|y L IH]; intros x Hs Hx Hne Hsz.
  - exists [], (fst x), (snd x), []. rewrite <- surjective_pairing. by split_and!.
  - apply Forall_cons in Hne as [Hy' Hne]. apply Forall_cons in Hsz as [Hsy Hsz]. destruct Hs as [_ Hs]. destruct (decide (fst y < bp)) as [Hy|Hy].
    + destruct (IH y Hs Hy Hne Hsz) as (l1 & p & s & l2 & E & Hp & H1 & H2). exists (x :: l1), p, s, l2. rewrite E. split_and!; try done. by constructor.
    + exists [], (fst x), (snd x), (y :: L). rewrite <- surjective_pairing. split_and!; try done.
      destruct Hs as [HF _]. constructor; [lia|]. eapply Forall_impl; [exact HF|]. unfold bend. cbn. intros; lia.
Qed.

(** The search of [free] ends at the block below. *)
Lemma free_find_run L A h bp l1 p s l2 f : heap_ok L A h -> L = l1 ++ (p, s) :: l2 -> p < bp ->
  Forall (fun b => fst b < bp) l1 -> Forall (fun b => bp < fst b) l2 ->
  forall i a t, L !! i = Some (a, t) -> (dist (length L) i (length l1) < f)%nat -> free_find f bp a h = Ret p h.
Proof.
  intros Ok EL Hp H1 H2. set (j := length l1). assert (Hj : L !! j = Some (p, s)) by (rewrite EL; by apply list_lookup_middle).
  pose proof (lookup_lt_Some _ _ _ Hj) as Hjl.
  assert (Hside : forall i a t, L !! i = Some (a, t) -> ((i <= j)%nat /\ a < bp) \/ ((j < i)%nat /\ bp < a)).
  { intros i a t Hi. rewrite EL in Hi. destruct (decide (i < j)%nat) as [Hij|Hij].
    - left. rewrite lookup_app_l in Hi by done. rewrite Forall_lookup in H1. split; [lia|]. by apply (H1 i (a, t)).
    - rewrite lookup_app_r in Hi by (unfold j in *; lia). destruct (i - length l1)%nat as [|k] eqn:Ek; cbn in Hi.
      + injection Hi as <- <-. left. unfold j in *. lia.
      + right. rewrite Forall_lookup in H2. split; [unfold j in *; lia|]. by apply (H2 k (a, t)). }
  induction f as [|f IH]; intros i a t Hi Hd; [lia|]. cbn [free_find].
  pose proof (lookup_lt_Some _ _ _ Hi) as Hil.
  destruct (ring_next L A h i a t Ok Hi) as [_ [t' Hn]]. unfold ptr, rdw. munfold. set (q := h_mem h a) in *.
  pose proof (ho_sorted _ _ _ Ok) as Hs. pose proof (sizes_nonneg _ _ _ Ok) as Hsz. rewrite Forall_lookup in Hsz.
  pose proof (Hside _ _ _ Hi) as Sa. pose proof (Hside _ _ _ Hn) as Sq.
  assert (Hord : if bool_decide (S i < length L)%nat then a < q else q <= a).
  { unfold next_ix in Hn. pose proof (Hsz _ _ Hi). cbn in *. case_bool_decide.
    - pose proof (sorted_lookup L i (S i) (a, t) (q, t') Hs ltac:(lia) Hi Hn). unfold bend in *. cbn in *. lia.
    - destruct (decide (i = 0%nat)) as [->|]; [rewrite Hi in Hn; injection Hn; lia|].
      pose proof (sorted_lookup L 0 i (q, t') (a, t) Hs ltac:(lia) Hn Hi). pose proof (Hsz _ _ Hn). unfold bend in *. cbn in *. lia. }
  unfold next_ix in *. destruct (decide (i = j)) as [->|Hij].
  - assert (a = p) as -> by (rewrite Hj in Hi; congruence). case_bool_decide.
    + replace ((bp >? p) && (bp <? q)) with true by lia. done.
    + destruct ((bp >? p) && (bp <? q)) eqn:E1; [done|]. replace ((p >=? q) && ((bp >? p) || (bp <? q))) with true by lia. done.
  - rewrite dist_next in Hd by done. unfold next_ix in Hd. case_bool_decide as Hl.
    + replace ((bp >? a) && (bp <? q)) with false by lia. replace ((a >=? q) && ((bp >? a) || (bp <? q))) with false by lia.
      apply (IH (S i) q t' Hn). lia.
    + replace ((bp >? a) && (bp <? q)) with false by lia. replace ((a >=? q) && ((bp >? a) || (bp <? q))) with false by lia.
      apply (IH 0%nat q t' Hn). lia.
Qed.

(** Decides comparisons of addresses. *)
Ltac addr_simpl := repeat match goal with
  | |- context [?x =? ?y] => first [rewrite (proj2 (Z.eqb_neq x y)) by lia | rewrite (proj2 (Z.eqb_eq x y)) by lia]
  end.

(** What [free] writes. *)
Lemma free_link_run h bp p :
  let m := h_mem h in
  let q := m p in
  let n := m (bp + 4) in
  let right := bp + 8 * n =? q in
  let n' := if right then u32 (n + m (q + 4)) else n in
  let r := if right then m q else q in
  let left := p + 8 * m (p + 4) =? bp in
  (bp + 8 <= p \/ p + 8 <= bp) -> (right = true -> bp + 8 <= q \/ q + 8 <= bp) ->
  exists h', free_link bp p h = Ret tt h' /\ h_brk h' = h_brk h /\ h_freep h' = p /\
    h_mem h' p = (if left then r else bp) /\ h_mem h' (p + 4) = (if left then u32 (m (p + 4) + n') else m (p + 4)) /\
    h_mem h' bp = r /\ h_mem h' (bp + 4) = n' /\
    (forall x, x <> p -> x <> p + 4 -> x <> bp -> x <> bp + 4 -> h_mem h' x = m x).
Proof.
  intros m q n right n' r left Hpb Hqb. unfold free_link, ptr, size, set_ptr, set_size, set_freep, rdw, wrw. munfold.
  cbn [h_mem h_freep h_brk]. fold m. fold q. fold n. fold right. destruct right eqn:Er; cbn [h_mem h_freep h_brk].
  - specialize (Hqb eq_refl). addr_simpl. change (p + 8 * h_mem h (p + 4) =? bp) with left. destruct left eqn:El; cbn [h_mem h_freep h_brk]; addr_simpl;
      (eexists; split; [reflexivity|]; cbn [h_mem h_freep h_brk]; split_and!; try done; try (addr_simpl; reflexivity); intros; by addr_simpl).
  - addr_simpl. change (p + 8 * h_mem h (p + 4) =? bp) with left. destruct left eqn:El; cbn [h_mem h_freep h_brk]; addr_simpl;
      (eexists; split; [reflexivity|]; cbn [h_mem h_freep h_brk]; split_and!; try done; try (addr_simpl; reflexivity); intros; by addr_simpl).
Qed.

(** The ring with the block [(bp, n)] put in after [l1 ++ [(p, s)]], joined to its
    neighbours where they touch. *)
Definition joined (l1 : list blk) (p s bp n : Z) (l2 : list blk) : list blk :=
  let '(n', l2') := match l2 with
                    | (q, t) :: l3 => if bp + 8 * n =? q then (n + t, l3) else (n, l2)
                    | [] => (n, [])
                    end in
  if p + 8 * s =? bp then l1 ++ (p, s + n') :: l2' else l1 ++ (p, s) :: (bp, n') :: l2'.

Lemma joined_shape l1 p s bp n l2 : Forall (fun b => 0 <= snd b) l2 ->
  exists n' l2', n <= n' /\ joined l1 p s bp n l2 = if p + 8 * s =? bp then l1 ++ (p, s + n') :: l2' else l1 ++ (p, s) :: (bp, n') :: l2'.
Proof.
  intros H2. unfold joined. destruct l2 as [|[q t] l3]; [exists n, []; split; [lia|done]|].
  apply Forall_cons in H2 as [Ht _]. cbn in Ht. destruct (bp + 8 * n =? q); [exists (n + t), l3|exists n, ((q, t) :: l3)]; (split; [lia|done]).
Qed.
Lemma joined_total l1 p s bp n l2 : total (joined l1 p s bp n l2) = total (l1 ++ (p, s) :: l2) + n.
Proof.
  unfold joined. destruct l2 as [|[q t] l3]; [|destruct (bp + 8 * n =? q)]; destruct (p + 8 * s =? bp); rewrite !total_app; cbn; lia.
Qed.
Lemma joined_length l1 p s bp n l2 : (length (joined l1 p s bp n l2) <= S (length (l1 ++ (p, s) :: l2)))%nat.
Proof.
  unfold joined. destruct l2 as [|[q t] l3]; [|destruct (bp + 8 * n =? q)]; destruct (p + 8 * s =? bp); rewrite !length_app; cbn; lia.
Qed.

(** A block that is neither free nor held. *)
Record loose (L A : list blk) (bp n : Z) (h : heap) : Prop := mk_loose {
  lo_size : 0 < n;
  lo_low : base + 8 <= bp;
  lo_high : bp + 8 * n <= h_brk h;
  lo_mem : h_mem h (bp + 4) = n;
  lo_free : Forall (apart (bp, n)) L;
  lo_held : Forall (apart (bp, n)) A }.

Lemma joined_sorted l1 p s bp n l2 :
  sorted (l1 ++ (p, s) :: l2) -> Forall (fun b => bp + 8 * n <= fst b) l2 -> p + 8 * s <= bp -> 0 < n -> 0 <= s -> Forall (fun b => 0 <= snd b) l2 ->
  sorted (joined l1 p s bp n l2).
Proof.
  intros Hs H2 Hp Hn Hs0 Hsz. apply sorted_app in Hs as (Hs1 & [Hpl Hs2] & H1).
  assert (Hlt : forall e, e <= bp + 8 * n -> Forall (fun b => e < fst b) l2 \/ exists q t l3, l2 = (q, t) :: l3 /\ q = bp + 8 * n).
  { intros e He. destruct l2 as [|[q t] l3]; [by left|]. apply Forall_cons in H2 as [Hq H2]. destruct Hs2 as [Hq3 _]. cbn in *.
    destruct (decide (q = bp + 8 * n)); [right; by exists q, t, l3|]. left. apply Forall_cons in Hsz as [Ht _]. constructor; [cbn; lia|].
    eapply Forall_impl; [exact Hq3|]. unfold bend. cbn in *. intros; lia. }
  assert (H1p : Forall (fun x => bend x < p) l1).
  { eapply Forall_impl; [exact H1|]. intros x HF. apply Forall_cons in HF as [HF _]. done. }
  assert (Hmid : forall n' l2', (n', l2') = match l2 with (q, t) :: l3 => if bp + 8 * n =? q then (n + t, l3) else (n, l2) | [] => (n, []) end ->
    sorted l2' /\ Forall (fun b => bp + 8 * n' < fst b) l2' /\ n <= n' /\ (forall x : blk, Forall (fun y => bend x < fst y) l2 -> Forall (fun y => bend x < fst y) l2')).
  { intros n' l2'. destruct l2 as [|[q t] l3]; [intros [= -> ->]; split_and!; done || lia|]. destruct (Z.eqb_spec (bp + 8 * n) q) as [Eq|Eq]; intros [= -> ->].
    - apply Forall_cons in Hsz as [Ht _]. cbn in Ht. destruct Hs2 as [Hq3 Hs3]. split_and!; [done| |lia|by intros x [_ ?]%Forall_cons].
      eapply Forall_impl; [exact Hq3|]. unfold bend. cbn. intros; lia.
    - split_and!; try done. destruct (Hlt (bp + 8 * n) ltac:(lia)) as [?|(q' & t' & l' & E & ?)]; [done|]. injection E as -> _ _. lia. }
  unfold joined. destruct (match l2 with [] => _ | _ => _ end) as [n' l2']. destruct (Hmid n' l2' eq_refl) as (Hl2' & Hn' & Hnn & Hsub).
  assert (H1l : Forall (fun x => Forall (fun y => bend x < fst y) l2') l1).
  { eapply Forall_impl; [exact H1|]. intros x [_ HF]%Forall_cons. by apply Hsub. }
  destruct (Z.eqb_spec (p + 8 * s) bp) as [Ep|Ep]; apply sorted_app; split_and!; try done.
  - split; [|done]. eapply Forall_impl; [exact Hn'|]. unfold bend. cbn. intros; lia.
  - apply Forall_forall. intros x Hx. constructor; [by apply (proj1 (Forall_forall _ _) H1p)|by apply (proj1 (Forall_forall _ _) H1l)].
  - split; [|split; [done|done]]. constructor; [unfold bend; cbn; lia|]. eapply Forall_impl; [exact Hn'|]. unfold bend. cbn. intros; lia.
  - apply Forall_forall. intros x Hx. pose proof (proj1 (Forall_forall _ _) H1p x Hx) as Hxp. cbn in Hxp.
    constructor; [done|]. constructor; [cbn; lia|by apply (proj1 (Forall_forall _ _) H1l)].
Qed.

Lemma apart_join a s b t (y : blk) : a + 8 * s = b -> 0 < snd y -> 0 <= t -> 0 <= s -> apart (a, s) y -> apart (b, t) y -> apart (a, s + t) y.
Proof. unfold apart, bend. cbn. lia. Qed.

Lemma joined_free l1 p s bp n l2 brk :
  let ok (b : blk) := b = (base, 0) \/ (0 < snd b /\ base + 8 <= fst b /\ bend b <= brk) in
  Forall ok (l1 ++ (p, s) :: l2) -> base + 8 <= bp -> bp + 8 * n <= brk -> 0 < n -> Forall (fun b => bp < fst b) l2 ->
  Forall ok (joined l1 p s bp n l2).
Proof.
  intros ok HF Hb Hbn Hn H2. apply Forall_app in HF as [H1 [Hp HF]%Forall_cons]. unfold joined.
  assert (Hnew : ok (bp, n)) by (right; cbn; unfold bend; cbn; lia).
  assert (Hleft : forall n', ok (bp, n') -> 0 < n' -> p + 8 * s = bp -> ok (p, s + n')).
  { intros n' Hn' H0 E. right. destruct Hp as [[= -> ->]|Hp]; [lia|]. destruct Hn' as [[= ? ?]|Hn']; unfold bend in *; cbn in *; lia. }
  destruct l2 as [|[q t] l3].
  - destruct (Z.eqb_spec (p + 8 * s) bp); apply Forall_app; split; try done; repeat (constructor; auto).
  - apply Forall_cons in HF as [Hq HF]. apply Forall_cons in H2 as [Hbq _]. cbn in Hbq.
    destruct (Z.eqb_spec (bp + 8 * n) q) as [Eq|Eq].
    + destruct Hq as [[= -> ->]|Hq]; [lia|]. unfold bend in Hq. cbn in Hq.
      assert (Hnt : ok (bp, n + t)) by (right; unfold bend; cbn; lia).
      destruct (Z.eqb_spec (p + 8 * s) bp) as [Ep|Ep]; apply Forall_app; split; try done.
      * constructor; [|done]. apply Hleft; done || lia.
      * repeat (constructor; auto).
    + destruct (Z.eqb_spec (p + 8 * s) bp) as [Ep|Ep]; apply Forall_app; split; try done.
      * repeat (constructor; auto).
      * repeat (constructor; auto).
Qed.

Lemma joined_apart l1 p s bp n l2 (A : list blk) :
  Forall (fun x => Forall (apart x) A) (l1 ++ (p, s) :: l2) -> Forall (apart (bp, n)) A -> Forall (fun y => 0 < snd y) A -> 0 < n -> 0 <= s ->
  Forall (fun b => 0 <= snd b) l2 -> Forall (fun x => Forall (apart x) A) (joined l1 p s bp n l2).
Proof.
  intros HF Hb HA Hn Hs Hsz. apply Forall_app in HF as [H1 [Hp HF]%Forall_cons].
  assert (Hjoin : forall a s b t, a + 8 * s = b -> 0 <= t -> 0 <= s -> Forall (apart (a, s)) A -> Forall (apart (b, t)) A -> Forall (apart (a, s + t)) A).
  { intros a s' b t E Ht Hs' Ha Hb'. rewrite Forall_forall in *. intros y Hy. apply (apart_join a s' b t y); auto. }
  unfold joined. destruct l2 as [|[q t] l3].
  - destruct (Z.eqb_spec (p + 8 * s) bp); apply Forall_app; split; try done.
    + constructor; [apply (Hjoin _ _ bp); done || lia|done].
    + repeat (constructor; auto).
  - apply Forall_cons in HF as [Hq HF]. apply Forall_cons in Hsz as [Ht _]. cbn in Ht. destruct (Z.eqb_spec (bp + 8 * n) q) as [Eq|Eq].
    + pose proof (Hjoin bp n q t Eq Ht ltac:(lia) Hb Hq) as Hbq. destruct (Z.eqb_spec (p + 8 * s) bp); apply Forall_app; split; try done.
      * constructor; [apply (Hjoin _ _ bp); done || lia|done].
      * repeat (constructor; auto).
    + destruct (Z.eqb_spec (p + 8 * s) bp); apply Forall_app; split; try done.
      * constructor; [apply (Hjoin _ _ bp); done || lia|by constructor].
      * repeat (constructor; auto).
Qed.

(** The headers of the new ring, [m'] being the memory [free] leaves. *)
Lemma joined_chain m m' l1 p s bp n l2 :
  chain m (l1 ++ (p, s) :: l2) base -> base < bp -> m (bp + 4) = n -> 0 <= n -> 0 <= s -> bp + 8 * n + 8 * s < 2 ^ 32 ->
  Forall (fun b => fst b + 8 <= p /\ fst b + 8 <= bp) l1 -> Forall (fun b => p + 8 <= fst b /\ bp + 8 <= fst b /\ 0 <= snd b /\ bend b < 2 ^ 31) l2 -> p + 8 <= bp -> 0 <= p -> p + 8 * s <= bp -> bp + 8 * n < 2 ^ 31 ->
  let right := bp + 8 * n =? m p in
  let n' := if right then u32 (n + m (m p + 4)) else n in
  let r := if right then m (m p) else m p in
  let left := p + 8 * m (p + 4) =? bp in
  m' p = (if left then r else bp) -> m' (p + 4) = (if left then u32 (m (p + 4) + n') else m (p + 4)) ->
  m' bp = r -> m' (bp + 4) = n' -> (forall x, x <> p -> x <> p + 4 -> x <> bp -> x <> bp + 4 -> m' x = m x) ->
  chain m' (joined l1 p s bp n l2) base.
Proof.
  intros Hc Hbase Hn Hn0 Hs0 Hsum H1 H2 Hpb Hp0 Hps Hbn right n' r left Ep Eps Eb Ebs Hfr. apply chain_app in Hc as [Hc1 (Hsz & Hpq & Hc2)].
  assert (Hc1' : chain m' l1 p).
  { eapply chain_frame; [exact Hc1|]. eapply Forall_impl; [exact H1|]. cbn. intros b Hb. split; apply Hfr; lia. }
  assert (Hfr2 : forall l, (forall b, b ∈ l -> b ∈ l2) -> chain m l base -> chain m' l base).
  { intros l Hl Hc. eapply chain_frame; [exact Hc|]. apply Forall_forall. intros b Hb%Hl. rewrite Forall_forall in H2. specialize (H2 b Hb).
    split; apply Hfr; lia. }
  unfold joined. destruct l2 as [|[q t] l3].
  - assert (Er : right = false) by (unfold right; rewrite Hpq; apply Z.eqb_neq; lia).
    subst n' r. rewrite Er in *. rewrite Hpq in *. subst left. rewrite Hsz in *. destruct (Z.eqb_spec (p + 8 * s) bp).
    + apply chain_app. split; [done|]. rewrite u32_small in Eps by lia. by split_and!.
    + apply chain_app. split; [done|]. by split_and!.
  - apply Forall_cons in H2 as [Hq2 H2]. unfold bend in Hq2. cbn in Hq2. destruct Hc2 as (Ht & Hqr & Hc3).
    subst n' r left. rewrite Hsz in *. unfold right in *. rewrite Hpq in *. destruct (Z.eqb_spec (bp + 8 * n) q) as [Eq|Eq].
    + rewrite Ht in *. rewrite u32_small in * by lia. assert (Hc3' : chain m' l3 base) by (apply Hfr2; [by right|done]).
      destruct (Z.eqb_spec (p + 8 * s) bp); apply chain_app; split; try done.
      * rewrite (u32_small (n + t)), u32_small in Eps by lia. split_and!; [done| |done]. by rewrite Ep.
      * split_and!; try done. split_and!; [done|by rewrite Eb|done].
    + assert (Hc2' : chain m' ((q, t) :: l3) base) by (apply Hfr2; [done|by split_and!]).
      destruct (Z.eqb_spec (p + 8 * s) bp); apply chain_app; split; try done.
      rewrite u32_small in Eps by lia. split_and!; [done|done|done].
Qed.

(** [free] of a loose block puts it in the ring: here between [(p, s)] and [l2]. *)
Section Place.
Context (L A : list blk) (h : heap) (bp n : Z) (l1 : list blk) (p s : Z) (l2 : list blk).
Context (Ok : heap_ok L A h) (Lo : loose L A bp n h) (EL : L = l1 ++ (p, s) :: l2).
Context (Hp : p < bp) (H1 : Forall (fun b => fst b < bp) l1) (H2 : Forall (fun b => bp < fst b) l2).

Lemma place_at b : b ∈ L ->
  0 <= snd b /\ base <= fst b /\ bend b <= h_brk h /\ (fst b < bp -> bend b <= bp /\ fst b + 8 <= bp) /\ (bp < fst b -> bp + 8 * n <= fst b).
Proof.
  intros Hb. pose proof (ho_limit _ _ _ Ok). destruct Lo as [Hn Hlow Hhigh _ Hfree _].
  pose proof (proj1 (Forall_forall _ _) (ho_free _ _ _ Ok) b Hb) as HF. rewrite Forall_forall in Hfree. specialize (Hfree b Hb). unfold apart, bend in *. cbn in *.
  destruct HF as [->|HF]; cbn in *; split_and!; intros; lia.
Qed.
Lemma place_gap b c : b ∈ L -> c ∈ L -> bend b < fst c -> fst b + 8 <= fst c.
Proof.
  intros Hb Hc Hlt. pose proof (proj1 (Forall_forall _ _) (ho_free _ _ _ Ok) b Hb) as HFb.
  pose proof (proj1 (Forall_forall _ _) (ho_free _ _ _ Ok) c Hc) as HFc. destruct HFb as [->|HFb], HFc as [->|HFc]; unfold bend in *; cbn in *; lia.
Qed.
Lemma place_mid : (p, s) ∈ L.
Proof. rewrite EL, elem_of_app, elem_of_cons. auto. Qed.
Lemma place_below : Forall (fun b => fst b + 8 <= p /\ fst b + 8 <= bp) l1.
Proof.
  apply Forall_forall. intros b Hb. assert (Hin : b ∈ L) by (rewrite EL, elem_of_app; auto).
  pose proof (ho_sorted _ _ _ Ok) as Hs. rewrite EL in Hs. apply sorted_app in Hs as (_ & _ & Hl1). rewrite Forall_forall in H1, Hl1.
  pose proof (place_at b Hin). specialize (H1 b Hb). specialize (Hl1 b Hb). apply Forall_cons in Hl1 as [Hbp _].
  pose proof (place_gap b (p, s) Hin place_mid Hbp). cbn in *. lia.
Qed.
Lemma place_above : Forall (fun b => p + 8 <= fst b /\ bp + 8 <= fst b /\ 0 <= snd b /\ bend b < 2 ^ 31) l2.
Proof.
  apply Forall_forall. intros b Hb. assert (Hin : b ∈ L) by (rewrite EL, elem_of_app, elem_of_cons; auto).
  pose proof (ho_limit _ _ _ Ok). pose proof (lo_size _ _ _ _ _ Lo).
  pose proof (ho_sorted _ _ _ Ok) as Hs. rewrite EL in Hs. apply sorted_app in Hs as (_ & [Hpl _] & _). rewrite Forall_forall in H2, Hpl.
  pose proof (place_at b Hin). specialize (H2 b Hb). pose proof (place_gap (p, s) b place_mid Hin (Hpl b Hb)). cbn in *. lia.
Qed.
Lemma place_frame x b : b ∈ A -> fst b + 4 <= x < bend b -> x <> p /\ x <> p + 4 /\ x <> bp /\ x <> bp + 4.
Proof.
  intros Hb Hx. destruct Lo as [Hn Hlow Hhigh _ _ Hheld]. rewrite Forall_forall in Hheld. specialize (Hheld b Hb).
  pose proof (proj1 (Forall_forall _ _) (ho_held _ _ _ Ok) b Hb) as Hbk.
  pose proof (proj1 (Forall_forall _ _) (proj1 (Forall_forall _ _) (ho_apart _ _ _ Ok) (p, s) place_mid) b Hb) as Hpa.
  pose proof (proj1 (Forall_forall _ _) (ho_free _ _ _ Ok) (p, s) place_mid) as Hpok. unfold apart, bend in *. cbn in *.
  destruct Hpok as [[= -> ->]|]; lia.
Qed.

Lemma place_ok h' : chain (h_mem h') (joined l1 p s bp n l2) base -> frame A h h' -> h_brk h' = h_brk h -> h_freep h' = p ->
  heap_ok (joined l1 p s bp n l2) A h' /\ Exists (fun b => n <= snd b) (joined l1 p s bp n l2).
Proof.
  intros Hchain Hfrm Ebrk Efp. pose proof (ho_limit _ _ _ Ok) as (Hb0 & Hbrk & Hlim). destruct Lo as [Hn Hlow Hhigh Hm Hfree Hheld].
  pose proof (place_at (p, s) place_mid) as Hps. unfold bend in Hps. cbn in Hps.
  assert (Hsz2 : Forall (fun b => 0 <= snd b) l2) by (eapply Forall_impl; [exact place_above|]; cbn; intros; lia).
  destruct (joined_shape l1 p s bp n l2 Hsz2) as (n' & l2' & Hn' & Ej). split.
  2: { rewrite Ej. destruct (p + 8 * s =? bp); apply Exists_app; right; [left; cbn; lia|right; left; cbn; lia]. }
  pose proof (ho_base _ _ _ Ok) as E0. rewrite EL in E0. constructor; try done.
  - rewrite Ej. destruct l1 as [|y l1']; [injection E0 as -> ->; rewrite (proj2 (Z.eqb_neq (base + 8 * 0) bp)) by lia; done|].
    by destruct (p + 8 * s =? bp).
  - apply joined_sorted; try done; try lia; [rewrite <- EL; apply Ok|]. apply Forall_forall. intros b Hb. rewrite Forall_forall in H2.
    apply place_at; [rewrite EL, elem_of_app, elem_of_cons; auto|auto].
  - rewrite Ebrk. apply joined_free; try done; rewrite <- EL; apply Ok || apply Lo.
  - apply Forall_forall. intros b Hb. pose proof (proj1 (Forall_forall _ _) (ho_held _ _ _ Ok) b Hb) as (B1 & B2 & B3 & B4).
    rewrite Ebrk. split_and!; try done. rewrite (Hfrm b); [done|done|]. unfold bend. lia.
  - apply joined_apart; try done; [rewrite <- EL; apply (ho_apart _ _ _ Ok)| |lia].
    eapply Forall_impl; [apply (ho_held _ _ _ Ok)|]. cbn. intros; lia.
  - apply (ho_distinct _ _ _ Ok).
  - rewrite Efp, Ej. destruct (p + 8 * s =? bp); exists (length l1); eexists; by apply list_lookup_middle.
  - rewrite Ebrk. lia.
Qed.

Lemma place_run fuel : (length L <= fuel)%nat -> exists h',
  free fuel (bp + 8) h = Ret tt h' /\ heap_ok (joined l1 p s bp n l2) A h' /\ frame A h h' /\ h_brk h' = h_brk h /\
  Exists (fun b => n <= snd b) (joined l1 p s bp n l2).
Proof.
  intros Hfuel. destruct (ho_freep _ _ _ Ok) as (f & fs & Hf). pose proof (lookup_lt_Some _ _ _ Hf) as Hfl.
  pose proof (place_at (p, s) place_mid) as Hps. unfold bend in Hps. cbn in Hps.
  pose proof (ho_chain _ _ _ Ok) as Hc. rewrite EL in Hc. pose proof Hc as Hc'. apply chain_app in Hc' as [_ (Hms & Hmp & _)].
  pose proof (lo_mem _ _ _ _ _ Lo) as Hm. pose proof (lo_size _ _ _ _ _ Lo) as Hn. pose proof (ho_limit _ _ _ Ok). pose proof (lo_high _ _ _ _ _ Lo).
  destruct (free_link_run h bp p ltac:(right; lia) ltac:(rewrite Hm; lia)) as (h' & Er & Ebrk & Efp & Ep & Eps & Eb & Ebs & Hfr).
  assert (Efind : free_find fuel bp (h_freep h) h = Ret p h).
  { apply (free_find_run _ A h bp l1 p s l2 fuel Ok EL Hp H1 H2 f _ fs Hf). pose proof (dist_lt (length L) f (length l1) Hfl) as Hd.
    rewrite EL, length_app in *. cbn in *. lia. }
  assert (Hfrm : frame A h h') by (intros b x Hb Hx; destruct (place_frame x b Hb Hx) as (? & ? & ? & ?); by apply Hfr).
  assert (Hch : chain (h_mem h') (joined l1 p s bp n l2) base).
  { rewrite Hm in Ep, Eps, Eb, Ebs. eapply (joined_chain (h_mem h)); first [done|apply place_below|apply place_above|lia]. }
  exists h'. split. { unfold free. replace (bp + 8 - 8) with bp by lia. munfold. by rewrite Efind. }
  destruct (place_ok h' Hch Hfrm Ebrk Efp). done.
Qed.
End Place.

Lemma free_loose fuel L A h bp n :
  heap_ok L A h -> loose L A bp n h -> (length L <= fuel)%nat ->
  exists L' h', free fuel (bp + 8) h = Ret tt h' /\ heap_ok L' A h' /\ frame A h h' /\ h_brk h' = h_brk h /\
    total L' = total L + n /\ (length L' <= S (length L))%nat /\ Exists (fun b => n <= snd b) L'.
Proof.
  intros Ok Lo Hfuel. pose proof (sizes_nonneg _ _ _ Ok) as Hsz. pose proof (ho_base _ _ _ Ok) as Ebase.
  pose proof (lo_low _ _ _ _ _ Lo). pose proof (lo_size _ _ _ _ _ Lo). destruct L as [|x L]; [done|]. injection Ebase as ->.
  assert (Hne : Forall (fun b => fst b <> bp) L).
  { apply Forall_forall. intros b Hb Heq. pose proof (proj1 (Forall_forall _ _) (lo_free _ _ _ _ _ Lo) b ltac:(by right)) as Hfree.
    pose proof (proj1 (Forall_forall _ _) (ho_free _ _ _ Ok) b ltac:(by right)) as HF.
    unfold apart, bend in *. cbn in *. destruct HF as [->|]; cbn in *; lia. }
  destruct (place L bp (base, 0) (ho_sorted _ _ _ Ok) ltac:(cbn; lia) Hne ltac:(by apply Forall_cons in Hsz as [_ ?])) as (l1 & p & s & l2 & EL & Hp & H1 & H2).
  destruct (place_run _ A h bp n l1 p s l2 Ok Lo EL Hp H1 H2 fuel Hfuel) as (h' & Er & Ok' & Hfr & Eb & Hex).
  exists (joined l1 p s bp n l2), h'. split_and!; try done; [by rewrite joined_total, EL|rewrite EL; apply joined_length].
Qed.

(** *** [malloc] takes a block out of the ring *)

(** What taking [(a, n)] out of the ring leaves. *)
Definition taken (L A : list blk) (h : heap) (n : Z) (r : Z) (h' : heap) : Prop :=
  exists L' a, r = a + 8 /\ 0 < a /\ heap_ok L' ((a, n) :: A) h' /\ frame A h h' /\ h_brk h' = h_brk h /\
    total L' + n = total L /\ (length L' <= length L)%nat.

Lemma held_cons A a n h h' :
  Forall (fun b => 0 < snd b /\ base + 8 <= fst b /\ bend b <= h_brk h /\ h_mem h (fst b + 4) = snd b) A -> frame A h h' -> h_brk h' = h_brk h ->
  0 < n -> base + 8 <= a -> a + 8 * n <= h_brk h -> h_mem h' (a + 4) = n ->
  Forall (fun b => 0 < snd b /\ base + 8 <= fst b /\ bend b <= h_brk h' /\ h_mem h' (fst b + 4) = snd b) ((a, n) :: A).
Proof.
  intros HA Hf Hb Hn Ha Han Hm. rewrite Hb. constructor; [cbn; unfold bend; cbn; lia|]. apply Forall_forall. intros b Hin.
  rewrite Forall_forall in HA. destruct (HA b Hin) as (B1 & B2 & B3 & B4). split_and!; try done. rewrite (Hf b); try done. unfold bend. lia.
Qed.
Lemma distinct_cons (A : list blk) x :
  (forall i j y z, i <> j -> A !! i = Some y -> A !! j = Some z -> apart y z) -> Forall (apart x) A ->
  forall i j y z, i <> j -> (x :: A) !! i = Some y -> (x :: A) !! j = Some z -> apart y z.
Proof.
  intros HA Hx i j y z Hij. rewrite Forall_lookup in Hx. destruct i as [|i], j as [|j]; cbn; [done| | |].
  - intros [= <-] Hz. eauto.
  - intros Hy [= <-]. specialize (Hx _ _ Hy). unfold apart in *. tauto.
  - intros Hy Hz. apply (HA i j); [congruence|done|done].
Qed.

Section Take.
Context (L A : list blk) (h : heap) (l1 : list blk) (pv ps p s : Z) (l2 : list blk) (n : Z).
Hypothesis (Ok : heap_ok L A h) (EL : L = l1 ++ (pv, ps) :: (p, s) :: l2) (Hn : 0 < n) (Hs : n <= s).

Lemma take_facts : base + 8 <= p /\ p + 8 * s <= h_brk h /\ pv + 8 <= p /\ 0 <= ps /\ pv + 8 * ps < p /\
  Forall (apart (p, s)) A /\ Forall (fun b => bend b < pv /\ fst b + 8 <= pv) l1 /\ Forall (fun b => p + 8 * s < fst b) l2 /\
  Forall (apart (pv, ps)) A /\ 0 < base <= pv /\ h_brk h < 2 ^ 31.
Proof.
  pose proof (ho_free _ _ _ Ok) as HF. pose proof (ho_sorted _ _ _ Ok) as HS. pose proof (ho_apart _ _ _ Ok) as HA. pose proof (ho_limit _ _ _ Ok) as Hl.
  rewrite EL in HF, HS, HA. apply sorted_app in HS as (_ & [Hpv [Hp _]] & H1). apply Forall_cons in Hpv as [Hpvp _].
  apply Forall_app in HF as [HF1 [HFpv [HFp _]%Forall_cons]%Forall_cons]. apply Forall_app in HA as [_ [HApv [HAp _]%Forall_cons]%Forall_cons].
  unfold bend in *. cbn in *. destruct HFp as [[= -> ->]|HFp]; [lia|]. assert (Hpvb : pv + 8 <= p /\ 0 <= ps /\ base <= pv) by (destruct HFpv as [[= -> ->]|]; lia).
  split_and!; try lia; try done. apply Forall_forall. intros b Hb. rewrite Forall_forall in H1, HF1. specialize (H1 b Hb). specialize (HF1 b Hb).
  apply Forall_cons in H1 as [Hbp _]. cbn in Hbp. destruct HF1 as [->|]; cbn in *; [|lia]. destruct HFpv as [[= -> ->]|]; lia.
Qed.

(** The ring without the [n] units from [new] on. *)
Definition rest : list blk := if s =? n then [] else [(p, s - n)].
Definition new : Z := p + 8 * (s - n).

Lemma rest_spec : Forall (fun b => fst b = p /\ 0 < snd b /\ bend b = new) rest /\ sorted rest /\ total rest = s - n /\ (length rest <= 1)%nat.
Proof. unfold rest, new, bend. destruct (Z.eqb_spec s n); cbn; split_and!; repeat constructor; cbn; lia. Qed.

Lemma taken_ok h' : chain (h_mem h') (l1 ++ (pv, ps) :: rest ++ l2) base -> h_mem h' (new + 4) = n -> frame A h h' -> h_brk h' = h_brk h -> h_freep h' = pv ->
  taken L A h n (new + 8) h'.
Proof.
  intros Hc Hm Hfr Hbrk Hfp. destruct take_facts as (Hp & Hpb & Hpv & Hps & Hpvp & HAp & H1 & H2 & HApv & Hb & Hlim).
  destruct rest_spec as (R1 & R2 & R3 & R4). assert (Hnew : p <= new /\ new + 8 * n = p + 8 * s) by (unfold new; lia).
  pose proof (ho_sorted _ _ _ Ok) as HS. pose proof (ho_free _ _ _ Ok) as HF. pose proof (ho_apart _ _ _ Ok) as HA. rewrite EL in HS, HF, HA.
  apply sorted_app in HS as (S1 & [Spv [_ S2]] & S3). apply Forall_cons in Spv as [_ Spv].
  apply Forall_app in HF as [F1 [Fpv [_ F2]%Forall_cons]%Forall_cons]. apply Forall_app in HA as [A1 [_ [_ A2]%Forall_cons]%Forall_cons].
  assert (Hsub : forall b, b ∈ rest -> apart b (new, n) /\ Forall (apart b) A).
  { intros b Hb'. rewrite Forall_forall in R1. destruct (R1 b Hb') as (B1 & B2 & B3). split; [left; rewrite B3; done|].
    eapply Forall_impl; [exact HAp|]. intros y. unfold apart, bend in *. cbn. intros; lia. }
  exists (l1 ++ (pv, ps) :: rest ++ l2), new. split_and!; try done; [lia| |rewrite EL, !total_app, !total_cons, total_app; cbn [snd]; lia|rewrite EL, !length_app; cbn; rewrite length_app; lia].
  constructor; [|done|..].
  - pose proof (ho_base _ _ _ Ok) as E0. rewrite EL in E0. by destruct l1.
  - apply sorted_app. split; [done|]. cbn [sorted]. rewrite sorted_app, Forall_app. split_and!; try done.
    + eapply Forall_impl; [exact R1|]. unfold bend. cbn. intros b (-> & _). lia.
    + eapply Forall_impl; [exact R1|]. intros b (_ & _ & ->). eapply Forall_impl; [exact H2|]. cbn. intros; lia.
    + apply Forall_forall. intros b Hb'. rewrite Forall_forall in H1, S3. destruct (H1 b Hb') as [Hb1 _]. specialize (S3 b Hb').
      apply Forall_cons in S3 as [_ [Hbp S3]%Forall_cons]. constructor; [done|]. apply Forall_app. split; [|done].
      eapply Forall_impl; [exact R1|]. cbn in *. intros c (-> & _). done.
  - rewrite Hbrk. apply Forall_app. split; [done|]. constructor; [done|]. apply Forall_app. split; [|done].
    eapply Forall_impl; [exact R1|]. cbn. intros b (B1 & B2 & B3). right. rewrite B1, B3. lia.
  - apply (held_cons A new n h h'); try done; [apply (ho_held _ _ _ Ok)|lia|lia].
  - apply Forall_app. split; [|constructor; [|apply Forall_app; split]].
    + apply Forall_forall. intros b Hb'. rewrite Forall_forall in A1, H1. destruct (H1 b Hb') as [Hb1 _]. constructor; [left; cbn; lia|auto].
    + constructor; [left; unfold bend; cbn; lia|done].
    + apply Forall_forall. intros b Hb'. destruct (Hsub b Hb'). by constructor.
    + apply Forall_forall. intros b Hb'. rewrite Forall_forall in A2, H2. specialize (H2 b Hb'). constructor; [right; unfold bend; cbn; lia|auto].
  - apply distinct_cons; [apply (ho_distinct _ _ _ Ok)|]. eapply Forall_impl; [exact HAp|]. unfold apart, bend. cbn. intros; lia.
  - rewrite Hfp. exists (length l1), ps. by apply list_lookup_middle.
  - pose proof (ho_limit _ _ _ Ok). rewrite Hbrk. lia.
Qed.

(** Addresses outside the held blocks. *)
Lemma pv_outside b x : b ∈ A -> fst b + 4 <= x < bend b -> x <> pv /\ ~ p <= x < p + 8 * s.
Proof.
  intros Hb' Hx. destruct take_facts as (Hp & Hpb & Hpv & Hps & Hpvp & HAp & H1 & H2 & HApv & Hb & Hlim).
  rewrite Forall_forall in HApv, HAp. pose proof (HApv b Hb') as Hab. pose proof (HAp b Hb') as Hap.
  pose proof (proj1 (Forall_forall _ _) (ho_held _ _ _ Ok) b Hb') as Hbk.
  pose proof (ho_free _ _ _ Ok) as HF. rewrite EL in HF. apply Forall_app in HF as [_ [HFpv _]%Forall_cons].
  unfold apart, bend in *. cbn in *. split; [|lia]. destruct HFpv as [[= -> ->]|]; lia.
Qed.

Lemma malloc_take_run : exists r h', malloc_take n pv p s h = Ret r h' /\ taken L A h n r h'.
Proof.
  destruct take_facts as (Hp & Hpb & Hpv & Hps & Hpvp & HAp & H1 & H2 & HApv & Hb & Hlim).
  pose proof (ho_chain _ _ _ Ok) as Hc. rewrite EL in Hc. apply chain_app in Hc as [Hc1 (Hm1 & Hm2 & Hm3 & Hm4 & Hc2)].
  unfold malloc_take, ptr, set_ptr, set_size, set_freep, rdw, wrw. munfold. pose proof taken_ok as Hok. unfold rest, new in Hok.
  destruct (Z.eqb_spec s n) as [Es|Es].
  - replace (p + 8 * (s - n)) with p in Hok by lia. eexists _, _. split; [reflexivity|]. apply Hok; try done; cbn [h_mem].
    + apply chain_app. split.
      * eapply chain_frame; [exact Hc1|]. eapply Forall_impl; [exact H1|]. cbn. intros b Hb'. addr_simpl. done.
      * cbn [chain app]. split; [addr_simpl; done|]. split; [by rewrite Z.eqb_refl|].
        eapply chain_frame; [exact Hc2|]. eapply Forall_impl; [exact H2|]. cbn. intros b Hb'. addr_simpl. done.
    + addr_simpl. lia.
    + intros b x Hb' Hx. destruct (pv_outside b x Hb' Hx). cbn. by addr_simpl.
  - eexists _, _. split; [reflexivity|]. apply Hok; try done; cbn [h_mem].
    + apply chain_app. split.
      * eapply chain_frame; [exact Hc1|]. eapply Forall_impl; [exact H1|]. cbn. intros b Hb'. addr_simpl. done.
      * cbn [chain app]. split; [addr_simpl; done|]. split; [addr_simpl; done|]. split; [addr_simpl; done|]. split; [addr_simpl; done|].
        eapply chain_frame; [exact Hc2|]. eapply Forall_impl; [exact H2|]. cbn. intros b Hb'. addr_simpl. done.
    + addr_simpl. done.
    + intros b x Hb' Hx. destruct (pv_outside b x Hb' Hx). cbn. by addr_simpl.
Qed.
End Take.

(** *** The search of [malloc] *)

Lemma lookup_base L A h : heap_ok L A h -> L !! 0%nat = Some (base, 0).
Proof. intros Ok. pose proof (ho_base _ _ _ Ok). by destruct L. Qed.
Lemma addr_inj L A h i j a s t : heap_ok L A h -> L !! i = Some (a, s) -> L !! j = Some (a, t) -> i = j.
Proof.
  intros Ok Hi Hj. pose proof (sizes_nonneg _ _ _ Ok) as Hsz. rewrite Forall_lookup in Hsz.
  pose proof (Hsz _ _ Hi). pose proof (Hsz _ _ Hj). destruct (lt_eq_lt_dec i j) as [[Hlt|]|Hlt]; [|done|].
  - pose proof (sorted_lookup L i j _ _ (ho_sorted _ _ _ Ok) Hlt Hi Hj). unfold bend in *. cbn in *. lia.
  - pose proof (sorted_lookup L j i _ _ (ho_sorted _ _ _ Ok) Hlt Hj Hi). unfold bend in *. cbn in *. lia.
Qed.

(** From index [i], either a block that fits is met no later than [freep], or the loop
    comes to [morecore]. *)
Lemma malloc_walk fuel g L A h f sf n : heap_ok L A h -> L !! f = Some (h_freep h, sf) -> 0 < n ->
  forall d i p s k pv ps, L !! i = Some (p, s) -> L !! k = Some (pv, ps) -> next_ix (length L) k = i -> dist (length L) i f = d ->
  (exists r h', malloc_loop limit fuel (S d + g) n pv p h = Ret r h' /\ taken L A h n r h') \/
  ((forall j b, L !! j = Some b -> (dist (length L) i j <= d)%nat -> snd b < n) /\
   malloc_loop limit fuel (S d + g) n pv p h =
     (q ← morecore limit fuel n; if q =? 0 then mret 0 else q' ← ptr q; malloc_loop limit fuel g n q q') h).
Proof.
  intros Ok Hf Hn d. induction d as [|d IH]; intros i p s k pv ps Hi Hk Hki Hd; cbn [malloc_loop Nat.add];
    pose proof (lookup_lt_Some _ _ _ Hi) as Hil; pose proof (lookup_lt_Some _ _ _ Hf) as Hfl; pose proof (lookup_lt_Some _ _ _ Hk) as Hkl;
    destruct (ring_next L A h i p s Ok Hi) as [Hms [t Hnx]]; rewrite (bind_eq (size p) _ h s h) by (unfold size, rdw; munfold; by rewrite Hms);
    (destruct (Z.geb_spec s n) as [Hfit|Hfit];
     [left; assert (i <> 0%nat) by (intros ->; rewrite (lookup_base _ _ _ Ok) in Hi; injection Hi; lia);
      unfold next_ix in Hki; case_bool_decide; [subst i|done];
      apply (malloc_take_run L A h (take k L) pv ps p s (drop (S (S k)) L) n Ok); [|done|done];
      rewrite <- (take_drop_middle L k _ Hk) at 1; by rewrite (drop_S _ _ _ Hi)|]).
  - right. apply dist_zero in Hd as ->; [|done|done]. assert (p = h_freep h) as -> by congruence. split.
    + intros j b Hj Hjd. assert (j = f) as -> by (symmetry; apply (dist_zero (length L)); [done|by eapply lookup_lt_Some|lia]).
      rewrite Hi in Hj. injection Hj as <-. done.
    + munfold. by rewrite Z.eqb_refl.
  - assert (Hif : i <> f) by (intros ->; rewrite (proj2 (dist_zero _ _ _ Hil Hil) eq_refl) in Hd; done).
    rewrite dist_next in Hd by done. injection Hd as Hd.
    assert (Hne : p <> h_freep h) by (intros ->; by apply Hif, (addr_inj _ _ _ _ _ _ _ _ Ok Hi Hf)).
    assert (Estep : forall m : M heap Z, (get ≫= (fun h0 => if p =? h_freep h0 then m else q ← ptr p; malloc_loop limit fuel (S d + g) n p q)) h =
      malloc_loop limit fuel (S d + g) n p (h_mem h p) h).
    { intros m. unfold ptr, rdw. munfold. by rewrite (proj2 (Z.eqb_neq _ _) Hne). }
    change (S d + g)%nat with (S (d + g)) in Estep. rewrite Estep.
    destruct (IH (next_ix (length L) i) _ _ i p s Hnx Hi eq_refl Hd) as [Hl|[Hno Hr]]; [by left|right]. split; [|exact Hr].
    intros j b Hj Hjd. destruct (decide (j = i)) as [->|Hji]; [rewrite Hi in Hj; injection Hj as <-; done|].
    apply (Hno j b Hj). rewrite dist_next in Hjd by (done || by eapply lookup_lt_Some). lia.
Qed.

(** [sbrk] gives the bytes above the old end, which are not part of any block. *)
Definition grown (h : heap) (k : Z) : heap :=
  mk_heap (fun x => if x =? h_brk h + 4 then k else h_mem h x) (h_freep h) (h_brk h + 8 * k).
Lemma grown_ok L A h k : heap_ok L A h -> 0 < k -> h_brk h + 8 * k <= limit ->
  heap_ok L A (grown h k) /\ loose L A (h_brk h) k (grown h k) /\ frame A h (grown h k).
Proof.
  intros Ok Hk Hlim. pose proof (ho_limit _ _ _ Ok) as (Hb0 & Hbrk & Hl).
  assert (HL : Forall (fun b => bend b <= h_brk h /\ fst b + 8 <= h_brk h) L).
  { eapply Forall_impl; [exact (ho_free _ _ _ Ok)|]. cbn. unfold bend. intros b [->|]; cbn; lia. }
  assert (Hfr : frame A h (grown h k)).
  { intros b x Hb Hx. destruct (proj1 (Forall_forall _ _) (ho_held _ _ _ Ok) b Hb) as (_ & _ & B3 & _). cbn. by rewrite (proj2 (Z.eqb_neq _ _)) by lia. }
  split_and!; [constructor; try apply Ok|constructor; cbn|done]; try lia.
  - eapply chain_frame; [apply Ok|]. eapply Forall_impl; [exact HL|]. cbn. intros b Hb. rewrite !(proj2 (Z.eqb_neq _ _)) by lia. done.
  - eapply Forall_impl; [exact (ho_free _ _ _ Ok)|]. cbn. intros b [->|]; [by left|right; lia].
  - apply Forall_forall. intros b Hb. pose proof (proj1 (Forall_forall _ _) (ho_held _ _ _ Ok) b Hb) as (B1 & B2 & B3 & B4).
    rewrite (Hfr b) by (done || unfold bend; lia). cbn. lia.
  - cbn. lia.
  - by rewrite Z.eqb_refl.
  - eapply Forall_impl; [exact HL|]. unfold apart. cbn. intros; lia.
  - eapply Forall_impl; [exact (ho_held _ _ _ Ok)|]. unfold apart. cbn. intros; lia.
Qed.

Definition quantum (n : Z) : Z := if n <? 4096 then 4096 else n.
Lemma morecore_run fuel L A h n : heap_ok L A h -> 0 < n -> n * 8 < 2 ^ 31 -> (length L <= fuel)%nat ->
  (limit < h_brk h + 8 * quantum n /\ morecore limit fuel n h = Ret 0 h) \/
  exists L' h', morecore limit fuel n h = Ret (h_freep h') h' /\ heap_ok L' A h' /\ frame A h h' /\ h_brk h' = h_brk h + 8 * quantum n /\
    total L' = total L + quantum n /\ (length L' <= S (length L))%nat /\ Exists (fun b => n <= snd b) L'.
Proof.
  intros Ok Hn Hn8 Hfuel. pose proof (ho_limit _ _ _ Ok) as (Hb0 & Hbrk & Hl). unfold morecore. fold (quantum n).
  assert (Hq : 0 < quantum n /\ n <= quantum n /\ 0 <= quantum n * 8 < 2 ^ 31) by (unfold quantum; destruct (Z.ltb_spec n 4096); lia).
  rewrite u32_small by lia. rewrite i32_small by (unfold_int; lia). unfold sbrk. munfold. destruct (Z.gtb_spec (h_brk h + quantum n * 8) limit) as [Hgt|Hle].
  { left. split; [lia|done]. }
  right. destruct (grown_ok L A h (quantum n) Ok ltac:(lia) ltac:(lia)) as (Ok1 & Lo & Hf1).
  destruct (free_loose fuel L A _ _ _ Ok1 Lo Hfuel) as (L' & h' & Er & Ok' & Hf' & Eb & Et & El & Ex).
  exists L', h'. rewrite (proj2 (Z.eqb_neq _ _)) by lia. unfold grown in Er. rewrite <- (Z.mul_comm (quantum n) 8) in Er. unfold set_size, wrw. munfold. cbn.
  rewrite Er. split_and!; try done.
  - intros b x Hb Hx. by rewrite (Hf' b x Hb Hx), (Hf1 b x Hb Hx).
  - eapply Exists_impl; [exact Ex|]. cbn. intros; lia.
Qed.

(** What an allocation leaves: the block is out of the ring, and what the ring has more
    came from the system. *)
Definition got (L A : list blk) (h : heap) (n : Z) (r : Z) (h' : heap) : Prop :=
  exists L' a, r = a + 8 /\ 0 < a /\ heap_ok L' ((a, n) :: A) h' /\ frame A h h' /\
    8 * (total L' + n) - h_brk h' = 8 * total L - h_brk h /\ (length L' <= S (length L))%nat.
Definition refused (h : heap) (n : Z) (r : Z) (h' : heap) : Prop := r = 0 /\ h' = h /\ limit < h_brk h + 8 * quantum n.

(** A second turn round the ring finds what [morecore] put there. *)
Lemma malloc_second fuel g L A h n : heap_ok L A h -> 0 < n -> (length L <= g)%nat -> Exists (fun b => n <= snd b) L ->
  exists r h', malloc_loop limit fuel g n (h_freep h) (h_mem h (h_freep h)) h = Ret r h' /\ taken L A h n r h'.
Proof.
  intros Ok Hn Hg Hex. destruct (ho_freep _ _ _ Ok) as (f & sf & Hf). pose proof (lookup_lt_Some _ _ _ Hf) as Hfl.
  destruct (ring_next L A h f _ _ Ok Hf) as [_ [t Ht]]. pose proof (dist_lt _ _ f (next_ix_lt _ _ Hfl) Hfl) as Hd.
  set (d := dist (length L) (next_ix (length L) f) f) in *. replace g with (S d + (g - S d))%nat by lia.
  destruct (malloc_walk fuel (g - S d) L A h f sf n Ok Hf Hn d _ _ _ f _ _ Ht Hf eq_refl eq_refl) as [|[Hno _]]; [done|exfalso].
  apply Exists_exists in Hex as (b & [j Hj]%list_elem_of_lookup & Hb). specialize (Hno j b Hj (dist_all _ _ _ Hfl (lookup_lt_Some _ _ _ Hj))). lia.
Qed.
Lemma malloc_search fuel g L A h n : heap_ok L A h -> 0 < n -> n * 8 < 2 ^ 31 -> (length L <= fuel)%nat -> (2 * length L + 2 <= g)%nat ->
  exists r h', malloc_loop limit fuel g n (h_freep h) (h_mem h (h_freep h)) h = Ret r h' /\ (refused h n r h' \/ got L A h n r h').
Proof.
  intros Ok Hn Hn8 Hfuel Hg. destruct (ho_freep _ _ _ Ok) as (f & sf & Hf). pose proof (lookup_lt_Some _ _ _ Hf) as Hfl.
  destruct (ring_next L A h f _ _ Ok Hf) as [_ [t Ht]]. pose proof (dist_lt _ _ f (next_ix_lt _ _ Hfl) Hfl) as Hd.
  set (d := dist (length L) (next_ix (length L) f) f) in *. replace g with (S d + (g - S d))%nat by lia.
  destruct (malloc_walk fuel (g - S d) L A h f sf n Ok Hf Hn d _ _ _ f _ _ Ht Hf eq_refl eq_refl) as [(r & h' & Er & L' & a & ? & ? & ? & ? & Hb & ? & ?)|[_ ->]].
  { exists r, h'. split; [done|right]. exists L', a. rewrite Hb. split_and!; try done; lia. }
  destruct (morecore_run fuel L A h n Ok Hn Hn8 Hfuel) as [[Hlim Em]|(L1 & h1 & Em & Ok1 & Hf1 & Eb1 & Et1 & El1 & Hex)]; rewrite (bind_eq _ _ _ _ _ Em).
  { exists 0, h. split; [done|left; done]. }
  destruct (malloc_second fuel (g - S d) L1 A h1 n Ok1 Hn ltac:(lia) Hex) as (r & h' & Er & L' & a & ? & ? & Ok' & Hf' & Hb & ? & ?).
  exists r, h'. split.
  - pose proof (ho_limit _ _ _ Ok1). pose proof (ho_freep _ _ _ Ok1) as (i & si & Hi).
    assert (base <= h_freep h1) by (pose proof (proj1 (Forall_lookup _ _) (ho_free _ _ _ Ok1) _ _ Hi) as [[= -> _]|]; cbn in *; lia).
    rewrite (proj2 (Z.eqb_neq _ _)) by lia. exact Er.
  - right. exists L', a. split_and!; try done; [|lia|lia]. intros b x Hb' Hx. by rewrite (Hf' b x Hb' Hx), (Hf1 b x Hb' Hx).
Qed.

(** *** The calls of a program *)

(** Before the first call. *)
Definition fresh (h : heap) : Prop := h_freep h = 0 /\ 0 < base /\ base + 8 <= h_brk h <= limit /\ limit < 2 ^ 31.
Definition ready (L A : list blk) (h : heap) : Prop := heap_ok L A h \/ (L = [(base, 0)] /\ A = [] /\ fresh h).

Lemma malloc_first fuel h n : fresh h -> exists h1,
  malloc base limit fuel n h = malloc base limit fuel n h1 /\ heap_ok [(base, 0)] [] h1 /\ h_brk h1 = h_brk h.
Proof.
  intros (E & Hb & Hk & Hl). exists (mk_heap (fun x => if x =? base + 4 then 0 else if x =? base then base else h_mem h x) base (h_brk h)).
  split_and!; [|constructor; cbn|done].
  - unfold malloc, set_ptr, set_size, wrw, set_freep, ptr, rdw, when. munfold. rewrite E. cbn. by rewrite (proj2 (Z.eqb_neq base 0)) by lia.
  - done.
  - rewrite !Z.eqb_refl, (proj2 (Z.eqb_neq base (base + 4))) by lia. done.
  - done.
  - by repeat constructor.
  - done.
  - by repeat constructor.
  - done.
  - by exists 0%nat, 0.
  - lia.
Qed.

Definition units (nbytes : Z) : Z := u32 (nbytes + 8 - 1) / 8 + 1.
Lemma units_spec nbytes : 0 <= nbytes < 2 ^ 31 - 16 -> 0 < units nbytes /\ nbytes + 8 <= 8 * units nbytes /\ units nbytes * 8 < 2 ^ 31.
Proof. intros H. unfold units. rewrite u32_small by lia. pose proof (Z.div_mod (nbytes + 8 - 1) 8 ltac:(lia)). pose proof (Z.mod_pos_bound (nbytes + 8 - 1) 8 ltac:(lia)). lia. Qed.

Lemma malloc_run fuel L A h nbytes : ready L A h -> 0 <= nbytes < 2 ^ 31 - 16 -> (2 * length L + 2 <= fuel)%nat ->
  exists r h', malloc base limit fuel nbytes h = Ret r h' /\
    ((r = 0 /\ limit < h_brk h + 8 * quantum (units nbytes) /\ heap_ok L A h' /\ frame A h h' /\ h_brk h' = h_brk h) \/ got L A h (units nbytes) r h').
Proof.
  intros Hr Hn Hfuel. destruct (units_spec nbytes Hn) as (U1 & U2 & U3).
  assert (Hok : forall h1, heap_ok L A h1 -> h_brk h1 = h_brk h -> frame A h h1 -> exists r h', malloc base limit fuel nbytes h1 = Ret r h' /\
    ((r = 0 /\ limit < h_brk h + 8 * quantum (units nbytes) /\ heap_ok L A h' /\ frame A h h' /\ h_brk h' = h_brk h) \/ got L A h (units nbytes) r h')).
  { intros h1 Ok Eb Hf. destruct (malloc_search fuel fuel L A h1 (units nbytes) Ok U1 U3 ltac:(lia) Hfuel) as (r & h' & Er & Hr').
    exists r, h'. split.
    - pose proof (ho_limit _ _ _ Ok). pose proof (ho_freep _ _ _ Ok) as (i & si & Hi).
      assert (base <= h_freep h1) by (pose proof (proj1 (Forall_lookup _ _) (ho_free _ _ _ Ok) _ _ Hi) as [[= -> _]|]; cbn in *; lia).
      unfold malloc, ptr, rdw, when. munfold. rewrite (proj2 (Z.eqb_neq _ _)) by lia. exact Er.
    - destruct Hr' as [(-> & -> & Hl)|(L' & a & ? & ? & ? & Hf' & ? & ?)]; [left; by rewrite Eb in Hl|right].
      exists L', a. rewrite Eb in *. split_and!; try done. intros b x Hb Hx. by rewrite (Hf' b x Hb Hx), (Hf b x Hb Hx). }
  destruct Hr as [Ok|(-> & -> & Hfr)]; [by apply Hok|].
  destruct (malloc_first fuel h nbytes Hfr) as (h1 & -> & Ok1 & Eb). apply Hok; try done. by intros b x ?%elem_of_nil.
Qed.

Lemma free_held L A h i a s : heap_ok L A h -> A !! i = Some (a, s) ->
  heap_ok L (delete i A) h /\ loose L (delete i A) a s h /\ total A = s + total (delete i A).
Proof.
  intros Ok Hi. destruct (proj1 (Forall_lookup _ _) (ho_held _ _ _ Ok) _ _ Hi) as (B1 & B2 & B3 & B4). cbn in *.
  assert (Hdel : forall P : blk -> Prop, Forall P A -> Forall P (delete i A)) by (intros; by apply Forall_delete).
  assert (Hix : forall j x, delete i A !! j = Some x -> exists k, k <> i /\ A !! k = Some x /\ k = (if bool_decide (j < i)%nat then j else S j)).
  { intros j x Hx. case_bool_decide; [rewrite list_lookup_delete_lt in Hx by done|rewrite list_lookup_delete_ge in Hx by lia];
      eexists; (split; [|split; [exact Hx|done]]); lia. }
  split_and!.
  - constructor; try apply Ok.
    + apply Hdel, Ok.
    + eapply Forall_impl; [exact (ho_apart _ _ _ Ok)|]. intros x. apply Hdel.
    + intros j k x y Hjk (j' & _ & Hx & Ej)%Hix (k' & _ & Hy & Ek)%Hix. eapply (ho_distinct _ _ _ Ok j' k'); [|done|done].
      subst. repeat case_bool_decide; lia.
  - constructor; try done.
    + apply Forall_forall. intros x Hx. pose proof (proj1 (Forall_forall _ _) (ho_apart _ _ _ Ok) x Hx) as Hax.
      rewrite Forall_lookup in Hax. specialize (Hax _ _ Hi). unfold apart in *. tauto.
    + apply Forall_lookup. intros j x (k & Hk & Hx & _)%Hix. eapply (ho_distinct _ _ _ Ok i k); [done|done|done].
  - rewrite <- (take_drop_middle A i _ Hi) at 1. rewrite delete_take_drop, !total_app, total_cons. cbn. lia.
Qed.

(** A program may write what it likes into a block it holds. *)
Lemma poke_ok L A h b x v : heap_ok L A h -> b ∈ A -> fst b + 8 <= x < bend b ->
  heap_ok L A (mk_heap (fun y => if y =? x then v else h_mem h y) (h_freep h) (h_brk h)).
Proof.
  intros Ok Hb Hx. pose proof (ho_limit _ _ _ Ok).
  assert (Hout : forall c, (c ∈ L \/ c ∈ A) -> fst c <> x /\ fst c + 4 <> x).
  { intros c [Hc|Hc].
    - pose proof (proj1 (Forall_forall _ _) (proj1 (Forall_forall _ _) (ho_apart _ _ _ Ok) c Hc) b Hb) as Hap.
      pose proof (proj1 (Forall_forall _ _) (ho_free _ _ _ Ok) c Hc) as Hcf. pose proof (proj1 (Forall_forall _ _) (ho_held _ _ _ Ok) b Hb) as (? & ? & _).
      unfold apart, bend in *. destruct Hcf as [->|Hcf]; cbn in *; lia.
    - apply list_elem_of_lookup in Hb as [i Hi], Hc as [j Hj]. destruct (decide (i = j)) as [->|Hij]; [replace c with b by congruence; lia|].
      pose proof (ho_distinct _ _ _ Ok i j _ _ Hij Hi Hj). pose proof (proj1 (Forall_lookup _ _) (ho_held _ _ _ Ok) _ _ Hj) as (? & _).
      unfold apart, bend in *. lia. }
  constructor; try apply Ok; cbn.
  - eapply chain_frame; [apply Ok|]. apply Forall_forall. intros c Hc. destruct (Hout c (or_introl Hc)). cbn.
    by rewrite !(proj2 (Z.eqb_neq _ _)) by lia.
  - apply Forall_forall. intros c Hc. destruct (proj1 (Forall_forall _ _) (ho_held _ _ _ Ok) c Hc) as (? & ? & ? & ?).
    destruct (Hout c (or_intror Hc)). by rewrite (proj2 (Z.eqb_neq (fst c + 4) x)) by lia.
Qed.

(** The program's view of its blocks is what the heap has. *)
Definition holds (h : heap) (a : blk) (b : block) : Prop :=
  b_addr b = fst a + 8 /\ 0 <= b_len b /\ b_len b + 8 <= 8 * snd a /\
  forall off, 0 <= off < b_len b -> h_mem h (b_addr b + off) = b_data b off.
Lemma holds_frame h h' A held : frame A h h' -> Forall2 (holds h) A held -> Forall2 (holds h') A held.
Proof.
  intros Hf H. induction H as [|a b A held (E & Hl & Hs & Hd) H IH]; [done|]. constructor.
  - split_and!; try done. intros off Ho. rewrite <- Hd by done. apply (Hf a); [by left|unfold bend; lia].
  - apply IH. intros c x Hc. apply Hf. by right.
Qed.

Definition op_ok (o : op) : Prop := match o with Malloc n => 0 <= n < 2 ^ 31 - 16 | _ => True end.
(** The ring, the blocks held and the program's view of them; [e] is what the system gave
    beyond the blocks. *)
Definition consistent (k : nat) (e : Z) (held : list block) (h : heap) : Prop :=
  exists L A, ready L A h /\ Forall2 (holds h) A held /\ (length L <= k)%nat /\ h_brk h - 8 * (total L + total A) = e.

Section Ops.
Context (fuel k : nat) (e : Z) (held : list block) (h : heap) (Hc : consistent k e held h) (Hfuel : (2 * k + 2 <= fuel)%nat).
Let steps (o : op) : Prop := exists held' h', do_op base limit fuel o held h = Ret held' h' /\ consistent (S k) e held' h'.

Lemma idle o : do_op base limit fuel o held h = Ret held h -> steps o.
Proof. intros E. exists held, h. split; [done|]. destruct Hc as (L & A & ? & ? & ? & ?). exists L, A. split_and!; try done. lia. Qed.
Lemma op_malloc n : op_ok (Malloc n) -> steps (Malloc n).
Proof.
  destruct Hc as (L & A & Hr & Hh & Hk & He). intros Hn. destruct (units_spec n Hn) as (U1 & U2 & U3).
  destruct (malloc_run fuel L A h n Hr Hn ltac:(lia)) as (r & h' & Er & Hor). unfold steps. cbn [do_op]. rewrite (bind_eq _ _ _ _ _ Er). munfold.
  eexists _, h'. split; [done|]. destruct Hor as [(-> & Hl & Ok & Hf & Eb)|(L' & a & -> & Ha & Ok & Hf & Et & El)].
  - exists L, A. rewrite Eb. split_and!; [by left|by eapply holds_frame|lia|done].
  - rewrite (proj2 (Z.eqb_neq _ _)) by lia. exists L', ((a, units n) :: A). rewrite total_cons. cbn [snd].
    split_and!; [by left| |lia|lia]. constructor; [|by eapply holds_frame].
    cbn in Hn. split_and!; cbn; try done; lia.
Qed.
Lemma op_write i off v : steps (Write i off v).
Proof.
  destruct (held !! i) as [b|] eqn:Eb; [|apply idle; cbn; by rewrite Eb].
  destruct ((0 <=? off) && (off <? b_len b)) eqn:Eo; [|apply idle; cbn; by rewrite Eb, Eo].
  destruct Hc as (L & A & Hr & Hh & Hk & He). unfold steps. cbn [do_op]. rewrite Eb, Eo. unfold wrw. munfold.
  eexists _, _. split; [done|]. destruct (Forall2_lookup_r _ _ _ _ _ Hh Eb) as (a & Ea & E1 & E2 & E3 & E4).
  destruct Hr as [Ok|(_ & -> & _)]; [|done]. set (h' := mk_heap _ _ _). exists L, A. split_and!; [left| |lia|done].
  - apply (poke_ok L A h a (b_addr b + off) v Ok); [by eapply list_elem_of_lookup_2|unfold bend; lia].
  - apply Forall2_lookup. intros j. destruct (decide (i = j)) as [<-|Hij].
    + rewrite Ea, list_lookup_insert_eq by (by eapply lookup_lt_Some). constructor. split_and!; cbn; try done.
      intros x Hx. destruct (Z.eqb_spec x off) as [->|]; [by rewrite Z.eqb_refl|]. rewrite (proj2 (Z.eqb_neq _ _)) by lia. auto.
    + rewrite list_lookup_insert_ne by done. pose proof (proj1 (Forall2_lookup _ _ _) Hh j) as Hj.
      destruct (A !! j) as [c|] eqn:Ec, (held !! j) as [d|]; inversion Hj as [? ? (D1 & D2 & D3 & D4)|]; subst; constructor.
      split_and!; try done. intros x Hx. cbn. rewrite <- D4 by done. pose proof (ho_distinct _ _ _ Ok i j _ _ Hij Ea Ec).
      unfold apart, bend in *. by rewrite (proj2 (Z.eqb_neq _ _)) by lia.
Qed.
Lemma op_free i : steps (Free i).
Proof.
  destruct (held !! i) as [b|] eqn:Eb; [|apply idle; cbn; by rewrite Eb].
  destruct Hc as (L & A & Hr & Hh & Hk & He). destruct (Forall2_lookup_r _ _ _ _ _ Hh Eb) as ([a s] & Ea & E1 & _).
  destruct Hr as [Ok|(_ & -> & _)]; [|done]. destruct (free_held L A h i a s Ok Ea) as (Ok1 & Lo & Et).
  destruct (free_loose fuel L _ h a s Ok1 Lo ltac:(lia)) as (L' & h' & Er & Ok' & Hf & Ebrk & Et' & El & _).
  unfold steps. cbn [do_op]. rewrite Eb, E1. cbn [fst]. rewrite (bind_eq _ _ _ _ _ Er). munfold. eexists _, _. split; [done|].
  exists L', (delete i A). split_and!; [by left| |lia|lia]. eapply holds_frame; [done|].
  by apply Forall2_delete.
Qed.
Lemma op_run o : op_ok o -> steps o.
Proof. destruct o; intros; [by apply op_malloc|apply op_write|apply op_free]. Qed.
End Ops.

Lemma ops_run fuel os : forall k e held h, consistent k e held h -> Forall op_ok os -> (2 * (k + length os) + 2 <= fuel)%nat ->
  exists held' h', run_ops base limit fuel os held h = Ret held' h' /\ consistent (k + length os) e held' h'.
Proof.
  induction os as [|o os IH]; intros k e held h Hc Hok Hf; cbn [run_ops length] in *.
  - exists held, h. split; [done|]. by rewrite Nat.add_0_r.
  - apply Forall_cons in Hok as [Ho Hok]. destruct (op_run fuel k e held h Hc ltac:(lia) o Ho) as (held1 & h1 & E & Hc1).
    rewrite (bind_eq _ _ _ _ _ E). rewrite <- Nat.add_succ_comm. apply IH; [done|done|lia].
Qed.
End Ring.

(** ** What the allocator promises *)

Definition fits (base : Z) (h : heap) (b : block) : Prop :=
  base < b_addr b /\ b_addr b + b_len b <= h_brk h /\ forall off, 0 <= off < b_len b -> h_mem h (b_addr b + off) = b_data b off.
Definition disjoint (b c : block) : Prop := b_addr b + b_len b <= b_addr c \/ b_addr c + b_len c <= b_addr b.

Lemma consistent_blocks base limit k e held h : consistent base limit k e held h ->
  Forall (fits base h) held /\ forall i j b c, i <> j -> held !! i = Some b -> held !! j = Some c -> disjoint b c.
Proof.
  intros (L & A & [Ok|(_ & -> & _)] & Hh & _ & _).
  2: { apply Forall2_nil_inv_l in Hh as ->. split; [done|]. intros ? ? ? ? _. by rewrite lookup_nil. }
  split.
  - apply Forall_lookup. intros i b Hb. destruct (Forall2_lookup_r _ _ _ _ _ Hh Hb) as (a & Ha & E1 & E2 & E3 & E4).
    destruct (proj1 (Forall_lookup _ _) (ho_held _ _ _ _ _ Ok) _ _ Ha) as (? & ? & ? & _). unfold bend in *. split_and!; try done; lia.
  - intros i j b c Hij Hb Hc. destruct (Forall2_lookup_r _ _ _ _ _ Hh Hb) as (a & Ha & E1 & E2 & E3 & _).
    destruct (Forall2_lookup_r _ _ _ _ _ Hh Hc) as (a' & Ha' & F1 & F2 & F3 & _).
    pose proof (ho_distinct _ _ _ _ _ Ok i j _ _ Hij Ha Ha'). unfold apart, bend, disjoint in *. lia.
Qed.
Lemma fresh_consistent base limit h : fresh base limit h -> consistent base limit 1 (h_brk h) [] h.
Proof. intros H. exists [(base, 0)], []. split_and!; [by right|constructor|cbn; lia|cbn; lia]. Qed.

(** C15: Whatever a program does with the allocator, as long as it asks for less than
    2^31 - 16 bytes at a time, every call returns; the blocks it holds
    are inside its memory, no two of them overlap, and each still has in every byte what the
    program last wrote there. *)
Theorem malloc_keeps_blocks base limit fuel os h :
  fresh base limit h -> Forall op_ok os -> (2 * length os + 4 <= fuel)%nat ->
  exists held h', run_ops base limit fuel os [] h = Ret held h' /\ Forall (fits base h') held /\
    forall i j b c, i <> j -> held !! i = Some b -> held !! j = Some c -> disjoint b c.
Proof.
  intros Hf Hok Hl. destruct (ops_run base limit fuel os 1 _ [] h (fresh_consistent base limit h Hf) Hok ltac:(lia)) as (held & h' & E & Hc).
  exists held, h'. split; [done|]. by eapply consistent_blocks.
Qed.
(** A program that has given back all its blocks has lost no memory: all that the
    system gave is in the ring of free blocks, where no two blocks are adjacent. *)
Theorem malloc_leaks_nothing base limit fuel os h h' :
  fresh base limit h -> Forall op_ok os -> (2 * length os + 4 <= fuel)%nat -> run_ops base limit fuel os [] h = Ret [] h' ->
  exists L, ready base limit L [] h' /\ 8 * total L = h_brk h' - h_brk h /\ sorted L.
Proof.
  intros Hf Hok Hl E. destruct (ops_run base limit fuel os 1 _ [] h (fresh_consistent base limit h Hf) Hok ltac:(lia)) as (held & h1 & E1 & Hc).
  rewrite E1 in E. injection E as -> ->. destruct Hc as (L & A & Hr & ->%Forall2_nil_inv_r & _ & He). cbn in He.
  exists L. split_and!; [done|lia|]. destruct Hr as [Ok|(-> & _)]; [apply Ok|by repeat constructor].
Qed.

(** A request that [nunits] cannot hold: the sum wraps, and the block has no room. *)
Theorem malloc_wraps : match malloc 1000 (2 ^ 20) 8 (2 ^ 32 - 1) (mk_heap (fun _ => 0) 0 4096) with
  | Ret r h => r <> 0 /\ h_mem h (r - 4) = 1
  | _ => False
  end.
Proof. vm_compute. done. Qed.

(** ** Witnesses *)

Definition demo_heap : heap := mk_heap (fun _ => 7) 0 4096.
Definition demo_ops : list op :=
  [Malloc 100; Malloc 10; Write 1 99 5; Malloc 40000; Write 0 0 6; Free 1; Malloc 3; Write 0 2 9; Free 1].
Lemma malloc_keeps_blocks_witness : exists held h', run_ops 1000 (2 ^ 20) 22 demo_ops [] demo_heap = Ret held h' /\ Forall (fits 1000 h') held /\
    forall i j b c, i <> j -> held !! i = Some b -> held !! j = Some c -> disjoint b c.
Proof. apply malloc_keeps_blocks; [vm_compute; repeat split; congruence|by repeat constructor|cbn; lia]. Defined.
Lemma malloc_leaks_nothing_witness : exists h' L, ready 1000 (2 ^ 20) L [] h' /\ 8 * total L = h_brk h' - h_brk demo_heap /\ sorted L.
Proof.
  eexists. eapply (malloc_leaks_nothing 1000 (2 ^ 20) 14 [Malloc 100; Malloc 40000; Free 1; Free 0] demo_heap);
    [vm_compute; repeat split; congruence|by repeat constructor|cbn; lia|vm_compute; reflexivity].
Defined.
