(* ===== verification/Grep.v ===== *)
(** [grep.c]: the matcher ([match], [matchhere], [matchstar]) and the loop that feeds
    it lines ([grep]).

    Strings are the bytes before their NUL.  The buffer [buf] is the list of its [m]
    bytes in use (the byte after them is the NUL the loop puts there).  What [read]
    delivers is a list of chunks: a call returns the first bytes of the first chunk, at
    most as many as asked for, and 0 when there is none; a plain file is one chunk.

    The matcher is shown equivalent to the meaning of a pattern as a language, and [grep]
    to print exactly the lines that match. *)

From S2P Require Import Prelude CString.

(** ** The matcher *)

(** [matchstar(c, re, text)], [here] being [matchhere] of [re]. *)
Fixpoint matchstar (here : list Z -> bool) (c : Z) (text : list Z) : bool :=
  here text ||
  match text with
  | [] => false
  | t :: text' => ((t =? c) || (c =? 46)) && matchstar here c text'
  end.

Fixpoint matchhere (re text : list Z) : bool :=
  match re with
  | [] => true
  | r0 :: re1 =>
      let plain :=
        match text with
        | [] => false
        | t :: text' => ((r0 =? 46) || (r0 =? t)) && matchhere re1 text'
        end in
      match re1 with
      | [] => if r0 =? 36 then match text with [] => true | _ => false end else plain
      | r1 :: re2 => if r1 =? 42 then matchstar (matchhere re2) r0 text else plain
      end
  end.

(** The [do] loop of [match]. *)
Fixpoint match_loop (re text : list Z) : bool :=
  matchhere re text ||
  match text with
  | [] => false
  | _ :: text' => match_loop re text'
  end.

Definition match_ (re text : list Z) : bool :=
  match re with
  | c :: re' => if c =? 94 then matchhere re' text else match_loop re text
  | [] => match_loop re text
  end.

(** ** The loop over the input *)

(** [read(fd, dst, n)]: the bytes read and what is left of the input. *)
Definition read (n : nat) (input : list (list Z)) : list Z * list (list Z) :=
  match input with
  | [] => ([], [])
  | chunk :: rest => (take n chunk, match drop n chunk with [] => rest | l => l :: rest end)
  end.

(** [strchr(p, '\n')]: the bytes before the newline and those after it; the scan ends at
    a NUL. *)
Fixpoint strchr_nl (p : list Z) : option (list Z * list Z) :=
  match p with
  | [] => None
  | c :: p' =>
      if c =? 0 then None
      else if c =? 10 then Some ([], p')
      else match strchr_nl p' with Some (l, r) => Some (c :: l, r) | None => None end
  end.

(** The inner loop: what has been written, and the bytes from [p] on when no newline is
    left. *)
Fixpoint grep_lines (fuel : nat) (pattern p out : list Z) : list Z * list Z :=
  match fuel with
  | O => (out, p)
  | S f =>
      match strchr_nl p with
      | Some (line, rest) =>
          grep_lines f pattern rest (if match_ pattern line then out ++ line ++ [10] else out)
      | None => (out, p)
      end
  end.

Definition BUFSIZE : nat := 1024.

(** The outer loop; [buf] is what the buffer holds on entry to a turn. *)
Fixpoint grep_loop (fuel : nat) (pattern buf : list Z) (input : list (list Z)) (out : list Z) : option (list Z) :=
  match fuel with
  | O => None
  | S f =>
      let '(bytes, input) := read (BUFSIZE - length buf - 1) input in
      match bytes with
      | [] => Some out
      | _ =>
          let buf := buf ++ bytes in
          let '(out, p) := grep_lines (length buf) pattern buf out in
          let buf := if bool_decide (length p = length buf) then [] else p in
          grep_loop f pattern buf input out
      end
  end.
(** Each turn reads at least one byte. *)
Definition grep (pattern : list Z) (input : list (list Z)) : option (list Z) :=
  grep_loop (S (length (concat input))) pattern [] input [].

(** ** What a pattern means *)

Inductive item := One (c : Z) | Star (c : Z).

(** The items of a pattern and whether it ends in [$]. *)
Fixpoint items (re : list Z) : list item * bool :=
  match re with
  | [] => ([], false)
  | r0 :: re1 =>
      match re1 with
      | [] => if r0 =? 36 then ([], true) else ([One r0], false)
      | r1 :: re2 =>
          if r1 =? 42 then let '(l, e) := items re2 in (Star r0 :: l, e)
          else let '(l, e) := items re1 in (One r0 :: l, e)
      end
  end.

(** A byte of a pattern stands for itself, a dot for any. *)
Definition stands_for (c t : Z) : Prop := c = 46 \/ c = t.
Definition item_lang (i : item) (w : list Z) : Prop :=
  match i with
  | One c => exists t, w = [t] /\ stands_for c t
  | Star c => Forall (stands_for c) w
  end.
Fixpoint items_lang (l : list item) (w : list Z) : Prop :=
  match l with
  | [] => w = []
  | i :: l' => exists w1 w2, w = w1 ++ w2 /\ item_lang i w1 /\ items_lang l' w2
  end.
(** [re] matches at the start of [text]. *)
Definition prefix_lang (re text : list Z) : Prop :=
  exists w post, text = w ++ post /\ items_lang (fst (items re)) w /\ (snd (items re) = true -> post = []).
(** [re] matches somewhere in [text], or at its start if it begins with [^]. *)
Definition pattern_lang (re text : list Z) : Prop :=
  match re with
  | 94 :: re' => prefix_lang re' text
  | _ => exists pre suf, text = pre ++ suf /\ prefix_lang re suf
  end.

(** The lines of a text that end in a newline, without it. *)
Fixpoint lines_from (acc text : list Z) : list (list Z) :=
  match text with
  | [] => []
  | c :: text' => if c =? 10 then acc :: lines_from [] text' else lines_from (acc ++ [c]) text'
  end.
Definition lines (text : list Z) : list (list Z) := lines_from [] text.

(** ** The matcher decides the language of its pattern *)

Lemma matchstar_spec here c text :
  matchstar here c text = true <->
  exists w rest, text = w ++ rest /\ Forall (stands_for c) w /\ here rest = true.
Proof.
  induction text as [|t text IH]; cbn [matchstar]; rewrite orb_true_iff.
  - split.
    + intros [H|H]; [|done]. by exists [], [].
    + intros (w & rest & E & _ & H). symmetry in E. apply app_eq_nil in E as [-> ->]. by left.
  - rewrite andb_true_iff, IH. split.
    + intros [H|[Ht (w & rest & -> & Hw & H)]]; [by exists [], (t :: text)|].
      exists (t :: w), rest. split; [done|]. split; [|done]. constructor; [|done]. unfold stands_for. lia.
    + intros ([|x w] & rest & E & Hw & H); [left; by rewrite E|]. right. injection E as -> ->.
      apply Forall_cons in Hw as [Hx Hw]. unfold stands_for in Hx. split; [lia|]. by exists w, rest.
Qed.

Lemma prefix_lang_nil text : prefix_lang [] text.
Proof. exists [], text. done. Qed.

Lemma prefix_lang_star c re text :
  prefix_lang (c :: 42 :: re) text <-> exists w rest, text = w ++ rest /\ Forall (stands_for c) w /\ prefix_lang re rest.
Proof.
  unfold prefix_lang. cbn [items]. change (42 =? 42) with true. cbv iota. destruct (items re) as [l e] eqn:El. cbn [fst snd]. split.
  - intros (w & post & -> & (w1 & w2 & -> & H1 & H2) & He). exists w1, (w2 ++ post). rewrite <- (assoc (++)).
    split; [done|]. split; [done|]. by exists w2, post.
  - intros (w & rest & -> & Hw & (w2 & post & -> & H2 & He)). exists (w ++ w2), post. rewrite <- (assoc (++)).
    split; [done|]. split; [|done]. by exists w, w2.
Qed.

Lemma prefix_lang_end text : prefix_lang [36] text <-> text = [].
Proof.
  split; [intros (w & post & -> & H & He)|intros ->].
  - cbn in H, He. rewrite H, (He eq_refl). done.
  - by exists [], [].
Qed.

Lemma prefix_lang_one c re text :
  head re <> Some 42 -> (re = [] -> c <> 36) ->
  prefix_lang (c :: re) text <-> exists t text', text = t :: text' /\ stands_for c t /\ prefix_lang re text'.
Proof.
  intros Hs He.
  assert (Ei : items (c :: re) = (One c :: fst (items re), snd (items re))).
  { destruct re as [|r re]; cbn [items].
    - destruct (Z.eqb_spec c 36); [|done]. subst. by destruct (He eq_refl).
    - destruct (Z.eqb_spec r 42) as [->|]; [done|]. by destruct (match re with [] => _ | _ => _ end). }
  unfold prefix_lang. rewrite Ei. cbn [fst snd]. split.
  - intros (w & post & -> & (w1 & w2 & -> & (t & -> & Ht) & H2) & Hp). exists t, (w2 ++ post).
    split; [done|]. split; [done|]. by exists w2, post.
  - intros (t & text' & -> & Ht & (w2 & post & -> & H2 & Hp)). exists (t :: w2), post. split; [done|]. split; [|done].
    exists [t], w2. split; [done|]. split; [|done]. by exists t.
Qed.

Lemma matchhere_spec re text : matchhere re text = true <-> prefix_lang re text.
Proof.
  revert text. induction (Nat.lt_wf_0_projected (@length Z) re) as [re _ IH]. intros text.
  destruct re as [|c re]; [split; [intros _; apply prefix_lang_nil|done]|].
  assert (Hone : head re <> Some 42 -> (re = [] -> c <> 36) ->
    match text with [] => false | t :: text' => ((c =? 46) || (c =? t)) && matchhere re text' end = true <->
    prefix_lang (c :: re) text).
  { intros Hs He. rewrite (prefix_lang_one _ _ _ Hs He). destruct text as [|t text].
    - split; [done|]. by intros (? & ? & ? & _).
    - rewrite andb_true_iff, (IH re) by (cbn; lia). unfold stands_for. split.
      + intros [H1 H2]. exists t, text. split; [done|]. split; [lia|done].
      + intros (? & ? & [= <- <-] & H1 & H2). split; [lia|done]. }
  destruct re as [|r re].
  - cbn [matchhere]. destruct (Z.eqb_spec c 36) as [->|Hc]; [|by apply Hone].
    rewrite prefix_lang_end. by destruct text.
  - cbn [matchhere]. destruct (Z.eqb_spec r 42) as [->|Hr].
    + rewrite matchstar_spec, prefix_lang_star. apply exist_proper. intros w. apply exist_proper. intros rest.
      by rewrite (IH re) by (cbn; lia).
    + apply Hone; cbn; congruence.
Qed.

Lemma match_loop_spec re text :
  match_loop re text = true <-> exists pre suf, text = pre ++ suf /\ prefix_lang re suf.
Proof.
  induction text as [|t text IH]; cbn [match_loop]; rewrite orb_true_iff, matchhere_spec.
  - split.
    + intros [H|H]; [by exists [], []|done].
    + intros (pre & suf & E & H). symmetry in E. apply app_eq_nil in E as [-> ->]. by left.
  - rewrite IH. split.
    + intros [H|(pre & suf & -> & H)]; [by exists [], (t :: text)|by exists (t :: pre), suf].
    + intros ([|x pre] & suf & E & H); [left; by rewrite E|]. right. injection E as -> ->. by exists pre, suf.
Qed.

(** C35: [match] decides the language of the pattern: bytes, dots, stars, [^] and [$]. *)
Theorem match_decides_pattern re text : match_ re text = true <-> pattern_lang re text.
Proof.
  destruct re as [|c re]; [apply match_loop_spec|]. unfold match_.
  destruct (Z.eqb_spec c 94) as [->|Hc]; [apply matchhere_spec|].
  rewrite match_loop_spec. unfold pattern_lang. destruct (decide (c = 94)); [done|].
  repeat (case_match; try done).
Qed.

(** ** [grep] prints the lines that match *)

(** The lines of [text] that match, as they are printed. *)
Definition selected (pattern text : list Z) : list Z :=
  concat (map (fun l => l ++ [10]) (filter (fun l => match_ pattern l = true) (lines text))).
(** What follows the last newline. *)
Fixpoint unfinished_from (acc text : list Z) : list Z :=
  match text with
  | [] => acc
  | c :: text' => if c =? 10 then unfinished_from [] text' else unfinished_from (acc ++ [c]) text'
  end.
Definition unfinished (text : list Z) : list Z := unfinished_from [] text.

Lemma lines_from_app acc a b : lines_from acc (a ++ b) = lines_from acc a ++ lines_from (unfinished_from acc a) b.
Proof.
  revert acc. induction a as [|c a IH]; intros acc; cbn; [done|]. by case_match; rewrite IH.
Qed.
Lemma lines_from_none acc a : 10 ∉ a -> lines_from acc a = [] /\ unfinished_from acc a = acc ++ a.
Proof.
  revert acc. induction a as [|c a IH]; intros acc Ha; cbn; [by rewrite app_nil_r|].
  apply not_elem_of_cons in Ha as [Hc Ha]. destruct (Z.eqb_spec c 10); [by subst|].
  destruct (IH (acc ++ [c]) Ha) as [-> ->]. by rewrite <- (assoc (++)).
Qed.
Lemma lines_app a b : lines (a ++ b) = lines a ++ lines (unfinished a ++ b).
Proof.
  unfold lines, unfinished. rewrite lines_from_app. f_equal.
  assert (H : forall acc, 10 ∉ acc -> 10 ∉ unfinished_from acc a).
  { induction a as [|c a IH]; intros acc Hacc; cbn; [done|]. destruct (Z.eqb_spec c 10); apply IH; [set_solver|].
    rewrite elem_of_app, list_elem_of_singleton. intuition congruence. }
  pose proof (H [] (not_elem_of_nil _)) as Hu. rewrite lines_from_app.
  destruct (lines_from_none [] _ Hu) as [-> ->]. done.
Qed.
Lemma selected_app pattern a b : selected pattern (a ++ b) = selected pattern a ++ selected pattern (unfinished a ++ b).
Proof. unfold selected. by rewrite lines_app, filter_app, map_app, concat_app. Qed.
Lemma selected_none pattern a : 10 ∉ a -> selected pattern a = [].
Proof. intros H. unfold selected, lines. by rewrite (proj1 (lines_from_none [] a H)). Qed.

Lemma strchr_nl_some p l r : strchr_nl p = Some (l, r) -> p = l ++ 10 :: r /\ 10 ∉ l.
Proof.
  revert l. induction p as [|c p IH]; intros l; cbn; [done|]. case_match; [done|].
  destruct (Z.eqb_spec c 10) as [->|Hc]; [intros [= <- <-]; split; [done|apply not_elem_of_nil]|].
  destruct (strchr_nl p) as [[l' r']|] eqn:E; [|done]. intros [= <- <-]. destruct (IH l' eq_refl) as [-> Hl].
  split; [done|]. by apply not_elem_of_cons.
Qed.
Lemma strchr_nl_none p : 0 ∉ p -> strchr_nl p = None -> 10 ∉ p.
Proof.
  induction p as [|c p IH]; cbn; intros H0 H; [apply not_elem_of_nil|]. apply not_elem_of_cons in H0 as [Hc H0].
  destruct (Z.eqb_spec c 0); [congruence|]. destruct (Z.eqb_spec c 10); [done|].
  apply not_elem_of_cons. split; [done|]. apply IH; [done|]. by destruct (strchr_nl p) as [[]|].
Qed.

Lemma selected_line pattern l r : 10 ∉ l ->
  selected pattern (l ++ 10 :: r) = (if match_ pattern l then l ++ [10] else []) ++ selected pattern r /\
  unfinished (l ++ 10 :: r) = unfinished r.
Proof.
  intros Hl. assert (E : lines (l ++ 10 :: r) = l :: lines r).
  { unfold lines. rewrite lines_from_app. by destruct (lines_from_none [] l Hl) as [-> ->]. }
  split.
  - unfold selected. rewrite E, filter_cons. destruct (match_ pattern l) eqn:Em.
    + by rewrite decide_True by done.
    + by rewrite decide_False by done.
  - assert (H : forall acc, 10 ∉ l -> unfinished_from acc (l ++ 10 :: r) = unfinished r); [|by apply H].
    clear. induction l as [|c l IH]; intros acc Hl; cbn; [done|]. apply not_elem_of_cons in Hl as [Hc Hl].
    destruct (Z.eqb_spec c 10); [by subst|]. by apply IH.
Qed.

Lemma grep_lines_spec fuel pattern p out :
  0 ∉ p -> (length p <= fuel)%nat -> grep_lines fuel pattern p out = (out ++ selected pattern p, unfinished p).
Proof.
  revert p out. induction fuel as [|f IH]; intros p out H0 Hf; cbn [grep_lines].
  - destruct p; [|cbn in Hf; lia]. by rewrite app_nil_r.
  - destruct (strchr_nl p) as [[l r]|] eqn:E.
    + destruct (strchr_nl_some _ _ _ E) as [-> Hl]. destruct (selected_line pattern l r Hl) as [-> ->].
      rewrite length_app in Hf. cbn in Hf. apply not_elem_of_app in H0 as [_ H0]. apply not_elem_of_cons in H0 as [_ H0].
      rewrite IH by (done || lia). f_equal. destruct (match_ pattern l); [by rewrite <- !(assoc (++))|done].
    + pose proof (strchr_nl_none p H0 E) as H. rewrite (selected_none _ _ H), app_nil_r.
      unfold unfinished. by rewrite (proj2 (lines_from_none [] p H)).
Qed.

Lemma unfinished_suffix a : exists pre, a = pre ++ unfinished a /\ (10 ∈ a -> pre <> []) /\ 10 ∉ unfinished a.
Proof.
  assert (H : forall acc, 10 ∉ acc -> exists pre, acc ++ a = pre ++ unfinished_from acc a /\ (10 ∈ a -> pre <> []) /\ 10 ∉ unfinished_from acc a).
  { induction a as [|c a IH]; intros acc Hacc; cbn.
    - exists []. rewrite app_nil_r. split; [done|]. split; [|done]. by intros ?%elem_of_nil.
    - destruct (Z.eqb_spec c 10) as [->|Hc].
      + destruct (IH [] (not_elem_of_nil _)) as (pre & E & _ & Hn). exists (acc ++ 10 :: pre). rewrite <- (assoc (++)). cbn in *.
        split; [by rewrite <- E|]. split; [|done]. intros _. by destruct acc.
      + destruct (IH (acc ++ [c])) as (pre & E & Hp & Hn); [rewrite elem_of_app, list_elem_of_singleton; intuition congruence|].
        exists pre. rewrite <- E, <- (assoc (++)). split; [done|]. split; [|done].
        rewrite elem_of_cons. intros [|]; [congruence|auto]. }
  destruct (H [] (not_elem_of_nil _)) as (pre & E & Hp). by exists pre.
Qed.

(** A plain file as input. *)
Definition file_input (data : list Z) : list (list Z) := match data with [] => [] | _ => [data] end.
(** Every line fits in the buffer, with its newline and the NUL. *)
Definition lines_fit (text : list Z) : Prop := Forall (fun l => (length l + 2 <= BUFSIZE)%nat) (lines text).

Lemma long_start a b : 10 ∉ a -> (length a + 1 >= BUFSIZE)%nat -> lines_fit (a ++ b) -> 10 ∉ b.
Proof.
  intros Ha Hlen Hfit Hb. apply list_elem_of_split_l in Hb as (l & r & -> & Hl).
  unfold lines_fit in Hfit. rewrite (assoc (++)) in Hfit. unfold lines in Hfit. rewrite lines_from_app in Hfit.
  assert (Hal : 10 ∉ a ++ l) by (rewrite elem_of_app; tauto).
  destruct (lines_from_none [] _ Hal) as [E1 E2]. rewrite E1, E2 in Hfit. cbn in Hfit.
  apply Forall_cons in Hfit as [H _]. rewrite length_app in H. lia.
Qed.

Lemma grep_loop_file fuel pattern buf data out :
  (length data < fuel)%nat -> 10 ∉ buf -> 0 ∉ buf ++ data -> (length buf + 1 < BUFSIZE)%nat -> lines_fit (buf ++ data) ->
  grep_loop fuel pattern buf (file_input data) out = Some (out ++ selected pattern (buf ++ data)).
Proof.
  revert buf data out. induction fuel as [|f IH]; intros buf data out Hf Hb H0 Hl Hfit; [lia|]. cbn [grep_loop].
  destruct data as [|d data].
  { cbn. rewrite app_nil_r, (selected_none _ _ Hb). by rewrite app_nil_r. }
  cbn [file_input read].
  set (n := (BUFSIZE - length buf - 1)%nat) in *. assert (Hn : (n > 0)%nat) by (unfold n; lia).
  pose proof (take_drop n (d :: data)) as Etd.
  set (bytes := take n (d :: data)) in *. set (data' := drop n (d :: data)) in *.
  assert (Hbl : (0 < length bytes)%nat) by (unfold bytes; rewrite length_take, length_cons; lia).
  destruct bytes as [|b0 bytes'] eqn:Eb; [cbn in Hbl; lia|]. rewrite <- Eb in *. clear Hbl.
  rewrite <- Etd, (assoc (++)) in Hfit, H0 |- *. apply not_elem_of_app in H0 as [H0 H0'].
  rewrite grep_lines_spec by (done || lia).
  replace (match data' with [] => [] | z :: l => [z :: l] end) with (file_input data') by (by destruct data').
  assert (Hd' : (length data' < f)%nat) by (unfold data'; rewrite length_drop; cbn in *; lia).
  destruct (unfinished_suffix (buf ++ bytes)) as (pre & Epre & Hpre & Hnun).
  destruct (decide (10 ∈ buf ++ bytes)) as [Hin|Hin].
  - assert (Hlen : (length (unfinished (buf ++ bytes)) < length (buf ++ bytes))%nat).
    { rewrite Epre at 2. rewrite length_app. specialize (Hpre Hin). destruct pre; [done|]. cbn. lia. }
    rewrite bool_decide_eq_false_2 by lia. rewrite (selected_app pattern (buf ++ bytes) data'), (assoc (++)).
    unfold lines_fit in Hfit. rewrite lines_app in Hfit. apply Forall_app in Hfit as [_ Hfit].
    apply IH; try done.
    + rewrite elem_of_app. intros [Hu|Hu]; [|done]. apply H0. rewrite Epre, elem_of_app. tauto.
    + assert (length bytes <= n)%nat by (unfold bytes; rewrite length_take; lia). rewrite length_app in Hlen. unfold n in *. lia.
  - assert (Eu : unfinished (buf ++ bytes) = buf ++ bytes) by (unfold unfinished; by rewrite (proj2 (lines_from_none [] _ Hin))).
    rewrite Eu, bool_decide_eq_true_2 by done. rewrite (selected_none _ _ Hin), app_nil_r.
    destruct data' as [|d' data''] eqn:Ed'.
    { rewrite app_nil_r, (selected_none _ _ Hin), app_nil_r. destruct f; [cbn in Hd'; lia|]. done. }
    rewrite <- Ed' in *. assert (Hlb : length bytes = n).
    { unfold bytes. rewrite length_take. assert (length data' > 0)%nat by (rewrite Ed'; cbn; lia). unfold data' in *.
      rewrite length_drop in *. lia. }
    pose proof (long_start _ _ Hin ltac:(rewrite length_app, Hlb; unfold n; lia) Hfit) as Hno.
    assert (Hnone : 10 ∉ (buf ++ bytes) ++ data') by (rewrite elem_of_app; tauto).
    replace (selected pattern _) with (selected pattern ([] ++ data')) by (by rewrite (selected_none _ _ Hnone), (selected_none _ _ Hno)).
    apply IH; try done.
    + apply not_elem_of_nil.
    + cbn. unfold BUFSIZE. lia.
    + unfold lines_fit, lines. cbn [app]. by rewrite (proj1 (lines_from_none [] _ Hno)).
Qed.

Lemma grep_file pattern text : 0 ∉ text -> lines_fit text -> grep pattern (file_input text) = Some (selected pattern text).
Proof.
  intros H0 Hfit. apply (grep_loop_file _ pattern [] text []); try done.
  - destruct text; cbn; [lia|]. rewrite app_nil_r. lia.
  - apply not_elem_of_nil.
  - cbn. unfold BUFSIZE. lia.
Qed.

(** On a file without NUL bytes whose lines fit in the buffer, [grep] terminates and prints
    exactly the lines that match the pattern, in order. *)
Theorem grep_prints_matching_lines pattern text :
  0 ∉ text -> lines_fit text ->
  grep pattern (file_input text) = Some (concat (map (fun l => l ++ [10]) (filter (fun l => match_ pattern l = true) (lines text)))).
Proof. apply grep_file. Qed.

Lemma grep_prints_matching_lines_witness :
  grep (bytes_of_string "^a.*c$") (file_input (bytes_of_string "abc" ++ [10] ++ bytes_of_string "xabc" ++ [10] ++ bytes_of_string "ac" ++ [10]))
  = Some (bytes_of_string "abc" ++ [10] ++ bytes_of_string "ac" ++ [10]).
Proof.
  rewrite grep_prints_matching_lines.
  - vm_compute. reflexivity.
  - apply (bool_decide_unpack _). vm_compute. exact I.
  - apply (bool_decide_unpack _). vm_compute. exact I.
Defined.

(** A line that reaches [grep] in two pieces, as from a pipe or the console, loses the
    first: a buffer without a newline is thrown away even when it is not full. *)
Theorem grep_loses_partial_line :
  grep (bytes_of_string "ab") [bytes_of_string "ab"; bytes_of_string "c" ++ [10]] = Some [].
Proof. vm_compute. reflexivity. Qed.
