(* ===== verification/Text.v ===== *)
(** User programs that work on text: the Caesar cipher of [encode.c] and [decode.c], and
    the counts of [wc.c].

    [encode] and [decode] differ in their key only; the programs join their arguments in
    an array of [SIZE] bytes, encipher it in place and write it over the beginning of
    [result.txt], which they open without truncating it. *)

From S2P Require Import Prelude CString Grep.

(** ** [encode.c] and [decode.c] *)

Definition SIZE : nat := 512.
Definition _ids : list Z := [810101408; 810101561; 810101560].

(** [key += _ids[i] % 100] over the three numbers. *)
Definition key_sum : Z := foldl (fun key id => key + Z.rem id 100) 0 _ids.
Definition encode_key : Z := Z.rem (Z.rem key_sum 26 + 26) 26.
Definition decode_key : Z := Z.rem (Z.rem (- key_sum) 26 + 26) 26.

(** One turn of the loop on a byte. *)
Definition shift (key c : Z) : Z :=
  if (c >=? 97) && (c <=? 122) then Z.rem (c + key - 97) 26 + 97
  else if (c >=? 65) && (c <=? 90) then Z.rem (c + key - 65) 26 + 65
  else c.
(** The loop: the bytes up to the NUL, enciphered; [None] if the array has no NUL. *)
Fixpoint cipher (key : Z) (text : list Z) : option (list Z) :=
  match text with
  | [] => None
  | c :: text' => if c =? 0 then Some [] else (fun l => shift key c :: l) <$> cipher key text'
  end.

(** [merged_text[index] = c], the state being the array. *)
Definition put_at (index : nat) (c : Z) : M (list Z) unit :=
  text ← get;
  if bool_decide (index < length text)%nat then put (<[index := c]> text) else faults OutOfBounds.
Fixpoint merge_word (index : nat) (w : list Z) : M (list Z) nat :=
  match w with
  | [] => mret index
  | c :: w' => put_at index c ;; merge_word (S index) w'
  end.
Fixpoint merge_words (index : nat) (ws : list (list Z)) : M (list Z) nat :=
  match ws with
  | [] => mret index
  | w :: ws' =>
      index ← merge_word index w;
      match ws' with
      | [] => mret index
      | _ => put_at index 32 ;; merge_words (S index) ws'
      end
  end.
(** [words] are the arguments after the program's name. *)
Definition merge_argv (words : list (list Z)) : M (list Z) unit :=
  index ← merge_words 0 words;
  put_at index 10 ;;
  put_at (S index) 0.

(** [main]: the contents of [result.txt] afterwards, [old] being those before; the
    array starts with arbitrary bytes. *)
Definition cipher_main (key : Z) (text0 : list Z) (words : list (list Z)) (old : list Z) : res (list Z) (list Z) :=
  (merge_argv words ;;
   text ← get;
   out ← of_option OutOfBounds (cipher key text);
   mret (out ++ drop (length out) old)) text0.
Definition encode_main := cipher_main encode_key.
Definition decode_main := cipher_main decode_key.

(** ** [wc.c] *)

Record counts := mk_counts { wc_l : Z; wc_w : Z; wc_c : Z; inword : bool }.
(** [strchr(" \r\t\n\v", c)] is not null. *)
Definition is_space (c : Z) : bool := (c =? 32) || (c =? 13) || (c =? 9) || (c =? 10) || (c =? 11).
Definition wc_byte (s : counts) (b : Z) : counts :=
  let c := i32 (wc_c s + 1) in
  let l := if b =? 10 then i32 (wc_l s + 1) else wc_l s in
  if is_space b then mk_counts l (wc_w s) c false
  else if inword s then mk_counts l (wc_w s) c true
  else mk_counts l (i32 (wc_w s + 1)) c true.
(** The loop around [read], 512 bytes at a time. *)
Fixpoint wc_loop (fuel : nat) (input : list (list Z)) (s : counts) : option counts :=
  match fuel with
  | O => None
  | S f =>
      let '(bytes, input) := read 512 input in
      match bytes with
      | [] => Some s
      | _ => wc_loop f input (foldl wc_byte s bytes)
      end
  end.
Definition wc (input : list (list Z)) : option counts :=
  wc_loop (S (length (concat input))) input (mk_counts 0 0 0 false).

(** [cat.c]: what is written to the standard output, when [write] writes all it is given. *)
Fixpoint cat_loop (fuel : nat) (input : list (list Z)) (out : list Z) : option (list Z) :=
  match fuel with
  | O => None
  | S f =>
      let '(bytes, input) := read 512 input in
      match bytes with
      | [] => Some out
      | _ => cat_loop f input (out ++ bytes)
      end
  end.
Definition cat (input : list (list Z)) : option (list Z) := cat_loop (S (length (concat input))) input [].

(** ** The cipher *)

(** The arguments joined by spaces. *)
Fixpoint join (ws : list (list Z)) : list Z :=
  match ws with
  | [] => []
  | w :: ws' => match ws' with [] => w | _ => w ++ 32 :: join ws' end
  end.

Lemma shift_lower key c : 0 <= key -> 97 <= c <= 122 -> shift key c = (c + key - 97) mod 26 + 97.
Proof.
  intros Hk Hc. unfold shift. destruct (Z.geb_spec c 97), (Z.leb_spec c 122); try lia. cbn [andb].
  by rewrite Z.rem_mod_nonneg by lia.
Qed.
Lemma shift_upper key c : 0 <= key -> 65 <= c <= 90 -> shift key c = (c + key - 65) mod 26 + 65.
Proof.
  intros Hk Hc. unfold shift. destruct (Z.geb_spec c 97), (Z.geb_spec c 65), (Z.leb_spec c 90); try lia. cbn [andb].
  by rewrite Z.rem_mod_nonneg by lia.
Qed.
Lemma shift_other key c : ~ (97 <= c <= 122) -> ~ (65 <= c <= 90) -> shift key c = c.
Proof. intros H1 H2. unfold shift. repeat (case_match; try lia). Qed.

Lemma shift_inverse c : shift decode_key (shift encode_key c) = c.
Proof.
  change encode_key with 25. change decode_key with 1.
  destruct (decide (97 <= c <= 122)) as [Hl|Hl]; [|destruct (decide (65 <= c <= 90)) as [Hu|Hu]].
  - rewrite (shift_lower 25 c) by lia. pose proof (Z.mod_pos_bound (c + 25 - 97) 26). rewrite shift_lower by lia.
    Z.div_mod_to_equations. lia.
  - rewrite (shift_upper 25 c) by lia. pose proof (Z.mod_pos_bound (c + 25 - 65) 26). rewrite shift_upper by lia.
    Z.div_mod_to_equations. lia.
  - by rewrite !shift_other by (rewrite ?shift_other; done).
Qed.
Lemma shift_zero key c : 0 <= key -> c <> 0 -> shift key c <> 0.
Proof.
  intros Hk Hc. destruct (decide (97 <= c <= 122)) as [Hl|Hl]; [|destruct (decide (65 <= c <= 90)) as [Hu|Hu]].
  - rewrite shift_lower by done. pose proof (Z.mod_pos_bound (c + key - 97) 26). lia.
  - rewrite shift_upper by done. pose proof (Z.mod_pos_bound (c + key - 65) 26). lia.
  - by rewrite shift_other.
Qed.

Lemma cipher_app key l r : 0 ∉ l -> cipher key (l ++ 0 :: r) = Some (map (shift key) l).
Proof.
  induction l as [|c l IH]; intros H; cbn; [done|]. apply not_elem_of_cons in H as [Hc H].
  destruct (Z.eqb_spec c 0); [congruence|]. by rewrite IH.
Qed.

(** The array, once the bytes [done] have been stored. *)
Definition written (done text0 : list Z) : list Z := done ++ drop (length done) text0.

Lemma put_at_run l text0 c : (length l < length text0)%nat ->
  put_at (length l) c (written l text0) = Ret tt (written (l ++ [c]) text0).
Proof.
  intros H. unfold put_at, written. munfold.
  rewrite bool_decide_eq_true_2 by (rewrite length_app, length_drop; lia). f_equal.
  rewrite insert_app_r_alt, Nat.sub_diag by lia. destruct (drop (length l) text0) as [|x r] eqn:E.
  { apply (f_equal length) in E. rewrite length_drop in E. cbn in E. lia. }
  cbn. rewrite length_app, <- (assoc (++)). cbn. do 2 f_equal. change r with (drop 1 (x :: r)). rewrite <- E, drop_drop. f_equal.
Qed.
Lemma merge_word_run w l text0 : (length l + length w <= length text0)%nat ->
  merge_word (length l) w (written l text0) = Ret (length (l ++ w)) (written (l ++ w) text0).
Proof.
  revert l. induction w as [|c w IH]; intros l H; cbn [merge_word]; [by rewrite app_nil_r|]. cbn in H.
  rewrite (bind_eq _ _ _ _ _ (put_at_run l text0 c ltac:(lia))). replace (S (length l)) with (length (l ++ [c])) by (rewrite length_app; cbn; lia).
  rewrite IH by (rewrite length_app; cbn; lia). by rewrite <- (assoc (++)).
Qed.
Lemma merge_words_run ws l text0 : (length l + length (join ws) <= length text0)%nat ->
  merge_words (length l) ws (written l text0) = Ret (length (l ++ join ws)) (written (l ++ join ws) text0).
Proof.
  revert l. induction ws as [|w ws IH]; intros l H; cbn [merge_words join]; [by rewrite app_nil_r|].
  cbn [join] in H. destruct ws as [|w' ws].
  - by rewrite (bind_eq _ _ _ _ _ (merge_word_run w l text0 H)).
  - rewrite length_app in H. cbn [length] in H. rewrite (bind_eq _ _ _ _ _ (merge_word_run w l text0 ltac:(lia))).
    rewrite (bind_eq _ _ _ _ _ (put_at_run (l ++ w) text0 32 ltac:(rewrite length_app; lia))).
    replace (S (length (l ++ w))) with (length ((l ++ w) ++ [32])) by (rewrite (length_app _ [32]); cbn; lia).
    rewrite IH by (rewrite !length_app; cbn in *; lia). by rewrite <- !(assoc (++)).
Qed.
Lemma merge_argv_run ws text0 : (length (join ws) + 2 <= length text0)%nat ->
  merge_argv ws text0 = Ret tt (written (join ws ++ [10; 0]) text0).
Proof.
  intros H. unfold merge_argv. change text0 with (written [] text0) at 1.
  rewrite (bind_eq _ _ _ _ _ (merge_words_run ws [] text0 ltac:(cbn; lia))). cbn [app].
  rewrite (bind_eq _ _ _ _ _ (put_at_run (join ws) text0 10 ltac:(lia))).
  replace (S (length (join ws))) with (length (join ws ++ [10])) by (rewrite length_app; cbn; lia).
  rewrite (put_at_run (join ws ++ [10]) text0 0) by (rewrite length_app; cbn; lia). by rewrite <- (assoc (++)).
Qed.

Lemma cipher_main_run key ws text0 old :
  (length (join ws) + 2 <= length text0)%nat -> 0 ∉ join ws ->
  exists s, cipher_main key text0 ws old =
    Ret (map (shift key) (join ws ++ [10]) ++ drop (S (length (join ws))) old) s.
Proof.
  intros H H0. unfold cipher_main. rewrite (bind_eq _ _ _ _ _ (merge_argv_run ws text0 H)). munfold.
  assert (E : cipher key (written (join ws ++ [10; 0]) text0) = Some (map (shift key) (join ws ++ [10]))).
  { unfold written. replace (join ws ++ [10; 0]) with ((join ws ++ [10]) ++ [0]) at 1 by (by rewrite <- (assoc (++))).
    rewrite <- (assoc (++) (join ws ++ [10])). apply cipher_app. rewrite elem_of_app, list_elem_of_singleton. intuition congruence. }
  rewrite E. cbn. rewrite length_map, length_app, Nat.add_comm. by eexists.
Qed.

Lemma join_shift key ws : map (shift key) (join ws) = join (map (map (shift key)) ws).
Proof.
  induction ws as [|w ws IH]; [done|]. cbn [join map]. destruct ws as [|w' ws]; [done|].
  rewrite map_app. cbn [map] in *. rewrite IH. done.
Qed.
Lemma map_shift_inverse l : map (shift decode_key) (map (shift encode_key) l) = l.
Proof. rewrite map_map. erewrite map_ext; [apply map_id|]. apply shift_inverse. Qed.
Lemma map_shift_nonzero key l : 0 <= key -> 0 ∉ l -> 0 ∉ map (shift key) l.
Proof.
  intros Hk Hl. rewrite list_elem_of_fmap. intros (c & E & Hc). destruct (decide (c = 0)); [by subst|].
  by destruct (shift_zero key c Hk).
Qed.

(** [decode] of the words [encode] has enciphered writes the joined arguments back,
    whatever the two arrays held; a former [result.txt] shows past the end of the text. *)
Theorem encode_decode_roundtrip ws text0 text1 old :
  (length (join ws) + 2 <= SIZE)%nat -> length text0 = SIZE -> length text1 = SIZE -> 0 ∉ join ws ->
  let code := map (map (shift encode_key)) ws in
  exists s s',
    encode_main text0 ws old = Ret (join code ++ [10] ++ drop (S (length (join ws))) old) s /\
    decode_main text1 code old = Ret (join ws ++ [10] ++ drop (S (length (join ws))) old) s'.
Proof.
  intros H L0 L1 H0 code. destruct (cipher_main_run encode_key ws text0 old) as [s E]; [lia|done|].
  assert (Ej : join (map (map (shift encode_key)) ws) = map (shift encode_key) (join ws)) by (by rewrite join_shift).
  destruct (cipher_main_run decode_key (map (map (shift encode_key)) ws) text1 old) as [s' E'].
  { rewrite Ej, length_map. lia. }
  { rewrite Ej. by apply map_shift_nonzero. }
  exists s, s'. unfold encode_main, decode_main, code. rewrite E, E', Ej.
  rewrite !map_app, map_shift_inverse, length_map, <- !(assoc (++)). done.
Qed.

Lemma encode_decode_roundtrip_witness :
  let ws := [bytes_of_string "Hello"; bytes_of_string "xv6"] in
  exists s s', encode_main (replicate SIZE 7) ws [] = Ret (bytes_of_string "Gdkkn wu6" ++ [10]) s /\
    decode_main (replicate SIZE 7) [bytes_of_string "Gdkkn"; bytes_of_string "wu6"] [] = Ret (bytes_of_string "Hello xv6" ++ [10]) s'.
Proof.
  intros ws. destruct (encode_decode_roundtrip ws (replicate SIZE 7) (replicate SIZE 7) []) as (s & s' & E1 & E2).
  - vm_compute. lia.
  - reflexivity.
  - reflexivity.
  - apply (bool_decide_unpack _). vm_compute. exact I.
  - by exists s, s'.
Defined.

(** The array of 512 bytes overflows when the arguments are longer. *)
Theorem encode_overflows : fault_of (encode_main (replicate SIZE 0) [replicate 511 97] []) = Some OutOfBounds.
Proof. vm_compute. reflexivity. Qed.

(** ** [wc] counts lines, words and bytes *)

(** A word starts at a byte that is no space and follows one, or starts the text. *)
Fixpoint word_starts (prev_space : bool) (text : list Z) : nat :=
  match text with
  | [] => 0
  | c :: text' => ((if prev_space && negb (is_space c) then 1 else 0) + word_starts (is_space c) text')%nat
  end.
Definition newlines (text : list Z) : nat := length (filter (fun c => c = 10) text).

Lemma word_starts_le p text : (word_starts p text <= length text)%nat.
Proof. revert p. induction text as [|c text IH]; intros p; cbn; [lia|]. specialize (IH (is_space c)). case_match; lia. Qed.

Lemma wc_bytes_spec text s :
  0 <= wc_l s <= wc_c s -> 0 <= wc_w s <= wc_c s -> wc_c s + Z.of_nat (length text) <= INT_MAX ->
  foldl wc_byte s text =
    mk_counts (wc_l s + Z.of_nat (newlines text)) (wc_w s + Z.of_nat (word_starts (negb (inword s)) text))
      (wc_c s + Z.of_nat (length text)) (match last text with Some c => negb (is_space c) | None => inword s end).
Proof.
  revert s. induction text as [|b text IH]; intros s Hl Hw Hc.
  { destruct s; cbn. by rewrite !Z.add_0_r. }
  cbn [foldl]. cbn [length] in Hc.
  assert (E : wc_byte s b = mk_counts (wc_l s + Z.of_nat (newlines [b])) (wc_w s + Z.of_nat (word_starts (negb (inword s)) [b]))
      (wc_c s + 1) (negb (is_space b))).
  { unfold wc_byte, newlines. rewrite filter_cons. cbn [word_starts]. destruct s as [l w c i]; cbn in *.
    rewrite !i32_small by (unfold_int; lia). destruct (Z.eqb_spec b 10); [rewrite decide_True by done|rewrite decide_False by done];
      destruct (is_space b); cbn; destruct i; cbn; f_equal; lia. }
  rewrite E. rewrite IH; cbn [wc_l wc_w wc_c inword].
  - unfold newlines. rewrite !filter_cons. cbn [word_starts length]. f_equal.
    + case_decide; cbn; lia.
    + rewrite negb_involutive. lia.
    + lia.
    + destruct text as [|z text]; [done|]. rewrite last_cons_cons. by destruct (last (z :: text)) eqn:El; [|apply last_None in El].
  - assert (newlines [b] <= 1)%nat by (unfold newlines; rewrite filter_cons; case_decide; cbn; lia). lia.
  - pose proof (word_starts_le (negb (inword s)) [b]). cbn [length] in *. lia.
  - lia.
Qed.

Lemma read_step n input : (0 < n)%nat -> Forall (fun c => c <> []) input ->
  let '(bytes, rest) := read n input in
  bytes ++ concat rest = concat input /\ Forall (fun c => c <> []) rest /\ (bytes = [] -> input = []).
Proof.
  intros Hn Hf. destruct input as [|chunk input]; [done|]. cbn [read]. apply Forall_cons in Hf as [Hc Hf]. split_and!.
  - destruct (drop n chunk) as [|x l] eqn:E.
    + cbn. f_equal. rewrite <- (take_drop n chunk) at 2. by rewrite E, app_nil_r.
    + change ((x :: l) :: input) with ([x :: l] ++ input). rewrite concat_app, (assoc (++)). cbn. rewrite app_nil_r, <- E. by rewrite take_drop.
  - destruct (drop n chunk) eqn:E; [done|]. by constructor.
  - intros E. exfalso. destruct chunk; [done|]. destruct n; [lia|done].
Qed.

Lemma wc_loop_spec fuel input s :
  Forall (fun c => c <> []) input -> (length (concat input) < fuel)%nat ->
  wc_loop fuel input s = Some (foldl wc_byte s (concat input)).
Proof.
  revert input s. induction fuel as [|f IH]; intros input s Hf Hl; [lia|]. cbn [wc_loop].
  pose proof (read_step 512 input ltac:(lia) Hf) as H. destruct (read 512 input) as [bytes rest]. destruct H as (E & Hr & Hb).
  destruct bytes as [|b bytes]; [by rewrite (Hb eq_refl)|]. rewrite <- E, length_app in Hl. rewrite <- E, foldl_app.
  apply IH; [done|]. cbn in Hl. lia.
Qed.

(** [wc] terminates and counts the newlines, the words and the bytes of its input, however
    the input arrives. *)
Theorem wc_counts input :
  Forall (fun c => c <> []) input -> Z.of_nat (length (concat input)) <= INT_MAX ->
  exists i, wc input = Some (mk_counts (Z.of_nat (newlines (concat input))) (Z.of_nat (word_starts true (concat input)))
                        (Z.of_nat (length (concat input))) i).
Proof.
  intros Hf Hl. unfold wc. rewrite wc_loop_spec by (done || lia). rewrite wc_bytes_spec; cbn [wc_l wc_w wc_c inword]; [|lia..].
  eexists. reflexivity.
Qed.

Lemma wc_counts_witness :
  exists i, wc [bytes_of_string "ab c"; bytes_of_string "d" ++ [10] ++ bytes_of_string " e"] = Some (mk_counts 1 3 8 i).
Proof.
  destruct (wc_counts [bytes_of_string "ab c"; bytes_of_string "d" ++ [10] ++ bytes_of_string " e"]) as [i E].
  - repeat constructor; done.
  - vm_compute. discriminate.
  - exists i. exact E.
Defined.

Lemma cat_loop_spec fuel input out :
  Forall (fun c => c <> []) input -> (length (concat input) < fuel)%nat -> cat_loop fuel input out = Some (out ++ concat input).
Proof.
  revert input out. induction fuel as [|f IH]; intros input out Hf Hl; [lia|]. cbn [cat_loop].
  pose proof (read_step 512 input ltac:(lia) Hf) as H. destruct (read 512 input) as [bytes rest]. destruct H as (E & Hr & Hb).
  destruct bytes as [|b bytes]; [rewrite (Hb eq_refl); by rewrite app_nil_r|]. rewrite <- E, length_app in Hl.
  rewrite <- E, (assoc (++)). apply IH; [done|]. cbn in Hl. lia.
Qed.
