(* ===== verification/Sh.v ===== *)
(** The shell's parser ([sh.c]): from a line of input to a command tree.

    The line is the list [buf] of its bytes before the NUL; [ps] is the state, an index
    into it.  A command holds the bounds of its words in the line, as the code's pointers
    do; [nulterminate] then writes NULs into the line.  An [execcmd] is shared between
    [cmd] and the redirections around it while [parseexec] fills in its arguments, so
    [parseredirs] collects the redirections and [parseexec] puts them around the finished
    command, in the same order. *)

From S2P Require Import Prelude CString.

Definition MAXARGS : nat := 10.
Definition O_RDONLY : Z := 0.
Definition O_WRONLY : Z := 1.
Definition O_CREATE : Z := 512.

Inductive cmd :=
  | EXEC (argv : list (nat * nat))
  | REDIR (c : cmd) (file : nat * nat) (mode fd : Z)
  | PIPE (left right : cmd)
  | LIST (left right : cmd)
  | BACK (c : cmd).

Definition whitespace : list Z := [32; 9; 13; 10; 11].
Definition symbols : list Z := [60; 124; 62; 38; 59; 40; 41].
(** [strchr(set, c)] is not null. *)
Definition strchr_in (set : list Z) (c : Z) : bool := existsb (Z.eqb c) set.

Record tok := mk_tok { tk : Z; tq : nat; teq : nat }.

Section Parse.
Context (buf : list Z).

Definition es : nat := length buf.
Definition char_at (s : nat) : Z := nth s buf 0.

(** [while(s < es && P( *s)) s++], [n] being [es - s]. *)
Fixpoint skip (P : Z -> bool) (n s : nat) : nat :=
  match n with
  | O => s
  | S n' => if P (char_at s) then skip P n' (S s) else s
  end.
Definition skip_ws (s : nat) : nat := skip (strchr_in whitespace) (es - s) s.
Definition in_word (c : Z) : bool := negb (strchr_in whitespace c) && negb (strchr_in symbols c).

Definition gettoken : M nat tok := fun s =>
  let s := skip_ws s in
  let q := s in
  let c := char_at s in
  let '(ret, s) :=
    if c =? 0 then (c, s)
    else if strchr_in [124; 40; 41; 59; 38; 60] c then (c, S s)
    else if c =? 62 then (if char_at (S s) =? 62 then (43, S (S s)) else (c, S s))
    else (97, skip in_word (es - s) s) in
  Ret (mk_tok ret q s) (skip_ws s).

Definition peek (toks : list Z) : M nat bool := fun s =>
  let s := skip_ws s in
  Ret (ctrue (char_at s) && strchr_in toks (char_at s)) s.

Definition redir : Type := (nat * nat) * Z * Z.
Definition redircmd (c : cmd) (r : redir) : cmd := let '(f, mode, fd) := r in REDIR c f mode fd.

(** The redirections read, added to [rs]. *)
Fixpoint parseredirs (fuel : nat) (rs : list redir) : M nat (list redir) :=
  match fuel with
  | O => faults OutOfFuel
  | S f =>
      b ← peek [60; 62];
      if (b : bool) then
        t ← gettoken;
        w ← gettoken;
        if negb (tk w =? 97) then panic "missing file for redirection"
        else if tk t =? 60 then parseredirs f (rs ++ [((tq w, teq w), O_RDONLY, 0)])
        else if (tk t =? 62) || (tk t =? 43) then parseredirs f (rs ++ [((tq w, teq w), Z.lor O_WRONLY O_CREATE, 1)])
        else parseredirs f rs
      else mret rs
  end.

(** The [while] loop of [parseexec]. *)
Fixpoint parseargs (fuel : nat) (argv : list (nat * nat)) (rs : list redir) : M nat cmd :=
  match fuel with
  | O => faults OutOfFuel
  | S f =>
      b ← peek [124; 41; 38; 59];
      if (b : bool) then mret (foldl redircmd (EXEC argv) rs)
      else
        t ← gettoken;
        if tk t =? 0 then mret (foldl redircmd (EXEC argv) rs)
        else if negb (tk t =? 97) then panic "syntax"
        else
          let argv := argv ++ [(tq t, teq t)] in
          if bool_decide (MAXARGS <= length argv)%nat then panic "too many args"
          else rs ← parseredirs (S es) rs; parseargs f argv rs
  end.

(** [while(peek(ps, es, "&"))]. *)
Fixpoint parseback (fuel : nat) (c : cmd) : M nat cmd :=
  match fuel with
  | O => faults OutOfFuel
  | S f =>
      b ← peek [38];
      if (b : bool) then gettoken ;; parseback f (BACK c) else mret c
  end.

Fixpoint parseline (fuel : nat) : M nat cmd :=
  match fuel with
  | O => faults OutOfFuel
  | S f =>
      c ← parsepipe f;
      c ← parseback (S es) c;
      b ← peek [59];
      if (b : bool) then gettoken ;; r ← parseline f; mret (LIST c r) else mret c
  end
with parsepipe (fuel : nat) : M nat cmd :=
  match fuel with
  | O => faults OutOfFuel
  | S f =>
      c ← parseexec f;
      b ← peek [124];
      if (b : bool) then gettoken ;; r ← parsepipe f; mret (PIPE c r) else mret c
  end
with parseexec (fuel : nat) : M nat cmd :=
  match fuel with
  | O => faults OutOfFuel
  | S f =>
      b ← peek [40];
      if (b : bool) then parseblock f
      else rs ← parseredirs (S es) []; parseargs (S es) [] rs
  end
with parseblock (fuel : nat) : M nat cmd :=
  match fuel with
  | O => faults OutOfFuel
  | S f =>
      b ← peek [40];
      if negb b then panic "parseblock"
      else
        gettoken ;;
        c ← parseline f;
        b ← peek [41];
        if negb b then panic "syntax - missing )"
        else
          gettoken ;;
          rs ← parseredirs (S es) [];
          mret (foldl redircmd c rs)
  end.

(** A call for each of the four routines between two tokens. *)
Definition parse_line : M nat cmd :=
  c ← parseline (4 * es + 4);
  peek [] ;;
  s ← get;
  if bool_decide (s = es) then mret c else panic "syntax".
End Parse.

(** The array after the NULs have been written; [mem] is the line with its NUL. *)
Fixpoint nulterminate (c : cmd) (mem : list Z) : list Z :=
  match c with
  | EXEC argv => foldl (fun mem a => <[snd a := 0]> mem) mem argv
  | REDIR c f _ _ => <[snd f := 0]> (nulterminate c mem)
  | PIPE l r | LIST l r => nulterminate r (nulterminate l mem)
  | BACK c => nulterminate c mem
  end.
(** [parsecmd]: the command and the array. *)
Definition parsecmd (buf : list Z) : res nat (cmd * list Z) :=
  (c ← parse_line buf; mret (c, nulterminate c (buf ++ [0]))) 0%nat.

(** ** The grammar

    The tokens of a line, as the parser sees them: a word with its bounds, or a symbol
    ([>>] being [+]). *)

Inductive sym := W (w : nat * nat) | Y (c : Z).
Definition view (t : tok) : sym := if tk t =? 97 then W (tq t, teq t) else Y (tk t).

(** The tokens of a line, read off byte by byte: [k] is the index of the first byte of [l],
    [st] where the word it may continue has started. *)
Definition ends (st : option nat) (k : nat) : list sym := match st with Some q => [W (q, k)] | None => [] end.
Fixpoint lex_from (k : nat) (st : option nat) (l : list Z) : list sym :=
  match l with
  | [] => ends st k
  | c :: l' =>
      if strchr_in whitespace c then ends st k ++ lex_from (S k) None l'
      else if c =? 62 then
        ends st k ++ match l' with
                     | d :: l'' => if d =? 62 then Y 43 :: lex_from (S (S k)) None l'' else Y 62 :: lex_from (S k) None l'
                     | [] => [Y 62]
                     end
      else if strchr_in symbols c then ends st k ++ Y c :: lex_from (S k) None l'
      else lex_from (S k) (Some (default k st)) l'
  end.
Definition lex (buf : list Z) : list sym := lex_from 0 None buf.

(** line    ::= pipeline [&]* | pipeline [&]* ; line
    pipeline ::= command | command [|] pipeline
    command ::= redir* (word redir* )* | ( line ) redir*
    redir   ::= [<] word | [>] word | [>>] word *)
Definition rd : Type := Z * (nat * nat).
Inductive line :=
  | LOne (p : pipeline) (amps : nat)
  | LSeq (p : pipeline) (amps : nat) (rest : line)
with pipeline :=
  | POne (e : command)
  | PMore (e : command) (rest : pipeline)
with command :=
  | Simple (ds : list rd) (args : list ((nat * nat) * list rd))
  | Block (l : line) (ds : list rd).

Definition flat_redirs (ds : list rd) : list sym := concat (map (fun d => [Y (fst d); W (snd d)]) ds).
Definition flat_args (args : list ((nat * nat) * list rd)) : list sym :=
  concat (map (fun a => W (fst a) :: flat_redirs (snd a)) args).
Fixpoint flat_line (l : line) : list sym :=
  match l with
  | LOne p n => flat_pipeline p ++ replicate n (Y 38)
  | LSeq p n l => flat_pipeline p ++ replicate n (Y 38) ++ Y 59 :: flat_line l
  end
with flat_pipeline (p : pipeline) : list sym :=
  match p with
  | POne e => flat_command e
  | PMore e p => flat_command e ++ Y 124 :: flat_pipeline p
  end
with flat_command (e : command) : list sym :=
  match e with
  | Simple ds args => flat_redirs ds ++ flat_args args
  | Block l ds => Y 40 :: flat_line l ++ Y 41 :: flat_redirs ds
  end.

(** What a sentence means. *)
Definition redir_of (d : rd) : redir :=
  if fst d =? 60 then (snd d, O_RDONLY, 0) else (snd d, Z.lor O_WRONLY O_CREATE, 1).
Definition redirs_of (ds : list rd) : list redir := map redir_of ds.
Fixpoint line_cmd (l : line) : cmd :=
  match l with
  | LOne p n => Nat.iter n BACK (pipeline_cmd p)
  | LSeq p n l => LIST (Nat.iter n BACK (pipeline_cmd p)) (line_cmd l)
  end
with pipeline_cmd (p : pipeline) : cmd :=
  match p with
  | POne e => command_cmd e
  | PMore e p => PIPE (command_cmd e) (pipeline_cmd p)
  end
with command_cmd (e : command) : cmd :=
  match e with
  | Simple ds args => foldl redircmd (EXEC (map fst args)) (redirs_of ds ++ redirs_of (concat (map snd args)))
  | Block l ds => foldl redircmd (line_cmd l) (redirs_of ds)
  end.

(** Redirections are [<], [>] or [>>], and a command has fewer than ten words. *)
Definition rds_ok (ds : list rd) : Prop := Forall (fun d => fst d ∈ [60; 62; 43]) ds.
Fixpoint line_ok (l : line) : Prop :=
  match l with
  | LOne p n => pipeline_ok p
  | LSeq p n l => pipeline_ok p /\ line_ok l
  end
with pipeline_ok (p : pipeline) : Prop :=
  match p with
  | POne e => command_ok e
  | PMore e p => command_ok e /\ pipeline_ok p
  end
with command_ok (e : command) : Prop :=
  match e with
  | Simple ds args => rds_ok ds /\ Forall (fun a => rds_ok (snd a)) args /\ (length args < MAXARGS)%nat
  | Block l ds => line_ok l /\ rds_ok ds
  end.

Scheme line_mut := Induction for line Sort Prop
  with pipeline_mut := Induction for pipeline Sort Prop
  with command_mut := Induction for command Sort Prop.
Combined Scheme grammar_mut from line_mut, pipeline_mut, command_mut.

(** ** Tokens *)

Section Tokens.
Context (buf : list Z) (Hnul : 0 ∉ buf).
Notation es := (es buf).
Notation char_at := (char_at buf).
Notation skip_ws := (skip_ws buf).
Notation gettoken := (gettoken buf).
Notation peek := (peek buf).

Lemma char_at_end s : char_at s = 0 <-> (es <= s)%nat.
Proof.
  unfold Sh.char_at, Sh.es. rewrite nth_lookup. split.
  - destruct (buf !! s) eqn:E; cbn; [|intros _; by apply lookup_ge_None]. intros ->. by apply list_elem_of_lookup_2 in E.
  - intros H. by rewrite (lookup_ge_None_2 _ _ H).
Qed.

Lemma skip_spec P n s :
  (s <= skip buf P n s <= s + n)%nat /\ (forall k, (s <= k < skip buf P n s)%nat -> P (char_at k) = true) /\
  ((skip buf P n s < s + n)%nat -> P (char_at (skip buf P n s)) = false).
Proof.
  revert s. induction n as [|n IH]; intros s; cbn [skip].
  - split; [lia|]. split; intros; lia.
  - destruct (P (char_at s)) eqn:E; [|split; [lia|]; split; [intros; lia|done]].
    destruct (IH (S s)) as (H1 & H2 & H3). split; [lia|]. split; [|intros; apply H3; lia].
    intros k Hk. destruct (decide (k = s)) as [->|]; [done|]. apply H2. lia.
Qed.

Lemma skip_ws_spec s : (s <= es)%nat ->
  (s <= skip_ws s <= es)%nat /\ ((skip_ws s < es)%nat -> strchr_in whitespace (char_at (skip_ws s)) = false).
Proof.
  intros Hs. unfold Sh.skip_ws. destruct (skip_spec (strchr_in whitespace) (es - s) s) as (H1 & _ & H3).
  split; [lia|]. intros. apply H3. lia.
Qed.
Lemma skip_ws_idem s : (s <= es)%nat -> skip_ws (skip_ws s) = skip_ws s.
Proof.
  intros Hs. destruct (skip_ws_spec s Hs) as [H1 H2]. set (r := skip_ws s) in *.
  destruct (decide (r < es)%nat) as [Hr|Hr].
  - unfold Sh.skip_ws. destruct (es - r)%nat eqn:E; [lia|]. cbn [skip]. by rewrite (H2 Hr).
  - unfold Sh.skip_ws. replace (es - r)%nat with 0%nat by lia. done.
Qed.

(** What a token is: its kind and the bytes it spans. *)
Definition tok_ok (t : tok) : Prop :=
  (tq t < teq t <= es)%nat /\
  ((tk t = 97 /\ (forall k, (tq t <= k < teq t)%nat -> in_word (char_at k) = true) /\
    ((teq t < es)%nat -> in_word (char_at (teq t)) = false)) \/
   (tk t ∈ symbols /\ tk t = char_at (tq t)) \/ (tk t = 43 /\ char_at (tq t) = 62)).

Lemma gettoken_spec s : (s <= es)%nat -> exists t s', gettoken s = Ret t s' /\ tq t = skip_ws s /\ (teq t <= s' <= es)%nat /\
  if decide (skip_ws s = es) then tk t = 0 /\ s' = es else tk t <> 0 /\ tok_ok t.
Proof.
  intros Hs. destruct (skip_ws_spec s Hs) as [Hq Hws]. unfold Sh.gettoken. set (q := skip_ws s) in *. cbv zeta.
  destruct (Z.eqb_spec (char_at q) 0) as [E|E].
  { apply char_at_end in E. eexists _, _. split; [reflexivity|]. cbn [tk tq teq]. split; [done|].
    assert (q = es) as -> by lia. destruct (skip_ws_spec es) as [H1 _]; [lia|]. split; [lia|]. rewrite decide_True by done.
    split; [apply char_at_end; lia|lia]. }
  assert (Hlt : (q < es)%nat) by (destruct (decide (q < es)%nat); [done|]; exfalso; apply E, char_at_end; lia).
  assert (Hone : forall k e, k <> 0 -> (S q <= e <= es)%nat -> tok_ok (mk_tok k q e) ->
    exists t s', Ret (mk_tok k q e) (skip_ws e) = Ret t s' /\ tq t = q /\ (teq t <= s' <= es)%nat /\
      if decide (q = es) then tk t = 0 /\ s' = es else tk t <> 0 /\ tok_ok t).
  { intros k e Hk He Hok. eexists _, _. split; [reflexivity|]. cbn [tk tq teq]. split; [done|].
    destruct (skip_ws_spec e) as [H1 _]; [lia|]. split; [lia|]. by rewrite decide_False by lia. }
  destruct (strchr_in [124; 40; 41; 59; 38; 60] (char_at q)) eqn:Es.
  { apply Hone; [done|lia|]. split; [cbn; lia|]. right; left. cbn [tk tq]. split; [|done].
    unfold strchr_in, existsb in Es. unfold symbols. rewrite !elem_of_cons. lia. }
  destruct (Z.eqb_spec (char_at q) 62) as [E62|E62].
  { destruct (Z.eqb_spec (char_at (S q)) 62) as [E2|E2].
    - assert (S q < es)%nat by (destruct (decide (S q < es)%nat); [done|]; assert (char_at (S q) = 0) by (apply char_at_end; lia); lia).
      apply Hone; [done|lia|]. split; [cbn; lia|]. right; right. done.
    - apply Hone; [done|lia|]. split; [cbn; lia|]. right; left. cbn [tk tq]. split; [|done]. rewrite E62. unfold symbols. set_solver. }
  assert (Hw : in_word (char_at q) = true).
  { unfold in_word. rewrite (Hws Hlt). unfold strchr_in, symbols, existsb in *. lia. }
  destruct (skip_spec in_word (es - q) q) as (H1 & H2 & H3).
  assert (Hs1 : (S q <= skip buf in_word (es - q) q)%nat).
  { destruct (decide (skip buf in_word (es - q) q = q)) as [Eq|]; [|lia]. rewrite Eq in H3. rewrite H3 in Hw by lia. done. }
  apply Hone; [done|lia|]. split; [cbn; lia|]. left. split_and!; try done. cbn. intros. apply H3. lia.
Qed.

(** [toks ts s]: from [s] on the line holds the tokens [ts], and then ends. *)
Fixpoint toks (ts : list tok) (s : nat) : Prop :=
  (s <= es)%nat /\
  match ts with
  | [] => skip_ws s = es
  | t :: ts' => exists s', gettoken s = Ret t s' /\ tk t <> 0 /\ tok_ok t /\ (s <= tq t)%nat /\ (teq t <= s')%nat /\ toks ts' s'
  end.

Lemma toks_skip ts s : toks ts s -> toks ts (skip_ws s).
Proof.
  destruct ts as [|t ts]; intros [Hs H]; destruct (skip_ws_spec s Hs) as [Hq _].
  - split; [lia|]. by rewrite skip_ws_idem.
  - split; [lia|]. destruct H as (s' & E & Hk & Hok & Hle & Hle2 & H). exists s'.
    assert (E' : gettoken (skip_ws s) = gettoken s) by (unfold Sh.gettoken; by rewrite skip_ws_idem).
    rewrite E'. split_and!; try done. unfold Sh.gettoken in E. repeat case_match; injection E as <- _; cbn; lia.
Qed.

Lemma toks_exist s : (s <= es)%nat -> exists ts, toks ts s /\ (length ts <= es - s)%nat.
Proof.
  remember (es - s)%nat as n eqn:En. revert s En. induction (lt_wf n) as [n _ IH]. intros s -> Hs.
  destruct (gettoken_spec s Hs) as (t & s' & E & Eq & Hs' & H).
  case_decide as Hd; [exists []; cbn; split; [done|lia]|]. destruct H as [Hk Hok].
  pose proof (skip_ws_spec s Hs) as [Hq _]. destruct (proj1 Hok) as [Hlt _].
  destruct (IH (es - s')%nat ltac:(lia) s' eq_refl ltac:(lia)) as (ts & Hts & Hl).
  exists (t :: ts). split; [|cbn; lia]. cbn [toks]. split; [done|]. exists s'. split_and!; try done; lia.
Qed.

(** [on vs s]: the tokens from [s] on are [vs]. *)
Definition on (vs : list sym) (s : nat) : Prop := exists ts, toks ts s /\ map view ts = vs.
(** The next token starts with one of the symbols of [set]. *)
Definition next_in (set : list Z) (vs : list sym) : bool :=
  match vs with Y c :: _ => strchr_in set (if c =? 43 then 62 else c) | _ => false end.

Lemma gettoken_on v vs s : on (v :: vs) s -> exists t s', gettoken s = Ret t s' /\ view t = v /\ tk t <> 0 /\ on vs s'.
Proof.
  intros ([|t ts] & Hts & E); [done|]. injection E as <- <-. destruct Hts as (_ & s' & Eg & Hk & _ & _ & _ & Hts).
  exists t, s'. split_and!; try done. by exists ts.
Qed.
Lemma gettoken_end s : on [] s -> exists t s', gettoken s = Ret t s' /\ tk t = 0 /\ on [] s'.
Proof.
  intros ([|] & [Hs Hts] & E); [|done]. destruct (gettoken_spec s Hs) as (t & s' & Eg & _ & _ & H).
  rewrite decide_True in H by done. destruct H as [Hk ->]. exists t, es. split_and!; try done. exists []. split; [|done].
  split; [lia|]. destruct (skip_ws_spec es); lia.
Qed.

Lemma peek_on set vs s : on vs s -> set ⊆ symbols -> exists s', peek set s = Ret (next_in set vs) s' /\ on vs s'.
Proof.
  intros (ts & Hts & <-) Hset. exists (skip_ws s). split; [|exists ts; split; [by apply toks_skip|done]].
  unfold Sh.peek. f_equal. destruct ts as [|t ts].
  - destruct Hts as [Hs Hend]. cbn [map next_in]. rewrite Hend, (proj2 (char_at_end es)) by lia. done.
  - destruct Hts as (Hs & s' & Eg & Hk & Hok & _). destruct (gettoken_spec s Hs) as (t' & s'' & Eg' & Eq & _).
    rewrite Eg in Eg'. injection Eg' as <- <-. rewrite <- Eq. destruct Hok as [Hlt Hok].
    assert (Hc : char_at (tq t) <> 0) by (intros ?%char_at_end; lia).
    unfold ctrue. destruct (Z.eqb_spec (char_at (tq t)) 0); [done|]. cbn [negb andb map next_in]. unfold view.
    assert (Hno : forall c, c ∉ symbols -> strchr_in set c = false).
    { intros c Hc'. unfold strchr_in. destruct (existsb (Z.eqb c) set) eqn:Ex; [|done]. apply existsb_exists in Ex as (x & Hx & Hxc).
      apply Z.eqb_eq in Hxc as ->. apply list_elem_of_In, Hset in Hx. done. }
    destruct Hok as [(Ek & Hw & _)|[[Hin Ek]|[Ek E62]]].
    + rewrite Ek. cbn [Z.eqb Pos.eqb]. apply Hno. specialize (Hw (tq t) ltac:(lia)). unfold in_word, strchr_in, symbols, existsb in *.
      rewrite !elem_of_cons, elem_of_nil. lia.
    + rewrite <- Ek. unfold symbols in Hin. rewrite !elem_of_cons in Hin.
      destruct (Z.eqb_spec (tk t) 97) as [E97|]; [exfalso; rewrite E97 in Hin; set_solver|].
      cbn [next_in]. destruct (Z.eqb_spec (tk t) 43) as [E43|]; [exfalso; rewrite E43 in Hin; set_solver|done].
    + rewrite Ek, E62. done.
Qed.
End Tokens.
