(* ===== verification/ShParse.v ===== *)
(** The shell's parser accepts the sentences of its grammar and no others, terminates on
    every line, and leaves each word of the command as a C string. *)

From S2P Require Import Prelude CString Sh.

Section Parser.
Context (buf : list Z) (Hnul : 0 ∉ buf).
Notation es := (es buf).
Notation on := (on buf).
Notation gettoken := (gettoken buf).
Notation peek := (peek buf).

Lemma toks_length ts s : toks buf ts s -> (length ts + s <= es)%nat.
Proof.
  revert s. induction ts as [|t ts IH]; intros s [Hs H]; cbn; [lia|].
  destruct H as (s' & _ & _ & [[Hlt _] _] & H1 & H2 & H3). apply IH in H3. lia.
Qed.
Lemma on_length vs s : on vs s -> (length vs <= es)%nat.
Proof. intros (ts & Hts & <-). rewrite length_map. apply toks_length in Hts. lia. Qed.

(** *** Specifications over the tokens that are left

    [tspec m vs Q]: on the tokens [vs], [m] panics or returns with [Q]; it does not run
    out of fuel.  [tret m vs a vs']: it returns [a], leaving [vs']. *)
Definition tspec {A} (m : M nat A) (vs : list sym) (Q : A -> list sym -> Prop) : Prop :=
  forall s, on vs s ->
  match m s with Ret a s' => exists vs', on vs' s' /\ Q a vs' | Panic _ _ => True | _ => False end.
Definition tret {A} (m : M nat A) (vs : list sym) (a : A) (vs' : list sym) : Prop :=
  forall s, on vs s -> exists s', m s = Ret a s' /\ on vs' s'.

Lemma tspec_bind {A B} (m : M nat A) (f : A -> M nat B) vs Q :
  tspec m vs (fun a vs' => tspec (f a) vs' Q) -> tspec (m ≫= f) vs Q.
Proof.
  intros H s Hs. specialize (H s Hs). unfold mbind, M_MBind, M_bind. destruct (m s); try done.
  destruct H as (vs' & Hs' & H). by apply H.
Qed.
Lemma tspec_ret {A} (a : A) vs (Q : A -> list sym -> Prop) : Q a vs -> tspec (mret a) vs Q.
Proof. intros H s Hs. by exists vs. Qed.
Lemma tspec_panic {A} msg vs (Q : A -> list sym -> Prop) : tspec (panic msg) vs Q.
Proof. intros s Hs. done. Qed.
Lemma tspec_mono {A} (m : M nat A) vs (Q Q' : A -> list sym -> Prop) :
  tspec m vs Q -> (forall a vs', Q a vs' -> Q' a vs') -> tspec m vs Q'.
Proof. intros H HQ s Hs. specialize (H s Hs). destruct (m s); naive_solver. Qed.
Lemma tspec_peek set vs (Q : bool -> list sym -> Prop) : set ⊆ symbols -> Q (next_in set vs) vs -> tspec (peek set) vs Q.
Proof. intros Hset H s Hs. destruct (peek_on buf Hnul set vs s Hs Hset) as (s' & -> & Hs'). by exists vs. Qed.
Lemma tspec_gettoken v vs (Q : tok -> list sym -> Prop) :
  (forall t, view t = v -> tk t <> 0 -> Q t vs) -> tspec gettoken (v :: vs) Q.
Proof. intros H s Hs. destruct (gettoken_on buf v vs s Hs) as (t & s' & -> & Ev & Hk & Hs'). exists vs. auto. Qed.
Lemma tspec_end (Q : tok -> list sym -> Prop) : (forall t, tk t = 0 -> Q t []) -> tspec gettoken [] Q.
Proof. intros H s Hs. destruct (gettoken_end buf Hnul s Hs) as (t & s' & -> & Hk & Hs'). exists []. auto. Qed.
Lemma tspec_skip v vs {B} (k : M nat B) Q : tspec k vs Q -> tspec (gettoken ;; k) (v :: vs) Q.
Proof. intros H. apply tspec_bind, tspec_gettoken. auto. Qed.

Lemma tret_bind {A B} (m : M nat A) (f : A -> M nat B) vs a vs1 b vs2 :
  tret m vs a vs1 -> tret (f a) vs1 b vs2 -> tret (m ≫= f) vs b vs2.
Proof. intros H1 H2 s Hs. destruct (H1 s Hs) as (s1 & E & Hs1). rewrite (bind_eq _ _ _ _ _ E). by apply H2. Qed.
Lemma tret_ret {A} (a : A) vs : tret (mret a) vs a vs.
Proof. intros s Hs. by exists s. Qed.
Lemma tret_peek {B} set (f : bool -> M nat B) vs b vs' :
  set ⊆ symbols -> tret (f (next_in set vs)) vs b vs' -> tret (peek set ≫= f) vs b vs'.
Proof. intros Hset. apply tret_bind. intros s Hs. by apply peek_on. Qed.
Lemma tret_gettoken {B} v vs (f : tok -> M nat B) b vs' :
  (forall t, view t = v -> tk t <> 0 -> tret (f t) vs b vs') -> tret (gettoken ≫= f) (v :: vs) b vs'.
Proof.
  intros H s Hs. destruct (gettoken_on buf v vs s Hs) as (t & s' & E & Ev & Hk & Hs'). rewrite (bind_eq _ _ _ _ _ E). by apply H.
Qed.
Lemma tret_end {B} (f : tok -> M nat B) b vs' : (forall t, tk t = 0 -> tret (f t) [] b vs') -> tret (gettoken ≫= f) [] b vs'.
Proof.
  intros H s Hs. destruct (gettoken_end buf Hnul s Hs) as (t & s' & E & Hk & Hs'). rewrite (bind_eq _ _ _ _ _ E). by apply H.
Qed.

Lemma view_word t w : view t = W w -> tk t = 97 /\ (tq t, teq t) = w.
Proof. unfold view. destruct (Z.eqb_spec (tk t) 97); [|done]. by intros [= <-]. Qed.
Lemma view_sym t c : view t = Y c -> tk t = c /\ c <> 97.
Proof. unfold view. destruct (Z.eqb_spec (tk t) 97); [done|]. by intros [= <-]. Qed.

Ltac subsym := unfold symbols; intros ? ?; repeat (rewrite elem_of_cons in * ); rewrite ?elem_of_nil in *; tauto.
Ltac tpeek := apply tspec_bind, tspec_peek; [subsym|]; cbv beta.
Ltac rpeek := apply tret_peek; [subsym|].

Lemma next_in_sym set vs : next_in set vs = true -> exists c vs', vs = Y c :: vs' /\ strchr_in set (if c =? 43 then 62 else c) = true.
Proof. destruct vs as [|[w|c] vs]; cbn; try done. intros H. by exists c, vs. Qed.
(** For a set of symbols other than [>], the next token is one of them. *)
Lemma next_in_one x vs : x <> 62 -> next_in [x] vs = true -> exists vs', vs = Y x :: vs'.
Proof.
  intros Hx (c & vs' & -> & H)%next_in_sym. exists vs'. unfold strchr_in, existsb in H. rewrite orb_false_r in H.
  apply Z.eqb_eq in H. destruct (Z.eqb_spec c 43); [lia|]. by subst.
Qed.

(** *** Redirections and words *)

Lemma parseredirs_sound fuel rs vs : (length vs < fuel)%nat ->
  tspec (parseredirs buf fuel rs) vs (fun rs' vs' => exists ds, vs = flat_redirs ds ++ vs' /\ rs' = rs ++ redirs_of ds /\ rds_ok ds).
Proof.
  revert rs vs. induction fuel as [|f IH]; intros rs vs Hf; [lia|]. cbn [parseredirs]. tpeek.
  destruct (next_in [60; 62] vs) eqn:En.
  2: { apply tspec_ret. exists []. cbn. rewrite app_nil_r. split_and!; try done. apply Forall_nil_2. }
  destruct (next_in_sym _ _ En) as (c & vs1 & -> & Hc). apply tspec_bind, tspec_gettoken. intros t [Et Hc97]%view_sym Hk.
  assert (Hc3 : c = 60 \/ c = 62 \/ c = 43) by (unfold strchr_in, existsb in Hc; destruct (Z.eqb_spec c 43); lia).
  apply tspec_bind. destruct vs1 as [|[w|c1] vs1].
  - apply tspec_end. intros t' ->. apply tspec_panic.
  - apply tspec_gettoken. intros t' [Et' Ew]%view_word Hk'. rewrite Et', Et, Ew. change (97 =? 97) with true. cbn [negb].
    assert (Hgo : forall r, redir_of (c, w) = r -> tspec (parseredirs buf f (rs ++ [r])) vs1
      (fun rs' vs' => exists ds, Y c :: W w :: vs1 = flat_redirs ds ++ vs' /\ rs' = rs ++ redirs_of ds /\ rds_ok ds)).
    { intros r Hr. eapply tspec_mono; [apply IH; cbn in Hf; lia|]. intros rs' vs' (ds & -> & -> & Hok).
      exists ((c, w) :: ds). split; [done|]. split; [cbn; by rewrite Hr, <- (assoc (++))|]. constructor; [|done]. cbn. set_solver. }
    destruct (Z.eqb_spec c 60) as [->|]; [by apply Hgo|].
    replace ((c =? 62) || (c =? 43)) with true by lia. apply Hgo. unfold redir_of. cbn [fst snd].
    by destruct (Z.eqb_spec c 60).
  - apply tspec_gettoken. intros t' [Et' Hc']%view_sym Hk'. rewrite Et'. destruct (Z.eqb_spec c1 97); [done|]. apply tspec_panic.
Qed.

Lemma parseredirs_complete fuel rs ds vs : rds_ok ds -> next_in [60; 62] vs = false -> (length ds < fuel)%nat ->
  tret (parseredirs buf fuel rs) (flat_redirs ds ++ vs) (rs ++ redirs_of ds) vs.
Proof.
  revert rs ds. induction fuel as [|f IH]; intros rs ds Hok Hn Hf; [lia|]. cbn [parseredirs]. rpeek.
  destruct ds as [|[c w] ds].
  - cbn [flat_redirs map concat app]. rewrite Hn. cbn. rewrite app_nil_r. apply tret_ret.
  - apply Forall_cons in Hok as [Hc Hok]. cbn [fst] in Hc.
    assert (En : next_in [60; 62] (flat_redirs (((c, w) : rd) :: ds) ++ vs) = true).
    { rewrite !elem_of_cons, elem_of_nil in Hc. by destruct Hc as [->|[->|[->|[]]]]. }
    rewrite En. change (flat_redirs (((c, w) : rd) :: ds) ++ vs) with (Y c :: W w :: flat_redirs ds ++ vs).
    apply tret_gettoken. intros t [Et _]%view_sym _. apply tret_gettoken. intros t' [Et' Ew]%view_word _.
    rewrite Et', Et, Ew. change (97 =? 97) with true. cbn [negb]. cbn in Hf.
    assert (Hgo : forall r, redir_of (c, w) = r -> tret (parseredirs buf f (rs ++ [r])) (flat_redirs ds ++ vs) (rs ++ redirs_of (((c, w) : rd) :: ds)) vs).
    { intros r Hr. cbn [redirs_of map]. rewrite Hr. change (r :: map redir_of ds) with ([r] ++ redirs_of ds). rewrite (assoc (++)).
      apply IH; [done|done|lia]. }
    rewrite !elem_of_cons, elem_of_nil in Hc. destruct (Z.eqb_spec c 60) as [->|]; [by apply Hgo|].
    replace ((c =? 62) || (c =? 43)) with true by lia. apply Hgo. unfold redir_of. cbn [fst snd].
    by destruct (Z.eqb_spec c 60).
Qed.

Lemma parseargs_sound fuel argv rs vs : (length vs < fuel)%nat -> (length vs <= es)%nat -> (length argv < MAXARGS)%nat ->
  tspec (parseargs buf fuel argv rs) vs (fun c vs' => exists args, vs = flat_args args ++ vs' /\
    c = foldl redircmd (EXEC (argv ++ map fst args)) (rs ++ redirs_of (concat (map snd args))) /\
    Forall (fun a => rds_ok (snd a)) args /\ (length argv + length args < MAXARGS)%nat).
Proof.
  revert argv rs vs. induction fuel as [|f IH]; intros argv rs vs Hf Hes Ha; [lia|]. cbn [parseargs]. tpeek.
  assert (Hstop : tspec (mret (foldl redircmd (EXEC argv) rs)) vs (fun c vs' => exists args, vs = flat_args args ++ vs' /\
    c = foldl redircmd (EXEC (argv ++ map fst args)) (rs ++ redirs_of (concat (map snd args))) /\
    Forall (fun a => rds_ok (snd a)) args /\ (length argv + length args < MAXARGS)%nat)).
  { apply tspec_ret. exists []. cbn. rewrite !app_nil_r. split_and!; try done; lia. }
  destruct (next_in _ vs); [done|]. apply tspec_bind. destruct vs as [|[w|c] vs].
  - apply tspec_end. intros t ->. done.
  - apply tspec_gettoken. intros t [Et Ew]%view_word Hk. rewrite Et, Ew. change (97 =? 0) with false. change (97 =? 97) with true. cbn [negb].
    case_bool_decide as Hm; [apply tspec_panic|]. rewrite length_app in Hm. cbn in Hm, Hf, Hes.
    apply tspec_bind. eapply tspec_mono; [apply parseredirs_sound; lia|]. cbv beta. intros rs' vs' (ds & -> & -> & Hok).
    rewrite length_app in *. eapply tspec_mono; [apply IH; try (rewrite length_app; cbn); lia|]. cbv beta.
    intros c vs'' (args & -> & -> & Hoks & Hl). exists ((w, ds) :: args). split; [cbn; by rewrite <- (assoc (++))|]. split_and!.
    + cbn. unfold redirs_of. rewrite !map_app, <- !(assoc (++)). done.
    + by constructor.
    + rewrite length_app in Hl. cbn in *. lia.
  - apply tspec_gettoken. intros t [Et Hc]%view_sym Hk. rewrite Et in *. destruct (Z.eqb_spec c 0); [done|].
    destruct (Z.eqb_spec c 97); [done|]. apply tspec_panic.
Qed.

Lemma flat_redirs_length ds : length (flat_redirs ds) = (2 * length ds)%nat.
Proof. unfold flat_redirs. induction ds as [|d ds IH]; cbn in *; lia. Qed.

(** What may follow a command. *)
Definition ends (set : list Z) (vs : list sym) : Prop := vs = [] \/ next_in set vs = true.
Lemma ends_weaken set set' vs : ends set vs -> set ⊆ set' -> ends set' vs.
Proof.
  intros [->|H] Hs; [by left|]. right. destruct (next_in_sym _ _ H) as (c & vs' & -> & Hc). cbn. unfold strchr_in in *.
  apply existsb_exists in Hc as (x & Hx & E). apply existsb_exists. exists x. split; [|done]. apply list_elem_of_In, Hs. by apply list_elem_of_In.
Qed.
Lemma ends_disjoint set set' vs : ends set vs -> (forall x, x ∈ set -> x ∉ set') -> next_in set' vs = false.
Proof.
  intros [->|H] Hd; [done|]. destruct (next_in_sym _ _ H) as (c & vs' & -> & Hc). cbn. unfold strchr_in in *.
  apply existsb_exists in Hc as (x & Hx & E). apply Z.eqb_eq in E. rewrite E.
  destruct (existsb (Z.eqb x) set') eqn:E'; [|done]. apply existsb_exists in E' as (y & Hy & Ey). apply Z.eqb_eq in Ey as ->.
  exfalso. apply (Hd y); by apply list_elem_of_In.
Qed.
Ltac disj := intros ?; rewrite !elem_of_cons, !elem_of_nil; lia.

Lemma parseargs_complete fuel argv rs args vs :
  Forall (fun a => rds_ok (snd a)) args -> (length argv + length args < MAXARGS)%nat -> ends [124; 41; 38; 59] vs ->
  (length (flat_args args ++ vs) <= es)%nat -> (length args < fuel)%nat ->
  tret (parseargs buf fuel argv rs) (flat_args args ++ vs)
    (foldl redircmd (EXEC (argv ++ map fst args)) (rs ++ redirs_of (concat (map snd args)))) vs.
Proof.
  revert argv rs args. induction fuel as [|f IH]; intros argv rs args Hok Ha He Hes Hf; [lia|]. cbn [parseargs]. rpeek.
  destruct args as [|[w ds] args].
  - cbn [flat_args map concat app]. unfold redirs_of. cbn [map]. rewrite !app_nil_r. destruct He as [->|He]; [|rewrite He; apply tret_ret].
    apply tret_end. intros t ->. apply tret_ret.
  - apply Forall_cons in Hok as [Hds Hok]. cbn [snd] in Hds. cbn [flat_args map concat fst snd app next_in] in Hes |- *.
    apply tret_gettoken. intros t [Et Ew]%view_word _. rewrite Et, Ew. change (97 =? 0) with false. change (97 =? 97) with true. cbn [negb].
    cbn in Ha, Hf. rewrite bool_decide_eq_false_2 by (rewrite length_app; cbn; lia).
    fold (flat_args args) in Hes |- *. rewrite <- (assoc (++)) in Hes |- *. cbn in Hes. rewrite length_app in Hes.
    rewrite flat_redirs_length in Hes.
    assert (Hnext : next_in [60; 62] (flat_args args ++ vs) = false).
    { destruct args as [|[w' ds'] args]; [|done]. eapply ends_disjoint; [exact He|disj]. }
    eapply tret_bind; [apply parseredirs_complete; [done|done|lia]|].
    replace (argv ++ w :: map fst args) with ((argv ++ [w]) ++ map fst args) by (by rewrite <- (assoc (++))).
    unfold redirs_of. rewrite map_app, (assoc (++)). apply IH; try done; [rewrite length_app; cbn; lia|lia|lia].
Qed.

(** *** Lines, pipelines and commands *)

Lemma parseback_sound fuel c vs : (length vs < fuel)%nat ->
  tspec (parseback buf fuel c) vs (fun c' vs' => exists n, vs = replicate n (Y 38) ++ vs' /\ c' = Nat.iter n BACK c).
Proof.
  revert c vs. induction fuel as [|f IH]; intros c vs Hf; [lia|]. cbn [parseback]. tpeek.
  destruct (next_in [38] vs) eqn:En; [|apply tspec_ret; by exists 0%nat].
  destruct (next_in_one 38 vs ltac:(lia) En) as [vs1 ->]. apply tspec_skip. eapply tspec_mono; [apply IH; cbn in Hf; lia|].
  cbv beta. intros c' vs' (n & -> & ->). exists (S n). split; [done|]. by rewrite Nat.iter_succ_r.
Qed.
Lemma parseback_complete fuel c n vs : next_in [38] vs = false -> (n < fuel)%nat ->
  tret (parseback buf fuel c) (replicate n (Y 38) ++ vs) (Nat.iter n BACK c) vs.
Proof.
  revert c n. induction fuel as [|f IH]; intros c n Hn Hf; [lia|]. cbn [parseback]. rpeek. destruct n as [|n].
  - cbn [replicate app]. rewrite Hn. apply tret_ret.
  - change (next_in [38] (replicate (S n) (Y 38) ++ vs)) with true. cbv iota. cbn [replicate app].
    apply tret_gettoken. intros t _ _. rewrite Nat.iter_succ_r. apply IH; [done|lia].
Qed.

(** What the four routines return, on tokens for which the fuel is enough. *)
Definition sound {A} (flat : A -> list sym) (meaning : A -> cmd) (ok : A -> Prop) (rank : nat) (parse : nat -> M nat cmd) (fuel : nat) : Prop :=
  forall vs, (length vs <= es)%nat -> (4 * length vs + rank <= fuel)%nat ->
  tspec (parse fuel) vs (fun c vs' => exists x, vs = flat x ++ vs' /\ c = meaning x /\ ok x).
Definition sound_all (fuel : nat) : Prop :=
  sound flat_line line_cmd line_ok 4 (parseline buf) fuel /\
  sound flat_pipeline pipeline_cmd pipeline_ok 3 (parsepipe buf) fuel /\
  sound flat_command command_cmd command_ok 2 (parseexec buf) fuel /\
  (forall vs, (length vs <= es)%nat -> (4 * length vs + 1 <= fuel)%nat ->
   tspec (parseblock buf fuel) vs (fun c vs' => exists x, vs = flat_command x ++ vs' /\ c = command_cmd x /\ command_ok x)).

Lemma parseline_sound f : sound_all f -> sound flat_line line_cmd line_ok 4 (parseline buf) (S f).
Proof.
  intros (Hline & Hpipe & _) vs Hes Hf. cbn [parseline]. apply tspec_bind.
  eapply tspec_mono; [apply Hpipe; lia|]. cbv beta. intros c vs1 (p & -> & -> & Hp). rewrite length_app in *.
  apply tspec_bind. eapply tspec_mono; [apply parseback_sound; lia|]. cbv beta. intros c vs2 (n & -> & ->). rewrite length_app in *.
  tpeek. destruct (next_in [59] vs2) eqn:En.
  - destruct (next_in_one 59 vs2 ltac:(lia) En) as [vs3 ->]. cbn [length] in *. apply tspec_skip, tspec_bind.
    eapply tspec_mono; [apply Hline; lia|]. cbv beta. intros c vs4 (l & -> & -> & Hl). apply tspec_ret.
    exists (LSeq p n l). cbn. rewrite <- !(assoc (++)). done.
  - apply tspec_ret. exists (LOne p n). cbn. by rewrite <- !(assoc (++)).
Qed.
Lemma parsepipe_sound f : sound_all f -> sound flat_pipeline pipeline_cmd pipeline_ok 3 (parsepipe buf) (S f).
Proof.
  intros (_ & Hpipe & Hexec & _) vs Hes Hf. cbn [parsepipe]. apply tspec_bind.
  eapply tspec_mono; [apply Hexec; lia|]. cbv beta. intros c vs1 (e & -> & -> & He). rewrite length_app in *.
  tpeek. destruct (next_in [124] vs1) eqn:En.
  - destruct (next_in_one 124 vs1 ltac:(lia) En) as [vs3 ->]. cbn [length] in *. apply tspec_skip, tspec_bind.
    eapply tspec_mono; [apply Hpipe; lia|]. cbv beta. intros c vs4 (p & -> & -> & Hp). apply tspec_ret.
    exists (PMore e p). cbn. rewrite <- !(assoc (++)). done.
  - apply tspec_ret. by exists (POne e).
Qed.
Lemma parseexec_sound f : sound_all f -> sound flat_command command_cmd command_ok 2 (parseexec buf) (S f).
Proof.
  intros (_ & _ & _ & Hblock) vs Hes Hf. cbn [parseexec]. tpeek.
  destruct (next_in [40] vs); [apply Hblock; lia|]. apply tspec_bind.
  eapply tspec_mono; [apply parseredirs_sound; lia|]. cbv beta. intros rs vs1 (ds & -> & -> & Hds). rewrite length_app in *.
  eapply tspec_mono; [apply parseargs_sound; unfold MAXARGS; cbn; lia|]. cbv beta. intros c vs2 (args & -> & -> & Hargs & Hl).
  exists (Simple ds args). cbn. rewrite <- !(assoc (++)). done.
Qed.
Lemma parseblock_sound f : sound_all f -> forall vs, (length vs <= es)%nat -> (4 * length vs + 1 <= S f)%nat ->
  tspec (parseblock buf (S f)) vs (fun c vs' => exists x, vs = flat_command x ++ vs' /\ c = command_cmd x /\ command_ok x).
Proof.
  intros (Hline & _) vs Hes Hf. cbn [parseblock]. tpeek.
  destruct (next_in [40] vs) eqn:En; [|apply tspec_panic]. cbn [negb].
  destruct (next_in_one 40 vs ltac:(lia) En) as [vs1 ->]. cbn [length] in *. apply tspec_skip, tspec_bind.
  eapply tspec_mono; [apply Hline; lia|]. cbv beta. intros c vs2 (l & -> & -> & Hl). rewrite length_app in *. tpeek.
  destruct (next_in [41] vs2) eqn:En2; [|apply tspec_panic]. cbn [negb].
  destruct (next_in_one 41 vs2 ltac:(lia) En2) as [vs3 ->]. cbn [length] in *. apply tspec_skip, tspec_bind.
  eapply tspec_mono; [apply parseredirs_sound; lia|]. cbv beta. intros rs vs4 (ds & -> & -> & Hds). apply tspec_ret.
  exists (Block l ds). cbn. rewrite <- !(assoc (++)). cbn. rewrite <- ?(assoc (++)). done.
Qed.
Lemma parse_sound fuel : sound_all fuel.
Proof.
  induction fuel as [|f IH].
  - split_and!; intros vs ? ?; lia.
  - split_and!; [by apply parseline_sound|by apply parsepipe_sound|by apply parseexec_sound|by apply parseblock_sound].
Qed.

(** Sentences are accepted. *)
Definition complete {A} (flat : A -> list sym) (meaning : A -> cmd) (ok : A -> Prop) (rank : nat) (follow : list Z)
    (parse : nat -> M nat cmd) (x : A) : Prop :=
  ok x -> forall fuel vs, ends follow vs -> (length (flat x ++ vs) <= es)%nat -> (4 * length (flat x ++ vs) + rank <= fuel)%nat ->
  tret (parse fuel) (flat x ++ vs) (meaning x) vs.

Ltac fuel_step fuel := destruct fuel as [|fuel]; [lia|].
Lemma parse_complete :
  (forall l, complete flat_line line_cmd line_ok 4 [41] (parseline buf) l) /\
  (forall p, complete flat_pipeline pipeline_cmd pipeline_ok 3 [38; 59; 41] (parsepipe buf) p) /\
  (forall e, complete flat_command command_cmd command_ok 2 [124; 38; 59; 41] (parseexec buf) e).
Proof.
  apply grammar_mut; unfold complete.
  - intros p IHp n Hok fuel vs He Hes Hf. fuel_step fuel. cbn [parseline flat_line line_cmd] in *.
    rewrite <- (assoc (++)) in *.
    assert (Hf2 : ends [38; 59; 41] (replicate n (Y 38) ++ vs)).
    { destruct n; [|by right]. eapply ends_weaken; [exact He|set_solver]. }
    eapply tret_bind; [apply IHp; [done|done|done|lia]|]. rewrite !length_app, length_replicate in *.
    eapply tret_bind; [apply parseback_complete; [eapply ends_disjoint; [exact He|disj]|lia]|].
    rpeek. rewrite (ends_disjoint [41] [59]) by (done || disj). apply tret_ret.
  - intros p IHp n l IHl [Hokp Hokl] fuel vs He Hes Hf. fuel_step fuel. cbn [parseline flat_line line_cmd] in *.
    rewrite <- !(assoc (++)) in *. cbn [app] in *.
    eapply tret_bind; [apply IHp; [done|by destruct n; right|done|lia]|]. rewrite !length_app, length_replicate in *. cbn [length] in *. rewrite length_app in *.
    eapply tret_bind; [apply parseback_complete; [done|lia]|].
    rpeek. change (next_in [59] (Y 59 :: flat_line l ++ vs)) with true. cbv iota. apply tret_gettoken. intros t _ _.
    eapply tret_bind; [|apply tret_ret]. apply IHl; [done|done|rewrite length_app; lia|rewrite length_app; lia].
  - intros e IHe Hok fuel vs He Hes Hf. fuel_step fuel. cbn [parsepipe flat_pipeline pipeline_cmd] in *.
    eapply tret_bind; [apply IHe; [done|eapply ends_weaken; [exact He|set_solver]|done|lia]|].
    rpeek. rewrite (ends_disjoint [38; 59; 41] [124]) by (done || disj). apply tret_ret.
  - intros e IHe p IHp [Hoke Hokp] fuel vs He Hes Hf. fuel_step fuel. cbn [parsepipe flat_pipeline pipeline_cmd] in *.
    rewrite <- !(assoc (++)) in *. cbn [app] in *.
    eapply tret_bind; [apply IHe; [done|by right|done|lia]|]. rewrite !length_app in *. cbn [length] in *. rewrite length_app in *.
    rpeek. change (next_in [124] (Y 124 :: flat_pipeline p ++ vs)) with true. cbv iota. apply tret_gettoken. intros t _ _.
    eapply tret_bind; [|apply tret_ret]. apply IHp; [done|done|rewrite length_app; lia|rewrite length_app; lia].
  - intros ds args (Hds & Hargs & Hl) fuel vs He Hes Hf. fuel_step fuel. cbn [parseexec flat_command command_cmd] in *.
    rewrite <- !(assoc (++)) in *.
    assert (Hn : forall set, (forall x, x ∈ [124; 38; 59; 41] -> x ∉ set) -> next_in set (flat_args args ++ vs) = false).
    { intros set Hset. destruct args as [|[w ds'] args]; [|done]. eapply ends_disjoint; [exact He|done]. }
    assert (Hn40 : next_in [40] (flat_redirs ds ++ flat_args args ++ vs) = false).
    { destruct ds as [|[c w] ds]; [apply Hn; disj|]. apply Forall_cons in Hds as [Hc _]. cbn in Hc |- *.
      unfold strchr_in, existsb. rewrite !elem_of_cons, elem_of_nil in Hc. destruct (Z.eqb_spec c 43); lia. }
    rewrite !length_app, flat_redirs_length in *. rpeek. rewrite Hn40.
    eapply tret_bind; [apply parseredirs_complete; [done|apply Hn; disj|lia]|]. cbn [app].
    assert (Ha : (length args <= length (flat_args args))%nat).
    { unfold flat_args. clear. induction args; cbn in *; [lia|]. rewrite length_app. lia. }
    apply (parseargs_complete (S es) [] (redirs_of ds) args vs);
      [done|done|eapply ends_weaken; [exact He|set_solver]|rewrite length_app; lia|lia].
  - intros l IHl ds [Hl Hds] fuel vs He Hes Hf. fuel_step fuel. cbn [parseexec flat_command command_cmd] in *. rpeek.
    cbn [app] in *. change (next_in [40] (Y 40 :: (flat_line l ++ Y 41 :: flat_redirs ds) ++ vs)) with true. cbv iota.
    fuel_step fuel. cbn [parseblock]. rpeek. change (next_in [40] (Y 40 :: (flat_line l ++ Y 41 :: flat_redirs ds) ++ vs)) with true. cbn [negb].
    apply tret_gettoken. intros t _ _. rewrite <- !(assoc (++)) in *. cbn [app] in *.
    cbn [length] in *. eapply tret_bind; [apply IHl; [done|by right|lia|lia]|]. rewrite !length_app in *. cbn [length] in *. rewrite length_app in *.
    rpeek. change (next_in [41] (Y 41 :: flat_redirs ds ++ vs)) with true. cbn [negb]. apply tret_gettoken. intros t' _ _.
    rewrite flat_redirs_length in *. eapply tret_bind; [apply parseredirs_complete; [done|eapply ends_disjoint; [exact He|disj]|lia]|]. apply tret_ret.
Qed.

Lemma on_end vs s : on vs s -> (skip_ws buf s = es <-> vs = []).
Proof.
  intros ([|t ts] & Hts & <-); [by destruct Hts|]. split; [|done]. intros E. exfalso.
  destruct Hts as (Hs & s' & Eg & Hk & Hok & _). destruct (gettoken_spec buf Hnul s Hs) as (t' & s'' & Eg' & _ & _ & H).
  rewrite Eg in Eg'. injection Eg' as <- <-. rewrite decide_True in H by done. by destruct H.
Qed.

Lemma parse_line_spec vs : on vs 0%nat ->
  match parse_line buf 0%nat with
  | Ret c _ => exists l, line_ok l /\ flat_line l = vs /\ line_cmd l = c
  | Panic _ _ => forall l, line_ok l -> flat_line l <> vs
  | _ => False
  end.
Proof.
  intros Hvs. pose proof (on_length _ _ Hvs) as Hl. unfold parse_line.
  destruct (parse_sound (4 * es + 4)) as (Hs & _). specialize (Hs vs ltac:(lia) ltac:(lia) 0%nat Hvs).
  assert (Hc : forall l, line_ok l -> flat_line l = vs -> exists s', parseline buf (4 * es + 4) 0%nat = Ret (line_cmd l) s' /\ on [] s').
  { intros l Hok <-. destruct (proj1 parse_complete l Hok (4 * es + 4)%nat [] ltac:(by left)) with (s := 0%nat) as (s' & E & Hs');
      rewrite ?app_nil_r; try done; [lia|]. by exists s'. }
  unfold mbind, M_MBind, M_bind in *. destruct (parseline buf (4 * es + 4) 0%nat) as [c s'|msg s'| |]; try done.
  - destruct Hs as (vs' & Hs' & l & -> & -> & Hok). unfold get, Sh.peek. case_bool_decide as He.
    + apply (on_end _ _ Hs') in He as ->. exists l. by rewrite app_nil_r.
    + intros l' Hok' E. destruct (Hc l' Hok' E) as (s'' & [= _ <-] & Hs''). by apply He, (on_end _ _ Hs'').
  - intros l Hok E. by destruct (Hc l Hok E) as (s'' & ? & _).
Qed.

(** *** The words of a command *)

Fixpoint words_of (c : cmd) : list (nat * nat) :=
  match c with
  | EXEC argv => argv
  | REDIR c f _ _ => words_of c ++ [f]
  | PIPE l r | LIST l r => words_of l ++ words_of r
  | BACK c => words_of c
  end.

Lemma words_redirs c rs : words_of (foldl redircmd c rs) = words_of c ++ map (fun r => fst (fst r)) rs.
Proof.
  revert c. induction rs as [|[[f m] d] rs IH]; intros c; cbn; [by rewrite app_nil_r|]. rewrite IH. cbn. by rewrite <- (assoc (++)).
Qed.
Lemma words_back n c : words_of (Nat.iter n BACK c) = words_of c.
Proof. induction n; cbn; done. Qed.
Lemma flat_redirs_words ds w : w ∈ map (fun r => fst (fst r)) (redirs_of ds) -> W w ∈ flat_redirs ds.
Proof.
  unfold flat_redirs, redirs_of. induction ds as [|[c w'] ds IH]; cbn; [by intros ?%elem_of_nil|]. rewrite !elem_of_cons. intros [->|H]; [|auto].
  right. left. unfold redir_of. cbn. by destruct (c =? 60).
Qed.

Lemma command_words :
  (forall l w, w ∈ words_of (line_cmd l) -> W w ∈ flat_line l) /\
  (forall p w, w ∈ words_of (pipeline_cmd p) -> W w ∈ flat_pipeline p) /\
  (forall e w, w ∈ words_of (command_cmd e) -> W w ∈ flat_command e).
Proof.
  apply grammar_mut; cbn.
  - intros p IH n w. rewrite words_back, elem_of_app. auto.
  - intros p IHp n l IHl w. rewrite words_back, !elem_of_app, elem_of_cons. intros [|]; auto.
  - auto.
  - intros e IHe p IHp w. rewrite !elem_of_app, elem_of_cons. intros [|]; auto.
  - intros ds args w. rewrite words_redirs, elem_of_app, map_app, elem_of_app. intros [H|[H|H]]; cbn in *.
    + rewrite elem_of_app. right. apply list_elem_of_fmap in H as ([w' ds'] & -> & H). unfold flat_args.
      apply list_elem_of_In, in_concat. eexists. split; [apply in_map_iff; exists (w', ds'); split; [reflexivity|by apply list_elem_of_In]|]. by left.
    + rewrite elem_of_app. left. by apply flat_redirs_words.
    + rewrite elem_of_app. right. induction args as [|[w' ds'] args IH]; [by apply elem_of_nil in H|]. unfold redirs_of in H. cbn in H. rewrite !map_app, elem_of_app in H.
      cbn. rewrite elem_of_cons, elem_of_app. destruct H as [H|H]; [right; left; by apply flat_redirs_words|]. right. right. by apply IH.
  - intros l IHl ds w. rewrite words_redirs, elem_of_cons, !elem_of_app, elem_of_cons. intros [H|H]; [auto|].
    right. right. right. by apply flat_redirs_words.
Qed.

Lemma toks_after ts s t : toks buf ts s -> t ∈ ts -> (s <= tq t)%nat /\ tok_ok buf t.
Proof.
  revert s. induction ts as [|t' ts IH]; intros s Hts; [by intros ?%elem_of_nil|]; rewrite elem_of_cons.
  destruct Hts as (Hs & s' & _ & _ & Hok & H1 & H2 & H3). intros [->|Hin]; [done|]. destruct (IH _ H3 Hin). destruct Hok as [[? ?] _]. split; [lia|done].
Qed.
Lemma toks_apart ts s t t' : toks buf ts s -> t ∈ ts -> t' ∈ ts -> t = t' \/ (teq t <= tq t')%nat \/ (teq t' <= tq t)%nat.
Proof.
  revert s. induction ts as [|t0 ts IH]; intros s Hts; [by intros ?%elem_of_nil|]; rewrite !elem_of_cons.
  destruct Hts as (Hs & s' & _ & _ & _ & _ & H2 & H3). intros [->|Hin] [->|Hin']; [by left| | |by eapply IH].
  - right. left. destruct (toks_after _ _ _ H3 Hin'). lia.
  - right. right. destruct (toks_after _ _ _ H3 Hin). lia.
Qed.

Lemma nulterminate_spec c mem :
  length (nulterminate c mem) = length mem /\
  forall k, (k < length mem)%nat -> nulterminate c mem !! k = if decide (k ∈ map snd (words_of c)) then Some 0 else mem !! k.
Proof.
  assert (Hins : forall (mem : list Z) e k, (k < length mem)%nat -> <[e := 0]> mem !! k = if decide (k = e) then Some 0 else mem !! k).
  { intros m e k Hk. case_decide; [subst; by apply list_lookup_insert_eq|by apply list_lookup_insert_ne]. }
  revert mem. induction c as [argv|c IH f m d|l IHl r IHr|l IHl r IHr|c IH]; intros mem; cbn [nulterminate words_of]; [|..|done].
  - revert mem. induction argv as [|a argv IH]; intros mem; cbn [foldl]; [done|].
    destruct (IH (<[snd a := 0]> mem)) as [E1 E2]. rewrite length_insert in *. split; [done|]. intros k Hk. rewrite E2, Hins by done.
    cbn [map]. repeat case_decide; rewrite ?elem_of_cons in *; naive_solver.
  - destruct (IH mem) as [E1 E2]. rewrite length_insert. split; [done|]. intros k Hk. rewrite Hins, E2 by (done || lia).
    rewrite map_app. repeat case_decide; rewrite ?elem_of_app in *; cbn in *; rewrite ?list_elem_of_singleton in *; naive_solver.
  - destruct (IHl mem) as [L1 L2], (IHr (nulterminate l mem)) as [R1 R2]. split; [lia|]. intros k Hk. rewrite R2, L2 by lia.
    rewrite map_app. repeat case_decide; rewrite ?elem_of_app in *; naive_solver.
  - destruct (IHl mem) as [L1 L2], (IHr (nulterminate l mem)) as [R1 R2]. split; [lia|]. intros k Hk. rewrite R2, L2 by lia.
    rewrite map_app. repeat case_decide; rewrite ?elem_of_app in *; naive_solver.
Qed.
End Parser.

(** The bytes of the line between two positions. *)
Definition text (buf : list Z) (w : nat * nat) : list Z := take (snd w - fst w) (drop (fst w) buf).
Lemma word_terminated buf c vs w : 0 ∉ buf -> on buf vs 0%nat -> (forall w, w ∈ words_of c -> W w ∈ vs) -> w ∈ words_of c ->
  (fst w < snd w <= length buf)%nat /\ upto_nul (drop (fst w) (nulterminate c (buf ++ [0]))) = text buf w /\ Forall (fun c => in_word c = true) (text buf w).
Proof.
  intros Hnul (ts & Hts & <-) Hsub Hw.
  assert (Htok : forall w, w ∈ words_of c -> exists t, t ∈ ts /\ (tq t, teq t) = w /\ tk t = 97).
  { intros w' Hw'%Hsub. apply list_elem_of_fmap in Hw' as (t & E & Ht). symmetry in E. apply view_word in E as [E1 E2]. by exists t. }
  destruct (Htok w Hw) as (t & Ht & <- & Hk). destruct (toks_after buf ts 0%nat t Hts Ht) as [_ [[Hlt Hle] Hok]]. cbn [fst snd].
  unfold es in Hle. destruct Hok as [(_ & Hin & _)|[[Hs _]|[E _]]]; [|rewrite Hk in Hs; set_solver|congruence].
  destruct (nulterminate_spec c (buf ++ [0])) as [Hlen Hlook]. rewrite length_app in Hlen, Hlook. cbn [length] in Hlen, Hlook.
  set (mem := nulterminate c (buf ++ [0])) in *.
  assert (Hend : mem !! teq t = Some 0).
  { rewrite Hlook by lia. rewrite decide_True; [done|]. apply list_elem_of_fmap. by exists (tq t, teq t). }
  assert (Hsame : forall k, (tq t <= k < teq t)%nat -> mem !! k = buf !! k).
  { intros k Hk'. rewrite Hlook by lia. rewrite decide_False; [by apply lookup_app_l; lia|].
    intros (w' & -> & Hw')%list_elem_of_fmap. destruct (Htok w' Hw') as (t' & Ht' & <- & Hk97). cbn in Hk'.
    destruct (toks_apart buf ts 0%nat t t' Hts Ht Ht') as [->|[|]]; [lia| |];
      destruct (toks_after buf ts 0%nat t' Hts Ht') as [_ [[? ?] Hok']]; [lia|].
    destruct Hok' as [(_ & _ & Hmax)|[[Hs _]|[E _]]]; [|rewrite Hk97 in Hs; set_solver|congruence].
    assert (teq t' = tq t) as Et by lia. unfold es in Hmax. rewrite Et, (Hin (tq t)) in Hmax by lia. by specialize (Hmax ltac:(lia)). }
  assert (Etext : take (teq t - tq t) (drop (tq t) mem) = text buf (tq t, teq t)).
  { unfold text. cbn [fst snd]. apply list_eq. intros i. destruct (decide (i < teq t - tq t)%nat).
    - rewrite !lookup_take_lt, !lookup_drop by done. apply Hsame. lia.
    - rewrite !lookup_take_ge by lia. done. }
  split; [done|]. split.
  - rewrite <- (take_drop_middle (drop (tq t) mem) (teq t - tq t) 0) by (rewrite lookup_drop; by replace (tq t + (teq t - tq t))%nat with (teq t) by lia).
    rewrite Etext. apply upto_nul_app. unfold text. intros H%list_elem_of_In. apply Hnul. apply list_elem_of_In in H.
    apply list_elem_of_lookup in H as [i Hi]. apply lookup_take_Some in Hi as [Hi _]. rewrite lookup_drop in Hi. by apply list_elem_of_lookup_2 in Hi.
  - apply Forall_lookup. intros i x Hi. unfold text in Hi. cbn in Hi. apply lookup_take_Some in Hi as [Hi Hlt']. rewrite lookup_drop in Hi.
    specialize (Hin (tq t + i)%nat ltac:(lia)). unfold char_at in Hin. by rewrite nth_lookup, Hi in Hin.
Qed.

(** ** [gettoken] finds the tokens of the line *)

Section Lex.
Context (buf : list Z) (Hnul : 0 ∉ buf).
Notation es := (es buf).
Notation char_at := (char_at buf).
Notation rest s := (lex_from s None (drop s buf)).

Lemma drop_char s : (s < es)%nat -> drop s buf = char_at s :: drop (S s) buf.
Proof.
  intros Hs. unfold Sh.es in Hs. destruct (lookup_lt_is_Some_2 buf s Hs) as [c Hc]. rewrite (drop_S _ _ _ Hc).
  unfold Sh.char_at. by rewrite nth_lookup, Hc.
Qed.
Lemma lex_blanks n s : (s + n <= es)%nat -> rest s = rest (skip buf (strchr_in whitespace) n s).
Proof.
  revert s. induction n as [|n IH]; intros s Hs; cbn [skip]; [done|]. destruct (strchr_in whitespace (char_at s)) eqn:E; [|done].
  rewrite (drop_char s) by lia. cbn [lex_from]. rewrite E. cbn [ends app]. apply IH. lia.
Qed.
Lemma lex_skip_ws s : (s <= es)%nat -> rest s = rest (skip_ws buf s).
Proof. intros Hs. apply lex_blanks. lia. Qed.
Lemma lex_word q n s : (s + n = es)%nat -> lex_from s (Some q) (drop s buf) =
  let e := skip buf in_word n s in W (q, e) :: rest e.
Proof.
  revert s. induction n as [|n IH]; intros s Hs; cbn [skip].
  - rewrite drop_ge by (unfold Sh.es in *; lia). done.
  - destruct (in_word (char_at s)) eqn:Ein; cbv zeta; rewrite (drop_char s) by lia; cbn [lex_from]; unfold in_word in Ein;
      destruct (strchr_in whitespace (char_at s)) eqn:Ew; cbn [negb andb] in Ein; try done;
      destruct (Z.eqb_spec (char_at s) 62) as [E62|E62]; try (by rewrite E62 in Ein); try done;
      destruct (strchr_in symbols (char_at s)) eqn:Es; try done.
    cbn [default]. apply IH. lia.
Qed.
Lemma lex_gettoken s t s' : (s <= es)%nat -> gettoken buf s = Ret t s' -> tk t <> 0 -> rest s = view t :: rest s'.
Proof.
  intros Hs E Hk. rewrite (lex_skip_ws s Hs). destruct (skip_ws_spec buf s Hs) as [Hq Hws]. unfold gettoken in E. set (q := skip_ws buf s) in *. cbv zeta in E.
  destruct (Z.eqb_spec (char_at q) 0) as [E0|E0]; [by injection E as <- _|].
  assert (Hlt : (q < es)%nat) by (destruct (decide (q < es)%nat); [done|]; exfalso; apply E0, (char_at_end buf Hnul); lia).
  specialize (Hws Hlt). rewrite (drop_char q Hlt). cbn [lex_from]. rewrite Hws. destruct (strchr_in [124; 40; 41; 59; 38; 60] (char_at q)) eqn:Es.
  { injection E as <- <-. rewrite <- lex_skip_ws by lia. cbn [ends app]. unfold view. cbn [tk tq teq]. unfold strchr_in, existsb in Es.
    rewrite (proj2 (Z.eqb_neq (char_at q) 62)), (proj2 (Z.eqb_neq (char_at q) 97)) by lia.
    replace (strchr_in symbols (char_at q)) with true by (unfold strchr_in, symbols, existsb; lia). done. }
  destruct (Z.eqb_spec (char_at q) 62) as [E62|E62].
  { destruct (Z.eqb_spec (char_at (S q)) 62) as [E2|E2].
    - assert (S q < es)%nat by (destruct (decide (S q < es)%nat); [done|]; assert (char_at (S q) = 0) by (apply (char_at_end buf Hnul); lia); lia).
      injection E as <- <-. rewrite <- lex_skip_ws by lia. rewrite (drop_char (S q)) by lia. rewrite E2. done.
    - injection E as <- <-. rewrite <- lex_skip_ws by lia. unfold view. cbn [tk]. rewrite E62. cbn [ends app]. destruct (decide (S q < es)%nat) as [Hl|Hl].
      + rewrite (drop_char (S q) Hl), (proj2 (Z.eqb_neq _ _) E2). done.
      + rewrite drop_ge by (unfold Sh.es in *; lia). done. }
  replace (strchr_in symbols (char_at q)) with false by (unfold strchr_in, symbols, existsb in *; lia). cbn [default].
  injection E as <- <-. destruct (skip_spec buf in_word (es - q) q) as (H1 & _). rewrite <- lex_skip_ws by lia.
  rewrite (lex_word q (es - S q) (S q)) by lia. unfold view. cbn [tk tq teq]. cbv zeta.
  assert (Hin : in_word (char_at q) = true) by (unfold in_word; rewrite Hws; unfold strchr_in, symbols, existsb in *; lia).
  destruct (es - q)%nat as [|n] eqn:En; [lia|]. cbn [skip]. rewrite Hin. replace (es - S q)%nat with n by lia. done.
Qed.
Lemma lex_toks ts s : toks buf ts s -> map view ts = rest s.
Proof.
  revert s. induction ts as [|t ts IH]; intros s [Hs H].
  - rewrite (lex_skip_ws s Hs), H. rewrite drop_ge by (unfold Sh.es; lia). done.
  - destruct H as (s' & E & Hk & _ & _ & _ & H). rewrite (lex_gettoken s t s' Hs E Hk). cbn [map]. by rewrite (IH s' H).
Qed.
End Lex.

(** The command that the tokens of a line mean. *)
Definition means (vs : list sym) (c : cmd) : Prop := exists l, line_ok l /\ flat_line l = vs /\ line_cmd l = c.

(** C19: On every line the parser terminates, without running out of its array of arguments: it
    returns the meaning of the line's tokens if they are a sentence of the grammar, and
    reports an error if they are none. *)
Theorem sh_parses_grammar buf : 0 ∉ buf ->
  match parse_line buf 0%nat with
  | Ret c _ => means (lex buf) c
  | Panic _ _ => forall c, ~ means (lex buf) c
  | _ => False
  end.
Proof.
  intros Hnul. destruct (toks_exist buf Hnul 0%nat ltac:(lia)) as (ts & Hts & _).
  assert (H : on buf (lex buf) 0%nat) by (exists ts; split; [done|by apply (lex_toks buf Hnul ts 0%nat)]).
  pose proof (parse_line_spec buf Hnul _ H) as Hp. destruct (parse_line buf 0%nat); try done.
  intros c (l & Hok & E & _). exact (Hp l Hok E).
Qed.

Lemma sh_parses_grammar_witness :
  exists l, line_ok l /\ line_cmd l = BACK (PIPE (EXEC [(0, 2)]) (REDIR (EXEC [(3, 5)]) (6, 7) 513 1))%nat.
Proof.
  pose proof (sh_parses_grammar (bytes_of_string "ls|wc>f&") ltac:(apply (bool_decide_unpack _); vm_compute; exact I)) as H.
  vm_compute in H. destruct H as (l & Hok & _ & E). by exists l.
Defined.

(** Once [parsecmd] has returned, every word of the command (an argument or a file name)
    is a C string in the line's array: the word's own bytes, none of them a blank or a
    symbol, followed by a NUL. *)
Theorem sh_words_terminated buf c mem s w :
  0 ∉ buf -> parsecmd buf = Ret (c, mem) s -> w ∈ words_of c ->
  (fst w < snd w <= length buf)%nat /\ upto_nul (drop (fst w) mem) = text buf w /\ Forall (fun c => in_word c = true) (text buf w).
Proof.
  intros Hnul E Hw. unfold parsecmd in E. apply bind_Ret in E as (c' & s' & Ep & [= -> <- _]).
  destruct (toks_exist buf Hnul 0%nat ltac:(lia)) as (ts & Hts & _).
  assert (Hon : on buf (map view ts) 0%nat) by (by exists ts). pose proof (parse_line_spec buf Hnul _ Hon) as H. rewrite Ep in H.
  destruct H as (l & _ & El & Ec). apply (word_terminated buf c (map view ts) w Hnul Hon); [|done].
  rewrite <- Ec, <- El. apply (proj1 command_words).
Qed.

Lemma sh_words_terminated_witness :
  exists mem s, parsecmd (bytes_of_string "cat a|wc") = Ret (PIPE (EXEC [(0, 3); (4, 5)]) (EXEC [(6, 8)]), mem)%nat s /\
    upto_nul (drop 4 mem) = bytes_of_string "a".
Proof.
  eexists _, _. split; [vm_compute; reflexivity|].
  edestruct (sh_words_terminated (bytes_of_string "cat a|wc") (PIPE (EXEC [(0, 3); (4, 5)]) (EXEC [(6, 8)]))%nat) with (w := (4, 5)%nat) as (_ & E & _);
    [apply (bool_decide_unpack _); vm_compute; exact I|vm_compute; reflexivity|cbn; set_solver|]. exact E.
Defined.
