(* ===== verification/Uproc.v ===== *)
(** User programs as the system calls they make.

    A program is a tree of calls, each with what is done for every result ([uproc]).
    [trace] runs one on a table of file descriptors as the kernel keeps it: the lowest
    free descriptor is taken ([fdalloc] of [sysfile.c]), a child starts with a copy of
    its parent's table ([fork] of [proc.c]), a pipe gives two objects that nobody else
    has.  What is observed are the programs run with their descriptors, the children,
    the waits, and what is written. *)

From S2P Require Import Prelude CString Printf.

Inductive ucall :=
  | Unlink (path : list Z)
  | Link (old new : list Z)
  | Mkdir (path : list Z)
  | Chdir (path : list Z)
  | Mknod (path : list Z) (major minor : Z)
  | Kill (pid : Z)
  | SleepFor (n : Z).
Inductive uproc :=
  | UExit
  | UExec (path : list Z) (argv : list (list Z)) (k : uproc)
  | UFork (k : Z -> uproc)
  | UWait (k : Z -> uproc)
  | UClose (fd : Z) (k : Z -> uproc)
  | UOpen (path : list Z) (mode : Z) (k : Z -> uproc)
  | UDup (fd : Z) (k : Z -> uproc)
  | UPipe (k : option (Z * Z) -> uproc)
  | UWrite (fd : Z) (bytes : list Z) (k : uproc)
  | UCall (c : ucall) (k : Z -> uproc).

(** [printf], whose writes of one byte each are taken together. *)
Definition uprintf (fd : Z) (fmt : string) (args : list varg) (k : uproc) : uproc :=
  UWrite fd (default [] (Uprintf.printf (bytes_of_string fmt) args)) k.
(** The format ends with a newline. *)
Definition uprintln (fd : Z) (fmt : string) (args : list varg) (k : uproc) : uproc :=
  UWrite fd (default [] (Uprintf.printf (bytes_of_string fmt ++ [10]) args)) k.

(** What a descriptor refers to: a file the program started with, one it opened, or an
    end of the [n]th pipe. *)
Inductive fobj :=
  | Inherited (n : nat)
  | Opened (path : list Z) (mode : Z)
  | PipeR (n : nat)
  | PipeW (n : nat).
Notation fdt := (list (option fobj)).
Inductive act :=
  | AExec (path : list Z) (argv : list (list Z)) (t : fdt)
  | ASpawn (child : list act)
  | AWait
  | AWrite (o : option fobj) (bytes : list Z)
  | ACall (c : ucall).

Fixpoint lowest (t : fdt) : option nat :=
  match t with
  | [] => None
  | None :: _ => Some O
  | Some _ :: t' => S <$> lowest t'
  end.
(** A negative descriptor refers to nothing. *)
Definition obj (t : fdt) (fd : Z) : option fobj := if fd <? 0 then None else mjoin (t !! Z.to_nat fd).

Section Trace.
(** What [open], [exec] and the other calls answer; [pid] is what [fork] returns to the
    parent and [waits] what [wait] returns. *)
Context (opens : list Z -> Z -> bool) (execs : list Z -> bool) (calls : ucall -> Z) (pid waits : Z).
(** [n] pipes have been made. *)
Fixpoint trace (p : uproc) (t : fdt) (n : nat) : list act * nat :=
  match p with
  | UExit => ([], n)
  | UExec path argv k => if execs path then ([AExec path argv t], n) else trace k t n
  | UFork k =>
      let '(child, n) := trace (k 0) t n in
      let '(parent, n) := trace (k pid) t n in
      (ASpawn child :: parent, n)
  | UWait k => let '(l, n) := trace (k waits) t n in (AWait :: l, n)
  | UClose fd k =>
      match obj t fd with
      | Some _ => trace (k 0) (<[Z.to_nat fd := None]> t) n
      | None => trace (k (-1)) t n
      end
  | UOpen path mode k =>
      match lowest t with
      | Some fd => if opens path mode then trace (k (Z.of_nat fd)) (<[fd := Some (Opened path mode)]> t) n else trace (k (-1)) t n
      | None => trace (k (-1)) t n
      end
  | UDup fd k =>
      match obj t fd, lowest t with
      | Some o, Some d => trace (k (Z.of_nat d)) (<[d := Some o]> t) n
      | _, _ => trace (k (-1)) t n
      end
  | UPipe k =>
      match lowest t with
      | None => trace (k None) t n
      | Some a =>
          match lowest (<[a := Some (PipeR n)]> t) with
          | None => trace (k None) t n
          | Some b => trace (k (Some (Z.of_nat a, Z.of_nat b))) (<[b := Some (PipeW n)]> (<[a := Some (PipeR n)]> t)) (S n)
          end
      end
  | UWrite fd bytes k => let '(l, n) := trace k t n in (AWrite (obj t fd) bytes :: l, n)
  | UCall c k => let '(l, n) := trace (k (calls c)) t n in (ACall c :: l, n)
  end.
End Trace.

(** ** Tables of descriptors *)

Lemma lowest_spec t a : lowest t = Some a <-> t !! a = Some None /\ forall i, (i < a)%nat -> exists o, t !! i = Some (Some o).
Proof.
  revert a; induction t as [|[o|] t IH]; intros a; cbn [lowest].
  - split; [done|]. by intros [? _].
  - rewrite fmap_Some. split.
    + intros (b & [H1 H2]%IH & ->). split; [done|]. intros [|i] Hi; [by exists o|]. apply H2. lia.
    + destruct a as [|a]; [by intros [? _]|]. intros [H1 H2]. exists a. split; [|done]. apply IH. split; [done|]. intros i Hi. apply (H2 (S i)). lia.
  - split.
    + intros [= <-]. split; [done|]. lia.
    + destruct a as [|a]; [done|]. intros [_ H2]. by destruct (H2 0%nat ltac:(lia)).
Qed.
Lemma obj_nat t a : obj t (Z.of_nat a) = mjoin (t !! a).
Proof. unfold obj. rewrite (proj2 (Z.ltb_ge _ _)) by lia. by rewrite Nat2Z.id. Qed.
