(* ===== verification/ShRun.v ===== *)
(** The shell running commands ([runcmd] and [main] of [sh.c], [gets] of [ulib.c]).

    [runcmd] as a tree of system calls ([Uproc]), on the command and the line that
    [parsecmd] leaves.  [den] says what a command is for: which programs it runs, with
    which file as standard input and which as standard output, and for which children it
    waits.  The theorem is that the calls of [runcmd], which move descriptors about,
    amount to that, and leave no descriptor of a pipe behind in any program.  [session]
    says what the shell does with its whole input, line by line. *)

From S2P Require Import Prelude CString Printf Sh ShParse Uproc.

Definition O_RDWR : Z := 2.

(** [panic] and [fork1]; [fork] returns -1 if it fails. *)
Definition upanic (msg : string) : uproc := uprintln 2 "%s" [AStr (bytes_of_string msg)] UExit.
Definition fork1 (k : Z -> uproc) : uproc := UFork (fun pid => if pid =? -1 then upanic "fork" else k pid).

(** The string at a pointer into the line [mem]. *)
Definition str (mem : list Z) (w : nat * nat) : list Z := upto_nul (drop (fst w) mem).

(** [cmd] is not null. *)
Fixpoint runcmd (mem : list Z) (c : cmd) : uproc :=
  match c with
  | EXEC [] => UExit
  | EXEC (w :: argv) => UExec (str mem w) (map (str mem) (w :: argv)) (uprintln 2 "exec %s failed" [AStr (str mem w)] UExit)
  | REDIR c file mode fd =>
      UClose fd (fun _ =>
      UOpen (str mem file) mode (fun q =>
        if q <? 0 then uprintln 2 "open %s failed" [AStr (str mem file)] UExit
        else runcmd mem c))
  | LIST l r =>
      fork1 (fun pid =>
        if pid =? 0 then runcmd mem l
        else UWait (fun _ => runcmd mem r))
  | PIPE l r =>
      UPipe (fun p =>
        match p with
        | None => upanic "pipe"
        | Some (p0, p1) =>
            fork1 (fun pid =>
              if pid =? 0 then UClose 1 (fun _ => UDup p1 (fun _ => UClose p0 (fun _ => UClose p1 (fun _ => runcmd mem l))))
              else fork1 (fun pid =>
                if pid =? 0 then UClose 0 (fun _ => UDup p0 (fun _ => UClose p0 (fun _ => UClose p1 (fun _ => runcmd mem r))))
                else UClose p0 (fun _ => UClose p1 (fun _ => UWait (fun _ => UWait (fun _ => UExit))))))
        end)
  | BACK c => fork1 (fun pid => if pid =? 0 then runcmd mem c else UExit)
  end.

(** [gets] from the bytes that descriptor 0 gives; [n] is [max - 1 - i]. *)
Fixpoint gets (n : nat) (input : list Z) : list Z * list Z :=
  match n, input with
  | O, _ | _, [] => ([], input)
  | S n', c :: input' =>
      if (c =? 10) || (c =? 13) then ([c], input')
      else let '(l, rest) := gets n' input' in (c :: l, rest)
  end.
(** [getcmd] with its buffer of 100 bytes: the line, or [None] for -1. *)
Definition getcmd (input : list Z) : option (list Z) * list Z :=
  let '(l, rest) := gets 99 input in
  match l with
  | [] | 0 :: _ => (None, rest)
  | _ => (Some l, rest)
  end.

(** The line [parsecmd] prints before it gives up on what is left over is left out. *)
Definition run_line (buf : list Z) : uproc :=
  match parsecmd buf with
  | Ret (c, mem) _ => runcmd mem c
  | Panic msg _ => upanic msg
  | _ => UExit
  end.
(** The loop; every line takes a byte of the input at least. *)
Fixpoint main_loop (fuel : nat) (input : list Z) : uproc :=
  match fuel with
  | O => UExit
  | S f =>
      UWrite 2 (bytes_of_string "$ ")
        (match getcmd input with
         | (None, _) => UExit
         | (Some buf, rest) =>
             if (nth 0 buf 0 =? 99) && (nth 1 buf 0 =? 100) && (nth 2 buf 0 =? 32) then
               let buf := removelast (upto_nul buf) in
               UCall (Chdir (drop 3 buf)) (fun r =>
                 if r <? 0 then uprintln 2 "cannot cd %s" [AStr (drop 3 buf)] (main_loop f rest)
                 else main_loop f rest)
             else fork1 (fun pid => if pid =? 0 then run_line (upto_nul buf) else UWait (fun _ => main_loop f rest))
         end)
  end.
(** [while((fd = open("console", O_RDWR)) >= 0)]: every turn but the last takes a
    descriptor below 3. *)
Fixpoint open_three (fuel : nat) (k : uproc) : uproc :=
  match fuel with
  | O => UExit
  | S f =>
      UOpen (bytes_of_string "console") O_RDWR (fun fd =>
        if fd <? 0 then k
        else if fd >=? 3 then UClose fd (fun _ => k)
        else open_three f k)
  end.
Definition main (input : list Z) : uproc := open_three 4 (main_loop (S (length input)) input).

(** ** What a command is for *)

Section Den.
Context (opens : list Z -> Z -> bool) (execs : list Z -> bool) (mem : list Z).
(** [t] has the descriptors other than 0 and 1. *)
Context (t : fdt).
Definition std (i o : fobj) : fdt := <[0%nat := Some i]> (<[1%nat := Some o]> t).
Definition says (msg : string) (w : nat * nat) : act := AWrite (obj t 2) (default [] (Uprintf.printf (bytes_of_string msg ++ [10]) [AStr (str mem w)])).

(** [i] and [o] are standard input and output, [n] the number of the next pipe. *)
Fixpoint den (c : cmd) (i o : fobj) (n : nat) : list act * nat :=
  match c with
  | EXEC [] => ([], n)
  | EXEC (w :: argv) =>
      if execs (str mem w) then ([AExec (str mem w) (map (str mem) (w :: argv)) (std i o)], n)
      else ([says "exec %s failed" w], n)
  | REDIR c f mode fd =>
      if opens (str mem f) mode then
        let x := Opened (str mem f) mode in if fd =? 0 then den c x o n else den c i x n
      else ([says "open %s failed" f], n)
  | LIST l r =>
      let '(a, n) := den l i o n in
      let '(b, n) := den r i o n in
      (ASpawn a :: AWait :: b, n)
  | PIPE l r =>
      let '(a, n') := den l i (PipeW n) (S n) in
      let '(b, n'') := den r (PipeR n) o n' in
      ([ASpawn a; ASpawn b; AWait; AWait], n'')
  | BACK c => let '(a, n) := den c i o n in ([ASpawn a], n)
  end.

(** Redirections are of standard input or output. *)
Fixpoint redirs_std (c : cmd) : Prop :=
  match c with
  | EXEC _ => True
  | REDIR c _ _ fd => (fd = 0 \/ fd = 1) /\ redirs_std c
  | PIPE l r | LIST l r => redirs_std l /\ redirs_std r
  | BACK c => redirs_std c
  end.
(** Descriptors 0 to 2 are open, and there is room for a pipe. *)
Record roomy : Prop := mk_roomy {
  rm_open : forall k, (k < 3)%nat -> exists o, t !! k = Some (Some o);
  rm_free : exists a b, (a < b)%nat /\ t !! a = Some None /\ t !! b = Some None }.
End Den.

Lemma lookup_ins {A} (l : list A) i x j : (i < length l)%nat -> <[i := x]> l !! j = if decide (j = i) then Some x else l !! j.
Proof. intros Hi. case_decide as E; [subst j; by apply list_lookup_insert_eq|by apply list_lookup_insert_ne]. Qed.
Lemma std_lookup t i o k : roomy t -> std t i o !! k = match k with 0 => Some (Some i) | 1 => Some (Some o) | _ => t !! k end%nat.
Proof.
  intros [R _]. assert (2 < length t)%nat by (destruct (R 2%nat) as [x Hx]; [lia|by eapply lookup_lt_Some]). unfold std.
  rewrite !lookup_ins by (rewrite ?length_insert; lia). destruct k as [|[|k]]; [done|done|by rewrite !decide_False by lia].
Qed.
Lemma std_length t i o : length (std t i o) = length t.
Proof. unfold std. by rewrite !length_insert. Qed.
(** The first two free descriptors, whatever 0 and 1 are. *)
Lemma roomy_lowest t : roomy t -> exists a b, (2 < a < b)%nat /\ (b < length t)%nat /\ t !! a = Some None /\ t !! b = Some None /\
  (forall u, length u = length t -> (exists x y, u !! 0%nat = Some (Some x) /\ u !! 1%nat = Some (Some y)) -> (forall k, (1 < k)%nat -> u !! k = t !! k) ->
     lowest u = Some a /\ forall z, lowest (<[a := Some z]> u) = Some b).
Proof.
  intros [R (a' & b' & Hab & Ha & Hb)].
  assert (Hex : forall (u : fdt) k, u !! k = Some None -> exists a, lowest u = Some a).
  { induction u as [|[x|] u IH]; intros [|k] Hk; cbn [lowest]; try done; [|by eexists..]. destruct (IH k Hk) as [a ->]. by eexists. }
  destruct (Hex t a' Ha) as [a Ea]. pose proof Ea as [A1 A2]%lowest_spec. assert (Ha3 : (2 < a)%nat).
  { destruct (decide (2 < a)%nat); [done|]. destruct (R a ltac:(lia)) as [o Ho]. congruence. }
  assert (Hlt : (a < length t)%nat) by (by eapply lookup_lt_Some).
  destruct (Hex (<[a := Some (Inherited 0)]> t) b') as [b Eb].
  { rewrite lookup_ins by done. rewrite decide_False; [done|]. intros <-. destruct (A2 a' Hab). congruence. }
  pose proof Eb as [B1 B2]%lowest_spec. rewrite lookup_ins in B1 by done. case_decide as Eab; [done|]. assert (Hab' : (a < b)%nat).
  { destruct (decide (a < b)%nat); [done|]. destruct (A2 b ltac:(lia)). congruence. }
  exists a, b. split; [lia|]. split; [by eapply lookup_lt_Some|]. split; [done|]. split; [done|]. intros u Hl (x & y & Hx & Hy) Hu. split.
  - apply lowest_spec. split; [rewrite Hu by lia; done|]. intros k Hk. destruct k as [|[|k]]; [by eexists..|]. rewrite Hu by lia. by apply A2.
  - intros z. apply lowest_spec. rewrite lookup_ins, decide_False, Hu by lia. split; [done|]. intros k Hk. rewrite lookup_ins by lia. case_decide; [by eexists|].
    destruct k as [|[|k]]; [by eexists..|]. rewrite Hu by lia. destruct (B2 (S (S k)) Hk) as [w Hw]. rewrite lookup_ins, decide_False in Hw by done. by exists w.
Qed.

Section Plumbing.
Context (opens : list Z -> Z -> bool) (execs : list Z -> bool) (calls : ucall -> Z) (pid waits : Z) (mem : list Z) (t : fdt).
Context (Hpid : 0 < pid) (Ht : roomy t).
Notation run := (trace opens execs calls pid waits).

Lemma t_length : (2 < length t)%nat.
Proof. destruct (rm_open _ Ht 2) as [x Hx]; [lia|by eapply lookup_lt_Some]. Qed.
Lemma std_obj i o fd : 0 <= fd < 3 -> obj (std t i o) fd = if fd =? 0 then Some i else if fd =? 1 then Some o else obj t 2.
Proof.
  intros Hfd. unfold obj. rewrite (proj2 (Z.ltb_ge fd 0)) by lia. rewrite std_lookup by done. assert (fd = 0 \/ fd = 1 \/ fd = 2) as [-> | [-> | ->]] by lia; done.
Qed.
(** A standard descriptor is closed; the next one taken is the same. *)
Lemma close_std i o (fd : nat) x : (fd < 2)%nat ->
  let u := <[fd := None]> (std t i o) in
  lowest u = Some fd /\ obj u 2 = obj t 2 /\ <[fd := Some x]> u = if decide (fd = 0%nat) then std t x o else std t i x.
Proof.
  intros Hfd u. pose proof t_length as Hl. assert (Hu : forall k, u !! k = if decide (k = fd) then Some None else std t i o !! k) by (intros k; apply lookup_ins; rewrite std_length; lia).
  split_and!.
  - apply lowest_spec. rewrite Hu, decide_True by done. split; [done|]. intros k Hk. rewrite Hu, decide_False, std_lookup by (done || lia). assert (k = 0%nat) as -> by lia. by eexists.
  - unfold obj. cbn [Z.ltb Z.compare]. rewrite Hu, decide_False by (unfold Z.to_nat; lia). by rewrite std_lookup.
  - unfold u. rewrite list_insert_insert_eq. apply list_eq. intros k. rewrite lookup_ins by (rewrite std_length; lia). case_decide as E; case_decide as E'; rewrite !std_lookup by done.
    + by rewrite E, E'.
    + assert (fd = 1%nat) as -> by lia. by rewrite E.
    + by destruct k as [|[|k]].
    + destruct k as [|[|k]]; try done. lia.
Qed.
Lemma fork1_run k u n : run (fork1 k) u n = (let '(a, n) := run (k 0) u n in let '(b, n) := run (k pid) u n in (ASpawn a :: b, n)).
Proof. unfold fork1. cbn [trace]. replace (pid =? -1) with false by lia. done. Qed.
Lemma redir_run i o f mode (fd : nat) k n : (fd < 2)%nat ->
  run (UClose (Z.of_nat fd) (fun _ => UOpen (str mem f) mode (fun q => if q <? 0 then uprintln 2 "open %s failed" [AStr (str mem f)] UExit else k))) (std t i o) n =
  if opens (str mem f) mode then run k (if decide (fd = 0%nat) then std t (Opened (str mem f) mode) o else std t i (Opened (str mem f) mode)) n
  else ([says mem t "open %s failed" f], n).
Proof.
  intros Hfd. destruct (close_std i o fd (Opened (str mem f) mode) Hfd) as (H1 & H2 & H3). cbn [trace].
  assert (Ho : exists x, obj (std t i o) (Z.of_nat fd) = Some x) by (rewrite std_obj by lia; destruct fd as [|[|fd]]; [by eexists..|lia]). destruct Ho as [x ->].
  rewrite Nat2Z.id, H1. destruct (opens _ _).
  - rewrite H3. replace (Z.of_nat fd <? 0) with false by lia. done.
  - change (-1 <? 0) with true. unfold uprintln. cbn [trace]. by rewrite H2.
Qed.
(** The pipe's ends moved to descriptor [fd], and its two descriptors closed. *)
Lemma pipe_child i o n a b (fd : nat) k m : (fd < 2)%nat -> (2 < a < b)%nat -> (b < length t)%nat -> t !! a = Some None -> t !! b = Some None ->
  run (UClose (Z.of_nat fd) (fun _ => UDup (Z.of_nat (if decide (fd = 0%nat) then a else b)) (fun _ => UClose (Z.of_nat a) (fun _ => UClose (Z.of_nat b) (fun _ => k)))))
    (<[b := Some (PipeW n)]> (<[a := Some (PipeR n)]> (std t i o))) m =
  run k (if decide (fd = 0%nat) then std t (PipeR n) o else std t i (PipeW n)) m.
Proof.
  intros Hfd Hab Hb Ta Tb. pose proof t_length as Hl. set (u := std t i o). assert (Lu : length u = length t) by apply std_length.
  set (u1 := <[b := _]> _). assert (Hu1 : forall j, u1 !! j = if decide (j = b) then Some (Some (PipeW n)) else if decide (j = a) then Some (Some (PipeR n)) else u !! j).
  { intros j. unfold u1. rewrite !lookup_ins by (rewrite ?length_insert; lia). done. }
  assert (L1 : length u1 = length t) by (unfold u1; by rewrite !length_insert).
  set (x := if decide (fd = 0%nat) then PipeR n else PipeW n). set (src := if decide (fd = 0%nat) then a else b).
  assert (Hsrc : (2 < src)%nat /\ u1 !! src = Some (Some x)).
  { unfold src, x. rewrite Hu1. destruct (decide (fd = 0%nat)); (split; [lia|]); [by rewrite decide_False, decide_True by lia|by rewrite decide_True]. }
  cbn [trace]. rewrite !obj_nat, !Nat2Z.id. assert (Hfdu : exists y, u1 !! fd = Some (Some y)).
  { rewrite Hu1, !decide_False by lia. unfold u. rewrite std_lookup by done. destruct fd as [|[|fd]]; [by eexists..|lia]. }
  destruct Hfdu as [y Hy]. rewrite Hy. cbn [mjoin option_join]. set (u2 := <[fd := None]> u1).
  assert (Hu2 : forall j, u2 !! j = if decide (j = fd) then Some None else u1 !! j) by (intros j; apply lookup_ins; lia).
  rewrite Hu2, decide_False by lia. destruct Hsrc as [Hs1 Hs2]. rewrite Hs2. cbn [mjoin option_join].
  assert (E2 : lowest u2 = Some fd).
  { apply lowest_spec. rewrite Hu2, decide_True by done. split; [done|]. intros j Hj. rewrite Hu2, decide_False, Hu1, !decide_False by lia. assert (j = 0%nat) as -> by lia. unfold u. rewrite std_lookup by done. by eexists. }
  rewrite E2. set (u3 := <[fd := Some x]> u2). assert (Hu3 : forall j, u3 !! j = if decide (j = fd) then Some (Some x) else u1 !! j).
  { intros j. unfold u3, u2. rewrite list_insert_insert_eq. apply lookup_ins. lia. }
  assert (L3 : length u3 = length t) by (unfold u3, u2; by rewrite !length_insert).
  rewrite !obj_nat, Hu3, decide_False, Hu1, decide_False, decide_True by lia. cbn [mjoin option_join]. set (u4 := <[a := None]> u3).
  assert (Hu4 : forall j, u4 !! j = if decide (j = a) then Some None else u3 !! j) by (intros j; apply lookup_ins; lia).
  rewrite Hu4, decide_False, Hu3, decide_False, Hu1, decide_True by lia. cbn [mjoin option_join]. f_equal. apply list_eq. intros j.
  rewrite lookup_ins by (unfold u4; rewrite length_insert; lia). rewrite Hu4, Hu3, Hu1. unfold u, x.
  destruct (decide (fd = 0%nat)) as [->|]; repeat case_decide; subst; rewrite ?std_lookup by done; try done; try lia.
  all: repeat match goal with |- context [match ?j with 0%nat => _ | S _ => _ end] => is_var j; destruct j as [|[|j]] end; (done || lia || congruence).
Qed.
Lemma runcmd_trace c : redirs_std c -> forall i o n, run (runcmd mem c) (std t i o) n = den opens execs mem t c i o n.
Proof.
  destruct (roomy_lowest t Ht) as (a & b & Hab & Hb & Ta & Tb & Hlow).
  assert (Hl : forall i o, lowest (std t i o) = Some a /\ forall z, lowest (<[a := Some z]> (std t i o)) = Some b).
  { intros i o. apply Hlow; [apply std_length|by exists i, o; rewrite !std_lookup|]. intros [|[|k]] Hk; [lia|lia|by rewrite std_lookup]. }
  induction c as [argv|c IH f mode fd|l IHl r IHr|l IHl r IHr|c IH]; cbn [redirs_std runcmd den].
  - intros _ i o n. destruct argv as [|w argv]; [done|]. cbn [trace]. destruct (execs _); [done|]. unfold uprintln. cbn [trace]. by rewrite std_obj by lia.
  - intros [Hfd Hc] i o n. assert (exists k : nat, (k < 2)%nat /\ fd = Z.of_nat k) as (k & Hk & ->) by (destruct Hfd as [-> | ->]; [exists 0%nat|exists 1%nat]; lia).
    rewrite redir_run by done. destruct (opens _ _); [|done]. destruct (decide (k = 0%nat)) as [->|]; [by apply IH|]. assert (k = 1%nat) as -> by lia. by apply IH.
  - intros [H1 H2] i o n. destruct (Hl i o) as [E1 E2]. cbn [trace]. rewrite E1, E2. rewrite fork1_run. cbn [Z.eqb].
    rewrite (pipe_child i o n a b 1 (runcmd mem l)) by (done || lia). rewrite decide_False, IHl by done. destruct (den _ _ _ _ l _ _ _) as [da n1].
    replace (pid =? 0) with false by lia. rewrite fork1_run. cbn [Z.eqb]. rewrite (pipe_child i o n a b 0 (runcmd mem r)) by (done || lia). rewrite decide_True, IHr by done.
    destruct (den _ _ _ _ r _ _ _) as [db n2]. replace (pid =? 0) with false by lia. cbn [trace]. rewrite !obj_nat, !Nat2Z.id. pose proof (std_length t i o) as Ls.
    by repeat (destruct (mjoin _)).
  - intros [H1 H2] i o n. rewrite fork1_run. cbn [Z.eqb]. rewrite IHl by done. destruct (den _ _ _ _ l _ _ _) as [da n1]. replace (pid =? 0) with false by lia.
    cbn [trace]. rewrite IHr by done. by destruct (den _ _ _ _ r _ _ _).
  - intros Hc i o n. rewrite fork1_run. cbn [Z.eqb]. rewrite IH by done. destruct (den _ _ _ _ c _ _ _) as [da n1]. replace (pid =? 0) with false by lia. done.
Qed.
End Plumbing.

(** ** From the line to the programs *)

Lemma redirs_foldl c ds : redirs_std c -> redirs_std (foldl redircmd c (redirs_of ds)).
Proof.
  revert c; induction ds as [|d ds IH]; intros c Hc; [done|]. cbn. apply IH. unfold redircmd, redir_of. destruct (fst d =? 60); cbn; auto.
Qed.
Lemma redirs_back n c : redirs_std c -> redirs_std (Nat.iter n BACK c).
Proof. intros Hc. induction n; cbn; done. Qed.
Lemma grammar_redirs : (forall l, redirs_std (line_cmd l)) /\ (forall p, redirs_std (pipeline_cmd p)) /\ (forall e, redirs_std (command_cmd e)).
Proof.
  apply grammar_mut; cbn.
  - intros p IH n. by apply redirs_back.
  - intros p IHp n l IHl. split; [by apply redirs_back|done].
  - done.
  - done.
  - intros ds args. unfold redirs_of. rewrite <- map_app. by apply redirs_foldl.
  - intros l IHl ds. by apply redirs_foldl.
Qed.
Lemma parsed_redirs buf c mem s : 0 ∉ buf -> parsecmd buf = Ret (c, mem) s -> redirs_std c.
Proof.
  intros Hnul E. unfold parsecmd in E. apply bind_Ret in E as (c' & s' & Ep & [= -> <- _]).
  destruct (toks_exist buf Hnul 0%nat ltac:(lia)) as (ts & Hts & _). assert (Hon : on buf (map view ts) 0%nat) by (by exists ts).
  pose proof (parse_line_spec buf Hnul _ Hon) as H. rewrite Ep in H. destruct H as (l & _ & _ & <-). apply grammar_redirs.
Qed.

(** The input as the shell reads it: a line ends with a newline or a carriage return, or
    when the 99 bytes of the buffer are full, or with the input. *)
Inductive as_read : list (list Z) -> Prop :=
  | read_end : as_read []
  | read_line l ls :
      l <> [] -> (length l <= 99)%nat -> Forall (fun c => c <> 10 /\ c <> 13) (removelast l) ->
      ls = [] \/ length l = 99%nat \/ last l = Some 10 \/ last l = Some 13 ->
      as_read ls -> as_read (l :: ls).

Section Session.
Context (opens : list Z -> Z -> bool) (execs : list Z -> bool) (calls : ucall -> Z) (t : fdt) (i o : fobj).
Definition prompt : act := AWrite (obj t 2) (bytes_of_string "$ ").
(** What a line makes the shell's child do. *)
Definition line_acts (buf : list Z) (n : nat) : list act * nat :=
  match parsecmd buf with
  | Ret (c, mem) _ => den opens execs mem t c i o n
  | Panic msg _ => ([AWrite (obj t 2) (bytes_of_string msg ++ [10])], n)
  | _ => ([], n)
  end.
(** The built-in command: what follows [cd ], without the last byte, is the directory. *)
Definition is_cd (l : list Z) : Prop := take 3 l = [99; 100; 32].
Definition cd_acts (l : list Z) : list act :=
  let dir := drop 3 (removelast l) in
  ACall (Chdir dir) ::
  if calls (Chdir dir) <? 0 then [AWrite (obj t 2) (bytes_of_string "cannot cd " ++ dir ++ [10])] else [].
Fixpoint session (lines : list (list Z)) (n : nat) : list act * nat :=
  match lines with
  | [] => ([prompt], n)
  | l :: lines' =>
      let '(a, n) := if decide (is_cd l) then (cd_acts l, n)
                     else let '(a, n) := line_acts l n in ([ASpawn a; AWait], n) in
      let '(b, n) := session lines' n in
      (prompt :: a ++ b, n)
  end.
End Session.

Lemma gets_spec n : forall input l rest, gets n input = (l, rest) ->
  input = l ++ rest /\ (length l <= n)%nat /\ (n <> 0%nat -> input <> [] -> l <> []) /\
  Forall (fun c => c <> 10 /\ c <> 13) (removelast l) /\ (rest = [] \/ length l = n \/ last l = Some 10 \/ last l = Some 13).
Proof.
  induction n as [|n IH]; intros input l rest E; [destruct input; injection E as <- <-; naive_solver|].
  destruct input as [|c input]; [injection E as <- <-; split_and!; [done|cbn; lia|done|done|by left]|]. cbn [gets] in E.
  destruct ((c =? 10) || (c =? 13)) eqn:Ec.
  - injection E as <- <-. split_and!; try done; [cbn; lia|]. right. right. cbn. destruct (Z.eqb_spec c 10) as [->|]; [by left|]. right. f_equal. lia.
  - destruct (gets n input) as [l' rest'] eqn:E'. injection E as <- <-. destruct (IH input l' rest' E') as (-> & Hl & _ & Hf & Hend).
    split_and!; [done|cbn; lia|done| |].
    + destruct l' as [|d l']; [done|]. change (removelast (c :: d :: l')) with (c :: removelast (d :: l')). constructor; [lia|done].
    + destruct Hend as [->|[<-|Hlast]]; [by left|right; by left|right; right]. destruct l' as [|d l']; [by destruct Hlast|]. exact Hlast.
Qed.

(** Every input is read so. *)
Lemma input_read input : exists lines, as_read lines /\ concat lines = input.
Proof.
  remember (length input) as n eqn:En. revert input En. induction n as [n IH] using lt_wf_ind. intros input ->.
  destruct input as [|c input]; [exists []; by split; [constructor|]|]. destruct (gets 99 (c :: input)) as [l rest] eqn:E.
  destruct (gets_spec 99 _ l rest E) as (Ei & Hl & Hne & Hf & Hend). specialize (Hne ltac:(lia) ltac:(done)).
  destruct (IH (length rest)) with (input := rest) as (lines & Hr & Ec); [rewrite Ei, length_app; destruct l; [done|cbn; lia]|done|].
  exists (l :: lines). split; [|cbn; by rewrite Ec]. constructor; try done.
  destruct Hend as [->|H]; [left; destruct lines as [|l1 lines]; [done|]|by right]. inversion Hr; subst. by destruct l1.
Qed.

(** The shell reads the first of the lines. *)
Lemma gets_first n l : forall rest, l <> [] -> (length l <= n)%nat -> Forall (fun c => c <> 10 /\ c <> 13) (removelast l) ->
  rest = [] \/ length l = n \/ last l = Some 10 \/ last l = Some 13 -> gets n (l ++ rest) = (l, rest).
Proof.
  revert n; induction l as [|c l IH]; intros n rest Hne Hn Hf Hend; [done|]. destruct n as [|n]; [cbn in Hn; lia|]. cbn [app gets].
  destruct l as [|d l].
  - destruct ((c =? 10) || (c =? 13)) eqn:Ec; [done|]. assert (Hr : rest = [] \/ n = 0%nat).
    { destruct Hend as [->|[Hl|[[= ->]|[= ->]]]]; [by left|right; cbn in Hl; lia|done|done]. }
    cbn [app]. destruct Hr as [->| ->]; [by destruct n|]. by destruct rest.
  - change (removelast (c :: d :: l)) with (c :: removelast (d :: l)) in Hf. apply Forall_cons in Hf as [[H1 H2] Hf].
    rewrite (proj2 (Z.eqb_neq c 10)), (proj2 (Z.eqb_neq c 13)) by done. cbn [orb]. rewrite IH; try done; [cbn in *; lia|].
    destruct Hend as [->|[Hl|Hlast]]; [by left|right; left; cbn in *; lia|by right; right].
Qed.
Lemma cd_test l : (nth 0 l 0 =? 99) && (nth 1 l 0 =? 100) && (nth 2 l 0 =? 32) = bool_decide (is_cd l).
Proof.
  unfold is_cd. apply eq_true_iff_eq. rewrite bool_decide_eq_true, !andb_true_iff, !Z.eqb_eq.
  destruct l as [|a [|b [|c l]]]; cbn; split; naive_solver.
Qed.
Lemma printf_cd s : Uprintf.printf (bytes_of_string "cannot cd %s" ++ [10]) [AStr s] = Some (bytes_of_string "cannot cd " ++ s ++ [10]).
Proof. done. Qed.
Lemma printf_str s : Uprintf.printf (bytes_of_string "%s" ++ [10]) [AStr s] = Some (s ++ [10]).
Proof. done. Qed.

Section MainLoop.
Context (opens : list Z -> Z -> bool) (execs : list Z -> bool) (calls : ucall -> Z) (pid waits : Z) (t : fdt) (i o : fobj).
Context (Hpid : 0 < pid) (Ht : roomy t).
Notation run := (trace opens execs calls pid waits).
Lemma run_line_trace buf n : 0 ∉ buf -> run (run_line buf) (std t i o) n = line_acts opens execs t i o buf n.
Proof.
  intros Hnul. unfold run_line, line_acts. destruct (parsecmd buf) as [[c mem] s|msg s| |] eqn:E; [|cbn [upanic uprintln trace]|done..].
  - apply runcmd_trace; [done|done|]. by eapply parsed_redirs.
  - rewrite printf_str, std_obj by (done || lia). done.
Qed.
Lemma main_loop_trace lines : as_read lines -> 0 ∉ concat lines -> forall fuel n, (length (concat lines) < fuel)%nat ->
  run (main_loop fuel (concat lines)) (std t i o) n = session opens execs calls t i o lines n.
Proof.
  induction 1 as [|l lines Hne Hlen Hf Hend Hr IH]; intros H0 fuel n Hfuel; (destruct fuel as [|fuel]; [lia|]); cbn [concat session] in *.
  { cbn [main_loop]. change (getcmd []) with (@None (list Z), @nil Z). cbn [trace]. by rewrite std_obj by (done || lia). }
  rewrite elem_of_app in H0. assert (Hl0 : 0 ∉ l) by tauto. assert (Hr0 : 0 ∉ concat lines) by tauto. clear H0.
  assert (Eg : getcmd (l ++ concat lines) = (Some l, concat lines)).
  { unfold getcmd. rewrite gets_first; try done; [|destruct Hend as [->|]; [by left|by right]].
    destruct l as [|c l]; [done|]. apply not_elem_of_cons in Hl0 as [Hc _]. by destruct c. }
  assert (Hf' : (length (concat lines) < fuel)%nat) by (rewrite length_app in Hfuel; destruct l; [done|cbn in Hfuel; lia]).
  cbn [main_loop]. rewrite Eg, cd_test, upto_nul_id by done. cbn [trace]. rewrite std_obj by (done || lia). cbn [Z.eqb]. fold (prompt t).
  case_bool_decide as Hcd; [rewrite decide_True by done|rewrite decide_False by done].
  - cbn [trace]. unfold cd_acts. destruct (calls _ <? 0); cbn [trace uprintln].
    + rewrite std_obj, printf_cd by (done || lia). rewrite IH by done. by destruct (session _ _ _ _ _ _ _ _).
    + rewrite IH by done. by destruct (session _ _ _ _ _ _ _ _).
  - rewrite fork1_run by done. cbn [Z.eqb]. rewrite run_line_trace by done. destruct (line_acts _ _ _ _ _ _ _) as [a n1].
    replace (pid =? 0) with false by lia. cbn [trace]. rewrite IH by done. by destruct (session _ _ _ _ _ _ _ _).
Qed.
(** The descriptors are open already: the one [open] returns is closed again. *)
Lemma open_three_trace k n f : run (open_three (S f) k) (std t i o) n = run k (std t i o) n.
Proof.
  destruct (roomy_lowest t Ht) as (a & b & Hab & Hb & Ta & Tb & Hlow). destruct (Hlow (std t i o)) as [E1 _];
    [apply std_length|by exists i, o; rewrite !std_lookup|intros [|[|j]] Hj; [lia|lia|by rewrite std_lookup]|].
  cbn [open_three trace]. rewrite E1. destruct (opens _ _); [|done]. replace (Z.of_nat a <? 0) with false by lia. replace (Z.of_nat a >=? 3) with true by lia.
  cbn [trace]. rewrite obj_nat, Nat2Z.id. assert (Hl : (a < length (std t i o))%nat) by (rewrite std_length; lia).
  rewrite list_lookup_insert_eq by done. cbn [mjoin option_join]. rewrite list_insert_insert_eq. f_equal. apply list_insert_id. rewrite std_lookup by done. by destruct a as [|[|a]]; [lia|lia|].
Qed.
End MainLoop.

(** C20: on a line, the shell's child does what the command on it is for: every program runs
    with its arguments, with its standard input and output the ones that pipes and
    redirections give it and all other descriptors the shell's own, so that no end of a
    pipe stays open in a program that does not use it; the shell waits for the commands
    of a list and the ends of a pipe, and not for those in the background. *)
Theorem runcmd_plumbing opens execs calls pid waits t i o buf c mem s n :
  0 < pid -> roomy t -> 0 ∉ buf -> parsecmd buf = Ret (c, mem) s ->
  trace opens execs calls pid waits (runcmd mem c) (std t i o) n = den opens execs mem t c i o n.
Proof. intros Hp Ht Hnul E. apply runcmd_trace; [done|done|]. by eapply parsed_redirs. Qed.
Definition demo_fds : fdt := [Some (Inherited 0); Some (Inherited 0); Some (Inherited 0); None; None; None].
Lemma demo_roomy : roomy demo_fds.
Proof.
  constructor.
  - intros [|[|[|k]]] Hk; [by eexists..|lia].
  - exists 3%nat, 4%nat. split; [lia|done].
Qed.
Lemma runcmd_plumbing_witness :
  exists c mem s, parsecmd (bytes_of_string "ls|wc>f&") = Ret (c, mem) s /\
    trace (fun _ _ => true) (fun _ => true) (fun _ => 0) 7 7 (runcmd mem c) demo_fds 0 =
    ([ASpawn [ASpawn [AExec (bytes_of_string "ls") [bytes_of_string "ls"] (<[1%nat := Some (PipeW 0)]> demo_fds)];
              ASpawn [AExec (bytes_of_string "wc") [bytes_of_string "wc"]
                        (<[0%nat := Some (PipeR 0)]> (<[1%nat := Some (Opened (bytes_of_string "f") 513)]> demo_fds))];
              AWait; AWait]], 1%nat).
Proof.
  do 3 eexists. split; [vm_compute; reflexivity|].
  refine (eq_trans (runcmd_plumbing (fun _ _ => true) (fun _ => true) (fun _ => 0) 7 7 demo_fds (Inherited 0) (Inherited 0) (bytes_of_string "ls|wc>f&") _ _ _ 0 _ demo_roomy _ _) _);
    [lia|apply (bool_decide_unpack _); vm_compute; exact I|vm_compute; reflexivity|vm_compute; reflexivity].
Defined.

(** C21: the shell runs a session: on any input without NUL bytes, cut into lines as [gets]
    with its buffer of 100 bytes reads them, it prints the prompt for each line; a line
    that begins with [cd ] it carries out itself, with a message if [chdir] fails, and any
    other in a child for which it waits, with its own descriptors the same for every line,
    whatever the line before did. *)
Theorem shell_runs_session opens execs calls pid waits t i o input n :
  0 < pid -> roomy t -> 0 ∉ input ->
  exists lines, as_read lines /\ concat lines = input /\
    trace opens execs calls pid waits (main input) (std t i o) n = session opens execs calls t i o lines n.
Proof.
  intros Hp Ht H0. destruct (input_read input) as (lines & Hr & <-). exists lines. split_and!; try done.
  unfold main. rewrite open_three_trace by done. apply main_loop_trace; [done..|lia].
Qed.
(** A pipeline, and a change to a directory that is not there. *)
Definition demo_input : list Z := bytes_of_string "ls|wc" ++ [10] ++ bytes_of_string "cd x" ++ [10].
Lemma shell_runs_session_witness :
  exists lines, as_read lines /\ concat lines = demo_input /\
  session (fun _ _ => true) (fun _ => true) (fun _ => -1) demo_fds (Inherited 0) (Inherited 0) lines 0 =
  ([prompt demo_fds;
    ASpawn [ASpawn [AExec (bytes_of_string "ls") [bytes_of_string "ls"] (<[1%nat := Some (PipeW 0)]> demo_fds)];
            ASpawn [AExec (bytes_of_string "wc") [bytes_of_string "wc"] (<[0%nat := Some (PipeR 0)]> demo_fds)]; AWait; AWait];
    AWait; prompt demo_fds; ACall (Chdir (bytes_of_string "x")); AWrite (Some (Inherited 0)) (bytes_of_string "cannot cd x" ++ [10]);
    prompt demo_fds], 1%nat).
Proof.
  destruct (shell_runs_session (fun _ _ => true) (fun _ => true) (fun _ => -1) 7 7 demo_fds (Inherited 0) (Inherited 0) demo_input 0)
    as (lines & Hr & Hc & E); [lia|apply demo_roomy|apply (bool_decide_unpack _); vm_compute; exact I|].
  exists lines. split; [exact Hr|]. split; [exact Hc|]. rewrite <- E. vm_compute. reflexivity.
Defined.

(** The last byte of a [cd] line is dropped even if it is not the newline, as at the end
    of the input: the shell goes to another directory. *)
Theorem cd_drops_last_byte opens execs pid waits :
  fst (trace opens execs (fun _ => 0) pid waits (main_loop 9 (bytes_of_string "cd ab")) demo_fds 0) =
  [prompt demo_fds; ACall (Chdir (bytes_of_string "a")); prompt demo_fds].
Proof. vm_compute. reflexivity. Qed.
