(* ===== verification/Progs.v ===== *)
(** The small user programs: [echo.c], [kill.c], [ln.c], [mkdir.c], [rm.c], [zombie.c],
    [init.c] and [ls.c].

    Each is the tree of the system calls it makes ([Uproc]); [argv] has the program's name
    first.  [ls] also reads and asks for the status of files: it is the text it prints
    given the answers. *)

From S2P Require Import Prelude CString Printf Fs Uproc.

(** The arguments after the name. *)
Fixpoint echo_loop (argv : list (list Z)) : uproc :=
  match argv with
  | [] => UExit
  | a :: argv' => uprintf 1 "%s%s" [AStr a; AStr (match argv' with [] => [10] | _ => [32] end)] (echo_loop argv')
  end.
Definition echo_main (argv : list (list Z)) : uproc := echo_loop (tl argv).

Fixpoint kill_loop (argv : list (list Z)) : uproc :=
  match argv with
  | [] => UExit
  | a :: argv' => UCall (Kill (Ulib.atoi a)) (fun _ => kill_loop argv')
  end.
Definition kill_main (argv : list (list Z)) : uproc :=
  if (length argv <? 2)%nat then uprintln 2 "usage: kill pid..." [] UExit else kill_loop (tl argv).

Definition ln_main (argv : list (list Z)) : uproc :=
  match argv with
  | [_; old; new] => UCall (Link old new) (fun r => if r <? 0 then uprintln 2 "link %s %s: failed" [AStr old; AStr new] UExit else UExit)
  | _ => uprintln 2 "Usage: ln old new" [] UExit
  end.

(** The loops of [mkdir] and [rm]. *)
Fixpoint each (call : list Z -> ucall) (failed : string) (argv : list (list Z)) : uproc :=
  match argv with
  | [] => UExit
  | a :: argv' => UCall (call a) (fun r => if r <? 0 then uprintln 2 failed [AStr a] UExit else each call failed argv')
  end.
Definition mkdir_main (argv : list (list Z)) : uproc :=
  if (length argv <? 2)%nat then uprintln 2 "Usage: mkdir files..." [] UExit
  else each Mkdir "mkdir: %s failed to create" (tl argv).
Definition rm_main (argv : list (list Z)) : uproc :=
  if (length argv <? 2)%nat then uprintln 2 "Usage: rm files..." [] UExit
  else each Unlink "rm: %s failed to delete" (tl argv).

Definition zombie_main : uproc := UFork (fun pid => if pid >? 0 then UCall (SleepFor 5) (fun _ => UExit) else UExit).

(** [init]: [n] turns of its loop, and [m] children of others that it reaps in a turn. *)
Definition _put_name_in_console (k : uproc) : uproc := uprintln 1 "Welcome to xv6 modified by Babak-Aidin-Ali" [] k.
Fixpoint reap (m : nat) (pid : Z) (k : uproc) : uproc :=
  match m with
  | O => UExit
  | S m' => UWait (fun wpid => if (wpid >=? 0) && negb (wpid =? pid) then uprintln 1 "zombie!" [] (reap m' pid k) else k)
  end.
Fixpoint init_loop (n m : nat) : uproc :=
  match n with
  | O => UExit
  | S n' =>
      uprintln 1 "init: starting sh" []
        (_put_name_in_console
           (UFork (fun pid =>
              if pid <? 0 then uprintln 1 "init: fork failed" [] UExit
              else if pid =? 0 then UExec (bytes_of_string "sh") [bytes_of_string "sh"] (uprintln 1 "init: exec sh failed" [] UExit)
              else reap m pid (init_loop n' m))))
  end.
Definition init_main (n m : nat) : uproc :=
  let rest := UDup 0 (fun _ => UDup 0 (fun _ => init_loop n m)) in
  UOpen (bytes_of_string "console") 2 (fun fd =>
    if fd <? 0 then
      UCall (Mknod (bytes_of_string "console") 1 1) (fun _ => UOpen (bytes_of_string "console") 2 (fun _ => rest))
    else rest).

(** ** ls *)

(** The part after the last slash. *)
Fixpoint after_slash (path p : list Z) : list Z :=
  match path with
  | [] => p
  | c :: path' => if c =? 47 then after_slash path' path' else after_slash path' p
  end.
Definition fmtname (path : list Z) : list Z :=
  let p := after_slash path path in
  if (DIRSIZ <=? length p)%nat then p else p ++ replicate (DIRSIZ - length p) 32.

Section Ls.
(** [stat path]: type, inode number and size, or [None] if [open] or [fstat] fails;
    [entries path] are the entries of the directory as [read] gives them. *)
Context (stat : list Z -> option (Z * Z * Z)) (entries : list Z -> list (list Z)).
Definition ls_line (name : list Z) (st : Z * Z * Z) : list Z :=
  let '(type, ino, size) := st in
  default [] (Uprintf.printf (bytes_of_string "%s %d %d %d" ++ [10]) [AStr (fmtname name); AInt type; AInt ino; AInt size]).
(** [buf] ends with the name of the entry, cut at its NUL or at 14 bytes. *)
Fixpoint ls_entries (path : list Z) (es : list (list Z)) : list Z :=
  match es with
  | [] => []
  | de :: es' =>
      if negb (length de =? 16)%nat then []
      else if de_inum de =? 0 then ls_entries path es'
      else
        let buf := path ++ [47] ++ upto_nul (de_name de) in
        match stat buf with
        | None => default [] (Uprintf.printf (bytes_of_string "ls: cannot stat %s" ++ [10]) [AStr buf]) ++ ls_entries path es'
        | Some st => ls_line buf st ++ ls_entries path es'
        end
  end.
(** What is printed on descriptor 1; [None] if the path cannot be opened or its status
    not be had, which is reported on descriptor 2. *)
Definition ls (path : list Z) : option (list Z) :=
  match stat path with
  | None => None
  | Some st =>
      let '(type, _, _) := st in
      if type =? T_FILE then Some (ls_line path st)
      else if type =? T_DIR then
        if (512 <? length path + 1 + DIRSIZ + 1)%nat then Some (bytes_of_string "ls: path too long" ++ [10])
        else Some (ls_entries path (entries path))
      else Some []
  end.
Definition ls_main (argv : list (list Z)) : list (option (list Z)) :=
  match tl argv with
  | [] => [ls [46]]
  | paths => map ls paths
  end.
End Ls.

(** ** What they do *)

Section Programs.
Context (opens : list Z -> Z -> bool) (execs : list Z -> bool) (calls : ucall -> Z) (pid waits : Z).
Notation run := (trace opens execs calls pid waits).

(** [echo] writes its arguments with a blank between them and a newline at the end. *)
Theorem echo_prints t n name argv :
  run (echo_main (name :: argv)) t n =
  (match argv with [] => [] | _ => map (fun a => AWrite (obj t 1) (a ++ [32])) (removelast argv) ++ [AWrite (obj t 1) (List.last argv [] ++ [10])] end, n).
Proof.
  unfold echo_main. cbn [tl]. destruct argv as [|a argv]; [done|]. revert a; induction argv as [|b argv IH]; intros a; [done|].
  assert (E : run (echo_loop (a :: b :: argv)) t n = let '(l, m) := run (echo_loop (b :: argv)) t n in (AWrite (obj t 1) (a ++ [32]) :: l, m)) by done.
  rewrite E, IH. done.
Qed.

(** [rm] and [mkdir] go on to the first name for which the call fails, and report it. *)
Theorem each_calls t n call msg done_ argv :
  (forall a, a ∈ done_ -> 0 <= calls (call a)) ->
  run (each call msg (done_ ++ argv)) t n =
  (let '(l, n) := run (each call msg argv) t n in (map (fun a => ACall (call a)) done_ ++ l, n)).
Proof.
  induction done_ as [|a l IH]; intros Hd; cbn [app each map]; [by destruct (run (each call msg argv) t n)|]. cbn [trace].
  replace (calls (call a) <? 0) with false by (symmetry; apply Z.ltb_ge, Hd; by left). rewrite IH by (intros b Hb; apply Hd; by right). by destruct (run (each call msg argv) t n).
Qed.
Lemma each_fails t n call msg a argv : calls (call a) < 0 ->
  run (each call msg (a :: argv)) t n = ([ACall (call a); AWrite (obj t 2) (default [] (Uprintf.printf (bytes_of_string msg ++ [10]) [AStr a]))], n).
Proof. intros Ha. cbn [each trace]. rewrite (proj2 (Z.ltb_lt _ _)) by done. done. Qed.

(** [init] starts the shell with the console as descriptors 0, 1 and 2, opened at once or
    after its device file has been made. *)
Theorem init_starts_shell free m :
  0 < pid -> execs (bytes_of_string "sh") = true -> opens (bytes_of_string "console") 2 = true ->
  let con := Some (Opened (bytes_of_string "console") 2) in
  exists rest, fst (run (init_main 1 (S m)) (None :: None :: None :: free) 0) =
    [AWrite con (bytes_of_string "init: starting sh" ++ [10]); AWrite con (bytes_of_string "Welcome to xv6 modified by Babak-Aidin-Ali" ++ [10]);
     ASpawn [AExec (bytes_of_string "sh") [bytes_of_string "sh"] (con :: con :: con :: free)]] ++ rest.
Proof.
  intros Hp He Ho con. set (T := con :: con :: con :: free).
  assert (E1 : run (init_main 1 (S m)) (None :: None :: None :: free) 0 = run (init_loop 1 (S m)) T 0).
  { unfold init_main. cbn [trace lowest]. rewrite Ho. reflexivity. }
  rewrite E1. cbn [init_loop uprintln _put_name_in_console trace]. change (0 <? 0) with false. change (0 =? 0) with true. cbv iota.
  replace (pid <? 0) with false by lia. replace (pid =? 0) with false by lia. cbn [trace]. rewrite He.
  destruct (run (reap (S m) pid (init_loop 0 (S m))) T 0) as [l k] eqn:E. exists l. cbn [init_loop reap trace] in E |- *. rewrite E. reflexivity.
Qed.
End Programs.

Lemma after_slash_spec a b : 47 ∉ b -> forall p, after_slash (a ++ 47 :: b) p = b.
Proof.
  intros Hb. assert (H : forall l p, 47 ∉ l -> after_slash l p = p).
  { induction l as [|c l IH]; intros p; cbn; [done|]. rewrite not_elem_of_cons. intros [Hc Hl]. rewrite (proj2 (Z.eqb_neq c 47)) by done. by apply IH. }
  induction a as [|c a IH]; intros p; cbn; [by apply H|]. destruct (c =? 47); apply IH.
Qed.
(** [fmtname] of a path is its last component, padded with blanks to 14 bytes. *)
Theorem fmtname_pads dir name : 47 ∉ name -> fmtname (dir ++ 47 :: name) = name ++ replicate (DIRSIZ - length name) 32.
Proof.
  intros Hn. unfold fmtname. rewrite after_slash_spec by done. destruct (Nat.leb_spec DIRSIZ (length name)) as [Hl|Hl]; [|done].
  replace (DIRSIZ - length name)%nat with 0%nat by lia. by rewrite app_nil_r.
Qed.
