(* ===== verification/Descriptors.v ===== *)
(** The descriptors of a process: the traces of [Uproc] and the kernel of [File] agree.

    [Uproc] has a table of what each descriptor refers to; the kernel has the indices of
    entries of the file table.  Given what each entry stands for, a call of [close],
    [dup], [pipe] or [fork] that returns does to the one what [Uproc] says of the other. *)

From S2P Require Import Prelude Guarded Fs File FileRefs Printf Uproc.

Section Descriptors.
(** What an entry of the file table stands for. *)
Context (stands : nat -> fobj).
Definition view (l : list (option nat)) : list (option fobj) := fmap (M := list) (fmap (M := option) stands) l.

Lemma view_lookup l k : view l !! k = fmap stands <$> l !! k.
Proof. apply list_lookup_fmap. Qed.
Lemma view_insert l k o : view (<[k := o]> l) = <[k := stands <$> o]> (view l).
Proof. apply list_fmap_insert. Qed.
Lemma free_fd_lowest l : forall k, free_fd l k = (fun d => (k + d)%nat) <$> lowest (view l).
Proof.
  induction l as [|[f|] l IH]; intros k; cbn; [done| |by rewrite Nat.add_0_r]. rewrite IH. fold (view l). destruct (lowest (view l)); cbn; [f_equal; lia|done].
Qed.

Context {E : Type} `{PipeEnv E} (me : nat) (mypid : Z) (cur : nat).
Implicit Types x : fstate E.

Lemma argfd_obj fd x l : row x cur l -> length l = NOFILE ->
  wlp (argfd cur (Some fd)) (fun o x' => x' = x /\
    match obj (view l) fd with
    | Some ob => exists f, o = Some (Z.to_nat fd, f) /\ 0 <= fd /\ l !! Z.to_nat fd = Some (Some f) /\ stands f = ob
    | None => o = None
    end) x.
Proof.
  intros Hl Hn. unfold argfd, obj. destruct (Z.ltb_spec fd 0); cbn [orb]; [by wl|]. rewrite view_lookup. destruct (Z.geb_spec fd (Z.of_nat NOFILE)).
  - wl. split; [done|]. by rewrite (lookup_ge_None_2 l) by lia.
  - unfold descriptors. wl. unfold row in Hl. simplify_eq. split; [done|]. match goal with E : _ !! Z.to_nat fd = Some ?o |- _ => rewrite E; destruct o as [f|]; cbn; [exists f; split_and!; (done || lia)|done] end.
Qed.
Lemma fdalloc_lowest f x l : row x cur l ->
  wlp (fdalloc cur f) (fun o x' => o = lowest (view l) /\ x_ft x' = x_ft x /\ row x' cur (match o with Some d => <[d := Some f]> l | None => l end)) x.
Proof.
  intros Hl. unfold fdalloc, descriptors. wl. unfold row in Hl. simplify_eq. rewrite free_fd_lowest. destruct (lowest (view l)) as [d|]; cbn; [|by wl].
  unfold set_fd, set_fd_of. wl. split; [done|]. split; [done|]. unfold row. cbn. by rewrite list_lookup_alter_eq, Hl.
Qed.

(** [dup] gives the lowest free descriptor the same file. *)
Theorem dup_descriptors fd x l : row x cur l -> length l = NOFILE ->
  wlp (sys_dup me cur (Some fd)) (fun r x' => exists l', row x' cur l' /\
    match obj (view l) fd, lowest (view l) with
    | Some o, Some d => r = Z.of_nat d /\ view l' = <[d := Some o]> (view l)
    | _, _ => r = -1 /\ l' = l
    end) x.
Proof.
  intros Hl Hn. unfold sys_dup. wl. eapply wlp_mono; [by apply argfd_obj|]. intros o x1 (-> & Ho). destruct (obj (view l) fd) as [ob|]; [|subst o; wl; by exists l].
  destruct Ho as (f & -> & _ & Hf & Hs). wl. eapply wlp_mono; [by apply fdalloc_lowest|]. intros o x1 (-> & _ & Hr). destruct (lowest (view l)) as [d|]; [|wl; by exists l].
  wl. eapply wlp_mono; [apply filedup_run|]. intros r x2 (_ & fl & _ & _ & _ & Ef). wl. exists (<[d := Some f]> l). unfold row. rewrite Ef. split; [done|]. split; [done|]. rewrite view_insert. cbn. by rewrite Hs.
Qed.
(** [close] frees the descriptor. *)
Theorem close_descriptors fd x l : row x cur l -> length l = NOFILE ->
  wlp (sys_close me mypid cur (Some fd)) (fun r x' => exists l', row x' cur l' /\
    match obj (view l) fd with
    | Some _ => r = 0 /\ view l' = <[Z.to_nat fd := None]> (view l)
    | None => r = -1 /\ l' = l
    end) x.
Proof.
  intros Hl Hn. unfold sys_close. wl. eapply wlp_mono; [by apply argfd_obj|]. intros o x1 (-> & Ho). destruct (obj (view l) fd) as [ob|]; [|subst o; wl; by exists l].
  destruct Ho as (f & -> & _ & Hf & Hs). unfold set_fd, set_fd_of. wl. eapply wlp_mono; [apply fileclose_run|]. intros _ x2 (fl & _ & _ & _ & Ef). wl.
  exists (<[Z.to_nat fd := None]> l). unfold row. rewrite Ef. cbn. rewrite list_lookup_alter_eq, Hl. split; [done|]. split; [done|]. by rewrite view_insert.
Qed.
(** The child of a [fork] has the descriptors of its parent. *)
Lemma fork_files_copies np l n : forall fd x lc, np <> cur -> row x cur l -> row x np lc -> length l = NOFILE -> length lc = NOFILE -> (fd + n = NOFILE)%nat ->
  (forall k, (k < fd)%nat -> lc !! k = l !! k) -> (forall k, (fd <= k < NOFILE)%nat -> lc !! k = Some None) ->
  wlp (fork_files me cur np n fd) (fun _ x' => row x' np l /\ row x' cur l) x.
Proof.
  induction n as [|n IH]; intros fd x lc Hne Hl Hc Hn Hnc Hfd Hlt Hge; cbn [fork_files].
  - wl. split; [|done]. replace l with lc; [done|]. apply list_eq. intros k. destruct (decide (k < fd)%nat); [by apply Hlt|]. by rewrite !lookup_ge_None_2 by lia.
  - unfold descriptors. wl. unfold row in Hl, Hc. simplify_eq. match goal with E : l !! fd = Some ?o |- _ => rename o into o', E into Eo end.
    assert (Hnext : forall y lc', row y cur l -> row y np lc' -> length lc' = NOFILE -> lc' !! fd = Some o' -> (forall k, k <> fd -> lc' !! k = lc !! k) ->
      wlp (fork_files me cur np n (S fd)) (fun _ x' => row x' np l /\ row x' cur l) y).
    { intros y lc' H1 H2 H3 H4 H5. apply (IH _ _ lc'); try done; [lia| |].
      - intros k Hk. destruct (decide (k = fd)) as [->|]; [by rewrite H4|]. rewrite H5 by done. apply Hlt. lia.
      - intros k Hk. rewrite H5 by lia. apply Hge. lia. }
    destruct o' as [f|]; wl; [|by apply (Hnext x lc); [done..|apply Hge; lia|]]. eapply wlp_mono; [apply filedup_run|]. intros r x1 (-> & fl & _ & _ & _ & Ef). unfold set_fd_of. wl.
    apply (Hnext _ (<[fd := Some f]> lc)); unfold row; cbn; rewrite ?Ef.
    + by rewrite list_lookup_alter_ne.
    + by rewrite list_lookup_alter_eq, Hc.
    + by rewrite length_insert.
    + apply list_lookup_insert_eq. lia.
    + intros k Hk. by rewrite list_lookup_insert_ne.
Qed.
Theorem fork_descriptors np x l : np <> cur -> row x cur l -> length l = NOFILE -> row x np (replicate NOFILE None) ->
  wlp (fork_fds me cur np) (fun _ x' => row x' np l /\ row x' cur l) x.
Proof.
  intros Hne Hl Hn Hc. apply (fork_files_copies np l NOFILE 0 x (replicate NOFILE None)); try done; [lia|].
  intros k Hk. apply lookup_replicate. split; [done|lia].
Qed.
(** [pipe] takes the two lowest free descriptors, the first for reading. *)
Lemma FT_fds {A} (m : M (guarded (list file)) A) x : wlp (FT m) (fun _ x' => x_fds x' = x_fds x) x.
Proof. unfold wlp, FT, zoom. by destruct (m _). Qed.
Lemma fileclose_fds f x : wlp (fileclose me mypid f) (fun _ x' => x_fds x' = x_fds x) x.
Proof. eapply wlp_mono; [apply fileclose_run|]. by intros _ x' (fl & _ & _ & _ & Ef). Qed.
Lemma pipealloc_fds x : wlp (pipealloc me mypid) (fun _ x' => x_fds x' = x_fds x) x.
Proof.
  unfold pipealloc. wl. eapply wlp_mono; [apply FT_fds|]. intros [f0|] x1 E1; [|by wl]. wl. eapply wlp_mono; [apply FT_fds|]. intros [f1|] x2 E2.
  - wl. apply wlp_EV. intros [p|] e; wl.
    + unfold upd_file. wl. cbn. congruence.
    + eapply wlp_mono; [apply fileclose_fds|]. cbv beta. intros _ x3 E3. wl. eapply wlp_mono; [apply fileclose_fds|]. cbv beta. intros _ x4 E4. wl. rewrite E4, E3. cbn. congruence.
  - wl. eapply wlp_mono; [apply fileclose_fds|]. cbv beta. intros _ x3 E3. wl. congruence.
Qed.
Theorem pipe_descriptors x l : row x cur l ->
  wlp (sys_pipe me mypid cur true) (fun r x' =>
    match r with
    | Some (a, b) => exists rf wf, lowest (view l) = Some a /\ lowest (<[a := Some (stands rf)]> (view l)) = Some b /\ row x' cur (<[b := Some wf]> (<[a := Some rf]> l))
    | None => exists l', row x' cur l' /\ (lowest (view l) = None -> l' = l)
    end) x.
Proof.
  intros Hl. unfold sys_pipe. cbn [negb]. wl. eapply wlp_mono; [apply pipealloc_fds|]. intros [[rf wf]|] x1 E1; [|wl; exists l; unfold row; by rewrite E1].
  assert (Hl1 : row x1 cur l) by (unfold row; by rewrite E1). wl. eapply wlp_mono; [by apply fdalloc_lowest|]. intros o x2 (-> & _ & Hr2). destruct (lowest (view l)) as [a|] eqn:Ea.
  - wl. eapply wlp_mono; [by apply fdalloc_lowest|]. intros o x3 (Eo & _ & Hr3). rewrite view_insert in Eo. cbn [fmap option_fmap option_map] in Eo. destruct o as [b|].
    + wl. exists rf, wf. done.
    + unfold set_fd, set_fd_of. wl. eapply wlp_mono; [apply fileclose_fds|]. cbv beta. intros _ x4 E4. wl. eapply wlp_mono; [apply fileclose_fds|]. cbv beta. intros _ x5 E5. wl.
      exists (<[a := None]> (<[a := Some rf]> l)). unfold row. rewrite E5, E4. cbn. by rewrite list_lookup_alter_eq, Hr3.
  - wl. eapply wlp_mono; [apply fileclose_fds|]. cbv beta. intros _ x4 E4. wl. eapply wlp_mono; [apply fileclose_fds|]. cbv beta. intros _ x5 E5. wl.
    exists l. unfold row. by rewrite E5, E4.
Qed.
End Descriptors.
