(* ===== verification/Filters.v ===== *)
(** The main programs of [cat.c], [wc.c] and [grep.c]: over the files named as arguments,
    or the standard input, each applies the routine of [Text] or [Grep] and writes the
    result to the standard output. *)

From S2P Require Import Prelude CString Printf Grep Text.

(** [printf] of a format that ends with a newline. *)
Definition sprintln (fmt : string) (args : list varg) : list Z := default [] (Uprintf.printf (bytes_of_string fmt ++ [10]) args).

Section Main.
(** What [open] and then [read] give for a name, and what [read] gives on descriptor 0. *)
Context (files : list Z -> option (list (list Z))) (stdin : list (list Z)).

(** The loop over the arguments: a file that cannot be opened ends the program.  The
    result is what is written to descriptor 1, or [None] if a routine does not end. *)
Fixpoint over_files (cannot : string) (run : list Z -> list (list Z) -> option (list Z)) (argv : list (list Z)) : option (list Z) :=
  match argv with
  | [] => Some []
  | name :: argv' =>
      match files name with
      | None => Some (sprintln cannot [AStr name])
      | Some input =>
          out ← run name input;
          rest ← over_files cannot run argv';
          Some (out ++ rest)
      end
  end.
Definition cat_main (argv : list (list Z)) : option (list Z) :=
  match tl argv with
  | [] => cat stdin
  | names => over_files "cat: cannot open %s" (fun _ => cat) names
  end.
Definition wc_print (name : list Z) (input : list (list Z)) : option (list Z) :=
  s ← wc input;
  Some (sprintln "%d %d %d %s" [AInt (wc_l s); AInt (wc_w s); AInt (wc_c s); AStr name]).
Definition wc_main (argv : list (list Z)) : option (list Z) :=
  match tl argv with
  | [] => wc_print [] stdin
  | names => over_files "wc: cannot open %s" wc_print names
  end.
(** The usage message is written to descriptor 2. *)
Definition grep_main (argv : list (list Z)) : option (list Z) :=
  match tl argv with
  | [] => Some []
  | [pattern] => grep pattern stdin
  | pattern :: names => over_files "grep: cannot open %s" (fun _ => grep pattern) names
  end.

(** *** What they write *)

Lemma over_files_all cannot run f names :
  Forall (fun n => exists input, files n = Some input /\ run n input = Some (f n)) names ->
  over_files cannot run names = Some (concat (map f names)).
Proof.
  induction 1 as [|n names (input & E1 & E2) _ IH]; [done|]. cbn [over_files]. rewrite E1. cbn [mbind option_bind]. rewrite E2. cbn [mbind option_bind]. by rewrite IH.
Qed.
(** The first file that is missing ends the run, after the ones before it. *)
Theorem over_files_missing cannot run f names n rest :
  Forall (fun n => exists input, files n = Some input /\ run n input = Some (f n)) names -> files n = None ->
  over_files cannot run (names ++ n :: rest) = Some (concat (map f names) ++ sprintln cannot [AStr n]).
Proof.
  intros HF Hn. induction HF as [|a names (input & E1 & E2) _ IH]; cbn [app over_files]; [by rewrite Hn|]. rewrite E1. cbn [mbind option_bind]. rewrite E2. cbn [mbind option_bind]. rewrite IH. cbn. by rewrite app_assoc.
Qed.
(** A file, by its bytes; [read] gives some unless it is at the end. *)
Definition holds (n : list Z) (text : list Z) : Prop := exists input, files n = Some input /\ Forall (fun c => c <> []) input /\ concat input = text.

(** [cat] writes the files one after the other. *)
Theorem cat_main_concatenates name names (text : list Z -> list Z) :
  Forall (fun n => holds n (text n)) names -> names <> [] -> cat_main (name :: names) = Some (concat (map text names)).
Proof.
  intros HF Hn. unfold cat_main. cbn [tl]. destruct names as [|n names]; [done|]. apply over_files_all. eapply Forall_impl; [exact HF|].
  intros m (input & E & Hi & <-). exists input. split; [done|]. unfold cat. by rewrite cat_loop_spec by (done || lia).
Qed.
(** [wc] writes a line per file: its newlines, words and bytes. *)
Theorem wc_main_counts name names (text : list Z -> list Z) :
  Forall (fun n => holds n (text n) /\ Z.of_nat (length (text n)) <= INT_MAX) names -> names <> [] ->
  wc_main (name :: names) = Some (concat (map (fun n =>
    sprintln "%d %d %d %s" [AInt (Z.of_nat (newlines (text n))); AInt (Z.of_nat (word_starts true (text n))); AInt (Z.of_nat (length (text n))); AStr n]) names)).
Proof.
  intros HF Hn. unfold wc_main. cbn [tl]. destruct names as [|n names]; [done|]. apply over_files_all. eapply Forall_impl; [exact HF|].
  intros m [(input & E & Hi & <-) Hl]. exists input. split; [done|]. unfold wc_print. destruct (wc_counts input Hi Hl) as [i Ew]. by rewrite Ew.
Qed.
(** [grep] writes the matching lines of the files, in order. *)
Theorem grep_main_prints name pattern names (text : list Z -> list Z) :
  Forall (fun n => files n = Some (file_input (text n)) /\ 0 ∉ text n /\ lines_fit (text n)) names -> names <> [] ->
  grep_main (name :: pattern :: names) =
    Some (concat (map (fun n => concat (map (fun l => l ++ [10]) (filter (fun l => match_ pattern l = true) (lines (text n))))) names)).
Proof.
  intros HF Hn. unfold grep_main. cbn [tl]. destruct names as [|n names]; [done|]. apply over_files_all. eapply Forall_impl; [exact HF|].
  intros m (E & H0 & Hfit). exists (file_input (text m)). split; [done|]. by apply grep_file.
Qed.
End Main.
