(* ===== verification/Machine.v ===== *)
(** The machine around the CPUs: the tables that describe it ([mp.c]) and the I/O APIC
    ([ioapic.c]).

    [Module Mp] reads physical memory; [Module Ioapic] has the registers of the I/O APIC,
    which are reached through an index register and a data register. *)

From S2P Require Import Prelude CString Bytes.

Module Mp.

(** Bytes of physical memory. *)
Notation memory := (Z -> Z).
Fixpoint word (n : nat) (m : memory) (a : Z) : Z :=
  match n with
  | O => 0
  | S n' => m a + 256 * word n' m (a + 1)
  end.

Definition sizeof_mp : Z := 16.
Definition mp_physaddr (m : memory) (p : Z) : Z := word 4 m (p + 4).
Definition mp_imcrp (m : memory) (p : Z) : Z := m (p + 12).
Definition sizeof_mpconf : Z := 44.
Definition conf_length (m : memory) (c : Z) : Z := word 2 m (c + 4).
Definition conf_version (m : memory) (c : Z) : Z := m (c + 6).
Definition conf_lapicaddr (m : memory) (c : Z) : Z := word 4 m (c + 36).
Definition sizeof_mpproc : Z := 20.
Definition proc_apicid (m : memory) (p : Z) : Z := m (p + 1).
Definition sizeof_mpioapic : Z := 8.
Definition ioapic_apicno (m : memory) (p : Z) : Z := m (p + 1).
Definition MPPROC : Z := 0.
Definition MPBUS : Z := 1.
Definition MPIOAPIC : Z := 2.
Definition MPIOINTR : Z := 3.
Definition MPLINTR : Z := 4.
Definition NCPU : nat := 8.

Fixpoint sum_loop (n : nat) (m : memory) (a : Z) : Z :=
  match n with
  | O => 0
  | S n' => m a + sum_loop n' m (a + 1)
  end.
Definition sum (m : memory) (a len : Z) : Z := u8 (sum_loop (Z.to_nat len) m a).

(** [memcmp] with four bytes. *)
Definition is_sig (m : memory) (a : Z) (sig : string) : bool := bool_decide (map m [a; a + 1; a + 2; a + 3] = bytes_of_string sig).

Definition is_mp (m : memory) (p : Z) : bool := is_sig m p "_MP_" && (sum m p sizeof_mp =? 0).
(** [n] structures from [p] on. *)
Fixpoint mpsearch_loop (n : nat) (m : memory) (p : Z) : option Z :=
  match n with
  | O => None
  | S n' => if is_mp m p then Some p else mpsearch_loop n' m (p + sizeof_mp)
  end.
Definition mpsearch1 (m : memory) (a len : Z) : option Z := mpsearch_loop (Z.to_nat ((len + sizeof_mp - 1) / sizeof_mp)) m a.

Definition mpsearch (m : memory) : option Z :=
  let bda := 0x400 in
  let p := Z.shiftl (Z.lor (Z.shiftl (m (bda + 0x0F)) 8) (m (bda + 0x0E))) 4 in
  let found := if ctrue p then mpsearch1 m p 1024
               else let p := Z.lor (Z.shiftl (m (bda + 0x14)) 8) (m (bda + 0x13)) * 1024 in mpsearch1 m (u32 (p - 1024)) 1024 in
  match found with
  | Some mp => Some mp
  | None => mpsearch1 m 0xF0000 0x10000
  end.

(** The floating pointer and the configuration table. *)
Definition mpconfig (m : memory) : option (Z * Z) :=
  match mpsearch m with
  | None => None
  | Some mp =>
      if mp_physaddr m mp =? 0 then None
      else
        let conf := mp_physaddr m mp in
        if negb (is_sig m conf "PCMP") then None
        else if negb (conf_version m conf =? 1) && negb (conf_version m conf =? 4) then None
        else if ctrue (sum m conf (conf_length m conf)) then None
        else Some (mp, conf)
  end.

(** [cpus] has the APIC numbers of [ncpu] CPUs. *)
Record mpstate := mk_mp { cpus : list Z; ioapicid : Z; lapic : Z; ismp : bool; imcr : bool }.
Definition add_cpu (id : Z) (s : mpstate) : mpstate :=
  if (length (cpus s) <? NCPU)%nat then mk_mp (cpus s ++ [id]) (ioapicid s) (lapic s) (ismp s) (imcr s) else s.
Definition set_ioapic (id : Z) (s : mpstate) : mpstate := mk_mp (cpus s) id (lapic s) (ismp s) (imcr s).
Definition set_ismp (b : bool) (s : mpstate) : mpstate := mk_mp (cpus s) (ioapicid s) (lapic s) b (imcr s).
Definition set_lapic (a : Z) (s : mpstate) : mpstate := mk_mp (cpus s) (ioapicid s) a (ismp s) (imcr s).
Definition set_imcr (s : mpstate) : mpstate := mk_mp (cpus s) (ioapicid s) (lapic s) (ismp s) true.

(** The loop over the entries; [break] leaves the [switch] only. *)
Fixpoint entries_loop (fuel : nat) (m : memory) (p e : Z) : M mpstate unit :=
  match fuel with
  | O => faults OutOfFuel
  | S f =>
      if negb (p <? e) then mret tt
      else if m p =? MPPROC then modify (add_cpu (proc_apicid m p)) ;; entries_loop f m (p + sizeof_mpproc) e
      else if m p =? MPIOAPIC then modify (set_ioapic (ioapic_apicno m p)) ;; entries_loop f m (p + sizeof_mpioapic) e
      else if (m p =? MPBUS) || (m p =? MPIOINTR) || (m p =? MPLINTR) then entries_loop f m (p + 8) e
      else modify (set_ismp false) ;; entries_loop f m p e
  end.
(** An entry takes eight bytes at least, and the table less than 65536. *)
Definition mpinit (fuel : nat) (m : memory) : M mpstate unit :=
  match mpconfig m with
  | None => panic "Expect to run on an SMP"
  | Some (mp, conf) =>
      modify (set_ismp true) ;;
      modify (set_lapic (conf_lapicaddr m conf)) ;;
      entries_loop fuel m (conf + sizeof_mpconf) (conf + conf_length m conf) ;;
      s ← get;
      if negb (ismp s) then panic "Didn't find a suitable machine"
      else when (ctrue (mp_imcrp m mp)) (modify set_imcr)
  end.
Definition TABLE_FUEL : nat := 8193.

(** *** Correctness *)

(** The first place, in steps of 16 bytes, with the signature and a good checksum. *)
Lemma mpsearch_loop_spec n m p :
  match mpsearch_loop n m p with
  | Some r => exists k, (k < n)%nat /\ r = p + sizeof_mp * Z.of_nat k /\ is_mp m r = true /\ forall j, (j < k)%nat -> is_mp m (p + sizeof_mp * Z.of_nat j) = false
  | None => forall j, (j < n)%nat -> is_mp m (p + sizeof_mp * Z.of_nat j) = false
  end.
Proof.
  revert p; induction n as [|n IH]; intros p; cbn [mpsearch_loop]; [lia|]. destruct (is_mp m p) eqn:E.
  - exists 0%nat. rewrite Z.mul_0_r, Z.add_0_r. split_and!; (done || lia).
  - specialize (IH (p + sizeof_mp)). assert (Hs : forall j, p + sizeof_mp + sizeof_mp * Z.of_nat j = p + sizeof_mp * Z.of_nat (S j)) by (unfold sizeof_mp; lia).
    destruct (mpsearch_loop n m (p + sizeof_mp)) as [r|].
    + destruct IH as (k & Hk & -> & Hr & Hj). exists (S k). rewrite Hs in *. split_and!; [lia|done|done|]. intros [|j] Hlt; [by rewrite Z.mul_0_r, Z.add_0_r|]. rewrite <- Hs. apply Hj. lia.
    + intros [|j] Hlt; [by rewrite Z.mul_0_r, Z.add_0_r|]. rewrite <- Hs. apply IH. lia.
Qed.

(** An entry of the table, as bytes. *)
Inductive entry :=
  | EProc (apicid : Z) (rest : list Z)
  | EIoapic (apicno : Z) (rest : list Z)
  | EOther (type : Z) (rest : list Z).
Definition entry_bytes (e : entry) : list Z :=
  match e with
  | EProc id r => MPPROC :: id :: r
  | EIoapic id r => MPIOAPIC :: id :: r
  | EOther t r => t :: r
  end.
Definition entry_ok (e : entry) : Prop :=
  match e with
  | EProc _ r => length r = 18%nat
  | EIoapic _ r => length r = 6%nat
  | EOther t r => (t = MPBUS \/ t = MPIOINTR \/ t = MPLINTR) /\ length r = 7%nat
  end.
Definition apply_entry (s : mpstate) (e : entry) : mpstate :=
  match e with
  | EProc id _ => add_cpu id s
  | EIoapic id _ => set_ioapic id s
  | EOther _ _ => s
  end.
Definition at_mem (m : memory) (a : Z) (l : list Z) : Prop := forall k x, l !! k = Some x -> m (a + Z.of_nat k) = x.
Lemma at_mem_app m a l r : at_mem m a (l ++ r) -> at_mem m a l /\ at_mem m (a + Z.of_nat (length l)) r.
Proof.
  intros H. split.
  - intros k x Hk. apply H. by apply lookup_app_l_Some.
  - intros k x Hk. rewrite <- Z.add_assoc, <- Nat2Z.inj_add. apply H. rewrite lookup_app_r by lia. by replace (length l + k - length l)%nat with k by lia.
Qed.
Lemma at_mem_head m a x l : at_mem m a (x :: l) -> m a = x.
Proof. intros H. rewrite <- (H 0%nat x) by done. f_equal. lia. Qed.

Lemma bind_modify {S B} (f : S -> S) (k : unit -> M S B) s : (modify f ≫= k) s = k tt (f s).
Proof. done. Qed.
Lemma entries_run es : forall fuel m p s, Forall entry_ok es -> at_mem m p (concat (map entry_bytes es)) -> (length es < fuel)%nat ->
  entries_loop fuel m p (p + Z.of_nat (length (concat (map entry_bytes es)))) s = Ret tt (fold_left apply_entry es s).
Proof.
  induction es as [|e es IH]; intros [|f] m p s Hok Hm Hf; try (cbn in Hf; lia); cbn [map concat entries_loop fold_left] in *.
  { by rewrite Z.add_0_r, Z.ltb_irrefl. }
  cbn [length] in Hf. apply Forall_cons in Hok as [He Hok]. apply at_mem_app in Hm as [Hme Hm]. rewrite length_app.
  assert (Hpos : (0 < length (entry_bytes e))%nat) by (by destruct e; cbn; lia). rewrite (proj2 (Z.ltb_lt _ _)) by lia. cbn [negb].
  replace (p + Z.of_nat (length (entry_bytes e) + length (concat (map entry_bytes es))))
    with (p + Z.of_nat (length (entry_bytes e)) + Z.of_nat (length (concat (map entry_bytes es)))) by lia.
  destruct e as [id r|id r|t r]; cbn [entry_bytes entry_ok apply_entry] in *; rewrite (at_mem_head _ _ _ _ Hme).
  - change (MPPROC =? MPPROC) with true. cbv iota. rewrite bind_modify. assert (Ei : proc_apicid m p = id) by (apply (Hme 1%nat); done). rewrite Ei.
    replace (p + sizeof_mpproc) with (p + Z.of_nat (length (MPPROC :: id :: r))) by (cbn [length]; rewrite He; done). apply IH; (done || lia).
  - change (MPIOAPIC =? MPPROC) with false. change (MPIOAPIC =? MPIOAPIC) with true. cbv iota. rewrite bind_modify. assert (Ei : ioapic_apicno m p = id) by (apply (Hme 1%nat); done). rewrite Ei.
    replace (p + sizeof_mpioapic) with (p + Z.of_nat (length (MPIOAPIC :: id :: r))) by (cbn [length]; rewrite He; done). apply IH; (done || lia).
  - destruct He as [Ht Hr]. assert (Et : (t =? MPPROC) = false /\ (t =? MPIOAPIC) = false /\ (t =? MPBUS) || (t =? MPIOINTR) || (t =? MPLINTR) = true) by (destruct Ht as [-> | [-> | ->]]; done).
    destruct Et as (-> & -> & ->). replace (p + 8) with (p + Z.of_nat (length (t :: r))) by (cbn [length]; rewrite Hr; done). apply IH; (done || lia).
Qed.
Lemma cpus_found es : forall s, cpus (fold_left apply_entry es s) = take NCPU (cpus s ++ omap (fun e => match e with EProc id _ => Some id | _ => None end) es) \/ (NCPU < length (cpus s))%nat.
Proof.
  induction es as [|e es IH]; intros s; cbn [fold_left].
  - destruct (decide (NCPU < length (cpus s))%nat); [by right|]. left. change (omap _ []) with (@nil Z). rewrite app_nil_r. symmetry. apply take_ge. lia.
  - destruct (decide (NCPU < length (cpus s))%nat) as [|Hle]; [by right|]. left. destruct (IH (apply_entry s e)) as [-> | H].
    + destruct e as [id r|id r|t r]; [|done..]. change (omap ?f (EProc id r :: es)) with (id :: omap f es). unfold apply_entry, add_cpu. destruct (Nat.ltb_spec (length (cpus s)) NCPU) as [Hlt|Hge]; cbn [cpus].
      * by rewrite <- app_assoc.
      * assert (length (cpus s) = NCPU) as E by lia. by rewrite !take_app_le by lia.
    + exfalso. destruct e as [id r|id r|t r]; cbn [apply_entry set_ioapic cpus] in H; try lia. unfold add_cpu in H. destruct (Nat.ltb_spec (length (cpus s)) NCPU); [|lia]. cbn [cpus] in H. rewrite length_app in H. cbn [length] in H. lia.
Qed.

(** [mpinit] reads the table: the CPUs are those of its processor entries, eight at most,
    in order. *)
Theorem mpinit_finds_cpus m mp conf es s :
  mpconfig m = Some (mp, conf) -> Forall entry_ok es -> at_mem m (conf + sizeof_mpconf) (concat (map entry_bytes es)) ->
  conf_length m conf = sizeof_mpconf + Z.of_nat (length (concat (map entry_bytes es))) -> (length es < TABLE_FUEL)%nat -> cpus s = [] ->
  exists s', mpinit TABLE_FUEL m s = Ret tt s' /\ lapic s' = conf_lapicaddr m conf /\
    cpus s' = take NCPU (omap (fun e => match e with EProc id _ => Some id | _ => None end) es).
Proof.
  intros Hc Hok Hm Hl Hf Hs. unfold mpinit. rewrite Hc. set (s1 := set_lapic (conf_lapicaddr m conf) (set_ismp true s)).
  rewrite !bind_modify. fold s1. rewrite Hl, Z.add_assoc.
  rewrite (bind_eq _ _ _ _ _ (entries_run es TABLE_FUEL m (conf + sizeof_mpconf) s1 Hok Hm Hf)).
  assert (Hkeep : forall es s, ismp (fold_left apply_entry es s) = ismp s /\ lapic (fold_left apply_entry es s) = lapic s).
  { clear. induction es as [|e es IH]; intros s; [done|]. cbn [fold_left]. destruct (IH (apply_entry s e)) as [-> ->]. destruct e; cbn; try done. unfold add_cpu. by destruct (_ <? _)%nat. }
  destruct (Hkeep es s1) as [Hi Hla]. rewrite (bind_eq get _ _ _ _ eq_refl). rewrite Hi. cbn [s1 set_lapic set_ismp ismp negb].
  assert (Hcp : cpus (fold_left apply_entry es s1) = take NCPU (omap (fun e => match e with EProc id _ => Some id | _ => None end) es)).
  { destruct (cpus_found es s1) as [E|E]; cbn [s1 set_lapic set_ismp cpus] in E; rewrite Hs in E; [done|cbn [length] in E; lia]. }
  destruct (ctrue (mp_imcrp m mp)); cbn [when]; eexists; (split; [reflexivity|]); (split; [exact Hla|exact Hcp]).
Qed.

(** At an entry of a type it does not know, [mpinit] stays for ever: the [break] after
    [ismp = 0] ends the [switch], not the loop. *)
Theorem mpinit_unknown_entry_hangs fuel m p e s :
  p < e -> 4 < m p -> exists s', entries_loop fuel m p e s = Fault OutOfFuel s'.
Proof.
  intros Hp Ht. revert s; induction fuel as [|f IH]; intros s; cbn [entries_loop]; [by exists s|]. rewrite (proj2 (Z.ltb_lt _ _)) by lia. cbn [negb].
  unfold MPPROC, MPIOAPIC, MPBUS, MPIOINTR, MPLINTR. rewrite !(proj2 (Z.eqb_neq (m p) _)) by lia. cbn [orb].
  rewrite bind_modify. apply IH.
Qed.
End Mp.

Module Ioapic.

Definition REG_ID : Z := 0.
Definition REG_VER : Z := 1.
Definition REG_TABLE : Z := 16.
Definition INT_DISABLED : Z := 65536.
Definition T_IRQ0 : Z := 32.

(** The index register, and the registers it selects. *)
Record ioapic := mk_ioapic { io_reg : Z; io_regs : Z -> Z }.
Definition ioapicread (reg : Z) : M ioapic Z :=
  modify (fun d => mk_ioapic reg (io_regs d)) ;;
  gets (fun d => io_regs d (io_reg d)).
Definition ioapicwrite (reg data : Z) : M ioapic unit :=
  modify (fun d => mk_ioapic reg (io_regs d)) ;;
  modify (fun d => mk_ioapic (io_reg d) (fun r => if r =? io_reg d then data else io_regs d r)).

Fixpoint mask_loop (n : nat) (i : Z) : M ioapic unit :=
  match n with
  | O => mret tt
  | S n' =>
      ioapicwrite (REG_TABLE + 2 * i) (Z.lor INT_DISABLED (T_IRQ0 + i)) ;;
      ioapicwrite (REG_TABLE + 2 * i + 1) 0 ;;
      mask_loop n' (i + 1)
  end.
(** A wrong [id] only has a message printed. *)
Definition ioapicinit : M ioapic unit :=
  v ← ioapicread REG_VER;
  let maxintr := Z.land (Z.shiftr v 16) 0xFF in
  ioapicread REG_ID ;;
  mask_loop (Z.to_nat (maxintr + 1)) 0.
Definition ioapicenable (irq cpunum : Z) : M ioapic unit :=
  ioapicwrite (REG_TABLE + 2 * irq) (T_IRQ0 + irq) ;;
  ioapicwrite (REG_TABLE + 2 * irq + 1) (Z.shiftl cpunum 24).

(** Whether interrupt [i] is delivered, with which vector and to which CPU. *)
Definition enabled (d : ioapic) (i : Z) : bool := Z.land (io_regs d (REG_TABLE + 2 * i)) INT_DISABLED =? 0.
Definition vector (d : ioapic) (i : Z) : Z := Z.land (io_regs d (REG_TABLE + 2 * i)) 0xFF.
Definition target (d : ioapic) (i : Z) : Z := Z.shiftr (io_regs d (REG_TABLE + 2 * i + 1)) 24.

Lemma write_run reg data d : ioapicwrite reg data d = Ret tt (mk_ioapic reg (fun r => if r =? reg then data else io_regs d r)).
Proof. done. Qed.
Lemma mask_loop_run n : forall i d, exists d', mask_loop n i d = Ret tt d' /\
  forall r, io_regs d' r =
    if (REG_TABLE + 2 * i <=? r) && (r <? REG_TABLE + 2 * (i + Z.of_nat n)) then
      (if (r - REG_TABLE) mod 2 =? 0 then Z.lor INT_DISABLED (T_IRQ0 + (r - REG_TABLE) / 2) else 0)
    else io_regs d r.
Proof.
  induction n as [|n IH]; intros i d; cbn [mask_loop].
  { exists d. split; [done|]. intros r. destruct (Z.leb_spec (REG_TABLE + 2 * i) r), (Z.ltb_spec r (REG_TABLE + 2 * (i + Z.of_nat 0))); (done || lia). }
  rewrite (bind_eq _ _ _ _ _ (write_run _ _ d)), (bind_eq _ _ _ _ _ (write_run _ _ _)). destruct (IH (i + 1) (mk_ioapic (REG_TABLE + 2 * i + 1)
    (fun r => if r =? REG_TABLE + 2 * i + 1 then 0 else io_regs (mk_ioapic (REG_TABLE + 2 * i) (fun r => if r =? REG_TABLE + 2 * i then Z.lor INT_DISABLED (T_IRQ0 + i) else io_regs d r)) r)))
    as (d' & E & H). exists d'. split; [exact E|]. intros r. rewrite H. cbn [io_regs]. unfold REG_TABLE in *.
  destruct (Z.eqb_spec r (16 + 2 * i + 1)) as [->|H1]; [|destruct (Z.eqb_spec r (16 + 2 * i)) as [->|H2]].
  - replace (16 + 2 * i + 1 - 16) with (1 + i * 2) by lia. rewrite Z.mod_add by lia.
    destruct (Z.leb_spec (16 + 2 * (i + 1)) (16 + 2 * i + 1)), (Z.leb_spec (16 + 2 * i) (16 + 2 * i + 1)), (Z.ltb_spec (16 + 2 * i + 1) (16 + 2 * (i + Z.of_nat (S n)))); (done || lia).
  - replace (16 + 2 * i - 16) with (0 + i * 2) by lia. rewrite Z.mod_add, Z.div_add by lia.
    destruct (Z.leb_spec (16 + 2 * (i + 1)) (16 + 2 * i)), (Z.leb_spec (16 + 2 * i) (16 + 2 * i)), (Z.ltb_spec (16 + 2 * i) (16 + 2 * (i + Z.of_nat (S n)))); (done || lia).
  - destruct (Z.leb_spec (16 + 2 * (i + 1)) r), (Z.leb_spec (16 + 2 * i) r), (Z.ltb_spec r (16 + 2 * (i + 1 + Z.of_nat n))), (Z.ltb_spec r (16 + 2 * (i + Z.of_nat (S n)))); cbn [andb]; (done || lia).
Qed.

(** After [ioapicinit] and [ioapicenable] of some interrupts, each to its CPU, exactly
    those interrupts are enabled, with vector 32 and up, and go where they were sent. *)
Theorem ioapic_enables d irq cpu :
  let maxintr := Z.land (Z.shiftr (io_regs d REG_VER) 16) 0xFF in
  0 <= irq <= maxintr -> maxintr < 224 -> 0 <= cpu < 256 ->
  exists d', (ioapicinit ;; ioapicenable irq cpu) d = Ret tt d' /\
    vector d' irq = T_IRQ0 + irq /\ target d' irq = cpu /\ forall i, 0 <= i <= maxintr -> enabled d' i = (i =? irq).
Proof.
  intros maxintr Hi Hm Hc. unfold ioapicinit. destruct (mask_loop_run (Z.to_nat (maxintr + 1)) 0 (mk_ioapic REG_ID (io_regs d))) as (d1 & E & Hd1).
  set (d2 := mk_ioapic (REG_TABLE + 2 * irq + 1) (fun r => if r =? REG_TABLE + 2 * irq + 1 then Z.shiftl cpu 24 else if r =? REG_TABLE + 2 * irq then T_IRQ0 + irq else io_regs d1 r)).
  exists d2. split.
  { unfold mbind, M_MBind, M_bind in *. unfold ioapicread, modify, gets, mbind, M_MBind, M_bind. cbn [io_regs io_reg]. fold maxintr. rewrite E. reflexivity. }
  unfold vector, target, enabled, d2. cbn [io_regs]. unfold REG_TABLE, T_IRQ0, INT_DISABLED in *. rewrite Z.eqb_refl. replace (16 + 2 * irq =? 16 + 2 * irq + 1) with false by lia. rewrite Z.eqb_refl.
  assert (Hsmall : forall x, 0 <= x < 256 -> Z.land x 0xFF = x /\ Z.land x 65536 = 0 /\ Z.land (Z.lor 65536 x) 65536 <> 0).
  { intros x Hx. assert (Hb : forall j, 8 <= j -> Z.testbit x j = false).
    { intros j Hj. destruct (Z.eq_dec x 0) as [->|]; [apply Z.bits_0|]. apply Z.bits_above_log2; [lia|]. apply Z.lt_le_trans with 8; [|done]. apply Z.log2_lt_pow2; lia. }
    split_and!.
    - change 0xFF with (Z.ones 8). rewrite Z.land_ones by lia. apply Z.mod_small. lia.
    - apply Z.bits_inj'. intros j Hj. change 65536 with (2 ^ 16). rewrite Z.land_spec, Z.pow2_bits_eqb, Z.bits_0 by lia. destruct (Z.eqb_spec 16 j) as [<-|]; [by rewrite Hb by lia|apply andb_false_r].
    - intros Ez. assert (Hf : Z.testbit (Z.land (Z.lor 65536 x) 65536) 16 = true) by (rewrite Z.land_spec, Z.lor_spec; done). by rewrite Ez, Z.bits_0 in Hf. }
  split_and!.
  - by apply Hsmall; lia.
  - rewrite Z.shiftr_shiftl_l by lia. by rewrite Z.sub_diag, Z.shiftl_0_r.
  - intros i Hi'. replace (16 + 2 * i =? 16 + 2 * irq + 1) with false by lia. destruct (Z.eqb_spec i irq) as [->|Hne].
    + rewrite Z.eqb_refl. apply Z.eqb_eq. by apply Hsmall; lia.
    + replace (16 + 2 * i =? 16 + 2 * irq) with false by lia. rewrite Hd1. replace ((16 + 2 * 0 <=? 16 + 2 * i) && (16 + 2 * i <? 16 + 2 * (0 + Z.of_nat (Z.to_nat (maxintr + 1))))) with true by lia.
      replace (16 + 2 * i - 16) with (0 + i * 2) by lia. rewrite Z.mod_add, Z.div_add by lia. cbn [Z.eqb]. apply Z.eqb_neq. change (0 mod 2 =? 0) with true. cbv iota. apply Hsmall. change (0 / 2) with 0. lia.
Qed.
End Ioapic.
