(* ===== verification/Devices.v ===== *)
(** Devices that are reached by ports and by memory-mapped registers: the clock and the
    local APIC ([lapic.c]) and the serial port ([uart.c]).

    [Module Clock] has every way the clock can go on while it is read: its registers are
    a function of the number of reads made so far.  [Module Lapic] and [Module Uart] have
    their device as an interface, with what the manuals say of it as laws, and an
    instance of them. *)

From S2P Require Import Prelude CString.

Module Clock.

(** [struct rtcdate]. *)
Record rtcdate := mk_date { second : Z; minute : Z; hour : Z; day : Z; month : Z; year : Z }.
#[export] Instance rtcdate_eq_dec : EqDecision rtcdate.
Proof. solve_decision. Defined.

Definition CMOS_STATA : Z := 0x0a.
Definition CMOS_STATB : Z := 0x0b.
Definition CMOS_UIP : Z := 128.
Definition SECS : Z := 0x00.
Definition MINS : Z := 0x02.
Definition HOURS : Z := 0x04.
Definition DAY : Z := 0x07.
Definition MONTH : Z := 0x08.
Definition YEAR : Z := 0x09.

(** The register selected by the last [outb(CMOS_PORT)], and the number of reads. *)
Record cmos := mk_cmos { cm_sel : Z; cm_reads : nat }.

Section Clock.
(** The bytes of the registers at each read. *)
Context (clock : nat -> Z -> Z).
Notation C := (M cmos).

Definition cmos_read (reg : Z) : C Z :=
  modify (fun s => mk_cmos reg (cm_reads s)) ;;
  s ← get;
  modify (fun s => mk_cmos (cm_sel s) (S (cm_reads s))) ;;
  mret (clock (cm_reads s) (cm_sel s)).
Definition fill_rtcdate : C rtcdate :=
  s ← cmos_read SECS;
  m ← cmos_read MINS;
  h ← cmos_read HOURS;
  d ← cmos_read DAY;
  mo ← cmos_read MONTH;
  y ← cmos_read YEAR;
  mret (mk_date s m h d mo y).

Fixpoint read_twice (fuel : nat) : C rtcdate :=
  match fuel with
  | O => faults OutOfFuel
  | S f =>
      t1 ← fill_rtcdate;
      a ← cmos_read CMOS_STATA;
      if ctrue (Z.land a CMOS_UIP) then read_twice f
      else
        t2 ← fill_rtcdate;
        if decide (t1 = t2) then mret t1 else read_twice f
  end.
Definition CONV (x : Z) : Z := Z.shiftr x 4 * 10 + Z.land x 0xf.
Definition conv (t : rtcdate) : rtcdate :=
  mk_date (CONV (second t)) (CONV (minute t)) (CONV (hour t)) (CONV (day t)) (CONV (month t)) (CONV (year t)).
Definition cmostime (fuel : nat) : C rtcdate :=
  sb ← cmos_read CMOS_STATB;
  let bcd := Z.land sb (Z.shiftl 1 2) =? 0 in
  t1 ← read_twice fuel;
  let t1 := if bcd then conv t1 else t1 in
  mret (mk_date (second t1) (minute t1) (hour t1) (day t1) (month t1) (u32 (year t1 + 2000))).

(** [_report_time] of [trap.c], on its static variables [last_ticks] and [last_time]; the
    first result is the number of ticks it prints, if it does. *)
Definition _report_time (fuel : nat) (ticks last_ticks : Z) (last_time : rtcdate) : C (option Z * Z * rtcdate) :=
  cur_time ← cmostime fuel;
  if u32 (second cur_time - second last_time) =? 1 then mret (Some (u32 (ticks - last_ticks)), ticks, cur_time)
  else mret (None, last_ticks, cur_time).

(** *** What it reads *)

(** The registers hold [t] at read [n], one after the other; the clock is not about to
    change them at read [n]. *)
Definition shows (t : rtcdate) (n : nat) : Prop :=
  clock n SECS = second t /\ clock (n + 1) MINS = minute t /\ clock (n + 2) HOURS = hour t /\
  clock (n + 3) DAY = day t /\ clock (n + 4) MONTH = month t /\ clock (n + 5) YEAR = year t.
Definition updating (n : nat) : bool := ctrue (Z.land (clock n CMOS_STATA) CMOS_UIP).
Definition quiet (t : rtcdate) (n : nat) : Prop := forall k, (n <= k < n + 26)%nat ->
  clock k SECS = second t /\ clock k MINS = minute t /\ clock k HOURS = hour t /\
  clock k DAY = day t /\ clock k MONTH = month t /\ clock k YEAR = year t /\ updating k = false.

Definition at_read (n : nat) : rtcdate := mk_date (clock n SECS) (clock (n + 1) MINS) (clock (n + 2) HOURS) (clock (n + 3) DAY) (clock (n + 4) MONTH) (clock (n + 5) YEAR).
Lemma at_read_shows n : shows (at_read n) n.
Proof. done. Qed.
Lemma fill_runs s n : cm_reads s = n -> fill_rtcdate s = Ret (at_read n) (mk_cmos YEAR (n + 6)).
Proof. intros <-. destruct s as [r n]. unfold fill_rtcdate, cmos_read. munfold. cbn [cm_reads cm_sel]. unfold at_read. do 2 f_equal; try lia; f_equal; lia. Qed.
(** One round of the loop. *)
Lemma read_twice_round f s n : cm_reads s = n ->
  read_twice (S f) s =
    if updating (n + 6) then read_twice f (mk_cmos CMOS_STATA (n + 7))
    else if decide (at_read n = at_read (n + 7)) then Ret (at_read n) (mk_cmos YEAR (n + 13))
    else read_twice f (mk_cmos YEAR (n + 13)).
Proof.
  intros Hn. cbn [read_twice]. rewrite (bind_eq _ _ _ _ _ (fill_runs s n Hn)). rewrite (bind_eq (cmos_read CMOS_STATA) _ _ _ _ eq_refl). cbn [cm_reads cm_sel].
  unfold updating. replace (S (n + 6)) with (n + 7)%nat by lia. destruct (ctrue _); [done|]. rewrite (bind_eq _ _ _ _ _ (fill_runs _ _ eq_refl)). cbn [cm_reads].
  replace (n + 7 + 6)%nat with (n + 13)%nat by lia. by destruct (decide _).
Qed.
(** Once the clock is quiet for two rounds, the loop ends; what it returns was shown twice. *)
Lemma read_twice_ends t N : quiet t N -> forall fuel s, (cm_reads s <= N + 12)%nat -> (N + 12 < cm_reads s + fuel)%nat ->
  exists n r, read_twice fuel s = Ret (at_read n) r /\ (cm_reads s <= n <= N + 12)%nat /\ shows (at_read n) (n + 7) /\ updating (n + 6) = false /\ ((N <= n)%nat -> at_read n = t).
Proof.
  intros Hq. induction fuel as [|f IH]; intros s H1 H2; [lia|]. set (n := cm_reads s) in *. rewrite (read_twice_round f s n eq_refl).
  assert (Hquiet : (N <= n)%nat -> updating (n + 6) = false /\ at_read n = t /\ at_read (n + 7) = t).
  { intros Hn. assert (Ht : forall k, (N <= k <= n + 7)%nat -> at_read k = t).
    { intros k Hk. destruct t. unfold at_read. f_equal; apply (Hq _); lia. }
    split; [apply (Hq _); lia|]. split; apply Ht; lia. }
  assert (Hnext : forall k r, (n < k)%nat -> (k <= n + 13)%nat -> (n < N)%nat -> cm_reads r = k ->
    exists n1 r1, read_twice f r = Ret (at_read n1) r1 /\ (n <= n1 <= N + 12)%nat /\ shows (at_read n1) (n1 + 7) /\ updating (n1 + 6) = false /\ ((N <= n1)%nat -> at_read n1 = t)).
  { intros k r Hk Hk' HN Hr. destruct (IH r) as (n1 & r1 & E & Hb & Hrest); [lia|lia|]. exists n1, r1. split; [done|]. split; [lia|done]. }
  destruct (updating (n + 6)) eqn:Eu.
  { apply (Hnext (n + 7)%nat); [lia|lia| |done]. destruct (le_lt_dec N n) as [Hn|]; [|lia]. by destruct (Hquiet Hn). }
  destruct (decide _) as [E|E].
  - exists n, (mk_cmos YEAR (n + 13)). split; [done|]. split; [lia|]. split; [rewrite E; apply at_read_shows|]. split; [done|]. intros Hn. by apply Hquiet.
  - apply (Hnext (n + 13)%nat); [lia|lia| |done]. destruct (le_lt_dec N n) as [Hn|]; [|lia]. destruct (Hquiet Hn) as (_ & A & B). by rewrite A, B in E.
Qed.

(** The result for the registers [t], and the status register [sb]. *)
Definition decoded (sb : Z) (t : rtcdate) : rtcdate :=
  let t := if Z.land sb 4 =? 0 then conv t else t in
  mk_date (second t) (minute t) (hour t) (day t) (month t) (u32 (year t + 2000)).
Lemma cmostime_runs t N fuel s : quiet t N -> (cm_reads s < N)%nat -> (N + 12 < cm_reads s + 1 + fuel)%nat ->
  exists n r, cmostime fuel s = Ret (decoded (clock (cm_reads s) CMOS_STATB) (at_read n)) r /\ (cm_reads s < n)%nat /\
    shows (at_read n) (n + 7) /\ updating (n + 6) = false /\ ((N <= n)%nat -> at_read n = t).
Proof.
  intros Hq Hs Hf. set (s1 := mk_cmos CMOS_STATB (S (cm_reads s))). destruct (read_twice_ends t N Hq fuel s1) as (n & r & E & Hn & Hrest); [cbn; lia|cbn; lia|].
  exists n, r. split; [|split; [cbn [s1 cm_reads] in Hn; lia|done]]. unfold cmostime. rewrite (bind_eq (cmos_read CMOS_STATB) _ _ _ _ eq_refl). fold s1. by rewrite (bind_eq _ _ _ _ _ E).
Qed.
End Clock.

(** [cmostime] returns once the clock has been left alone for two rounds, and what it
    returns is no mixture of two times: all six registers were read twice with the
    values it has, and the clock was not about to change them in between. *)
Theorem cmostime_consistent clock t N s : quiet clock t N -> (cm_reads s < N)%nat ->
  exists raw n r, cmostime clock (N + 12) s = Ret (decoded (clock (cm_reads s) CMOS_STATB) raw) r /\
    (cm_reads s < n)%nat /\ shows clock raw n /\ shows clock raw (n + 7) /\ updating clock (n + 6) = false.
Proof.
  intros Hq Hs. destruct (cmostime_runs clock t N (N + 12) s Hq Hs ltac:(lia)) as (n & r & E & Hn & Hsh & Hu & _).
  exists (at_read clock n), n, r. split; [done|]. split; [done|]. split; [apply at_read_shows|done].
Qed.

(** Two decimal digits, four bits each. *)
Definition bcd (x : Z) : Z := 16 * (x / 10) + x mod 10.
Lemma CONV_bcd x : 0 <= x < 100 -> CONV (bcd x) = x.
Proof.
  intros Hx. unfold CONV, bcd. change 0xf with (Z.ones 4). rewrite Z.land_ones, Z.shiftr_div_pow2 by lia. change (2 ^ 4) with 16.
  pose proof (Z.mod_pos_bound x 10 ltac:(lia)). pose proof (Z.div_mod x 10 ltac:(lia)).
  rewrite (Z.mul_comm 16), Z.div_add_l, (Z.div_small (x mod 10)) by lia. rewrite (Z.add_comm (x / 10 * 16)), Z.mod_add, Z.mod_small by lia. lia.
Qed.
Definition two_digits (t : rtcdate) : Prop :=
  0 <= second t < 100 /\ 0 <= minute t < 100 /\ 0 <= hour t < 100 /\ 0 <= day t < 100 /\ 0 <= month t < 100 /\ 0 <= year t < 100.
Definition encoded (binary : bool) (t : rtcdate) : rtcdate :=
  if binary then t else mk_date (bcd (second t)) (bcd (minute t)) (bcd (hour t)) (bcd (day t)) (bcd (month t)) (bcd (year t)).
Lemma decoded_encoded sb t : two_digits t ->
  decoded sb (encoded (negb (Z.land sb 4 =? 0)) t) = mk_date (second t) (minute t) (hour t) (day t) (month t) (2000 + year t).
Proof.
  destruct t as [a b c d e f]. intros (Ha & Hb & Hc & Hd & He & Hf). cbn [second minute hour day month year] in *. unfold decoded, encoded.
  destruct (_ =? 0); cbn [negb conv second minute hour day month year]; rewrite ?CONV_bcd by done; rewrite u32_small by lia; f_equal; lia.
Qed.
(** From a clock that shows a date and is left alone, whether it counts in binary or in
    decimal digits, [cmostime] gets that date. *)
Theorem cmostime_tells_date clock t s :
  two_digits t -> quiet clock (encoded (negb (Z.land (clock (cm_reads s) CMOS_STATB) 4 =? 0)) t) (S (cm_reads s)) ->
  exists r, cmostime clock 14 s = Ret (mk_date (second t) (minute t) (hour t) (day t) (month t) (2000 + year t)) r.
Proof.
  intros Ht Hq. destruct (cmostime_runs clock _ _ 14 s Hq ltac:(lia) ltac:(lia)) as (n & r & E & Hn & _ & _ & Ht'). exists r. rewrite E, Ht' by lia. by rewrite decoded_encoded.
Qed.
End Clock.

Module Lapic.

(** Indices of the registers, and bits in them. *)
Definition ID : Z := 0x0020 / 4.
Definition VER : Z := 0x0030 / 4.
Definition TPR : Z := 0x0080 / 4.
Definition EOI : Z := 0x00B0 / 4.
Definition SVR : Z := 0x00F0 / 4.
Definition ENABLE : Z := 0x100.
Definition ESR : Z := 0x0280 / 4.
Definition ICRLO : Z := 0x0300 / 4.
Definition INIT : Z := 0x500.
Definition STARTUP : Z := 0x600.
Definition DELIVS : Z := 0x1000.
Definition ASSERT : Z := 0x4000.
Definition LEVEL : Z := 0x8000.
Definition BCAST : Z := 0x80000.
Definition ICRHI : Z := 0x0310 / 4.
Definition TIMER : Z := 0x0320 / 4.
Definition X1 : Z := 0xB.
Definition PERIODIC : Z := 0x20000.
Definition PCINT : Z := 0x0340 / 4.
Definition LINT0 : Z := 0x0350 / 4.
Definition LINT1 : Z := 0x0360 / 4.
Definition ERROR : Z := 0x0370 / 4.
Definition MASKED : Z := 0x10000.
Definition TICR : Z := 0x0380 / 4.
Definition TDCR : Z := 0x03E0 / 4.
Definition T_IRQ0 : Z := 32.
Definition IRQ_TIMER : Z := 0.
Definition IRQ_ERROR : Z := 19.
Definition IRQ_SPURIOUS : Z := 31.

(** Loads and stores of the registers. *)
Class Apic (L : Type) := {
  ap_load : Z -> L -> Z * L;
  ap_store : Z -> Z -> L -> L }.

(** [hw_lapic] is what [lapic] points to, if it is not null; the memory, by physical
    addresses; what has been written to ports. *)
Record hw (L : Type) := mk_hw { hw_lapic : option L; hw_mem : memory; hw_ports : list (Z * Z) }.
Arguments mk_hw {L} _ _ _.
Arguments hw_lapic {L} _.
Arguments hw_mem {L} _ _.
Arguments hw_ports {L} _.

Section Lapic.
Context {L : Type} `{Apic L}.
Notation HW := (M (hw L)).

Definition set_lapic (d : option L) (s : hw L) : hw L := mk_hw d (hw_mem s) (hw_ports s).
Definition load (index : Z) : HW Z :=
  s ← get;
  match hw_lapic s with
  | None => faults NullDeref
  | Some d => modify (set_lapic (Some (snd (ap_load index d)))) ;; mret (fst (ap_load index d))
  end.
Definition store_reg (index value : Z) : HW unit :=
  s ← get;
  match hw_lapic s with
  | None => faults NullDeref
  | Some d => modify (set_lapic (Some (ap_store index (u32 value) d)))
  end.
Definition lapicw (index value : Z) : HW unit :=
  store_reg index value ;;
  load ID ;;
  mret tt.

Fixpoint wait_sent (fuel : nat) : HW unit :=
  match fuel with
  | O => faults OutOfFuel
  | S f => v ← load ICRLO; if ctrue (Z.land v DELIVS) then wait_sent f else mret tt
  end.
Definition lapicinit (patience : nat) : HW unit :=
  s ← get;
  match hw_lapic s with
  | None => mret tt
  | Some _ =>
      lapicw SVR (Z.lor ENABLE (T_IRQ0 + IRQ_SPURIOUS)) ;;
      lapicw TDCR X1 ;;
      lapicw TIMER (Z.lor PERIODIC (T_IRQ0 + IRQ_TIMER)) ;;
      lapicw TICR 10000000 ;;
      lapicw LINT0 MASKED ;;
      lapicw LINT1 MASKED ;;
      v ← load VER;
      when (Z.land (Z.shiftr v 16) 0xFF >=? 4) (lapicw PCINT MASKED) ;;
      lapicw ERROR (T_IRQ0 + IRQ_ERROR) ;;
      lapicw ESR 0 ;;
      lapicw ESR 0 ;;
      lapicw EOI 0 ;;
      lapicw ICRHI 0 ;;
      lapicw ICRLO (Z.lor (Z.lor BCAST INIT) LEVEL) ;;
      wait_sent patience ;;
      lapicw TPR 0
  end.
Definition lapicid : HW Z :=
  s ← get;
  match hw_lapic s with
  | None => mret 0
  | Some _ => v ← load ID; mret (Z.shiftr v 24)
  end.
Definition lapiceoi : HW unit :=
  s ← get;
  match hw_lapic s with
  | None => mret tt
  | Some _ => lapicw EOI 0
  end.

Definition port_outb (port v : Z) : HW unit := modify (fun s => mk_hw (hw_lapic s) (hw_mem s) (hw_ports s ++ [(port, u8 v)])).
Definition store16 (a v : Z) : HW unit := modify (fun s => mk_hw (hw_lapic s) (store (store (hw_mem s) a (u8 v)) (a + 1) (u8 (Z.shiftr v 8))) (hw_ports s)).
Fixpoint send_startup (n : nat) (apicid addr : Z) : HW unit :=
  match n with
  | O => mret tt
  | S n' =>
      lapicw ICRHI (Z.shiftl apicid 24) ;;
      lapicw ICRLO (Z.lor STARTUP (Z.shiftr addr 12)) ;;
      send_startup n' apicid addr
  end.
(** [picirq.c]: all interrupts of the old controllers are masked. *)
Definition picinit : HW unit :=
  port_outb (0x20 + 1) 0xFF ;;
  port_outb (0xA0 + 1) 0xFF.
(** [microdelay] does nothing. *)
Definition lapicstartap (apicid addr : Z) : HW unit :=
  port_outb 0x70 0xF ;;
  port_outb 0x71 0x0A ;;
  let wrv := Z.lor (Z.shiftl 0x40 4) 0x67 in
  store16 wrv 0 ;;
  store16 (wrv + 2) (Z.shiftr addr 4) ;;
  lapicw ICRHI (Z.shiftl apicid 24) ;;
  lapicw ICRLO (Z.lor (Z.lor INIT LEVEL) ASSERT) ;;
  lapicw ICRLO (Z.lor INIT LEVEL) ;;
  send_startup 2 apicid addr.
End Lapic.

(** ** A local APIC that works *)

(** An inter-processor interrupt, from the two command registers. *)
Record ipi := mk_ipi { ip_dest : Z; ip_mode : Z; ip_vector : Z; ip_assert : bool; ip_all : bool }.
Definition decode (hi lo : Z) : ipi :=
  mk_ipi (Z.shiftr hi 24) (Z.land (Z.shiftr lo 8) 7) (Z.land lo 0xFF) (Z.testbit lo 14) (Z.testbit lo 19).
(** Registers that keep what is stored in them. *)
Definition config (i : Z) : bool := bool_decide (i ∈ [SVR; TDCR; TIMER; TICR; LINT0; LINT1; PCINT; ERROR; TPR; ICRHI]).
Fixpoint polls {L} `{Apic L} (n : nat) (d : L) : L := match n with O => d | S n' => polls n' (snd (ap_load ICRLO d)) end.
Definition pending {L} `{Apic L} (d : L) : bool := ctrue (Z.land (fst (ap_load ICRLO d)) DELIVS).
(** [ap_sent] are the interrupts sent: one for every store to [ICRLO]. *)
Class ApicOk (L : Type) `{Apic L} := {
  ap_reg : L -> Z -> Z;
  ap_sent : L -> list ipi;
  ap_patience : nat;
  ok_store : forall d i v j, config j = true -> ap_reg (ap_store i v d) j = if config i && (j =? i) then v else ap_reg d j;
  ok_sent : forall d i v, ap_sent (ap_store i v d) = if i =? ICRLO then ap_sent d ++ [decode (ap_reg d ICRHI) v] else ap_sent d;
  ok_load : forall d i, ap_sent (snd (ap_load i d)) = ap_sent d /\ forall j, config j = true -> ap_reg (snd (ap_load i d)) j = ap_reg d j;
  ok_delivered : forall d, exists n, (n < ap_patience)%nat /\ (forall k, (k < n)%nat -> pending (polls k d) = true) /\ pending (polls n d) = false }.

Section Works.
Context {L : Type} `{HO : ApicOk L}.
Implicit Types (d : L) (m : memory).

Definition lw (i v : Z) (d : L) : L := snd (ap_load ID (ap_store i (u32 v) d)).
Lemma lapicw_runs i v d m p : lapicw i v (mk_hw (Some d) m p) = Ret tt (mk_hw (Some (lw i v d)) m p).
Proof. done. Qed.
Lemma lw_reg i v d j : config j = true -> ap_reg (lw i v d) j = if config i && (j =? i) then u32 v else ap_reg d j.
Proof. intros Hj. unfold lw. destruct (ok_load (ap_store i (u32 v) d) ID) as [_ E]. rewrite E by done. by apply ok_store. Qed.
Lemma lw_sent i v d : ap_sent (lw i v d) = if i =? ICRLO then ap_sent d ++ [decode (ap_reg d ICRHI) (u32 v)] else ap_sent d.
Proof. unfold lw. destruct (ok_load (ap_store i (u32 v) d) ID) as [E _]. rewrite E. apply ok_sent. Qed.
Lemma polls_ok n : forall d, ap_sent (polls n d) = ap_sent d /\ forall j, config j = true -> ap_reg (polls n d) j = ap_reg d j.
Proof.
  induction n as [|n IH]; intros d; [done|]. cbn [polls]. destruct (IH (snd (ap_load ICRLO d))) as [E1 E2], (ok_load d ICRLO) as [F1 F2].
  split; [by rewrite E1|]. intros j Hj. by rewrite E2, F2.
Qed.
Lemma wait_sent_loop n : forall fuel d m p, (n < fuel)%nat -> (forall k, (k < n)%nat -> pending (polls k d) = true) -> pending (polls n d) = false ->
  wait_sent fuel (mk_hw (Some d) m p) = Ret tt (mk_hw (Some (polls (S n) d)) m p).
Proof.
  induction n as [|n IH]; intros [|f] d m p Hf Hb Hr; try lia; cbn [wait_sent]; rewrite (bind_eq (load ICRLO) _ (mk_hw (Some d) m p) _ _ eq_refl).
  - unfold pending in Hr. cbn [polls] in Hr. by rewrite Hr.
  - pose proof (Hb 0%nat ltac:(lia)) as Hb0. unfold pending in Hb0. cbn [polls] in Hb0. rewrite Hb0. refine (IH f (snd (ap_load ICRLO d)) m p _ _ Hr); [lia|]. intros k Hk. exact (Hb (S k) ltac:(lia)).
Qed.
Lemma wait_sent_runs d m p : exists d', wait_sent ap_patience (mk_hw (Some d) m p) = Ret tt (mk_hw (Some d') m p) /\ ap_sent d' = ap_sent d /\
  forall j, config j = true -> ap_reg d' j = ap_reg d j.
Proof. destruct (ok_delivered d) as (n & Hn & Hb & Hr). exists (polls (S n) d). split; [by apply wait_sent_loop|]. apply polls_ok. Qed.

(** The value of a register after a row of stores. *)
Ltac regs := repeat
  (first [rewrite lw_reg by reflexivity | rewrite lw_sent];
   match goal with
   | |- context [if config ?i && (?j =? ?i) then _ else _] => let b := eval vm_compute in (config i && (j =? i)) in change (config i && (j =? i)) with b
   | |- context [if ?i =? ICRLO then _ else _] => let b := eval vm_compute in (i =? ICRLO) in change (i =? ICRLO) with b
   end; cbv iota).

(** [lapicinit] enables the local APIC: the timer interrupts periodically with the
    kernel's vector, errors have theirs, the lines of the old controller are masked, and
    no interrupt is held back for its priority. *)
Theorem lapicinit_configures d m p :
  exists d', lapicinit ap_patience (mk_hw (Some d) m p) = Ret tt (mk_hw (Some d') m p) /\
    Z.testbit (ap_reg d' SVR) 8 = true /\
    (Z.land (ap_reg d' TIMER) 0xFF = T_IRQ0 + IRQ_TIMER /\ Z.testbit (ap_reg d' TIMER) 16 = false /\ Z.testbit (ap_reg d' TIMER) 17 = true /\ ap_reg d' TICR = 10000000) /\
    Z.land (ap_reg d' ERROR) 0xFF = T_IRQ0 + IRQ_ERROR /\
    Z.testbit (ap_reg d' LINT0) 16 = true /\ Z.testbit (ap_reg d' LINT1) 16 = true /\ ap_reg d' TPR = 0 /\
    ap_sent d' = ap_sent d ++ [mk_ipi 0 5 0 false true].
Proof.
  set (d6 := lw LINT1 MASKED (lw LINT0 MASKED (lw TICR 10000000 (lw TIMER (Z.lor PERIODIC (T_IRQ0 + IRQ_TIMER)) (lw TDCR X1 (lw SVR (Z.lor ENABLE (T_IRQ0 + IRQ_SPURIOUS)) d)))))).
  destruct (ok_load d6 VER) as [V1 V2]. set (v := fst (ap_load VER d6)). set (dv := snd (ap_load VER d6)) in *.
  set (c := Z.land (Z.shiftr v 16) 0xFF >=? 4). set (dp := if c then lw PCINT MASKED dv else dv).
  assert (P1 : ap_sent dp = ap_sent d) by (unfold dp; destruct c; regs; rewrite V1; unfold d6; by regs).
  assert (P2 : forall j, config j = true -> j <> PCINT -> ap_reg dp j = ap_reg d6 j).
  { intros j Hj Hn. unfold dp. destruct c; [|by apply V2]. rewrite lw_reg by done. apply Z.eqb_neq in Hn. rewrite Hn, andb_false_r. by apply V2. }
  set (d11 := lw ICRLO (Z.lor (Z.lor BCAST INIT) LEVEL) (lw ICRHI 0 (lw EOI 0 (lw ESR 0 (lw ESR 0 (lw ERROR (T_IRQ0 + IRQ_ERROR) dp)))))).
  destruct (wait_sent_runs d11 m p) as (d12 & E12 & W1 & W2). exists (lw TPR 0 d12). split.
  - unfold lapicinit. rewrite (bind_eq get _ _ _ _ eq_refl). cbn [hw_lapic]. do 6 rewrite (bind_eq _ _ _ _ _ (lapicw_runs _ _ _ _ _)).
    fold d6. rewrite (bind_eq (load VER) _ (mk_hw (Some d6) m p) v (mk_hw (Some dv) m p) eq_refl). fold c.
    rewrite (bind_eq (when c (lapicw PCINT MASKED)) _ _ tt (mk_hw (Some dp) m p)) by (unfold dp; by destruct c).
    do 6 rewrite (bind_eq _ _ _ _ _ (lapicw_runs _ _ _ _ _)). fold d11. by rewrite (bind_eq _ _ _ _ _ E12).
  - repeat split; regs; rewrite ?W1, ?W2 by reflexivity; unfold d11; regs; rewrite ?P1, ?P2 by done; unfold d6; regs; done.
Qed.

Lemma startup_command k : 0 <= k < 256 -> let lo := u32 (Z.lor STARTUP k) in
  Z.land (Z.shiftr lo 8) 7 = 6 /\ Z.land lo 0xFF = k /\ Z.testbit lo 14 = false /\ Z.testbit lo 19 = false.
Proof.
  assert (Hall : forallb (fun k => let lo := u32 (Z.lor STARTUP k) in (Z.land (Z.shiftr lo 8) 7 =? 6) && (Z.land lo 0xFF =? k) && negb (Z.testbit lo 14) && negb (Z.testbit lo 19)) (map Z.of_nat (seq 0 256)) = true) by (vm_compute; reflexivity).
  rewrite forallb_forall in Hall. intros Hk. assert (Hin : In k (map Z.of_nat (seq 0 256))) by (apply in_map_iff; exists (Z.to_nat k); split; [lia|apply in_seq; lia]).
  specialize (Hall k Hin). cbv zeta in *. rewrite !andb_true_iff, !negb_true_iff in Hall. destruct Hall as [[[A B] C] D]. repeat split; (done || lia).
Qed.
Lemma dest_field apicid : 0 <= apicid < 256 -> Z.shiftr (u32 (Z.shiftl apicid 24)) 24 = apicid.
Proof. intros Ha. rewrite Z.shiftl_mul_pow2, u32_small, Z.shiftr_div_pow2, Z.div_mul by lia. done. Qed.
(** [lapicstartap] resets the CPU and has it start at [addr], twice: the interrupts are
    for that CPU, the start-up ones have the number of the page; the warm reset vector
    is the far pointer to [addr]. *)
Theorem lapicstartap_starts d m p apicid addr :
  0 <= apicid < 256 -> 0 <= addr < 2 ^ 20 -> addr mod 4096 = 0 ->
  exists d' m', lapicstartap apicid addr (mk_hw (Some d) m p) = Ret tt (mk_hw (Some d') m' (p ++ [(0x70, 0xF); (0x71, 0xA)])) /\
    (forall j, config j = true -> j <> ICRHI -> ap_reg d' j = ap_reg d j) /\
    ap_sent d' = ap_sent d ++ [mk_ipi apicid 5 0 true false; mk_ipi apicid 5 0 false false;
      mk_ipi apicid 6 (addr / 4096) false false; mk_ipi apicid 6 (addr / 4096) false false] /\
    (m' 0x467 + 256 * m' 0x468) + 16 * (m' 0x469 + 256 * m' 0x46a) = addr /\
    forall a, a < 0x467 \/ 0x46a < a -> m' a = m a.
Proof.
  intros Ha Hr Hal. assert (Ek : Z.shiftr addr 12 = addr / 4096) by (by rewrite Z.shiftr_div_pow2 by lia). assert (Hk : 0 <= addr / 4096 < 256) by (split; [apply Z.div_pos; lia|apply Z.div_lt_upper_bound; lia]).
  destruct (startup_command _ Hk) as (C1 & C2 & C3 & C4). do 2 eexists. split.
  { unfold lapicstartap. cbn [send_startup]. do 2 rewrite (bind_eq (port_outb _ _) _ _ _ _ eq_refl). do 2 rewrite (bind_eq (store16 _ _) _ _ _ _ eq_refl). cbn [hw_lapic hw_mem hw_ports]. do 7 rewrite (bind_eq _ _ _ _ _ (lapicw_runs _ _ _ _ _)). cbn [hw_lapic hw_mem hw_ports]. rewrite <- app_assoc. reflexivity. }
  split; [|split; [|split]].
  - intros j Hj Hn. apply Z.eqb_neq in Hn. rewrite !lw_reg by done. by rewrite Hn, !andb_false_r.
  - regs. rewrite Ek. unfold decode. rewrite C1, C2, C3, C4, dest_field by done. rewrite <- !app_assoc. reflexivity.
  - pose proof (Z.div_mod addr 4096 ltac:(lia)) as E. change (Z.lor (Z.shiftl 0x40 4) 0x67) with 0x467. change (0x467 + 2) with 0x469. change (0x469 + 1) with 0x46a. change (0x467 + 1) with 0x468. repeat first [rewrite store_eq | rewrite store_ne by lia]. rewrite !Z.shiftr_div_pow2 by lia. change (2 ^ 4) with 16. change (2 ^ 8) with 256.
    assert (E16 : addr / 16 = 256 * (addr / 4096)) by (rewrite E, Hal at 1; replace (4096 * (addr / 4096) + 0) with (256 * (addr / 4096) * 16) by lia; apply Z.div_mul; lia).
    rewrite E16. rewrite (Z.mul_comm 256 (addr / 4096)), Z.div_mul by lia. rewrite (u8_small (addr / 4096)) by lia. unfold u8. rewrite Z.mod_mul by lia. change (0 mod 2 ^ 8) with 0. change ((0 / 256) mod 2 ^ 8) with 0. lia.
  - intros a Hout. change (Z.lor (Z.shiftl 0x40 4) 0x67) with 0x467. unfold store. repeat case_match; lia.
Qed.
Lemma startap_runs d m p apicid addr : 0 <= apicid < 256 -> 0 <= addr < 2 ^ 20 -> addr mod 4096 = 0 ->
  exists d' m', lapicstartap apicid addr (mk_hw (Some d) m p) = Ret tt (mk_hw (Some d') m' (p ++ [(0x70, 0xF); (0x71, 0xA)])) /\
    ap_sent d' = ap_sent d ++ [mk_ipi apicid 5 0 true false; mk_ipi apicid 5 0 false false;
      mk_ipi apicid 6 (addr / 4096) false false; mk_ipi apicid 6 (addr / 4096) false false] /\
    forall a, a < 0x467 \/ 0x46a < a -> m' a = m a.
Proof. intros Ha Hr Hal. destruct (lapicstartap_starts d m p apicid addr Ha Hr Hal) as (d' & m' & E & _ & S & _ & F). by exists d', m'. Qed.

End Works.

(** A local APIC that delivers at once. *)
Record sim_apic := mk_sim_apic { sa_regs : Z -> Z; sa_sent : list ipi }.
#[export] Instance sim_apic_ops : Apic sim_apic := {
  ap_load i d := (if i =? ICRLO then 0 else sa_regs d i, d);
  ap_store i v d := mk_sim_apic (fun j => if j =? i then v else sa_regs d j) (if i =? ICRLO then sa_sent d ++ [decode (sa_regs d ICRHI) v] else sa_sent d) }.
#[export] Instance sim_apic_ok : ApicOk sim_apic.
Proof.
  refine (Build_ApicOk sim_apic sim_apic_ops sa_regs sa_sent 1%nat _ _ _ _).
  - intros d i v j Hj. cbn. destruct (Z.eqb_spec j i) as [->|]; [by rewrite Hj|by rewrite andb_false_r].
  - done.
  - done.
  - intros d. exists 0%nat. split; [lia|]. split; [lia|done].
Defined.
End Lapic.

Module Uart.

Definition COM1 : Z := 0x3f8.
(** Input and output of a byte at a port. *)
Class Ports (P : Type) := {
  p_inb : Z -> P -> Z * P;
  p_outb : Z -> Z -> P -> P }.
(** [ur_here] is [uart]. *)
Record uart (P : Type) := mk_uart { ur_here : bool; ur_ports : P }.
Arguments mk_uart {P} _ _.
Arguments ur_here {P} _.
Arguments ur_ports {P} _.

Section Uart.
Context {P : Type} `{Ports P}.
Notation U := (M (uart P)).

Definition uinb (port : Z) : U Z :=
  s ← get;
  modify (fun s => mk_uart (ur_here s) (snd (p_inb port (ur_ports s)))) ;;
  mret (fst (p_inb port (ur_ports s))).
Definition uoutb (port v : Z) : U unit := modify (fun s => mk_uart (ur_here s) (p_outb port (u8 v) (ur_ports s))).

(** The loop before the byte is written; [n] is [128 - i]. *)
Fixpoint wait_empty (n : nat) : U unit :=
  match n with
  | O => mret tt
  | S n' => v ← uinb (COM1 + 5); if negb (ctrue (Z.land v 0x20)) then wait_empty n' else mret tt
  end.
Definition uart_putc (c : Z) : U unit :=
  s ← get;
  if negb (ur_here s) then mret tt
  else wait_empty 128 ;; uoutb (COM1 + 0) c.
Definition uartgetc : U Z :=
  s ← get;
  if negb (ur_here s) then mret (-1)
  else
    v ← uinb (COM1 + 5);
    if negb (ctrue (Z.land v 0x01)) then mret (-1)
    else uinb (COM1 + 0).
Fixpoint uart_puts (l : list Z) : U unit :=
  match l with
  | [] => mret tt
  | c :: l' => uart_putc c ;; uart_puts l'
  end.
(** [ioapicenable] is in [Machine]. *)
Definition uartinit : U unit :=
  uoutb (COM1 + 2) 0 ;;
  uoutb (COM1 + 3) 0x80 ;;
  uoutb (COM1 + 0) (115200 / 9600) ;;
  uoutb (COM1 + 1) 0 ;;
  uoutb (COM1 + 3) 0x03 ;;
  uoutb (COM1 + 4) 0 ;;
  uoutb (COM1 + 1) 0x01 ;;
  v ← uinb (COM1 + 5);
  if v =? 0xFF then mret tt
  else
    modify (fun s => mk_uart true (ur_ports s)) ;;
    uinb (COM1 + 2) ;;
    uinb (COM1 + 0) ;;
    uart_puts (bytes_of_string "xv6..." ++ [10]).
(** The characters [consoleintr(uartgetc)] gets, until there are no more. *)
Fixpoint uart_keys (fuel : nat) : U (list Z) :=
  match fuel with
  | O => faults OutOfFuel
  | S f => c ← uartgetc; if c <? 0 then mret [] else l ← uart_keys f; mret (c :: l)
  end.
End Uart.

(** ** A serial port that works *)

Section Laws.
Context {P : Type} `{Ports P}.
Definition status (p : P) : Z := fst (p_inb (COM1 + 5) p).
Definition poll (p : P) : P := snd (p_inb (COM1 + 5) p).
End Laws.
(** The bytes sent and those received and not yet read; whether the transmitter is empty
    and whether the data port is the divisor latch.  [us_steady]: polling ends. *)
Record line := mk_line { ln_sent : list Z; ln_received : list Z; ln_empty : bool; ln_latch : bool }.
Class UartOk (P : Type) `{Ports P} := {
  ua_line : P -> line;
  us_status : forall p, status p <> 0xFF /\ ctrue (Z.land (status p) 1) = negb (bool_decide (ln_received (ua_line p) = [])) /\
    ua_line (poll p) = mk_line (ln_sent (ua_line p)) (ln_received (ua_line p)) (ctrue (Z.land (status p) 0x20)) (ln_latch (ua_line p));
  us_empties : forall p, exists n, (n < 128)%nat /\ ctrue (Z.land (status (Nat.iter n poll p)) 0x20) = true;
  us_send : forall p c, ln_latch (ua_line p) = false -> ln_empty (ua_line p) = true ->
    exists b, ua_line (p_outb (COM1 + 0) c p) = mk_line (ln_sent (ua_line p) ++ [c]) (ln_received (ua_line p)) b false;
  us_divisor : forall p c, ln_latch (ua_line p) = true -> ua_line (p_outb (COM1 + 0) c p) = ua_line p;
  us_control : forall p port c, port ∈ [COM1 + 1; COM1 + 2; COM1 + 4] -> ua_line (p_outb port c p) = ua_line p;
  us_format : forall p c, ua_line (p_outb (COM1 + 3) c p) = mk_line (ln_sent (ua_line p)) (ln_received (ua_line p)) (ln_empty (ua_line p)) (Z.testbit c 7);
  us_ident : forall p, ua_line (snd (p_inb (COM1 + 2) p)) = ua_line p;
  us_receive : forall p, ln_latch (ua_line p) = false ->
    ua_line (snd (p_inb (COM1 + 0) p)) = mk_line (ln_sent (ua_line p)) (tl (ln_received (ua_line p))) (ln_empty (ua_line p)) false /\
    forall c l, ln_received (ua_line p) = c :: l -> fst (p_inb (COM1 + 0) p) = c }.

Section Works.
Context {P : Type} `{HO : UartOk P}.
Implicit Types (p : P).
Notation line_of s := (ua_line (ur_ports s)).

Lemma wait_empty_runs n : forall m p, (n < m)%nat -> ctrue (Z.land (status (Nat.iter n poll p)) 0x20) = true ->
  exists p', wait_empty m (mk_uart true p) = Ret tt (mk_uart true p') /\
    ua_line p' = mk_line (ln_sent (ua_line p)) (ln_received (ua_line p)) true (ln_latch (ua_line p)).
Proof.
  induction n as [|n IH]; intros [|m] p Hm Hr; try lia; cbn [wait_empty]; rewrite (bind_eq (uinb (COM1 + 5)) _ (mk_uart true p) (status p) (mk_uart true (poll p)) eq_refl).
  - cbn [Nat.iter nat_rect] in Hr. rewrite Hr. exists (poll p). split; [done|]. destruct (us_status p) as (_ & _ & E). by rewrite E, Hr.
  - destruct (us_status p) as (_ & _ & E). destruct (ctrue (Z.land (status p) 0x20)) eqn:Er; cbn [negb].
    + exists (poll p). split; [done|]. by rewrite E.
    + rewrite Nat.iter_succ_r in Hr. destruct (IH m (poll p) ltac:(lia) Hr) as (p' & E' & L'). exists p'. split; [done|]. by rewrite L', E.
Qed.
(** [uartputc] waits until the transmitter is empty, and sends the byte. *)
Theorem uartputc_sends c p : ln_latch (ua_line p) = false ->
  exists p' b, uart_putc c (mk_uart true p) = Ret tt (mk_uart true p') /\ ua_line p' = mk_line (ln_sent (ua_line p) ++ [u8 c]) (ln_received (ua_line p)) b false.
Proof.
  intros Hl. destruct (us_empties p) as (n & Hn & Hr). destruct (wait_empty_runs n 128 p Hn Hr) as (p1 & E1 & L1).
  destruct (us_send p1 (u8 c)) as [b E2]; [by rewrite L1|by rewrite L1|]. exists (p_outb (COM1 + 0) (u8 c) p1), b. split; [|by rewrite E2, L1].
  unfold uart_putc. rewrite (bind_eq get _ _ _ _ eq_refl). cbn [ur_here negb]. by rewrite (bind_eq _ _ _ _ _ E1).
Qed.
Lemma uart_puts_sends l : forall p, ln_latch (ua_line p) = false -> Forall (fun c => 0 <= c < 256) l ->
  exists p', uart_puts l (mk_uart true p) = Ret tt (mk_uart true p') /\ ln_sent (ua_line p') = ln_sent (ua_line p) ++ l /\ ln_latch (ua_line p') = false /\
    ln_received (ua_line p') = ln_received (ua_line p).
Proof.
  induction l as [|c l IH]; intros p Hl Hb; cbn [uart_puts]; [exists p; by rewrite app_nil_r|]. apply Forall_cons in Hb as [Hc Hb].
  destruct (uartputc_sends c p Hl) as (p1 & b & E1 & L1). rewrite (bind_eq _ _ _ _ _ E1). destruct (IH p1) as (p2 & E2 & S2 & L2 & R2); [by rewrite L1|done|].
  exists p2. split; [done|]. rewrite S2, R2, L1, u8_small by done. cbn [ln_sent ln_received]. by rewrite <- app_assoc.
Qed.
(** [uartinit] finds the port, and announces the system on it. *)
Theorem uartinit_announces p : exists p', uartinit (mk_uart false p) = Ret tt (mk_uart true p') /\ ln_latch (ua_line p') = false /\
  ln_sent (ua_line p') = ln_sent (ua_line p) ++ bytes_of_string "xv6..." ++ [10].
Proof.
  set (p7 := p_outb (COM1 + 1) (u8 1) (p_outb (COM1 + 4) (u8 0) (p_outb (COM1 + 3) (u8 3) (p_outb (COM1 + 1) (u8 0) (p_outb (COM1 + 0) (u8 (115200 / 9600)) (p_outb (COM1 + 3) (u8 0x80) (p_outb (COM1 + 2) (u8 0) p))))))).
  assert (L7 : ua_line p7 = mk_line (ln_sent (ua_line p)) (ln_received (ua_line p)) (ln_empty (ua_line p)) false).
  { unfold p7. rewrite !(us_control _ (COM1 + 1)), (us_control _ (COM1 + 4)), us_format by set_solver. rewrite (us_control _ (COM1 + 1)) by set_solver.
    rewrite us_divisor, us_format, (us_control _ (COM1 + 2)) by (set_solver || by rewrite us_format). done. }
  destruct (us_status p7) as (S1 & _ & S3). set (p9 := snd (p_inb (COM1 + 0) (snd (p_inb (COM1 + 2) (poll p7))))).
  assert (L9 : ln_latch (ua_line p9) = false /\ ln_sent (ua_line p9) = ln_sent (ua_line p)).
  { assert (Hl : ln_latch (ua_line (snd (p_inb (COM1 + 2) (poll p7)))) = false) by (by rewrite us_ident, S3, L7).
    unfold p9. destruct (us_receive _ Hl) as [E _]. rewrite E. split; [done|]. cbn [ln_sent]. by rewrite us_ident, S3, L7. }
  destruct L9 as [L9 N9]. destruct (uart_puts_sends (bytes_of_string "xv6..." ++ [10]) p9 L9) as (p' & E & Ns & Nl & _).
  { apply (bool_decide_unpack _). vm_compute. exact I. }
  exists p'. split; [|split; [done|by rewrite Ns, N9]]. unfold uartinit. do 7 rewrite (bind_eq (uoutb _ _) _ _ _ _ eq_refl). cbn [ur_here ur_ports]. fold p7.
  rewrite (bind_eq (uinb (COM1 + 5)) _ (mk_uart false p7) (status p7) (mk_uart false (poll p7)) eq_refl). rewrite (proj2 (Z.eqb_neq _ _) S1).
  rewrite (bind_eq (modify _) _ _ _ _ eq_refl), (bind_eq (uinb (COM1 + 2)) _ _ _ _ eq_refl), (bind_eq (uinb (COM1 + 0)) _ _ _ _ eq_refl). exact E.
Qed.
(** An interrupt takes all the characters received, in order. *)
Theorem uart_keys_received l : forall p, ln_latch (ua_line p) = false -> ln_received (ua_line p) = l -> Forall (fun c => 0 <= c < 256) l ->
  exists p', uart_keys (S (length l)) (mk_uart true p) = Ret l (mk_uart true p') /\ ln_received (ua_line p') = [] /\ ln_sent (ua_line p') = ln_sent (ua_line p).
Proof.
  induction l as [|c l IH]; intros p Hl Hr Hb; destruct (us_status p) as (_ & S2 & S3); rewrite Hr in S2.
  - exists (poll p). split; [|by rewrite S3, Hr]. cbn [uart_keys length]. unfold uartgetc. rewrite (bind_eq _ _ _ (-1) (mk_uart true (poll p))); [done|].
    rewrite (bind_eq get _ _ _ _ eq_refl). cbn [ur_here negb]. rewrite (bind_eq (uinb (COM1 + 5)) _ (mk_uart true p) (status p) (mk_uart true (poll p)) eq_refl).
    rewrite S2. done.
  - apply Forall_cons in Hb as [Hc Hb]. set (p2 := snd (p_inb (COM1 + 0) (poll p))). destruct (us_receive (poll p)) as [R1 R2]; [by rewrite S3|].
    destruct (IH p2) as (p' & E & Hrest & Hs); [by unfold p2; rewrite R1|by unfold p2; rewrite R1, S3, Hr|done|].
    exists p'. split; [|split; [done|rewrite Hs; unfold p2; by rewrite R1, S3]]. cbn [length]. remember (S (length l)) as f eqn:Ef. cbn [uart_keys]. unfold uartgetc at 1.
    rewrite (bind_eq _ _ _ c (mk_uart true p2)).
    + rewrite (proj2 (Z.ltb_ge _ _)) by lia. by rewrite (bind_eq _ _ _ _ _ E).
    + rewrite (bind_eq get _ _ _ _ eq_refl). cbn [ur_here negb]. rewrite (bind_eq (uinb (COM1 + 5)) _ (mk_uart true p) (status p) (mk_uart true (poll p)) eq_refl). rewrite S2.
      rewrite (bool_decide_false (c :: l = [])) by done. cbn [negb]. rewrite <- (R2 c l) by (by rewrite S3). done.
Qed.
End Works.

(** A port that sends at once. *)
#[export] Instance sim_ports : Ports line := {
  p_inb port l :=
    if port =? COM1 + 5 then (if decide (ln_received l = []) then 0x20 else 0x21, mk_line (ln_sent l) (ln_received l) true (ln_latch l))
    else if port =? COM1 + 0 then (hd 0 (ln_received l), if ln_latch l then l else mk_line (ln_sent l) (tl (ln_received l)) (ln_empty l) false)
    else (0, l);
  p_outb port c l :=
    if port =? COM1 + 0 then (if ln_latch l then l else mk_line (ln_sent l ++ [c]) (ln_received l) true false)
    else if port =? COM1 + 3 then mk_line (ln_sent l) (ln_received l) (ln_empty l) (Z.testbit c 7)
    else l }.
#[export] Instance sim_uart : UartOk line.
Proof.
  refine (Build_UartOk line sim_ports (fun l => l) _ _ _ _ _ _ _ _).
  - intros p. unfold status, poll. cbn. case_decide as E; [rewrite bool_decide_true by done|rewrite bool_decide_false by done]; split; (done || by destruct p).
  - intros p. exists 0%nat. split; [lia|]. unfold status. cbn. by case_decide.
  - intros p c Hl He. exists true. cbn. by rewrite Hl.
  - intros p c Hl. cbn. by rewrite Hl.
  - intros p port c Hp. rewrite !elem_of_cons, elem_of_nil in Hp. by destruct Hp as [-> |[-> |[-> |[]]]].
  - done.
  - done.
  - intros p Hl. cbn. rewrite Hl. split; [done|]. by intros c l ->.
Defined.
End Uart.
