(* ===== verification/Gates.v ===== *)
(** Segments and gates: how the kernel is entered ([mmu.h], [tvinit] and [idtinit] of
    [trap.c], [seginit] and the task state in [switchuvm] of [vm.c], [lgdt] and [lidt] of
    [x86.h]).

    Descriptors are structs of bit fields, as in [mmu.h]; [packed] is their eight bytes,
    the first field in the lowest bits.  The hardware's reading of those bytes
    ([hw_offset], [hw_dpl] and so on) and of the [int] instruction ([soft_int],
    [hard_int]) is from the processor manual. *)

From S2P Require Import Prelude.

Definition SEG_KCODE : Z := 1.
Definition SEG_KDATA : Z := 2.
Definition SEG_UCODE : Z := 3.
Definition SEG_UDATA : Z := 4.
Definition NSEGS : nat := 6.
Definition DPL_USER : Z := 3.
Definition STA_X : Z := 8.
Definition STA_W : Z := 2.
Definition STA_R : Z := 2.
Definition STS_IG32 : Z := 14.
Definition STS_TG32 : Z := 15.
Definition T_SYSCALL : Z := 64.

Record segdesc := mk_segdesc {
  lim_15_0 : Z; base_15_0 : Z; base_23_16 : Z; sd_type : Z; sd_s : Z; sd_dpl : Z; sd_p : Z;
  lim_19_16 : Z; sd_avl : Z; sd_rsv1 : Z; sd_db : Z; sd_g : Z; base_31_24 : Z }.
Definition SEG (type base lim dpl : Z) : segdesc :=
  mk_segdesc (Z.land (Z.shiftr lim 12) 0xffff) (Z.land base 0xffff) (Z.land (Z.shiftr base 16) 0xff) type 1 dpl 1
    (Z.shiftr lim 28) 0 0 1 1 (Z.shiftr base 24).
Definition SEG16 (type base lim dpl : Z) : segdesc :=
  mk_segdesc (Z.land lim 0xffff) (Z.land base 0xffff) (Z.land (Z.shiftr base 16) 0xff) type 1 dpl 1
    (Z.shiftr lim 16) 0 0 1 0 (Z.shiftr base 24).

Record gatedesc := mk_gatedesc {
  off_15_0 : Z; gd_cs : Z; gd_args : Z; gd_rsv1 : Z; gd_type : Z; gd_s : Z; gd_dpl : Z; gd_p : Z; off_31_16 : Z }.
Definition SETGATE (istrap : bool) (sel off d : Z) : gatedesc :=
  mk_gatedesc (Z.land off 0xffff) sel 0 0 (if istrap then STS_TG32 else STS_IG32) 0 d 1 (Z.shiftr off 16).

Definition seginit (gdt : list segdesc) : list segdesc :=
  let gdt := <[Z.to_nat SEG_KCODE := SEG (Z.lor STA_X STA_R) 0 0xffffffff 0]> gdt in
  let gdt := <[Z.to_nat SEG_KDATA := SEG STA_W 0 0xffffffff 0]> gdt in
  let gdt := <[Z.to_nat SEG_UCODE := SEG (Z.lor STA_X STA_R) 0 0xffffffff DPL_USER]> gdt in
  <[Z.to_nat SEG_UDATA := SEG STA_W 0 0xffffffff DPL_USER]> gdt.

(** [vectors[i]] is the address of the entry code for interrupt [i]. *)
Fixpoint set_gates (vectors : Z -> Z) (n : nat) (i : Z) (idt : list gatedesc) : list gatedesc :=
  match n with
  | O => idt
  | S n' => set_gates vectors n' (i + 1) (<[Z.to_nat i := SETGATE false (Z.shiftl SEG_KCODE 3) (vectors i) 0]> idt)
  end.
Definition tvinit (vectors : Z -> Z) (idt : list gatedesc) : list gatedesc :=
  <[Z.to_nat T_SYSCALL := SETGATE true (Z.shiftl SEG_KCODE 3) (vectors T_SYSCALL) DPL_USER]> (set_gates vectors 256 0 idt).

(** The operand that [lgdt] and [lidt] build for the instruction, three half-words. *)
Definition pseudo (p size : Z) : Z * Z * Z := (u16 (size - 1), u16 p, u16 (Z.shiftr p 16)).
(** [idtinit]; the table is at [idt], 256 descriptors of eight bytes. *)
Definition idtinit (idt : Z) : Z * Z * Z := pseudo idt (256 * 8).

(** The task state: the fields of [struct taskstate] that are set, and its size. *)
Definition SEG_TSS : Z := 5.
Definition STS_T32A : Z := 9.
Definition KSTACKSIZE : Z := 4096.
Definition sizeof_taskstate : Z := 104.
Record taskstate := mk_ts { ts_esp0 : Z; ts_ss0 : Z; ts_iomb : Z }.
Definition clear_s (d : segdesc) : segdesc :=
  mk_segdesc (lim_15_0 d) (base_15_0 d) (base_23_16 d) (sd_type d) 0 (sd_dpl d) (sd_p d) (lim_19_16 d) (sd_avl d) (sd_rsv1 d) (sd_db d) (sd_g d) (base_31_24 d).
(** What [switchuvm] does with them, between [pushcli] and [popcli]; [ts] is the address of
    the CPU's task state.  The result has the selector loaded by [ltr]. *)
Definition switch_tss (ts kstack : Z) (gdt : list segdesc) : list segdesc * taskstate * Z :=
  let gdt := <[Z.to_nat SEG_TSS := SEG16 STS_T32A ts (sizeof_taskstate - 1) 0]> gdt in
  let gdt := alter clear_s (Z.to_nat SEG_TSS) gdt in
  (gdt, mk_ts (u32 (kstack + KSTACKSIZE)) (Z.shiftl SEG_KDATA 3) 0xFFFF, Z.shiftl SEG_TSS 3).

(** ** The hardware *)

(** The fields of a struct, with their widths, as one number. *)
Fixpoint pack (fs : list (Z * Z)) : Z :=
  match fs with
  | [] => 0
  | (w, v) :: fs' => v mod 2 ^ w + 2 ^ w * pack fs'
  end.
Definition packed_seg (d : segdesc) : Z :=
  pack [(16, lim_15_0 d); (16, base_15_0 d); (8, base_23_16 d); (4, sd_type d); (1, sd_s d); (2, sd_dpl d); (1, sd_p d);
        (4, lim_19_16 d); (1, sd_avl d); (1, sd_rsv1 d); (1, sd_db d); (1, sd_g d); (8, base_31_24 d)].
Definition packed_gate (d : gatedesc) : Z :=
  pack [(16, off_15_0 d); (16, gd_cs d); (5, gd_args d); (3, gd_rsv1 d); (4, gd_type d); (1, gd_s d); (2, gd_dpl d); (1, gd_p d); (16, off_31_16 d)].
Definition bits (x off n : Z) : Z := x / 2 ^ off mod 2 ^ n.

Definition hw_base (x : Z) : Z := bits x 16 24 + 2 ^ 24 * bits x 56 8.
Definition hw_limit (x : Z) : Z :=
  let l := bits x 0 16 + 2 ^ 16 * bits x 48 4 in if bits x 55 1 =? 1 then l * 4096 + 4095 else l.
Definition hw_type (x : Z) : Z := bits x 40 4.
Definition hw_dpl (x : Z) : Z := bits x 45 2.
Definition hw_present (x : Z) : bool := bits x 47 1 =? 1.
Definition hw_selector (x : Z) : Z := bits x 16 16.
Definition hw_offset (x : Z) : Z := bits x 0 16 + 2 ^ 16 * bits x 48 16.

(** Where an interrupt goes: code segment, address, and whether interrupts stay on. *)
Record entry_point := mk_entry { en_cs : Z; en_eip : Z; en_if : bool }.
Definition through (g : Z) (ifl : bool) : option entry_point :=
  if negb (hw_present g) then None
  else if hw_type g =? STS_IG32 then Some (mk_entry (hw_selector g) (hw_offset g) false)
  else if hw_type g =? STS_TG32 then Some (mk_entry (hw_selector g) (hw_offset g) ifl)
  else None.
(** From a device, and by [int n] at privilege level [cpl]; [None] is a fault. *)
Definition hard_int (idt : list gatedesc) (n : Z) (ifl : bool) : option entry_point :=
  g ← idt !! Z.to_nat n; through (packed_gate g) ifl.
Definition soft_int (idt : list gatedesc) (cpl n : Z) (ifl : bool) : option entry_point :=
  g ← idt !! Z.to_nat n; if hw_dpl (packed_gate g) <? cpl then None else through (packed_gate g) ifl.

(** An [in] or [out] of [port] at a privilege level above the flags' I/O level: it is
    looked up in a bit map in the task state's segment, two bytes of which have to be
    inside its limit. *)
Definition io_map_byte (t : taskstate) (port : Z) : Z := ts_iomb t + port / 8.
Definition io_permitted (desc : Z) (t : taskstate) (map_bit : Z -> bool) (port : Z) : bool :=
  (io_map_byte t port + 1 <=? hw_limit desc) && negb (map_bit port).

(** *** Reading packed fields *)

Lemma bits_here w v fs : 0 <= w -> bits (pack ((w, v) :: fs)) 0 w = v mod 2 ^ w.
Proof.
  intros Hw. unfold bits. cbn [pack]. rewrite Z.pow_0_r, Z.div_1_r, Z.mul_comm, Z.mod_add by (apply Z.pow_nonzero; lia).
  by rewrite Z.mod_mod by (apply Z.pow_nonzero; lia).
Qed.
Lemma bits_skip w v fs o n : 0 <= w <= o -> bits (pack ((w, v) :: fs)) o n = bits (pack fs) (o - w) n.
Proof.
  intros Hw. unfold bits. cbn [pack]. f_equal. pose proof (Z.mod_pos_bound v (2 ^ w) ltac:(apply Z.pow_pos_nonneg; lia)).
  replace o with (w + (o - w)) at 1 by lia. rewrite Z.pow_add_r, <- Z.div_div by (lia || apply Z.pow_nonzero; lia || apply Z.pow_pos_nonneg; lia).
  rewrite Z.mul_comm, Z.div_add, (Z.div_small (v mod 2 ^ w)) by (lia || apply Z.pow_nonzero; lia). done.
Qed.
Lemma bits_join w v fs n : 0 <= w -> 0 <= n -> bits (pack ((w, v) :: fs)) 0 (w + n) = v mod 2 ^ w + 2 ^ w * bits (pack fs) 0 n.
Proof.
  intros Hw Hn. unfold bits. cbn [pack]. rewrite Z.pow_0_r, !Z.div_1_r, Z.pow_add_r by lia. pose proof (Z.mod_pos_bound v (2 ^ w) ltac:(apply Z.pow_pos_nonneg; lia)).
  assert (0 < 2 ^ w) by (apply Z.pow_pos_nonneg; lia). assert (0 < 2 ^ n) by (apply Z.pow_pos_nonneg; lia).
  rewrite Z.rem_mul_r by lia. rewrite (Z.mul_comm (2 ^ w) (pack fs)), Z.mod_add, Z.mod_mod by lia. rewrite Z.div_add, (Z.div_small (v mod 2 ^ w)) by lia. done.
Qed.
(** The two halves of a number of [a + b] bits. *)
Lemma halves x a b : 0 <= a -> 0 <= b -> 0 <= x < 2 ^ (a + b) -> x mod 2 ^ a + 2 ^ a * (Z.shiftr x a mod 2 ^ b) = x.
Proof.
  intros Ha Hb Hx. assert (0 < 2 ^ a) by (apply Z.pow_pos_nonneg; lia). assert (0 < 2 ^ b) by (apply Z.pow_pos_nonneg; lia).
  rewrite Z.shiftr_div_pow2 by done. rewrite Z.pow_add_r in Hx by done.
  rewrite (Z.mod_small (x / 2 ^ a)) by (split; [apply Z.div_pos; lia|apply Z.div_lt_upper_bound; lia]). pose proof (Z.div_mod x (2 ^ a)). lia.
Qed.
Ltac fields := repeat (first [rewrite bits_here by lia | rewrite bits_skip by lia]; cbn [Z.sub Z.add Z.opp Z.pos_sub Pos.pred_double]).

Lemma land_ffff x : Z.land x 0xffff = x mod 2 ^ 16.
Proof. change 0xffff with (Z.ones 16). by rewrite Z.land_ones. Qed.
Lemma land_ff x : Z.land x 0xff = x mod 2 ^ 8.
Proof. change 0xff with (Z.ones 8). by rewrite Z.land_ones. Qed.

Lemma gate_fields istrap sel off d : 0 <= sel < 2 ^ 16 -> 0 <= off < 2 ^ 32 -> 0 <= d < 4 ->
  let g := packed_gate (SETGATE istrap sel off d) in
  hw_selector g = sel /\ hw_offset g = off /\ hw_dpl g = d /\ hw_present g = true /\ hw_type g = if istrap then STS_TG32 else STS_IG32.
Proof.
  intros Hs Ho Hd. cbv zeta. unfold packed_gate, SETGATE, hw_selector, hw_offset, hw_dpl, hw_present, hw_type.
  cbn [off_15_0 gd_cs gd_args gd_rsv1 gd_type gd_s gd_dpl gd_p off_31_16]. split_and!.
  - fields. by apply Z.mod_small.
  - rewrite bits_here by lia. fields. rewrite land_ffff, Z.mod_mod by lia. by apply (halves off 16 16).
  - fields. apply Z.mod_small. change (2 ^ 2) with 4. lia.
  - fields. done.
  - fields. by destruct istrap.
Qed.
(** The base, from its three fields; the fields between have 16 bits. *)
Lemma base_fields a base b c d e f g h i j : 0 <= base < 2 ^ 32 ->
  hw_base (pack [(16, a); (16, Z.land base 0xffff); (8, Z.land (Z.shiftr base 16) 0xff); (4, b); (1, c); (2, d); (1, e); (4, f); (1, g); (1, h); (1, i); (1, j); (8, Z.shiftr base 24)]) = base.
Proof.
  intros Hb. unfold hw_base. rewrite bits_skip by lia. change (16 - 16) with 0. match goal with |- context [bits ?x 0 24] => change (bits x 0 24) with (bits x 0 (16 + 8)) end. rewrite bits_join, bits_here by lia. fields.
  rewrite land_ffff, land_ff, !Z.mod_mod by lia. rewrite <- (halves base 16 16) at 4 by (done || lia). rewrite <- (halves (Z.shiftr base 16 mod 2 ^ 16) 8 8) by (try apply Z.mod_pos_bound; lia).
  assert (E1 : Z.shiftr base 16 mod 2 ^ 16 = Z.shiftr base 16).
  { apply Z.mod_small. rewrite Z.shiftr_div_pow2 by lia. split; [apply Z.div_pos; lia|apply Z.div_lt_upper_bound; lia]. }
  rewrite E1, Z.shiftr_shiftr by lia. change (16 + 8) with 24. lia.
Qed.
(** [SEG] describes the segment it is given, its limit rounded up to pages. *)
Theorem seg_fields type base lim dpl : 0 <= type < 16 -> 0 <= base < 2 ^ 32 -> 0 <= lim < 2 ^ 32 -> 0 <= dpl < 4 ->
  let x := packed_seg (SEG type base lim dpl) in
  hw_base x = base /\ hw_limit x = lim / 4096 * 4096 + 4095 /\ hw_type x = type /\ hw_dpl x = dpl /\ hw_present x = true.
Proof.
  intros Ht Hb Hl Hd. cbv zeta. unfold packed_seg, SEG, hw_base, hw_limit, hw_dpl, hw_present, hw_type.
  cbn [lim_15_0 base_15_0 base_23_16 sd_type sd_s sd_dpl sd_p lim_19_16 sd_avl sd_rsv1 sd_db sd_g base_31_24]. split_and!.
  - by apply base_fields.
  - rewrite bits_here by lia. fields. change (1 mod 2 ^ 1 =? 1) with true. cbv iota. rewrite land_ffff, Z.mod_mod by lia.
    assert (E1 : Z.shiftr lim 28 = Z.shiftr (Z.shiftr lim 12) 16) by (by rewrite Z.shiftr_shiftr by lia). rewrite E1.
    assert (Hs : 0 <= Z.shiftr lim 12 < 2 ^ (16 + 4)) by (rewrite Z.shiftr_div_pow2 by lia; split; [apply Z.div_pos; lia|apply Z.div_lt_upper_bound; lia]).
    rewrite (halves (Z.shiftr lim 12) 16 4) by (done || lia).
    by rewrite Z.shiftr_div_pow2 by lia.
  - fields. by apply Z.mod_small.
  - fields. by apply Z.mod_small.
  - fields. done.
Qed.

Lemma set_gates_lookup vectors n : forall i idt k, 0 <= i -> i + Z.of_nat n <= Z.of_nat (length idt) ->
  set_gates vectors n i idt !! k =
    if (i <=? Z.of_nat k) && (Z.of_nat k <? i + Z.of_nat n) then Some (SETGATE false (Z.shiftl SEG_KCODE 3) (vectors (Z.of_nat k)) 0) else idt !! k.
Proof.
  induction n as [|n IH]; intros i idt k Hi Hl; cbn [set_gates].
  - by replace (_ && _) with false by lia.
  - rewrite IH by (rewrite ?length_insert; lia). destruct (decide (Z.to_nat i = k)) as [<-|Hk].
    + replace ((i + 1 <=? _) && _) with false by lia. replace ((i <=? _) && _) with true by lia. rewrite list_lookup_insert_eq by lia. by rewrite Z2Nat.id.
    + rewrite list_lookup_insert_ne by done. replace ((i + 1 <=? Z.of_nat k) && _) with ((i <=? Z.of_nat k) && (Z.of_nat k <? i + Z.of_nat (S n))) by lia. done.
Qed.
Lemma tvinit_lookup vectors idt n : length idt = 256%nat -> 0 <= n < 256 ->
  tvinit vectors idt !! Z.to_nat n = Some (SETGATE (n =? T_SYSCALL) (Z.shiftl SEG_KCODE 3) (vectors n) (if n =? T_SYSCALL then DPL_USER else 0)).
Proof.
  intros Hl Hn. unfold tvinit. assert (Hg : set_gates vectors 256 0 idt !! Z.to_nat n = Some (SETGATE false (Z.shiftl SEG_KCODE 3) (vectors n) 0)).
  { rewrite set_gates_lookup by lia. rewrite Z2Nat.id by lia. by replace (_ && _) with true by lia. }
  destruct (Z.eqb_spec n T_SYSCALL) as [->|Hne].
  - apply list_lookup_insert_eq. by apply lookup_lt_Some in Hg.
  - rewrite list_lookup_insert_ne by (unfold T_SYSCALL in *; lia). done.
Qed.
Lemma tvinit_through vectors idt n ifl : length idt = 256%nat -> 0 <= n < 256 -> 0 <= vectors n < 2 ^ 32 ->
  exists g, tvinit vectors idt !! Z.to_nat n = Some g /\ hw_dpl (packed_gate g) = (if n =? T_SYSCALL then DPL_USER else 0) /\
    through (packed_gate g) ifl = Some (mk_entry (Z.shiftl SEG_KCODE 3) (vectors n) ((n =? T_SYSCALL) && ifl)).
Proof.
  intros Hl Hn Hv. eexists. split; [by apply tvinit_lookup|].
  destruct (gate_fields (n =? T_SYSCALL) (Z.shiftl SEG_KCODE 3) (vectors n) (if n =? T_SYSCALL then DPL_USER else 0)) as (E1 & E2 & E3 & E4 & E5);
    [by vm_compute|done|destruct (_ =? _); unfold DPL_USER; lia|].
  split; [done|]. unfold through. rewrite E4, E5, E1, E2. by destruct (n =? T_SYSCALL).
Qed.

(** C24: user code enters the kernel by one gate only.  Of the 256 [int] instructions, the one
    for a system call goes to its vector, in the kernel's code segment and with
    interrupts as they are; all others fault.  A device's interrupt goes to its own
    vector, with interrupts off. *)
Theorem tvinit_entries vectors idt n ifl : length idt = 256%nat -> 0 <= n < 256 -> 0 <= vectors n < 2 ^ 32 ->
  soft_int (tvinit vectors idt) DPL_USER n ifl = (if n =? T_SYSCALL then Some (mk_entry (Z.shiftl SEG_KCODE 3) (vectors n) ifl) else None) /\
  (n <> T_SYSCALL -> hard_int (tvinit vectors idt) n ifl = Some (mk_entry (Z.shiftl SEG_KCODE 3) (vectors n) false)).
Proof.
  intros Hl Hn Hv. destruct (tvinit_through vectors idt n ifl Hl Hn Hv) as (g & Eg & Ed & Et). unfold soft_int, hard_int. rewrite Eg. cbn [mbind option_bind]. rewrite Ed, Et. split.
  - by destruct (n =? T_SYSCALL).
  - intros Hne. apply Z.eqb_neq in Hne. by rewrite Hne.
Qed.
Definition no_gate : gatedesc := mk_gatedesc 0 0 0 0 0 0 0 0 0.
Lemma tvinit_entries_witness :
  soft_int (tvinit (fun i => 0x80100000 + i) (replicate 256 no_gate)) DPL_USER 64 true = Some (mk_entry 8 0x80100040 true) /\
  soft_int (tvinit (fun i => 0x80100000 + i) (replicate 256 no_gate)) DPL_USER 14 true = None /\
  hard_int (tvinit (fun i => 0x80100000 + i) (replicate 256 no_gate)) 32 true = Some (mk_entry 8 0x80100020 false).
Proof.
  split_and!.
  - refine (eq_trans (proj1 (tvinit_entries (fun i => 0x80100000 + i) (replicate 256 no_gate) 64 true _ _ _)) _); (reflexivity || lia).
  - refine (eq_trans (proj1 (tvinit_entries (fun i => 0x80100000 + i) (replicate 256 no_gate) 14 true _ _ _)) _); (reflexivity || lia).
  - refine (eq_trans (proj2 (tvinit_entries (fun i => 0x80100000 + i) (replicate 256 no_gate) 32 true _ _ _) _) _); (reflexivity || lia || done).
Defined.

(** [seginit] makes all four segments flat, the whole 4 gigabytes from address 0, and lets
    user code load just its own two. *)
Theorem seginit_flat gdt i : length gdt = NSEGS -> SEG_KCODE <= i <= SEG_UDATA ->
  exists d, seginit gdt !! Z.to_nat i = Some d /\ let x := packed_seg d in
    hw_base x = 0 /\ hw_limit x = 2 ^ 32 - 1 /\ hw_present x = true /\
    hw_dpl x = (if SEG_UCODE <=? i then DPL_USER else 0) /\ Z.testbit (hw_type x) 3 = ((i =? SEG_KCODE) || (i =? SEG_UCODE)).
Proof.
  intros Hl Hi. unfold NSEGS in Hl. destruct gdt as [|a [|b [|c [|d [|e [|f [|g gdt]]]]]]]; try discriminate Hl.
  assert (Hc : i = 1 \/ i = 2 \/ i = 3 \/ i = 4) by (unfold SEG_KCODE, SEG_UDATA in Hi; lia). destruct Hc as [-> |[-> |[-> | ->]]]; (eexists; split; [reflexivity|]).
  all: vm_compute; repeat split.
Qed.
(** The instruction gets back the address and the size. *)
Theorem pseudo_operand p size : 0 <= p < 2 ^ 32 -> 0 < size <= 2 ^ 16 ->
  let '(lim, lo, hi) := pseudo p size in lim + 1 = size /\ lo + 2 ^ 16 * hi = p.
Proof.
  intros Hp Hs. unfold pseudo, u16. rewrite (Z.mod_small (size - 1)) by lia. split; [lia|]. by apply (halves p 16 16).
Qed.

Lemma tss_fields ts : 0 <= ts < 2 ^ 32 -> let x := packed_seg (clear_s (SEG16 STS_T32A ts (sizeof_taskstate - 1) 0)) in
  hw_base x = ts /\ hw_limit x = sizeof_taskstate - 1 /\ hw_type x = STS_T32A /\ hw_dpl x = 0 /\ hw_present x = true.
Proof.
  intros Ht. cbv zeta. unfold packed_seg, clear_s, SEG16, hw_base, hw_limit, hw_dpl, hw_present, hw_type.
  cbn [lim_15_0 base_15_0 base_23_16 sd_type sd_s sd_dpl sd_p lim_19_16 sd_avl sd_rsv1 sd_db sd_g base_31_24]. split_and!.
  - by apply base_fields.
  - fields. done.
  - fields. done.
  - fields. done.
  - fields. done.
Qed.
(** While a process runs, its [in] and [out] instructions fault whatever the bit map is
    taken to be, and an interrupt finds the kernel stack of the process, in a segment of
    the kernel's. *)
Theorem switch_tss_protects ts kstack gdt map_bit port : length gdt = NSEGS -> 0 <= ts < 2 ^ 32 -> 0 <= kstack < 2 ^ 32 - KSTACKSIZE -> 0 <= port < 2 ^ 16 ->
  let '(gdt', t, sel) := switch_tss ts kstack gdt in
  exists d, gdt' !! Z.to_nat (Z.shiftr sel 3) = Some d /\ hw_base (packed_seg d) = ts /\ io_permitted (packed_seg d) t map_bit port = false /\
    ts_esp0 t = kstack + KSTACKSIZE /\ Z.shiftr (ts_ss0 t) 3 = SEG_KDATA.
Proof.
  intros Hl Ht Hk Hp. unfold switch_tss. destruct (tss_fields ts Ht) as (E1 & E2 & _). exists (clear_s (SEG16 STS_T32A ts (sizeof_taskstate - 1) 0)). split_and!.
  - change (Z.to_nat (Z.shiftr (Z.shiftl SEG_TSS 3) 3)) with (Z.to_nat SEG_TSS). rewrite list_lookup_alter_eq, list_lookup_insert_eq; [done|]. rewrite Hl. vm_compute. lia.
  - done.
  - unfold io_permitted, io_map_byte. rewrite E2. cbn [ts_iomb]. pose proof (Z.div_pos port 8 ltac:(lia) ltac:(lia)). unfold sizeof_taskstate. by replace (_ <=? _) with false by lia.
  - cbn [ts_esp0]. apply u32_small. unfold KSTACKSIZE in *. lia.
  - done.
Qed.
