(* ===== verification/Boot.v ===== *)
(** The boot loader ([bootmain.c]): it reads the kernel, an ELF file that starts at sector
    1 of the first drive, to the addresses its headers say, and jumps to its entry.

    The drive is the interface [Drive] of [Ide], and the theorem is proved for every
    drive that works ([DriveOk]). *)

From S2P Require Import Prelude CString Bytes Log Ide Exec.

Definition SECTSIZE : Z := 512.

(** Physical memory and the drive. *)
Record boot (DV : Type) := mk_boot { bt_mem : memory; bt_dv : DV }.
Arguments mk_boot {DV} _ _.
Arguments bt_mem {DV} _ _.
Arguments bt_dv {DV} _.

Definition bytes_at (m : memory) (a : Z) (n : nat) : list Z := map (fun k => m (a + Z.of_nat k)) (seq 0 n).
Fixpoint put_bytes (m : memory) (a : Z) (l : list Z) : memory :=
  match l with
  | [] => m
  | x :: l' => put_bytes (store m a x) (a + 1) l'
  end.
(** [paddr], which [exec] does not read. *)
Definition ph_paddr (b : list Z) : Z := get32 b 12.

Section Boot.
Context {DV : Type} `{Drive DV} (patience : nat).
Notation B := (M (boot DV)).

Definition boot_inb (port : Z) : B Z :=
  s ← get;
  modify (fun s => mk_boot (bt_mem s) (snd (dv_inb port (bt_dv s)))) ;;
  mret (fst (dv_inb port (bt_dv s))).
Definition boot_outb (port v : Z) : B unit := modify (fun s => mk_boot (bt_mem s) (dv_outb port (u8 v) (bt_dv s))).
Definition boot_insl (port addr : Z) (cnt : nat) : B unit :=
  modify (fun s => mk_boot (put_bytes (bt_mem s) addr (fst (dv_insl port cnt (bt_dv s)))) (snd (dv_insl port cnt (bt_dv s)))).

Fixpoint waitdisk_loop (fuel : nat) : B unit :=
  match fuel with
  | O => faults OutOfFuel
  | S f => r ← boot_inb 0x1F7; if negb (Z.land r 0xC0 =? 0x40) then waitdisk_loop f else mret tt
  end.
Definition waitdisk : B unit := waitdisk_loop patience.

Definition readsect (dst offset : Z) : B unit :=
  waitdisk ;;
  boot_outb 0x1F2 1 ;;
  boot_outb 0x1F3 offset ;;
  boot_outb 0x1F4 (Z.shiftr offset 8) ;;
  boot_outb 0x1F5 (Z.shiftr offset 16) ;;
  boot_outb 0x1F6 (Z.lor (Z.shiftr offset 24) 0xE0) ;;
  boot_outb 0x1F7 0x20 ;;
  waitdisk ;;
  boot_insl 0x1F0 dst (Z.to_nat (SECTSIZE / 4)).

Fixpoint readseg_loop (fuel : nat) (pa epa offset : Z) : B unit :=
  if pa <? epa then
    match fuel with
    | O => faults OutOfFuel
    | S f => readsect pa offset ;; readseg_loop f (u32 (pa + SECTSIZE)) epa (u32 (offset + 1))
    end
  else mret tt.
(** The fuel is the number of sectors from [pa] to [epa]. *)
Definition readseg (pa count offset : Z) : B unit :=
  let epa := u32 (pa + count) in
  let pa := u32 (pa - offset mod SECTSIZE) in
  readseg_loop (Z.to_nat ((epa - pa) / SECTSIZE + 1)) pa epa (u32 (offset / SECTSIZE + 1)).

Fixpoint segments (n : nat) (ph : Z) : B unit :=
  match n with
  | O => mret tt
  | S n' =>
      m ← gets bt_mem;
      let pa := ph_paddr (bytes_at m ph 32) in
      let h := get_proghdr (bytes_at m ph 32) in
      readseg pa (ph_filesz h) (ph_off h) ;;
      m ← gets bt_mem;
      let h := get_proghdr (bytes_at m ph 32) in
      when (ph_filesz h <? ph_memsz h)
        (modify (fun s => mk_boot (stosb (bt_mem s) (u32 (pa + ph_filesz h)) 0 (Z.to_nat (ph_memsz h - ph_filesz h))) (bt_dv s))) ;;
      segments n' (ph + sizeof_proghdr)
  end.
(** The address jumped to; [None] when it returns to [bootasm.S]. *)
Definition bootmain : B (option Z) :=
  let elf := 0x10000 in
  readseg elf 4096 0 ;;
  m ← gets bt_mem;
  let h := get_elfhdr (bytes_at m elf 52) in
  if negb (eh_magic h =? ELF_MAGIC) then mret None
  else
    segments (Z.to_nat (eh_phnum h)) (elf + eh_phoff h) ;;
    m ← gets bt_mem;
    mret (Some (eh_entry (get_elfhdr (bytes_at m elf 52)))).
End Boot.

(** ** The kernel is loaded *)

Lemma put_bytes_spec l : forall m a x,
  put_bytes m a l x = if (a <=? x) && (x <? a + Z.of_nat (length l)) then nth (Z.to_nat (x - a)) l 0 else m x.
Proof.
  induction l as [|y l IH]; intros m a x; cbn [put_bytes length].
  - by replace ((a <=? x) && (x <? a + Z.of_nat 0)) with false by lia.
  - rewrite IH. destruct (Z.eq_dec x a) as [->|Hx].
    + replace ((a + 1 <=? a) && _) with false by lia. rewrite store_eq. replace ((a <=? a) && _) with true by lia. by rewrite Z.sub_diag.
    + rewrite store_ne by done. replace ((a <=? x) && (x <? a + Z.of_nat (S (length l)))) with ((a + 1 <=? x) && (x <? a + 1 + Z.of_nat (length l))) by lia.
      destruct ((a + 1 <=? x) && _) eqn:E; [|done]. by replace (Z.to_nat (x - a)) with (S (Z.to_nat (x - (a + 1)))) by lia.
Qed.
Lemma bytes_at_ext m m' a n : (forall x, a <= x < a + Z.of_nat n -> m x = m' x) -> bytes_at m a n = bytes_at m' a n.
Proof. intros Hx. unfold bytes_at. apply map_ext_in. intros k Hk. apply in_seq in Hk. apply Hx. lia. Qed.
(** The registers of a read hold the sector. *)
Lemma sector_registers o : 0 <= o < 2 ^ 28 -> let e := u8 (Z.lor (Z.shiftr o 24) 0xE0) in
  lba (u8 o) (u8 (Z.shiftr o 8)) (u8 (Z.shiftr o 16)) e = o /\ drive_bit e = 0.
Proof.
  intros Ho e. assert (Ht : 0 <= Z.shiftr o 24 < 16) by (rewrite Z.shiftr_div_pow2 by lia; split; [apply Z.div_pos; lia|apply Z.div_lt_upper_bound; lia]).
  assert (Ee : Z.land e 15 = Z.shiftr o 24 /\ drive_bit e = 0).
  { unfold e. set (t := Z.shiftr o 24) in *. assert (Hc : t = 0 \/ t = 1 \/ t = 2 \/ t = 3 \/ t = 4 \/ t = 5 \/ t = 6 \/ t = 7 \/ t = 8 \/ t = 9 \/ t = 10 \/ t = 11 \/ t = 12 \/ t = 13 \/ t = 14 \/ t = 15) by lia.
    repeat (destruct Hc as [-> | Hc]; [by split|]). rewrite Hc. by split. }
  destruct Ee as [Ee Ed]. split; [|done]. unfold lba. rewrite Ee, !Z.shiftr_div_pow2 by lia. unfold u8. change (2 ^ 8) with 256. change (2 ^ 16) with 65536. change (2 ^ 24) with 16777216.
  pose proof (Z.div_mod o 256). pose proof (Z.div_mod (o / 256) 256) as E2. pose proof (Z.div_mod (o / 65536) 256) as E3.
  rewrite Z.div_div in E2 by lia. rewrite Z.div_div in E3 by lia. change (256 * 256) with 65536 in *. change (65536 * 256) with 16777216 in *. lia.
Qed.

Section Load.
Context {DV : Type} `{HO : DriveOk DV}.
Implicit Type s : boot DV.

(** Byte [x] of what is on the first drive from sector 1 on. *)
Definition on_disk (d : DV) (x : Z) : Z := nth (Z.to_nat (x mod SECTSIZE)) (dv_sectors d 0 (x / SECTSIZE + 1)) 0.
Definition same_disk (d d' : DV) : Prop := forall r l, dv_sectors d' r l = dv_sectors d r l.
Definition whole (d : DV) : Prop := forall l, length (dv_sectors d 0 l) = 512%nat /\ Forall (fun x => 0 <= x < 256) (dv_sectors d 0 l).

Lemma waitdisk_loop_runs n : forall fuel s, (n < fuel)%nat -> (forall k, (k < n)%nat -> ready (status (polled k (bt_dv s))) = false) ->
  ready (status (polled n (bt_dv s))) = true -> waitdisk_loop fuel s = Ret tt (mk_boot (bt_mem s) (polled (S n) (bt_dv s))).
Proof.
  induction n as [|n IH]; intros [|f] s Hf Hbusy Hr; try lia; cbn [waitdisk_loop]; (rewrite (bind_eq (boot_inb _) _ s _ _ eq_refl)).
  - cbn [polled] in Hr. unfold status, ready in Hr. change 192 with (Z.lor IDE_BSY IDE_DRDY). change 64 with IDE_DRDY. by rewrite Hr.
  - pose proof (Hbusy 0%nat ltac:(lia)) as Hb0. cbn [polled] in Hb0. unfold status, ready in Hb0. change 192 with (Z.lor IDE_BSY IDE_DRDY). change 64 with IDE_DRDY. rewrite Hb0. cbn [negb].
    refine (eq_trans (IH f (mk_boot (bt_mem s) (snd (dv_inb 0x1f7 (bt_dv s)))) _ _ Hr) eq_refl); [lia|]. intros k Hk. exact (Hbusy (S k) ltac:(lia)).
Qed.
Lemma waitdisk_runs s : exists d, waitdisk dv_patience s = Ret tt (mk_boot (bt_mem s) d) /\ same_disk (bt_dv s) d /\
  (forall r l, dv_serving (bt_dv s) r l -> dv_serving d r l).
Proof.
  destruct (ok_ready (bt_dv s)) as (n & Hn & Hb & Hr & _). exists (polled (S n) (bt_dv s)). split; [by apply waitdisk_loop_runs|]. apply polled_ok.
Qed.
Lemma readsect_runs dst o s : 0 <= o < 2 ^ 28 ->
  exists d, readsect dv_patience dst o s = Ret tt (mk_boot (put_bytes (bt_mem s) dst (dv_sectors (bt_dv s) 0 o)) d) /\ same_disk (bt_dv s) d.
Proof.
  intros Ho. destruct (sector_registers o Ho) as [El Ed]. set (e := u8 (Z.lor _ _)) in *. destruct (waitdisk_runs s) as (d0 & E0 & S0 & _).
  set (d1 := commanded 1 (u8 o) (u8 (Z.shiftr o 8)) (u8 (Z.shiftr o 16)) e IDE_CMD_READ d0).
  destruct (ok_read d0 (u8 o) (u8 (Z.shiftr o 8)) (u8 (Z.shiftr o 16)) e) as [R1 R2]. fold d1 in R1, R2. rewrite El, Ed in R2.
  destruct (waitdisk_runs (mk_boot (bt_mem s) d1)) as (d2 & E2 & S2 & V2). destruct (ok_fetch d2 0 o (V2 _ _ R2)) as [F1 F2]. cbn [bt_dv] in S2.
  exists (snd (dv_insl 0x1f0 128 d2)). split.
  - unfold readsect. rewrite (bind_eq _ _ _ _ _ E0). do 6 rewrite (bind_eq (boot_outb _ _) _ _ _ _ eq_refl). cbn [bt_mem bt_dv]. fold e.
    refine (eq_trans (bind_eq _ _ _ _ _ E2) _). unfold boot_insl, modify. cbn [bt_mem bt_dv]. change (Z.to_nat (SECTSIZE / 4)) with 128%nat. by rewrite F1, S2, R1, S0.
  - intros r l. by rewrite F2, S2, R1, S0.
Qed.
Lemma same_whole d d' : same_disk d d' -> whole d -> whole d'.
Proof. intros S W l. by rewrite S. Qed.
Lemma same_on_disk d d' x : same_disk d d' -> on_disk d' x = on_disk d x.
Proof. intros S. unfold on_disk. by rewrite S. Qed.
Lemma on_disk_sector d o k : 0 <= k < 512 -> on_disk d (512 * (o - 1) + k) = nth (Z.to_nat k) (dv_sectors d 0 o) 0.
Proof.
  intros Hk. unfold on_disk, SECTSIZE. replace (512 * (o - 1) + k) with (k + (o - 1) * 512) by lia.
  rewrite Z.mod_add, Z.div_add, Z.mod_small, Z.div_small by lia. by replace (0 + (o - 1) + 1) with o by lia.
Qed.
(** [n] sectors to [pa], from sector [o] on. *)
Lemma readseg_loop_runs n : forall fuel pa epa o s, (n <= fuel)%nat -> whole (bt_dv s) -> 0 <= pa -> pa + 512 * Z.of_nat n < 2 ^ 32 -> 1 <= o ->
  o + Z.of_nat n < 2 ^ 28 -> epa <= pa + 512 * Z.of_nat n -> (n = 0%nat \/ pa + 512 * (Z.of_nat n - 1) < epa) ->
  exists m' d', readseg_loop dv_patience fuel pa epa o s = Ret tt (mk_boot m' d') /\ same_disk (bt_dv s) d' /\
    forall x, m' x = if (pa <=? x) && (x <? pa + 512 * Z.of_nat n) then on_disk (bt_dv s) (512 * (o - 1) + (x - pa)) else bt_mem s x.
Proof.
  induction n as [|n IH]; intros fuel pa epa o s Hf Hw Hpa Hend Ho Hon Hle Hlt.
  - exists (bt_mem s), (bt_dv s). split; [|split; [by intros r l|]].
    + assert (E : pa <? epa = false) by lia. destruct fuel; cbn [readseg_loop]; rewrite E; by destruct s.
    + intros x. by replace ((pa <=? x) && _) with false by lia.
  - destruct fuel as [|f]; [lia|]. cbn [readseg_loop]. replace (pa <? epa) with true by lia.
    destruct (readsect_runs pa o s) as (d & E & Sd); [lia|]. rewrite (bind_eq _ _ _ _ _ E). unfold SECTSIZE. rewrite !u32_small by lia.
    set (s1 := mk_boot _ _). destruct (IH f (pa + 512) epa (o + 1) s1) as (m' & d' & E' & S' & Hm'); try lia; [by apply (same_whole (bt_dv s))|].
    exists m', d'. split; [done|]. split; [intros r l; by rewrite S', Sd|]. intros x. rewrite Hm'. cbn [s1 bt_dv bt_mem]. rewrite (same_on_disk _ _ _ Sd), put_bytes_spec, (proj1 (Hw o)).
    destruct ((pa + 512 <=? x) && _) eqn:E1; [replace ((pa <=? x) && _) with true by lia; f_equal; lia|].
    change (Z.of_nat 512) with 512. destruct ((pa <=? x) && (x <? pa + 512)) eqn:E2.
    + replace ((pa <=? x) && _) with true by lia. by rewrite on_disk_sector by lia.
    + by replace ((pa <=? x) && _) with false by lia.
Qed.
Lemma readseg_runs pa count off s : whole (bt_dv s) -> 0 <= off < 2 ^ 32 -> off mod 512 <= pa -> 0 <= count -> pa + count + 512 <= 2 ^ 32 ->
  exists m' d', readseg dv_patience pa count off s = Ret tt (mk_boot m' d') /\ same_disk (bt_dv s) d' /\
    (forall x, pa <= x < pa + count -> m' x = on_disk (bt_dv s) (off + (x - pa))) /\ (forall x, x < pa - off mod 512 -> m' x = bt_mem s x).
Proof.
  intros Hw Ho Hpa Hc Hend. unfold readseg, SECTSIZE. pose proof (Z.mod_pos_bound off 512 ltac:(lia)) as Hm. pose proof (Z.div_mod off 512 ltac:(lia)) as Hd.
  assert (Hq : 0 <= off / 512 < 2 ^ 23) by (split; [apply Z.div_pos; lia|apply Z.div_lt_upper_bound; lia]).
  rewrite !u32_small by lia. set (p := pa - off mod 512). set (n := (pa + count - p + 511) / 512).
  assert (Hn : 512 * n <= pa + count - p + 511 < 512 * n + 512) by (unfold n; pose proof (Z.div_mod (pa + count - p + 511) 512); pose proof (Z.mod_pos_bound (pa + count - p + 511) 512); lia).
  assert (Hf : n <= (pa + count - p) / 512 + 1) by (unfold n; rewrite <- Z.div_add by lia; apply Z.div_le_mono; lia).
  destruct (readseg_loop_runs (Z.to_nat n) (Z.to_nat ((pa + count - p) / 512 + 1)) p (pa + count) (off / 512 + 1) s) as (m' & d' & E & S & Hm'); try done; try lia.
  exists m', d'. split; [done|]. split; [done|]. split; intros x Hx; rewrite Hm'.
  - replace ((p <=? x) && _) with true by lia. f_equal. lia.
  - by replace ((p <=? x) && _) with false by lia.
Qed.

(** A segment, by the bytes of its header: what it takes in memory, and that it is there. *)
Notation seg_off b := (ph_off (get_proghdr b)).
Notation seg_filesz b := (ph_filesz (get_proghdr b)).
Notation seg_memsz b := (ph_memsz (get_proghdr b)).
Definition seg_start (b : list Z) : Z := ph_paddr b - seg_off b mod 512.
Definition seg_end (b : list Z) : Z := ph_paddr b + Z.max (seg_filesz b) (seg_memsz b).
Definition is_loaded (K : Z -> Z) (m : memory) (b : list Z) : Prop :=
  (forall k, 0 <= k < seg_filesz b -> m (ph_paddr b + k) = K (seg_off b + k)) /\
  (forall k, seg_filesz b <= k < seg_memsz b -> m (ph_paddr b + k) = 0).
(** Segments above the page that the headers are read to, each above those before. *)
Fixpoint laid_out (lo : Z) (bs : list (list Z)) : Prop :=
  match bs with
  | [] => True
  | b :: bs' => lo <= seg_start b /\ seg_end b + 512 <= 2 ^ 32 /\ laid_out (seg_end b) bs'
  end.
Definition headers_at (m : memory) (ph : Z) (bs : list (list Z)) : Prop := forall i b, bs !! i = Some b -> b = bytes_at m (ph + 32 * Z.of_nat i) 32.
Lemma headers_keep m m' ph bs top : (forall x, x < top -> m' x = m x) -> ph + 32 * Z.of_nat (length bs) <= top -> headers_at m ph bs -> headers_at m' ph bs.
Proof.
  intros Hx Ht Hh i b Hi. rewrite (Hh i b Hi). apply lookup_lt_Some in Hi. apply bytes_at_ext. intros x Hr. rewrite Hx by lia. done.
Qed.
Definition header_fields (b : list Z) : Prop := 0 <= seg_off b < 2 ^ 32 /\ 0 <= seg_filesz b < 2 ^ 32 /\ 0 <= seg_memsz b < 2 ^ 32.
Lemma header_fields_bytes b : Forall (fun x => 0 <= x < 256) b -> header_fields b.
Proof. intros Hb. repeat split; apply (get_le_range 4 b _ Hb). Qed.

Lemma segment_runs pa b s : whole (bt_dv s) -> header_fields b -> pa = ph_paddr b -> seg_off b mod 512 <= pa -> seg_end b + 512 <= 2 ^ 32 ->
  exists m' d', readseg dv_patience pa (seg_filesz b) (seg_off b) s = Ret tt (mk_boot m' d') /\ same_disk (bt_dv s) d' /\
    (forall x, x < seg_start b -> m' x = bt_mem s x) /\
    let m2 := if seg_filesz b <? seg_memsz b then stosb m' (u32 (pa + seg_filesz b)) 0 (Z.to_nat (seg_memsz b - seg_filesz b)) else m' in
    (forall x, x < seg_start b -> m2 x = bt_mem s x) /\ is_loaded (on_disk (bt_dv s)) m2 b.
Proof.
  intros Hw (F1 & F2 & F3) -> Hpa He. unfold seg_end in He. destruct (readseg_runs (ph_paddr b) (seg_filesz b) (seg_off b) s) as (m' & d' & E & S & Hin & Hout); try done; try lia.
  exists m', d'. do 3 (split; [done|]). pose proof (Z.mod_pos_bound (seg_off b) 512 ltac:(lia)). rewrite u32_small by lia. cbv zeta. destruct (Z.ltb_spec (seg_filesz b) (seg_memsz b)).
  - split; [|split].
    + intros x Hx. unfold seg_start in Hx. rewrite stosb_spec. replace (_ && _) with false by lia. by apply Hout.
    + intros k Hk. rewrite stosb_spec. replace (_ && _) with false by lia. rewrite Hin by lia. f_equal. lia.
    + intros k Hk. rewrite stosb_spec. by replace (_ && _) with true by lia.
  - split; [done|]. split; [|lia]. intros k Hk. rewrite Hin by lia. f_equal. lia.
Qed.
Lemma segments_run bs : forall ph lo s, whole (bt_dv s) -> 0 <= lo -> ph + 32 * Z.of_nat (length bs) <= lo -> Forall header_fields bs -> laid_out lo bs -> headers_at (bt_mem s) ph bs ->
  exists m' d', segments dv_patience (length bs) ph s = Ret tt (mk_boot m' d') /\ same_disk (bt_dv s) d' /\
    (forall x, x < lo -> m' x = bt_mem s x) /\ Forall (is_loaded (on_disk (bt_dv s)) m') bs.
Proof.
  induction bs as [|b bs IH]; intros ph lo s Hw Hlo Hph HF Hl Hh.
  { exists (bt_mem s), (bt_dv s). split; [by destruct s|]. done. }
  destruct Hl as (H1 & H2 & H3). inversion_clear HF as [|? ? HF0 HFs]. pose proof HF0 as (F1 & F2 & F3). pose proof (Z.mod_pos_bound (seg_off b) 512 ltac:(lia)) as Hmod.
  assert (Eb : bytes_at (bt_mem s) ph 32 = b) by (rewrite (Hh 0%nat b eq_refl); f_equal; lia). cbn [length] in Hph. unfold seg_start in H1.
  destruct (segment_runs (ph_paddr b) b s) as (m' & d' & E & Sd & K1 & K2 & L2); try done; try lia.
  assert (Eb' : bytes_at m' ph 32 = b) by (transitivity (bytes_at (bt_mem s) ph 32); [|done]; apply bytes_at_ext; intros x Hx; apply K1; unfold seg_start; lia).
  set (m2 := if _ <? _ then _ else _) in *. cbn [segments length]. rewrite (bind_eq (gets bt_mem) _ _ _ _ eq_refl). rewrite Eb. rewrite (bind_eq _ _ _ _ _ E), (bind_eq (gets bt_mem) _ _ _ _ eq_refl). cbn [bt_mem]. rewrite Eb'.
  assert (Ez : when (seg_filesz b <? seg_memsz b) (modify (fun s : boot DV => mk_boot (stosb (bt_mem s) (u32 (ph_paddr b + seg_filesz b)) 0 (Z.to_nat (seg_memsz b - seg_filesz b))) (bt_dv s))) (mk_boot m' d') = Ret tt (mk_boot m2 d'))
    by (unfold m2; by destruct (_ <? _)).
  rewrite (bind_eq _ _ _ _ _ Ez). clear Ez. change sizeof_proghdr with 32.
  destruct (IH (ph + 32) (seg_end b) (mk_boot m2 d')) as (m3 & d3 & E3 & S3 & K3 & L3); try done; cbn [bt_dv bt_mem].
  - by apply (same_whole (bt_dv s)).
  - unfold seg_end. lia.
  - unfold seg_end. lia.
  - apply (headers_keep (bt_mem s) _ _ _ lo); [intros x Hx; apply K2; unfold seg_start; lia|lia|]. intros i c Hi. rewrite (Hh (S i) c Hi). f_equal. lia.
  - exists m3, d3. split; [done|]. split; [intros r l; by rewrite S3, Sd|]. split.
    + intros x Hx. rewrite K3 by (unfold seg_end; lia). apply K2. unfold seg_start. lia.
    + constructor.
      * destruct L2 as [L2 L2']. split; intros k Hk; rewrite K3 by (unfold seg_end; lia); [by apply L2|by apply L2'].
      * eapply Forall_impl; [exact L3|]. intros c [C1 C2]. cbn [bt_dv] in C1. split; [|done]. intros k Hk. rewrite C1 by done. by apply same_on_disk.
Qed.

(** A drive with a kernel: an ELF file whose program headers are in its first page and
    whose segments are loaded in ascending order, above that page. *)
Definition kernel_header (d : DV) : elfhdr := get_elfhdr (bytes_at (on_disk d) 0 52).
Definition program_header (d : DV) (i : nat) : list Z := bytes_at (on_disk d) (eh_phoff (kernel_header d) + 32 * Z.of_nat i) 32.
Definition program_headers (d : DV) : list (list Z) := map (program_header d) (seq 0 (Z.to_nat (eh_phnum (kernel_header d)))).
Record bootable (d : DV) : Prop := mk_bootable {
  bo_whole : whole d;
  bo_magic : eh_magic (kernel_header d) = ELF_MAGIC;
  bo_headers : 32 * eh_phnum (kernel_header d) + eh_phoff (kernel_header d) <= 4096;
  bo_segments : laid_out 0x11000 (program_headers d) }.

Lemma on_disk_range d x : whole d -> 0 <= on_disk d x < 256.
Proof. intros Hw. unfold on_disk. destruct (Hw (x / SECTSIZE + 1)) as [_ HF]. rewrite nth_lookup. destruct (_ !! _) eqn:E; cbn; [|lia]. rewrite Forall_lookup in HF. by eapply HF. Qed.
Lemma on_disk_bytes d a n : whole d -> Forall (fun x => 0 <= x < 256) (bytes_at (on_disk d) a n).
Proof. intros Hw. unfold bytes_at. apply Forall_map, Forall_true. intros k. by apply on_disk_range. Qed.
Lemma page_bytes m d a n : (forall x, 0x10000 <= x < 0x11000 -> m x = on_disk d (x - 0x10000)) -> 0 <= a -> a + Z.of_nat n <= 4096 ->
  bytes_at m (0x10000 + a) n = bytes_at (on_disk d) a n.
Proof. intros Hm Ha Hn. unfold bytes_at. apply map_ext_in. intros k Hk. apply in_seq in Hk. rewrite Hm by lia. f_equal. lia. Qed.
Lemma program_headers_at d m : bootable d -> (forall x, 0x10000 <= x < 0x11000 -> m x = on_disk d (x - 0x10000)) ->
  headers_at m (0x10000 + eh_phoff (kernel_header d)) (program_headers d) /\ Forall header_fields (program_headers d).
Proof.
  intros [Hw _ Hn _] Hm. pose proof (get_le_range 4 _ 28 (on_disk_bytes d 0 52 Hw)) as Ho. change (get_le 4 _ 28) with (eh_phoff (kernel_header d)) in Ho. split.
  - intros i b Hi. unfold program_headers in Hi. apply list_lookup_fmap_Some in Hi as (j & -> & Hj). apply lookup_seq in Hj as [-> Hj]. rewrite <- Z.add_assoc, (page_bytes m d) by (try done; lia). done.
  - apply Forall_map, Forall_true. intros i. apply header_fields_bytes, on_disk_bytes, Hw.
Qed.

(** C14: from a drive with a kernel, [bootmain] loads every segment, the bytes of the file to
    the address in its header and zeros after them, and jumps to the kernel's entry
    point. *)
Theorem bootmain_loads_kernel s : bootable (bt_dv s) ->
  exists s', bootmain dv_patience s = Ret (Some (eh_entry (kernel_header (bt_dv s)))) s' /\
    Forall (is_loaded (on_disk (bt_dv s)) (bt_mem s')) (program_headers (bt_dv s)).
Proof.
  intros Hb. pose proof Hb as [Hw Hmag Hn Hl]. set (d := bt_dv s) in *.
  destruct (readseg_runs 0x10000 4096 0 s) as (m1 & d1 & E1 & S1 & Hm1 & _); try done; fold d in S1, Hm1.
  assert (Hpage : forall x, 0x10000 <= x < 0x11000 -> m1 x = on_disk d (x - 0x10000)) by (intros x Hx; rewrite Hm1 by lia; f_equal; lia).
  assert (Eh : get_elfhdr (bytes_at m1 0x10000 52) = kernel_header d) by (unfold kernel_header; f_equal; apply (page_bytes m1 d 0 52 Hpage); lia).
  destruct (program_headers_at d m1 Hb Hpage) as [Hh HF].
  assert (Elen : length (program_headers d) = Z.to_nat (eh_phnum (kernel_header d))) by (unfold program_headers; by rewrite length_map, length_seq).
  pose proof (get_le_range 2 _ 44 (on_disk_bytes d 0 52 Hw)) as Hp. change (get_le 2 _ 44) with (eh_phnum (kernel_header d)) in Hp.
  destruct (segments_run (program_headers d) (0x10000 + eh_phoff (kernel_header d)) 0x11000 (mk_boot m1 d1)) as (m2 & d2 & E2 & S2 & K2 & L2); try done; cbn [bt_dv bt_mem]; [by apply (same_whole d)|lia|].
  exists (mk_boot m2 d2). split.
  - unfold bootmain. rewrite (bind_eq _ _ _ _ _ E1), (bind_eq (gets bt_mem) _ _ _ _ eq_refl). cbn [bt_mem]. rewrite Eh, Hmag, Z.eqb_refl. cbn [negb].
    rewrite <- Elen, (bind_eq _ _ _ _ _ E2), (bind_eq (gets bt_mem) _ _ _ _ eq_refl). cbn [bt_mem].
    rewrite (bytes_at_ext m2 m1 0x10000 52), Eh by (intros x Hx; apply K2; lia). done.
  - cbn [bt_mem]. eapply Forall_impl; [exact L2|]. intros b [B1 B2]. cbn [bt_dv] in B1. split; [|done]. intros k Hk. rewrite B1 by done. by apply same_on_disk.
Qed.
End Load.

(** A kernel of one segment, 600 bytes from the second page of the file and 400 zeros. *)
Definition demo_kernel : Z -> Z -> block := fun _ l =>
  if l =? 1 then
    let h := put16 (put32 (put32 (put32 (replicate 512 0) 0 ELF_MAGIC) 24 0x10000c) 28 52) 44 1 in
    put32 (put32 (put32 (put32 h 56 4096) 64 0x100000) 68 600) 72 1000
  else replicate 512 (l mod 256).
Definition demo_boot : boot sim := mk_boot (fun _ => 7) (mk_sim (fun _ => 0) demo_kernel).
Lemma bootmain_loads_kernel_witness :
  exists s', bootmain 1 demo_boot = Ret (Some 0x10000c) s' /\ bt_mem s' 0x100000 = 9 /\ bt_mem s' 0x100257 = 10 /\ bt_mem s' 0x100258 = 0 /\ bt_mem s' 0x1003e7 = 0.
Proof.
  destruct (bootmain_loads_kernel demo_boot) as (s' & E & L).
  - constructor.
    + intros l. cbn [demo_boot bt_dv dv_sectors sim_ok sm_disk]. unfold demo_kernel. destruct (l =? 1); [vm_compute; split; [done|repeat constructor; done]|].
      split; [by rewrite length_replicate|]. apply Forall_replicate. apply Z.mod_pos_bound. lia.
    + vm_compute. done.
    + vm_compute. done.
    + vm_compute. repeat split; done.
  - exists s'. split; [exact E|]. assert (Eh : program_headers (bt_dv demo_boot) = [program_header (bt_dv demo_boot) 0]) by (vm_compute; done).
    rewrite Eh in L. apply Forall_cons in L as [[L1 L2] _].
    repeat split; [refine (eq_trans (L1 0 _) _)|refine (eq_trans (L1 599 _) _)|refine (eq_trans (L2 600 _) _)|refine (eq_trans (L2 999 _) _)]; vm_compute; repeat split; done.
Defined.
