(* ===== verification/Startup.v ===== *)
(** Starting the other CPUs ([startothers] and [mpmain] of [main.c]).

    The CPU that boots gives each other CPU a stack and has the local APIC start it at a
    copy of [entryother.S]; that code reads its stack, the page directory and the
    function to call from the words below it, which is what a [launch] records.  Then
    [mpmain] readies the CPU's part of the scheduler's state. *)

From S2P Require Import Prelude CString Locks Guarded Kalloc Machine Devices ProcDefs Sched.

Notation word := Mp.word.

Lemma word_ext n : forall m m' a, (forall x, a <= x < a + Z.of_nat n -> m x = m' x) -> word n m a = word n m' a.
Proof. induction n as [|n IH]; intros m m' a Hx; [done|]. cbn [Mp.word]. rewrite Hx by lia. f_equal. f_equal. apply IH. intros x Hr. apply Hx. lia. Qed.
Lemma word_store32 m a v : 0 <= v < 2 ^ 32 -> word 4 (store32 m a v) a = v.
Proof.
  intros Hv. cbn [Mp.word]. rewrite !store32_spec. repeat (replace (_ && _) with true by lia). rewrite !Z.shiftr_div_pow2 by lia. unfold u8.
  replace (8 * (a - a)) with 0 by lia. replace (8 * (a + 1 - a)) with 8 by lia. replace (8 * (a + 1 + 1 - a)) with 16 by lia. replace (8 * (a + 1 + 1 + 1 - a)) with 24 by lia.
  change (2 ^ 0) with 1. change (2 ^ 8) with 256. change (2 ^ 16) with 65536. change (2 ^ 24) with 16777216. rewrite Z.div_1_r.
  pose proof (Z.div_mod v 256). pose proof (Z.div_mod (v / 256) 256) as E2. pose proof (Z.div_mod (v / 65536) 256) as E3.
  rewrite Z.div_div in E2 by lia. rewrite Z.div_div in E3 by lia. change (256 * 256) with 65536 in *. change (65536 * 256) with 16777216 in *.
  rewrite (Z.mod_small (v / 16777216)) by (split; [apply Z.div_pos; lia|apply Z.div_lt_upper_bound; lia]). lia.
Qed.

(** What [entryother.S] reads: the stack, the function to call, the page directory. *)
Record launch := mk_launch { la_esp : Z; la_eip : Z; la_cr3 : Z }.
Record smp (L : Type) := mk_smp { sm_kmem : guarded kmem; sm_hw : Lapic.hw L; sm_launched : list launch }.
Arguments mk_smp {L} _ _ _.
Arguments sm_kmem {L} _.
Arguments sm_hw {L} _.
Arguments sm_launched {L} _.

Definition CODE : Z := 0x7000.
Definition KSTACKSIZE : Z := 4096.

Section Startothers.
Context {L : Type} `{Lapic.Apic L}.
(** [me] is this CPU, [entryother] the bytes of [entryother.S]; CPU [i] sets [started]
    after [answer i] reads of it, of which there are at most [patience]. *)
Context (me : nat) (entryother : list Z) (mpenter entrypgdir : Z) (answer : nat -> nat) (patience : nat).
Notation S_ := (M (smp L)).

Definition on_kmem {A} : M (guarded kmem) A -> S_ A := zoom sm_kmem (fun k s => mk_smp k (sm_hw s) (sm_launched s)).
Definition on_hw {A} : M (Lapic.hw L) A -> S_ A := zoom sm_hw (fun h s => mk_smp (sm_kmem s) h (sm_launched s)).
Definition on_mem (f : memory -> memory) : S_ unit :=
  modify (fun s => mk_smp (sm_kmem s) (Lapic.mk_hw (Lapic.hw_lapic (sm_hw s)) (f (Lapic.hw_mem (sm_hw s))) (Lapic.hw_ports (sm_hw s))) (sm_launched s)).
Fixpoint copy_in (l : list Z) (a : Z) (m : memory) : memory :=
  match l with
  | [] => m
  | x :: l' => copy_in l' (a + 1) (store m a x)
  end.
(** The other CPU starts. *)
Definition enter : S_ unit :=
  modify (fun s => let m := Lapic.hw_mem (sm_hw s) in
    mk_smp (sm_kmem s) (sm_hw s) (sm_launched s ++ [mk_launch (word 4 m (CODE - 4)) (word 4 m (CODE - 8)) (word 4 m (CODE - 12))])).
Fixpoint wait_started (fuel k : nat) : S_ unit :=
  match fuel with
  | O => faults OutOfFuel
  | S f => match k with O => mret tt | S k' => wait_started f k' end
  end.
Fixpoint start_loop (i : nat) (apicids : list Z) : S_ unit :=
  match apicids with
  | [] => mret tt
  | apicid :: rest =>
      if (i =? me)%nat then start_loop (S i) rest
      else
        stack ← on_kmem (kalloc me);
        on_mem (fun m => store32 m (CODE - 4) (u32 (stack + KSTACKSIZE))) ;;
        on_mem (fun m => store32 m (CODE - 8) mpenter) ;;
        on_mem (fun m => store32 m (CODE - 12) (V2P entrypgdir)) ;;
        on_hw (Lapic.lapicstartap apicid CODE) ;;
        enter ;;
        wait_started patience (answer i) ;;
        start_loop (S i) rest
  end.
Definition startothers (apicids : list Z) : S_ unit :=
  on_mem (copy_in entryother CODE) ;;
  start_loop 0 apicids.
End Startothers.

(** [started] is set at the end; the message is left out. *)
Definition mpmain (me : nat) : M pstate unit :=
  upd_cpu me (fun c => mk_kcpu (c_apicid c) (c_intr c) (c_proc c) 0 2 0).

(** ** Every other CPU is started *)

Section Starts.
Context {L : Type} `{HO : Lapic.ApicOk L}.
Context (kend : Z) (me : nat) (entryother : list Z) (mpenter entrypgdir : Z) (answer : nat -> nat) (patience : nat).
Hypothesis Hmpenter : 0 <= mpenter < 2 ^ 32.
Hypothesis Hanswer : forall i, (answer i < patience)%nat.

(** The CPUs but this one, from number [i] on. *)
Fixpoint others (i : nat) (apicids : list Z) : list Z :=
  match apicids with
  | [] => []
  | apicid :: rest => if (i =? me)%nat then others (S i) rest else apicid :: others (S i) rest
  end.
Definition launch_on (page : Z) : launch := mk_launch (page + KSTACKSIZE) mpenter (V2P entrypgdir).
Definition startup_ipis (apicid : Z) : list Lapic.ipi :=
  [Lapic.mk_ipi apicid 5 0 true false; Lapic.mk_ipi apicid 5 0 false false; Lapic.mk_ipi apicid 6 7 false false; Lapic.mk_ipi apicid 6 7 false false].

Lemma wait_started_runs k : forall fuel (s : smp L), (k < fuel)%nat -> wait_started fuel k s = Ret tt s.
Proof. induction k as [|k IH]; intros [|f] s Hf; try lia; [done|]. cbn [wait_started]. apply IH. lia. Qed.
(** The parameters are what the code below [CODE] reads. *)
Lemma parameters m m' esp : 0 <= esp < 2 ^ 32 -> (forall a, a < 0x467 \/ 0x46a < a ->
    m' a = store32 (store32 (store32 m (CODE - 4) esp) (CODE - 8) mpenter) (CODE - 12) (V2P entrypgdir) a) ->
  word 4 m' (CODE - 4) = esp /\ word 4 m' (CODE - 8) = mpenter /\ word 4 m' (CODE - 12) = V2P entrypgdir.
Proof.
  intros He Hm. set (m3 := store32 _ (CODE - 12) _) in Hm. unfold CODE in *. assert (Hw : forall a, 0x6ff4 <= a <= 0x6ffc -> word 4 m' a = word 4 m3 a) by (intros a Ha; apply word_ext; intros x Hx; apply Hm; lia).
  rewrite !Hw by lia. unfold m3. split_and!.
  - rewrite (word_ext 4 _ (store32 m (28672 - 4) esp)); [by apply word_store32|]. intros x Hx. rewrite !store32_spec. by do 2 (replace (_ && _) with false by lia).
  - rewrite (word_ext 4 _ (store32 (store32 m (28672 - 4) esp) (28672 - 8) mpenter)); [by apply word_store32|]. intros x Hx. rewrite (store32_spec _ (28672 - 12)). by replace (_ && _) with false by lia.
  - apply word_store32. unfold V2P. apply u32_range.
Qed.
Lemma page_small v : page kend v -> 0 <= v + KSTACKSIZE < 2 ^ 32.
Proof. intros (_ & _ & H3 & H4). unfold V2P, KERNBASE, PHYSTOP, KSTACKSIZE, u32 in *. destruct (Z_lt_le_dec v 2147483648); [lia|]. rewrite Z.mod_small in H3 by lia. lia. Qed.

Lemma start_loop_runs apicids : forall i l g d m p la, g_quiet g -> pool kend l (g_val g) -> Forall (fun a => 0 <= a < 256) apicids ->
  (length (others i apicids) <= length l)%nat ->
  exists g' d' m' p', start_loop me mpenter entrypgdir answer patience i apicids (mk_smp g (Lapic.mk_hw (Some d) m p) la) =
      Ret tt (mk_smp g' (Lapic.mk_hw (Some d') m' p') (la ++ map launch_on (take (length (others i apicids)) l))) /\
    g_quiet g' /\ pool kend (drop (length (others i apicids)) l) (g_val g') /\
    Lapic.ap_sent d' = Lapic.ap_sent d ++ concat (map startup_ipis (others i apicids)).
Proof.
  induction apicids as [|a rest IH]; intros i l g d m p la Hg Hp Ha Hl; cbn [start_loop others].
  { exists g, d, m, p. cbn [length take map concat drop]. by rewrite !app_nil_r. }
  apply Forall_cons in Ha as [Ha Hr]. cbn [others] in Hl. destruct (i =? me)%nat; [by apply IH|]. cbn [length] in Hl. destruct l as [|v l]; [cbn in Hl; lia|].
  destruct (kalloc_run me g Hg) as (g1 & E1 & Hg1 & V1). destruct (pool_pop kend _ _ Hp) as [Ev Hp1]. cbn [hd tl] in Ev, Hp1.
  assert (Hv : page kend v) by (destruct Hp as (_ & _ & HF); by inversion HF). pose proof (page_small v Hv) as Hs.
  rewrite (bind_eq _ _ _ v (mk_smp g1 (Lapic.mk_hw (Some d) m p) la)) by (unfold on_kmem, zoom; cbn [sm_kmem]; by rewrite E1, Ev).
  do 3 rewrite (bind_eq (on_mem _) _ _ _ _ eq_refl). cbn [sm_kmem sm_hw sm_launched Lapic.hw_lapic Lapic.hw_mem Lapic.hw_ports]. rewrite (u32_small _ Hs).
  set (m1 := store32 _ (CODE - 12) _). destruct (Lapic.startap_runs d m1 p a CODE Ha) as (d2 & m2 & E2 & S2 & M2); [done|done|].
  rewrite (bind_eq (on_hw _) _ _ tt (mk_smp g1 (Lapic.mk_hw (Some d2) m2 (p ++ [(0x70, 0xF); (0x71, 0xA)])) la)) by (unfold on_hw, zoom; cbn [sm_hw]; by rewrite E2).
  rewrite (bind_eq enter _ _ _ _ eq_refl). cbn [sm_kmem sm_hw sm_launched Lapic.hw_mem]. destruct (parameters m m2 (v + KSTACKSIZE) Hs M2) as (-> & -> & ->).
  rewrite (bind_eq _ _ _ _ _ (wait_started_runs _ _ _ (Hanswer i))). change (mk_launch (v + KSTACKSIZE) mpenter (V2P entrypgdir)) with (launch_on v).
  destruct (IH (S i) l g1 d2 m2 (p ++ [(0x70, 0xF); (0x71, 0xA)]) (la ++ [launch_on v])) as (g' & d' & m' & p' & E' & Q' & P' & S'); [done|by rewrite V1|done|cbn in Hl; lia|].
  exists g', d', m', p'. cbn [length take map drop concat]. rewrite E', S', S2. split_and!; [by rewrite <- app_assoc|done|done|]. rewrite <- app_assoc. done.
Qed.

(** [startothers] starts every CPU but its own, each with a page of its own as its stack,
    and each with [mpenter] to call and the boot page directory. *)
Theorem startothers_starts apicids l g d m p la : g_quiet g -> pool kend l (g_val g) -> Forall (fun a => 0 <= a < 256) apicids ->
  (length (others 0 apicids) <= length l)%nat ->
  exists s d', startothers me entryother mpenter entrypgdir answer patience apicids (mk_smp g (Lapic.mk_hw (Some d) m p) la) = Ret tt s /\
    Lapic.hw_lapic (sm_hw s) = Some d' /\ Lapic.ap_sent d' = Lapic.ap_sent d ++ concat (map startup_ipis (others 0 apicids)) /\
    (exists pages, sm_launched s = la ++ map launch_on pages /\ length pages = length (others 0 apicids) /\ NoDup pages /\ Forall (page kend) pages /\
      pool kend (drop (length pages) l) (g_val (sm_kmem s)) /\ l = pages ++ drop (length pages) l).
Proof.
  intros Hg Hp Ha Hl. unfold startothers. rewrite (bind_eq (on_mem _) _ _ _ _ eq_refl). cbn [sm_kmem sm_hw sm_launched Lapic.hw_lapic Lapic.hw_mem Lapic.hw_ports].
  destruct (start_loop_runs apicids 0 l g d (copy_in entryother CODE m) p la Hg Hp Ha Hl) as (g' & d' & m' & p' & E & Q & P & S). eexists _, d'. split; [exact E|]. split; [done|]. split; [done|].
  exists (take (length (others 0 apicids)) l). rewrite length_take, Nat.min_l by done. destruct Hp as (_ & Hnd & HF). split_and!; [done|done| | |done|by rewrite take_drop].
  - rewrite <- (take_drop (length (others 0 apicids)) l) in Hnd. by apply NoDup_app in Hnd as [? _].
  - by apply Forall_take.
Qed.
End Starts.

(** A CPU that has gone through [mpmain] can run the scheduler. *)
Theorem mpmain_ready me s : (me < length (cpus s))%nat -> (length (ptable s) <= NPROC)%nat -> 0 <= rr_index s < 64 ->
  (forall b j, job (ptable s) b j -> 0 <= b < BIG) -> (forall j p, ptable s !! j = Some p -> ready 2 p = true -> p_arrival p < BIG) ->
  (forall j p, ptable s !! j = Some p -> p_state p = RUNNABLE -> p_kstack p <> 0 /\ p_pgdir p <> 0) ->
  exists s', mpmain me s = Ret tt s' /\ sched_ok me s' /\ next_queue (this me s') = 0.
Proof.
  intros Hc Hl Hi Hb Ha Hm. eexists. split; [reflexivity|]. set (c' := mk_kcpu (c_apicid (this me s)) (c_intr (this me s)) (c_proc (this me s)) 0 2 0). assert (Et : this me (set_cpus (<[me := c']> (cpus s)) s) = c').
  { unfold this. cbn [cpus set_cpus]. rewrite nth_lookup, list_lookup_insert_eq by done. done. }
  split; [|by rewrite Et]. constructor; try done; [cbn [cpus set_cpus]; by rewrite length_insert|rewrite Et; cbn; lia].
Qed.
